(* ===== verification/_CoqProject ===== *)
-Q . S2P
Prelude.v
Flags.v
Status.v
Owners.v
GList.v
Fsal.v
LockData.v
LockList.v
LockOps.v
LockWf.v
LockSem.v
LockMerge.v
LockSubtract.v
LockFsalOps.v
LockGrant.v
LockExcl.v
LockCancel.v
LockInv.v
LockReach.v
LockBytes.v
Backends.v
LockProps.v
LockFindings.v
Acl.v
Access.v
AclOps.v
AclProps.v
FsalShare.v
ShareState.v
Block.v
Display.v
Base64.v
ClientData.v
ClientOps.v
Compound.v
ClientInv.v
ClientLife.v
SessionKeep.v
ClientFrame.v
ClientSafe.v
ClientSessions.v
ClientState.v
ClientReaper.v
CompoundSafe.v
ClientRuns.v
ClientProps.v
CompoundOnce.v
CompoundFindings.v
ClientFindings.v
StateTable.v
StateOps.v
StateInv.v
StateSafe.v
StateClose.v
StateRuns.v
StateReplies.v
StateProps.v
StateFindings.v
