(* ===== verification/Prelude.v ===== *)
(** * NFS-Ganesha: a verification of state, access and sharing

    NFS-Ganesha is an NFS server in user space.  Its protocol front ends
    (NFSv3 with NLM, NFSv4, 9P) decode requests and call two layers: the
    State Abstraction Layer (SAL), which keeps the locks, opens and share
    reservations of the clients, and the File System Abstraction Layer
    (FSAL), behind whose interface the file systems are.  The protocols share
    the SAL, so a lock taken by an NLM client excludes an NFSv4 client, and
    they share the access checks of the FSAL, which decide by NFSv4 ACLs or
    by mode bits.  This library models the core of these layers and the
    support code under them; paths below are relative to the source tree's
    [src] directory.

    ** How the code is modelled

    A C function is a function of the state it reads and writes; its output
    parameters and return value are its result.  Integers are [Z], reduced
    to their width where the code computes with them ([u64], [u32], [s32]
    below).  Shared objects live in stores indexed by their address.  A
    mutex or a lock makes the code it protects one step; where the code
    gives up a lock in the middle of an operation, the operation is
    several steps and others run in between (FsalShare.v, ClientRuns.v).  An
    access outside of allocated memory, or to an object that was freed, is
    the outcome [None], and so is a failed assertion; a theorem that a
    function has an outcome says that it is memory safe.  The lock manager is
    the exception: an entry, cookie or block data that is missing is skipped
    there, and that listed entries are allocated is a theorem of its own
    ([entries_alive]).

    What the program calls and does not contain is a parameter.  The
    operations of a backend are the type class [FsalOps] of Fsal.v, and the
    theorems hold for every instance; Backends.v has instances to run the
    model with.  [ClientEnv] of ClientData.v has the configuration, the hash
    functions and what other components do to the state of an owner that is
    released; [OwnerLaws] of ClientLife.v is what the client code relies on:
    an owner comes back without states and without the references they held.
    These laws are assumed: [state_nfs4_owner_unlock_all] (SAL/state_lock.c)
    and [release_openstate] (SAL/nfs4_state.c) are not modelled, and they can
    give up or try again without end when the backend fails.
    [FileOps] of Compound.v has the operations of a compound that work on
    files, and the checks of the current file handle and of the export.
    The states of NFSv4 use the client ids through the class [Clients] and the
    objects of the file system through [Objects], both of StateTable.v; their
    law is in StateInv.v: a reference that is held keeps a client id.
    StateRuns.v shows that the client ids of ClientData.v satisfy it.  Objects
    have no law: [w_gone] in the state says which of them [create_handle] does
    not find at the moment, and a run may change it at any time ([MayLose] says
    whether it does; with [may_lose] false the lost states of the theorems
    below do not exist).
    The result of a system call or of an allocation is an argument of the
    step.

    ** The files

    Foundations:
    - Prelude.v: machine integers, list and option lemmas, hint databases;
    - Flags.v: flag words and counting their flags; Block.v: blocks of memory;
    - Status.v: the status codes of all layers and their conversions
      (SAL/state_misc.c, Protocols/NLM/nlm_util.c, support/nfs_convert.c);
    - Owners.v: lock owners of the three protocols and their comparison
      (SAL/state_misc.c, nlm_owner.c, 9p_owner.c, nfs4_owner.c);
    - GList.v: the intrusive lists of include/gsh_list.h on their pointers;
    - Fsal.v: the backend interface and [fsal_open] (FSAL/fsal_helper.c).

    The lock manager, SAL/state_lock.c:
    - LockData.v: entries, block data, cookies and the lists that link them
      ([sal] is the state of the whole manager);
    - LockList.v: conflict search, merge and subtraction on a lock list;
    - LockOps.v: test, lock, unlock, cancel, grants and callbacks, one
      definition per function;
    - LockWf.v, LockSem.v, LockMerge.v, LockSubtract.v, LockFsalOps.v,
      LockGrant.v, LockExcl.v, LockCancel.v, LockInv.v, LockReach.v,
      LockBytes.v: the invariants, the meaning of a lock list in bytes, and
      the lemmas about each function;
    - LockProps.v, LockFindings.v: the theorems.

    Access, FSAL/access_check.c, FSAL/commonlib.c and FSAL/fsal_helper.c:
    - Acl.v, Access.v: ACLs and the access check;
    - AclOps.v, AclProps.v: inheritance, conversion from and to mode bits,
      and the checks for open, setattr, remove and rename.

    Share reservations:
    - FsalShare.v: the counters of backends with extended operations
      (FSAL/commonlib.c) and their use in FSAL/FSAL_VFS/file.c;
    - ShareState.v: the counters of the SAL for the other backends
      (SAL/state_share.c) and their use by OPEN, OPEN_DOWNGRADE, CLOSE and
      anonymous I/O.

    Client identities of NFSv4, SAL/nfs4_clientid.c, nfs4_lease.c,
    nfs41_session_id.c, and the operations of Protocols/NFS on them:
    - ClientData.v: client records, client ids, sessions, owners and leases in
      their stores and tables ([client_world]), with the functions that count
      references, insert, confirm and expire, in a monad of state and failure;
    - ClientOps.v: SETCLIENTID, SETCLIENTID_CONFIRM, EXCHANGE_ID,
      CREATE_SESSION, DESTROY_CLIENTID, DESTROY_SESSION, RENEW, what OPEN, LOCK
      and CLOSE do to a client id, the reaper
      (MainNFSD/nfs_reaper_thread.c) and the release of an address
      (SAL/nfs4_recovery.c);
    - ClientInv.v: a calculus of weakest preconditions for the monad and the
      invariant, which accounts for every reference;
    - ClientLife.v, ClientFrame.v: the lemmas about the functions of
      ClientData.v, and what they leave unchanged;
    - ClientSafe.v, ClientSessions.v, ClientState.v, ClientReaper.v: the
      operations;
    - ClientRuns.v: executions as sequences of events;
    - ClientProps.v, ClientFindings.v: the theorems.

    Compounds and sessions, Protocols/NFS/nfs4_Compound.c and
    nfs4_op_sequence.c:
    - Compound.v: [nfs4_Compound] with its checks and its loop over the
      operations, SEQUENCE, and the cache of replies in the slots; the same
      compound as steps ([start_compound], [advance]), which are the events of
      ClientRuns.v;
    - SessionKeep.v: the client code leaves the slots of sessions alone;
    - CompoundSafe.v: a step keeps the invariant of ClientInv.v, with what a
      compound in progress holds;
    - CompoundOnce.v, CompoundFindings.v: the theorems.

    States and stateids of NFSv4, SAL/nfs4_state_id.c, nfs4_state.c,
    nfs4_owner.c, and the operations of Protocols/NFS on them:
    - StateTable.v: states, the tables by stateid and by file and owner,
      references, [state_add] and [state_del], [nfs4_Check_Stateid], and the
      sequence numbers and saved responses of v4.0 owners;
    - StateOps.v: OPEN, OPEN_CONFIRM, LOCK, LOCKU, CLOSE, FREE_STATEID and
      RELEASE_LOCKOWNER, with the answers of the share reservations, the lock
      manager and the backend as arguments;
    - StateInv.v: the laws, the weakest preconditions and the invariant of the
      tables, with the references that operations hold;
    - StateSafe.v, StateClose.v, StateReplies.v: the lemmas about the
      operations and about what a repeated request finds;
    - StateRuns.v: the client ids as an instance of [Clients], and runs of
      interleaved compounds;
    - StateProps.v, StateFindings.v: the theorems.

    Support:
    - Display.v: the buffers of log messages (log/display.c);
    - Base64.v: the encoders and the decoder of support/bsd-base64.c.

    ** What is shown

    Locks (LockProps.v).  In runs whose requests all ask the lock list
    ([orderly]: no reclaims, no backend that blocks locks itself, no retry on
    behalf of the backend), no two owners hold conflicting locks on a byte, and
    a request that conflicts is not granted; LockFindings.v has a run where a
    retry leads to two write locks.  A test never reports a conflict free.  A
    granted lock changes exactly the bytes asked for, through every merge and
    split, as long as no lock of the owner reaches the last offset and none is
    being granted; so does an unlock.  In every run every listed entry is allocated, its reference
    count covers its holders, and the five kinds of lists agree.  The walk
    of the merge over the list it extends ends.  An unlock reaches a backend
    without lock owners as exactly the ranges nobody else holds.
    LockFindings.v has the runs where the code departs from its intention.

    Access (Access.v, AclProps.v).  The ACL check grants a permission
    exactly when the first entry that applies and mentions it allows it, and
    the mode check decides by the caller's class; root is described apart.
    Inheritance stays inside of its allocation and its result is given; the
    conversion from mode bits agrees with the mode check, and four places
    where these functions fail are shown.

    Shares (FsalShare.v, ShareState.v).  Both sets of counters are exactly
    the numbers of reservations after any interleaving, a request is refused
    exactly when it conflicts, and reservations exclude each other in the
    runs where nothing fails late; what the late failures do is shown.

    Clients (ClientProps.v).  Every execution, with compounds in progress
    and a reaper that is overtaken, runs without a use of freed memory or a
    failed assertion, and leaves no dangling pointer.  Requests are [sane]:
    they name client ids of their own minor version, since CREATE_SESSION on a
    v4.0 client id crashes, and CREATE_SESSION is not used after SEQUENCE,
    since it makes the compound save its reply elsewhere.  An operation is one
    step: the windows in which the code has looked up a client id and does not
    yet hold the lock of its record are not modelled.  A client owner has at
    most one confirmed client id.  A run of the reaper removes exactly the client ids without a valid lease; a
    client id with a valid lease is not removed by a reaper that was
    overtaken, unless CREATE_SESSION renewed it; a silent client is gone
    eventually.  ClientFindings.v has the runs where an operation departs from
    its intention.

    Sessions (CompoundOnce.v).  The requests that are accepted on a slot have
    the sequence numbers 1, 2, 3, ..., each one once, in every interleaving of
    compounds, operation by operation, with each other, with the reaper and
    with time.  A request that is not accepted has no effect on files.  One
    that is sent again after its reply gets that reply, as long as nothing
    newer was accepted on the slot and the session can be used.  Steps that
    follow each other do what [nfs4_Compound] does.  CompoundFindings.v has what
    a request gets that is sent again before its reply.

    States (StateProps.v).  In every run of interleaved compounds, with
    objects that come and go and owners that are freed, the operations on
    states end with a response and use no state, owner or client id that was
    freed.  The runs are [well_used]: a LOCK that counts as a replay finds its
    saved response and names the kind of state it should, CLOSE names an open
    state whose lost lock states have identifiers of their own or a lock state
    without locks, and RELEASE_LOCKOWNER names owners whose states can be
    deleted; StateFindings.v has what happens otherwise.  An owner is freed
    when no state, lock or lock owner refers to it and its client id stays
    held by others while a compound has its lease.  A state of the tables is
    on every list it belongs to; a list has besides only states that were
    deleted while their object was not found.  The check of a stateid answers
    what the lease, the file, the sequence number (compared as 32-bit serial
    numbers), the owner's last request and the type of the state call for.
    OPEN gives a stateid that names an open state of the file; CLOSE removes
    its state with the lock states and no others; LOCKU and CLOSE that are sent
    again get the response they had.  A LOCK that counts as a replay without a
    saved response crashes.

    Owners, statuses, lists and support code.  Being different owners is
    the complement of an equivalence relation; no conversion turns a failure
    into a success.  The pointer operations on lists refine operations on
    sequences.  Base64 decoding inverts encoding, and both stay inside of
    their buffers.  Display buffers hold the concatenation of what was
    appended while it fits, and overflow by one byte when it does not.

    ** Fuel

    Recursion is structural except for loops over linked lists and for
    references that release each other.
    [glist_for_each_safe] in LockData.v has a bound on its steps: the merge
    walk needs at most twice the length of its list, which LockMerge.v proves
    and beyond which the bound changes nothing.  [glist_length] and
    [glist_insert_sorted] in GList.v need the length of the list; the
    refinement theorem gives the longest list as the bound.  In ClientData.v
    [dec_client_id_ref_] has depth 2, since a session holds a reference to its
    client id and one that is freed has no session left; [expire_owners] has
    the length of the list of owners and [reap_bucket] of ClientOps.v that of
    its bucket, since each turn removes an entry.  [release_lock_states] of
    StateOps.v has the number of states of its owner.  Running out is the outcome
    [None], so [client_runs_safe] and [state_ops_safe] show that these bounds
    suffice.  The first assumes fewer than 2^64 - 1 events, after which the
    session counter would repeat, and the lease theorems a lease lifetime of 0 to 120 seconds, the range of
    the configuration.

    ** What is not modelled

    The decoding and encoding of requests and the procedures around the
    modelled operations; the memory of the replies that slots keep; what others
    do between the last operation of a compound and its end, which are one
    step; delegations, layouts and grace periods; of client ids the recovery
    directory and the callback channels; of OPEN the path through [open4_ex] for
    backends with extended operations, and of the saved responses all but the
    status and the stateid; of CLOSE in v4.1 [cleanup_layouts]; of the
    references to owners of states those of running operations and of the cache
    of open owners; NLM share state; the metadata cache; the backends, which
    wrap system calls and foreign libraries; RPC and the duplicate request
    cache, which are built on a library that is not part of the tree;
    configuration and administration.  Of the modelled files, the functions
    that only log or display are left out.  Waiting for locks, and so deadlock,
    is not modelled, nor are the loops that release all locks of a client or an
    export, which repeat modelled operations. *)
From stdpp Require Export base tactics option list gmap sets strings fin_maps.
From Stdlib Require Export ZArith Lia.

#[global] Open Scope Z_scope.

(** ** Machine integers *)

(** [UINT64_MAX] of <stdint.h>. *)
Definition UINT64_MAX : Z := 18446744073709551615.

(** Values of [uint64_t] and [uint32_t] expressions: arithmetic is modulo
    the width. *)
Definition u64 (z : Z) : Z := z mod 18446744073709551616.
Definition u32 (z : Z) : Z := z mod 4294967296.

(** [int32_t] arithmetic, as the atomic increment and decrement of the
    reference counts do it (two's complement). *)
Definition s32 (z : Z) : Z :=
  (z + 2147483648) mod 4294967296 - 2147483648.

Definition is_u64 (z : Z) : Prop := 0 <= z <= UINT64_MAX.

Lemma u64_small z : is_u64 z -> u64 z = z.
Proof. intros H. unfold is_u64, UINT64_MAX in H. apply Z.mod_small. lia. Qed.

Lemma u64_range z : is_u64 (u64 z).
Proof.
  unfold is_u64, u64, UINT64_MAX.
  pose proof (Z.mod_pos_bound z 18446744073709551616). lia.
Qed.

Lemma u32_small z : 0 <= z < 4294967296 -> u32 z = z.
Proof. apply Z.mod_small. Qed.

Lemma u32_range z : 0 <= u32 z < 4294967296.
Proof. apply Z.mod_pos_bound. lia. Qed.

Lemma u32_idemp_add a b : u32 (u32 a + b) = u32 (a + b).
Proof. apply Zplus_mod_idemp_l. Qed.

Lemma s32_small z : -2147483648 <= z < 2147483648 -> s32 z = z.
Proof. intros H. unfold s32. rewrite Z.mod_small; lia. Qed.

(** ** Bit masks *)

Lemma lnot_testbit a n : 0 <= n -> Z.testbit (Z.lnot a) n = negb (Z.testbit a n).
Proof. apply Z.lnot_spec. Qed.

Create Rewrite HintDb bits.
#[export] Hint Rewrite Z.land_spec Z.lor_spec Z.testbit_0_l : bits.
#[export] Hint Rewrite lnot_testbit using lia : bits.

(** Two words are equal when their bits are. *)
Ltac by_bits :=
  apply Z.bits_inj'; let n := fresh "n" in let Hn := fresh "Hn" in
  intros n Hn; autorewrite with bits; try done.

Lemma zero_bits a : a = 0 <-> forall n, 0 <= n -> Z.testbit a n = false.
Proof.
  split; [intros -> n _; apply Z.testbit_0_l|]. intros Ha. by_bits. auto.
Qed.

Lemma nonzero_bit a : a <> 0 -> exists n, 0 <= n /\ Z.testbit a n = true.
Proof.
  intros Ha. destruct (decide (a < 0)) as [Hn|Hn].
  - apply Z.bits_iff_neg_ex in Hn as [k Hk]. exists (Z.max k 0 + 1). split; [lia|].
    apply Hk. lia.
  - exists (Z.log2 a). split; [apply Z.log2_nonneg|]. apply Z.bit_log2. lia.
Qed.

(** A mask test, [(a & b) != 0], finds a common bit. *)
Lemma land_common a b :
  Z.land a b <> 0 <-> exists n, 0 <= n /\ Z.testbit a n = true /\ Z.testbit b n = true.
Proof.
  split.
  - intros (n & Hn & Hb)%nonzero_bit. rewrite Z.land_spec, andb_true_iff in Hb. eauto.
  - intros (n & Hn & Ha & Hb) E. assert (Z.testbit (Z.land a b) n = false) as F
      by (rewrite E; apply Z.testbit_0_l).
    rewrite Z.land_spec, Ha, Hb in F. done.
Qed.

(** A test of one bit. *)
Lemma land_pow2 a k : 0 <= k -> (Z.land a (2 ^ k) =? 0) = negb (Z.testbit a k).
Proof.
  intros Hk. destruct (Z.eqb_spec (Z.land a (2 ^ k)) 0) as [E|Hne].
  - assert (Z.testbit (Z.land a (2 ^ k)) k = false) as F by (rewrite E; apply Z.testbit_0_l).
    rewrite Z.land_spec, Z.pow2_bits_true, andb_true_r in F by done. by rewrite F.
  - apply land_common in Hne as (n & Hn & Ha & Hb).
    rewrite Z.pow2_bits_eqb, Z.eqb_eq in Hb by done. subst. by rewrite Ha.
Qed.

(** ** Decidable equality through a partial inverse *)

Section partial_inv.
Context {A B : Type} `{EqDecision B}.
Context (f : A -> B) (g : B -> option A) (Hgf : forall a, g (f a) = Some a).

#[local] Instance partial_inv_inj : Inj (=) (=) f.
Proof. intros a a' E. pose proof (Hgf a) as H. rewrite E, Hgf in H. congruence. Qed.

Definition partial_inv_eq_dec : EqDecision A :=
  fun a a' => match decide (f a = f a') with
              | left E => left (partial_inv_inj a a' E)
              | right N => right (fun E => N (f_equal f E))
              end.
End partial_inv.
