(* ===== verification/Flags.v ===== *)
(** * Flag words

    Tests of the bits of a flag word, as the code writes them, and the
    number of members of a list of flag words that have a flag: what the
    share counters of the FSAL and of the state layer count. *)
From S2P Require Import Prelude.

Definition flag_set (openflags flag : Z) : bool := negb (Z.land openflags flag =? 0).
Definition flag_int (openflags flag : Z) : Z := Z.b2z (flag_set openflags flag).

Definition counts (flag : Z) (opens : list Z) : Z :=
  Z.of_nat (length (filter (fun o => flag_set o flag = true) opens)).

Lemma counts_nonneg flag opens : 0 <= counts flag opens.
Proof. unfold counts. lia. Qed.

Lemma counts_le flag opens : counts flag opens <= Z.of_nat (length opens).
Proof. unfold counts. pose proof (length_filter (fun o => flag_set o flag = true) opens). lia. Qed.

Lemma counts_app flag l1 l2 : counts flag (l1 ++ l2) = counts flag l1 + counts flag l2.
Proof. unfold counts. rewrite filter_app, length_app. lia. Qed.

Lemma counts_cons flag o l : counts flag (o :: l) = flag_int o flag + counts flag l.
Proof.
  unfold counts, flag_int. rewrite filter_cons. case_decide as H; simpl length.
  - rewrite H. simpl Z.b2z. lia.
  - apply not_true_is_false in H. rewrite H. simpl Z.b2z. lia.
Qed.

Lemma counts_pos flag opens :
  (0 <? counts flag opens) = true <-> exists o, o ∈ opens /\ flag_set o flag = true.
Proof.
  rewrite Z.ltb_lt. induction opens as [|o l IH].
  - split; [done|]. intros (o & Ho & _). by apply elem_of_nil in Ho.
  - rewrite counts_cons. pose proof (counts_nonneg flag l). unfold flag_int.
    destruct (flag_set o flag) eqn:E; simpl Z.b2z.
    + split; [|lia]. intros _. exists o. split; [by left|done].
    + rewrite Z.add_0_l, IH. split; intros (o' & Ho & Hf); exists o'.
      * split; [by right|done].
      * apply elem_of_cons in Ho as [->|Ho]; [congruence|done].
Qed.

Lemma counts_insert flag opens i o n :
  opens !! i = Some o ->
  counts flag (<[i:=n]> opens) = counts flag opens + (flag_int n flag - flag_int o flag).
Proof.
  revert i. induction opens as [|x l IH]; intros [|i] Hi; try done; simplify_eq/=.
  - rewrite !counts_cons. lia.
  - rewrite !counts_cons, (IH i) by done. lia.
Qed.
