(* ===== verification/Status.v ===== *)
(** * Status codes and their conversions

    The status enumerations of the state layer (include/gsh_status.h), the
    FSAL (include/fsal_types.h) and the protocols (include/nfsv41.h,
    include/nfs23.h, include/nlm4.h), and the tables that convert one into
    the other: SAL/state_misc.c, Protocols/NLM/nlm_util.c and
    support/nfs_convert.c. *)
From S2P Require Import Prelude.
From Stdlib Require Import String.
Local Open Scope string_scope.
Local Open Scope Z_scope.

(** [enum state_status], include/gsh_status.h. *)
Inductive state_status_t :=
| STATE_SUCCESS
| STATE_MALLOC_ERROR
| STATE_POOL_MUTEX_INIT_ERROR
| STATE_GET_NEW_LRU_ENTRY
| STATE_INIT_ENTRY_FAILED
| STATE_FSAL_ERROR
| STATE_LRU_ERROR
| STATE_HASH_SET_ERROR
| STATE_NOT_A_DIRECTORY
| STATE_INCONSISTENT_ENTRY
| STATE_BAD_TYPE
| STATE_ENTRY_EXISTS
| STATE_DIR_NOT_EMPTY
| STATE_NOT_FOUND
| STATE_INVALID_ARGUMENT
| STATE_INSERT_ERROR
| STATE_HASH_TABLE_ERROR
| STATE_FSAL_EACCESS
| STATE_IS_A_DIRECTORY
| STATE_FSAL_EPERM
| STATE_NO_SPACE_LEFT
| STATE_READ_ONLY_FS
| STATE_IO_ERROR
| STATE_ESTALE
| STATE_FSAL_ERR_SEC
| STATE_LOCKED
| STATE_QUOTA_EXCEEDED
| STATE_ASYNC_POST_ERROR
| STATE_NOT_SUPPORTED
| STATE_STATE_ERROR
| STATE_FSAL_DELAY
| STATE_NAME_TOO_LONG
| STATE_LOCK_CONFLICT
| STATE_LOCK_BLOCKED
| STATE_LOCK_DEADLOCK
| STATE_BAD_COOKIE
| STATE_FILE_BIG
| STATE_GRACE_PERIOD
| STATE_CACHE_INODE_ERR
| STATE_SIGNAL_ERROR
| STATE_FILE_OPEN
| STATE_MLINK
| STATE_SERVERFAULT
| STATE_TOOSMALL
| STATE_XDEV
| STATE_SHARE_DENIED
| STATE_IN_GRACE
| STATE_BADHANDLE
| STATE_BAD_RANGE.

(** [enum fsal_errors_t], include/fsal_types.h. *)
Inductive fsal_errors_t :=
| ERR_FSAL_NO_ERROR
| ERR_FSAL_PERM
| ERR_FSAL_NOENT
| ERR_FSAL_IO
| ERR_FSAL_NXIO
| ERR_FSAL_NOMEM
| ERR_FSAL_ACCESS
| ERR_FSAL_FAULT
| ERR_FSAL_EXIST
| ERR_FSAL_XDEV
| ERR_FSAL_NOTDIR
| ERR_FSAL_ISDIR
| ERR_FSAL_INVAL
| ERR_FSAL_FBIG
| ERR_FSAL_NOSPC
| ERR_FSAL_ROFS
| ERR_FSAL_MLINK
| ERR_FSAL_DQUOT
| ERR_FSAL_NO_DATA
| ERR_FSAL_NAMETOOLONG
| ERR_FSAL_NOTEMPTY
| ERR_FSAL_STALE
| ERR_FSAL_BADHANDLE
| ERR_FSAL_BADCOOKIE
| ERR_FSAL_NOTSUPP
| ERR_FSAL_TOOSMALL
| ERR_FSAL_SERVERFAULT
| ERR_FSAL_BADTYPE
| ERR_FSAL_DELAY
| ERR_FSAL_LOCKED
| ERR_FSAL_FHEXPIRED
| ERR_FSAL_SHARE_DENIED
| ERR_FSAL_SYMLINK
| ERR_FSAL_ATTRNOTSUPP
| ERR_FSAL_BAD_RANGE
| ERR_FSAL_NOT_INIT
| ERR_FSAL_ALREADY_INIT
| ERR_FSAL_BAD_INIT
| ERR_FSAL_SEC
| ERR_FSAL_NO_QUOTA
| ERR_FSAL_NOT_OPENED
| ERR_FSAL_DEADLOCK
| ERR_FSAL_OVERFLOW
| ERR_FSAL_INTERRUPT
| ERR_FSAL_BLOCKED
| ERR_FSAL_TIMEOUT
| ERR_FSAL_FILE_OPEN
| ERR_FSAL_UNION_NOTSUPP
| ERR_FSAL_IN_GRACE
| ERR_FSAL_NO_ACE
| ERR_FSAL_CROSS_JUNCTION
| ERR_FSAL_BADNAME.

(** [enum nfsstat4], include/nfsv41.h. *)
Inductive nfsstat4 :=
| NFS4_OK
| NFS4ERR_PERM
| NFS4ERR_NOENT
| NFS4ERR_IO
| NFS4ERR_NXIO
| NFS4ERR_ACCESS
| NFS4ERR_EXIST
| NFS4ERR_XDEV
| NFS4ERR_NOTDIR
| NFS4ERR_ISDIR
| NFS4ERR_INVAL
| NFS4ERR_FBIG
| NFS4ERR_NOSPC
| NFS4ERR_ROFS
| NFS4ERR_MLINK
| NFS4ERR_NAMETOOLONG
| NFS4ERR_NOTEMPTY
| NFS4ERR_DQUOT
| NFS4ERR_STALE
| NFS4ERR_BADHANDLE
| NFS4ERR_BAD_COOKIE
| NFS4ERR_NOTSUPP
| NFS4ERR_TOOSMALL
| NFS4ERR_SERVERFAULT
| NFS4ERR_BADTYPE
| NFS4ERR_DELAY
| NFS4ERR_SAME
| NFS4ERR_DENIED
| NFS4ERR_EXPIRED
| NFS4ERR_LOCKED
| NFS4ERR_GRACE
| NFS4ERR_FHEXPIRED
| NFS4ERR_SHARE_DENIED
| NFS4ERR_WRONGSEC
| NFS4ERR_CLID_INUSE
| NFS4ERR_RESOURCE
| NFS4ERR_MOVED
| NFS4ERR_NOFILEHANDLE
| NFS4ERR_MINOR_VERS_MISMATCH
| NFS4ERR_STALE_CLIENTID
| NFS4ERR_STALE_STATEID
| NFS4ERR_OLD_STATEID
| NFS4ERR_BAD_STATEID
| NFS4ERR_BAD_SEQID
| NFS4ERR_NOT_SAME
| NFS4ERR_LOCK_RANGE
| NFS4ERR_SYMLINK
| NFS4ERR_RESTOREFH
| NFS4ERR_LEASE_MOVED
| NFS4ERR_ATTRNOTSUPP
| NFS4ERR_NO_GRACE
| NFS4ERR_RECLAIM_BAD
| NFS4ERR_RECLAIM_CONFLICT
| NFS4ERR_BADXDR
| NFS4ERR_LOCKS_HELD
| NFS4ERR_OPENMODE
| NFS4ERR_BADOWNER
| NFS4ERR_BADCHAR
| NFS4ERR_BADNAME
| NFS4ERR_BAD_RANGE
| NFS4ERR_LOCK_NOTSUPP
| NFS4ERR_OP_ILLEGAL
| NFS4ERR_DEADLOCK
| NFS4ERR_FILE_OPEN
| NFS4ERR_ADMIN_REVOKED
| NFS4ERR_CB_PATH_DOWN
| NFS4ERR_BADIOMODE
| NFS4ERR_BADLAYOUT
| NFS4ERR_BAD_SESSION_DIGEST
| NFS4ERR_BADSESSION
| NFS4ERR_BADSLOT
| NFS4ERR_COMPLETE_ALREADY
| NFS4ERR_CONN_NOT_BOUND_TO_SESSION
| NFS4ERR_DELEG_ALREADY_WANTED
| NFS4ERR_BACK_CHAN_BUSY
| NFS4ERR_LAYOUTTRYLATER
| NFS4ERR_LAYOUTUNAVAILABLE
| NFS4ERR_NOMATCHING_LAYOUT
| NFS4ERR_RECALLCONFLICT
| NFS4ERR_UNKNOWN_LAYOUTTYPE
| NFS4ERR_SEQ_MISORDERED
| NFS4ERR_SEQUENCE_POS
| NFS4ERR_REQ_TOO_BIG
| NFS4ERR_REP_TOO_BIG
| NFS4ERR_REP_TOO_BIG_TO_CACHE
| NFS4ERR_RETRY_UNCACHED_REP
| NFS4ERR_UNSAFE_COMPOUND
| NFS4ERR_TOO_MANY_OPS
| NFS4ERR_OP_NOT_IN_SESSION
| NFS4ERR_HASH_ALG_UNSUPP
| NFS4ERR_CLIENTID_BUSY
| NFS4ERR_PNFS_IO_HOLE
| NFS4ERR_SEQ_FALSE_RETRY
| NFS4ERR_BAD_HIGH_SLOT
| NFS4ERR_DEADSESSION
| NFS4ERR_ENCR_ALG_UNSUPP
| NFS4ERR_PNFS_NO_LAYOUT
| NFS4ERR_NOT_ONLY_OP
| NFS4ERR_WRONG_CRED
| NFS4ERR_WRONG_TYPE
| NFS4ERR_DIRDELEG_UNAVAIL
| NFS4ERR_REJECT_DELEG
| NFS4ERR_RETURNCONFLICT
| NFS4ERR_DELEG_REVOKED
| NFS4ERR_PARTNER_NOTSUPP
| NFS4ERR_PARTNER_NO_AUTH
| NFS4ERR_UNION_NOTSUPP
| NFS4ERR_OFFLOAD_DENIED
| NFS4ERR_WRONG_LFS
| NFS4ERR_BADLABEL
| NFS4ERR_OFFLOAD_NO_REQS
| NFS4ERR_REPLAY.

(** [enum nfsstat3], include/nfs23.h. *)
Inductive nfsstat3 :=
| NFS3_OK
| NFS3ERR_PERM
| NFS3ERR_NOENT
| NFS3ERR_IO
| NFS3ERR_NXIO
| NFS3ERR_ACCES
| NFS3ERR_EXIST
| NFS3ERR_XDEV
| NFS3ERR_NODEV
| NFS3ERR_NOTDIR
| NFS3ERR_ISDIR
| NFS3ERR_INVAL
| NFS3ERR_FBIG
| NFS3ERR_NOSPC
| NFS3ERR_ROFS
| NFS3ERR_MLINK
| NFS3ERR_NAMETOOLONG
| NFS3ERR_NOTEMPTY
| NFS3ERR_DQUOT
| NFS3ERR_STALE
| NFS3ERR_REMOTE
| NFS3ERR_BADHANDLE
| NFS3ERR_NOT_SYNC
| NFS3ERR_BAD_COOKIE
| NFS3ERR_NOTSUPP
| NFS3ERR_TOOSMALL
| NFS3ERR_SERVERFAULT
| NFS3ERR_BADTYPE
| NFS3ERR_JUKEBOX.

(** [enum nlm4_stats], include/nlm4.h. *)
Inductive nlm4_stats :=
| NLM4_GRANTED
| NLM4_DENIED
| NLM4_DENIED_NOLOCKS
| NLM4_BLOCKED
| NLM4_DENIED_GRACE_PERIOD
| NLM4_DEADLCK
| NLM4_ROFS
| NLM4_STALE_FH
| NLM4_FBIG
| NLM4_FAILED.

(** The numeric values the enumerators have in the headers; the protocol
    ones go on the wire. *)
Definition state_status_val (s : state_status_t) : Z :=
  match s with
  | STATE_SUCCESS => 0
  | STATE_MALLOC_ERROR => 1
  | STATE_POOL_MUTEX_INIT_ERROR => 2
  | STATE_GET_NEW_LRU_ENTRY => 3
  | STATE_INIT_ENTRY_FAILED => 4
  | STATE_FSAL_ERROR => 5
  | STATE_LRU_ERROR => 6
  | STATE_HASH_SET_ERROR => 7
  | STATE_NOT_A_DIRECTORY => 8
  | STATE_INCONSISTENT_ENTRY => 9
  | STATE_BAD_TYPE => 10
  | STATE_ENTRY_EXISTS => 11
  | STATE_DIR_NOT_EMPTY => 12
  | STATE_NOT_FOUND => 13
  | STATE_INVALID_ARGUMENT => 14
  | STATE_INSERT_ERROR => 15
  | STATE_HASH_TABLE_ERROR => 16
  | STATE_FSAL_EACCESS => 17
  | STATE_IS_A_DIRECTORY => 18
  | STATE_FSAL_EPERM => 19
  | STATE_NO_SPACE_LEFT => 20
  | STATE_READ_ONLY_FS => 21
  | STATE_IO_ERROR => 22
  | STATE_ESTALE => 23
  | STATE_FSAL_ERR_SEC => 24
  | STATE_LOCKED => 25
  | STATE_QUOTA_EXCEEDED => 26
  | STATE_ASYNC_POST_ERROR => 27
  | STATE_NOT_SUPPORTED => 28
  | STATE_STATE_ERROR => 29
  | STATE_FSAL_DELAY => 30
  | STATE_NAME_TOO_LONG => 31
  | STATE_LOCK_CONFLICT => 32
  | STATE_LOCK_BLOCKED => 33
  | STATE_LOCK_DEADLOCK => 34
  | STATE_BAD_COOKIE => 35
  | STATE_FILE_BIG => 36
  | STATE_GRACE_PERIOD => 37
  | STATE_CACHE_INODE_ERR => 38
  | STATE_SIGNAL_ERROR => 39
  | STATE_FILE_OPEN => 40
  | STATE_MLINK => 41
  | STATE_SERVERFAULT => 42
  | STATE_TOOSMALL => 43
  | STATE_XDEV => 44
  | STATE_SHARE_DENIED => 45
  | STATE_IN_GRACE => 46
  | STATE_BADHANDLE => 47
  | STATE_BAD_RANGE => 48
  end.

(** The inverse of [state_status_val]: the enumerator a number stands for. *)
Definition state_status_val_inv (z : Z) : option state_status_t :=
  match z with
  | 0 => Some STATE_SUCCESS
  | 1 => Some STATE_MALLOC_ERROR
  | 2 => Some STATE_POOL_MUTEX_INIT_ERROR
  | 3 => Some STATE_GET_NEW_LRU_ENTRY
  | 4 => Some STATE_INIT_ENTRY_FAILED
  | 5 => Some STATE_FSAL_ERROR
  | 6 => Some STATE_LRU_ERROR
  | 7 => Some STATE_HASH_SET_ERROR
  | 8 => Some STATE_NOT_A_DIRECTORY
  | 9 => Some STATE_INCONSISTENT_ENTRY
  | 10 => Some STATE_BAD_TYPE
  | 11 => Some STATE_ENTRY_EXISTS
  | 12 => Some STATE_DIR_NOT_EMPTY
  | 13 => Some STATE_NOT_FOUND
  | 14 => Some STATE_INVALID_ARGUMENT
  | 15 => Some STATE_INSERT_ERROR
  | 16 => Some STATE_HASH_TABLE_ERROR
  | 17 => Some STATE_FSAL_EACCESS
  | 18 => Some STATE_IS_A_DIRECTORY
  | 19 => Some STATE_FSAL_EPERM
  | 20 => Some STATE_NO_SPACE_LEFT
  | 21 => Some STATE_READ_ONLY_FS
  | 22 => Some STATE_IO_ERROR
  | 23 => Some STATE_ESTALE
  | 24 => Some STATE_FSAL_ERR_SEC
  | 25 => Some STATE_LOCKED
  | 26 => Some STATE_QUOTA_EXCEEDED
  | 27 => Some STATE_ASYNC_POST_ERROR
  | 28 => Some STATE_NOT_SUPPORTED
  | 29 => Some STATE_STATE_ERROR
  | 30 => Some STATE_FSAL_DELAY
  | 31 => Some STATE_NAME_TOO_LONG
  | 32 => Some STATE_LOCK_CONFLICT
  | 33 => Some STATE_LOCK_BLOCKED
  | 34 => Some STATE_LOCK_DEADLOCK
  | 35 => Some STATE_BAD_COOKIE
  | 36 => Some STATE_FILE_BIG
  | 37 => Some STATE_GRACE_PERIOD
  | 38 => Some STATE_CACHE_INODE_ERR
  | 39 => Some STATE_SIGNAL_ERROR
  | 40 => Some STATE_FILE_OPEN
  | 41 => Some STATE_MLINK
  | 42 => Some STATE_SERVERFAULT
  | 43 => Some STATE_TOOSMALL
  | 44 => Some STATE_XDEV
  | 45 => Some STATE_SHARE_DENIED
  | 46 => Some STATE_IN_GRACE
  | 47 => Some STATE_BADHANDLE
  | 48 => Some STATE_BAD_RANGE
  | _ => None
  end.

Definition fsal_errors_val (s : fsal_errors_t) : Z :=
  match s with
  | ERR_FSAL_NO_ERROR => 0
  | ERR_FSAL_PERM => 1
  | ERR_FSAL_NOENT => 2
  | ERR_FSAL_IO => 5
  | ERR_FSAL_NXIO => 6
  | ERR_FSAL_NOMEM => 12
  | ERR_FSAL_ACCESS => 13
  | ERR_FSAL_FAULT => 14
  | ERR_FSAL_EXIST => 17
  | ERR_FSAL_XDEV => 18
  | ERR_FSAL_NOTDIR => 20
  | ERR_FSAL_ISDIR => 21
  | ERR_FSAL_INVAL => 22
  | ERR_FSAL_FBIG => 27
  | ERR_FSAL_NOSPC => 28
  | ERR_FSAL_ROFS => 30
  | ERR_FSAL_MLINK => 31
  | ERR_FSAL_DQUOT => 49
  | ERR_FSAL_NO_DATA => 61
  | ERR_FSAL_NAMETOOLONG => 78
  | ERR_FSAL_NOTEMPTY => 93
  | ERR_FSAL_STALE => 151
  | ERR_FSAL_BADHANDLE => 10001
  | ERR_FSAL_BADCOOKIE => 10003
  | ERR_FSAL_NOTSUPP => 10004
  | ERR_FSAL_TOOSMALL => 10005
  | ERR_FSAL_SERVERFAULT => 10006
  | ERR_FSAL_BADTYPE => 10007
  | ERR_FSAL_DELAY => 10008
  | ERR_FSAL_LOCKED => 10012
  | ERR_FSAL_FHEXPIRED => 10014
  | ERR_FSAL_SHARE_DENIED => 10015
  | ERR_FSAL_SYMLINK => 10029
  | ERR_FSAL_ATTRNOTSUPP => 10032
  | ERR_FSAL_BAD_RANGE => 10042
  | ERR_FSAL_NOT_INIT => 20001
  | ERR_FSAL_ALREADY_INIT => 20002
  | ERR_FSAL_BAD_INIT => 20003
  | ERR_FSAL_SEC => 20004
  | ERR_FSAL_NO_QUOTA => 20005
  | ERR_FSAL_NOT_OPENED => 20010
  | ERR_FSAL_DEADLOCK => 20011
  | ERR_FSAL_OVERFLOW => 20012
  | ERR_FSAL_INTERRUPT => 20013
  | ERR_FSAL_BLOCKED => 20014
  | ERR_FSAL_TIMEOUT => 20015
  | ERR_FSAL_FILE_OPEN => 10046
  | ERR_FSAL_UNION_NOTSUPP => 10094
  | ERR_FSAL_IN_GRACE => 10095
  | ERR_FSAL_NO_ACE => 10096
  | ERR_FSAL_CROSS_JUNCTION => 10097
  | ERR_FSAL_BADNAME => 10098
  end.

(** The inverse of [fsal_errors_val]: the enumerator a number stands for. *)
Definition fsal_errors_val_inv (z : Z) : option fsal_errors_t :=
  match z with
  | 0 => Some ERR_FSAL_NO_ERROR
  | 1 => Some ERR_FSAL_PERM
  | 2 => Some ERR_FSAL_NOENT
  | 5 => Some ERR_FSAL_IO
  | 6 => Some ERR_FSAL_NXIO
  | 12 => Some ERR_FSAL_NOMEM
  | 13 => Some ERR_FSAL_ACCESS
  | 14 => Some ERR_FSAL_FAULT
  | 17 => Some ERR_FSAL_EXIST
  | 18 => Some ERR_FSAL_XDEV
  | 20 => Some ERR_FSAL_NOTDIR
  | 21 => Some ERR_FSAL_ISDIR
  | 22 => Some ERR_FSAL_INVAL
  | 27 => Some ERR_FSAL_FBIG
  | 28 => Some ERR_FSAL_NOSPC
  | 30 => Some ERR_FSAL_ROFS
  | 31 => Some ERR_FSAL_MLINK
  | 49 => Some ERR_FSAL_DQUOT
  | 61 => Some ERR_FSAL_NO_DATA
  | 78 => Some ERR_FSAL_NAMETOOLONG
  | 93 => Some ERR_FSAL_NOTEMPTY
  | 151 => Some ERR_FSAL_STALE
  | 10001 => Some ERR_FSAL_BADHANDLE
  | 10003 => Some ERR_FSAL_BADCOOKIE
  | 10004 => Some ERR_FSAL_NOTSUPP
  | 10005 => Some ERR_FSAL_TOOSMALL
  | 10006 => Some ERR_FSAL_SERVERFAULT
  | 10007 => Some ERR_FSAL_BADTYPE
  | 10008 => Some ERR_FSAL_DELAY
  | 10012 => Some ERR_FSAL_LOCKED
  | 10014 => Some ERR_FSAL_FHEXPIRED
  | 10015 => Some ERR_FSAL_SHARE_DENIED
  | 10029 => Some ERR_FSAL_SYMLINK
  | 10032 => Some ERR_FSAL_ATTRNOTSUPP
  | 10042 => Some ERR_FSAL_BAD_RANGE
  | 20001 => Some ERR_FSAL_NOT_INIT
  | 20002 => Some ERR_FSAL_ALREADY_INIT
  | 20003 => Some ERR_FSAL_BAD_INIT
  | 20004 => Some ERR_FSAL_SEC
  | 20005 => Some ERR_FSAL_NO_QUOTA
  | 20010 => Some ERR_FSAL_NOT_OPENED
  | 20011 => Some ERR_FSAL_DEADLOCK
  | 20012 => Some ERR_FSAL_OVERFLOW
  | 20013 => Some ERR_FSAL_INTERRUPT
  | 20014 => Some ERR_FSAL_BLOCKED
  | 20015 => Some ERR_FSAL_TIMEOUT
  | 10046 => Some ERR_FSAL_FILE_OPEN
  | 10094 => Some ERR_FSAL_UNION_NOTSUPP
  | 10095 => Some ERR_FSAL_IN_GRACE
  | 10096 => Some ERR_FSAL_NO_ACE
  | 10097 => Some ERR_FSAL_CROSS_JUNCTION
  | 10098 => Some ERR_FSAL_BADNAME
  | _ => None
  end.

Definition nfsstat4_val (s : nfsstat4) : Z :=
  match s with
  | NFS4_OK => 0
  | NFS4ERR_PERM => 1
  | NFS4ERR_NOENT => 2
  | NFS4ERR_IO => 5
  | NFS4ERR_NXIO => 6
  | NFS4ERR_ACCESS => 13
  | NFS4ERR_EXIST => 17
  | NFS4ERR_XDEV => 18
  | NFS4ERR_NOTDIR => 20
  | NFS4ERR_ISDIR => 21
  | NFS4ERR_INVAL => 22
  | NFS4ERR_FBIG => 27
  | NFS4ERR_NOSPC => 28
  | NFS4ERR_ROFS => 30
  | NFS4ERR_MLINK => 31
  | NFS4ERR_NAMETOOLONG => 63
  | NFS4ERR_NOTEMPTY => 66
  | NFS4ERR_DQUOT => 69
  | NFS4ERR_STALE => 70
  | NFS4ERR_BADHANDLE => 10001
  | NFS4ERR_BAD_COOKIE => 10003
  | NFS4ERR_NOTSUPP => 10004
  | NFS4ERR_TOOSMALL => 10005
  | NFS4ERR_SERVERFAULT => 10006
  | NFS4ERR_BADTYPE => 10007
  | NFS4ERR_DELAY => 10008
  | NFS4ERR_SAME => 10009
  | NFS4ERR_DENIED => 10010
  | NFS4ERR_EXPIRED => 10011
  | NFS4ERR_LOCKED => 10012
  | NFS4ERR_GRACE => 10013
  | NFS4ERR_FHEXPIRED => 10014
  | NFS4ERR_SHARE_DENIED => 10015
  | NFS4ERR_WRONGSEC => 10016
  | NFS4ERR_CLID_INUSE => 10017
  | NFS4ERR_RESOURCE => 10018
  | NFS4ERR_MOVED => 10019
  | NFS4ERR_NOFILEHANDLE => 10020
  | NFS4ERR_MINOR_VERS_MISMATCH => 10021
  | NFS4ERR_STALE_CLIENTID => 10022
  | NFS4ERR_STALE_STATEID => 10023
  | NFS4ERR_OLD_STATEID => 10024
  | NFS4ERR_BAD_STATEID => 10025
  | NFS4ERR_BAD_SEQID => 10026
  | NFS4ERR_NOT_SAME => 10027
  | NFS4ERR_LOCK_RANGE => 10028
  | NFS4ERR_SYMLINK => 10029
  | NFS4ERR_RESTOREFH => 10030
  | NFS4ERR_LEASE_MOVED => 10031
  | NFS4ERR_ATTRNOTSUPP => 10032
  | NFS4ERR_NO_GRACE => 10033
  | NFS4ERR_RECLAIM_BAD => 10034
  | NFS4ERR_RECLAIM_CONFLICT => 10035
  | NFS4ERR_BADXDR => 10036
  | NFS4ERR_LOCKS_HELD => 10037
  | NFS4ERR_OPENMODE => 10038
  | NFS4ERR_BADOWNER => 10039
  | NFS4ERR_BADCHAR => 10040
  | NFS4ERR_BADNAME => 10041
  | NFS4ERR_BAD_RANGE => 10042
  | NFS4ERR_LOCK_NOTSUPP => 10043
  | NFS4ERR_OP_ILLEGAL => 10044
  | NFS4ERR_DEADLOCK => 10045
  | NFS4ERR_FILE_OPEN => 10046
  | NFS4ERR_ADMIN_REVOKED => 10047
  | NFS4ERR_CB_PATH_DOWN => 10048
  | NFS4ERR_BADIOMODE => 10049
  | NFS4ERR_BADLAYOUT => 10050
  | NFS4ERR_BAD_SESSION_DIGEST => 10051
  | NFS4ERR_BADSESSION => 10052
  | NFS4ERR_BADSLOT => 10053
  | NFS4ERR_COMPLETE_ALREADY => 10054
  | NFS4ERR_CONN_NOT_BOUND_TO_SESSION => 10055
  | NFS4ERR_DELEG_ALREADY_WANTED => 10056
  | NFS4ERR_BACK_CHAN_BUSY => 10057
  | NFS4ERR_LAYOUTTRYLATER => 10058
  | NFS4ERR_LAYOUTUNAVAILABLE => 10059
  | NFS4ERR_NOMATCHING_LAYOUT => 10060
  | NFS4ERR_RECALLCONFLICT => 10061
  | NFS4ERR_UNKNOWN_LAYOUTTYPE => 10062
  | NFS4ERR_SEQ_MISORDERED => 10063
  | NFS4ERR_SEQUENCE_POS => 10064
  | NFS4ERR_REQ_TOO_BIG => 10065
  | NFS4ERR_REP_TOO_BIG => 10066
  | NFS4ERR_REP_TOO_BIG_TO_CACHE => 10067
  | NFS4ERR_RETRY_UNCACHED_REP => 10068
  | NFS4ERR_UNSAFE_COMPOUND => 10069
  | NFS4ERR_TOO_MANY_OPS => 10070
  | NFS4ERR_OP_NOT_IN_SESSION => 10071
  | NFS4ERR_HASH_ALG_UNSUPP => 10072
  | NFS4ERR_CLIENTID_BUSY => 10074
  | NFS4ERR_PNFS_IO_HOLE => 10075
  | NFS4ERR_SEQ_FALSE_RETRY => 10076
  | NFS4ERR_BAD_HIGH_SLOT => 10077
  | NFS4ERR_DEADSESSION => 10078
  | NFS4ERR_ENCR_ALG_UNSUPP => 10079
  | NFS4ERR_PNFS_NO_LAYOUT => 10080
  | NFS4ERR_NOT_ONLY_OP => 10081
  | NFS4ERR_WRONG_CRED => 10082
  | NFS4ERR_WRONG_TYPE => 10083
  | NFS4ERR_DIRDELEG_UNAVAIL => 10084
  | NFS4ERR_REJECT_DELEG => 10085
  | NFS4ERR_RETURNCONFLICT => 10086
  | NFS4ERR_DELEG_REVOKED => 10087
  | NFS4ERR_PARTNER_NOTSUPP => 10088
  | NFS4ERR_PARTNER_NO_AUTH => 10089
  | NFS4ERR_UNION_NOTSUPP => 10090
  | NFS4ERR_OFFLOAD_DENIED => 10091
  | NFS4ERR_WRONG_LFS => 10092
  | NFS4ERR_BADLABEL => 10093
  | NFS4ERR_OFFLOAD_NO_REQS => 10094
  | NFS4ERR_REPLAY => 11001
  end.

(** The inverse of [nfsstat4_val]: the enumerator a number stands for. *)
Definition nfsstat4_val_inv (z : Z) : option nfsstat4 :=
  match z with
  | 0 => Some NFS4_OK
  | 1 => Some NFS4ERR_PERM
  | 2 => Some NFS4ERR_NOENT
  | 5 => Some NFS4ERR_IO
  | 6 => Some NFS4ERR_NXIO
  | 13 => Some NFS4ERR_ACCESS
  | 17 => Some NFS4ERR_EXIST
  | 18 => Some NFS4ERR_XDEV
  | 20 => Some NFS4ERR_NOTDIR
  | 21 => Some NFS4ERR_ISDIR
  | 22 => Some NFS4ERR_INVAL
  | 27 => Some NFS4ERR_FBIG
  | 28 => Some NFS4ERR_NOSPC
  | 30 => Some NFS4ERR_ROFS
  | 31 => Some NFS4ERR_MLINK
  | 63 => Some NFS4ERR_NAMETOOLONG
  | 66 => Some NFS4ERR_NOTEMPTY
  | 69 => Some NFS4ERR_DQUOT
  | 70 => Some NFS4ERR_STALE
  | 10001 => Some NFS4ERR_BADHANDLE
  | 10003 => Some NFS4ERR_BAD_COOKIE
  | 10004 => Some NFS4ERR_NOTSUPP
  | 10005 => Some NFS4ERR_TOOSMALL
  | 10006 => Some NFS4ERR_SERVERFAULT
  | 10007 => Some NFS4ERR_BADTYPE
  | 10008 => Some NFS4ERR_DELAY
  | 10009 => Some NFS4ERR_SAME
  | 10010 => Some NFS4ERR_DENIED
  | 10011 => Some NFS4ERR_EXPIRED
  | 10012 => Some NFS4ERR_LOCKED
  | 10013 => Some NFS4ERR_GRACE
  | 10014 => Some NFS4ERR_FHEXPIRED
  | 10015 => Some NFS4ERR_SHARE_DENIED
  | 10016 => Some NFS4ERR_WRONGSEC
  | 10017 => Some NFS4ERR_CLID_INUSE
  | 10018 => Some NFS4ERR_RESOURCE
  | 10019 => Some NFS4ERR_MOVED
  | 10020 => Some NFS4ERR_NOFILEHANDLE
  | 10021 => Some NFS4ERR_MINOR_VERS_MISMATCH
  | 10022 => Some NFS4ERR_STALE_CLIENTID
  | 10023 => Some NFS4ERR_STALE_STATEID
  | 10024 => Some NFS4ERR_OLD_STATEID
  | 10025 => Some NFS4ERR_BAD_STATEID
  | 10026 => Some NFS4ERR_BAD_SEQID
  | 10027 => Some NFS4ERR_NOT_SAME
  | 10028 => Some NFS4ERR_LOCK_RANGE
  | 10029 => Some NFS4ERR_SYMLINK
  | 10030 => Some NFS4ERR_RESTOREFH
  | 10031 => Some NFS4ERR_LEASE_MOVED
  | 10032 => Some NFS4ERR_ATTRNOTSUPP
  | 10033 => Some NFS4ERR_NO_GRACE
  | 10034 => Some NFS4ERR_RECLAIM_BAD
  | 10035 => Some NFS4ERR_RECLAIM_CONFLICT
  | 10036 => Some NFS4ERR_BADXDR
  | 10037 => Some NFS4ERR_LOCKS_HELD
  | 10038 => Some NFS4ERR_OPENMODE
  | 10039 => Some NFS4ERR_BADOWNER
  | 10040 => Some NFS4ERR_BADCHAR
  | 10041 => Some NFS4ERR_BADNAME
  | 10042 => Some NFS4ERR_BAD_RANGE
  | 10043 => Some NFS4ERR_LOCK_NOTSUPP
  | 10044 => Some NFS4ERR_OP_ILLEGAL
  | 10045 => Some NFS4ERR_DEADLOCK
  | 10046 => Some NFS4ERR_FILE_OPEN
  | 10047 => Some NFS4ERR_ADMIN_REVOKED
  | 10048 => Some NFS4ERR_CB_PATH_DOWN
  | 10049 => Some NFS4ERR_BADIOMODE
  | 10050 => Some NFS4ERR_BADLAYOUT
  | 10051 => Some NFS4ERR_BAD_SESSION_DIGEST
  | 10052 => Some NFS4ERR_BADSESSION
  | 10053 => Some NFS4ERR_BADSLOT
  | 10054 => Some NFS4ERR_COMPLETE_ALREADY
  | 10055 => Some NFS4ERR_CONN_NOT_BOUND_TO_SESSION
  | 10056 => Some NFS4ERR_DELEG_ALREADY_WANTED
  | 10057 => Some NFS4ERR_BACK_CHAN_BUSY
  | 10058 => Some NFS4ERR_LAYOUTTRYLATER
  | 10059 => Some NFS4ERR_LAYOUTUNAVAILABLE
  | 10060 => Some NFS4ERR_NOMATCHING_LAYOUT
  | 10061 => Some NFS4ERR_RECALLCONFLICT
  | 10062 => Some NFS4ERR_UNKNOWN_LAYOUTTYPE
  | 10063 => Some NFS4ERR_SEQ_MISORDERED
  | 10064 => Some NFS4ERR_SEQUENCE_POS
  | 10065 => Some NFS4ERR_REQ_TOO_BIG
  | 10066 => Some NFS4ERR_REP_TOO_BIG
  | 10067 => Some NFS4ERR_REP_TOO_BIG_TO_CACHE
  | 10068 => Some NFS4ERR_RETRY_UNCACHED_REP
  | 10069 => Some NFS4ERR_UNSAFE_COMPOUND
  | 10070 => Some NFS4ERR_TOO_MANY_OPS
  | 10071 => Some NFS4ERR_OP_NOT_IN_SESSION
  | 10072 => Some NFS4ERR_HASH_ALG_UNSUPP
  | 10074 => Some NFS4ERR_CLIENTID_BUSY
  | 10075 => Some NFS4ERR_PNFS_IO_HOLE
  | 10076 => Some NFS4ERR_SEQ_FALSE_RETRY
  | 10077 => Some NFS4ERR_BAD_HIGH_SLOT
  | 10078 => Some NFS4ERR_DEADSESSION
  | 10079 => Some NFS4ERR_ENCR_ALG_UNSUPP
  | 10080 => Some NFS4ERR_PNFS_NO_LAYOUT
  | 10081 => Some NFS4ERR_NOT_ONLY_OP
  | 10082 => Some NFS4ERR_WRONG_CRED
  | 10083 => Some NFS4ERR_WRONG_TYPE
  | 10084 => Some NFS4ERR_DIRDELEG_UNAVAIL
  | 10085 => Some NFS4ERR_REJECT_DELEG
  | 10086 => Some NFS4ERR_RETURNCONFLICT
  | 10087 => Some NFS4ERR_DELEG_REVOKED
  | 10088 => Some NFS4ERR_PARTNER_NOTSUPP
  | 10089 => Some NFS4ERR_PARTNER_NO_AUTH
  | 10090 => Some NFS4ERR_UNION_NOTSUPP
  | 10091 => Some NFS4ERR_OFFLOAD_DENIED
  | 10092 => Some NFS4ERR_WRONG_LFS
  | 10093 => Some NFS4ERR_BADLABEL
  | 10094 => Some NFS4ERR_OFFLOAD_NO_REQS
  | 11001 => Some NFS4ERR_REPLAY
  | _ => None
  end.

Definition nfsstat3_val (s : nfsstat3) : Z :=
  match s with
  | NFS3_OK => 0
  | NFS3ERR_PERM => 1
  | NFS3ERR_NOENT => 2
  | NFS3ERR_IO => 5
  | NFS3ERR_NXIO => 6
  | NFS3ERR_ACCES => 13
  | NFS3ERR_EXIST => 17
  | NFS3ERR_XDEV => 18
  | NFS3ERR_NODEV => 19
  | NFS3ERR_NOTDIR => 20
  | NFS3ERR_ISDIR => 21
  | NFS3ERR_INVAL => 22
  | NFS3ERR_FBIG => 27
  | NFS3ERR_NOSPC => 28
  | NFS3ERR_ROFS => 30
  | NFS3ERR_MLINK => 31
  | NFS3ERR_NAMETOOLONG => 63
  | NFS3ERR_NOTEMPTY => 66
  | NFS3ERR_DQUOT => 69
  | NFS3ERR_STALE => 70
  | NFS3ERR_REMOTE => 71
  | NFS3ERR_BADHANDLE => 10001
  | NFS3ERR_NOT_SYNC => 10002
  | NFS3ERR_BAD_COOKIE => 10003
  | NFS3ERR_NOTSUPP => 10004
  | NFS3ERR_TOOSMALL => 10005
  | NFS3ERR_SERVERFAULT => 10006
  | NFS3ERR_BADTYPE => 10007
  | NFS3ERR_JUKEBOX => 10008
  end.

(** The inverse of [nfsstat3_val]: the enumerator a number stands for. *)
Definition nfsstat3_val_inv (z : Z) : option nfsstat3 :=
  match z with
  | 0 => Some NFS3_OK
  | 1 => Some NFS3ERR_PERM
  | 2 => Some NFS3ERR_NOENT
  | 5 => Some NFS3ERR_IO
  | 6 => Some NFS3ERR_NXIO
  | 13 => Some NFS3ERR_ACCES
  | 17 => Some NFS3ERR_EXIST
  | 18 => Some NFS3ERR_XDEV
  | 19 => Some NFS3ERR_NODEV
  | 20 => Some NFS3ERR_NOTDIR
  | 21 => Some NFS3ERR_ISDIR
  | 22 => Some NFS3ERR_INVAL
  | 27 => Some NFS3ERR_FBIG
  | 28 => Some NFS3ERR_NOSPC
  | 30 => Some NFS3ERR_ROFS
  | 31 => Some NFS3ERR_MLINK
  | 63 => Some NFS3ERR_NAMETOOLONG
  | 66 => Some NFS3ERR_NOTEMPTY
  | 69 => Some NFS3ERR_DQUOT
  | 70 => Some NFS3ERR_STALE
  | 71 => Some NFS3ERR_REMOTE
  | 10001 => Some NFS3ERR_BADHANDLE
  | 10002 => Some NFS3ERR_NOT_SYNC
  | 10003 => Some NFS3ERR_BAD_COOKIE
  | 10004 => Some NFS3ERR_NOTSUPP
  | 10005 => Some NFS3ERR_TOOSMALL
  | 10006 => Some NFS3ERR_SERVERFAULT
  | 10007 => Some NFS3ERR_BADTYPE
  | 10008 => Some NFS3ERR_JUKEBOX
  | _ => None
  end.

Definition nlm4_stats_val (s : nlm4_stats) : Z :=
  match s with
  | NLM4_GRANTED => 0
  | NLM4_DENIED => 1
  | NLM4_DENIED_NOLOCKS => 2
  | NLM4_BLOCKED => 3
  | NLM4_DENIED_GRACE_PERIOD => 4
  | NLM4_DEADLCK => 5
  | NLM4_ROFS => 6
  | NLM4_STALE_FH => 7
  | NLM4_FBIG => 8
  | NLM4_FAILED => 9
  end.

(** The inverse of [nlm4_stats_val]: the enumerator a number stands for. *)
Definition nlm4_stats_val_inv (z : Z) : option nlm4_stats :=
  match z with
  | 0 => Some NLM4_GRANTED
  | 1 => Some NLM4_DENIED
  | 2 => Some NLM4_DENIED_NOLOCKS
  | 3 => Some NLM4_BLOCKED
  | 4 => Some NLM4_DENIED_GRACE_PERIOD
  | 5 => Some NLM4_DEADLCK
  | 6 => Some NLM4_ROFS
  | 7 => Some NLM4_STALE_FH
  | 8 => Some NLM4_FBIG
  | 9 => Some NLM4_FAILED
  | _ => None
  end.

Definition state_err_str (err : state_status_t) : string :=
  match err with
  | STATE_SUCCESS => "STATE_SUCCESS"
  | STATE_MALLOC_ERROR => "STATE_MALLOC_ERROR"
  | STATE_POOL_MUTEX_INIT_ERROR => "STATE_POOL_MUTEX_INIT_ERROR"
  | STATE_GET_NEW_LRU_ENTRY => "STATE_GET_NEW_LRU_ENTRY"
  | STATE_INIT_ENTRY_FAILED => "STATE_INIT_ENTRY_FAILED"
  | STATE_FSAL_ERROR => "STATE_FSAL_ERROR"
  | STATE_LRU_ERROR => "STATE_LRU_ERROR"
  | STATE_HASH_SET_ERROR => "STATE_HASH_SET_ERROR"
  | STATE_NOT_A_DIRECTORY => "STATE_NOT_A_DIRECTORY"
  | STATE_INCONSISTENT_ENTRY => "STATE_INCONSISTENT_ENTRY"
  | STATE_BAD_TYPE => "STATE_BAD_TYPE"
  | STATE_ENTRY_EXISTS => "STATE_ENTRY_EXISTS"
  | STATE_DIR_NOT_EMPTY => "STATE_DIR_NOT_EMPTY"
  | STATE_NOT_FOUND => "STATE_NOT_FOUND"
  | STATE_INVALID_ARGUMENT => "STATE_INVALID_ARGUMENT"
  | STATE_INSERT_ERROR => "STATE_INSERT_ERROR"
  | STATE_HASH_TABLE_ERROR => "STATE_HASH_TABLE_ERROR"
  | STATE_FSAL_EACCESS => "STATE_FSAL_EACCESS"
  | STATE_IS_A_DIRECTORY => "STATE_IS_A_DIRECTORY"
  | STATE_FSAL_EPERM => "STATE_FSAL_EPERM"
  | STATE_NO_SPACE_LEFT => "STATE_NO_SPACE_LEFT"
  | STATE_READ_ONLY_FS => "STATE_READ_ONLY_FS"
  | STATE_IO_ERROR => "STATE_IO_ERROR"
  | STATE_ESTALE => "STATE_ESTALE"
  | STATE_FSAL_ERR_SEC => "STATE_FSAL_ERR_SEC"
  | STATE_QUOTA_EXCEEDED => "STATE_QUOTA_EXCEEDED"
  | STATE_ASYNC_POST_ERROR => "STATE_ASYNC_POST_ERROR"
  | STATE_NOT_SUPPORTED => "STATE_NOT_SUPPORTED"
  | STATE_STATE_ERROR => "STATE_STATE_ERROR"
  | STATE_FSAL_DELAY => "STATE_FSAL_DELAY"
  | STATE_NAME_TOO_LONG => "STATE_NAME_TOO_LONG"
  | STATE_LOCK_CONFLICT => "STATE_LOCK_CONFLICT"
  | STATE_LOCKED => "STATE_LOCKED"
  | STATE_LOCK_BLOCKED => "STATE_LOCK_BLOCKED"
  | STATE_LOCK_DEADLOCK => "STATE_LOCK_DEADLOCK"
  | STATE_BAD_COOKIE => "STATE_BAD_COOKIE"
  | STATE_FILE_BIG => "STATE_FILE_BIG"
  | STATE_GRACE_PERIOD => "STATE_GRACE_PERIOD"
  | STATE_CACHE_INODE_ERR => "STATE_CACHE_INODE_ERR"
  | STATE_SIGNAL_ERROR => "STATE_SIGNAL_ERROR"
  | STATE_FILE_OPEN => "STATE_FILE_OPEN"
  | STATE_SHARE_DENIED => "STATE_SHARE_DENIED"
  | STATE_MLINK => "STATE_MLINK"
  | STATE_SERVERFAULT => "STATE_SERVERFAULT"
  | STATE_TOOSMALL => "STATE_TOOSMALL"
  | STATE_XDEV => "STATE_XDEV"
  | STATE_IN_GRACE => "STATE_IN_GRACE"
  | STATE_BADHANDLE => "STATE_BADHANDLE"
  | STATE_BAD_RANGE => "STATE_BAD_RANGE"
  end.

(** [fsal_status_t]: the FSAL status and the (usually POSIX) minor code. *)
Record fsal_status_t := fsalstat { major : fsal_errors_t; minor : Z }.

(** [FSAL_IS_ERROR]. *)
Definition FSAL_IS_ERROR (s : fsal_status_t) : bool :=
  match major s with ERR_FSAL_NO_ERROR => false | _ => true end.

Definition state_error_convert (fsal_status : fsal_status_t) : state_status_t :=
  match major fsal_status with
  | ERR_FSAL_NO_ERROR => STATE_SUCCESS
  | ERR_FSAL_NOENT => STATE_NOT_FOUND
  | ERR_FSAL_DELAY | ERR_FSAL_ACCESS => STATE_LOCK_CONFLICT
  | ERR_FSAL_PERM => STATE_FSAL_EPERM
  | ERR_FSAL_NOSPC => STATE_NO_SPACE_LEFT
  | ERR_FSAL_ROFS => STATE_READ_ONLY_FS
  | ERR_FSAL_IO | ERR_FSAL_NXIO => STATE_IO_ERROR
  | ERR_FSAL_STALE | ERR_FSAL_FHEXPIRED => STATE_ESTALE
  | ERR_FSAL_INVAL | ERR_FSAL_OVERFLOW => STATE_INVALID_ARGUMENT
  | ERR_FSAL_SEC => STATE_FSAL_ERR_SEC
  | ERR_FSAL_NOTSUPP | ERR_FSAL_ATTRNOTSUPP | ERR_FSAL_UNION_NOTSUPP => STATE_NOT_SUPPORTED
  | ERR_FSAL_NOMEM => STATE_MALLOC_ERROR
  | ERR_FSAL_DEADLOCK => STATE_LOCK_DEADLOCK
  | ERR_FSAL_BADCOOKIE => STATE_BAD_COOKIE
  | ERR_FSAL_NOT_OPENED => STATE_FSAL_ERROR
  | ERR_FSAL_SYMLINK | ERR_FSAL_BADTYPE => STATE_BAD_TYPE
  | ERR_FSAL_ISDIR => STATE_IS_A_DIRECTORY
  | ERR_FSAL_FBIG => STATE_FILE_BIG
  | ERR_FSAL_FILE_OPEN => STATE_FILE_OPEN
  | ERR_FSAL_SHARE_DENIED => STATE_SHARE_DENIED
  | ERR_FSAL_BLOCKED => STATE_LOCK_BLOCKED
  | ERR_FSAL_IN_GRACE => STATE_IN_GRACE
  | ERR_FSAL_BADHANDLE => STATE_BADHANDLE
  | ERR_FSAL_BAD_RANGE => STATE_BAD_RANGE
  | ERR_FSAL_LOCKED => STATE_LOCKED
  | ERR_FSAL_TOOSMALL => STATE_TOOSMALL
  | ERR_FSAL_DQUOT | ERR_FSAL_NAMETOOLONG | ERR_FSAL_EXIST |
    ERR_FSAL_NOTEMPTY | ERR_FSAL_NOTDIR | ERR_FSAL_INTERRUPT |
    ERR_FSAL_FAULT | ERR_FSAL_NOT_INIT | ERR_FSAL_ALREADY_INIT |
    ERR_FSAL_BAD_INIT | ERR_FSAL_NO_QUOTA | ERR_FSAL_XDEV | ERR_FSAL_MLINK |
    ERR_FSAL_TIMEOUT | ERR_FSAL_SERVERFAULT | ERR_FSAL_NO_DATA |
    ERR_FSAL_NO_ACE | ERR_FSAL_CROSS_JUNCTION | ERR_FSAL_BADNAME => STATE_FSAL_ERROR
  end.

(** [nfs4_Errno] and [nfs3_Errno] of support/nfs_convert.c; [where] is only
    logged. *)
Definition nfs4_Errno_verbose (error : fsal_errors_t) : nfsstat4 :=
  match error with
  | ERR_FSAL_NO_ERROR => NFS4_OK
  | ERR_FSAL_NOMEM => NFS4ERR_SERVERFAULT
  | ERR_FSAL_SYMLINK | ERR_FSAL_BADTYPE | ERR_FSAL_INVAL | ERR_FSAL_OVERFLOW => NFS4ERR_INVAL
  | ERR_FSAL_NOTDIR => NFS4ERR_NOTDIR
  | ERR_FSAL_EXIST => NFS4ERR_EXIST
  | ERR_FSAL_NOTEMPTY => NFS4ERR_NOTEMPTY
  | ERR_FSAL_NOENT => NFS4ERR_NOENT
  | ERR_FSAL_NOT_OPENED | ERR_FSAL_BLOCKED | ERR_FSAL_INTERRUPT | ERR_FSAL_NOT_INIT |
    ERR_FSAL_ALREADY_INIT | ERR_FSAL_BAD_INIT | ERR_FSAL_TIMEOUT => NFS4ERR_IO
  | ERR_FSAL_ACCESS => NFS4ERR_ACCESS
  | ERR_FSAL_PERM | ERR_FSAL_SEC => NFS4ERR_PERM
  | ERR_FSAL_NOSPC => NFS4ERR_NOSPC
  | ERR_FSAL_ISDIR => NFS4ERR_ISDIR
  | ERR_FSAL_ROFS => NFS4ERR_ROFS
  | ERR_FSAL_IO | ERR_FSAL_NXIO => NFS4ERR_IO
  | ERR_FSAL_NAMETOOLONG => NFS4ERR_NAMETOOLONG
  | ERR_FSAL_STALE | ERR_FSAL_FHEXPIRED => NFS4ERR_STALE
  | ERR_FSAL_DQUOT | ERR_FSAL_NO_QUOTA => NFS4ERR_DQUOT
  | ERR_FSAL_NOTSUPP | ERR_FSAL_ATTRNOTSUPP => NFS4ERR_NOTSUPP
  | ERR_FSAL_UNION_NOTSUPP => NFS4ERR_UNION_NOTSUPP
  | ERR_FSAL_DELAY => NFS4ERR_DELAY
  | ERR_FSAL_FBIG => NFS4ERR_FBIG
  | ERR_FSAL_FILE_OPEN => NFS4ERR_FILE_OPEN
  | ERR_FSAL_BADCOOKIE => NFS4ERR_BAD_COOKIE
  | ERR_FSAL_TOOSMALL => NFS4ERR_TOOSMALL
  | ERR_FSAL_NO_DATA | ERR_FSAL_FAULT | ERR_FSAL_SERVERFAULT => NFS4ERR_SERVERFAULT
  | ERR_FSAL_DEADLOCK => NFS4ERR_DEADLOCK
  | ERR_FSAL_XDEV => NFS4ERR_XDEV
  | ERR_FSAL_BADHANDLE => NFS4ERR_BADHANDLE
  | ERR_FSAL_MLINK => NFS4ERR_MLINK
  | ERR_FSAL_SHARE_DENIED => NFS4ERR_SHARE_DENIED
  | ERR_FSAL_LOCKED => NFS4ERR_LOCKED
  | ERR_FSAL_IN_GRACE => NFS4ERR_GRACE
  | ERR_FSAL_BAD_RANGE => NFS4ERR_BAD_RANGE
  | ERR_FSAL_BADNAME => NFS4ERR_BADNAME
  | ERR_FSAL_CROSS_JUNCTION | ERR_FSAL_NO_ACE => NFS4ERR_INVAL
  end.

Definition nfs3_Errno_verbose (error : fsal_errors_t) : nfsstat3 :=
  match error with
  | ERR_FSAL_NO_ERROR => NFS3_OK
  | ERR_FSAL_NOMEM | ERR_FSAL_FILE_OPEN | ERR_FSAL_NOT_OPENED | ERR_FSAL_IO |
    ERR_FSAL_NXIO => NFS3ERR_IO
  | ERR_FSAL_INVAL | ERR_FSAL_OVERFLOW => NFS3ERR_INVAL
  | ERR_FSAL_NOTDIR => NFS3ERR_NOTDIR
  | ERR_FSAL_EXIST => NFS3ERR_EXIST
  | ERR_FSAL_NOTEMPTY => NFS3ERR_NOTEMPTY
  | ERR_FSAL_NOENT => NFS3ERR_NOENT
  | ERR_FSAL_ACCESS => NFS3ERR_ACCES
  | ERR_FSAL_PERM | ERR_FSAL_SEC => NFS3ERR_PERM
  | ERR_FSAL_NOSPC => NFS3ERR_NOSPC
  | ERR_FSAL_ISDIR => NFS3ERR_ISDIR
  | ERR_FSAL_ROFS => NFS3ERR_ROFS
  | ERR_FSAL_STALE | ERR_FSAL_FHEXPIRED => NFS3ERR_STALE
  | ERR_FSAL_DQUOT | ERR_FSAL_NO_QUOTA => NFS3ERR_DQUOT
  | ERR_FSAL_SYMLINK | ERR_FSAL_BADTYPE => NFS3ERR_BADTYPE
  | ERR_FSAL_NOTSUPP | ERR_FSAL_ATTRNOTSUPP | ERR_FSAL_UNION_NOTSUPP => NFS3ERR_NOTSUPP
  | ERR_FSAL_DELAY | ERR_FSAL_SHARE_DENIED | ERR_FSAL_LOCKED => NFS3ERR_JUKEBOX
  | ERR_FSAL_NAMETOOLONG => NFS3ERR_NAMETOOLONG
  | ERR_FSAL_FBIG => NFS3ERR_FBIG
  | ERR_FSAL_BADCOOKIE => NFS3ERR_BAD_COOKIE
  | ERR_FSAL_TOOSMALL => NFS3ERR_TOOSMALL
  | ERR_FSAL_NO_DATA | ERR_FSAL_FAULT | ERR_FSAL_SERVERFAULT | ERR_FSAL_DEADLOCK => NFS3ERR_SERVERFAULT
  | ERR_FSAL_XDEV => NFS3ERR_XDEV
  | ERR_FSAL_BADNAME => NFS3ERR_INVAL
  | ERR_FSAL_BADHANDLE => NFS3ERR_BADHANDLE
  | ERR_FSAL_MLINK => NFS3ERR_MLINK
  | ERR_FSAL_IN_GRACE => NFS3ERR_JUKEBOX
  | ERR_FSAL_CROSS_JUNCTION | ERR_FSAL_BLOCKED | ERR_FSAL_INTERRUPT | ERR_FSAL_NOT_INIT |
    ERR_FSAL_ALREADY_INIT | ERR_FSAL_BAD_INIT | ERR_FSAL_TIMEOUT | ERR_FSAL_NO_ACE |
    ERR_FSAL_BAD_RANGE => NFS3ERR_INVAL
  end.

Definition nfs4_Errno_state (err : state_status_t) : nfsstat4 :=
  match err with
  | STATE_SUCCESS => NFS4_OK
  | STATE_MALLOC_ERROR => NFS4ERR_RESOURCE
  | STATE_POOL_MUTEX_INIT_ERROR | STATE_GET_NEW_LRU_ENTRY |
    STATE_INIT_ENTRY_FAILED => NFS4ERR_SERVERFAULT
  | STATE_BAD_TYPE => NFS4ERR_INVAL
  | STATE_NOT_A_DIRECTORY => NFS4ERR_NOTDIR
  | STATE_ENTRY_EXISTS => NFS4ERR_EXIST
  | STATE_DIR_NOT_EMPTY => NFS4ERR_NOTEMPTY
  | STATE_NOT_FOUND => NFS4ERR_NOENT
  | STATE_FSAL_ERROR | STATE_INSERT_ERROR | STATE_LRU_ERROR |
    STATE_HASH_SET_ERROR => NFS4ERR_IO
  | STATE_FSAL_EACCESS => NFS4ERR_ACCESS
  | STATE_FSAL_EPERM | STATE_FSAL_ERR_SEC => NFS4ERR_PERM
  | STATE_NO_SPACE_LEFT => NFS4ERR_NOSPC
  | STATE_IS_A_DIRECTORY => NFS4ERR_ISDIR
  | STATE_READ_ONLY_FS => NFS4ERR_ROFS
  | STATE_IO_ERROR => NFS4ERR_IO
  | STATE_FILE_OPEN => NFS4ERR_FILE_OPEN
  | STATE_NAME_TOO_LONG => NFS4ERR_NAMETOOLONG
  | STATE_ESTALE => NFS4ERR_STALE
  | STATE_SHARE_DENIED => NFS4ERR_SHARE_DENIED
  | STATE_LOCKED => NFS4ERR_LOCKED
  | STATE_QUOTA_EXCEEDED => NFS4ERR_DQUOT
  | STATE_NOT_SUPPORTED => NFS4ERR_NOTSUPP
  | STATE_FSAL_DELAY => NFS4ERR_DELAY
  | STATE_FILE_BIG => NFS4ERR_FBIG
  | STATE_LOCK_DEADLOCK => NFS4ERR_DEADLOCK
  | STATE_LOCK_BLOCKED | STATE_LOCK_CONFLICT => NFS4ERR_DENIED
  | STATE_STATE_ERROR => NFS4ERR_BAD_STATEID
  | STATE_BAD_COOKIE => NFS4ERR_BAD_COOKIE
  | STATE_GRACE_PERIOD => NFS4ERR_GRACE
  | STATE_SERVERFAULT => NFS4ERR_SERVERFAULT
  | STATE_MLINK => NFS4ERR_MLINK
  | STATE_TOOSMALL => NFS4ERR_TOOSMALL
  | STATE_IN_GRACE => NFS4ERR_GRACE
  | STATE_XDEV => NFS4ERR_XDEV
  | STATE_BADHANDLE => NFS4ERR_BADHANDLE
  | STATE_BAD_RANGE => NFS4ERR_BAD_RANGE
  | STATE_INVALID_ARGUMENT | STATE_CACHE_INODE_ERR |
    STATE_INCONSISTENT_ENTRY | STATE_HASH_TABLE_ERROR |
    STATE_ASYNC_POST_ERROR | STATE_SIGNAL_ERROR => NFS4ERR_INVAL
  end.

Definition nfs3_Errno_state (err : state_status_t) : nfsstat3 :=
  match err with
  | STATE_SUCCESS => NFS3_OK
  | STATE_MALLOC_ERROR | STATE_POOL_MUTEX_INIT_ERROR |
    STATE_GET_NEW_LRU_ENTRY | STATE_INIT_ENTRY_FAILED | STATE_INSERT_ERROR |
    STATE_LRU_ERROR | STATE_HASH_SET_ERROR | STATE_FILE_OPEN => NFS3ERR_IO
  | STATE_INVALID_ARGUMENT => NFS3ERR_INVAL
  | STATE_FSAL_ERROR => NFS3ERR_IO
  | STATE_NOT_A_DIRECTORY => NFS3ERR_NOTDIR
  | STATE_ENTRY_EXISTS => NFS3ERR_EXIST
  | STATE_DIR_NOT_EMPTY => NFS3ERR_NOTEMPTY
  | STATE_NOT_FOUND => NFS3ERR_NOENT
  | STATE_FSAL_EACCESS => NFS3ERR_ACCES
  | STATE_LOCKED | STATE_FSAL_EPERM | STATE_FSAL_ERR_SEC => NFS3ERR_PERM
  | STATE_NO_SPACE_LEFT => NFS3ERR_NOSPC
  | STATE_IS_A_DIRECTORY => NFS3ERR_ISDIR
  | STATE_READ_ONLY_FS => NFS3ERR_ROFS
  | STATE_ESTALE => NFS3ERR_STALE
  | STATE_QUOTA_EXCEEDED => NFS3ERR_DQUOT
  | STATE_BAD_TYPE => NFS3ERR_BADTYPE
  | STATE_NOT_SUPPORTED => NFS3ERR_NOTSUPP
  | STATE_FSAL_DELAY | STATE_SHARE_DENIED => NFS3ERR_JUKEBOX
  | STATE_IO_ERROR => NFS3ERR_IO
  | STATE_NAME_TOO_LONG => NFS3ERR_NAMETOOLONG
  | STATE_FILE_BIG => NFS3ERR_FBIG
  | STATE_BAD_COOKIE => NFS3ERR_BAD_COOKIE
  | STATE_MLINK => NFS3ERR_MLINK
  | STATE_SERVERFAULT => NFS3ERR_SERVERFAULT
  | STATE_TOOSMALL => NFS3ERR_TOOSMALL
  | STATE_XDEV => NFS3ERR_XDEV
  | STATE_IN_GRACE => NFS3ERR_JUKEBOX
  | STATE_BADHANDLE => NFS3ERR_BADHANDLE
  | STATE_CACHE_INODE_ERR | STATE_INCONSISTENT_ENTRY |
    STATE_HASH_TABLE_ERROR | STATE_ASYNC_POST_ERROR | STATE_STATE_ERROR |
    STATE_LOCK_CONFLICT | STATE_LOCK_BLOCKED | STATE_LOCK_DEADLOCK |
    STATE_GRACE_PERIOD | STATE_SIGNAL_ERROR | STATE_BAD_RANGE => NFS3ERR_INVAL
  end.

Definition nlm_convert_state_error (err : state_status_t) : nlm4_stats :=
  match err with
  | STATE_SUCCESS => NLM4_GRANTED
  | STATE_LOCK_CONFLICT => NLM4_DENIED
  | STATE_SHARE_DENIED => NLM4_DENIED
  | STATE_MALLOC_ERROR => NLM4_DENIED_NOLOCKS
  | STATE_LOCK_BLOCKED => NLM4_BLOCKED
  | STATE_GRACE_PERIOD => NLM4_DENIED_GRACE_PERIOD
  | STATE_LOCK_DEADLOCK => NLM4_DEADLCK
  | STATE_READ_ONLY_FS => NLM4_ROFS
  | STATE_NOT_FOUND => NLM4_STALE_FH
  | STATE_ESTALE => NLM4_STALE_FH
  | STATE_FILE_BIG | STATE_BAD_RANGE => NLM4_FBIG
  | _ => NLM4_FAILED
  end.


(** [state_unlock_err_ok]: what the bulk release loops count as success. *)
Definition state_unlock_err_ok (status : state_status_t) : bool :=
  match status with STATE_SUCCESS | STATE_ESTALE => true | _ => false end.

(** ** Numbering, decidable equality *)

Lemma state_status_val_inv_val s :
  state_status_val_inv (state_status_val s) = Some s.
Proof. by destruct s. Qed.

Lemma fsal_errors_val_inv_val s :
  fsal_errors_val_inv (fsal_errors_val s) = Some s.
Proof. by destruct s. Qed.

Lemma nfsstat4_val_inv_val s : nfsstat4_val_inv (nfsstat4_val s) = Some s.
Proof. by destruct s. Qed.

#[export] Instance state_status_eq_dec : EqDecision state_status_t :=
  partial_inv_eq_dec _ _ state_status_val_inv_val.
#[export] Instance fsal_errors_eq_dec : EqDecision fsal_errors_t :=
  partial_inv_eq_dec _ _ fsal_errors_val_inv_val.
#[export] Instance nfsstat4_eq_dec : EqDecision nfsstat4 :=
  partial_inv_eq_dec _ _ nfsstat4_val_inv_val.

Lemma state_error_convert_success f :
  state_error_convert f = STATE_SUCCESS <-> FSAL_IS_ERROR f = false.
Proof. destruct f as [m z]. by destruct m. Qed.

(** ** Properties *)

(** No conversion of a status turns a failure into a success or a
    success into a failure: an FSAL status converts to STATE_SUCCESS exactly
    when it is no error, NFSv4 and NFSv3 are told of a success exactly for
    ERR_FSAL_NO_ERROR when they convert it directly, and they and NLM
    exactly for STATE_SUCCESS. *)
Theorem conversions_preserve_success :
  (forall f, state_error_convert f = STATE_SUCCESS <->
             FSAL_IS_ERROR f = false) /\
  (forall e, nfs4_Errno_verbose e = NFS4_OK <-> e = ERR_FSAL_NO_ERROR) /\
  (forall e, nfs3_Errno_verbose e = NFS3_OK <-> e = ERR_FSAL_NO_ERROR) /\
  (forall s, nfs4_Errno_state s = NFS4_OK <-> s = STATE_SUCCESS) /\
  (forall s, nfs3_Errno_state s = NFS3_OK <-> s = STATE_SUCCESS) /\
  (forall s, nlm_convert_state_error s = NLM4_GRANTED <-> s = STATE_SUCCESS).
Proof.
  split_and!; [apply state_error_convert_success | intros []; done ..].
Qed.

(** The statuses in the order of the enumeration, and the status a printed
    name stands for (a log reader's decoder). *)
Definition all_states : list state_status_t :=
  omap state_status_val_inv (seqZ 0 49).

Definition state_of_str (s : string) : option state_status_t :=
  snd <$> list_find (fun st => state_err_str st = s) all_states.

(** The names [state_err_str] prints are distinct, so a status can be read
    back from a log. *)
Lemma state_err_str_roundtrip s : state_of_str (state_err_str s) = Some s.
Proof. destruct s; vm_compute; reflexivity. Qed.
