(* ===== verification/Owners.v ===== *)
(** * State owners and their comparison

    [state_owner_t] with its protocol specific parts (include/sal_data.h)
    and the functions that decide whether two owners are the same party:
    [different_owners] (SAL/state_misc.c), [compare_nlm_owner],
    [compare_nlm_client], [compare_nsm_client] (SAL/nlm_owner.c),
    [compare_9p_owner] (SAL/9p_owner.c), [compare_nfs4_owner]
    (SAL/nfs4_owner.c) and [cmp_sockaddr] (RPCAL/rpc_tools.c).

    Owners, NLM clients and NSM clients are shared objects that the C code
    handles by pointer and compares by pointer first.  A pointer is a
    natural number here and [owner_env] says what it points to. *)
From S2P Require Import Prelude.

(** [state_owner_type_t] (built with _USE_NLM and _USE_9P). *)
Inductive state_owner_type_t :=
| STATE_LOCK_OWNER_UNKNOWN
| STATE_LOCK_OWNER_NLM
| STATE_LOCK_OWNER_9P
| STATE_OPEN_OWNER_NFSV4
| STATE_LOCK_OWNER_NFSV4
| STATE_CLIENTID_OWNER_NFSV4.

#[export] Instance state_owner_type_eq_dec : EqDecision state_owner_type_t.
Proof. solve_decision. Defined.

(** The part of a [sockaddr_t] that [cmp_sockaddr] looks at. *)
Inductive sockaddr_t :=
| AF_INET (s_addr : Z) (sin_port : Z)
| AF_INET6 (s6_addr : list Z) (sin6_port : Z)
| AF_OTHER (ss_family : Z).

(** [state_nsm_client_t]: the fields its comparison reads. *)
Record state_nsm_client_t := {
  ssc_client : nat;
  ssc_nlm_caller_name : list Z
}.

(** [state_nlm_client_t]: the fields its comparison reads. *)
Record state_nlm_client_t := {
  slc_nsm_client : option nat;
  slc_server_addr : sockaddr_t;
  slc_client_type : Z;
  slc_nlm_caller_name : list Z
}.

(** [state_owner_t]: the identity of the owner.  The union [so_owner] is
    flattened, [so_type] says which of its members are meaningful;
    [so_owner_val] carries [so_owner_len] bytes. *)
Record state_owner_t := {
  so_type : state_owner_type_t;
  so_owner_val : list Z;
  so_clientid : Z;             (* so_nfs4_owner *)
  so_client : option nat;      (* so_nlm_owner *)
  so_nlm_svid : Z;             (* so_nlm_owner *)
  proc_id : Z                  (* so_9p_owner *)
}.

(** What the pointers point to, and the configuration flag
    [nfs_param.core_param.nsm_use_caller_name]. *)
Record owner_env := {
  owner_at : nat -> state_owner_t;
  nlm_client_at : nat -> state_nlm_client_t;
  nsm_client_at : nat -> state_nsm_client_t;
  nsm_use_caller_name : bool
}.

(** [memcmp] on two buffers of the same length: the difference of the
    first bytes that differ. *)
Fixpoint memcmp (a b : list Z) : Z :=
  match a, b with
  | x :: a', y :: b' => if x =? y then memcmp a' b' else x - y
  | _, _ => 0
  end.

Definition cmp_sockaddr (addr_1 addr_2 : sockaddr_t) (ignore_port : bool) : bool :=
  match addr_1, addr_2 with
  | AF_INET a1 p1, AF_INET a2 p2 => (a1 =? a2) && (ignore_port || (p1 =? p2))
  | AF_INET6 a1 p1, AF_INET6 a2 p2 =>
      (memcmp a1 a2 =? 0) && (ignore_port || (p1 =? p2))
  | _, _ => false
  end.

Section compare.
Context (env : owner_env).

Definition compare_nsm_client (client1 client2 : option nat) : Z :=
  match client1, client2 with
  | Some c1, Some c2 =>
      if decide (c1 = c2) then 0 else
      let n1 := nsm_client_at env c1 in
      let n2 := nsm_client_at env c2 in
      if negb (nsm_use_caller_name env) then
        if decide (ssc_client n1 <> ssc_client n2) then 1 else 0
      else
      if decide (length (ssc_nlm_caller_name n1) <>
                 length (ssc_nlm_caller_name n2)) then 1
      else memcmp (ssc_nlm_caller_name n1) (ssc_nlm_caller_name n2)
  | _, _ => 1
  end.

Definition compare_nlm_client (client1 client2 : option nat) : Z :=
  match client1, client2 with
  | Some c1, Some c2 =>
      if decide (c1 = c2) then 0 else
      let n1 := nlm_client_at env c1 in
      let n2 := nlm_client_at env c2 in
      if negb (compare_nsm_client (slc_nsm_client n1) (slc_nsm_client n2) =? 0)
      then 1 else
      if negb (cmp_sockaddr (slc_server_addr n1) (slc_server_addr n2) true)
      then 1 else
      if negb (slc_client_type n1 =? slc_client_type n2) then 1 else
      if decide (length (slc_nlm_caller_name n1) <>
                 length (slc_nlm_caller_name n2)) then 1
      else memcmp (slc_nlm_caller_name n1) (slc_nlm_caller_name n2)
  | _, _ => 1
  end.

Definition compare_nlm_owner (owner1 owner2 : option nat) : Z :=
  match owner1, owner2 with
  | Some p1, Some p2 =>
      if decide (p1 = p2) then 0 else
      let o1 := owner_at env p1 in
      let o2 := owner_at env p2 in
      if negb (compare_nlm_client (so_client o1) (so_client o2) =? 0)
      then 1 else
      if negb (so_nlm_svid o1 =? so_nlm_svid o2) then 1 else
      if decide (length (so_owner_val o1) <> length (so_owner_val o2)) then 1
      else memcmp (so_owner_val o1) (so_owner_val o2)
  | _, _ => 1
  end.

Definition compare_9p_owner (owner1 owner2 : option nat) : Z :=
  match owner1, owner2 with
  | Some p1, Some p2 =>
      if decide (p1 = p2) then 0 else
      if negb (proc_id (owner_at env p1) =? proc_id (owner_at env p2))
      then 1 else 0
  | _, _ => 1
  end.

Definition compare_nfs4_owner (owner1 owner2 : option nat) : Z :=
  match owner1, owner2 with
  | Some p1, Some p2 =>
      if decide (p1 = p2) then 0 else
      let o1 := owner_at env p1 in
      let o2 := owner_at env p2 in
      if decide (so_type o1 <> so_type o2) then 1 else
      if negb (so_clientid o1 =? so_clientid o2) then 1 else
      if decide (length (so_owner_val o1) <> length (so_owner_val o2)) then 1
      else memcmp (so_owner_val o1) (so_owner_val o2)
  | _, _ => 1
  end.

(** [different_owners]: the [int] results of the comparisons become
    [bool] at the return. *)
Definition different_owners (owner1 owner2 : option nat) : bool :=
  match owner1, owner2 with
  | Some p1, Some p2 =>
      if decide (p1 = p2) then false else
      if decide (so_type (owner_at env p1) <> so_type (owner_at env p2))
      then true else
      match so_type (owner_at env p1) with
      | STATE_LOCK_OWNER_NLM => negb (compare_nlm_owner owner1 owner2 =? 0)
      | STATE_LOCK_OWNER_9P => negb (compare_9p_owner owner1 owner2 =? 0)
      | STATE_OPEN_OWNER_NFSV4
      | STATE_LOCK_OWNER_NFSV4
      | STATE_CLIENTID_OWNER_NFSV4 =>
          negb (compare_nfs4_owner owner1 owner2 =? 0)
      | STATE_LOCK_OWNER_UNKNOWN => true
      end
  | _, _ => true
  end.
End compare.

#[global] Arguments compare_nsm_client : simpl never.
#[global] Arguments compare_nlm_client : simpl never.
#[global] Arguments compare_nlm_owner : simpl never.
#[global] Arguments compare_9p_owner : simpl never.
#[global] Arguments compare_nfs4_owner : simpl never.
#[global] Arguments different_owners : simpl never.

(** ** Comparison results as relations *)

Lemma memcmp_zero a b : length a = length b -> memcmp a b = 0 <-> a = b.
Proof.
  revert b. induction a as [|x a IH]; intros [|y b] Hl; simpl in *; try done.
  destruct (Z.eqb_spec x y) as [->|Hne].
  - rewrite IH by lia. split; [by intros -> | by intros [= ->]].
  - split; [lia | by intros [= -> _]].
Qed.

(** Buffers compared by length and then by [memcmp]. *)
Lemma len_memcmp_zero (a b : list Z) :
  (if decide (length a <> length b) then 1 else memcmp a b) = 0 <-> a = b.
Proof.
  case_decide as H; [split; [done | by intros ->] |].
  apply memcmp_zero. lia.
Qed.

(** The socket addresses of a form [cmp_sockaddr] can find equal. *)
Definition sockaddr_key (a : sockaddr_t) : option (Z + list Z) :=
  match a with
  | AF_INET x _ => Some (inl x)
  | AF_INET6 x _ => Some (inr x)
  | AF_OTHER _ => None
  end.

(** IPv6 addresses are sixteen bytes. *)
Definition sockaddr_wf (a : sockaddr_t) : Prop :=
  match a with AF_INET6 x _ => length x = 16%nat | _ => True end.

Lemma cmp_sockaddr_key a b :
  sockaddr_wf a -> sockaddr_wf b ->
  cmp_sockaddr a b true = true <->
  exists k, sockaddr_key a = Some k /\ sockaddr_key b = Some k.
Proof.
  destruct a as [x p|x p|f], b as [y q|y q|g]; simpl; intros Ha Hb;
    try (split; [done | intros (? & ? & ?); congruence]).
  - rewrite andb_true_r, Z.eqb_eq. split; [intros ->; eauto|].
    intros (k & [= <-] & [= ->]). done.
  - rewrite andb_true_r, Z.eqb_eq, memcmp_zero by lia. split; [intros ->; eauto|].
    intros (k & [= <-] & [= ->]). done.
Qed.

(** Every address in the environment is well formed. *)
Definition owner_env_wf (env : owner_env) : Prop :=
  forall c, sockaddr_wf (slc_server_addr (nlm_client_at env c)).

(** ** The comparisons are equivalences *)

(** Two pointers are the same party when they are equal or when what they
    point to is comparable and has the same key. *)
Definition keyed {A K} (V : A -> Prop) (key : A -> K) (a b : A) : Prop :=
  a = b \/ (V a /\ V b /\ key a = key b).

#[export] Instance keyed_equiv {A K} (V : A -> Prop) (key : A -> K) :
  Equivalence (keyed V key).
Proof.
  split.
  - by left.
  - intros a b [->|(?&?&?)]; [by left | right; auto].
  - intros a b c [->|(?&?&E)] [->|(?&?&E')]; unfold keyed; auto.
    right. rewrite E. auto.
Qed.

Section equivalences.
Context (env : owner_env) (Hwf : owner_env_wf env).

Definition nsm_key (c : nat) : nat + list Z :=
  if nsm_use_caller_name env then inr (ssc_nlm_caller_name (nsm_client_at env c))
  else inl (ssc_client (nsm_client_at env c)).

Lemma compare_nsm_client_zero c1 c2 :
  compare_nsm_client env (Some c1) (Some c2) = 0 <-> nsm_key c1 = nsm_key c2.
Proof.
  unfold compare_nsm_client, nsm_key. case_decide as E; [by subst|].
  destruct (nsm_use_caller_name env); simpl.
  - rewrite len_memcmp_zero. split; congruence.
  - case_decide; split; congruence.
Qed.

Definition nlm_key (c : nat) : option (nat + list Z) * (option (Z + list Z) * (Z * list Z)) :=
  let n := nlm_client_at env c in
  (nsm_key <$> slc_nsm_client n,
    (sockaddr_key (slc_server_addr n), (slc_client_type n, slc_nlm_caller_name n))).

Definition nlm_comparable (c : nat) : Prop :=
  is_Some (slc_nsm_client (nlm_client_at env c)) /\
  is_Some (sockaddr_key (slc_server_addr (nlm_client_at env c))).

Lemma compare_nlm_client_zero c1 c2 :
  compare_nlm_client env (Some c1) (Some c2) = 0 <->
  keyed nlm_comparable nlm_key c1 c2.
Proof.
  unfold compare_nlm_client, keyed, nlm_comparable, nlm_key.
  case_decide as E; [by split; [left|] |].
  set (n1 := nlm_client_at env c1). set (n2 := nlm_client_at env c2).
  destruct (slc_nsm_client n1) as [m1|], (slc_nsm_client n2) as [m2|];
    simpl; try (split; [done | intros [|([[] ?] & [[] ?] & ?)]; congruence]).
  destruct (Z.eqb_spec (compare_nsm_client env (Some m1) (Some m2)) 0) as [E1|E1];
    rewrite compare_nsm_client_zero in E1; simpl;
    [|split; [done | intros [|(_ & _ & [=])]; congruence]].
  pose proof (cmp_sockaddr_key _ _ (Hwf c1) (Hwf c2)) as Hs. fold n1 n2 in Hs.
  destruct (cmp_sockaddr _ _ true); simpl;
    [|split; [done | intros [|([_ [k Hk]] & _ & [=])]; [done|]];
      exfalso; enough (false = true) by done; apply Hs;
      exists k; split; congruence].
  destruct (proj1 Hs eq_refl) as (k & -> & ->).
  destruct (Z.eqb_spec (slc_client_type n1) (slc_client_type n2)) as [->|E2]; simpl;
    [|split; [done | intros [|(_ & _ & [=])]; congruence]].
  rewrite len_memcmp_zero, E1.
  split; [|intros [|(_ & _ & [=])]; congruence].
  intros ->. right. split_and!; eauto.
Qed.

Definition nlm_owner_rel (p1 p2 : nat) : Prop :=
  p1 = p2 \/
  exists c1 c2, so_client (owner_at env p1) = Some c1 /\
                so_client (owner_at env p2) = Some c2 /\
                keyed nlm_comparable nlm_key c1 c2 /\
                so_nlm_svid (owner_at env p1) = so_nlm_svid (owner_at env p2) /\
                so_owner_val (owner_at env p1) = so_owner_val (owner_at env p2).

Lemma compare_nlm_owner_zero p1 p2 :
  compare_nlm_owner env (Some p1) (Some p2) = 0 <-> nlm_owner_rel p1 p2.
Proof.
  unfold compare_nlm_owner, nlm_owner_rel.
  case_decide as E; [by split; [left|]|].
  destruct (so_client (owner_at env p1)) as [c1|],
           (so_client (owner_at env p2)) as [c2|]; simpl;
    try (split; [done | intros [|(?&?&?&?&?)]; congruence]).
  destruct (Z.eqb_spec (compare_nlm_client env (Some c1) (Some c2)) 0) as [E1|E1];
    rewrite compare_nlm_client_zero in E1; simpl;
    [|split; [done | intros [|(?&?&[= <-]&[= <-]&?&?)]; done]].
  destruct (Z.eqb_spec (so_nlm_svid (owner_at env p1)) (so_nlm_svid (owner_at env p2)));
    simpl; [|split; [done | intros [|(?&?&?&?&?&?&?)]; congruence]].
  rewrite len_memcmp_zero. split; [|intros [|(?&?&?&?&?&?&?)]; congruence].
  intros. right. eauto 10.
Qed.

#[export] Instance nlm_owner_rel_equiv : Equivalence nlm_owner_rel.
Proof.
  split.
  - by left.
  - intros a b [->|(c1&c2&?&?&K&?&?)]; [by left|]. right.
    exists c2, c1. split_and!; auto. by symmetry.
  - intros a b c [->|(c1&c2&H1&H2&K&?&?)] [->|(c3&c4&H3&H4&K'&?&?)];
      [by left | by right; eauto 10 | by right; eauto 10|].
    right. exists c1, c4. rewrite H2 in H3. injection H3 as ->.
    split_and!; try congruence. by etrans.
Qed.

Definition nfs4_owner_rel : nat -> nat -> Prop :=
  keyed (fun _ => True)
    (fun p => (so_type (owner_at env p),
                (so_clientid (owner_at env p), so_owner_val (owner_at env p)))).

Lemma compare_nfs4_owner_zero p1 p2 :
  compare_nfs4_owner env (Some p1) (Some p2) = 0 <-> nfs4_owner_rel p1 p2.
Proof.
  unfold compare_nfs4_owner, nfs4_owner_rel, keyed.
  case_decide as E; [by split; [left|]|].
  case_decide as E1; [split; [done | intros [|(_&_&[=])]; congruence]|].
  destruct (Z.eqb_spec (so_clientid (owner_at env p1)) (so_clientid (owner_at env p2)))
    as [E2|]; simpl; [|split; [done | intros [|(_&_&[=])]; congruence]].
  rewrite len_memcmp_zero. split; [|intros [|(_&_&[=])]; congruence].
  intros ->. right. split_and!; auto. congruence.
Qed.

Definition p9_owner_rel : nat -> nat -> Prop :=
  keyed (fun _ => True) (fun p => proc_id (owner_at env p)).

Lemma compare_9p_owner_zero p1 p2 :
  compare_9p_owner env (Some p1) (Some p2) = 0 <-> p9_owner_rel p1 p2.
Proof.
  unfold compare_9p_owner, p9_owner_rel, keyed.
  case_decide as E; [by split; [left|]|].
  destruct (Z.eqb_spec (proc_id (owner_at env p1)) (proc_id (owner_at env p2)));
    simpl; [split; auto | split; [done | intros [|(_&_&?)]; congruence]].
Qed.

(** The relation [different_owners] decides, by owner type. *)
Definition owner_rel_at (t : state_owner_type_t) : nat -> nat -> Prop :=
  match t with
  | STATE_LOCK_OWNER_NLM => nlm_owner_rel
  | STATE_LOCK_OWNER_9P => p9_owner_rel
  | STATE_OPEN_OWNER_NFSV4
  | STATE_LOCK_OWNER_NFSV4
  | STATE_CLIENTID_OWNER_NFSV4 => nfs4_owner_rel
  | STATE_LOCK_OWNER_UNKNOWN => eq
  end.

#[export] Instance owner_rel_at_equiv t : Equivalence (owner_rel_at t).
Proof. destruct t; apply _. Qed.

Lemma different_owners_false p1 p2 :
  different_owners env (Some p1) (Some p2) = false <->
  so_type (owner_at env p1) = so_type (owner_at env p2) /\
  owner_rel_at (so_type (owner_at env p1)) p1 p2.
Proof.
  unfold different_owners. case_decide as E.
  { subst. split; [split; reflexivity | done]. }
  case_decide as E1; [split; [done | by intros [? ?]]|].
  rewrite E1.
  destruct (so_type (owner_at env p2)); simpl;
    rewrite ?negb_false_iff, ?Z.eqb_eq, ?compare_nlm_owner_zero,
      ?compare_9p_owner_zero, ?compare_nfs4_owner_zero;
    (split; [try done; by split | by intros [_ ?]]).
Qed.
End equivalences.

(** Being the same owner. *)
Definition same_owner (env : owner_env) (p1 p2 : nat) : Prop :=
  different_owners env (Some p1) (Some p2) = false.

#[export] Instance same_owner_dec env p1 p2 : Decision (same_owner env p1 p2).
Proof. unfold same_owner. apply _. Defined.

(** The verdict is an equivalence, so the locks of one owner form a class. *)
Lemma same_owner_equiv env : owner_env_wf env -> Equivalence (same_owner env).
Proof.
  intros Hwf. unfold same_owner. split.
  - intros p. rewrite different_owners_false by done. split; reflexivity.
  - intros p q. rewrite !different_owners_false by done. intros [E R].
    split; [done|]. rewrite <- E. by symmetry.
  - intros p q r. rewrite !different_owners_false by done. intros [E R] [E' R'].
    split; [congruence|]. rewrite <- E in R'. by etrans.
Qed.

(** C36: [different_owners] tells parties apart consistently: an owner never
    differs from itself, the verdict does not depend on the order of the
    arguments, and two owners that do not differ from a third do not differ
    from each other, although each protocol compares other fields and NLM
    owners are compared through their clients. *)
Theorem different_owners_partition env :
  owner_env_wf env ->
  (forall p, different_owners env (Some p) (Some p) = false) /\
  (forall p q, different_owners env (Some p) (Some q) = different_owners env (Some q) (Some p)) /\
  (forall p q r, different_owners env (Some p) (Some q) = false ->
     different_owners env (Some q) (Some r) = false ->
     different_owners env (Some p) (Some r) = false).
Proof.
  intros Hwf. destruct (same_owner_equiv env Hwf) as [R S T]. split_and!.
  - intros p. apply (R p).
  - intros p q. apply eq_true_iff_eq. rewrite <-!not_false_iff_true. apply not_iff_compat.
    split; [apply (S p q)|apply (S q p)].
  - apply T.
Qed.

(** Three NLM owners: the first two are the same process of the same host
    known under two client structures, the third another process. *)
Definition nlm_pair : owner_env := {|
  owner_at := fun p => {|
    so_type := STATE_LOCK_OWNER_NLM; so_owner_val := [7]; so_clientid := 0;
    so_client := Some p; so_nlm_svid := (if decide (p = 2)%nat then 9 else 5); proc_id := 0 |};
  nlm_client_at := fun p => {|
    slc_nsm_client := Some 0%nat; slc_server_addr := AF_INET 1 (Z.of_nat p);
    slc_client_type := 0; slc_nlm_caller_name := [65] |};
  nsm_client_at := fun _ => {| ssc_client := 0; ssc_nlm_caller_name := [65] |};
  nsm_use_caller_name := false
|}.

Lemma different_owners_partition_witness :
  different_owners nlm_pair (Some 0%nat) (Some 1%nat) = false /\
  different_owners nlm_pair (Some 0%nat) (Some 2%nat) = true /\
  different_owners nlm_pair (Some 1%nat) (Some 0%nat) = false.
Proof.
  split; [vm_compute; reflexivity|]. split; [vm_compute; reflexivity|].
  rewrite (proj1 (proj2 (different_owners_partition nlm_pair (fun c => I))) 1%nat 0%nat).
  vm_compute; reflexivity.
Defined.
