(* ===== verification/GList.v ===== *)
(** * Intrusive doubly linked lists

    The lists of include/gsh_list.h at the level of their pointers: nodes in
    a memory, with NULL and accesses to memory that is not allocated.  The
    abstract lists LockData.v uses are justified here: every operation runs
    without a bad access on well formed lists and does to the nodes what the
    abstract operation does to the lists. *)
From S2P Require Import Prelude.

(** ** The code *)

(** [struct glist_head]; a pointer is an address or NULL. *)
Record glist_head := mk_node { next : option nat; prev : option nat }.

Abbreviation mem := (gmap nat glist_head).

Definition load (p : option nat) (m : mem) : option glist_head :=
  a ← p; m !! a.

Definition set_next (p v : option nat) (m : mem) : option mem :=
  a ← p; n ← m !! a; Some (<[a := mk_node v (prev n)]> m).

Definition set_prev (p v : option nat) (m : mem) : option mem :=
  a ← p; n ← m !! a; Some (<[a := mk_node (next n) v]> m).

Definition glist_init (head : option nat) (m : mem) : option mem :=
  m ← set_next head head m;
  set_prev head head m.

Definition glist_add_between (left right elt : option nat) (m : mem) : option mem :=
  m ← set_prev elt left m;
  m ← set_next elt right m;
  m ← set_next left elt m;
  set_prev right elt m.

Definition glist_add_tail (head elt : option nat) (m : mem) : option mem :=
  h ← load head m;
  glist_add_between (prev h) head elt m.

Definition glist_add (head elt : option nat) (m : mem) : option mem :=
  h ← load head m;
  glist_add_between head (next h) elt m.

Definition glist_del (node : option nat) (m : mem) : option mem :=
  n ← load node m;
  let left := prev n in
  let right := next n in
  m ← match left with Some _ => set_next left right m | None => Some m end;
  m ← match right with Some _ => set_prev right left m | None => Some m end;
  m ← set_next node None m;
  set_prev node None m.

Definition glist_empty (head : option nat) (m : mem) : option bool :=
  h ← load head m;
  Some (bool_decide (next h = head)).

Definition glist_null (head : option nat) (m : mem) : option bool :=
  h ← load head m;
  Some (bool_decide (next h = None) && bool_decide (prev h = None)).

Definition glist_add_list_tail (list elt : option nat) (m : mem) : option mem :=
  e ← load elt m;
  let first := next e in
  let last := prev e in
  empty ← glist_empty elt m;
  if (empty : bool) then Some m else
  l ← load list m;
  m ← set_prev first (prev l) m;
  l ← load list m;
  m ← set_next (prev l) first m;
  m ← set_next last list m;
  set_prev list last m.

Definition glist_splice_tail (tgt src : option nat) (m : mem) : option mem :=
  empty ← glist_empty src m;
  if (empty : bool) then Some m else
  s ← load src m;
  t ← load tgt m;
  m ← set_prev (next s) (prev t) m;
  t ← load tgt m;
  s ← load src m;
  m ← set_next (prev t) (next s) m;
  s ← load src m;
  m ← set_next (prev s) tgt m;
  s ← load src m;
  m ← set_prev tgt (prev s) m;
  glist_init src m.

(** A structure assignment. *)
Definition store (p : option nat) (n : glist_head) (m : mem) : option mem :=
  a ← p; _ ← m !! a; Some (<[a := n]> m).

Definition glist_swap_lists (l1 l2 : option nat) (m : mem) : option mem :=
  empty ← glist_empty l1 m;
  if (empty : bool) then glist_splice_tail l1 l2 m else
  empty ← glist_empty l2 m;
  if (empty : bool) then glist_splice_tail l2 l1 m else
  temp ← load l1 m;
  n ← load l2 m;
  m ← store l1 n m;
  m ← store l2 temp m;
  n ← load l1 m;
  m ← set_prev (next n) l1 m;
  n ← load l2 m;
  m ← set_prev (next n) l2 m;
  n ← load l1 m;
  m ← set_next (prev n) l1 m;
  n ← load l2 m;
  set_next (prev n) l2 m.

(** [glist_for_each], counting; [fuel] bounds the number of nodes visited. *)
Fixpoint count_nodes (fuel : nat) (head dummy : option nat) (length : nat) (m : mem)
    : option nat :=
  if decide (dummy = head) then Some length else
  match fuel with
  | O => None
  | S fuel => d ← load dummy m; count_nodes fuel head (next d) (S length) m
  end.

Definition glist_length (fuel : nat) (head : option nat) (m : mem) : option nat :=
  h ← load head m;
  count_nodes fuel head (next h) 0 m.

Section sorted.
Context (compare : nat -> nat -> Z).

(** The search of [glist_insert_sorted]: the node before which the new one
    goes, the head when it goes to the end. *)
Fixpoint insert_point (fuel : nat) (head node : option nat) (elt : nat) (m : mem)
    : option (option nat) :=
  if decide (node = head) then Some node else
  match fuel with
  | O => None
  | S fuel =>
      a ← node;
      n ← m !! a;
      if 0 <=? compare a elt then Some node else insert_point fuel head (next n) elt m
  end.

Definition glist_insert_sorted (fuel : nat) (head : option nat) (elt : nat) (m : mem)
    : option mem :=
  empty ← glist_empty head m;
  if (empty : bool) then glist_add_tail head (Some elt) m else
  h ← load head m;
  node ← insert_point fuel head (next h) elt m;
  n ← load node m;
  glist_add_between (prev n) node (Some elt) m.
End sorted.

(** ** Well formed lists *)

Definition nxt (m : mem) (a : nat) : option nat := n ← m !! a; next n.
Definition prv (m : mem) (a : nat) : option nat := n ← m !! a; prev n.

Definition linked (m : mem) (a b : nat) : Prop := nxt m a = Some b /\ prv m b = Some a.

(** Each node of the list is linked to the one after it. *)
Fixpoint path (m : mem) (l : list nat) : Prop :=
  match l with
  | a :: (b :: _) as l => linked m a b /\ path m l
  | _ => True
  end.

(** The nodes [l], in order, are on the list with head [h]. *)
Definition is_glist (m : mem) (h : nat) (l : list nat) : Prop :=
  NoDup (h :: l) /\ path m (h :: l ++ [h]).

Definition allocated (m : mem) (a : nat) : Prop := is_Some (m !! a).

(** ** Memory updates *)

Definition wn (a : nat) (v : option nat) (m : mem) : mem := <[a := mk_node v (prv m a)]> m.
Definition wp (a : nat) (v : option nat) (m : mem) : mem := <[a := mk_node (nxt m a) v]> m.

Create HintDb glist.
Create Rewrite HintDb glist_mem.

Lemma nxt_wn a v m c : nxt (wn a v m) c = if decide (c = a) then v else nxt m c.
Proof.
  unfold nxt, wn. case_decide; subst; [by rewrite lookup_insert_eq|by rewrite lookup_insert_ne].
Qed.

Lemma prv_wp a v m c : prv (wp a v m) c = if decide (c = a) then v else prv m c.
Proof.
  unfold prv, wp. case_decide; subst; [by rewrite lookup_insert_eq|by rewrite lookup_insert_ne].
Qed.

Lemma prv_wn a v m c : prv (wn a v m) c = prv m c.
Proof.
  destruct (decide (c = a)) as [->|Hc]; unfold prv at 1, wn;
    [by rewrite lookup_insert_eq|by rewrite lookup_insert_ne].
Qed.

Lemma nxt_wp a v m c : nxt (wp a v m) c = nxt m c.
Proof.
  destruct (decide (c = a)) as [->|Hc]; unfold nxt at 1, wp;
    [by rewrite lookup_insert_eq|by rewrite lookup_insert_ne].
Qed.

Lemma allocated_wn a v m c : allocated m c -> allocated (wn a v m) c.
Proof. unfold allocated, wn. rewrite lookup_insert_is_Some. destruct (decide (a = c)); auto. Qed.

Lemma allocated_wp a v m c : allocated m c -> allocated (wp a v m) c.
Proof. unfold allocated, wp. rewrite lookup_insert_is_Some. destruct (decide (a = c)); auto. Qed.

Lemma nxt_allocated m a b : nxt m a = Some b -> allocated m a.
Proof. unfold nxt, allocated. by destruct (m !! a). Qed.

Lemma prv_allocated m a b : prv m a = Some b -> allocated m a.
Proof. unfold prv, allocated. by destruct (m !! a). Qed.

#[export] Hint Resolve allocated_wn allocated_wp nxt_allocated prv_allocated : glist.
#[export] Hint Rewrite nxt_wn prv_wp prv_wn nxt_wp : glist_mem.

#[local] Arguments load : simpl never.
#[local] Arguments store : simpl never.
#[local] Arguments set_next : simpl never.
#[local] Arguments set_prev : simpl never.
#[local] Arguments wn : simpl never.
#[local] Arguments wp : simpl never.

Lemma load_allocated a m :
  allocated m a -> load (Some a) m = Some (mk_node (nxt m a) (prv m a)).
Proof. intros [[n p] Hn]. unfold load, nxt, prv. simpl. by rewrite Hn. Qed.

Lemma set_next_allocated a v m : allocated m a -> set_next (Some a) v m = Some (wn a v m).
Proof. intros [[n p] Hn]. unfold set_next, wn, prv. simpl. by rewrite Hn. Qed.

Lemma set_prev_allocated a v m : allocated m a -> set_prev (Some a) v m = Some (wp a v m).
Proof. intros [[n p] Hn]. unfold set_prev, wp, nxt. simpl. by rewrite Hn. Qed.

(** ** Paths *)

Lemma path_cons2 m a b l : path m (a :: b :: l) <-> linked m a b /\ path m (b :: l).
Proof. done. Qed.

Lemma path_mid m s p q t :
  path m (s ++ p :: q :: t) <-> path m (s ++ [p]) /\ linked m p q /\ path m (q :: t).
Proof.
  induction s as [|a [|b s] IH]; simpl app in *.
  - rewrite path_cons2. simpl. tauto.
  - rewrite !path_cons2. simpl. tauto.
  - rewrite !path_cons2, IH. tauto.
Qed.

(** A path depends on the forward links of all nodes but the last and on the
    backward links of all but the first. *)
Lemma path_frame m m' l :
  (forall s t c, l = s ++ c :: t -> t <> [] -> nxt m' c = nxt m c) ->
  (forall s t c, l = s ++ c :: t -> s <> [] -> prv m' c = prv m c) ->
  path m l -> path m' l.
Proof.
  induction l as [|a [|b l] IH]; intros Hn Hp; [done..|].
  rewrite !path_cons2. intros [[H1 H2] H3]. split.
  - split; [rewrite (Hn [] (b :: l)); done|by rewrite (Hp [a] l)].
  - apply IH; [| |done].
    + intros s t c E Ht. apply (Hn (a :: s) t); [by rewrite E|done].
    + intros s t c E Ht. apply (Hp (a :: s) t); [by rewrite E|done].
Qed.

(** The same for a path without repetitions, by membership. *)
Lemma path_frame_snoc m m' s p :
  (forall c, c ∈ s -> nxt m' c = nxt m c) ->
  (forall c, c ∈ tail (s ++ [p]) -> prv m' c = prv m c) ->
  path m (s ++ [p]) -> path m' (s ++ [p]).
Proof.
  intros Hn Hp. apply path_frame.
  - intros s' t c E Ht. apply Hn. destruct (exists_last Ht) as (t' & z & ->).
    rewrite app_comm_cons, app_assoc in E. apply app_inj_tail in E as [-> _]. set_solver.
  - intros s' t c E Hs. apply Hp. rewrite E. destruct s' as [|x s']; [done|]. set_solver.
Qed.

(** A list as a path around its head: [p] is the last node before the cut
    and [q] the first one after it. *)
Lemma glist_cut h (l1 l2 : list nat) :
  exists s p q t, h :: l1 = s ++ [p] /\ l2 ++ [h] = q :: t.
Proof.
  destruct (@exists_last _ (h :: l1)) as (s & p & E1); [done|].
  destruct (l2 ++ [h]) as [|q t] eqn:E2; [by destruct l2|].
  by exists s, p, q, t.
Qed.

(** What an operation on the nodes [l] may do to the memory. *)
Definition touches (l : list nat) (m m' : mem) : Prop :=
  (forall c, c ∉ l -> m' !! c = m !! c) /\ (forall c, allocated m c -> allocated m' c).

Lemma touches_refl l m : touches l m m.
Proof. split; auto. Qed.

Lemma touches_wn l a v m m' : a ∈ l -> touches l m m' -> touches l m (wn a v m').
Proof.
  intros Ha [H1 H2]. split; [|auto with glist].
  intros c Hc. unfold wn. rewrite lookup_insert_ne; [by apply H1|by intros ->].
Qed.

Lemma touches_wp l a v m m' : a ∈ l -> touches l m m' -> touches l m (wp a v m').
Proof.
  intros Ha [H1 H2]. split; [|auto with glist].
  intros c Hc. unfold wp. rewrite lookup_insert_ne; [by apply H1|by intros ->].
Qed.

Lemma is_glist_touches m m' h l k :
  touches k m m' -> (forall c, c ∈ h :: l -> c ∉ k) -> is_glist m h l -> is_glist m' h l.
Proof.
  intros [Ht _] Hd [Hnd Hp]. split; [done|].
  assert (forall c, c ∈ h :: l ++ [h] -> m' !! c = m !! c) as E.
  { intros c Hc. apply Ht, Hd. set_solver. }
  revert Hp. apply path_frame; intros s t c El _; unfold nxt, prv; rewrite E; try done;
    rewrite El; set_solver.
Qed.

(** Case analysis on the addresses in a goal about an updated memory. *)
Ltac glist_mem := autorewrite with glist_mem; repeat case_decide; subst; try done; try set_solver.

(** Membership in a list given by its first elements. *)
Ltac in_cons := first [assumption | by left | right; in_cons].

(** The same where the inequalities are at hand. *)
Ltac glist_neq := autorewrite with glist_mem; repeat case_decide; subst; congruence.

Lemma add_between_run m p q x :
  allocated m x -> allocated m p -> allocated m q ->
  glist_add_between (Some p) (Some q) (Some x) m
  = Some (wp q (Some x) (wn p (Some x) (wn x (Some q) (wp x (Some p) m)))).
Proof.
  intros Hx Hp Hq. unfold glist_add_between.
  rewrite set_prev_allocated by done. simpl.
  rewrite set_next_allocated by auto with glist. simpl.
  rewrite set_next_allocated by auto with glist. simpl.
  by rewrite set_prev_allocated by auto with glist.
Qed.

(** The facts about a cut list that the updates at the cut need. *)
Lemma cut_facts m h l1 l2 s p q t :
  is_glist m h (l1 ++ l2) -> h :: l1 = s ++ [p] -> l2 ++ [h] = q :: t ->
  path m (s ++ [p]) /\ linked m p q /\ path m (l2 ++ [h]) /\
  (p ∉ s) /\ (q ∉ t) /\ (q ∉ l1) /\ (p ∉ l2) /\ p ∈ h :: l1 /\ q ∈ h :: l2.
Proof.
  intros [Hnd Hp] E1 E2.
  replace (h :: (l1 ++ l2) ++ [h]) with (s ++ p :: q :: t) in Hp.
  2:{ rewrite <-E2. change (p :: l2 ++ [h]) with ([p] ++ l2 ++ [h]).
      rewrite app_assoc, <-E1. simpl. by rewrite app_assoc. }
  apply path_mid in Hp as (H1 & H2 & H3). rewrite <-E2 in H3.
  apply NoDup_cons in Hnd as [Hh Hnd]. apply NoDup_app in Hnd as (N1 & N12 & N2).
  assert (NoDup (s ++ [p])) as Ns.
  { rewrite <-E1. apply NoDup_cons. set_solver. }
  assert (NoDup (q :: t)) as Nq.
  { rewrite <-E2. apply NoDup_app. split_and!; [done|set_solver|apply NoDup_singleton]. }
  apply NoDup_app in Ns as (_ & Ns & _). apply NoDup_cons in Nq as [Nq _].
  assert (p ∈ h :: l1) as Ip by (rewrite E1; set_solver).
  assert (q ∈ l2 ++ [h]) as Iq by (rewrite E2; set_solver).
  split_and!; try done; set_solver.
Qed.

Lemma add_between_spec m h l1 l2 x s p q t :
  is_glist m h (l1 ++ l2) -> h :: l1 = s ++ [p] -> l2 ++ [h] = q :: t ->
  x ∉ h :: l1 ++ l2 -> allocated m x ->
  exists m', glist_add_between (Some p) (Some q) (Some x) m = Some m' /\
    is_glist m' h (l1 ++ x :: l2) /\ touches (x :: h :: l1 ++ l2) m m'.
Proof.
  intros Hl E1 E2 Hx Ax.
  destruct (cut_facts _ _ _ _ _ _ _ _ Hl E1 E2) as (P1 & [L1 L2] & P2 & Fs & Ft & Fq & Fp & Ip & Iq).
  eexists. split; [apply add_between_run; eauto with glist|]. split.
  - split.
    { destruct Hl as [Hnd _]. apply NoDup_cons in Hnd as [Hh Hnd].
      apply NoDup_app in Hnd as (N1 & N12 & N2). apply NoDup_cons. split; [set_solver|].
      apply NoDup_app. split_and!; [done|set_solver|]. apply NoDup_cons. set_solver. }
    replace (h :: (l1 ++ x :: l2) ++ [h]) with (s ++ p :: x :: q :: t).
    2:{ rewrite <-E2. change (p :: x :: l2 ++ [h]) with ([p] ++ (x :: l2) ++ [h]).
        rewrite app_assoc, <-E1. simpl. by rewrite <-app_assoc. }
    apply path_mid. split; [|split].
    + revert P1. apply path_frame_snoc.
      * intros c Hc. assert (c ∈ h :: l1) by (rewrite E1; set_solver). glist_mem.
      * rewrite <-E1. intros c Hc. simpl in Hc. glist_mem.
    + unfold linked. split; glist_mem.
    + apply path_cons2. split; [unfold linked; split; glist_mem|].
      rewrite <-E2. revert P2. apply path_frame_snoc.
      * intros c Hc. glist_mem.
      * rewrite E2. intros c Hc. simpl in Hc.
        assert (c ∈ l2 ++ [h]) by (rewrite E2; set_solver). glist_mem.
  - apply touches_wp; [set_solver|]. apply touches_wn; [set_solver|].
    apply touches_wn; [set_solver|]. apply touches_wp; [set_solver|]. apply touches_refl.
Qed.

(** ** The operations on well formed lists *)

Lemma glist_ends m h l :
  is_glist m h l -> exists s p, h :: l = s ++ [p] /\ linked m p h /\ path m (h :: l) /\
    p ∈ h :: l /\ p ∉ s.
Proof.
  intros Hl. destruct (glist_cut h l []) as (s & p & q & t & E1 & E2).
  simpl in E2. injection E2 as <- <-. rewrite <-(app_nil_r l) in Hl.
  destruct (cut_facts _ _ _ _ _ _ _ _ Hl E1 eq_refl) as (P1 & L & _ & Fs & _ & _ & _ & Ip & _).
  exists s, p. rewrite E1 in *. by split_and!.
Qed.

Lemma glist_first m h l q t :
  is_glist m h l -> l ++ [h] = q :: t -> nxt m h = Some q.
Proof.
  intros Hl E. destruct (cut_facts m h [] l [] h q t Hl eq_refl E) as (_ & [L _] & _). done.
Qed.

Lemma glist_add_tail_spec m h l x :
  is_glist m h l -> x ∉ h :: l -> allocated m x ->
  exists m', glist_add_tail (Some h) (Some x) m = Some m' /\
    is_glist m' h (l ++ [x]) /\ touches (x :: h :: l) m m'.
Proof.
  intros Hl Hx Ax. destruct (glist_ends m h l Hl) as (s & p & E & [L1 L2] & _).
  unfold glist_add_tail. rewrite load_allocated by eauto with glist. simpl. rewrite L2.
  destruct (add_between_spec m h l [] x s p h []) as (m' & R & G & T);
    rewrite ?app_nil_r in *; try done. by exists m'.
Qed.

Lemma glist_add_spec m h l x :
  is_glist m h l -> x ∉ h :: l -> allocated m x ->
  exists m', glist_add (Some h) (Some x) m = Some m' /\
    is_glist m' h (x :: l) /\ touches (x :: h :: l) m m'.
Proof.
  intros Hl Hx Ax. destruct (l ++ [h]) as [|q t] eqn:E; [by destruct l|].
  pose proof (glist_first m h l q t Hl E) as L.
  unfold glist_add. rewrite load_allocated by eauto with glist. simpl. rewrite L.
  destruct (add_between_spec m h [] l x [] h q t) as (m' & R & G & T); try done. by exists m'.
Qed.

Lemma glist_empty_spec m h l :
  is_glist m h l -> glist_empty (Some h) m = Some (bool_decide (l = [])).
Proof.
  intros Hl. destruct (l ++ [h]) as [|q t] eqn:E; [by destruct l|].
  pose proof (glist_first m h l q t Hl E) as L.
  unfold glist_empty. rewrite load_allocated by eauto with glist. simpl. rewrite L.
  f_equal. apply bool_decide_ext. destruct Hl as [[Hh _]%NoDup_cons _].
  destruct l as [|x l]; simplify_eq/=; [done|]. split; [|done]. intros [= ->]. set_solver.
Qed.

Lemma glist_del_spec m h l1 x l2 :
  is_glist m h (l1 ++ x :: l2) ->
  exists m', glist_del (Some x) m = Some m' /\ is_glist m' h (l1 ++ l2) /\
    m' !! x = Some (mk_node None None) /\ touches (x :: h :: l1 ++ l2) m m'.
Proof.
  intros Hl. destruct (glist_cut h l1 l2) as (s & p & q & t & E1 & E2).
  assert ((x :: l2) ++ [h] = x :: q :: t) as E3 by (simpl; by rewrite E2).
  destruct (cut_facts _ _ _ _ _ _ _ _ Hl E1 E3) as (P1 & [L1 L2] & P2 & Fs & Ft & Fq & Fp & Ip & Iq).
  rewrite E3, path_cons2 in P2. destruct P2 as [[L3 L4] P2].
  destruct Hl as [Hnd _]. apply NoDup_cons in Hnd as [Hh Hnd].
  apply NoDup_app in Hnd as (N1 & N12 & N2). apply NoDup_cons in N2 as [Nx N2].
  assert (q ∈ l2 ++ [h] /\ (q ∉ t) /\ q ∉ l1) as (Iq' & Nq & Nq').
  { assert (NoDup (l2 ++ [h])) as Nd by (apply NoDup_app; split_and!;
      [done|set_solver|apply NoDup_singleton]).
    assert (q ∈ l2 ++ [h]) by (rewrite E2; set_solver).
    rewrite E2 in Nd. apply NoDup_cons in Nd as [? _]. set_solver. }
  exists (wp x None (wn x None (wp q (Some p) (wn p (Some q) m)))). split_and!.
  - unfold glist_del. rewrite load_allocated by eauto with glist. simpl. rewrite L2, L3. simpl.
    rewrite set_next_allocated by eauto with glist. simpl.
    rewrite set_prev_allocated by eauto with glist. simpl.
    rewrite set_next_allocated by eauto with glist. simpl.
    by rewrite set_prev_allocated by eauto with glist.
  - split.
    { apply NoDup_cons. split; [set_solver|]. apply NoDup_app. split_and!; [done|set_solver|done]. }
    replace (h :: (l1 ++ l2) ++ [h]) with (s ++ p :: q :: t).
    2:{ rewrite <-E2. change (p :: l2 ++ [h]) with ([p] ++ l2 ++ [h]).
        rewrite app_assoc, <-E1. simpl. by rewrite app_assoc. }
    apply path_mid. split; [|split].
    + revert P1. apply path_frame_snoc.
      * intros c Hc. assert (c ∈ h :: l1) by (rewrite E1; set_solver). glist_mem.
      * rewrite <-E1. intros c Hc. simpl in Hc. glist_mem.
    + unfold linked. split; glist_mem.
    + rewrite <-E2 in P2 |- *. revert P2. apply path_frame_snoc.
      * intros c Hc. glist_mem.
      * rewrite E2. intros c Hc. simpl in Hc.
        assert (c ∈ l2 ++ [h]) by (rewrite E2; set_solver). glist_mem.
  - unfold wp at 1. rewrite lookup_insert_eq. f_equal. f_equal. glist_mem.
  - apply touches_wp; [set_solver|]. apply touches_wn; [set_solver|].
    apply touches_wp; [set_solver|]. apply touches_wn; [set_solver|]. apply touches_refl.
Qed.

(** Appending the nodes of one list to another: the four writes that
    [glist_add_list_tail] and [glist_splice_tail] share. *)
Definition joined (h p f z : nat) (m : mem) : mem :=
  wp h (Some z) (wn z (Some h) (wn p (Some f) (wp f (Some p) m))).

Lemma join_spec m h l e f k s p k0 z :
  is_glist m h l -> is_glist m e (f :: k) -> (h :: l) ## (e :: f :: k) ->
  h :: l = s ++ [p] -> f :: k = k0 ++ [z] -> p ∉ s ->
  is_glist (joined h p f z m) h (l ++ f :: k) /\
  touches (h :: l ++ f :: k) m (joined h p f z m).
Proof.
  intros Hl Hk Hd E1 E2 Fs.
  destruct (glist_ends m h l Hl) as (s' & p' & E1' & L & P1 & Ip & _).
  rewrite E1 in E1'. apply app_inj_tail in E1' as [<- <-].
  destruct Hl as [N1 _]. pose proof (proj1 Hk) as N2.
  apply NoDup_cons in N2 as [Ne N2]. pose proof N2 as Nz. rewrite E2 in Nz.
  apply NoDup_app in Nz as (_ & Nz & _). apply NoDup_cons in N2 as [Nf N2].
  assert (z ∈ f :: k) as Iz by (rewrite E2; set_solver).
  assert (path m (k0 ++ [z])) as P2.
  { rewrite <-E2. destruct (glist_ends m e (f :: k) Hk) as (? & ? & _ & _ & P & _).
    rewrite path_cons2 in P. by destruct P. }
  assert (forall c, c ∈ h :: l -> c <> f /\ c <> z) as D1.
  { intros c Hc. split; intros ->; apply (Hd _ Hc); set_solver. }
  assert (forall c, c ∈ f :: k -> c <> h /\ c <> p) as D2.
  { intros c Hc. split; intros ->; [apply (Hd h)|apply (Hd p)]; set_solver. }
  destruct (D2 z Iz) as [Dz1 Dz2]. destruct (D2 f) as [Df1 Df2]; [by left|].
  unfold joined. split.
  - split.
    { change (h :: l ++ f :: k) with ((h :: l) ++ f :: k). apply NoDup_app.
      split_and!; [done| |by apply NoDup_cons].
      intros c Hc Hc'. destruct (D2 c Hc') as [? _]. apply (Hd _ Hc). by right. }
    replace (h :: (l ++ f :: k) ++ [h]) with (s ++ p :: f :: k ++ [h]).
    2:{ change (p :: f :: k ++ [h]) with ([p] ++ (f :: k) ++ [h]).
        rewrite app_assoc, <-E1. simpl. by rewrite <-app_assoc. }
    apply path_mid. split; [|split].
    + rewrite E1 in P1. revert P1. apply path_frame_snoc.
      * intros c Hc. destruct (D1 c) as [? ?]; [rewrite E1; set_solver|].
        assert (c <> p) by (by intros ->). glist_neq.
      * rewrite <-E1. intros c Hc. simpl in Hc. apply NoDup_cons in N1 as [Nh N1].
        destruct (D1 c) as [? ?]; [by right|]. assert (c <> h) by (by intros ->). glist_neq.
    + unfold linked. split; glist_neq.
    + change (f :: k ++ [h]) with ((f :: k) ++ [h]). rewrite E2, <-app_assoc. simpl.
      apply path_mid. split; [|split; [|done]].
      * revert P2. apply path_frame_snoc.
        -- intros c Hc. destruct (D2 c) as [? ?]; [rewrite E2; set_solver|].
           assert (c <> z) by (intros ->; set_solver). glist_neq.
        -- rewrite <-E2. intros c Hc. simpl in Hc. destruct (D2 c) as [? ?]; [by right|].
           assert (c <> f) by (by intros ->). glist_neq.
      * unfold linked. split; glist_neq.
  - clear - Ip Iz. repeat first [apply touches_wp; [set_solver|] | apply touches_wn; [set_solver|]].
    apply touches_refl.
Qed.

Lemma glist_init_spec m h :
  allocated m h -> exists m', glist_init (Some h) m = Some m' /\ is_glist m' h [] /\
    touches [h] m m'.
Proof.
  intros Ah. exists (wp h (Some h) (wn h (Some h) m)). split_and!.
  - unfold glist_init. rewrite set_next_allocated by done. simpl.
    by rewrite set_prev_allocated by auto with glist.
  - split; [apply NoDup_singleton|]. simpl. unfold linked. split; [split; glist_mem|done].
  - apply touches_wp; [set_solver|]. apply touches_wn; [set_solver|]. apply touches_refl.
Qed.

(** Both lists, with what the joining code reads. *)
Lemma join_facts m h l e k :
  is_glist m h l -> is_glist m e k -> k <> [] -> (h :: l) ## (e :: k) ->
  exists s p f k' k0 z, h :: l = s ++ [p] /\ k = f :: k' /\ k = k0 ++ [z] /\ (p ∉ s) /\
    nxt m e = Some f /\ prv m e = Some z /\ prv m h = Some p /\ nxt m p = Some h /\
    prv m f = Some e /\ nxt m z = Some e /\ h <> f /\ e <> f.
Proof.
  intros Hl Hk Hne Hd.
  destruct (glist_ends m h l Hl) as (s & p & E1 & [L1 L2] & _ & Ip & Fp).
  destruct (glist_ends m e k Hk) as (s2 & z & E2 & [L3 L4] & P & Iz & _).
  destruct k as [|f k']; [done|]. rewrite path_cons2 in P. destruct P as [[L5 L6] _].
  destruct s2 as [|e' k0]; [by destruct k'|]. injection E2 as <- E2.
  exists s, p, f, k', k0, z. destruct Hk as [[Ne _]%NoDup_cons _].
  split_and!; try done; intros ->; [apply (Hd f)|]; set_solver.
Qed.

Lemma glist_splice_tail_spec m h l e k :
  is_glist m h l -> is_glist m e k -> (h :: l) ## (e :: k) ->
  exists m', glist_splice_tail (Some h) (Some e) m = Some m' /\
    is_glist m' h (l ++ k) /\ is_glist m' e [] /\ touches (h :: l ++ e :: k) m m'.
Proof.
  intros Hl Hk Hd. unfold glist_splice_tail. rewrite (glist_empty_spec m e k Hk). simpl.
  case_bool_decide as Ek.
  { subst k. exists m. rewrite app_nil_r. split_and!; [done..|apply touches_refl]. }
  destruct (join_facts m h l e k Hl Hk Ek Hd)
    as (s & p & f & k' & k0 & z & E1 & -> & E2 & Fp & R1 & R2 & R3 & R4 & R5 & R6 & Nh & Ne).
  destruct (join_spec m h l e f k' s p k0 z Hl Hk Hd E1 E2 Fp) as [G T].
  assert (allocated (joined h p f z m) e) as Ae by (unfold joined; eauto 8 with glist).
  destruct (glist_init_spec _ e Ae) as (m' & I & Ge & Te).
  exists m'. split_and!.
  - rewrite load_allocated by eauto with glist. simpl.
    rewrite load_allocated by eauto with glist. simpl. rewrite R1, R3.
    rewrite set_prev_allocated by eauto with glist. simpl.
    assert (forall c, nxt (wp f (Some p) m) c = nxt m c) as N1 by (intros; glist_neq).
    assert (prv (wp f (Some p) m) h = Some p) as N2 by glist_neq.
    assert (prv (wp f (Some p) m) e = Some z) as N3 by glist_neq.
    do 2 (rewrite load_allocated by eauto with glist; simpl). rewrite N2, N1, R1.
    rewrite set_next_allocated by eauto with glist. simpl.
    rewrite load_allocated by eauto with glist. simpl. rewrite prv_wn, N3.
    rewrite set_next_allocated by eauto with glist. simpl.
    rewrite load_allocated by eauto with glist. simpl. rewrite !prv_wn, N3.
    rewrite set_prev_allocated by eauto 8 with glist. simpl. done.
  - apply (is_glist_touches _ _ _ _ _ Te); [|done]. destruct Hk as [[Nk _]%NoDup_cons _].
    set_solver.
  - done.
  - destruct T as [T1 T2], Te as [T3 T4]. split; [|auto].
    intros c Hc. rewrite T3, T1; [done|set_solver..].
Qed.

Lemma glist_add_list_tail_spec m h l e k :
  is_glist m h l -> is_glist m e k -> (h :: l) ## (e :: k) ->
  exists m', glist_add_list_tail (Some h) (Some e) m = Some m' /\
    is_glist m' h (l ++ k) /\ touches (h :: l ++ k) m m'.
Proof.
  intros Hl Hk Hd. unfold glist_add_list_tail.
  destruct (glist_ends m e k Hk) as (? & ? & _ & [_ Le] & _).
  rewrite (load_allocated e) by eauto with glist. simpl.
  rewrite (glist_empty_spec m e k Hk). simpl. case_bool_decide as Ek.
  { subst k. exists m. rewrite app_nil_r. split_and!; [done..|apply touches_refl]. }
  destruct (join_facts m h l e k Hl Hk Ek Hd)
    as (s & p & f & k' & k0 & z & E1 & -> & E2 & Fp & R1 & R2 & R3 & R4 & R5 & R6 & Nh & Ne).
  destruct (join_spec m h l e f k' s p k0 z Hl Hk Hd E1 E2 Fp) as [G T].
  exists (joined h p f z m). split_and!; [|done..].
  rewrite load_allocated by eauto with glist. simpl. rewrite R1, R2, R3.
  rewrite set_prev_allocated by eauto with glist. simpl.
  assert (prv (wp f (Some p) m) h = Some p) as N2 by glist_neq.
  rewrite load_allocated by eauto with glist. simpl. rewrite N2.
  do 2 (rewrite set_next_allocated by eauto with glist; simpl).
  by rewrite set_prev_allocated by eauto 8 with glist.
Qed.

(** Hanging the nodes of a list on a head. *)
Lemma glist_close m m' e a f k k0 z :
  is_glist m e (f :: k) -> f :: k = k0 ++ [z] -> a ∉ f :: k ->
  nxt m' a = Some f -> prv m' f = Some a -> nxt m' z = Some a -> prv m' a = Some z ->
  (forall c, c ∈ k0 -> nxt m' c = nxt m c) -> (forall c, c ∈ k -> prv m' c = prv m c) ->
  is_glist m' a (f :: k).
Proof.
  intros Hl E Na R1 R2 R3 R4 Hn Hp. pose proof (proj1 Hl) as [_ Nd]%NoDup_cons.
  split; [by apply NoDup_cons|].
  assert (path m (k0 ++ [z])) as P.
  { rewrite <-E. destruct (glist_ends m e (f :: k) Hl) as (? & ? & _ & _ & P & _).
    rewrite path_cons2 in P. by destruct P. }
  change (a :: (f :: k) ++ [a]) with (a :: f :: k ++ [a]). apply path_cons2.
  split; [done|]. change (f :: k ++ [a]) with ((f :: k) ++ [a]). rewrite E, <-app_assoc. simpl.
  apply path_mid. split; [|done]. revert P. apply path_frame_snoc; [done|]. by rewrite <-E.
Qed.

Lemma store_allocated a n m : allocated m a -> store (Some a) n m = Some (<[a := n]> m).
Proof. intros [x Hx]. unfold store. simpl. by rewrite Hx. Qed.

Lemma store_fields a n m :
  <[a := n]> m = wp a (prev n) (wn a (next n) m) :> mem.
Proof.
  unfold wp, wn, nxt. rewrite lookup_insert_eq. simpl. rewrite insert_insert_eq. by destruct n.
Qed.

(** The nodes at both ends of a list that is not empty. *)
Lemma glist_nonempty m e k :
  is_glist m e k -> k <> [] ->
  exists f k' k0 z, k = f :: k' /\ k = k0 ++ [z] /\ nxt m e = Some f /\ prv m e = Some z /\
    allocated m f /\ allocated m z /\ (z ∈ k) /\ (z ∉ k0) /\ (f ∉ k') /\ e ∉ k.
Proof.
  intros Hk Hne. destruct (glist_ends m e k Hk) as (s & z & E & [L1 L2] & P & _ & Fz).
  pose proof (proj1 Hk) as [Ne Nd]%NoDup_cons.
  destruct k as [|f k']; [done|]. rewrite path_cons2 in P. destruct P as [[L3 L4] _].
  destruct s as [|e' k0]; [by destruct k'|]. injection E as <- E.
  apply NoDup_cons in Nd as [Nf _].
  exists f, k', k0, z. split_and!; eauto with glist; [rewrite E|]; set_solver.
Qed.

(** The memory after the six assignments of [glist_swap_lists]. *)
Definition swapped (a b f z g y : nat) (m : mem) : mem :=
  wn z (Some b) (wn y (Some a) (wp f (Some b) (wp g (Some a)
    (wp b (Some z) (wn b (Some f) (wp a (Some y) (wn a (Some g) m))))))).

Lemma swapped_spec m a b f k k0 z g j j0 y :
  is_glist m a (f :: k) -> is_glist m b (g :: j) ->
  f :: k = k0 ++ [z] -> g :: j = j0 ++ [y] -> z ∉ k0 -> y ∉ j0 ->
  (a :: f :: k) ## (b :: g :: j) ->
  is_glist (swapped a b f z g y m) a (g :: j) /\ is_glist (swapped a b f z g y m) b (f :: k).
Proof.
  intros Ha Hb E1 E2 Nz Ny Hd.
  pose proof (proj1 Ha) as [Na [Nf _]%NoDup_cons]%NoDup_cons.
  pose proof (proj1 Hb) as [Nb [Ng _]%NoDup_cons]%NoDup_cons.
  assert (forall c d, c ∈ a :: f :: k -> d ∈ b :: g :: j -> c <> d) as D.
  { intros c d Hc Hd' ->. by apply (Hd d). }
  assert (z ∈ f :: k) as Iz by (rewrite E1; set_solver).
  assert (y ∈ g :: j) as Iy by (rewrite E2; set_solver).
  assert (a <> f /\ a <> z /\ b <> g /\ b <> y) as (? & ? & ? & ?).
  { split_and!; intros <-; set_solver. }
  assert (a <> b) by (apply D; in_cons).
  assert (a <> g) by (apply D; in_cons). assert (a <> y) by (apply D; in_cons).
  assert (f <> b) by (apply D; in_cons). assert (f <> g) by (apply D; in_cons).
  assert (f <> y) by (apply D; in_cons). assert (z <> b) by (apply D; in_cons).
  assert (z <> g) by (apply D; in_cons). assert (z <> y) by (apply D; in_cons).
  unfold swapped. split.
  - apply (glist_close m _ b a g j j0 y); try done; try glist_neq; [set_solver|..].
    + intros c Hc. assert (c ∈ g :: j) as Hc' by (rewrite E2; set_solver).
      assert (c <> y) by (by intros ->). assert (c <> b) by (by intros ->).
      assert (a <> c) by (apply D; in_cons). assert (z <> c) by (apply D; in_cons). glist_neq.
    + intros c Hc. assert (c <> g) by (by intros ->). assert (c <> b) by (intros ->; apply Nb; by right).
      assert (a <> c) by (apply D; in_cons). assert (f <> c) by (apply D; in_cons). glist_neq.
  - apply (glist_close m _ a b f k k0 z); try done; try glist_neq; [set_solver|..].
    + intros c Hc. assert (c ∈ f :: k) as Hc' by (rewrite E1; set_solver).
      assert (c <> z) by (by intros ->). assert (c <> a) by (by intros ->).
      assert (c <> b) by (apply D; in_cons). assert (c <> y) by (apply D; in_cons). glist_neq.
    + intros c Hc. assert (c <> f) by (by intros ->). assert (c <> a) by (intros ->; apply Na; by right).
      assert (c <> b) by (apply D; in_cons). assert (c <> g) by (apply D; in_cons). glist_neq.
Qed.

Lemma swapped_touches m a b f z g y l :
  a ∈ l -> b ∈ l -> f ∈ l -> z ∈ l -> g ∈ l -> y ∈ l -> touches l m (swapped a b f z g y m).
Proof.
  intros. unfold swapped.
  repeat first [apply touches_wn; [done|] | apply touches_wp; [done|]]. apply touches_refl.
Qed.

Lemma touches_weaken l l' m m' : l ⊆ l' -> touches l m m' -> touches l' m m'.
Proof. intros Hl [H1 H2]. split; [|done]. intros c Hc. apply H1. set_solver. Qed.

Lemma glist_swap_lists_spec m a b k j :
  is_glist m a k -> is_glist m b j -> (a :: k) ## (b :: j) ->
  exists m', glist_swap_lists (Some a) (Some b) m = Some m' /\
    is_glist m' a j /\ is_glist m' b k /\ touches (a :: k ++ b :: j) m m'.
Proof.
  intros Ha Hb Hd. unfold glist_swap_lists. rewrite (glist_empty_spec m a k Ha). simpl.
  case_bool_decide as Ek.
  { subst k. apply (glist_splice_tail_spec m a [] b j Ha Hb Hd). }
  rewrite (glist_empty_spec m b j Hb). simpl. case_bool_decide as Ej.
  { subst j. destruct (glist_splice_tail_spec m b [] a k Hb Ha) as (m' & R & G1 & G2 & T);
      [set_solver|]. exists m'. split_and!; [done..|].
    revert T. apply touches_weaken. set_solver. }
  destruct (glist_nonempty m a k Ha Ek)
    as (f & k' & k0 & z & -> & E1 & A1 & A2 & Af & Az & Iz & Nz & Nf & Na).
  destruct (glist_nonempty m b j Hb Ej)
    as (g & j' & j0 & y & -> & E2 & B1 & B2 & Ag & Ay & Iy & Ny & Ng & Nb).
  destruct (swapped_spec m a b f k' k0 z g j' j0 y) as [G1 G2]; try done.
  assert (forall c d, c ∈ a :: f :: k' -> d ∈ b :: g :: j' -> c <> d) as D.
  { intros c d Hc Hd' ->. by apply (Hd d). }
  assert (a <> b) by (apply D; in_cons). assert (a <> g) by (apply D; in_cons).
  assert (a <> f) by (intros ->; apply Na; by left).
  assert (b <> g) by (intros ->; apply Nb; by left).
  assert (f <> b) by (apply D; in_cons). assert (a <> y) by (apply D; in_cons).
  exists (swapped a b f z g y m). split_and!; [|done..|apply swapped_touches; clear - Iz Iy; set_solver].
  do 2 (rewrite load_allocated by eauto with glist; simpl).
  rewrite store_allocated by eauto with glist. simpl. rewrite store_fields. simpl.
  rewrite B1, B2, A1, A2.
  rewrite store_allocated by eauto with glist. simpl. rewrite store_fields. simpl.
  set (m1 := wp b (Some z) (wn b (Some f) (wp a (Some y) (wn a (Some g) m)))).
  assert (forall c, allocated m c -> allocated m1 c) as A by (intros; unfold m1; auto with glist).
  assert (nxt m1 a = Some g /\ prv m1 a = Some y /\ nxt m1 b = Some f /\ prv m1 b = Some z)
    as (M1 & M2 & M3 & M4) by (unfold m1; split_and!; glist_neq).
  rewrite load_allocated by eauto with glist. simpl. rewrite M1.
  rewrite set_prev_allocated by eauto with glist. simpl.
  rewrite load_allocated by eauto with glist. simpl. rewrite nxt_wp, M3.
  rewrite set_prev_allocated by eauto with glist. simpl.
  set (m2 := wp f (Some b) (wp g (Some a) m1)).
  assert (prv m2 a = Some y /\ prv m2 b = Some z) as (M5 & M6) by (unfold m2; split; glist_neq).
  assert (forall c, allocated m c -> allocated m2 c) as A' by (intros; unfold m2; auto with glist).
  rewrite load_allocated by eauto with glist. simpl. rewrite M5.
  rewrite set_next_allocated by eauto with glist. simpl.
  rewrite load_allocated by eauto with glist. simpl. rewrite prv_wn, M6.
  by rewrite set_next_allocated by eauto with glist.
Qed.

(** ** Walking a list *)

Lemma count_nodes_spec m h l1 l2 fuel n :
  is_glist m h (l1 ++ l2) -> (length l2 <= fuel)%nat ->
  count_nodes fuel (Some h) (head (l2 ++ [h])) n m = Some (n + length l2)%nat.
Proof.
  revert l1 fuel n. induction l2 as [|x l2 IH]; intros l1 fuel n Hl Hf; simpl.
  { destruct fuel; simpl; rewrite decide_True by done; f_equal; lia. }
  pose proof Hl as [[Hh Hnd]%NoDup_cons _].
  destruct fuel as [|fuel]; simpl in *; [lia|]. rewrite decide_False by (intros [= ->]; set_solver).
  destruct (glist_cut h l1 (x :: l2)) as (s & p & q & t & E1 & E2).
  destruct (cut_facts _ _ _ _ _ _ _ _ Hl E1 E2) as (_ & _ & P2 & _).
  destruct (l2 ++ [h]) as [|y t'] eqn:E3; [by destruct l2|].
  simpl app in P2. rewrite E3, path_cons2 in P2. destruct P2 as [[Lx _] _].
  rewrite load_allocated by eauto with glist. simpl. rewrite Lx.
  change (Some y) with (head (y :: t')). rewrite (IH (l1 ++ [x])).
  - f_equal. lia.
  - by rewrite <-app_assoc.
  - lia.
Qed.

Lemma glist_length_spec m h l fuel :
  is_glist m h l -> (length l <= fuel)%nat -> glist_length fuel (Some h) m = Some (length l).
Proof.
  intros Hl Hf. destruct (l ++ [h]) as [|q t] eqn:E; [by destruct l|].
  pose proof (glist_first m h l q t Hl E) as L.
  unfold glist_length. rewrite load_allocated by eauto with glist. simpl. rewrite L.
  change (Some q) with (head (q :: t)). rewrite <-E. by apply (count_nodes_spec m h []).
Qed.

Section insert.
Context (compare : nat -> nat -> Z).

(** Where [glist_insert_sorted] puts a node. *)
Fixpoint insert_at (x : nat) (l : list nat) : list nat * list nat :=
  match l with
  | [] => ([], [])
  | a :: l' =>
      if 0 <=? compare a x then ([], l)
      else let '(l1, l2) := insert_at x l' in (a :: l1, l2)
  end.

Lemma insert_at_app x l l1 l2 : insert_at x l = (l1, l2) -> l = l1 ++ l2.
Proof.
  revert l1 l2. induction l as [|a l IH]; simpl; intros l1 l2 E; [by simplify_eq|].
  destruct (0 <=? compare a x); [by simplify_eq|].
  destruct (insert_at x l) as [k1 k2]. simplify_eq/=. f_equal. by apply IH.
Qed.

Lemma insert_point_spec m h l0 l x fuel l1 l2 :
  is_glist m h (l0 ++ l) -> (length l <= fuel)%nat -> insert_at x l = (l1, l2) ->
  insert_point compare fuel (Some h) (head (l ++ [h])) x m = Some (head (l2 ++ [h])).
Proof.
  revert l0 fuel l1 l2. induction l as [|a l IH]; intros l0 fuel l1 l2 Hl Hf E; simpl in E.
  { simplify_eq. destruct fuel; simpl; by rewrite decide_True. }
  pose proof Hl as [[Hh Hnd]%NoDup_cons _].
  destruct fuel as [|fuel]; simpl in *; [lia|]. rewrite decide_False by (intros [= ->]; set_solver).
  destruct (glist_cut h l0 (a :: l)) as (s & p & q & t & E1 & E2).
  destruct (cut_facts _ _ _ _ _ _ _ _ Hl E1 E2) as (_ & _ & P2 & _).
  destruct (l ++ [h]) as [|y t'] eqn:E3; [by destruct l|].
  simpl app in P2. rewrite E3, path_cons2 in P2. destruct P2 as [[Lx _] _].
  unfold nxt in Lx. destruct (m !! a) as [n|]; [|done]. simpl in *.
  destruct (0 <=? compare a x); [by simplify_eq|].
  destruct (insert_at x l) as [k1 k2] eqn:Ek. injection E as <- <-.
  rewrite Lx, (IH (l0 ++ [a]) fuel k1 k2); [done|by rewrite <-app_assoc|lia|done].
Qed.

Lemma glist_insert_sorted_spec m h l x fuel l1 l2 :
  is_glist m h l -> x ∉ h :: l -> allocated m x -> (length l <= fuel)%nat ->
  insert_at x l = (l1, l2) ->
  exists m', glist_insert_sorted compare fuel (Some h) x m = Some m' /\
    is_glist m' h (l1 ++ x :: l2) /\ touches (x :: h :: l) m m'.
Proof.
  intros Hl Hx Ax Hf E. pose proof (insert_at_app _ _ _ _ E) as El.
  unfold glist_insert_sorted. rewrite (glist_empty_spec m h l Hl). simpl.
  case_bool_decide as Ee.
  { clear El. subst l. injection E as <- <-. by apply (glist_add_tail_spec m h [] x). }
  destruct (l ++ [h]) as [|q t] eqn:Eq; [by destruct l|].
  pose proof (glist_first m h l q t Hl Eq) as L.
  rewrite load_allocated by eauto with glist. simpl. rewrite L.
  change (Some q) with (head (q :: t)). rewrite <-Eq, (insert_point_spec m h [] l x fuel l1 l2) by done.
  subst l. destruct (glist_cut h l1 l2) as (s & p & q' & t' & E1 & E2).
  destruct (cut_facts _ _ _ _ _ _ _ _ Hl E1 E2) as (_ & [_ L2] & _).
  rewrite E2. simpl. rewrite load_allocated by eauto with glist. simpl. rewrite L2.
  by apply (add_between_spec m h l1 l2 x s p q' t').
Qed.
End insert.

(** ** Refinement

    What the lists of a program are, abstractly: the nodes of each list by
    its head, and the nodes that are allocated and on no list. *)
Record lists := mk_lists { heads : gmap nat (list nat); spare : gset nat }.

Inductive glist_cmd :=
  | Init (h : nat)
  | Add (h x : nat)
  | AddTail (h x : nat)
  | InsertSorted (h x : nat)
  | Del (h x : nat)
  | SpliceTail (h e : nat)
  | AddListTail (h e : nat)
  | SwapLists (a b : nat).

Section refinement.
Context (compare : nat -> nat -> Z).

(** The code of a command. *)
Definition run_cmd (fuel : nat) (c : glist_cmd) (m : mem) : option mem :=
  match c with
  | Init h => glist_init (Some h) m
  | Add h x => glist_add (Some h) (Some x) m
  | AddTail h x => glist_add_tail (Some h) (Some x) m
  | InsertSorted h x => glist_insert_sorted compare fuel (Some h) x m
  | Del _ x => glist_del (Some x) m
  | SpliceTail h e => glist_splice_tail (Some h) (Some e) m
  | AddListTail h e => glist_add_list_tail (Some h) (Some e) m
  | SwapLists a b => glist_swap_lists (Some a) (Some b) m
  end.

(** A node that is on no list goes onto the list of [h] at the place [f]
    says. *)
Definition put (h x : nat) (f : list nat -> list nat) (A : lists) : option lists :=
  l ← heads A !! h;
  if decide (x ∈ spare A)
  then Some (mk_lists (<[h := f l]> (heads A)) (spare A ∖ {[x]})) else None.

(** Two different lists are replaced. *)
Definition both (h e : nat) (f : list nat -> list nat -> gmap nat (list nat)) (A : lists)
    : option lists :=
  l ← heads A !! h; k ← heads A !! e;
  if decide (h = e) then None else Some (mk_lists (f l k) (spare A)).

(** What a command means; [None] where its use is not proper. *)
Definition abs_cmd (c : glist_cmd) (A : lists) : option lists :=
  match c with
  | Init h =>
      if decide (h ∈ spare A)
      then Some (mk_lists (<[h := []]> (heads A)) (spare A ∖ {[h]})) else None
  | Add h x => put h x (fun l => x :: l) A
  | AddTail h x => put h x (fun l => l ++ [x]) A
  | InsertSorted h x =>
      put h x (fun l => let '(l1, l2) := insert_at compare x l in l1 ++ x :: l2) A
  | Del h x =>
      match heads A !! h with
      | Some l =>
          if decide (x ∈ l)
          then Some (mk_lists (<[h := filter (fun y => y <> x) l]> (heads A)) (spare A ∪ {[x]}))
          else None
      | None => None
      end
  | SpliceTail h e => both h e (fun l k => <[h := l ++ k]> (<[e := []]> (heads A))) A
  | AddListTail h e => both h e (fun l k => <[h := l ++ k]> (delete e (heads A))) A
  | SwapLists a b => both a b (fun k j => <[a := j]> (<[b := k]> (heads A))) A
  end.

(** The memory holds the lists, apart from each other and from the spare
    nodes. *)
Record represents (m : mem) (A : lists) : Prop := {
  rep_list : forall h l, heads A !! h = Some l -> is_glist m h l;
  rep_apart : forall h l g k, heads A !! h = Some l -> heads A !! g = Some k -> h <> g ->
              (h :: l) ## (g :: k);
  rep_spare : forall x, x ∈ spare A -> allocated m x;
  rep_free : forall x h l, x ∈ spare A -> heads A !! h = Some l -> x ∉ h :: l
}.

(** The heads and nodes of a part of the lists may be rearranged: [old] are
    the cells concerned, [H] the new lists that replace those. *)
Lemma represents_update m m' A H sp (old : list nat) :
  represents m A -> touches old m m' ->
  (forall h l, H !! h = Some l -> heads A !! h = Some l /\ (h :: l) ## old \/
     (h :: l ⊆ old /\ is_glist m' h l)) ->
  (forall h l g k, H !! h = Some l -> H !! g = Some k -> h <> g ->
     h :: l ⊆ old -> g :: k ⊆ old -> (h :: l) ## (g :: k)) ->
  (forall x, x ∈ sp -> allocated m' x) ->
  (forall x h l, x ∈ sp -> H !! h = Some l -> x ∉ h :: l) ->
  represents m' (mk_lists H sp).
Proof.
  intros R T HH Hap Hsp Hfr. split; [| |done|done]; simpl.
  - intros h l Hl. destruct (HH h l Hl) as [[Ho Hd]|[_ G]]; [|done].
    apply (is_glist_touches m m' h l old T); [|by apply (rep_list m A R)].
    intros c Hc Hc'. by apply (Hd c).
  - intros h l g k Hl Hk Hne.
    destruct (HH h l Hl) as [[Ho Hd]|[Hs _]], (HH g k Hk) as [[Ho' Hd']|[Hs' _]].
    + by apply (rep_apart m A R).
    + set_solver.
    + set_solver.
    + by apply (Hap h l g k).
Qed.

Lemma put_simulates m A A' h x f run :
  represents m A -> put h x f A = Some A' ->
  (forall l c, heads A !! h = Some l -> c ∈ f l <-> c = x \/ c ∈ l) ->
  (forall l, heads A !! h = Some l -> is_glist m h l -> x ∉ h :: l -> allocated m x ->
     exists m', run m = Some m' /\ is_glist m' h (f l) /\ touches (x :: h :: l) m m') ->
  exists m', run m = Some m' /\ represents m' A'.
Proof.
  intros R Hp Hf Hrun. unfold put in Hp. destruct (heads A !! h) as [l|] eqn:Hl; [|done].
  simpl in Hp. case_decide as Hx; [|done]. simplify_eq.
  pose proof (rep_free m A R x h l Hx Hl) as Nx.
  destruct (Hrun l eq_refl (rep_list m A R h l Hl) Nx (rep_spare m A R x Hx)) as (m' & Hm & G & T).
  exists m'. split; [done|]. pose proof (fun c => Hf l c eq_refl) as Hfl.
  apply (represents_update m m' A _ _ (x :: h :: l) R T).
  - intros g k Hk. destruct (decide (g = h)) as [->|Hg].
    + rewrite lookup_insert_eq in Hk. simplify_eq. right. split; [|done].
      intros c. rewrite !elem_of_cons, Hfl. tauto.
    + rewrite lookup_insert_ne in Hk by done. left. split; [done|].
      pose proof (rep_apart m A R g k h l Hk Hl Hg). pose proof (rep_free m A R x g k Hx Hk).
      set_solver.
  - intros g k g' k' Hk Hk' Hne Hs Hs'.
    assert (forall g k, <[h:=f l]> (heads A) !! g = Some k -> g :: k ⊆ x :: h :: l -> g = h) as U.
    { clear - Hx Hl R. intros g k Hk Hs. destruct (decide (g = h)) as [|Hg]; [done|].
      rewrite lookup_insert_ne in Hk by done.
      pose proof (rep_apart m A R g k h l Hk Hl Hg). pose proof (rep_free m A R x g k Hx Hk).
      exfalso. assert (g ∈ x :: h :: l) by (apply Hs; by left). set_solver. }
    destruct Hne. by rewrite (U g k Hk Hs), (U g' k' Hk' Hs').
  - intros y Hy. apply T. apply (rep_spare m A R). set_solver.
  - intros y g k Hy Hk. destruct (decide (g = h)) as [->|Hg].
    + rewrite lookup_insert_eq in Hk. simplify_eq.
      pose proof (rep_free m A R y h l ltac:(set_solver) Hl). rewrite elem_of_cons, Hfl. set_solver.
    + rewrite lookup_insert_ne in Hk by done. apply (rep_free m A R y g k); [set_solver|done].
Qed.

(** The lists of two heads are rearranged among the two. *)
Lemma both_simulates m A A' h e H run :
  represents m A -> both h e H A = Some A' ->
  (forall l k g, heads A !! h = Some l -> heads A !! e = Some k -> g <> h -> g <> e ->
     H l k !! g = heads A !! g) ->
  (forall l k, heads A !! h = Some l -> heads A !! e = Some k -> h <> e ->
     is_glist m h l -> is_glist m e k -> (h :: l) ## (e :: k) ->
     exists m', run m = Some m' /\ touches (h :: l ++ e :: k) m m' /\
       (forall g j, H l k !! g = Some j -> g = h \/ g = e -> is_glist m' g j /\ j ⊆ l ++ k) /\
       (forall j1 j2, H l k !! h = Some j1 -> H l k !! e = Some j2 -> j1 ## j2)) ->
  exists m', run m = Some m' /\ represents m' A'.
Proof.
  intros R Hb Hf Hrun. unfold both in Hb.
  destruct (heads A !! h) as [l|] eqn:Hl; [|done]. simpl in Hb.
  destruct (heads A !! e) as [k|] eqn:Hk; [|done]. simpl in Hb.
  case_decide as Hne; [done|]. simplify_eq.
  pose proof (rep_apart m A R h l e k Hl Hk Hne) as Hd.
  destruct (Hrun l k eq_refl eq_refl Hne (rep_list m A R h l Hl) (rep_list m A R e k Hk) Hd)
    as (m' & Hm & T & G & D).
  pose proof (rep_list m A R h l Hl) as [[Nh _]%NoDup_cons _].
  pose proof (rep_list m A R e k Hk) as [[Ne _]%NoDup_cons _].
  exists m'. split; [done|].
  assert (forall g j, H l k !! g = Some j ->
    (g = h \/ g = e) /\ j ⊆ l ++ k /\ is_glist m' g j \/
    (g <> h /\ g <> e /\ heads A !! g = Some j /\ (g :: j) ## (h :: l ++ e :: k))) as C.
  { intros g j Hj. destruct (decide (g = h \/ g = e)) as [Hg|Hg].
    - left. destruct (G g j Hj Hg). done.
    - right. assert (heads A !! g = Some j) as Hj' by (rewrite <-Hj; symmetry; apply Hf; auto).
      pose proof (rep_apart m A R g j h l Hj' Hl ltac:(tauto)).
      pose proof (rep_apart m A R g j e k Hj' Hk ltac:(tauto)).
      split_and!; [tauto|tauto|done|]. clear - H0 H1. set_solver. }
  apply (represents_update m m' A _ _ (h :: l ++ e :: k) R T).
  - intros g j Hj. destruct (C g j Hj) as [(Hg & Hs & Gg)|(? & ? & ? & ?)]; [right|by left].
    split; [|done]. clear - Hs Hg. destruct Hg as [->| ->]; set_solver.
  - intros g j g' j' Hj Hj' Hgg Hs Hs'.
    destruct (C g j Hj) as [(Hg & Hsj & Gg)|(? & ? & ? & Hx)];
      [|exfalso; apply (Hx g); [by left|apply Hs; by left]].
    destruct (C g' j' Hj') as [(Hg' & Hsj' & Gg')|(? & ? & ? & Hx)];
      [|exfalso; apply (Hx g'); [by left|apply Hs'; by left]].
    assert (forall u v, H l k !! h = Some u -> H l k !! e = Some v -> u ⊆ l ++ k -> v ⊆ l ++ k ->
      (h :: u) ## (e :: v)) as Q.
    { intros u v Hu Hv Su Sv. pose proof (D u v Hu Hv). clear - H0 Su Sv Hne Hd Nh Ne. set_solver. }
    destruct Hg as [->| ->], Hg' as [->| ->]; try done; [by apply Q|].
    intros c Hc Hc'. by apply (Q j' j Hj' Hj Hsj' Hsj c).
  - intros x Hx. apply T, (rep_spare m A R), Hx.
  - intros x g j Hx Hj. destruct (C g j Hj) as [(Hg & Hs & _)|(? & ? & Hj' & _)].
    + pose proof (rep_free m A R x h l Hx Hl). pose proof (rep_free m A R x e k Hx Hk).
      clear - H0 H1 Hg Hs. destruct Hg as [->| ->]; set_solver.
    + by apply (rep_free m A R x g j).
Qed.

Lemma init_simulates m A A' h :
  represents m A -> abs_cmd (Init h) A = Some A' ->
  exists m', glist_init (Some h) m = Some m' /\ represents m' A'.
Proof.
  intros R Hc. simpl in Hc. case_decide as Hh; [|done]. simplify_eq.
  destruct (glist_init_spec m h (rep_spare m A R h Hh)) as (m' & Hm & G & T).
  exists m'. split; [done|]. apply (represents_update m m' A _ _ [h] R T).
  - intros g k Hk. destruct (decide (g = h)) as [->|Hg].
    + rewrite lookup_insert_eq in Hk. simplify_eq. by right.
    + rewrite lookup_insert_ne in Hk by done. left. split; [done|].
      pose proof (rep_free m A R h g k Hh Hk). set_solver.
  - intros g k g' k' _ _ Hne Hs Hs'. exfalso. apply Hne.
    assert (g ∈ [h]) by (apply Hs; by left). assert (g' ∈ [h]) by (apply Hs'; by left). set_solver.
  - intros x Hx. apply T, (rep_spare m A R). set_solver.
  - intros x g k Hx Hk. destruct (decide (g = h)) as [->|Hg].
    + rewrite lookup_insert_eq in Hk. simplify_eq. set_solver.
    + rewrite lookup_insert_ne in Hk by done. apply (rep_free m A R x g k); [set_solver|done].
Qed.

Lemma filter_del (l1 l2 : list nat) x :
  NoDup (l1 ++ x :: l2) -> filter (fun y => y <> x) (l1 ++ x :: l2) = l1 ++ l2.
Proof.
  intros (_ & N12 & [Nx _]%NoDup_cons)%NoDup_app.
  assert (forall l : list nat, x ∉ l -> filter (fun y => y <> x) l = l) as F.
  { intros l Hl. induction l as [|y l IH]; [done|]. rewrite filter_cons_True by set_solver.
    f_equal. apply IH. set_solver. }
  rewrite filter_app, filter_cons_False, !F; [done|done|set_solver|by intros []].
Qed.

Lemma del_simulates m A A' h x :
  represents m A -> abs_cmd (Del h x) A = Some A' ->
  exists m', glist_del (Some x) m = Some m' /\ represents m' A'.
Proof.
  intros R Hc. simpl in Hc. destruct (heads A !! h) as [l|] eqn:Hl; [|done]. simpl in Hc.
  case_decide as Hx; [|done]. simplify_eq.
  pose proof (rep_list m A R h l Hl) as Gl. apply list_elem_of_split in Hx as (l1 & l2 & ->).
  pose proof Gl as [[Nh Nd]%NoDup_cons _]. rewrite filter_del by done.
  destruct (glist_del_spec m h l1 x l2 Gl) as (m' & Hm & G & Mx & T).
  assert (x ∉ h :: l1 ++ l2) as Nx.
  { apply NoDup_app in Nd as (_ & N12 & [Nx _]%NoDup_cons). set_solver. }
  assert (forall g k, heads A !! g = Some k -> g <> h -> (g :: k) ## (x :: h :: l1 ++ l2)) as D.
  { intros g k Hk Hg. pose proof (rep_apart m A R g k h _ Hk Hl Hg). set_solver. }
  exists m'. split; [done|]. apply (represents_update m m' A _ _ (x :: h :: l1 ++ l2) R T).
  - intros g k Hk. destruct (decide (g = h)) as [->|Hg].
    + rewrite lookup_insert_eq in Hk. simplify_eq. right. split; [set_solver|done].
    + rewrite lookup_insert_ne in Hk by done. left. auto.
  - intros g k g' k' Hk Hk' Hne Hs Hs'.
    assert (forall g k, <[h:=l1 ++ l2]> (heads A) !! g = Some k ->
      g :: k ⊆ x :: h :: l1 ++ l2 -> g = h) as U.
    { clear - D. intros g k Hk Hs. destruct (decide (g = h)) as [|Hg]; [done|].
      rewrite lookup_insert_ne in Hk by done. exfalso.
      apply (D g k Hk Hg g); [by left|apply Hs; by left]. }
    destruct Hne. by rewrite (U g k Hk Hs), (U g' k' Hk' Hs').
  - intros y [Hy| ->%elem_of_singleton]%elem_of_union; [by apply T, (rep_spare m A R)|].
    unfold allocated. by rewrite Mx.
  - intros y g k Hy Hk. destruct (decide (g = h)) as [->|Hg].
    + rewrite lookup_insert_eq in Hk. simplify_eq.
      apply elem_of_union in Hy as [Hy| ->%elem_of_singleton]; [|done].
      pose proof (rep_free m A R y h _ Hy Hl). set_solver.
    + rewrite lookup_insert_ne in Hk by done.
      apply elem_of_union in Hy as [Hy| ->%elem_of_singleton]; [by apply (rep_free m A R y g k)|].
      intros Hg'. apply (D g k Hk Hg x Hg'). by left.
Qed.

(** Every command simulates its meaning; [fuel] bounds the search of
    [glist_insert_sorted]. *)
Lemma cmd_simulates c fuel m A A' :
  represents m A -> abs_cmd c A = Some A' ->
  (forall h l, heads A !! h = Some l -> (length l <= fuel)%nat) ->
  exists m', run_cmd fuel c m = Some m' /\ represents m' A'.
Proof.
  intros R Hc Hf. destruct c as [h|h x|h x|h x|h x|h e|h e|a b]; simpl run_cmd.
  - by apply (init_simulates m A A' h).
  - apply (put_simulates m A A' h x _ _ R Hc); [set_solver|].
    intros l _ Hl Hx Ax. by apply glist_add_spec.
  - apply (put_simulates m A A' h x _ _ R Hc); [set_solver|].
    intros l _ Hl Hx Ax. by apply glist_add_tail_spec.
  - apply (put_simulates m A A' h x _ _ R Hc).
    + intros l c _. destruct (insert_at compare x l) as [l1 l2] eqn:E.
      rewrite (insert_at_app _ _ _ _ _ E). set_solver.
    + intros l Hl G Hx Ax. destruct (insert_at compare x l) as [l1 l2] eqn:E.
      apply (glist_insert_sorted_spec compare m h l x fuel); eauto.
  - by apply (del_simulates m A A' h x).
  - apply (both_simulates m A A' h e _ _ R Hc).
    + intros l k g _ _ Hg He. by rewrite !lookup_insert_ne.
    + intros l k _ _ Hne Gl Gk Hd.
      destruct (glist_splice_tail_spec m h l e k Gl Gk Hd) as (m' & Hm & G1 & G2 & T).
      exists m'. split_and!; [done|done| |].
      * intros g j Hj [->| ->]; [rewrite lookup_insert_eq in Hj|
          rewrite lookup_insert_ne, lookup_insert_eq in Hj by done]; simplify_eq; split;
          try done; set_solver.
      * intros j1 j2 _ Hj. rewrite lookup_insert_ne, lookup_insert_eq in Hj by done.
        simplify_eq. set_solver.
  - apply (both_simulates m A A' h e _ _ R Hc).
    + intros l k g _ _ Hg He. by rewrite lookup_insert_ne, lookup_delete_ne.
    + intros l k _ _ Hne Gl Gk Hd.
      destruct (glist_add_list_tail_spec m h l e k Gl Gk Hd) as (m' & Hm & G1 & T).
      exists m'. split_and!; [done|revert T; apply touches_weaken; set_solver| |].
      * intros g j Hj [->| ->]; [rewrite lookup_insert_eq in Hj|
          rewrite lookup_insert_ne, lookup_delete_eq in Hj by done]; simplify_eq; by split.
      * intros j1 j2 _ Hj. by rewrite lookup_insert_ne, lookup_delete_eq in Hj by done.
  - apply (both_simulates m A A' a b _ _ R Hc).
    + intros l k g _ _ Hg He. by rewrite !lookup_insert_ne.
    + intros k j _ _ Hne Gk Gj Hd.
      destruct (glist_swap_lists_spec m a b k j Gk Gj Hd) as (m' & Hm & G1 & G2 & T).
      exists m'. split_and!; [done|done| |].
      * intros g i Hi [->| ->]; [rewrite lookup_insert_eq in Hi|
          rewrite lookup_insert_ne, lookup_insert_eq in Hi by done]; simplify_eq; split;
          try done; set_solver.
      * intros j1 j2 H1 H2. rewrite lookup_insert_eq in H1.
        rewrite lookup_insert_ne, lookup_insert_eq in H2 by done. simplify_eq. set_solver.
Qed.
End refinement.

(** ** Programs of list commands *)

Fixpoint run_cmds (compare : nat -> nat -> Z) (fuel : nat) (cs : list glist_cmd) (m : mem)
    : option mem :=
  match cs with
  | [] => Some m
  | c :: cs => m ← run_cmd compare fuel c m; run_cmds compare fuel cs m
  end.

Fixpoint abs_cmds (compare : nat -> nat -> Z) (cs : list glist_cmd) (A : lists) : option lists :=
  match cs with
  | [] => Some A
  | c :: cs => A ← abs_cmd compare c A; abs_cmds compare cs A
  end.

Definition longest (A : lists) : nat := max_list ((fun p => length p.2) <$> map_to_list (heads A)).

Lemma longest_bound A h l : heads A !! h = Some l -> (length l <= longest A)%nat.
Proof.
  intros Hl. apply max_list_elem_of_le. apply list_elem_of_fmap. exists (h, l).
  split; [done|]. by apply elem_of_map_to_list.
Qed.

(** C28: the pointer operations of gsh_list.h implement lists: any sequence
    of initialisations, insertions at either end or in order, removals,
    splices, appends and swaps that uses nodes properly (a node is inserted
    only when it is on no list, removed only when it is on one) runs without
    an access through NULL or to memory that is not allocated, and leaves in
    memory exactly the lists the abstract operations give. *)
Theorem glist_refines compare cs A A' :
  abs_cmds compare cs A = Some A' ->
  exists n, forall fuel m, (n <= fuel)%nat -> represents m A ->
    exists m', run_cmds compare fuel cs m = Some m' /\ represents m' A'.
Proof.
  revert A. induction cs as [|c cs IH]; simpl; intros A HA.
  { simplify_eq. exists 0%nat. eauto. }
  destruct (abs_cmd compare c A) as [A1|] eqn:Hc; [|done]. simpl in HA.
  destruct (IH A1 HA) as [n Hn]. exists (n `max` longest A)%nat. intros fuel m Hf R.
  destruct (cmd_simulates compare c fuel m A A1 R Hc) as (m1 & Hm & R1).
  { intros h l Hl. pose proof (longest_bound A h l Hl). lia. }
  rewrite Hm. simpl. apply Hn; [lia|done].
Qed.

(** What [state_nlm_notify] does with the first share of a client: it takes
    the first node of the list and appends it, without removing it first. *)
Definition requeue_share (ssc_share_list : option nat) (m : mem) : option mem :=
  head ← load ssc_share_list m;
  if decide (next head = ssc_share_list) then Some m
  else glist_add_tail ssc_share_list (next head) m.

Lemma count_nodes_loop m h x fuel n :
  x <> h -> nxt m x = Some x -> count_nodes fuel (Some h) (Some x) n m = None.
Proof.
  intros Hx Hn. revert n. induction fuel as [|fuel IH]; intros n; simpl;
    rewrite decide_False by congruence; [done|].
  rewrite load_allocated by eauto using nxt_allocated. simpl. rewrite Hn. apply IH.
Qed.

(** That requeueing destroys the list: when the share is the only one,
    it becomes its own successor and the walk of the list never ends; when
    there are others, they are no longer reachable from the head. *)
Theorem requeue_destroys_list m h x l :
  is_glist m h (x :: l) ->
  exists m', requeue_share (Some h) m = Some m' /\
    (l = [] -> forall fuel, glist_length fuel (Some h) m' = None) /\
    (l <> [] -> glist_length 1 (Some h) m' = Some 1%nat).
Proof.
  intros Hl. pose proof Hl as [[Nh [Nx _]%NoDup_cons]%NoDup_cons _].
  destruct (glist_ends m h (x :: l) Hl) as (s & p & E & [L1 L2] & P & _).
  rewrite path_cons2 in P. destruct P as [[L3 L4] _].
  assert (x <> h) as Hxh by (intros ->; apply Nh; by left).
  assert (p <> h) as Hph.
  { destruct s as [|? s]; [by destruct l|]. injection E as _ E.
    intros ->. apply Nh. rewrite E. set_solver. }
  exists (wp h (Some x) (wn p (Some x) (wn x (Some h) (wp x (Some p) m)))). split_and!.
  - unfold requeue_share, glist_add_tail. rewrite load_allocated by eauto using nxt_allocated.
    simpl. rewrite L3, L2, decide_False by congruence.
    apply add_between_run; eauto using nxt_allocated, prv_allocated.
  - intros -> fuel. assert (p = x) as ->.
    { destruct s as [|? [|? s]]; simpl in E; simplify_eq; [done|by destruct s]. }
    unfold glist_length. rewrite load_allocated by eauto 9 using nxt_allocated with glist. simpl.
    replace (nxt _ h) with (Some x) by glist_neq. apply count_nodes_loop; [done|glist_neq].
  - intros Hne. assert (p <> x) as Hpx.
    { intros ->. destruct s as [|? [|? s]]; simpl in E; simplify_eq. apply Nx. set_solver. }
    unfold glist_length. rewrite load_allocated by eauto 9 using nxt_allocated with glist. simpl.
    replace (nxt _ h) with (Some x) by glist_neq. rewrite decide_False by congruence.
    rewrite load_allocated by eauto 9 using prv_allocated with glist. simpl.
    replace (nxt _ x) with (Some h) by glist_neq. by rewrite decide_True.
Qed.

(** ** Witnesses *)

(** Two empty lists and three spare nodes. *)
Definition sample_mem : mem :=
  list_to_map [(1%nat, mk_node (Some 1%nat) (Some 1%nat)); (2%nat, mk_node (Some 2%nat) (Some 2%nat));
    (10%nat, mk_node None None); (11%nat, mk_node None None); (12%nat, mk_node None None)].

Definition sample_lists : lists :=
  mk_lists (list_to_map [(1%nat, []); (2%nat, [])]) (list_to_set [10%nat; 11%nat; 12%nat]).

Lemma sample_represents : represents sample_mem sample_lists.
Proof.
  assert (forall h l, heads sample_lists !! h = Some l ->
    (h = 1%nat \/ h = 2%nat) /\ l = []) as Hh.
  { intros h l Hl. apply elem_of_list_to_map_2 in Hl. set_solver. }
  assert (forall x, x ∈ spare sample_lists -> x = 10%nat \/ x = 11%nat \/ x = 12%nat) as Hs.
  { intros x Hx. apply elem_of_list_to_set in Hx. set_solver. }
  split.
  - intros h l Hl. destruct (Hh h l Hl) as [[-> | ->] ->];
      (split; [apply NoDup_singleton|]; split; [split; reflexivity|done]).
  - intros h l g k Hl Hk Hne. destruct (Hh h l Hl) as [_ ->], (Hh g k Hk) as [_ ->]. set_solver.
  - intros x Hx. unfold allocated. destruct (Hs x Hx) as [->|[->| ->]]; vm_compute; eauto.
  - intros x h l Hx Hl. destruct (Hh h l Hl) as [Hh' ->].
    destruct (Hs x Hx) as [->|[->| ->]], Hh' as [-> | ->]; set_solver.
Qed.

Definition sample_cmds : list glist_cmd :=
  [AddTail 1 10; Add 1 11; SwapLists 1 2; InsertSorted 2 12; Del 2 10; SpliceTail 1 2].

Definition by_address (a b : nat) : Z := Z.of_nat a - Z.of_nat b.

Lemma glist_refines_witness :
  exists A' n m', abs_cmds by_address sample_cmds sample_lists = Some A' /\
    run_cmds by_address n sample_cmds sample_mem = Some m' /\ represents m' A'.
Proof.
  destruct (abs_cmds by_address sample_cmds sample_lists) as [A'|] eqn:E.
  - destruct (glist_refines by_address sample_cmds _ A' E) as [n Hn].
    destruct (Hn n sample_mem (le_n n) sample_represents) as (m' & Hm & R).
    exists A', n, m'. split; [reflexivity|]. split; [exact Hm|exact R].
  - exfalso. vm_compute in E. discriminate.
Defined.

Lemma requeue_destroys_list_witness :
  exists m', requeue_share (Some 1%nat)
    (list_to_map [(1%nat, mk_node (Some 10%nat) (Some 10%nat));
                  (10%nat, mk_node (Some 1%nat) (Some 1%nat))] : mem) = Some m' /\
    ([] = [] :> list nat -> forall fuel, glist_length fuel (Some 1%nat) m' = None) /\
    ([] <> [] :> list nat -> glist_length 1 (Some 1%nat) m' = Some 1%nat).
Proof.
  apply (requeue_destroys_list _ 1%nat 10%nat []). split.
  - apply (bool_decide_unpack _). vm_compute. exact I.
  - split; [split; reflexivity|]. split; [split; reflexivity|]. exact I.
Defined.
