(* ===== verification/Fsal.v ===== *)
(** * The interface to the file system backends (FSAL)

    The state layer reaches a backend through the function tables
    [obj_ops], [exp_ops] and [m_ops] (include/fsal_api.h); which backend
    answers is known only at run time.  The table is the type class
    [FsalOps] here, over an arbitrary backend state [F], and every theorem
    of the lock and share layers holds for every instance of it.
    [fsal_open] (FSAL/fsal_helper.c) is the wrapper those layers call. *)
From S2P Require Import Prelude Status.

(** [object_file_type_t]. *)
Inductive object_file_type_t :=
| NO_FILE_TYPE
| REGULAR_FILE
| CHARACTER_FILE
| BLOCK_FILE
| SYMBOLIC_LINK
| SOCKET_FILE
| FIFO_FILE
| DIRECTORY
| EXTENDED_ATTR.

#[export] Instance object_file_type_eq_dec : EqDecision object_file_type_t.
Proof. solve_decision. Defined.

(** [fsal_lock_op_t], [fsal_lock_t], [enum fsal_sle_type] and
    [fsal_lock_param_t]. *)
Inductive fsal_lock_op_t :=
| FSAL_OP_LOCKT
| FSAL_OP_LOCK
| FSAL_OP_LOCKB
| FSAL_OP_UNLOCK
| FSAL_OP_CANCEL.

#[export] Instance fsal_lock_op_eq_dec : EqDecision fsal_lock_op_t.
Proof. solve_decision. Defined.

Inductive fsal_lock_t :=
| FSAL_LOCK_R
| FSAL_LOCK_W
| FSAL_NO_LOCK.

#[export] Instance fsal_lock_eq_dec : EqDecision fsal_lock_t.
Proof. solve_decision. Defined.

Inductive fsal_sle_type :=
| FSAL_POSIX_LOCK
| FSAL_LEASE_LOCK.

Record fsal_lock_param_t := mk_lock_param {
  lock_sle_type : fsal_sle_type;
  lock_type : fsal_lock_t;
  lock_start : Z;
  lock_length : Z;
  lock_reclaim : bool
}.

(** [fsal_fsinfo_options_t]. *)
Inductive fsal_fsinfo_options_t :=
| fso_no_trunc
| fso_chown_restricted
| fso_case_insensitive
| fso_case_preserving
| fso_link_support
| fso_symlink_support
| fso_lock_support
| fso_lock_support_owner
| fso_lock_support_async_block
| fso_named_attr
| fso_unique_handles
| fso_cansettime
| fso_homogenous
| fso_auth_exportpath_xdev
| fso_delegations_r
| fso_delegations_w
| fso_share_support
| fso_share_support_owner
| fso_pnfs_ds_supported
| fso_pnfs_mds_supported
| fso_reopen_method
| fso_grace_method
| fso_link_supports_permission_checks.

(** [fsal_openflags_t]. *)
Definition FSAL_O_CLOSED : Z := 0.
Definition FSAL_O_READ : Z := 1.
Definition FSAL_O_WRITE : Z := 2.
Definition FSAL_O_RDWR : Z := 3.
Definition FSAL_O_RECLAIM : Z := 8.
Definition FSAL_O_DENY_READ : Z := 256.
Definition FSAL_O_DENY_WRITE : Z := 512.
Definition FSAL_O_DENY_WRITE_MAND : Z := 1024.

(** [fsal_share_param_t]. *)
Record fsal_share_param_t := {
  sp_share_access : Z;
  sp_share_deny : Z;
  sp_share_reclaim : bool
}.

(** The operations of a backend.  Objects, owners, exports and [state_t]s
    are pointers (natural numbers); an operation may change the backend
    state [F] and answers a status.  [lock_op] and [lock_op2] take the
    [conflicting_lock] buffer and answer what they leave in it.
    [fridgethr_submit] is the thread pool's answer to a request to run a
    task later (support/fridgethr.c): zero on success. *)
Class FsalOps (F : Type) := {
  fs_supports : nat -> fsal_fsinfo_options_t -> bool;
  support_ex : nat -> bool;
  obj_type : nat -> object_file_type_t;
  obj_status : nat -> F -> Z;
  obj_open : nat -> Z -> F -> fsal_status_t * F;
  obj_close : nat -> F -> fsal_status_t * F;
  obj_reopen : nat -> Z -> F -> fsal_status_t * F;
  lock_op : nat -> option nat -> fsal_lock_op_t -> fsal_lock_param_t ->
            fsal_lock_param_t -> F -> fsal_status_t * fsal_lock_param_t * F;
  lock_op2 : nat -> option nat -> option nat -> fsal_lock_op_t ->
             fsal_lock_param_t -> fsal_lock_param_t -> F ->
             fsal_status_t * fsal_lock_param_t * F;
  share_op : nat -> fsal_share_param_t -> F -> fsal_status_t * F;
  obj_reopen2 : nat -> nat -> Z -> F -> fsal_status_t * F;
  fridgethr_submit : F -> Z * F
}.

(** The backend state with the global [open_fd_count]. *)
Record fsal_state (F : Type) := mk_fsal_state {
  fsal_st : F;
  open_fd_count : Z
}.
Arguments mk_fsal_state {F} _ _.
Arguments fsal_st {F} _.
Arguments open_fd_count {F} _.

Section fsal_open.
Context `{FsalOps F}.

Definition fsal_open (ctx_export obj : nat) (openflags : Z) (f : fsal_state F)
    : fsal_status_t * fsal_state F :=
  if decide (obj_type obj <> REGULAR_FILE)
  then (fsalstat ERR_FSAL_BADTYPE 0, f) else
  let current_flags := obj_status obj (fsal_st f) in
  let openflags := Z.land openflags (Z.lnot FSAL_O_RECLAIM) in
  let do_open (current_flags : Z) (f : fsal_state F) :=
    if current_flags =? FSAL_O_CLOSED then
      let '(status, st) := obj_open obj openflags (fsal_st f) in
      if FSAL_IS_ERROR status then (status, mk_fsal_state st (open_fd_count f))
      else (fsalstat ERR_FSAL_NO_ERROR 0,
             mk_fsal_state st (u64 (open_fd_count f + 1)))
    else (fsalstat ERR_FSAL_NO_ERROR 0, f) in
  if negb (current_flags =? FSAL_O_RDWR) && negb (current_flags =? FSAL_O_CLOSED)
     && negb (current_flags =? openflags)
  then
    let '(status, st, closed) :=
      if fs_supports ctx_export fso_reopen_method
      then (obj_reopen obj openflags (fsal_st f), false)
      else (obj_close obj (fsal_st f), true) in
    let f1 := mk_fsal_state st (open_fd_count f) in
    if FSAL_IS_ERROR status && bool_decide (major status <> ERR_FSAL_NOT_OPENED)
    then (status, f1) else
    let f2 := if negb (FSAL_IS_ERROR status) && closed
              then mk_fsal_state st (u64 (open_fd_count f - 1)) else f1 in
    do_open (obj_status obj (fsal_st f2)) f2
  else do_open current_flags f.
End fsal_open.
