(* ===== verification/LockData.v ===== *)
(** * Lock entries and the state they live in

    The data of SAL/state_lock.c (the structures are in
    include/sal_data.h): lock entries, the data of blocked locks, grant
    cookies, and the lists that link them, and the functions that create,
    reference, unlink and free them.

    A [state_lock_entry_t] is shared: it sits on the list of its file, of
    its owner, of its export, of its [state_t] and, for NLM, of its client,
    and a grant cookie and a block data point to it.  So entries live in a
    store indexed by their address, and the lists hold addresses. *)
From S2P Require Import Prelude Status Owners Fsal.

(** ** Intrusive lists (include/gsh_list.h)

    A family of lists whose links are one field of the objects, so that an
    object is on at most one of them: a list head is a key, a list is the
    sequence of the objects linked from that head. *)
Section glist.
Context `{Countable K}.
Implicit Types (m : gmap K (list nat)) (h : K) (x : nat).

Definition glist m h : list nat := default [] (m !! h).

Definition glist_init h m : gmap K (list nat) := <[h := []]> m.

Definition glist_add_tail h x m : gmap K (list nat) := <[h := glist m h ++ [x]]> m.

(** [glist_del]: takes the object off the list it is on; nothing happens
    when it is on none ([next] and [prev] are NULL). *)
Definition glist_del x m : gmap K (list nat) := filter (fun y => y <> x) <$> m.

Definition glist_empty h m : bool :=
  match glist m h with [] => true | _ => false end.

(** [glist_add_list_tail]: the elements of [elt] move to the tail of
    [h]; the head [elt] is a local variable that is not used again. *)
Definition glist_add_list_tail h elt m : gmap K (list nat) :=
  <[h := glist m h ++ glist m elt]> (<[elt := []]> m).
End glist.

(** The successor of a node, [None] at the end of the list. *)
Fixpoint glist_next (l : list nat) (x : nat) : option nat :=
  match l with
  | [] => None
  | y :: l' => if decide (y = x) then head l' else glist_next l' x
  end.

(** [glist_for_each_safe]: the successor is read before the body runs, so
    the body may take the current node off the list or append nodes. *)
Fixpoint glist_for_each_safe {W : Type} (fuel : nat) (lst : W -> list nat)
    (body : nat -> W -> W) (node : option nat) (w : W) : W :=
  match fuel, node with
  | S fuel, Some x =>
      let noden := glist_next (lst w) x in
      glist_for_each_safe fuel lst body noden (body x w)
  | _, _ => w
  end.

(** ** Structures *)

Inductive state_blocking_t :=
| STATE_NON_BLOCKING
| STATE_NLM_BLOCKING
| STATE_NFSV4_BLOCKING
| STATE_GRANTING
| STATE_CANCELED.

#[export] Instance state_blocking_eq_dec : EqDecision state_blocking_t.
Proof. solve_decision. Defined.

Inductive state_grant_type_t :=
| STATE_GRANT_NONE
| STATE_GRANT_INTERNAL
| STATE_GRANT_FSAL
| STATE_GRANT_FSAL_AVAILABLE
| STATE_GRANT_POLL.

#[export] Instance state_grant_type_eq_dec : EqDecision state_grant_type_t.
Proof. solve_decision. Defined.

Inductive state_block_type_t :=
| STATE_BLOCK_NONE
| STATE_BLOCK_INTERNAL
| STATE_BLOCK_ASYNC
| STATE_BLOCK_POLL.

#[export] Instance state_block_type_eq_dec : EqDecision state_block_type_t.
Proof. solve_decision. Defined.

(** [state_lock_entry_t], without the links (see [sal]) and the mutex. *)
Record state_lock_entry_t := mk_entry {
  sle_export : nat;
  sle_obj : nat;
  sle_block_data : option nat;
  sle_owner : option nat;
  sle_state : option nat;
  sle_blocked : state_blocking_t;
  sle_ref_count : Z;
  sle_lock : fsal_lock_param_t
}.

(** [state_block_data_t]; the only [sbd_granted_callback] of the program is
    [nlm_granted_callback], and the NLM file handle copy is left out. *)
Record state_block_data_t := mk_block {
  sbd_grant_type : state_grant_type_t;
  sbd_block_type : state_block_type_t;
  sbd_blocked_cookie : option nat;
  sbd_lock_entry : option nat
}.

(** [state_cookie_entry_t]; [sce_cookie] carries [sce_cookie_size] bytes. *)
Record state_cookie_entry_t := mk_cookie {
  sce_obj : nat;
  sce_lock_entry : nat;
  sce_cookie : list Z
}.

Definition set_sle_block_data b e :=
  mk_entry (sle_export e) (sle_obj e) b (sle_owner e) (sle_state e)
    (sle_blocked e) (sle_ref_count e) (sle_lock e).
Definition set_sle_owner o e :=
  mk_entry (sle_export e) (sle_obj e) (sle_block_data e) o (sle_state e)
    (sle_blocked e) (sle_ref_count e) (sle_lock e).
Definition set_sle_blocked b e :=
  mk_entry (sle_export e) (sle_obj e) (sle_block_data e) (sle_owner e)
    (sle_state e) b (sle_ref_count e) (sle_lock e).
Definition set_sle_ref_count n e :=
  mk_entry (sle_export e) (sle_obj e) (sle_block_data e) (sle_owner e)
    (sle_state e) (sle_blocked e) n (sle_lock e).
Definition set_sle_lock l e :=
  mk_entry (sle_export e) (sle_obj e) (sle_block_data e) (sle_owner e)
    (sle_state e) (sle_blocked e) (sle_ref_count e) l.

Definition set_lock_sle_type t l :=
  mk_lock_param t (lock_type l) (lock_start l) (lock_length l) (lock_reclaim l).
Definition set_lock_start z l :=
  mk_lock_param (lock_sle_type l) (lock_type l) z (lock_length l) (lock_reclaim l).
Definition set_lock_length z l :=
  mk_lock_param (lock_sle_type l) (lock_type l) (lock_start l) z (lock_reclaim l).

Definition set_sbd_grant_type t b :=
  mk_block t (sbd_block_type b) (sbd_blocked_cookie b) (sbd_lock_entry b).
Definition set_sbd_block_type t b :=
  mk_block (sbd_grant_type b) t (sbd_blocked_cookie b) (sbd_lock_entry b).
Definition set_sbd_blocked_cookie c b :=
  mk_block (sbd_grant_type b) (sbd_block_type b) c (sbd_lock_entry b).
Definition set_sbd_lock_entry e b :=
  mk_block (sbd_grant_type b) (sbd_block_type b) (sbd_blocked_cookie b) e.

(** ** The state of the lock manager *)

(** Heads of the lists linked through [sle_list]: the [lock_list] of a
    file and the list heads that are local variables of the functions
    below. *)
Inductive sle_head :=
| lock_list (obj : nat)
| split_lock_list
| remove_list
| fsal_unlock_list.

#[export] Instance sle_head_eq_dec : EqDecision sle_head.
Proof. solve_decision. Defined.

#[export] Instance sle_head_countable : Countable sle_head.
Proof.
  refine (inj_countable'
    (fun h => match h with
              | lock_list o => inl o
              | split_lock_list => inr 0%nat
              | remove_list => inr 1%nat
              | fsal_unlock_list => inr 2%nat
              end)
    (fun s => match s with
              | inl o => lock_list o
              | inr 0%nat => split_lock_list
              | inr 1%nat => remove_list
              | inr _ => fsal_unlock_list
              end) _).
  by intros [].
Defined.

(** The objects the lock manager takes references on.  Their life cycle is
    elsewhere; the ledger [s_refs] counts the references taken minus those
    released. *)
Inductive ref_target :=
| ref_obj (p : nat)
| ref_export (p : nat)
| ref_owner (p : nat)
| ref_state (p : nat)
| ref_nsm_client (p : nat)
| ref_nlm_client (p : nat).

#[export] Instance ref_target_eq_dec : EqDecision ref_target.
Proof. solve_decision. Defined.

#[export] Instance ref_target_countable : Countable ref_target.
Proof.
  refine (inj_countable'
    (fun t => match t with
              | ref_obj p => (0, p) | ref_export p => (1, p)
              | ref_owner p => (2, p) | ref_state p => (3, p)
              | ref_nsm_client p => (4, p) | ref_nlm_client p => (5, p)
              end)
    (fun s => match s with
              | (0, p) => ref_obj p | (1, p) => ref_export p
              | (2, p) => ref_owner p | (3, p) => ref_state p
              | (4, p) => ref_nsm_client p | (_, p) => ref_nlm_client p
              end) _).
  by intros [].
Defined.

(** The arguments of an NLMPROC4_GRANTED_MSG call ([nlm4_testargs]; the
    file handle, copied from the block data, is left out). *)
Record nlm4_grant_args := mk_grant_args {
  ga_cookie : list Z;
  ga_exclusive : bool;
  ga_caller_name : list Z;
  ga_oh : list Z;
  ga_svid : Z;
  ga_l_offset : Z;
  ga_l_len : Z
}.

(** Work handed to [state_async_fridge]: a GRANTED message to an NLM client
    ([nlm_async_host], [nlm_async_key] and the arguments), or a blocked lock
    to retry. *)
Inductive async_task :=
| nlm4_send_grant_msg (host : option nat) (key : nat) (args : nlm4_grant_args)
| state_blocked_lock_caller (block : nat).

(** [struct granted_cookie] (Protocols/NLM/nlm_util.c). *)
Record granted_cookie := mk_granted_cookie {
  gc_seconds : Z;
  gc_microseconds : Z;
  gc_cookie : Z
}.

(** [s_next] is the next address the allocator hands out; [s_lists] the
    lists linked through [sle_list]; the four maps after it the lists of
    locks of an owner ([so_lock_list]), an NSM client ([ssc_lock_list]), an
    export ([exp_lock_list]) and a state ([state_locklist]); [s_blocked] is
    [state_blocked_locks]; [s_ht_cookies] is [ht_lock_cookies];
    [s_granted_cookie] the variable [granted_cookie] of NLM. *)
Record sal (F : Type) := mk_sal {
  s_entries : gmap nat state_lock_entry_t;
  s_blocks : gmap nat state_block_data_t;
  s_cookies : gmap nat state_cookie_entry_t;
  s_next : nat;
  s_lists : gmap sle_head (list nat);
  s_owner_locks : gmap nat (list nat);
  s_client_locks : gmap nat (list nat);
  s_export_locks : gmap nat (list nat);
  s_state_locks : gmap nat (list nat);
  s_blocked : list nat;
  s_ht_cookies : gmap (list Z) nat;
  s_refs : gmap ref_target Z;
  s_granted_cookie : granted_cookie;
  s_async : list async_task;
  s_fsal : fsal_state F
}.
Arguments mk_sal {F}.
Arguments s_entries {F} _.
Arguments s_blocks {F} _.
Arguments s_cookies {F} _.
Arguments s_next {F} _.
Arguments s_lists {F} _.
Arguments s_owner_locks {F} _.
Arguments s_client_locks {F} _.
Arguments s_export_locks {F} _.
Arguments s_state_locks {F} _.
Arguments s_blocked {F} _.
Arguments s_ht_cookies {F} _.
Arguments s_refs {F} _.
Arguments s_granted_cookie {F} _.
Arguments s_async {F} _.
Arguments s_fsal {F} _.

(** Field updates. *)
Section updates.
Context {F : Type}.
Implicit Types w : sal F.

Definition upd_entries (f : gmap nat state_lock_entry_t -> gmap nat state_lock_entry_t) w : sal F :=
  mk_sal (f (s_entries w)) (s_blocks w) (s_cookies w) (s_next w)
    (s_lists w) (s_owner_locks w) (s_client_locks w) (s_export_locks
    w) (s_state_locks w) (s_blocked w) (s_ht_cookies w) (s_refs w)
    (s_granted_cookie w) (s_async w) (s_fsal w).
Definition upd_blocks (f : gmap nat state_block_data_t -> gmap nat state_block_data_t) w : sal F :=
  mk_sal (s_entries w) (f (s_blocks w)) (s_cookies w) (s_next w)
    (s_lists w) (s_owner_locks w) (s_client_locks w) (s_export_locks
    w) (s_state_locks w) (s_blocked w) (s_ht_cookies w) (s_refs w)
    (s_granted_cookie w) (s_async w) (s_fsal w).
Definition upd_cookies (f : gmap nat state_cookie_entry_t -> gmap nat state_cookie_entry_t) w : sal F :=
  mk_sal (s_entries w) (s_blocks w) (f (s_cookies w)) (s_next w)
    (s_lists w) (s_owner_locks w) (s_client_locks w) (s_export_locks
    w) (s_state_locks w) (s_blocked w) (s_ht_cookies w) (s_refs w)
    (s_granted_cookie w) (s_async w) (s_fsal w).
Definition upd_next (f : nat -> nat) w : sal F :=
  mk_sal (s_entries w) (s_blocks w) (s_cookies w) (f (s_next w))
    (s_lists w) (s_owner_locks w) (s_client_locks w) (s_export_locks
    w) (s_state_locks w) (s_blocked w) (s_ht_cookies w) (s_refs w)
    (s_granted_cookie w) (s_async w) (s_fsal w).
Definition upd_lists (f : gmap sle_head (list nat) -> gmap sle_head (list nat)) w : sal F :=
  mk_sal (s_entries w) (s_blocks w) (s_cookies w) (s_next w) (f
    (s_lists w)) (s_owner_locks w) (s_client_locks w)
    (s_export_locks w) (s_state_locks w) (s_blocked w) (s_ht_cookies
    w) (s_refs w) (s_granted_cookie w) (s_async w) (s_fsal w).
Definition upd_owner_locks (f : gmap nat (list nat) -> gmap nat (list nat)) w : sal F :=
  mk_sal (s_entries w) (s_blocks w) (s_cookies w) (s_next w)
    (s_lists w) (f (s_owner_locks w)) (s_client_locks w)
    (s_export_locks w) (s_state_locks w) (s_blocked w) (s_ht_cookies
    w) (s_refs w) (s_granted_cookie w) (s_async w) (s_fsal w).
Definition upd_client_locks (f : gmap nat (list nat) -> gmap nat (list nat)) w : sal F :=
  mk_sal (s_entries w) (s_blocks w) (s_cookies w) (s_next w)
    (s_lists w) (s_owner_locks w) (f (s_client_locks w))
    (s_export_locks w) (s_state_locks w) (s_blocked w) (s_ht_cookies
    w) (s_refs w) (s_granted_cookie w) (s_async w) (s_fsal w).
Definition upd_export_locks (f : gmap nat (list nat) -> gmap nat (list nat)) w : sal F :=
  mk_sal (s_entries w) (s_blocks w) (s_cookies w) (s_next w)
    (s_lists w) (s_owner_locks w) (s_client_locks w) (f
    (s_export_locks w)) (s_state_locks w) (s_blocked w)
    (s_ht_cookies w) (s_refs w) (s_granted_cookie w) (s_async w)
    (s_fsal w).
Definition upd_state_locks (f : gmap nat (list nat) -> gmap nat (list nat)) w : sal F :=
  mk_sal (s_entries w) (s_blocks w) (s_cookies w) (s_next w)
    (s_lists w) (s_owner_locks w) (s_client_locks w) (s_export_locks
    w) (f (s_state_locks w)) (s_blocked w) (s_ht_cookies w) (s_refs
    w) (s_granted_cookie w) (s_async w) (s_fsal w).
Definition upd_blocked (f : list nat -> list nat) w : sal F :=
  mk_sal (s_entries w) (s_blocks w) (s_cookies w) (s_next w)
    (s_lists w) (s_owner_locks w) (s_client_locks w) (s_export_locks
    w) (s_state_locks w) (f (s_blocked w)) (s_ht_cookies w) (s_refs
    w) (s_granted_cookie w) (s_async w) (s_fsal w).
Definition upd_ht_cookies (f : gmap (list Z) nat -> gmap (list Z) nat) w : sal F :=
  mk_sal (s_entries w) (s_blocks w) (s_cookies w) (s_next w)
    (s_lists w) (s_owner_locks w) (s_client_locks w) (s_export_locks
    w) (s_state_locks w) (s_blocked w) (f (s_ht_cookies w)) (s_refs
    w) (s_granted_cookie w) (s_async w) (s_fsal w).
Definition upd_refs (f : gmap ref_target Z -> gmap ref_target Z) w : sal F :=
  mk_sal (s_entries w) (s_blocks w) (s_cookies w) (s_next w)
    (s_lists w) (s_owner_locks w) (s_client_locks w) (s_export_locks
    w) (s_state_locks w) (s_blocked w) (s_ht_cookies w) (f (s_refs
    w)) (s_granted_cookie w) (s_async w) (s_fsal w).
Definition upd_granted_cookie (f : granted_cookie -> granted_cookie) w : sal F :=
  mk_sal (s_entries w) (s_blocks w) (s_cookies w) (s_next w)
    (s_lists w) (s_owner_locks w) (s_client_locks w) (s_export_locks
    w) (s_state_locks w) (s_blocked w) (s_ht_cookies w) (s_refs w)
    (f (s_granted_cookie w)) (s_async w) (s_fsal w).
Definition upd_async (f : list async_task -> list async_task) w : sal F :=
  mk_sal (s_entries w) (s_blocks w) (s_cookies w) (s_next w)
    (s_lists w) (s_owner_locks w) (s_client_locks w) (s_export_locks
    w) (s_state_locks w) (s_blocked w) (s_ht_cookies w) (s_refs w)
    (s_granted_cookie w) (f (s_async w)) (s_fsal w).
Definition upd_fsal (f : fsal_state F -> fsal_state F) w : sal F :=
  mk_sal (s_entries w) (s_blocks w) (s_cookies w) (s_next w)
    (s_lists w) (s_owner_locks w) (s_client_locks w) (s_export_locks
    w) (s_state_locks w) (s_blocked w) (s_ht_cookies w) (s_refs w)
    (s_granted_cookie w) (s_async w) (f (s_fsal w)).
End updates.

(** What the lock manager reads of the rest of the program and does not
    change: the owners, the [state_seqid] of a [state_t], and whether an
    export is ready ([export_ready], include/export_mgr.h). *)
Record sal_env := mk_sal_env {
  env_owners : owner_env;
  env_seqid : nat -> Z;
  export_ready : nat -> bool
}.

(** The address of the variable [unknown_owner]. *)
Definition unknown_owner : nat := 0.

(** ** Ranges *)

Definition lock_end (lock : fsal_lock_param_t) : Z :=
  if lock_length lock =? 0 then UINT64_MAX
  else u64 (u64 (lock_start lock + lock_length lock) - 1).

Definition different_lock (lock1 lock2 : fsal_lock_param_t) : bool :=
  bool_decide (lock_type lock1 <> lock_type lock2)
  || negb (lock_start lock1 =? lock_start lock2)
  || negb (lock_length lock1 =? lock_length lock2).

(** ** Entries *)
Section entries.
Context {F : Type} (env : sal_env).
Implicit Types (w : sal F) (lock_entry : nat).

Definition add_ref (t : ref_target) (n : Z) w : sal F :=
  upd_refs (fun m => <[t := default 0 (m !! t) + n]> m) w.

(** A write through a [state_lock_entry_t] pointer, and one through a
    [state_block_data_t] pointer. *)
Definition on_entry (f : state_lock_entry_t -> state_lock_entry_t) lock_entry w : sal F :=
  upd_entries (alter f lock_entry) w.
Definition on_block (f : state_block_data_t -> state_block_data_t) (block : nat) w : sal F :=
  upd_blocks (alter f block) w.

Definition entry_owner w lock_entry : option nat :=
  s_entries w !! lock_entry ≫= sle_owner.
Definition entry_block w lock_entry : option nat :=
  s_entries w !! lock_entry ≫= sle_block_data.

(** [owner->so_type], and [owner->so_owner.so_nlm_owner.so_client->
    slc_nsm_client]. *)
Definition owner_type (owner : nat) : state_owner_type_t :=
  so_type (owner_at (env_owners env) owner).
Definition owner_nlm_client (owner : nat) : option nat :=
  so_client (owner_at (env_owners env) owner).
Definition owner_nsm_client (owner : nat) : option nat :=
  owner_nlm_client owner ≫= fun c => slc_nsm_client (nlm_client_at (env_owners env) c).
Definition owner_is_nlm (owner : nat) : bool :=
  bool_decide (owner_type owner = STATE_LOCK_OWNER_NLM).

Definition lock_owner_is_nlm w lock_entry : bool :=
  match entry_owner w lock_entry with
  | Some o => owner_is_nlm o
  | None => false
  end.

Definition create_state_lock_entry (obj export : nat) (blocked : state_blocking_t)
    (owner : nat) (state : option nat) (lock : fsal_lock_param_t) w : nat * sal F :=
  let new_entry := s_next w in
  let w := upd_next S w in
  let w := upd_entries
    <[new_entry := mk_entry export obj None (Some owner) state blocked 1 lock]> w in
  let w :=
    if owner_is_nlm owner then
      match owner_nsm_client owner with
      | Some nsm =>
          upd_client_locks (glist_add_tail nsm new_entry) (add_ref (ref_nsm_client nsm) 1 w)
      | None => w
      end
    else w in
  let w := upd_export_locks (glist_add_tail export new_entry) w in
  let w := add_ref (ref_export export) 1 w in
  let w := add_ref (ref_obj obj) 1 w in
  let w := add_ref (ref_owner owner) 1 w in
  let w :=
    match state with
    | Some s => add_ref (ref_state s) 1 (upd_state_locks (glist_add_tail s new_entry) w)
    | None => w
    end in
  let w := upd_owner_locks (glist_add_tail owner new_entry) w in
  (new_entry, w).

(** The owner of the entry to duplicate is not NULL (a precondition of
    the C code, which reads its type). *)
Definition state_lock_entry_t_dup (orig_entry : nat) w : option nat * sal F :=
  match s_entries w !! orig_entry with
  | Some e =>
      match sle_owner e with
      | Some o =>
          let '(n, w) := create_state_lock_entry (sle_obj e) (sle_export e)
                           (sle_blocked e) o (sle_state e) (sle_lock e) w in
          (Some n, w)
      | None => (None, w)
      end
  | None => (None, w)
  end.

Definition lock_entry_inc_ref lock_entry w : sal F :=
  on_entry (fun e => set_sle_ref_count (s32 (sle_ref_count e + 1)) e) lock_entry w.

Definition lock_entry_dec_ref lock_entry w : sal F :=
  match s_entries w !! lock_entry with
  | Some e =>
      let refcount := s32 (sle_ref_count e - 1) in
      let w := on_entry (set_sle_ref_count refcount) lock_entry w in
      if refcount =? 0 then
        let w :=
          match sle_block_data e with
          | Some b => upd_blocks (delete b) (upd_blocked (filter (fun x => x <> b)) w)
          | None => w
          end in
        let w := add_ref (ref_obj (sle_obj e)) (-1) w in
        let w := add_ref (ref_export (sle_export e)) (-1) w in
        upd_entries (delete lock_entry) w
      else w
  | None => w
  end.

Definition remove_from_locklist lock_entry w : sal F :=
  match s_entries w !! lock_entry with
  | Some e =>
      let w :=
        match sle_owner e with
        | Some owner =>
            let w :=
              if owner_is_nlm owner then
                let w := upd_client_locks (glist_del lock_entry) w in
                match owner_nsm_client owner with
                | Some nsm => add_ref (ref_nsm_client nsm) (-1) w
                | None => w
                end
              else w in
            let w := upd_export_locks (glist_del lock_entry) w in
            let w := upd_state_locks (glist_del lock_entry) w in
            let w := upd_owner_locks (glist_del lock_entry) w in
            let w := add_ref (ref_owner owner) (-1) w in
            match sle_state e with
            | Some s => add_ref (ref_state s) (-1) w
            | None => w
            end
        | None => w
        end in
      let w := on_entry (set_sle_owner None) lock_entry w in
      let w := upd_lists (glist_del lock_entry) w in
      lock_entry_dec_ref lock_entry w
  | None => w
  end.
End entries.

Arguments create_state_lock_entry : simpl never.
Arguments state_lock_entry_t_dup : simpl never.
Arguments lock_entry_inc_ref : simpl never.
Arguments lock_entry_dec_ref : simpl never.
Arguments remove_from_locklist : simpl never.
