(* ===== verification/LockList.v ===== *)
(** * The list of locks of a file

    The functions of SAL/state_lock.c that work on the list of lock entries
    of a file: the search for a conflicting entry, the merge of a new lock
    into the locks its owner already has, and the subtraction of a range. *)
From S2P Require Import Prelude Status Owners Fsal LockData.

Section lock_list_ops.
Context {F : Type} (env : sal_env).
Implicit Types (w : sal F) (list : sle_head).

#[local] Abbreviation different_owners := (different_owners (env_owners env)).

Definition on_lock (f : fsal_lock_param_t -> fsal_lock_param_t) (lock_entry : nat) w : sal F :=
  on_entry (fun e => set_sle_lock (f (sle_lock e)) e) lock_entry w.

(** Locks that wait, or were cancelled, conflict with nothing. *)
Definition blocked_or_canceled (b : state_blocking_t) : bool :=
  match b with
  | STATE_NLM_BLOCKING | STATE_NFSV4_BLOCKING | STATE_CANCELED => true
  | STATE_NON_BLOCKING | STATE_GRANTING => false
  end.

Definition entry_conflicts (owner : option nat) (lock : fsal_lock_param_t)
    (found_entry : state_lock_entry_t) : bool :=
  negb (blocked_or_canceled (sle_blocked found_entry))
  && ((lock_start lock <=? lock_end (sle_lock found_entry))
      && (lock_start (sle_lock found_entry) <=? lock_end lock))
  && ((bool_decide (lock_type (sle_lock found_entry) = FSAL_LOCK_W)
       || bool_decide (lock_type lock = FSAL_LOCK_W))
      && different_owners (sle_owner found_entry) owner).

Fixpoint find_entry (P : state_lock_entry_t -> bool) (l : list nat) w : option nat :=
  match l with
  | [] => None
  | x :: l =>
      match s_entries w !! x with
      | Some e => if P e then Some x else find_entry P l w
      | None => find_entry P l w
      end
  end.

Definition get_overlapping_entry (obj : nat) (owner : option nat)
    (lock : fsal_lock_param_t) w : option nat :=
  find_entry (entry_conflicts owner lock) (glist (s_lists w) (lock_list obj)) w.

(** The body of the loop of [merge_lock_entry]. *)
Definition merge_check_entry (obj lock_entry check_entry : nat) w : sal F :=
  if decide (check_entry = lock_entry) then w else
  match s_entries w !! check_entry, s_entries w !! lock_entry with
  | Some c, Some l =>
      if different_owners (sle_owner c) (sle_owner l) then w else
      if decide (sle_blocked c <> STATE_NON_BLOCKING) then w else
      let check_entry_end := lock_end (sle_lock c) in
      let lock_entry_end := lock_end (sle_lock l) in
      if u64 (check_entry_end + 1) <? lock_start (sle_lock l) then w else
      if u64 (lock_entry_end + 1) <? lock_start (sle_lock c) then w else
      if bool_decide (lock_type (sle_lock c) <> lock_type (sle_lock l))
         && ((lock_entry_end <? check_entry_end)
             || (lock_start (sle_lock c) <? lock_start (sle_lock l)))
      then
        let '(check_entry_right, w) :=
          if (lock_entry_end <? check_entry_end)
             && (lock_start (sle_lock c) <? lock_start (sle_lock l))
          then
            let '(new_right, w) := state_lock_entry_t_dup env check_entry w in
            let check_entry_right := default check_entry new_right in
            (check_entry_right, upd_lists (glist_add_tail (lock_list obj) check_entry_right) w)
          else (check_entry, w) in
        let w :=
          if lock_entry_end <? check_entry_end then
            on_lock (fun k =>
              set_lock_length (u64 (check_entry_end - lock_entry_end))
                (set_lock_start (u64 (lock_entry_end + 1)) k))
              check_entry_right w
          else w in
        match s_entries w !! check_entry with
        | Some c =>
            if lock_start (sle_lock c) <? lock_start (sle_lock l) then
              on_lock (set_lock_length
                         (u64 (lock_start (sle_lock l) - lock_start (sle_lock c))))
                check_entry w
            else w
        | None => w
        end
      else
        let lock_entry_end :=
          if lock_entry_end <? check_entry_end
          then check_entry_end else lock_entry_end in
        let start :=
          if lock_start (sle_lock c) <? lock_start (sle_lock l)
          then lock_start (sle_lock c) else lock_start (sle_lock l) in
        let w :=
          on_lock (fun k =>
            set_lock_length (u64 (u64 (lock_entry_end - start) + 1))
              (set_lock_start start k))
            lock_entry w in
        remove_from_locklist env check_entry w
  | _, _ => w
  end.

(** An iteration can append an entry to the list it walks, but only when
    it splits an entry that was there at the start, so the bound is enough
    (LockMerge.v). *)
Definition merge_lock_entry (obj lock_entry : nat) w : sal F :=
  let lst w := glist (s_lists w) (lock_list obj) in
  glist_for_each_safe (2 * length (lst w)) lst
    (merge_check_entry obj lock_entry) (head (lst w)) w.

Definition free_list list w : sal F :=
  foldl (fun w found_entry => remove_from_locklist env found_entry w) w
    (glist (s_lists w) list).

Definition subtract_lock_from_entry (found_entry : nat) (lock : fsal_lock_param_t)
    (split_list remove_list : sle_head) w : state_status_t * bool * sal F :=
  match s_entries w !! found_entry with
  | Some e =>
      let found_entry_end := lock_end (sle_lock e) in
      let range_end := lock_end lock in
      if range_end <? lock_start (sle_lock e) then (STATE_SUCCESS, false, w) else
      if found_entry_end <? lock_start lock then (STATE_SUCCESS, false, w) else
      let w :=
        if (lock_start lock <=? lock_start (sle_lock e))
           && (found_entry_end <=? range_end)
        then w else
        let w :=
          if lock_start (sle_lock e) <? lock_start lock then
            match state_lock_entry_t_dup env found_entry w with
            | (Some found_entry_left, w) =>
                upd_lists (glist_add_tail split_list found_entry_left)
                  (on_lock (set_lock_length
                     (u64 (lock_start lock - lock_start (sle_lock e))))
                     found_entry_left w)
            | (None, w) => w
            end
          else w in
        if range_end <? found_entry_end then
          match state_lock_entry_t_dup env found_entry w with
          | (Some found_entry_right, w) =>
              upd_lists (glist_add_tail split_list found_entry_right)
                (on_lock (fun k =>
                   set_lock_length
                     (if found_entry_end =? UINT64_MAX then 0
                      else u64 (found_entry_end - range_end))
                     (set_lock_start (u64 (range_end + 1)) k))
                   found_entry_right w)
          | (None, w) => w
          end
        else w in
      let w := upd_lists (glist_del found_entry) w in
      let w := upd_lists (glist_add_tail remove_list found_entry) w in
      (STATE_SUCCESS, true, w)
  | None => (STATE_SUCCESS, false, w)
  end.

(** The filter of the loop of [subtract_lock_from_list]: which entries
    the subtraction applies to. *)
Definition subtract_applies (owner : option nat) (state_applies : bool) (state : Z)
    (e : state_lock_entry_t) : bool :=
  negb (bool_decide (is_Some owner) && different_owners (sle_owner e) owner)
  && bool_decide (sle_blocked e = STATE_NON_BLOCKING)
  && negb (state_applies
           && match sle_state e with
              | Some s => env_seqid env s =? u32 state
              | None => false
              end).

(** The loop; it stops at the first status that is not a success. *)
Fixpoint subtract_lock_loop (owner : option nat) (state_applies : bool) (state : Z)
    (lock : fsal_lock_param_t) (l : list nat) (removed : bool) w
    : state_status_t * bool * sal F :=
  match l with
  | [] => (STATE_SUCCESS, removed, w)
  | found_entry :: l =>
      match s_entries w !! found_entry with
      | Some e =>
          if subtract_applies owner state_applies state e then
            let '(status, removed_one, w) :=
              subtract_lock_from_entry found_entry lock split_lock_list remove_list w in
            let removed := removed || removed_one in
            if decide (status <> STATE_SUCCESS) then (status, removed, w)
            else subtract_lock_loop owner state_applies state lock l removed w
          else subtract_lock_loop owner state_applies state lock l removed w
      | None => subtract_lock_loop owner state_applies state lock l removed w
      end
  end.

Definition subtract_lock_from_list (owner : option nat) (state_applies : bool)
    (state : Z) (lock : fsal_lock_param_t) list w : state_status_t * bool * sal F :=
  let w := upd_lists (fun m => glist_init remove_list (glist_init split_lock_list m)) w in
  let '(status, removed, w) :=
    subtract_lock_loop owner state_applies state lock (glist (s_lists w) list) false w in
  let w :=
    if decide (status <> STATE_SUCCESS) then
      foldl (fun w found_entry =>
               upd_lists (glist_add_tail list found_entry)
                 (upd_lists (glist_del found_entry) w))
        w (glist (s_lists w) remove_list)
    else
      let w := free_list remove_list w in
      upd_lists (glist_add_list_tail list split_lock_list) w in
  (status, removed, w).

Fixpoint subtract_list_loop (target : sle_head) (l : list nat) w
    : state_status_t * sal F :=
  match l with
  | [] => (STATE_SUCCESS, w)
  | found_entry :: l =>
      match s_entries w !! found_entry with
      | Some e =>
          let '(status, _, w) :=
            subtract_lock_from_list None false 0 (sle_lock e) target w in
          if decide (status <> STATE_SUCCESS) then (status, w)
          else subtract_list_loop target l w
      | None => subtract_list_loop target l w
      end
  end.

Definition subtract_list_from_list (target source : sle_head) w
    : state_status_t * sal F :=
  subtract_list_loop target (glist (s_lists w) source) w.
End lock_list_ops.
