(* ===== verification/LockOps.v ===== *)
(** * Lock operations

    The rest of SAL/state_lock.c: grant cookies, granting and cancelling
    blocked locks, the call into the FSAL, and the operations the protocols
    use (test, lock, unlock, cancel), with the NLM GRANTED callback of
    Protocols/NLM/nlm_util.c and the scheduling of SAL/state_async.c that
    they call.

    [ctx] is the export of [op_ctx].  Pairs of output pointers [holder] and
    [conflict] are both NULL or both set in every call; [lock_out] is what
    is stored through them.  The locks and mutexes of the C code serialise
    the operations on a file, so an operation is a function of the state. *)
From S2P Require Import Prelude Status Owners Fsal LockData LockList.

(** The bytes of an unsigned long, little endian. *)
Fixpoint le_bytes (n : nat) (z : Z) : list Z :=
  match n with
  | O => []
  | S n => z mod 256 :: le_bytes n (z / 256)
  end.

Definition granted_cookie_bytes (c : granted_cookie) : list Z :=
  le_bytes 8 (gc_seconds c) ++ le_bytes 8 (gc_microseconds c) ++ le_bytes 8 (gc_cookie c).

(** ** The cookie hash table's key functions *)

Definition compare_lock_cookie_key (buff1 buff2 : list Z) : Z :=
  if decide (length buff1 <> length buff2) then 1 else memcmp buff1 buff2.

Definition cookie_sum (key : list Z) : Z :=
  foldl (fun sum b => u32 (sum + b)) 0 key.

Definition lock_cookie_rbt_hash_func (key : list Z) : Z :=
  u64 (cookie_sum key + Z.of_nat (length key)).

Definition lock_cookie_value_hash_func (index_size : Z) (key : list Z) : Z :=
  u32 (u64 (cookie_sum key + Z.of_nat (length key)) mod index_size).

(** What [holder] and [conflict] receive. *)
Definition lock_out : Type := option nat * option fsal_lock_param_t.
Definition no_out : lock_out := (None, None).

(** A lock description after [memset] to zero. *)
Definition zero_lock : fsal_lock_param_t :=
  mk_lock_param FSAL_POSIX_LOCK FSAL_LOCK_R 0 0 false.

Section lock_ops.
Context `{FsalOps F} (env : sal_env).
Implicit Types (w : sal F) (ctx obj lock_entry : nat).

#[local] Abbreviation different_owners := (different_owners (env_owners env)).
#[local] Abbreviation create_state_lock_entry := (create_state_lock_entry env).
#[local] Abbreviation remove_from_locklist := (remove_from_locklist env).

(** ** Calls into the FSAL *)

(** Run an operation of the backend on its part of the state. *)
Definition with_fsal {A : Type} (op : F -> A * F) w : A * sal F :=
  let '(a, f) := op (fsal_st (s_fsal w)) in
  (a, upd_fsal (fun st => mk_fsal_state f (open_fd_count st)) w).

Definition convert_lock_owner ctx (owner : option nat) : option nat :=
  if fs_supports ctx fso_lock_support_owner then owner else None.

Definition fsal_unlock_entry obj (found_entry : nat) (acc : state_status_t * sal F)
    : state_status_t * sal F :=
  let '(status, w) := acc in
  match s_entries w !! found_entry with
  | Some e =>
      let '((fsal_status, _), w) :=
        with_fsal (lock_op obj None FSAL_OP_UNLOCK (sle_lock e) zero_lock) w in
      let t_status := state_error_convert fsal_status in
      let status := if decide (t_status <> STATE_SUCCESS) then t_status else status in
      (status, remove_from_locklist found_entry w)
  | None => (status, w)
  end.

Definition do_unlock_no_owner ctx obj (lock : fsal_lock_param_t) w : state_status_t * sal F :=
  let '(unlock_entry, w) :=
    create_state_lock_entry obj ctx STATE_NON_BLOCKING unknown_owner None lock w in
  let w := upd_lists (glist_init fsal_unlock_list) w in
  let w := upd_lists (glist_add_tail fsal_unlock_list unlock_entry) w in
  let '(status, w) := subtract_list_from_list env fsal_unlock_list (lock_list obj) w in
  foldl (fun acc found_entry => fsal_unlock_entry obj found_entry acc) (status, w)
    (glist (s_lists w) fsal_unlock_list).

(** [wanted]: whether [holder] and [conflict] are not NULL. *)
Definition do_lock_op ctx obj (state : option nat) (op : fsal_lock_op_t)
    (owner : option nat) (lock : fsal_lock_param_t) (wanted overlap : bool) w
    : state_status_t * lock_out * sal F :=
  let lock := set_lock_sle_type FSAL_POSIX_LOCK lock in
  if negb (fs_supports ctx fso_lock_support)
     || (negb (fs_supports ctx fso_lock_support_async_block)
         && bool_decide (op = FSAL_OP_CANCEL))
     || (negb (fs_supports ctx fso_lock_support_owner) && overlap)
  then (STATE_SUCCESS, no_out, w) else
  let '(status, conflicting_lock, w) :=
    if fs_supports ctx fso_lock_support_owner || bool_decide (op <> FSAL_OP_UNLOCK)
    then
      let fsal_lock_op :=
        if bool_decide (op = FSAL_OP_LOCKB)
           && negb (fs_supports ctx fso_lock_support_async_block)
        then FSAL_OP_LOCK else op in
      let '((fsal_status, conflicting_lock), w) :=
        if negb (support_ex obj)
        then with_fsal (lock_op obj (convert_lock_owner ctx owner) fsal_lock_op
                          lock zero_lock) w
        else with_fsal (lock_op2 obj state owner fsal_lock_op lock zero_lock) w in
      let status := state_error_convert fsal_status in
      let status :=
        if bool_decide (status = STATE_LOCK_BLOCKED)
           && bool_decide (fsal_lock_op <> FSAL_OP_LOCKB)
        then STATE_FSAL_ERROR
        else if bool_decide (status = STATE_LOCK_CONFLICT)
                && bool_decide (op = FSAL_OP_LOCKB)
        then STATE_LOCK_BLOCKED else status in
      (status, conflicting_lock, w)
    else
      let '(status, w) := do_unlock_no_owner ctx obj lock w in
      (status, zero_lock, w) in
  if bool_decide (status = STATE_LOCK_CONFLICT) && wanted
  then (status, (Some unknown_owner, Some conflicting_lock),
         add_ref (ref_owner unknown_owner) 1 w)
  else (status, no_out, w).

(** A call with [lock = &lock_entry->sle_lock], the state and the owner
    of that entry, and no interest in the conflict. *)
Definition do_entry_lock_op ctx obj (op : fsal_lock_op_t) lock_entry w
    : state_status_t * sal F :=
  match s_entries w !! lock_entry with
  | Some e =>
      let w := on_lock (set_lock_sle_type FSAL_POSIX_LOCK) lock_entry w in
      let '(status, _, w) :=
        do_lock_op ctx obj (sle_state e) op (sle_owner e) (sle_lock e) false false w in
      (status, w)
  | None => (STATE_SUCCESS, w)
  end.

(** [holder] and [conflict] are not NULL. *)
Definition copy_conflict (found_entry : nat) w : lock_out * sal F :=
  match s_entries w !! found_entry with
  | Some e =>
      ((sle_owner e, Some (sle_lock e)),
        match sle_owner e with
        | Some o => add_ref (ref_owner o) 1 w
        | None => w
        end)
  | None => (no_out, w)
  end.

(** ** Grant cookies *)

Definition free_cookie (cookie_entry : nat) (unblock : bool) w : sal F :=
  match s_cookies w !! cookie_entry with
  | Some c =>
      let w :=
        if unblock then
          let w :=
            match entry_block w (sce_lock_entry c) with
            | Some b => on_block (set_sbd_blocked_cookie None) b w
            | None => w
            end in
          lock_entry_dec_ref (sce_lock_entry c) w
        else w in
      upd_cookies (delete cookie_entry) w
  | None => w
  end.

Definition state_add_grant_cookie ctx obj (cookie : list Z) lock_entry w
    : state_status_t * option nat * sal F :=
  match entry_block w lock_entry, cookie with
  | None, _ | _, [] => (STATE_INCONSISTENT_ENTRY, None, w)
  | Some block, _ =>
      let hash_entry := s_next w in
      let w := upd_next S w in
      match s_ht_cookies w !! cookie with
      | Some _ => (STATE_HASH_TABLE_ERROR, None, w)
      | None =>
          let w := upd_cookies <[hash_entry := mk_cookie obj lock_entry cookie]> w in
          let w := upd_ht_cookies <[cookie := hash_entry]> w in
          let w := lock_entry_inc_ref lock_entry w in
          let w := on_block (set_sbd_blocked_cookie (Some hash_entry)) block w in
          let '(status, w) :=
            match sbd_grant_type <$> s_blocks w !! block with
            | Some STATE_GRANT_NONE | None => (STATE_INCONSISTENT_ENTRY, w)
            | Some STATE_GRANT_POLL | Some STATE_GRANT_FSAL_AVAILABLE =>
                do_entry_lock_op ctx obj FSAL_OP_LOCKB lock_entry w
            | Some STATE_GRANT_INTERNAL =>
                do_entry_lock_op ctx obj FSAL_OP_LOCK lock_entry w
            | Some STATE_GRANT_FSAL => (STATE_SUCCESS, w)
            end in
          if decide (status <> STATE_SUCCESS)
          then (status, None, free_cookie hash_entry false w)
          else (status, Some hash_entry, w)
      end
  end.

Definition state_cancel_grant ctx (cookie_entry : nat) w : state_status_t * sal F :=
  match s_cookies w !! cookie_entry with
  | Some c =>
      let '(status, w) :=
        do_entry_lock_op ctx (sce_obj c) FSAL_OP_UNLOCK (sce_lock_entry c) w in
      (status, free_cookie cookie_entry true w)
  | None => (STATE_SUCCESS, w)
  end.

(** The cookie is taken out of the hash table. *)
Definition state_find_grant (cookie : list Z) w : state_status_t * option nat * sal F :=
  match s_ht_cookies w !! cookie with
  | None => (STATE_BAD_COOKIE, None, w)
  | Some cookie_entry =>
      (STATE_SUCCESS, Some cookie_entry, upd_ht_cookies (delete cookie) w)
  end.

(** ** Scheduling (SAL/state_async.c) *)

Definition submit (task : async_task) w : state_status_t * sal F :=
  let '(rc, w) := with_fsal fridgethr_submit w in
  if rc =? 0 then (STATE_SUCCESS, upd_async (fun q => q ++ [task]) w)
  else (STATE_SIGNAL_ERROR, w).

Definition state_async_schedule (task : async_task) w := submit task w.

Definition state_block_schedule (block : nat) w := submit (state_blocked_lock_caller block) w.

(** One block data of [state_blocked_locks] is handed to the fridge, with the
    reason for the retry. *)
Definition schedule_blocked (grant_type : state_grant_type_t) (pblock : nat) w : sal F :=
  (state_block_schedule pblock (on_block (set_sbd_grant_type grant_type) pblock w)).2.

Definition blocked_lock_polling w : sal F :=
  foldl (fun w pblock =>
           match s_blocks w !! pblock with
           | Some b =>
               if decide (sbd_lock_entry b = None) then w else
               if decide (sbd_block_type b <> STATE_BLOCK_POLL) then w
               else schedule_blocked STATE_GRANT_POLL pblock w
           | None => w
           end) w (s_blocked w).

(** The block data an upcall of the FSAL is about: the first one of that
    file, owner and range. *)
Definition upcall_matches (obj owner : nat) (lock : fsal_lock_param_t) w (pblock : nat) : bool :=
  match s_blocks w !! pblock ≫= sbd_lock_entry with
  | Some found_entry =>
      match s_entries w !! found_entry with
      | Some e => bool_decide (sle_obj e = obj) && bool_decide (sle_owner e = Some owner)
                  && negb (different_lock (sle_lock e) lock)
      | None => false
      end
  | None => false
  end.

(** [None] is [LogFatal]: the server stops. *)
Definition find_blocked_lock_upcall (obj owner : nat) (lock : fsal_lock_param_t)
    (grant_type : state_grant_type_t) w : option (sal F) :=
  match filter (fun pblock => upcall_matches obj owner lock w pblock = true) (s_blocked w) with
  | pblock :: _ => Some (schedule_blocked grant_type pblock w)
  | [] => None
  end.

Definition grant_blocked_lock_upcall obj owner lock w : option (sal F) :=
  find_blocked_lock_upcall obj owner lock STATE_GRANT_FSAL w.

Definition available_blocked_lock_upcall obj owner lock w : option (sal F) :=
  find_blocked_lock_upcall obj owner lock STATE_GRANT_FSAL_AVAILABLE w.

(** ** The GRANTED callback of NLM (Protocols/NLM/nlm_util.c) *)

Definition next_granted_cookie w : granted_cookie * sal F :=
  let c := s_granted_cookie w in
  let c := mk_granted_cookie (gc_seconds c) (gc_microseconds c) (u64 (gc_cookie c + 1)) in
  (c, upd_granted_cookie (fun _ => c) w).

Definition grant_args (cookie : granted_cookie) (owner : nat) (lock : fsal_lock_param_t)
    : nlm4_grant_args :=
  let o := owner_at (env_owners env) owner in
  mk_grant_args (granted_cookie_bytes cookie)
    (bool_decide (lock_type lock = FSAL_LOCK_W))
    match so_client o with
    | Some c => slc_nlm_caller_name (nlm_client_at (env_owners env) c)
    | None => []
    end
    (so_owner_val o) (so_nlm_svid o) (lock_start lock) (lock_length lock).

Definition ref_host (host : option nat) (n : Z) w : sal F :=
  match host with Some c => add_ref (ref_nlm_client c) n w | None => w end.

Definition nlm_granted_callback ctx obj lock_entry w : state_status_t * sal F :=
  let '(nlm_grant_cookie, w) := next_granted_cookie w in
  let '(status, cookie_entry, w) :=
    state_add_grant_cookie ctx obj (granted_cookie_bytes nlm_grant_cookie) lock_entry w in
  match cookie_entry, s_entries w !! lock_entry with
  | Some cookie_entry, Some e =>
      match sle_owner e with
      | Some owner =>
          let nlm_grant_client := owner_nlm_client env owner in
          let w := ref_host nlm_grant_client 1 w in
          let '(status, w) :=
            state_async_schedule
              (nlm4_send_grant_msg nlm_grant_client cookie_entry
                 (grant_args nlm_grant_cookie owner (sle_lock e))) w in
          if decide (status <> STATE_SUCCESS) then
            let w := ref_host nlm_grant_client (-1) w in
            let '(_, w) := state_cancel_grant ctx cookie_entry w in
            (status, w)
          else (status, w)
      | None => (status, w)
      end
  | _, _ => (status, w)
  end.

(** ** Granting blocked locks *)

(** The branch of [try_to_grant_lock] that makes the granted call back:
    [e] is the entry and [block] its block data. *)
Definition grant_by_call_back lock_entry (e : state_lock_entry_t) (block : nat) w : sal F :=
  let export := sle_export e in
  let w := add_ref (ref_export export) 1 w in
  let w := on_entry (set_sle_blocked STATE_GRANTING) lock_entry w in
  let w := on_block (fun b =>
             if decide (sbd_grant_type b = STATE_GRANT_NONE)
             then set_sbd_grant_type STATE_GRANT_INTERNAL b else b) block w in
  let '(status, w) := nlm_granted_callback export (sle_obj e) lock_entry w in
  let w := add_ref (ref_export export) (-1) w in
  if decide (status = STATE_LOCK_BLOCKED) then
    on_block (set_sbd_grant_type STATE_GRANT_NONE) block
      (on_entry (set_sle_blocked (sle_blocked e)) lock_entry w)
  else
    let w := upd_blocked (filter (fun x => x <> block)) w in
    if decide (status = STATE_SUCCESS) then w
    else remove_from_locklist lock_entry w.

Definition try_to_grant_lock lock_entry w : sal F :=
  match s_entries w !! lock_entry with
  | Some e =>
      match sle_blocked e, sle_block_data e, export_ready env (sle_export e) with
      | STATE_CANCELED, _, _ | _, None, _ | _, _, false =>
          remove_from_locklist lock_entry w
      | _, Some block, true => grant_by_call_back lock_entry e block w
      end
  | None => w
  end.

Definition process_blocked_lock_upcall (block_data : nat) w : sal F :=
  match s_blocks w !! block_data ≫= sbd_lock_entry with
  | Some lock_entry =>
      let w := lock_entry_inc_ref lock_entry w in
      let w := try_to_grant_lock lock_entry w in
      lock_entry_dec_ref lock_entry w
  | None => w
  end.

(** The body of the loop of [grant_blocked_locks]. *)
Definition grant_blocked_entry obj (found_entry : nat) w : sal F :=
  match s_entries w !! found_entry with
  | Some e =>
      if decide (sle_blocked e <> STATE_NLM_BLOCKING
                 /\ sle_blocked e <> STATE_NFSV4_BLOCKING) then w else
      match get_overlapping_entry env obj (sle_owner e) (sle_lock e) w with
      | Some _ => w
      | None => try_to_grant_lock found_entry w
      end
  | None => w
  end.

Definition grant_blocked_locks ctx obj w : sal F :=
  if fs_supports ctx fso_lock_support_async_block then w else
  foldl (fun w found_entry => grant_blocked_entry obj found_entry w) w
    (glist (s_lists w) (lock_list obj)).

(** The cookie attached to an entry: [Some] when block data and a cookie
    are present, with the bytes of the cookie. *)
Definition attached_cookie w lock_entry : option (option (list Z)) :=
  match entry_block w lock_entry ≫= fun b => s_blocks w !! b ≫= sbd_blocked_cookie with
  | Some c => Some (sce_cookie <$> s_cookies w !! c)
  | None => None
  end.

(** [state_find_grant] on an attached cookie; a cookie that is no longer
    allocated is not found. *)
Definition find_attached (cookie : option (list Z)) w : option nat * sal F :=
  match cookie with
  | Some bytes => let '(_, c, w) := state_find_grant bytes w in (c, w)
  | None => (None, w)
  end.

Definition grant_blocked_lock_immediate ctx obj lock_entry w : sal F :=
  let granted w :=
    let w := on_entry (set_sle_blocked STATE_NON_BLOCKING) lock_entry w in
    let w := merge_lock_entry env obj lock_entry w in
    grant_blocked_locks ctx obj w in
  match entry_block w lock_entry, attached_cookie w lock_entry with
  | Some _, Some cookie =>
      match find_attached cookie w with
      | (Some c, w) => granted (free_cookie c true w)
      | (None, w) => w
      end
  | Some block, None =>
      granted (on_entry (set_sle_block_data None) lock_entry (upd_blocks (delete block) w))
  | None, _ => granted w
  end.

Definition state_complete_grant ctx (cookie_entry : nat) w : sal F :=
  match s_cookies w !! cookie_entry with
  | Some c =>
      let lock_entry := sce_lock_entry c in
      let obj := sce_obj c in
      let w :=
        if decide ((sle_blocked <$> s_entries w !! lock_entry) = Some STATE_GRANTING)
        then
          let w := on_entry (set_sle_blocked STATE_NON_BLOCKING) lock_entry w in
          let w := merge_lock_entry env obj lock_entry w in
          grant_blocked_locks ctx obj w
        else w in
      free_cookie cookie_entry true w
  | None => w
  end.

(** [obj_ops.put_ref] when the lock list is empty. *)
Definition put_obj_if_empty obj w : sal F :=
  if glist_empty (lock_list obj) (s_lists w) then add_ref (ref_obj obj) (-1) w else w.

Definition state_release_grant ctx (cookie_entry : nat) w : state_status_t * sal F :=
  match s_cookies w !! cookie_entry with
  | Some c =>
      let lock_entry := sce_lock_entry c in
      let obj := sce_obj c in
      let '(status, w) :=
        if decide ((sle_blocked <$> s_entries w !! lock_entry) = Some STATE_GRANTING)
        then
          let w := on_entry (set_sle_blocked STATE_CANCELED) lock_entry w in
          let '(status, w) := do_entry_lock_op ctx obj FSAL_OP_UNLOCK lock_entry w in
          if decide (status <> STATE_SUCCESS) then (status, w)
          else (status, remove_from_locklist lock_entry w)
        else (STATE_SUCCESS, w) in
      let w := free_cookie cookie_entry true w in
      let w := grant_blocked_locks ctx obj w in
      (status, put_obj_if_empty obj w)
  | None => (STATE_SUCCESS, w)
  end.

(** ** Cancelling blocked locks *)

Definition cancel_blocked_lock ctx obj lock_entry w : sal F :=
  let w := on_entry (set_sle_blocked STATE_CANCELED) lock_entry w in
  match attached_cookie w lock_entry with
  | Some cookie =>
      let w :=
        match find_attached cookie w with
        | (Some c, w) => free_cookie c true w
        | (None, w) => w
        end in
      remove_from_locklist lock_entry w
  | None =>
      let '(status, w) := do_entry_lock_op ctx obj FSAL_OP_CANCEL lock_entry w in
      if decide (status <> STATE_SUCCESS) then w
      else remove_from_locklist lock_entry w
  end.

(** The entries [cancel_blocked_locks_range] cancels. *)
Definition cancel_applies (owner : option nat) (state_applies : bool) (state : Z)
    (lock : fsal_lock_param_t) (e : state_lock_entry_t) : bool :=
  negb (bool_decide (is_Some owner) && different_owners (sle_owner e) owner)
  && negb (state_applies
           && match sle_state e with
              | Some s => env_seqid env s =? u32 state
              | None => false
              end)
  && bool_decide (sle_blocked e <> STATE_NON_BLOCKING)
  && ((lock_start lock <=? lock_end (sle_lock e))
      && (lock_start (sle_lock e) <=? lock_end lock)).

Definition cancel_blocked_locks_range ctx obj (owner : option nat)
    (state_applies : bool) (state : Z) (lock : fsal_lock_param_t) w : sal F :=
  foldl (fun w found_entry =>
           match s_entries w !! found_entry with
           | Some e =>
               if cancel_applies owner state_applies state lock e
               then cancel_blocked_lock ctx obj found_entry w else w
           | None => w
           end) w (glist (s_lists w) (lock_list obj)).

(** ** Test, lock, unlock, cancel *)

(** [fsal_open] on the state. *)
Definition sal_fsal_open ctx obj (openflags : Z) w : fsal_status_t * sal F :=
  let '(status, f) := fsal_open ctx obj openflags (s_fsal w) in
  (status, upd_fsal (fun _ => f) w).

Definition state_test ctx obj (state : option nat) (owner : option nat)
    (lock : fsal_lock_param_t) w : state_status_t * lock_out * sal F :=
  let '(fsal_status, w) :=
    if bool_decide (state = None) && negb (support_ex obj)
    then sal_fsal_open ctx obj FSAL_O_READ w
    else (fsalstat ERR_FSAL_NO_ERROR 0, w) in
  if FSAL_IS_ERROR fsal_status then (state_error_convert fsal_status, no_out, w) else
  match get_overlapping_entry env obj owner lock w with
  | Some found_entry =>
      let '(out, w) := copy_conflict found_entry w in
      (STATE_LOCK_CONFLICT, out, w)
  | None => do_lock_op ctx obj state FSAL_OP_LOCKT owner lock true false w
  end.

(** The search of [state_lock] for the blocked request the client is
    polling for: [Some status] when it ends the operation. *)
Fixpoint find_blocked_request ctx (owner : nat) (blocking : state_blocking_t)
    (lock : fsal_lock_param_t) (l : list nat) w : option state_status_t :=
  match l with
  | [] => None
  | x :: l =>
      match s_entries w !! x with
      | Some e =>
          if different_owners (sle_owner e) (Some owner)
          then find_blocked_request ctx owner blocking lock l w else
          if decide (sle_export e <> ctx) then Some STATE_INVALID_ARGUMENT else
          if decide (sle_blocked e <> blocking)
          then find_blocked_request ctx owner blocking lock l w else
          if different_lock (sle_lock e) lock
          then find_blocked_request ctx owner blocking lock l w
          else Some STATE_LOCK_BLOCKED
      | None => find_blocked_request ctx owner blocking lock l w
      end
  end.

(** The scan of the lock list by [state_lock].  [scan_exit]: the
    operation ends with this status; [scan_existing]: the owner already
    has the lock, with this entry; [scan_conflict]: not allowed by this
    entry; [scan_allow]: allowed, with the overlap hint. *)
Inductive scan_result :=
| scan_exit (status : state_status_t)
| scan_existing (found_entry : nat)
| scan_conflict (found_entry : nat)
| scan_allow (overlap : bool).

Definition request_conflicts (owner : nat) (lock : fsal_lock_param_t)
    (e : state_lock_entry_t) : bool :=
  negb (lock_reclaim lock)
  && ((lock_start lock <=? lock_end (sle_lock e))
      && (lock_start (sle_lock e) <=? lock_end lock))
  && ((bool_decide (lock_type (sle_lock e) = FSAL_LOCK_W)
       || bool_decide (lock_type lock = FSAL_LOCK_W))
      && different_owners (sle_owner e) (Some owner)).

Definition entirely_overlaps (lock : fsal_lock_param_t) (e : state_lock_entry_t) : bool :=
  (lock_end lock <=? lock_end (sle_lock e))
  && (lock_start (sle_lock e) <=? lock_start lock)
  && bool_decide (lock_type (sle_lock e) = lock_type lock)
  && (bool_decide (sle_blocked e = STATE_NON_BLOCKING)
      || bool_decide (sle_blocked e = STATE_GRANTING)).

Fixpoint scan_locks ctx (owner : nat) (lock : fsal_lock_param_t)
    (overlap : bool) (l : list nat) w : scan_result :=
  match l with
  | [] => scan_allow overlap
  | x :: l =>
      match s_entries w !! x with
      | Some e =>
          if bool_decide (sle_export e <> ctx)
             && negb (different_owners (sle_owner e) (Some owner))
          then scan_exit STATE_INVALID_ARGUMENT else
          if request_conflicts owner lock e then scan_conflict x else
          if entirely_overlaps lock e then
            if negb (different_owners (sle_owner e) (Some owner))
            then scan_existing x
            else scan_locks ctx owner lock true l w
          else scan_locks ctx owner lock overlap l w
      | None => scan_locks ctx owner lock overlap l w
      end
  end.

(** [state_lock] once the new entry may be placed: from the creation of
    the entry on.  [allow] and [overlap] come from the scan.  A request that
    blocks needs block data: the code writes to it without a test, and the
    branch without is only there to keep the function total ([allowed] of
    LockReach.v asks for it). *)
Definition state_lock_place ctx obj (owner : nat) (state : option nat)
    (blocking : state_blocking_t) (block_data : option nat) (lock : fsal_lock_param_t)
    (op : fsal_lock_op_t) (allow overlap : bool) (out : lock_out) w
    : state_status_t * lock_out * sal F :=
  let '(found_entry, w) :=
    create_state_lock_entry obj ctx STATE_NON_BLOCKING owner state lock w in
  let async := fs_supports ctx fso_lock_support_async_block in
  let '(status, op_out, w) :=
    if allow || async
    then do_lock_op ctx obj state op (Some owner) lock allow overlap w
    else (STATE_LOCK_BLOCKED, no_out, w) in
  let out := if allow then op_out else out in
  match status with
  | STATE_SUCCESS =>
      let w :=
        if glist_empty (lock_list obj) (s_lists w)
        then add_ref (ref_obj obj) 1 w else w in
      let w := merge_lock_entry env obj found_entry w in
      let w := upd_lists (glist_add_tail (lock_list obj) found_entry) w in
      (status, out, grant_blocked_locks ctx obj w)
  | STATE_LOCK_BLOCKED =>
      let w := on_entry (set_sle_block_data block_data) found_entry w in
      let w := on_entry (set_sle_blocked blocking) found_entry w in
      let block_type := if async then STATE_BLOCK_ASYNC
                        else if allow then STATE_BLOCK_POLL
                        else STATE_BLOCK_INTERNAL in
      let w :=
        match block_data with
        | Some b =>
            on_block (fun b => set_sbd_block_type block_type
                                 (set_sbd_lock_entry (Some found_entry) b)) b w
        | None => w
        end in
      let w := upd_lists (glist_add_tail (lock_list obj) found_entry) w in
      let w :=
        match block_data with
        | Some b => upd_blocked (fun l => l ++ [b]) w
        | None => w
        end in
      (status, out, w)
  | _ => (status, out, remove_from_locklist found_entry w)
  end.

Definition state_lock ctx obj (owner : nat) (state : option nat)
    (blocking : state_blocking_t) (block_data : option nat) (lock : fsal_lock_param_t) w
    : state_status_t * lock_out * sal F :=
  let '(fsal_status, w) :=
    if negb (support_ex obj) then
      let openflags :=
        if bool_decide (lock_type lock = FSAL_LOCK_R) && fs_supports ctx fso_reopen_method
        then FSAL_O_READ else FSAL_O_RDWR in
      sal_fsal_open ctx obj openflags w
    else (fsalstat ERR_FSAL_NO_ERROR 0, w) in
  if FSAL_IS_ERROR fsal_status then (state_error_convert fsal_status, no_out, w) else
  let l := glist (s_lists w) (lock_list obj) in
  let polled :=
    if decide (blocking <> STATE_NON_BLOCKING)
    then find_blocked_request ctx owner blocking lock l w else None in
  match polled with
  | Some status => (status, no_out, w)
  | None =>
      match scan_locks ctx owner lock false l w with
      | scan_exit status => (status, no_out, w)
      | scan_existing found_entry =>
          (STATE_SUCCESS, no_out,
            if decide ((sle_blocked <$> s_entries w !! found_entry) = Some STATE_GRANTING)
            then grant_blocked_lock_immediate ctx obj found_entry w else w)
      | scan_conflict found_entry =>
          let '(out, w) := copy_conflict found_entry w in
          if decide (blocking = STATE_NLM_BLOCKING)
          then state_lock_place ctx obj owner state blocking block_data lock
                 FSAL_OP_LOCKB false true out w
          else (STATE_LOCK_CONFLICT, out, w)
      | scan_allow overlap =>
          state_lock_place ctx obj owner state blocking block_data lock
            (if decide (blocking = STATE_NLM_BLOCKING) then FSAL_OP_LOCKB else FSAL_OP_LOCK)
            true overlap no_out w
      end
  end.

Definition state_unlock ctx obj (state : option nat) (owner : option nat)
    (state_applies : bool) (nsm_state : Z) (lock : fsal_lock_param_t) w
    : state_status_t * sal F :=
  if decide (obj_type obj <> REGULAR_FILE) then (STATE_BAD_TYPE, w) else
  if glist_empty (lock_list obj) (s_lists w) then (STATE_SUCCESS, w) else
  let w := cancel_blocked_locks_range ctx obj owner state_applies nsm_state lock w in
  let '(status, _, w) :=
    subtract_lock_from_list env owner state_applies nsm_state lock (lock_list obj) w in
  let w := put_obj_if_empty obj w in
  if decide (status <> STATE_SUCCESS) then (status, w) else
  let '(status, _, w) :=
    do_lock_op ctx obj state FSAL_OP_UNLOCK owner lock false false w in
  (status, grant_blocked_locks ctx obj w).

(** The entry [state_cancel] cancels: the first one that matches. *)
Definition cancel_matches (owner : option nat) (lock : fsal_lock_param_t)
    (e : state_lock_entry_t) : bool :=
  negb (different_owners (sle_owner e) owner)
  && bool_decide (sle_blocked e <> STATE_NON_BLOCKING)
  && negb (different_lock (sle_lock e) lock).

Definition state_cancel ctx obj (owner : option nat) (lock : fsal_lock_param_t) w
    : state_status_t * sal F :=
  if decide (obj_type obj <> REGULAR_FILE) then (STATE_BAD_TYPE, w) else
  match find_entry (cancel_matches owner lock) (glist (s_lists w) (lock_list obj)) w with
  | Some found_entry =>
      let w := cancel_blocked_lock ctx obj found_entry w in
      (STATE_SUCCESS, grant_blocked_locks ctx obj w)
  | None => (STATE_SUCCESS, w)
  end.
End lock_ops.
