(* ===== verification/LockWf.v ===== *)
(** * Well-formedness of the lock manager's state

    The structural invariant of the store of SAL/state_lock.c: which lists
    an entry is on, who holds references to it, and that nothing on a list
    has been freed; and that the primitive operations of LockData.v keep
    it. *)
From S2P Require Import Prelude Status Owners Fsal LockData.

(** ** Lists *)
Section glist_lemmas.
Context `{Countable K}.
Implicit Types (m : gmap K (list nat)) (h : K) (x : nat).

Lemma glist_add_tail_lookup h x m h' :
  glist (glist_add_tail h x m) h' =
  if decide (h' = h) then glist m h ++ [x] else glist m h'.
Proof.
  unfold glist, glist_add_tail. case_decide; subst.
  - by rewrite lookup_insert_eq.
  - by rewrite lookup_insert_ne.
Qed.

Lemma glist_init_lookup h m h' :
  glist (glist_init h m) h' = if decide (h' = h) then [] else glist m h'.
Proof.
  unfold glist, glist_init. case_decide; subst.
  - by rewrite lookup_insert_eq.
  - by rewrite lookup_insert_ne.
Qed.

Lemma glist_del_lookup x m h :
  glist (glist_del x m) h = filter (fun y => y <> x) (glist m h).
Proof. unfold glist, glist_del. rewrite lookup_fmap. by destruct (m !! h). Qed.

Lemma glist_add_list_tail_lookup h elt m h' :
  h <> elt ->
  glist (glist_add_list_tail h elt m) h' =
  if decide (h' = h) then glist m h ++ glist m elt
  else if decide (h' = elt) then [] else glist m h'.
Proof.
  intros Hne. unfold glist_add_list_tail.
  unfold glist at 1. case_decide; subst.
  { by rewrite lookup_insert_eq. }
  rewrite lookup_insert_ne by done. case_decide; subst.
  - by rewrite lookup_insert_eq.
  - by rewrite lookup_insert_ne.
Qed.

Lemma elem_of_glist_del x m h y :
  y ∈ glist (glist_del x m) h <-> y <> x /\ y ∈ glist m h.
Proof. by rewrite glist_del_lookup, list_elem_of_filter. Qed.

Lemma elem_of_glist_add_tail h x m h' y :
  y ∈ glist (glist_add_tail h x m) h' <-> y ∈ glist m h' \/ (h' = h /\ y = x).
Proof.
  rewrite glist_add_tail_lookup. case_decide; subst.
  - rewrite elem_of_app, list_elem_of_singleton. naive_solver.
  - naive_solver.
Qed.

Lemma glist_del_not_in x m h : x ∉ glist m h -> glist (glist_del x m) h = glist m h.
Proof.
  intros Hx. rewrite glist_del_lookup. induction (glist m h) as [|y l IH]; [done|].
  rewrite not_elem_of_cons in Hx. rewrite filter_cons_True by naive_solver.
  f_equal. naive_solver.
Qed.
End glist_lemmas.

Lemma filter_app_cons_ne (pre post : list nat) c :
  NoDup (pre ++ c :: post) -> filter (fun y => y <> c) (pre ++ c :: post) = pre ++ post.
Proof.
  intros (_ & Hd & [Hc _]%NoDup_cons)%NoDup_app.
  assert (forall l : list nat, c ∉ l -> filter (fun y => y <> c) l = l) as Hf.
  { induction l as [|y l IH]; [done|]. rewrite not_elem_of_cons. intros [??].
    rewrite filter_cons_True by done. by rewrite IH. }
  rewrite filter_app, filter_cons_False by tauto. rewrite !Hf; auto.
  intros Hp. apply (Hd c Hp). by left.
Qed.

(** ** Lists of entries: what is linked is alive, and linked once *)

Definition lists_ok (m : gmap sle_head (list nat)) (es : gmap nat state_lock_entry_t) : Prop :=
  (forall h id, id ∈ glist m h ->
     exists e, es !! id = Some e /\ is_Some (sle_owner e) /\
               forall f, h = lock_list f -> sle_obj e = f) /\
  (forall h, NoDup (glist m h)) /\
  (forall h1 h2 id, id ∈ glist m h1 -> id ∈ glist m h2 -> h1 = h2).

Definition on_no_list (m : gmap sle_head (list nat)) (id : nat) : Prop :=
  forall h, id ∉ glist m h.

Section lists_ok.
Implicit Types (m : gmap sle_head (list nat)) (es : gmap nat state_lock_entry_t).

(** Only the entries on lists matter, and of those only owner and file. *)
Lemma lists_ok_entries m es es' :
  lists_ok m es ->
  (forall h id e, id ∈ glist m h -> es !! id = Some e -> is_Some (sle_owner e) ->
     exists e', es' !! id = Some e' /\ is_Some (sle_owner e') /\ sle_obj e' = sle_obj e) ->
  lists_ok m es'.
Proof.
  intros (Hl & Hn & Hd) Hes. split_and!; try done.
  intros h id Hin. destruct (Hl h id Hin) as (e & He & Ho & Hf).
  destruct (Hes h id e Hin He Ho) as (e' & He' & Ho' & Hobj).
  exists e'. split_and!; try done. intros f ->. rewrite Hobj. by apply Hf.
Qed.

Lemma lists_ok_sub m m' es :
  lists_ok m es ->
  (forall h, sublist (glist m' h) (glist m h)) ->
  lists_ok m' es.
Proof.
  intros (Hl & Hn & Hd) Hsub.
  assert (forall h id, id ∈ glist m' h -> id ∈ glist m h) as Hin.
  { intros h id Hin. by eapply elem_of_sublist. }
  split_and!; eauto.
  intros h. eapply sublist_NoDup; eauto.
Qed.

Lemma lists_ok_del m es x :
  lists_ok m es -> lists_ok (glist_del x m) es.
Proof.
  intros Hok. eapply lists_ok_sub; [done|]. intros h. rewrite glist_del_lookup.
  apply sublist_filter.
Qed.

Lemma glist_del_on_no_list m x : on_no_list (glist_del x m) x.
Proof. intros h. rewrite elem_of_glist_del. naive_solver. Qed.

Lemma lists_ok_init m es h : lists_ok m es -> lists_ok (glist_init h m) es.
Proof.
  intros Hok. eapply lists_ok_sub; [done|]. intros h'. rewrite glist_init_lookup.
  case_decide; subst; [apply sublist_nil_l | reflexivity].
Qed.

Lemma lists_ok_add_tail m es h x e :
  lists_ok m es -> on_no_list m x -> es !! x = Some e -> is_Some (sle_owner e) ->
  (forall f, h = lock_list f -> sle_obj e = f) ->
  lists_ok (glist_add_tail h x m) es.
Proof.
  intros (Hl & Hn & Hd) Hno He Ho Hf. split_and!.
  - intros h' id. rewrite elem_of_glist_add_tail. intros [Hin|[-> ->]]; [by apply Hl|].
    eauto.
  - intros h'. rewrite glist_add_tail_lookup. case_decide; [|done].
    subst. apply NoDup_app. split_and!; [done| |apply NoDup_singleton].
    intros y Hy. rewrite list_elem_of_singleton. intros ->. by apply (Hno h).
  - intros h1 h2 id. rewrite !elem_of_glist_add_tail.
    intros [H1|[-> ->]] [H2|[-> E]]; subst; eauto; exfalso; by eapply Hno.
Qed.

Lemma lists_ok_add_list_tail m es h elt :
  h <> elt -> lists_ok m es ->
  (forall f id e, h = lock_list f -> id ∈ glist m elt -> es !! id = Some e -> sle_obj e = f) ->
  lists_ok (glist_add_list_tail h elt m) es.
Proof.
  intros Hne (Hl & Hn & Hd) Hf.
  assert (forall h' id, id ∈ glist (glist_add_list_tail h elt m) h' ->
            (id ∈ glist m h' /\ h' <> elt) \/ (h' = h /\ id ∈ glist m elt)) as Hin.
  { intros h' id. rewrite glist_add_list_tail_lookup by done.
    case_decide; [subst; rewrite elem_of_app; naive_solver|].
    case_decide; [rewrite elem_of_nil|]; naive_solver. }
  split_and!.
  - intros h' id [[H1 _]|[-> H1]]%Hin; [by apply Hl|].
    destruct (Hl _ _ H1) as (e & He & Ho & _). eauto 10.
  - intros h'. rewrite glist_add_list_tail_lookup by done.
    case_decide; [|case_decide; [constructor|done]].
    apply NoDup_app. split_and!; try done. intros id H1 H2. apply Hne. eauto.
  - intros h1 h2 id [[H1 N1]|[-> H1]]%Hin [[H2 N2]|[-> H2]]%Hin; eauto.
    + exfalso. apply N1. eauto.
    + exfalso. apply N2. eauto.
Qed.
End lists_ok.

(** ** Lists kept per owner, client, export and state

    Such a list holds exactly the entries whose key is its head. *)
Definition tracks (key : state_lock_entry_t -> option nat) (m : gmap nat (list nat))
    (es : gmap nat state_lock_entry_t) : Prop :=
  forall k id, id ∈ glist m k <-> exists e, es !! id = Some e /\ key e = Some k.

Section tracks.
Context (key : state_lock_entry_t -> option nat).
Implicit Types (m : gmap nat (list nat)) (es : gmap nat state_lock_entry_t).

Lemma tracks_insert m m' es id e' :
  tracks key m es ->
  (forall k id', id' <> id -> id' ∈ glist m' k <-> id' ∈ glist m k) ->
  (forall k, id ∈ glist m' k <-> key e' = Some k) ->
  tracks key m' (<[id := e']> es).
Proof.
  intros Ht Hother Hid k id'. destruct (decide (id' = id)) as [->|Hne].
  - rewrite lookup_insert_eq, Hid. split; [eauto|].
    intros (e & [= <-] & ?). done.
  - rewrite lookup_insert_ne by done. rewrite Hother by done. apply Ht.
Qed.

Lemma tracks_absent m es id k :
  tracks key m es -> (forall e, es !! id = Some e -> key e <> Some k) -> id ∉ glist m k.
Proof. intros Ht Hn (e & He & Hk)%Ht. by eapply Hn. Qed.

Lemma tracks_new m es id e k :
  tracks key m es -> es !! id = None -> key e = Some k ->
  tracks key (glist_add_tail k id m) (<[id := e]> es).
Proof.
  intros Ht Hn Hk. eapply tracks_insert; [done|..].
  - intros k' id' Hne. rewrite elem_of_glist_add_tail. split; [|auto].
    intros [?|[_ ?]]; done.
  - intros k'. rewrite elem_of_glist_add_tail, Hk. split.
    + intros [Hin|[-> _]]; [|done]. exfalso.
      eapply tracks_absent; [done| |done]. congruence.
    + intros [= ->]. auto.
Qed.

Lemma tracks_update m es id e e' :
  tracks key m es -> es !! id = Some e -> key e' = key e ->
  tracks key m (<[id := e']> es).
Proof.
  intros Ht He Hk. eapply tracks_insert; [done..|].
  intros k. rewrite Hk, (Ht k id). split; [|eauto].
  intros (e0 & ? & ?). congruence.
Qed.

Lemma tracks_new_none m es id e :
  tracks key m es -> es !! id = None -> key e = None -> tracks key m (<[id := e]> es).
Proof.
  intros Ht He Hk. eapply tracks_insert; [done..|].
  intros k. rewrite Hk, (Ht k id). split; [|done].
  intros (e0 & ? & ?). congruence.
Qed.

Lemma tracks_del m es id e' :
  tracks key m es -> key e' = None ->
  tracks key (glist_del id m) (<[id := e']> es).
Proof.
  intros Ht Hk. eapply tracks_insert; [done|..].
  - intros k id' Hne. rewrite elem_of_glist_del. by split; [intros [_ ?]|].
  - intros k. rewrite elem_of_glist_del, Hk. split; [by intros []|done].
Qed.

Lemma tracks_delete m es id e :
  tracks key m es -> es !! id = Some e -> key e = None -> tracks key m (delete id es).
Proof.
  intros Ht He Hk k id'. rewrite (Ht k id').
  destruct (decide (id' = id)) as [->|Hne].
  - rewrite lookup_delete_eq. split; intros (e0 & ? & ?); congruence.
  - by rewrite lookup_delete_ne.
Qed.
End tracks.

(** ** References to entries *)

(** The number of grant cookies that point to an entry. *)
Definition cookies_of (cs : gmap nat state_cookie_entry_t) (id : nat) : Z :=
  Z.of_nat (size (filter (fun p : nat * state_cookie_entry_t => sce_lock_entry p.2 = id) cs)).

Lemma cookies_of_insert cs c ce id :
  cs !! c = None ->
  cookies_of (<[c := ce]> cs) id =
  cookies_of cs id + (if decide (sce_lock_entry ce = id) then 1 else 0).
Proof.
  intros Hc. unfold cookies_of. case_decide as E.
  - rewrite map_filter_insert_True by done. rewrite map_size_insert_None; [lia|].
    rewrite map_lookup_filter_None. by left.
  - rewrite map_filter_insert_False by done. rewrite delete_id by done. lia.
Qed.

Lemma cookies_of_delete cs c ce id :
  cs !! c = Some ce ->
  cookies_of (delete c cs) id =
  cookies_of cs id - (if decide (sce_lock_entry ce = id) then 1 else 0).
Proof.
  intros Hc. rewrite <- (insert_delete_id cs c ce) at 2 by done.
  rewrite cookies_of_insert by apply lookup_delete_eq. lia.
Qed.

Lemma cookies_of_pos cs c ce : cs !! c = Some ce -> 1 <= cookies_of cs (sce_lock_entry ce).
Proof.
  intros Hc. pose proof (cookies_of_delete cs c ce (sce_lock_entry ce) Hc) as E.
  rewrite decide_True in E by done. unfold cookies_of in *. lia.
Qed.

Lemma cookies_of_nonneg cs id : 0 <= cookies_of cs id.
Proof. unfold cookies_of. lia. Qed.

(** The reference the lists hold. *)
Definition own_ref (e : state_lock_entry_t) : Z :=
  match sle_owner e with Some _ => 1 | None => 0 end.

(** References counted beside those of the lists and cookies, such as the
    one a running operation holds. *)
Definition add_at (x : nat -> Z) (id : nat) (n : Z) : nat -> Z :=
  fun j => if decide (j = id) then x j + n else x j.

(** The count covers the references, and has not grown beyond the number
    of allocations, [next]. *)
Definition refs_ok (x : nat -> Z) (es : gmap nat state_lock_entry_t)
    (cs : gmap nat state_cookie_entry_t) (next : nat) : Prop :=
  (forall id e, es !! id = Some e ->
     own_ref e + cookies_of cs id + x id <= sle_ref_count e <= Z.of_nat next + x id) /\
  (forall c ce, cs !! c = Some ce -> is_Some (es !! sce_lock_entry ce)) /\
  (forall id, 0 <= x id <= 4) /\
  (forall id, 0 < x id -> is_Some (es !! id)).

(** A range that does not run over the end of the offset space. *)
Definition lock_ok (l : fsal_lock_param_t) : Prop :=
  0 <= lock_start l /\ 0 <= lock_length l /\
  lock_start l <= UINT64_MAX /\ lock_start l + lock_length l <= UINT64_MAX + 1.

Lemma lock_end_spec l :
  lock_ok l ->
  lock_start l <= lock_end l <= UINT64_MAX /\
  lock_end l = (if lock_length l =? 0 then UINT64_MAX else lock_start l + lock_length l - 1).
Proof.
  intros (H1 & H2 & H3 & H4). unfold lock_end.
  destruct (Z.eqb_spec (lock_length l) 0); [lia|].
  destruct (decide (lock_start l + lock_length l = UINT64_MAX + 1)) as [E|].
  - rewrite E. change (u64 (u64 (UINT64_MAX + 1) - 1)) with UINT64_MAX. lia.
  - rewrite (u64_small (lock_start l + lock_length l)) by (unfold is_u64; lia).
    rewrite u64_small by (unfold is_u64; lia). lia.
Qed.

Section wf.
Context {F : Type} (env : sal_env).
Implicit Types (w : sal F) (x : nat -> Z).

(** The heads an entry is linked from, besides that of its file. *)
Definition client_key (e : state_lock_entry_t) : option nat :=
  sle_owner e ≫= fun o => if owner_is_nlm env o then owner_nsm_client env o else None.
Definition export_key (e : state_lock_entry_t) : option nat :=
  sle_owner e ≫= fun _ => Some (sle_export e).
Definition state_key (e : state_lock_entry_t) : option nat :=
  sle_owner e ≫= fun _ => sle_state e.

(** The invariant; [x] counts the references held by running operations. *)
Record wf_with x w : Prop := {
  wf_lists : lists_ok (s_lists w) (s_entries w);
  wf_owners : tracks sle_owner (s_owner_locks w) (s_entries w);
  wf_clients : tracks client_key (s_client_locks w) (s_entries w);
  wf_exports : tracks export_key (s_export_locks w) (s_entries w);
  wf_states : tracks state_key (s_state_locks w) (s_entries w);
  wf_next : forall id, is_Some (s_entries w !! id) -> (id < s_next w)%nat;
  wf_cookie_next : forall c, is_Some (s_cookies w !! c) -> (c < s_next w)%nat;
  wf_ranges : forall id e, s_entries w !! id = Some e -> lock_ok (sle_lock e);
  wf_refs : refs_ok x (s_entries w) (s_cookies w) (s_next w);
  wf_blocks : forall id e b, s_entries w !! id = Some e -> sle_block_data e = Some b ->
    exists bl, s_blocks w !! b = Some bl /\ sbd_lock_entry bl = Some id
}.

Definition wf w : Prop := wf_with (fun _ => 0) w.

(** Few enough allocations that no 32 bit reference count has wrapped. *)
Definition bounded w : Prop := Z.of_nat (s_next w) < 2147483640.

Lemma wf_ext x x' w : (forall j, x j = x' j) -> wf_with x w -> wf_with x' w.
Proof.
  intros E [? ? ? ? ? ? ? ? (R1 & R2 & R3 & R4) ?]. constructor; try done.
  split_and!; intros; rewrite <- ?E in *; eauto.
Qed.

(** An update of an entry that leaves its owner, file, export, state and
    block data alone and keeps its range well formed. *)
Definition same_links (e e' : state_lock_entry_t) : Prop :=
  sle_owner e' = sle_owner e /\ sle_obj e' = sle_obj e /\ sle_export e' = sle_export e /\
  sle_state e' = sle_state e /\ sle_block_data e' = sle_block_data e.

Lemma same_links_keys e e' :
  same_links e e' ->
  client_key e' = client_key e /\ export_key e' = export_key e /\ state_key e' = state_key e.
Proof.
  intros (E1 & E2 & E3 & E4 & E5). unfold client_key, export_key, state_key.
  by rewrite E1, E3, E4.
Qed.

Lemma wf_update_entry x w id e e' :
  wf_with x w -> s_entries w !! id = Some e -> same_links e e' ->
  sle_ref_count e' = sle_ref_count e -> lock_ok (sle_lock e') ->
  wf_with x (upd_entries <[id := e']> w).
Proof.
  intros [Hl Ho Hc Hx Hs Hn Hcn Hr (R1 & R2 & R3 & R4) Hb] He Hk Href Hok.
  destruct (same_links_keys _ _ Hk) as (K1 & K2 & K3).
  destruct Hk as (E1 & E2 & E3 & E4 & E5).
  assert (forall j, is_Some (<[id := e']> (s_entries w) !! j) <-> is_Some (s_entries w !! j))
    as Hsome.
  { intros j. destruct (decide (j = id)) as [->|];
      [rewrite lookup_insert_eq, He | rewrite lookup_insert_ne by done]; done. }
  assert (forall j e0, <[id := e']> (s_entries w) !! j = Some e0 ->
            (j = id /\ e0 = e') \/ s_entries w !! j = Some e0) as Hcase.
  { intros j e0. destruct (decide (j = id)) as [->|].
    - rewrite lookup_insert_eq. intros [= <-]. by left.
    - rewrite lookup_insert_ne by done. by right. }
  constructor; simpl; try done.
  - eapply lists_ok_entries; [done|]. intros h j e0 _ He0 Ho0.
    destruct (decide (j = id)) as [->|].
    + rewrite lookup_insert_eq. exists e'. split_and!; congruence.
    + rewrite lookup_insert_ne by done. eauto.
  - by eapply tracks_update.
  - by eapply tracks_update.
  - by eapply tracks_update.
  - by eapply tracks_update.
  - intros j. rewrite Hsome. apply Hn.
  - intros j e0 [[-> ->]|?]%Hcase; eauto.
  - split_and!; try done.
    + intros j e0 [[-> ->]|?]%Hcase; [|eauto].
      unfold own_ref. rewrite Href, E1. apply (R1 id e He).
    + intros. rewrite Hsome. eauto.
    + intros. rewrite Hsome. eauto.
  - intros j e0 b [[-> ->]|?]%Hcase; [|eauto]. rewrite E5. eauto.
Qed.

(** The invariant does not look at the rest of the state. *)
Lemma wf_same x w w' :
  s_entries w' = s_entries w -> s_cookies w' = s_cookies w -> s_next w' = s_next w ->
  s_lists w' = s_lists w -> s_owner_locks w' = s_owner_locks w ->
  s_client_locks w' = s_client_locks w -> s_export_locks w' = s_export_locks w ->
  s_state_locks w' = s_state_locks w -> s_blocks w' = s_blocks w ->
  wf_with x w -> wf_with x w'.
Proof.
  intros E1 E2 E3 E4 E5 E6 E7 E8 E9 [].
  constructor; rewrite ?E1, ?E2, ?E3, ?E4, ?E5, ?E6, ?E7, ?E8, ?E9; assumption.
Qed.

Lemma alter_is_insert (f : state_lock_entry_t -> state_lock_entry_t)
    (es : gmap nat state_lock_entry_t) id e :
  es !! id = Some e -> alter f id es = <[id := f e]> es.
Proof.
  intros He. apply map_eq. intros j. destruct (decide (j = id)) as [->|].
  - by rewrite lookup_alter_eq, lookup_insert_eq, He.
  - by rewrite lookup_alter_ne, lookup_insert_ne.
Qed.

Lemma alter_dead (f : state_lock_entry_t -> state_lock_entry_t)
    (es : gmap nat state_lock_entry_t) id :
  es !! id = None -> alter f id es = es.
Proof.
  intros He. apply map_eq. intros j. destruct (decide (j = id)) as [->|].
  - by rewrite lookup_alter_eq, He.
  - by rewrite lookup_alter_ne.
Qed.

Lemma wf_on_entry x w f id :
  wf_with x w ->
  (forall e, s_entries w !! id = Some e ->
     same_links e (f e) /\ sle_ref_count (f e) = sle_ref_count e /\ lock_ok (sle_lock (f e))) ->
  wf_with x (on_entry f id w).
Proof.
  intros Hwf Hf. unfold on_entry. destruct (s_entries w !! id) as [e|] eqn:He.
  - destruct (Hf e eq_refl) as (Hk & Hr & Hok).
    eapply wf_same; [| | | | | | | | |by eapply wf_update_entry]; try reflexivity.
    simpl. by apply alter_is_insert.
  - eapply wf_same; [..|done]; try reflexivity. simpl. by apply alter_dead.
Qed.

Lemma wf_upd_lists x w f :
  wf_with x w -> lists_ok (f (s_lists w)) (s_entries w) -> wf_with x (upd_lists f w).
Proof. intros [] Hl. by constructor. Qed.

Lemma wf_fresh x w : wf_with x w -> s_entries w !! s_next w = None.
Proof.
  intros Hwf. destruct (s_entries w !! s_next w) eqn:E; [|done].
  pose proof (wf_next x w Hwf (s_next w) ltac:(by eexists)). lia.
Qed.

Lemma wf_fresh_list x w : wf_with x w -> on_no_list (s_lists w) (s_next w).
Proof.
  intros Hwf h Hin. destruct (wf_lists x w Hwf) as (Hl & _).
  destruct (Hl _ _ Hin) as (e & He & _). by rewrite (wf_fresh x w Hwf) in He.
Qed.

(** A freshly created entry. *)
Definition new_entry_of (obj export : nat) blocked (owner : nat) state lock :=
  mk_entry export obj None (Some owner) state blocked 1 lock.

Lemma create_spec obj export blocked owner state lock w :
  exists w', create_state_lock_entry env obj export blocked owner state lock w
             = (s_next w, w') /\
  s_entries w' = <[s_next w := new_entry_of obj export blocked owner state lock]> (s_entries w) /\
  s_next w' = S (s_next w) /\ s_lists w' = s_lists w /\ s_cookies w' = s_cookies w /\
  s_blocks w' = s_blocks w /\ s_ht_cookies w' = s_ht_cookies w /\
  s_blocked w' = s_blocked w /\ s_async w' = s_async w /\ s_fsal w' = s_fsal w /\
  s_granted_cookie w' = s_granted_cookie w.
Proof.
  unfold create_state_lock_entry. eexists. split; [reflexivity|].
  destruct (owner_is_nlm env owner), (owner_nsm_client env owner), state;
    split_and!; reflexivity.
Qed.

Lemma tracks_new_key (key : state_lock_entry_t -> option nat) m es id e :
  tracks key m es -> es !! id = None ->
  tracks key (match key e with Some k => glist_add_tail k id m | None => m end)
    (<[id := e]> es).
Proof.
  intros Ht Hn. destruct (key e) eqn:E; [by apply tracks_new | by apply tracks_new_none].
Qed.

Lemma refs_ok_new x es cs next e :
  refs_ok x es cs next -> es !! next = None -> sle_ref_count e = 1 ->
  (forall id, is_Some (es !! id) -> (id < next)%nat) ->
  refs_ok x (<[next := e]> es) cs (S next).
Proof.
  intros (R1 & R2 & R3 & R4) Hn He Hlt.
  assert (forall j, is_Some (es !! j) -> is_Some (<[next := e]> es !! j)) as Hmono.
  { intros j. destruct (decide (j = next)) as [->|];
      [rewrite lookup_insert_eq | rewrite lookup_insert_ne by done]; eauto. }
  split_and!; eauto.
  intros j e0. destruct (decide (j = next)) as [->|].
  - rewrite lookup_insert_eq. intros [= <-]. rewrite He.
    assert (x next = 0) as ->.
    { specialize (R3 next). destruct (decide (0 < x next)) as [H|]; [|lia].
      apply R4 in H. rewrite Hn in H. by destruct H. }
    assert (cookies_of cs next = 0) as ->.
    { unfold cookies_of. rewrite (proj2 (map_empty_filter _ _)); [done|].
      intros c ce Hc Heq. simpl in Heq. destruct (R2 c ce Hc) as [? E].
      rewrite Heq, Hn in E. done. }
    unfold own_ref. destruct (sle_owner e); lia.
  - rewrite lookup_insert_ne by done. intros H0. specialize (R1 j e0 H0). lia.
Qed.

Lemma wf_create x w obj export blocked owner state lock :
  wf_with x w -> lock_ok lock ->
  wf_with x (create_state_lock_entry env obj export blocked owner state lock w).2.
Proof.
  intros Hwf Hok. pose proof (wf_fresh x w Hwf) as Hn.
  destruct Hwf as [Hl Ho Hc Hx Hs Hnx Hcn Hr Hrefs Hb].
  set (e := new_entry_of obj export blocked owner state lock).
  set (w' := (create_state_lock_entry env obj export blocked owner state lock w).2).
  assert (s_owner_locks w' = glist_add_tail owner (s_next w) (s_owner_locks w) /\
          s_export_locks w' = glist_add_tail export (s_next w) (s_export_locks w) /\
          s_client_locks w' = match client_key e with
                              | Some k => glist_add_tail k (s_next w) (s_client_locks w)
                              | None => s_client_locks w end /\
          s_state_locks w' = match state_key e with
                             | Some k => glist_add_tail k (s_next w) (s_state_locks w)
                             | None => s_state_locks w end) as (T1 & T2 & T3 & T4).
  { subst w' e. unfold create_state_lock_entry, client_key, state_key. simpl.
    destruct (owner_is_nlm env owner), (owner_nsm_client env owner), state;
      split_and!; reflexivity. }
  destruct (create_spec obj export blocked owner state lock w)
    as (w1 & E & E1 & E2 & E3 & E4 & E5 & _).
  fold e in E1. assert (w1 = w') as -> by (subst w'; by rewrite E).
  assert (forall j e0, <[s_next w := e]> (s_entries w) !! j = Some e0 ->
            (j = s_next w /\ e0 = e) \/ (j <> s_next w /\ s_entries w !! j = Some e0)) as Hcase.
  { intros j e0. destruct (decide (j = s_next w)) as [->|].
    - rewrite lookup_insert_eq. intros [= <-]. by left.
    - rewrite lookup_insert_ne by done. by right. }
  constructor; rewrite ?E1, ?E2, ?E3, ?E4, ?E5, ?T1, ?T2, ?T3, ?T4.
  - eapply lists_ok_entries; [done|]. intros h j e0 _ He0 Ho0.
    rewrite lookup_insert_ne by congruence. eauto.
  - by apply tracks_new.
  - by apply tracks_new_key.
  - by apply tracks_new.
  - by apply tracks_new_key.
  - intros j [e0 [[-> _]|[_ He]]%Hcase]; [lia|].
    pose proof (Hnx j ltac:(by eexists)). lia.
  - intros c Hsc. specialize (Hcn c Hsc). lia.
  - intros j e0 [[-> ->]|[_ ?]]%Hcase; [done|eauto].
  - by apply refs_ok_new.
  - intros j e0 b [[-> ->]|[_ ?]]%Hcase; [done|eauto].
Qed.

(** *** Reference counts *)

Lemma add_at_eq x id n : add_at x id n id = x id + n.
Proof. unfold add_at. by rewrite decide_True. Qed.

Lemma add_at_ne x id n j : j <> id -> add_at x id n j = x j.
Proof. intros. unfold add_at. by rewrite decide_False. Qed.

Lemma add_at_cancel x id n j : add_at (add_at x id n) id (- n) j = x j.
Proof. unfold add_at. case_decide; lia. Qed.

Lemma insert_is_Some (es : gmap nat state_lock_entry_t) id e e' j :
  es !! id = Some e -> is_Some (<[id := e']> es !! j) <-> is_Some (es !! j).
Proof.
  intros He. destruct (decide (j = id)) as [->|].
  - rewrite lookup_insert_eq, He. done.
  - by rewrite lookup_insert_ne.
Qed.

Lemma insert_case (es : gmap nat state_lock_entry_t) id e' j e0 :
  <[id := e']> es !! j = Some e0 ->
  (j = id /\ e0 = e') \/ (j <> id /\ es !! j = Some e0).
Proof.
  destruct (decide (j = id)) as [->|].
  - rewrite lookup_insert_eq. intros [= <-]. by left.
  - rewrite lookup_insert_ne by done. by right.
Qed.

Lemma refs_ok_set x es cs next id e e' d :
  refs_ok x es cs next -> es !! id = Some e ->
  own_ref e' + d + cookies_of cs id + x id <= sle_ref_count e' <= Z.of_nat next + (x id + d) ->
  0 <= x id + d <= 4 ->
  refs_ok (add_at x id d) (<[id := e']> es) cs next.
Proof.
  intros (R1 & R2 & R3 & R4) He Hn Hx. split_and!.
  - intros j e0 [[-> ->]|[Hne He0]]%insert_case.
    + rewrite add_at_eq. lia.
    + rewrite add_at_ne by done. by apply R1.
  - intros c ce Hc. rewrite (insert_is_Some es id e) by done. eauto.
  - intros j. destruct (decide (j = id)) as [->|]; [rewrite add_at_eq|rewrite add_at_ne]; auto.
  - intros j Hj. rewrite (insert_is_Some es id e) by done.
    destruct (decide (j = id)) as [->|]; [by eexists|]. rewrite add_at_ne in Hj by done. auto.
Qed.

Lemma wf_set_ref x w id e n d :
  wf_with x w -> s_entries w !! id = Some e ->
  own_ref e + d + cookies_of (s_cookies w) id + x id <= n <= Z.of_nat (s_next w) + (x id + d) ->
  0 <= x id + d <= 4 ->
  wf_with (add_at x id d) (on_entry (set_sle_ref_count n) id w).
Proof.
  intros Hwf He Hn Hx.
  pose proof Hwf as [Hl Ho Hc Hxp Hs Hnx Hcn Hr Hrefs Hb].
  constructor; simpl; rewrite ?(alter_is_insert _ _ _ _ He).
  - eapply lists_ok_entries; [done|]. intros h j e0 _ He0 Ho0.
    destruct (decide (j = id)) as [->|].
    + rewrite lookup_insert_eq. rewrite He in He0. injection He0 as <-. eauto.
    + rewrite lookup_insert_ne by done. eauto.
  - by eapply tracks_update.
  - by eapply tracks_update.
  - by eapply tracks_update.
  - by eapply tracks_update.
  - intros j. rewrite (insert_is_Some _ id e) by done. auto.
  - auto.
  - intros j e0 [[-> ->]|[_ ?]]%insert_case; simpl; eauto.
  - by eapply refs_ok_set.
  - intros j e0 b [[-> ->]|[_ ?]]%insert_case; simpl; eauto.
Qed.

Lemma wf_inc_ref x w id e :
  wf_with x w -> bounded w -> s_entries w !! id = Some e -> x id <= 3 ->
  wf_with (add_at x id 1) (lock_entry_inc_ref id w).
Proof.
  intros Hwf Hbd He Hx. unfold lock_entry_inc_ref.
  destruct (wf_refs x w Hwf) as (R1 & _ & R3 & _).
  specialize (R1 id e He). specialize (R3 id). unfold bounded in Hbd.
  pose proof (cookies_of_nonneg (s_cookies w) id).
  assert (0 <= own_ref e) by (unfold own_ref; destruct (sle_owner e); lia).
  assert (s32 (sle_ref_count e + 1) = sle_ref_count e + 1) as Hs by (apply s32_small; lia).
  eapply wf_same; [..|eapply (wf_set_ref x w id e (sle_ref_count e + 1) 1)]; try done; try lia.
  simpl. rewrite !(alter_is_insert _ _ _ _ He). by rewrite Hs.
Qed.

Lemma refs_ok_delete x es cs next id :
  refs_ok x es cs next -> x id = 1 -> cookies_of cs id = 0 ->
  refs_ok (add_at x id (-1)) (delete id es) cs next.
Proof.
  intros (R1 & R2 & R3 & R4) Hx Hc. split_and!.
  - intros j e0. destruct (decide (j = id)) as [->|]; [by rewrite lookup_delete_eq|].
    rewrite lookup_delete_ne, add_at_ne by done. auto.
  - intros c ce Hce. assert (sce_lock_entry ce <> id).
    { intros <-. pose proof (cookies_of_pos _ _ _ Hce). lia. }
    rewrite lookup_delete_ne by done. eauto.
  - intros j. destruct (decide (j = id)) as [->|]; [rewrite add_at_eq; lia|].
    rewrite add_at_ne; auto.
  - intros j. destruct (decide (j = id)) as [->|]; [rewrite add_at_eq; lia|].
    rewrite add_at_ne, lookup_delete_ne by done. auto.
Qed.

Lemma wf_free_entry x w id e :
  wf_with x w -> s_entries w !! id = Some e ->
  sle_owner e = None -> cookies_of (s_cookies w) id = 0 -> x id = 1 ->
  wf_with (add_at x id (-1))
    (upd_entries (delete id)
       match sle_block_data e with
       | Some b => upd_blocks (delete b) w
       | None => w
       end).
Proof.
  intros [Hl Ho Hc Hxp Hs Hnx Hcn Hr Hrefs Hb] He Hown Hck Hx.
  set (w1 := match sle_block_data e with Some b => _ | None => _ end).
  assert (s_entries w1 = s_entries w /\ s_cookies w1 = s_cookies w /\ s_next w1 = s_next w /\
          s_lists w1 = s_lists w /\ s_owner_locks w1 = s_owner_locks w /\
          s_client_locks w1 = s_client_locks w /\ s_export_locks w1 = s_export_locks w /\
          s_state_locks w1 = s_state_locks w) as (E1&E2&E3&E4&E5&E6&E7&E8)
    by (subst w1; destruct (sle_block_data e); done).
  assert (forall j e0, delete id (s_entries w) !! j = Some e0 ->
            j <> id /\ s_entries w !! j = Some e0) as Hcase
    by (intros j e0 ?%lookup_delete_Some; naive_solver).
  constructor; simpl; rewrite ?E1, ?E2, ?E3, ?E4, ?E5, ?E6, ?E7, ?E8.
  - eapply lists_ok_entries; [done|]. intros h j e0 Hin He0 Ho0.
    assert (j <> id) by (intros ->; rewrite He in He0; injection He0 as <-;
                         rewrite Hown in Ho0; by destruct Ho0).
    rewrite lookup_delete_ne by done. eauto.
  - by eapply tracks_delete.
  - eapply tracks_delete; [done..|]. unfold client_key. by rewrite Hown.
  - eapply tracks_delete; [done..|]. unfold export_key. by rewrite Hown.
  - eapply tracks_delete; [done..|]. unfold state_key. by rewrite Hown.
  - intros j [e0 [_ ?]%Hcase]. apply Hnx. by eexists.
  - auto.
  - intros j e0 [_ ?]%Hcase. eauto.
  - by apply refs_ok_delete.
  - intros j e0 b [Hne He0]%Hcase Hb0. destruct (Hb j e0 b He0 Hb0) as (bl & Hbl & Hle).
    exists bl. split; [|done]. subst w1. destruct (sle_block_data e) as [b'|] eqn:Eb; [|done].
    simpl. destruct (Hb id e b' He Eb) as (bl' & Hbl' & Hle').
    rewrite lookup_delete_ne; [done|]. intros ->. rewrite Hbl' in Hbl. congruence.
Qed.

Lemma wf_dec_ref x w id e :
  wf_with x w -> bounded w -> s_entries w !! id = Some e -> 1 <= x id ->
  wf_with (add_at x id (-1)) (lock_entry_dec_ref id w).
Proof.
  intros Hwf Hbd He Hx. unfold lock_entry_dec_ref. rewrite He.
  destruct (wf_refs x w Hwf) as (R1 & _ & R3 & _).
  specialize (R1 id e He). specialize (R3 id). unfold bounded in Hbd.
  pose proof (cookies_of_nonneg (s_cookies w) id).
  assert (0 <= own_ref e) by (unfold own_ref; destruct (sle_owner e); lia).
  rewrite s32_small by lia.
  destruct (Z.eqb_spec (sle_ref_count e - 1) 0) as [Hz|Hz].
  - eapply wf_same; [..|eapply (wf_free_entry x w id e)]; try done; try lia;
      try (by destruct (sle_block_data e)).
    + destruct (sle_block_data e); simpl; by rewrite delete_alter_eq.
    + unfold own_ref in *. destruct (sle_owner e); [lia|done].
  - eapply (wf_set_ref x w id e _ (-1)); try done; lia.
Qed.

(** What [lock_entry_dec_ref] and [remove_from_locklist] leave alone. *)
Lemma dec_ref_frame id w :
  (forall j, j <> id -> s_entries (lock_entry_dec_ref id w) !! j = s_entries w !! j) /\
  s_lists (lock_entry_dec_ref id w) = s_lists w /\
  s_next (lock_entry_dec_ref id w) = s_next w /\
  s_cookies (lock_entry_dec_ref id w) = s_cookies w /\
  s_fsal (lock_entry_dec_ref id w) = s_fsal w.
Proof.
  unfold lock_entry_dec_ref. destruct (s_entries w !! id) as [e|]; [|done].
  case_match; [destruct (sle_block_data e)|]; split_and!; try done;
    intros j Hj; simpl; rewrite ?lookup_delete_ne, ?lookup_alter_ne; done.
Qed.

Lemma dec_ref_at id w e e' :
  s_entries w !! id = Some e -> s_entries (lock_entry_dec_ref id w) !! id = Some e' ->
  e' = set_sle_ref_count (sle_ref_count e') e.
Proof.
  unfold lock_entry_dec_ref. intros He. rewrite He. case_match.
  - destruct (sle_block_data e); simpl; by rewrite lookup_delete_eq.
  - simpl. rewrite lookup_alter_eq, He. by intros [= <-].
Qed.

(** The state of [remove_from_locklist] before it releases the reference. *)
Definition unlinked (id : nat) w : sal F :=
  match s_entries w !! id ≫= sle_owner with
  | Some o =>
      let w1 := if owner_is_nlm env o then upd_client_locks (glist_del id) w else w in
      upd_lists (glist_del id)
        (on_entry (set_sle_owner None) id
          (upd_owner_locks (glist_del id)
            (upd_state_locks (glist_del id)
              (upd_export_locks (glist_del id) w1))))
  | None => w
  end.

Lemma unlinked_frame id w :
  s_next (unlinked id w) = s_next w /\ s_cookies (unlinked id w) = s_cookies w /\
  s_fsal (unlinked id w) = s_fsal w /\ s_blocks (unlinked id w) = s_blocks w.
Proof.
  unfold unlinked. destruct (s_entries w !! id ≫= sle_owner) as [o|]; [|done].
  by destruct (owner_is_nlm env o).
Qed.

(** The parts of the state the invariant looks at, and the FSAL. *)
Definition same_core w w' : Prop :=
  s_entries w' = s_entries w /\ s_cookies w' = s_cookies w /\ s_next w' = s_next w /\
  s_lists w' = s_lists w /\ s_owner_locks w' = s_owner_locks w /\
  s_client_locks w' = s_client_locks w /\ s_export_locks w' = s_export_locks w /\
  s_state_locks w' = s_state_locks w /\ s_blocks w' = s_blocks w /\ s_fsal w' = s_fsal w.

Lemma wf_same_core x w w' : same_core w w' -> wf_with x w -> wf_with x w'.
Proof. intros (?&?&?&?&?&?&?&?&?&?). by apply wf_same. Qed.

(** Only the ledger of references separates the two. *)
Lemma remove_unlinked id e o w :
  s_entries w !! id = Some e -> sle_owner e = Some o ->
  exists w1, remove_from_locklist env id w = lock_entry_dec_ref id w1 /\
             same_core (unlinked id w) w1.
Proof.
  intros He Ho. unfold remove_from_locklist, unlinked, same_core. rewrite He. simpl. rewrite Ho.
  eexists. split; [reflexivity|].
  destruct (owner_is_nlm env o), (owner_nsm_client env o), (sle_state e);
    split_and!; reflexivity.
Qed.

Lemma wf_unlinked x w id e o :
  wf_with x w -> s_entries w !! id = Some e -> sle_owner e = Some o -> x id <= 3 ->
  wf_with (add_at x id 1) (unlinked id w).
Proof.
  intros [Hl Ho Hc Hxp Hs Hnx Hcn Hr Hrefs Hb] He Hown Hx.
  unfold unlinked. rewrite He. simpl. rewrite Hown.
  set (w1 := if owner_is_nlm env o then upd_client_locks (glist_del id) w else w).
  assert (s_entries w1 = s_entries w /\ s_cookies w1 = s_cookies w /\ s_next w1 = s_next w /\
          s_lists w1 = s_lists w /\ s_owner_locks w1 = s_owner_locks w /\
          s_export_locks w1 = s_export_locks w /\
          s_state_locks w1 = s_state_locks w /\ s_blocks w1 = s_blocks w)
    as (E1&E2&E3&E4&E5&E6&E7&E8) by (subst w1; by destruct (owner_is_nlm env o)).
  assert (tracks client_key (s_client_locks w1) (<[id := set_sle_owner None e]> (s_entries w)))
    as Hc'.
  { subst w1. destruct (owner_is_nlm env o) eqn:En; simpl.
    - by apply tracks_del.
    - eapply tracks_update; [done..|]. unfold client_key. by rewrite Hown; simpl; rewrite En. }
  constructor; simpl; rewrite ?E1, ?E2, ?E3, ?E4, ?E5, ?E6, ?E7, ?E8;
    rewrite ?(alter_is_insert _ _ _ _ He).
  - eapply lists_ok_entries; [by apply lists_ok_del|].
    intros h j e0 [Hne _]%elem_of_glist_del He0 Ho0. rewrite lookup_insert_ne by done. eauto.
  - by apply tracks_del.
  - done.
  - by apply tracks_del.
  - by apply tracks_del.
  - intros j. rewrite (insert_is_Some _ id e) by done. auto.
  - auto.
  - intros j e0 [[-> ->]|[_ ?]]%insert_case; simpl; eauto.
  - destruct (Hrefs) as (R1 & _ & R3 & _). specialize (R1 id e He). specialize (R3 id).
    unfold own_ref in R1. rewrite Hown in R1.
    eapply refs_ok_set; try done; simpl; unfold own_ref; simpl; lia.
  - intros j e0 b [[-> ->]|[_ ?]]%insert_case; simpl; eauto.
Qed.

Lemma wf_remove x w id e o :
  wf_with x w -> bounded w -> s_entries w !! id = Some e -> sle_owner e = Some o ->
  x id <= 3 -> wf_with x (remove_from_locklist env id w).
Proof.
  intros Hwf Hbd He Ho Hx. destruct (remove_unlinked id e o w He Ho) as (w1 & -> & Hsame).
  pose proof (wf_unlinked x w id e o Hwf He Ho Hx) as Hw1.
  destruct (unlinked_frame id w) as (E1 & E2 & _).
  pose proof Hsame as (S1 & S2 & S3 & _).
  assert (is_Some (s_entries (unlinked id w) !! id)) as [e1 He1].
  { destruct (wf_refs _ _ Hw1) as (_ & _ & _ & R4). apply R4. rewrite add_at_eq.
    destruct (wf_refs _ _ Hwf) as (_ & _ & R3 & _). specialize (R3 id). lia. }
  eapply wf_ext; [apply (add_at_cancel x id 1)|eapply (wf_dec_ref _ _ id e1)].
  - by eapply wf_same_core.
  - unfold bounded in *. by rewrite S3, E1.
  - by rewrite S1.
  - rewrite add_at_eq. destruct (wf_refs _ _ Hwf) as (_ & _ & R3 & _). specialize (R3 id). lia.
Qed.

(** What [remove_from_locklist] does to an entry with an owner. *)
Lemma remove_frame id w e o :
  s_entries w !! id = Some e -> sle_owner e = Some o ->
  (forall j, j <> id -> s_entries (remove_from_locklist env id w) !! j = s_entries w !! j) /\
  s_lists (remove_from_locklist env id w) = glist_del id (s_lists w) /\
  s_next (remove_from_locklist env id w) = s_next w /\
  s_cookies (remove_from_locklist env id w) = s_cookies w /\
  s_fsal (remove_from_locklist env id w) = s_fsal w.
Proof.
  intros He Ho. destruct (remove_unlinked id e o w He Ho) as (w1 & -> & S1&S2&S3&S4&_&_&_&_&_&S5).
  destruct (dec_ref_frame id w1) as (D1&D2&D3&D4&D5).
  destruct (unlinked_frame id w) as (U1&U2&U3&U4).
  rewrite D2, D3, D4, D5, S2, S3, S4, S5. split_and!; try done.
  - intros j Hj. rewrite D1, S1 by done. unfold unlinked. rewrite He. simpl. rewrite Ho.
    destruct (owner_is_nlm env o); simpl; by rewrite lookup_alter_ne.
  - unfold unlinked. rewrite He. simpl. rewrite Ho. by destruct (owner_is_nlm env o).
Qed.

(** The allocation counter never goes back. *)
Lemma next_remove id w : s_next (remove_from_locklist env id w) = s_next w.
Proof.
  unfold remove_from_locklist. destruct (s_entries w !! id) as [e|]; [|done].
  rewrite (proj1 (proj2 (proj2 (dec_ref_frame id _)))). simpl.
  destruct (sle_owner e) as [o|]; [|done].
  by destruct (owner_is_nlm env o), (owner_nsm_client env o), (sle_state e).
Qed.

Lemma next_dup id w : (s_next w <= s_next (state_lock_entry_t_dup env id w).2)%nat.
Proof.
  unfold state_lock_entry_t_dup. destruct (s_entries w !! id) as [e|]; [|done].
  destruct (sle_owner e) as [o|]; [|done].
  destruct (create_spec (sle_obj e) (sle_export e) (sle_blocked e) o (sle_state e)
              (sle_lock e) w) as (w' & E & _ & E2 & _).
  rewrite E. simpl. lia.
Qed.

Lemma bounded_mono w w' : (s_next w <= s_next w')%nat -> bounded w' -> bounded w.
Proof. unfold bounded. lia. Qed.
End wf.
