(* ===== verification/LockSem.v ===== *)
(** * What a lock list means

    The bytes of a file an owner holds, read off the lock list, and the
    arithmetic of the ranges that [merge_lock_entry] and
    [subtract_lock_from_entry] (SAL/state_lock.c) compute. *)
From S2P Require Import Prelude Status Owners Fsal LockData LockList LockWf.

Definition in_range (l : fsal_lock_param_t) (b : Z) : Prop :=
  lock_start l <= b <= lock_end l.

#[export] Instance in_range_dec l b : Decision (in_range l b).
Proof. unfold in_range. apply _. Defined.

(** ** Ranges *)

(** Unfolds ranges to linear arithmetic. *)
Ltac range_facts :=
  repeat match goal with
  | H : lock_ok ?l |- _ =>
      lazymatch goal with
      | _ : lock_start l <= lock_end l <= UINT64_MAX |- _ => fail
      | _ => let H1 := fresh "Hend" in let H2 := fresh "Hend" in
             destruct (lock_end_spec l H) as [H1 H2]
      end
  end.

Lemma lock_ok_mk st ty a n r :
  0 <= a <= UINT64_MAX -> 0 <= n -> a + n <= UINT64_MAX + 1 ->
  lock_ok (mk_lock_param st ty a n r) /\
  lock_end (mk_lock_param st ty a n r) = if n =? 0 then UINT64_MAX else a + n - 1.
Proof.
  intros. assert (lock_ok (mk_lock_param st ty a n r)) as Hok by (unfold lock_ok; simpl; lia).
  split; [done|]. by destruct (lock_end_spec _ Hok).
Qed.

(** The range of a lock moved to [a] with length [n]. *)
Lemma lock_set_range l a n :
  0 <= a <= UINT64_MAX -> 0 < n -> a + n <= UINT64_MAX + 1 ->
  lock_ok (set_lock_length n (set_lock_start a l)) /\
  forall b, in_range (set_lock_length n (set_lock_start a l)) b <-> a <= b < a + n.
Proof.
  intros Ha Hn Han. unfold set_lock_length, set_lock_start. simpl.
  destruct (lock_ok_mk (lock_sle_type l) (lock_type l) a n (lock_reclaim l)) as [Hok He];
    try lia.
  split; [done|]. intros b. unfold in_range. rewrite He. simpl.
  destruct (Z.eqb_spec n 0); lia.
Qed.

Lemma lock_set_length l n :
  0 <= lock_start l <= UINT64_MAX -> 0 < n -> lock_start l + n <= UINT64_MAX + 1 ->
  lock_ok (set_lock_length n l) /\
  forall b, in_range (set_lock_length n l) b <-> lock_start l <= b < lock_start l + n.
Proof.
  intros Ha Hn Han.
  destruct (lock_set_range l (lock_start l) n Ha Hn Han) as [Hok Hr].
  by destruct l.
Qed.

Lemma Zmax_ltb a b : Z.max a b = if a <? b then b else a.
Proof. destruct (Z.ltb_spec a b); lia. Qed.

Lemma Zmin_ltb a b : Z.min a b = if a <? b then a else b.
Proof. destruct (Z.ltb_spec a b); lia. Qed.

(** ** What the merge does to a pair of locks *)

Inductive merge_action :=
| merge_skip
| merge_keep (c : fsal_lock_param_t)
| merge_split (left right : fsal_lock_param_t)
| merge_absorb (l : fsal_lock_param_t).

(** The decision of [merge_lock_entry] for the new lock [l] and a lock [c]
    of the same owner. *)
Definition merge_decide (l c : fsal_lock_param_t) : merge_action :=
  let ce := lock_end c in
  let le := lock_end l in
  if (u64 (ce + 1) <? lock_start l) || (u64 (le + 1) <? lock_start c) then merge_skip else
  let left := set_lock_length (lock_start l - lock_start c) c in
  let right := set_lock_length (ce - le) (set_lock_start (le + 1) c) in
  if bool_decide (lock_type c <> lock_type l)
     && ((le <? ce) || (lock_start c <? lock_start l))
  then
    if le <? ce then
      if lock_start c <? lock_start l then merge_split left right else merge_keep right
    else merge_keep left
  else
    let e := Z.max le ce in
    let s := Z.min (lock_start c) (lock_start l) in
    merge_absorb (set_lock_length (u64 (u64 (e - s) + 1)) (set_lock_start s l)).

(** The end of a range wraps only for the last byte. *)
Lemma u64_succ_end l :
  lock_ok l -> u64 (lock_end l + 1) = if lock_end l =? UINT64_MAX then 0 else lock_end l + 1.
Proof.
  intros Hok. range_facts. destruct Hok as (?&?&?&?).
  destruct (Z.eqb_spec (lock_end l) UINT64_MAX) as [->|]; [done|].
  apply u64_small. unfold is_u64. lia.
Qed.

Lemma merge_left_range l c :
  lock_ok l -> lock_ok c -> lock_start c < lock_start l ->
  lock_start l <= u64 (lock_end c + 1) ->
  lock_ok (set_lock_length (lock_start l - lock_start c) c) /\
  forall b, in_range (set_lock_length (lock_start l - lock_start c) c) b <->
            in_range c b /\ b < lock_start l.
Proof.
  intros Hl Hc Hlt Hu. rewrite u64_succ_end in Hu by done. range_facts.
  destruct Hl as (?&?&?&?), Hc as (?&?&?&?).
  destruct (lock_set_length c (lock_start l - lock_start c)) as [Hok Hr]; try lia.
  split; [done|]. intros b. rewrite Hr. unfold in_range.
  destruct (Z.eqb_spec (lock_end c) UINT64_MAX); lia.
Qed.

Lemma merge_right_range l c :
  lock_ok l -> lock_ok c -> lock_end l < lock_end c ->
  lock_start c <= u64 (lock_end l + 1) ->
  let right := set_lock_length (lock_end c - lock_end l) (set_lock_start (lock_end l + 1) c) in
  lock_ok right /\
  forall b, in_range right b <-> in_range c b /\ lock_end l < b.
Proof.
  intros Hl Hc Hlt Hu. rewrite u64_succ_end in Hu by done. range_facts.
  destruct Hl as (?&?&?&?), Hc as (?&?&?&?).
  destruct (lock_set_range c (lock_end l + 1) (lock_end c - lock_end l)) as [Hok Hr]; try lia.
  split; [done|]. intros b. rewrite Hr. unfold in_range.
  destruct (Z.eqb_spec (lock_end l) UINT64_MAX); lia.
Qed.

Lemma merge_hull_range l c :
  lock_ok l -> lock_ok c ->
  lock_start l <= u64 (lock_end c + 1) -> lock_start c <= u64 (lock_end l + 1) ->
  let e := Z.max (lock_end l) (lock_end c) in
  let s := Z.min (lock_start c) (lock_start l) in
  let l' := set_lock_length (u64 (u64 (e - s) + 1)) (set_lock_start s l) in
  lock_ok l' /\ forall b, in_range l' b <-> in_range l b \/ in_range c b.
Proof.
  intros Hl Hc Hu1 Hu2 e s l'. rewrite u64_succ_end in Hu1, Hu2 by done. range_facts.
  pose proof Hl as (?&?&?&?). pose proof Hc as (?&?&?&?).
  assert (u64 (e - s) = e - s) as E1 by (apply u64_small; unfold is_u64; lia).
  assert (forall b, s <= b <= e <-> in_range l b \/ in_range c b) as Hun.
  { intros b. unfold in_range, s, e.
    destruct (Z.eqb_spec (lock_end l) UINT64_MAX), (Z.eqb_spec (lock_end c) UINT64_MAX); lia. }
  destruct (decide (e - s = UINT64_MAX)) as [Efull|Hne].
  - assert (s = 0 /\ e = UINT64_MAX) as [Es Ee] by lia.
    subst l'. rewrite E1, Efull. change (u64 (UINT64_MAX + 1)) with 0.
    unfold set_lock_length, set_lock_start. simpl.
    destruct (lock_ok_mk (lock_sle_type l) (lock_type l) s 0 (lock_reclaim l)) as [Hok He];
      try lia.
    split; [done|]. intros b. rewrite <- Hun. unfold in_range. rewrite He. simpl. lia.
  - subst l'. rewrite E1, (u64_small (e - s + 1)) by (unfold is_u64; lia).
    destruct (lock_set_range l s (e - s + 1)) as [Hok Hr]; try lia.
    split; [done|]. intros b. rewrite Hr, <- Hun. lia.
Qed.

Lemma merge_decide_spec l c :
  lock_ok l -> lock_ok c ->
  match merge_decide l c with
  | merge_skip =>
      lock_end l < UINT64_MAX -> lock_end c < UINT64_MAX ->
      forall b, ~ (in_range l b /\ in_range c b)
  | merge_keep c1 =>
      lock_type c <> lock_type l /\ lock_ok c1 /\ lock_type c1 = lock_type c /\
      forall b, in_range c1 b <-> in_range c b /\ ~ in_range l b
  | merge_split c1 c2 =>
      lock_type c <> lock_type l /\ lock_start c < lock_start l <= lock_start c2 /\
      lock_ok c1 /\ lock_ok c2 /\ lock_type c1 = lock_type c /\ lock_type c2 = lock_type c /\
      forall b, (in_range c1 b \/ in_range c2 b) <-> in_range c b /\ ~ in_range l b
  | merge_absorb l' =>
      (lock_type c = lock_type l \/ forall b, in_range c b -> in_range l b) /\
      lock_ok l' /\ lock_type l' = lock_type l /\ lock_start l' <= lock_start l /\
      forall b, in_range l' b <-> in_range l b \/ in_range c b
  end.
Proof.
  intros Hl Hc. unfold merge_decide.
  destruct (Z.ltb_spec (u64 (lock_end c + 1)) (lock_start l)) as [Hu1|Hu1]; simpl.
  { intros Hlt1 Hlt2 b [H1 H2]. rewrite u64_succ_end in Hu1 by done.
    unfold in_range in *. destruct (Z.eqb_spec (lock_end c) UINT64_MAX); lia. }
  destruct (Z.ltb_spec (u64 (lock_end l + 1)) (lock_start c)) as [Hu2|Hu2]; simpl.
  { intros Hlt1 Hlt2 b [H1 H2]. rewrite u64_succ_end in Hu2 by done.
    unfold in_range in *. destruct (Z.eqb_spec (lock_end l) UINT64_MAX); lia. }
  pose proof (merge_left_range l c Hl Hc) as HL.
  pose proof (merge_right_range l c Hl Hc) as HR.
  pose proof (merge_hull_range l c Hl Hc Hu1 Hu2) as HH.
  range_facts.
  destruct (bool_decide_reflect (lock_type c <> lock_type l)) as [Ht|Ht]; simpl;
    [destruct (Z.ltb_spec (lock_end l) (lock_end c)) as [He|He];
     destruct (Z.ltb_spec (lock_start c) (lock_start l)) as [Hs|Hs]; simpl|].
  - destruct (HL Hs Hu1) as [HL1 HL2], (HR He Hu2) as [HR1 HR2].
    split_and!; try done; [simpl; lia|]. intros b. rewrite HL2, HR2. unfold in_range. lia.
  - destruct (HR He Hu2) as [HR1 HR2]. split_and!; try done.
    intros b. rewrite HR2. unfold in_range. lia.
  - destruct (HL Hs Hu1) as [HL1 HL2]. split_and!; try done.
    intros b. rewrite HL2. unfold in_range. lia.
  - destruct HH as [HH1 HH2]. split_and!; try done; [|simpl; lia].
    right. intros b. unfold in_range. lia.
  - destruct HH as [HH1 HH2]. split_and!; try done; [|simpl; lia].
    left. destruct (decide (lock_type c = lock_type l)); tauto.
Qed.

(** ** The merge step on the state *)
Section merge_step.
Context {F : Type} (env : sal_env).
Implicit Types (w : sal F).

Definition set_lock_of (l : fsal_lock_param_t) (e : state_lock_entry_t) := set_sle_lock l e.

(** What [merge_check_entry] does with its decision. *)
Definition merge_apply (obj lock_entry check_entry : nat) (act : merge_action) w : sal F :=
  match act with
  | merge_skip => w
  | merge_keep c => on_lock (fun _ => c) check_entry w
  | merge_split c1 c2 =>
      match state_lock_entry_t_dup env check_entry w with
      | (Some n, w) =>
          on_lock (fun _ => c1) check_entry
            (on_lock (fun _ => c2) n (upd_lists (glist_add_tail (lock_list obj) n) w))
      | (None, w) => w
      end
  | merge_absorb l => remove_from_locklist env check_entry (on_lock (fun _ => l) lock_entry w)
  end.

Lemma on_lock_ext f g id w :
  (forall e, s_entries w !! id = Some e -> f (sle_lock e) = g (sle_lock e)) ->
  on_lock f id w = on_lock g id w.
Proof.
  intros E. unfold on_lock, on_entry, upd_entries. f_equal.
  destruct (s_entries w !! id) as [e|] eqn:He.
  - rewrite !(alter_is_insert _ _ _ _ He). by rewrite E.
  - by rewrite !(alter_dead _ _ _ He).
Qed.

(** A duplicate is a fresh entry with the same contents. *)
Lemma dup_spec id e o w :
  s_entries w !! id = Some e -> sle_owner e = Some o ->
  exists w', state_lock_entry_t_dup env id w = (Some (s_next w), w') /\
  (forall x, wf_with env x w -> wf_with env x w') /\
  s_entries w' = <[s_next w := new_entry_of (sle_obj e) (sle_export e) (sle_blocked e) o
                                 (sle_state e) (sle_lock e)]> (s_entries w) /\
  s_next w' = S (s_next w) /\ s_lists w' = s_lists w /\ s_cookies w' = s_cookies w /\
  s_blocks w' = s_blocks w /\ s_fsal w' = s_fsal w.
Proof.
  intros He Ho. unfold state_lock_entry_t_dup. rewrite He, Ho.
  destruct (create_spec env (sle_obj e) (sle_export e) (sle_blocked e) o (sle_state e)
              (sle_lock e) w) as (w' & E & E1 & E2 & E3 & E4 & E5 & _ & _ & _ & E6 & _).
  exists w'. rewrite E. split_and!; try done. intros x Hwf.
  pose proof (wf_create env x w (sle_obj e) (sle_export e) (sle_blocked e) o (sle_state e)
                (sle_lock e) Hwf (wf_ranges env x w Hwf id e He)) as Hwf'.
  by rewrite E in Hwf'.
Qed.

Lemma merge_check_decide obj lock_entry check_entry w c l o :
  check_entry <> lock_entry ->
  s_entries w !! check_entry = Some c -> s_entries w !! lock_entry = Some l ->
  sle_owner c = Some o -> s_entries w !! s_next w = None ->
  lock_ok (sle_lock c) -> lock_ok (sle_lock l) ->
  merge_check_entry env obj lock_entry check_entry w =
  if different_owners (env_owners env) (sle_owner c) (sle_owner l)
     || bool_decide (sle_blocked c <> STATE_NON_BLOCKING)
  then w
  else merge_apply obj lock_entry check_entry (merge_decide (sle_lock l) (sle_lock c)) w.
Proof.
  intros Hne Hc Hl Ho Hfresh Hokc Hokl. unfold merge_check_entry.
  rewrite decide_False by done. rewrite Hc, Hl.
  destruct (different_owners _ _ _); [done|].
  destruct (decide (sle_blocked c <> STATE_NON_BLOCKING)) as [Hb|Hb];
    [by rewrite (bool_decide_eq_true_2 _ Hb) | rewrite (bool_decide_eq_false_2 _ Hb)]. simpl.
  unfold merge_decide.
  destruct (Z.ltb_spec (u64 (lock_end (sle_lock c) + 1)) (lock_start (sle_lock l)))
    as [Hu1|Hu1]; [done|]. simpl.
  destruct (Z.ltb_spec (u64 (lock_end (sle_lock l) + 1)) (lock_start (sle_lock c)))
    as [Hu2|Hu2]; [done|]. simpl.
  rewrite u64_succ_end in Hu1, Hu2 by done.
  range_facts. pose proof Hokc as (?&?&?&?). pose proof Hokl as (?&?&?&?).
  set (cs := lock_start (sle_lock c)) in *. set (ls := lock_start (sle_lock l)) in *.
  set (ce := lock_end (sle_lock c)) in *. set (le := lock_end (sle_lock l)) in *.
  destruct (bool_decide_reflect (lock_type (sle_lock c) <> lock_type (sle_lock l)))
    as [Ht|Ht]; simpl.
  - destruct (Z.ltb_spec le ce) as [He|He], (Z.ltb_spec cs ls) as [Hs|Hs]; simpl;
      try rewrite (u64_small (ce - le)) by (unfold is_u64; lia);
      try rewrite (u64_small (le + 1)) by (unfold is_u64; lia);
      try rewrite (u64_small (ls - cs)) by (unfold is_u64; lia).
    + (* split *)
      destruct (dup_spec check_entry c o w Hc Ho) as (w' & E & _ & E1 & E2 & E3 & _).
      rewrite E. simpl. assert (check_entry <> s_next w) by congruence.
      rewrite lookup_alter_ne, E1, lookup_insert_ne, Hc by done. fold cs.
      rewrite (proj2 (Z.ltb_lt cs ls)) by done.
      rewrite u64_small by (unfold is_u64; lia).
      etrans; [apply (on_lock_ext _ (fun _ => set_lock_length (ls - cs) (sle_lock c)))|
               f_equal; apply on_lock_ext]; intros e; simpl.
      * rewrite lookup_alter_ne, E1, lookup_insert_ne, Hc by done. by intros [= <-].
      * rewrite E1, lookup_insert_eq. by intros [= <-].
    + (* shrink from the beginning *)
      rewrite lookup_alter_eq, Hc. simpl.
      rewrite (proj2 (Z.ltb_ge (le + 1) ls)) by lia.
      apply on_lock_ext. intros e. rewrite Hc. by intros [= <-].
    + (* shrink from the end *)
      rewrite Hc. fold cs. rewrite (proj2 (Z.ltb_lt cs ls)) by done.
      rewrite u64_small by (unfold is_u64; lia).
      apply on_lock_ext. intros e. rewrite Hc. by intros [= <-].
    + f_equal. rewrite (Z.max_l le ce), (Z.min_r cs ls) by done.
      apply on_lock_ext. intros e. rewrite Hl. by intros [= <-].
  - f_equal. rewrite <- (Zmax_ltb le ce), <- (Zmin_ltb cs ls).
    apply on_lock_ext. intros e. rewrite Hl. by intros [= <-].
Qed.
End merge_step.
