(* ===== verification/LockMerge.v ===== *)
(** * The merge of a lock into the list, byte by byte

    [merge_lock_entry] (SAL/state_lock.c) walks the list of the file while
    it removes, shrinks and splits entries.  The walk visits every entry,
    and the bytes held by every owner come out as POSIX locking asks: the
    new lock replaces what its owner held in its range, and nothing else
    changes. *)
From S2P Require Import Prelude Status Owners Fsal LockData LockList LockWf LockSem.

(** ** The bytes held through a set of entries *)
Section holds.
Context {F : Type}.
Implicit Types (w : sal F) (q : state_blocking_t -> bool).

(** [q] says which blocking states count; the entries are those with an
    address in [P]. *)
Definition holds_in q (P : nat -> Prop) w (o : nat) (t : fsal_lock_t) (b : Z) : Prop :=
  exists id e, P id /\ s_entries w !! id = Some e /\ q (sle_blocked e) = true /\
    sle_owner e = Some o /\ lock_type (sle_lock e) = t /\ in_range (sle_lock e) b.

(** The locks in force: granted ones, and those being granted. *)
Definition granted (s : state_blocking_t) : bool := negb (blocked_or_canceled s).

Definition on_file (obj : nat) w (id : nat) : Prop := id ∈ glist (s_lists w) (lock_list obj).

(** The owner holds a lock of type [t] on byte [b] of the file, among the
    locks whose status [q] selects. *)
Definition held_as q w (obj o : nat) (t : fsal_lock_t) (b : Z) : Prop :=
  holds_in q (on_file obj w) w o t b.

Definition holds w := held_as granted w.

(** The locks the client has been told of. *)
Definition fully (s : state_blocking_t) : bool := bool_decide (s = STATE_NON_BLOCKING).
End holds.

Section merge.
Context {F : Type} (env : sal_env) (Hsame : Equivalence (same_owner (env_owners env))).
Context (obj lock_entry : nat) (x : nat -> Z).
Implicit Types (w : sal F) (q : state_blocking_t -> bool).

#[local] Infix "≈" := (same_owner (env_owners env)) (at level 70).
#[local] Abbreviation lst w := (glist (s_lists w) (lock_list obj)).

Definition involved w (id : nat) : Prop := on_file obj w id \/ id = lock_entry.

(** The new lock is alive; its owner, type and status. *)
Record merging (ol : nat) (tl : fsal_lock_t) (bl : state_blocking_t) (k : fsal_lock_param_t) w
    : Prop := {
  m_wf : wf_with env x w;
  m_x : forall j, x j <= 3;
  m_entry : exists l, s_entries w !! lock_entry = Some l /\ sle_owner l = Some ol /\
              lock_type (sle_lock l) = tl /\ sle_blocked l = bl /\ sle_lock l = k;
  m_bounded : bounded w
}.

(** The three ways the merge treats an entry of the same owner. *)
Inductive merge_step (c : nat) (ce : state_lock_entry_t) (k : fsal_lock_param_t) w w1 : Prop :=
| step_keep c1 :
    merge_decide k (sle_lock ce) = merge_keep c1 ->
    s_entries w1 = <[c := set_sle_lock c1 ce]> (s_entries w) ->
    s_lists w1 = s_lists w -> s_next w1 = s_next w ->
    merge_step c ce k w w1
| step_split c1 c2 e2 :
    merge_decide k (sle_lock ce) = merge_split c1 c2 ->
    s_entries w1 = <[c := set_sle_lock c1 ce]> (<[s_next w := e2]> (s_entries w)) ->
    sle_lock e2 = c2 -> sle_owner e2 = sle_owner ce -> sle_blocked e2 = sle_blocked ce ->
    s_lists w1 = glist_add_tail (lock_list obj) (s_next w) (s_lists w) ->
    s_next w1 = S (s_next w) ->
    merge_step c ce k w w1
| step_absorb k1 l :
    merge_decide k (sle_lock ce) = merge_absorb k1 ->
    s_entries w !! lock_entry = Some l ->
    s_entries w1 !! lock_entry = Some (set_sle_lock k1 l) ->
    (forall j, j <> c -> j <> lock_entry -> s_entries w1 !! j = s_entries w !! j) ->
    s_lists w1 = glist_del c (s_lists w) -> s_next w1 = s_next w ->
    merge_step c ce k w w1.

(** An entry the merge does not touch: another owner's, one that is not
    fully granted, the new lock itself, or one the range test rules out. *)
Definition unmerged (ol : nat) (k : fsal_lock_param_t) (c : nat) (ce : state_lock_entry_t) : Prop :=
  c = lock_entry \/
  (forall oc, sle_owner ce = Some oc -> ~ oc ≈ ol) \/
  sle_blocked ce <> STATE_NON_BLOCKING \/
  merge_decide k (sle_lock ce) = merge_skip.

Lemma merge_check_step ol tl bl k w c ce oc :
  merging ol tl bl k w -> on_file obj w c ->
  s_entries w !! c = Some ce -> sle_owner ce = Some oc ->
  let w1 := merge_check_entry env obj lock_entry c w in
  wf_with env x w1 /\ s_cookies w1 = s_cookies w /\ s_fsal w1 = s_fsal w /\
  ((w1 = w /\ unmerged ol k c ce) \/
   (c <> lock_entry /\ oc ≈ ol /\ sle_blocked ce = STATE_NON_BLOCKING /\
    merge_step c ce k w w1)).
Proof.
  intros [Hwf Hx (l & Hl & Hol & Htl & Hbl & Hk) Hbd] Hin Hc Hoc. simpl.
  destruct (decide (c = lock_entry)) as [->|Hne].
  { unfold merge_check_entry. rewrite decide_True by done.
    split_and!; try done. left. split; [done|]. by left. }
  pose proof (wf_ranges env x w Hwf) as Hrg.
  pose proof (wf_fresh env x w Hwf) as Hfr.
  rewrite (merge_check_decide env obj lock_entry c w ce l oc) by eauto.
  rewrite Hoc, Hol, Hk.
  destruct (different_owners (env_owners env) (Some oc) (Some ol)) eqn:Ed; simpl.
  { split_and!; try done. left. split; [done|]. right. left.
    intros oc' E. rewrite Hoc in E. injection E as <-. unfold same_owner. congruence. }
  destruct (bool_decide_reflect (sle_blocked ce <> STATE_NON_BLOCKING)) as [Hb|Hb].
  { split_and!; try done. left. split; [done|]. right. by right; left. }
  assert (sle_blocked ce = STATE_NON_BLOCKING) as Hnb
    by (destruct (decide (sle_blocked ce = STATE_NON_BLOCKING)); tauto).
  pose proof (merge_decide_spec k (sle_lock ce)) as Hspec.
  rewrite <- Hk in Hspec at 1. specialize (Hspec (Hrg _ _ Hl) (Hrg _ _ Hc)).
  destruct (merge_decide k (sle_lock ce)) as [|c1|c1 c2|k1] eqn:Edec; simpl.
  - split_and!; try done. left. split; [done|]. right. right. by right.
  - destruct Hspec as (_ & Hok1 & _).
    split_and!; try done.
    { apply wf_on_entry; [done|]. intros e. rewrite Hc. intros [= <-]. by split_and!. }
    right. split_and!; try done. eapply step_keep; [done| |done..].
    simpl. by apply alter_is_insert.
  - destruct Hspec as (_ & _ & Hok1 & Hok2 & _).
    destruct (dup_spec env c ce oc w Hc Hoc) as (w' & E & Hwf' & E1 & E2 & E3 & E4 & E5 & E6).
    rewrite E. specialize (Hwf' x Hwf).
    assert (c <> s_next w) by congruence.
    split_and!; try done.
    { apply wf_on_entry; [apply wf_on_entry|].
      - apply wf_upd_lists; [done|].
        eapply lists_ok_add_tail; [apply (wf_lists env x w' Hwf')| | | |].
        + rewrite E3. by apply (wf_fresh_list env x).
        + rewrite E1. apply lookup_insert_eq.
        + done.
        + intros f [= <-]. simpl. destruct (wf_lists env x w Hwf) as (Hlv & _).
          destruct (Hlv _ _ Hin) as (e0 & He0 & _ & Hf). rewrite Hc in He0.
          injection He0 as <-. by apply Hf.
      - intros e. simpl. rewrite E1, lookup_insert_eq. intros [= <-]. by split_and!.
      - intros e. simpl. rewrite lookup_alter_ne, E1, lookup_insert_ne, Hc by done.
        intros [= <-]. by split_and!. }
    right. split_and!; try done.
    eapply step_split; [done| |..].
    + simpl. rewrite E1.
      rewrite (alter_is_insert _ (<[s_next w := _]> _) (s_next w) _ (lookup_insert_eq _ _ _)).
      rewrite (alter_is_insert _ _ c ce); [by rewrite insert_insert_eq|].
      by rewrite insert_insert_eq, lookup_insert_ne.
    + done.
    + simpl. by rewrite Hoc.
    + done.
    + simpl. by rewrite E3.
    + done.
  - destruct Hspec as (_ & Hok1 & _).
    assert (wf_with env x (on_lock (fun _ => k1) lock_entry w)) as Hwf1.
    { apply wf_on_entry; [done|]. intros e. rewrite Hl. intros [= <-]. by split_and!. }
    assert (s_entries (on_lock (fun _ => k1) lock_entry w) !! c = Some ce) as Hc1
      by (simpl; by rewrite lookup_alter_ne).
    destruct (remove_frame env c _ ce oc Hc1 Hoc) as (R1 & R2 & R3 & R4 & R5).
    split_and!; try done.
    { by eapply wf_remove. }
    right. split_and!; try done.
    eapply step_absorb; [done|done|..].
    + rewrite R1 by done. simpl. by rewrite lookup_alter_eq, Hl.
    + intros j Hj1 Hj2. rewrite R1 by done. simpl. by rewrite lookup_alter_ne.
    + by rewrite R2.
    + by rewrite R3.
Qed.

(** ** One step, on the state *)

(** The decision, with what it guarantees. *)
Lemma merging_decide_spec ol tl bl k w c ce :
  merging ol tl bl k w -> s_entries w !! c = Some ce ->
  lock_ok k /\ lock_ok (sle_lock ce) /\ lock_type k = tl.
Proof.
  intros [Hwf Hx (l & Hl & Hol & Htl & Hbl & Hk) Hbd] Hc.
  pose proof (wf_ranges env x w Hwf) as Hrg. subst k. eauto.
Qed.

Lemma step_untouched c ce k w w1 j :
  merge_step c ce k w w1 -> j <> c -> j <> lock_entry -> j <> s_next w ->
  s_entries w1 !! j = s_entries w !! j.
Proof.
  intros [c1 _ E _ _|c1 c2 e2 _ E _ _ _ _ _|k1 l _ _ _ E _ _] H1 H2 H3;
    rewrite ?E; rewrite ?lookup_insert_ne by done; auto.
Qed.

Lemma step_other_lists c ce k w w1 h :
  wf_with env x w -> on_file obj w c -> merge_step c ce k w w1 ->
  h <> lock_list obj -> glist (s_lists w1) h = glist (s_lists w) h.
Proof.
  intros Hwf Hin Hst Hh.
  destruct Hst as [c1 _ _ E _|c1 c2 e2 _ _ _ _ _ E _|k1 l _ _ _ _ E _]; rewrite E.
  - done.
  - rewrite glist_add_tail_lookup. by rewrite decide_False.
  - apply glist_del_not_in. intros Hc. apply Hh.
    destruct (wf_lists env x w Hwf) as (_ & _ & Hd). eauto.
Qed.

Lemma step_list c ce k w w1 pre post :
  wf_with env x w -> merge_step c ce k w w1 ->
  lst w = pre ++ c :: post ->
  exists mid ext, lst w1 = pre ++ mid ++ post ++ ext /\
    (mid = [c] \/ mid = []) /\
    (ext = [] \/ (ext = [s_next w] /\ exists c1 c2, merge_decide k (sle_lock ce) = merge_split c1 c2)).
Proof.
  intros Hwf Hst Hl.
  destruct Hst as [c1 _ _ E _|c1 c2 e2 D _ _ _ _ E _|k1 l _ _ _ _ E _]; rewrite E.
  - exists [c], []. rewrite app_nil_r. by eauto.
  - exists [c], [s_next w]. rewrite glist_add_tail_lookup, decide_True, Hl by done.
    split_and!; [by rewrite <- !app_assoc|by left|right; eauto].
  - exists [], []. rewrite glist_del_lookup, Hl, app_nil_r. simpl. split; [|by auto].
    apply filter_app_cons_ne. rewrite <- Hl. apply (wf_lists env x w Hwf).
Qed.

Lemma step_merging ol tl bl k w c ce w1 :
  merging ol tl bl k w -> s_entries w !! c = Some ce -> c <> lock_entry ->
  merge_step c ce k w w1 -> wf_with env x w1 -> bounded w1 ->
  exists k1, merging ol tl bl k1 w1 /\ lock_start k1 <= lock_start k /\
    (forall b, in_range k b -> in_range k1 b) /\
    (forall b, in_range k1 b -> in_range k b \/ in_range (sle_lock ce) b).
Proof.
  intros Hm Hc Hne Hst Hwf1 Hbd1.
  destruct (merging_decide_spec _ _ _ _ _ _ _ Hm Hc) as (Hk & Hce & Ht).
  destruct Hm as [Hwf Hx (l & Hl & Hol & Htl & Hbl & Hkl) Hbd].
  assert (lock_entry <> s_next w).
  { intros E. pose proof (wf_fresh env x w Hwf). congruence. }
  destruct Hst as [c1 _ E _ _|c1 c2 e2 _ E _ _ _ _ _|k1 l1 D Hl1 E _ _ _].
  1,2: exists k; split_and!; auto; try lia; split; try done;
    exists l; rewrite E; rewrite !lookup_insert_ne by done; by split_and!.
  exists k1. rewrite Hl in Hl1. injection Hl1 as <-.
  pose proof (merge_decide_spec k (sle_lock ce) Hk Hce) as Hs. rewrite D in Hs.
  destruct Hs as (_ & _ & Ht1 & Hs1 & Hr). split_and!.
  - split; try done. eexists. split; [exact E|]. split_and!; try done. simpl. congruence.
  - done.
  - intros b ?. apply Hr. by left.
  - intros b ?. by apply Hr.
Qed.

(** ** One step, on the bytes held *)

(** What one owner's locks become is sound: nothing is held that was not. *)
Definition held_sound q w w1 : Prop :=
  forall o t b, holds_in q (involved w1) w1 o t b ->
    exists o', o' ≈ o /\ holds_in q (involved w) w o' t b.

(** Nothing is lost, except where the new lock, of type [tl], takes over. *)
Definition held_complete q (tl : fsal_lock_t) w w1 : Prop :=
  forall o t b, holds_in q (involved w) w o t b ->
    exists o', o' ≈ o /\
      (holds_in q (involved w1) w1 o' t b \/
       (holds_in q (involved w1) w1 o' tl b /\
        exists o'', o'' ≈ o /\ holds_in q (involved w) w o'' tl b)).

Lemma holds_in_intro q (P : nat -> Prop) w id e o b :
  P id -> s_entries w !! id = Some e -> q (sle_blocked e) = true -> sle_owner e = Some o ->
  in_range (sle_lock e) b -> holds_in q P w o (lock_type (sle_lock e)) b.
Proof. intros. exists id, e. by split_and!. Qed.

Lemma step_held_sound q ol tl bl k w c ce oc w1 :
  q STATE_NON_BLOCKING = true -> q bl = true ->
  merging ol tl bl k w -> on_file obj w c -> s_entries w !! c = Some ce ->
  sle_owner ce = Some oc -> oc ≈ ol -> sle_blocked ce = STATE_NON_BLOCKING ->
  merge_step c ce k w w1 -> held_sound q w w1.
Proof.
  intros Hq Hqb Hm Hin Hc Hoc Hsm Hnb Hst o t b (id & e & Hid & He & Hqe & Ho & Ht & Hb).
  destruct (merging_decide_spec _ _ _ _ _ _ _ Hm Hc) as (Hk & Hce & Htk).
  pose proof (merge_decide_spec k (sle_lock ce) Hk Hce) as Hs.
  destruct Hm as [Hwf Hx (l & Hl & Hol & Htl & Hbl & Hkl) Hbd].
  assert (q (sle_blocked ce) = true) as Hqc by congruence.
  assert (q (sle_blocked l) = true) as Hql by congruence.
  assert (involved w c) as Hic by by left.
  assert (involved w lock_entry) as Hil by by right.
  destruct Hst as [c1 D E E' _|c1 c2 e2 D E E2 Eo Eb E' _|k1 l1 D Hl1 El E E' _];
    rewrite D in Hs.
  - destruct Hs as (_ & _ & Ht1 & Hr). unfold involved, on_file in Hid. rewrite E' in Hid.
    rewrite E in He. apply insert_case in He as [[-> ->]|[_ He]].
    2: { exists o. split; [done|]. exists id, e. by split_and!. }
    simpl in *. exists o. split; [done|]. rewrite <- Ht, Ht1.
    apply (holds_in_intro _ _ _ c); try done. by apply Hr.
  - destruct Hs as (_ & _ & _ & _ & Ht1 & Ht2 & Hr).
    rewrite E in He. apply insert_case in He as [[-> ->]|[Hne He]].
    { simpl in *. exists o. split; [done|]. rewrite <- Ht, Ht1.
      apply (holds_in_intro _ _ _ c); try done. apply Hr. by left. }
    apply insert_case in He as [[-> ->]|[Hne2 He]].
    { exists o. split; [done|]. rewrite <- Ht, E2, Ht2.
      apply (holds_in_intro _ _ _ c); [done|done|done|congruence|]. apply Hr. right. by rewrite E2 in Hb. }
    exists o. split; [done|]. rewrite <- Ht. apply (holds_in_intro _ _ _ id); try done.
    destruct Hid as [Hid| ->]; [left | by right]. unfold on_file in *. rewrite E' in Hid.
    apply elem_of_glist_add_tail in Hid as [?|[_ ->]]; done.
  - destruct Hs as (Hcov & _ & Ht1 & _ & Hr). rewrite Hl in Hl1. injection Hl1 as <-.
    destruct (decide (id = lock_entry)) as [->|Hne].
    + rewrite El in He. injection He as <-. simpl in *.
      rewrite Hol in Ho. injection Ho as <-. rewrite <- Ht, Ht1, <- Hkl.
      apply Hr in Hb as [Hb|Hb].
      * exists ol. split; [done|]. apply (holds_in_intro _ _ _ lock_entry); try done. by rewrite Hkl.
      * destruct Hcov as [Htc|Hcov].
        -- exists oc. split; [done|]. rewrite Hkl, <- Htc. by apply (holds_in_intro _ _ _ c).
        -- exists ol. split; [done|]. apply (holds_in_intro _ _ _ lock_entry); try done. rewrite Hkl. auto.
    + destruct Hid as [Hid|]; [|done]. unfold on_file in Hid. rewrite E' in Hid.
      apply elem_of_glist_del in Hid as [Hidc Hid]. rewrite E in He by done.
      exists o. split; [done|]. rewrite <- Ht. apply (holds_in_intro _ _ _ id); try done. by left.
Qed.

Lemma step_held_complete q ol tl bl k w c ce oc w1 :
  q STATE_NON_BLOCKING = true -> q bl = true ->
  merging ol tl bl k w -> on_file obj w c -> s_entries w !! c = Some ce -> c <> lock_entry ->
  sle_owner ce = Some oc -> oc ≈ ol -> sle_blocked ce = STATE_NON_BLOCKING ->
  merge_step c ce k w w1 -> held_complete q tl w w1.
Proof.
  intros Hq Hqb Hm Hin Hc Hcl Hoc Hsm Hnb Hst o t b (id & e & Hid & He & Hqe & Ho & Ht & Hb).
  destruct (merging_decide_spec _ _ _ _ _ _ _ Hm Hc) as (Hk & Hce & Htk).
  pose proof (merge_decide_spec k (sle_lock ce) Hk Hce) as Hs.
  destruct Hm as [Hwf Hx (l & Hl & Hol & Htl & Hbl & Hkl) Hbd].
  pose proof (wf_fresh env x w Hwf) as Hfr.
  assert (q (sle_blocked ce) = true) as Hqc by congruence.
  assert (q (sle_blocked l) = true) as Hql by congruence.
  assert (id <> s_next w) as Hidn by congruence.
  assert (lock_entry <> s_next w) as Hln by congruence.
  assert (forall b, in_range k b -> holds_in q (involved w) w ol tl b) as Hlw.
  { intros b' Hb'. rewrite <- Htl. eapply holds_in_intro; [by right|done..|]. by rewrite Hkl. }
  destruct Hst as [c1 D E E' _|c1 c2 e2 D E E2 Eo Eb E' _|k1 l1 D Hl1 El E E' _];
    rewrite D in Hs.
  - destruct Hs as (_ & _ & Ht1 & Hr).
    assert (forall j, involved w j -> involved w1 j) as Hi
      by (unfold involved, on_file; by rewrite E').
    destruct (decide (id = c)) as [->|Hne].
    + rewrite Hc in He. injection He as <-. rewrite Hoc in Ho. injection Ho as <-.
      destruct (decide (in_range k b)) as [Hbk|Hbk].
      * exists ol. split; [by symmetry|]. right. split; [|exists ol; split; [by symmetry|auto]].
        rewrite <- Htl. eapply holds_in_intro; [apply Hi; by right| |done..|by rewrite Hkl].
        rewrite E. by rewrite lookup_insert_ne.
      * exists oc. split; [done|]. left. rewrite <- Ht, <- Ht1.
        eapply (holds_in_intro _ _ _ c (set_sle_lock c1 ce)); [apply Hi; by left| |done..|].
        -- rewrite E. apply lookup_insert_eq.
        -- simpl. by apply Hr.
    + exists o. split; [done|]. left. rewrite <- Ht. apply (holds_in_intro _ _ _ id); auto.
      rewrite E. by rewrite lookup_insert_ne.
  - destruct Hs as (_ & _ & _ & _ & Ht1 & Ht2 & Hr).
    assert (forall j, involved w j \/ j = s_next w -> involved w1 j) as Hi.
    { unfold involved, on_file. rewrite E'. intros j. rewrite elem_of_glist_add_tail.
      intros [[?|?]|?]; auto. }
    destruct (decide (id = c)) as [->|Hne].
    + rewrite Hc in He. injection He as <-. rewrite Hoc in Ho. injection Ho as <-.
      destruct (decide (in_range k b)) as [Hbk|Hbk].
      * exists ol. split; [by symmetry|]. right. split; [|exists ol; split; [by symmetry|auto]].
        rewrite <- Htl. eapply holds_in_intro; [apply Hi; left; by right| |done..|by rewrite Hkl].
        rewrite E. by rewrite !lookup_insert_ne.
      * exists oc. split; [done|]. left. destruct (proj2 (Hr b)) as [Hb1|Hb2]; [done|..].
        -- rewrite <- Ht, <- Ht1.
           eapply (holds_in_intro _ _ _ c (set_sle_lock c1 ce)); [apply Hi; by left; left| |done..].
           rewrite E. apply lookup_insert_eq.
        -- rewrite <- Ht, <- Ht2, <- E2.
           eapply (holds_in_intro _ _ _ (s_next w) e2);
             [apply Hi; by right| |congruence|congruence|by rewrite E2].
           rewrite E, lookup_insert_ne by done. apply lookup_insert_eq.
    + exists o. split; [done|]. left. rewrite <- Ht. apply (holds_in_intro _ _ _ id); auto.
      rewrite E. by rewrite !lookup_insert_ne.
  - destruct Hs as (Hcov & _ & Ht1 & _ & Hr). rewrite Hl in Hl1. injection Hl1 as <-.
    assert (forall b, in_range k1 b -> holds_in q (involved w1) w1 ol tl b) as Hl1.
    { intros b' Hb'. rewrite <- Htl, Hkl, <- Ht1.
      by eapply (holds_in_intro _ _ _ lock_entry (set_sle_lock k1 l)); [right|..]. }
    destruct (decide (id = lock_entry)) as [->|Hne].
    + rewrite Hl in He. injection He as <-. rewrite Hol in Ho. injection Ho as <-.
      exists ol. split; [done|]. left. rewrite <- Ht, Htl. apply Hl1, Hr. left. by rewrite <- Hkl.
    + destruct (decide (id = c)) as [->|Hne2].
      * rewrite Hc in He. injection He as <-. rewrite Hoc in Ho. injection Ho as <-.
        exists ol. split; [by symmetry|]. destruct Hcov as [Htc|Hcov].
        -- left. assert (t = tl) as -> by congruence. apply Hl1, Hr. by right.
        -- right. split; [apply Hl1, Hr; by right|]. exists ol. split; [by symmetry|]. auto.
      * exists o. split; [done|]. left. rewrite <- Ht. eapply holds_in_intro; [| |done..].
        -- destruct Hid as [Hid|]; [left|done]. unfold on_file in *. rewrite E'.
           by apply elem_of_glist_del.
        -- by rewrite E.
Qed.

(** ** The walk *)

Lemma next_merge_check c w :
  (s_next w <= s_next (merge_check_entry env obj lock_entry c w))%nat.
Proof.
  unfold merge_check_entry. case_decide; [done|].
  destruct (s_entries w !! c) as [ce|]; [|done].
  destruct (s_entries w !! lock_entry) as [l|]; [|done].
  destruct (different_owners _ _ _); [done|]. case_decide; [done|].
  destruct (_ <? _); [done|]. destruct (_ <? _); [done|]. destruct (bool_decide _ && _).
  - match goal with |- context [let '(_, _) := ?p in _] =>
      assert (s_next w <= s_next p.2)%nat as Hp; [|destruct p as [r w1]] end.
    { pose proof (next_dup env c w) as Hd. destruct (_ && _); [|done].
      by destruct (state_lock_entry_t_dup env c w) as [? ?]. }
    simpl in Hp. destruct (_ <? _); simpl; repeat case_match; done.
  - rewrite next_remove. done.
Qed.

Lemma next_merge_loop fuel node w :
  (s_next w <= s_next (glist_for_each_safe fuel (fun w => lst w)
     (merge_check_entry env obj lock_entry) node w))%nat.
Proof.
  revert node w. induction fuel as [|fuel IH]; intros node w; [done|].
  destruct node as [c|]; [|done]. simpl. etrans; [apply (next_merge_check c)|apply IH].
Qed.

Lemma glist_next_app pre c post :
  NoDup (pre ++ c :: post) -> glist_next (pre ++ c :: post) c = head post.
Proof.
  induction pre as [|y pre IH]; simpl; intros Hn.
  - by rewrite decide_True.
  - apply NoDup_cons in Hn as [Hy Hn]. rewrite decide_False; [auto|].
    intros ->. apply Hy. rewrite elem_of_app. right. by left.
Qed.

(** The number of steps an entry can cause: two when it can be split. *)
Definition cost (k : fsal_lock_param_t) w (id : nat) : nat :=
  match s_entries w !! id with
  | Some e => if lock_start (sle_lock e) <? lock_start k then 2 else 1
  | None => 1
  end.
Definition costs k w (ids : list nat) : nat := sum_list_with (cost k w) ids.

Lemma costs_le k w ids : (costs k w ids <= 2 * length ids)%nat.
Proof.
  unfold costs. induction ids as [|y ids IH]; simpl; [lia|].
  assert (cost k w y <= 2)%nat by (unfold cost; repeat case_match; lia). lia.
Qed.

Lemma costs_mono k k1 w w1 ids :
  (forall id, id ∈ ids -> (cost k1 w1 id <= cost k w id)%nat) ->
  (costs k1 w1 ids <= costs k w ids)%nat.
Proof.
  unfold costs. induction ids as [|y ids IH]; simpl; intros He; [lia|].
  pose proof (He y ltac:(by left)).
  specialize (IH ltac:(intros; apply He; by right)). lia.
Qed.

(** An entry that no longer stands against the new lock [k0]. *)
Definition cleared (ol : nat) (tl : fsal_lock_t) (k0 : fsal_lock_param_t) w (id : nat) : Prop :=
  forall e oc, s_entries w !! id = Some e -> id <> lock_entry -> sle_owner e = Some oc ->
    oc ≈ ol -> sle_blocked e = STATE_NON_BLOCKING -> lock_type (sle_lock e) <> tl ->
    forall b, in_range k0 b -> ~ in_range (sle_lock e) b.

(** No lock of this owner reaches the last offset. *)
Definition ends_below (ol : nat) w : Prop :=
  forall id e oc, on_file obj w id -> s_entries w !! id = Some e -> sle_owner e = Some oc ->
    oc ≈ ol -> lock_end (sle_lock e) < UINT64_MAX.

Lemma in_range_end k : lock_ok k -> in_range k (lock_end k).
Proof. intros Hk. range_facts. unfold in_range. lia. Qed.

Lemma unmerged_cleared ol tl bl k k0 w c ce :
  merging ol tl bl k w -> s_entries w !! c = Some ce -> on_file obj w c ->
  unmerged ol k c ce -> (forall b, in_range k0 b -> in_range k b) ->
  ends_below ol w -> lock_end k < UINT64_MAX -> cleared ol tl k0 w c.
Proof.
  intros Hm Hc Hin Hun Hsub Hends Hk e oc He Hne Ho Hsm Hnb Ht b Hb0 Hb.
  rewrite Hc in He. injection He as <-.
  destruct Hun as [->|[Hun|[Hun|Hun]]]; [done|by eapply Hun|done|].
  destruct (merging_decide_spec _ _ _ _ _ _ _ Hm Hc) as (Hk1 & Hce & _).
  pose proof (merge_decide_spec k (sle_lock ce) Hk1 Hce) as Hs. rewrite Hun in Hs.
  eapply Hs; eauto.
Qed.

Lemma step_cleared ol tl bl k k0 w c ce w1 id :
  merging ol tl bl k w -> s_entries w !! c = Some ce ->
  merge_step c ce k w w1 -> (forall b, in_range k0 b -> in_range k b) ->
  id = c \/ id = s_next w -> on_file obj w1 id -> cleared ol tl k0 w1 id.
Proof.
  intros Hm Hc Hst Hsub Hid Hin e oc He _ _ _ _ _ b Hb0 Hb.
  destruct (merging_decide_spec _ _ _ _ _ _ _ Hm Hc) as (Hk & Hce & _).
  pose proof (merge_decide_spec k (sle_lock ce) Hk Hce) as Hs.
  assert (~ on_file obj w (s_next w)) as Hnew.
  { apply (wf_fresh_list env x). by destruct Hm. }
  apply Hsub in Hb0. unfold on_file in *.
  destruct Hst as [c1 D E E' _|c1 c2 e2 D E E2 Eo Eb E' _|k1 l1 D Hl1 El E E' _];
    rewrite D in Hs; rewrite E' in Hin.
  - destruct Hs as (_ & _ & _ & Hr). destruct Hid as [->| ->]; [|done].
    rewrite E, lookup_insert_eq in He. injection He as <-. by apply Hr in Hb as [_ ?].
  - destruct Hs as (_ & _ & _ & _ & _ & _ & Hr).
    rewrite E in He. apply insert_case in He as [[_ ->]|[Hne He]].
    { by destruct (proj1 (Hr b) (or_introl Hb)). }
    destruct Hid as [->| ->]; [done|]. rewrite lookup_insert_eq in He. injection He as <-.
    rewrite E2 in Hb. by destruct (proj1 (Hr b) (or_intror Hb)).
  - apply elem_of_glist_del in Hin as [Hne Hin]. destruct Hid as [->| ->]; done.
Qed.

Lemma step_ends ol tl bl k w c ce oc w1 k1 :
  merging ol tl bl k w -> s_entries w !! c = Some ce -> on_file obj w c ->
  sle_owner ce = Some oc -> oc ≈ ol ->
  merge_step c ce k w w1 -> merging ol tl bl k1 w1 ->
  (forall b, in_range k1 b -> in_range k b \/ in_range (sle_lock ce) b) ->
  ends_below ol w -> lock_end k < UINT64_MAX ->
  ends_below ol w1 /\ lock_end k1 < UINT64_MAX.
Proof.
  intros Hm Hc Hin Hoc Hsm Hst Hm1 Hsub Hends Hek.
  destruct (merging_decide_spec _ _ _ _ _ _ _ Hm Hc) as (Hk & Hce & _).
  pose proof (merge_decide_spec k (sle_lock ce) Hk Hce) as Hs.
  pose proof (Hends c ce oc Hin Hc Hoc Hsm) as Hec.
  assert (lock_end k1 < UINT64_MAX) as Hek1.
  { destruct Hm1 as [Hwf1 _ (l1 & Hl1 & _ & _ & _ & <-) _].
    pose proof (in_range_end _ (wf_ranges env x w1 Hwf1 _ _ Hl1)) as [Hr|Hr]%Hsub;
      unfold in_range in Hr; lia. }
  split; [|done]. intros id e o Hid He Ho Hso. unfold on_file in *.
  destruct Hst as [c1 D E E' _|c1 c2 e2 D E E2 Eo Eb E' _|k2 l1 D Hl1 El E E' _];
    rewrite D in Hs; rewrite E' in Hid.
  - destruct Hs as (_ & Hok & _ & Hr). rewrite E in He.
    apply insert_case in He as [[-> ->]|[_ He]]; [|eauto].
    pose proof (in_range_end _ Hok) as [Hr1 _]%Hr. simpl. unfold in_range in Hr1. lia.
  - destruct Hs as (_ & _ & Hok1 & Hok2 & _ & _ & Hr). rewrite E in He.
    apply insert_case in He as [[-> ->]|[_ He]].
    { pose proof (proj1 (Hr _) (or_introl (in_range_end _ Hok1))) as [Hr1 _].
      simpl. unfold in_range in Hr1. lia. }
    apply insert_case in He as [[-> ->]|[Hne He]].
    { pose proof (proj1 (Hr _) (or_intror (in_range_end _ Hok2))) as [Hr1 _].
      rewrite E2. unfold in_range in Hr1. lia. }
    apply elem_of_glist_add_tail in Hid as [Hid|[_ ->]]; [eauto|done].
  - apply elem_of_glist_del in Hid as [Hne Hid].
    destruct (decide (id = lock_entry)) as [->|Hnl].
    + destruct Hm1 as [_ _ (l2 & Hl2 & _ & _ & _ & <-) _]. congruence.
    + rewrite E in He by done. eauto.
Qed.

Lemma step_cost ol tl bl k w c ce w1 ext post k1 :
  merging ol tl bl k w -> merging ol tl bl k1 w1 -> s_entries w !! c = Some ce ->
  merge_step c ce k w w1 -> lock_start k1 <= lock_start k ->
  (forall id, id ∈ post -> id <> c /\ id <> s_next w) ->
  ext = [] \/ (ext = [s_next w] /\ exists c1 c2, merge_decide k (sle_lock ce) = merge_split c1 c2) ->
  (costs k1 w1 (post ++ ext) < costs k w (c :: post))%nat.
Proof.
  intros Hm Hm1 Hc Hst Hs1 Hpost Hext.
  destruct (merging_decide_spec _ _ _ _ _ _ _ Hm Hc) as (Hk & Hce & _).
  pose proof (merge_decide_spec k (sle_lock ce) Hk Hce) as Hs.
  assert (costs k1 w1 post <= costs k w post)%nat as Hle.
  { apply costs_mono. intros id [Hid1 Hid2]%Hpost. unfold cost.
    destruct (decide (id = lock_entry)) as [->|Hnl].
    - destruct Hm as [_ _ (l & -> & _ & _ & _ & <-) _].
      destruct Hm1 as [_ _ (l1 & -> & _ & _ & _ & <-) _].
      by rewrite !(proj2 (Z.ltb_ge _ _) (Z.le_refl _)).
    - rewrite (step_untouched c ce k w w1 id) by done.
      destruct (s_entries w !! id) as [e|]; [|lia].
      destruct (Z.ltb_spec (lock_start (sle_lock e)) (lock_start k1)),
        (Z.ltb_spec (lock_start (sle_lock e)) (lock_start k)); lia. }
  unfold costs in *. rewrite sum_list_with_app. simpl.
  assert (1 <= cost k w c)%nat by (unfold cost; repeat case_match; lia).
  destruct Hext as [->|(-> & c1 & c2 & D)]; [simpl; lia|].
  rewrite D in Hs. destruct Hs as (_ & [Hlt Hge] & _).
  assert (cost k w c = 2%nat) as ->.
  { unfold cost. rewrite Hc. by rewrite (proj2 (Z.ltb_lt _ _) Hlt). }
  assert (cost k1 w1 (s_next w) = 1%nat) as E1; [|simpl; lia].
  destruct Hst as [? D'|d1 d2 e2 D' E E2 _ _ _ _|? ? D']; rewrite D in D'; try done.
  injection D' as <- <-. unfold cost.
  assert (s_next w <> c).
  { intros <-. destruct Hm as [Hwf _ _ _]. by rewrite (wf_fresh env x w Hwf) in Hc. }
  rewrite E, lookup_insert_ne, lookup_insert_eq, E2 by done.
  by rewrite (proj2 (Z.ltb_ge _ _)) by lia.
Qed.

Lemma held_sound_refl q w : held_sound q w w.
Proof. intros o t b H. exists o. by split. Qed.

Lemma held_sound_trans q w1 w2 w3 :
  held_sound q w1 w2 -> held_sound q w2 w3 -> held_sound q w1 w3.
Proof.
  intros H1 H2 o t b (o1 & E1 & (o2 & E2 & H)%H1)%H2. exists o2. split; [by etrans|done].
Qed.

Lemma held_complete_refl q tl w : held_complete q tl w w.
Proof. intros o t b H. exists o. split; [done|]. by left. Qed.

Lemma held_complete_trans q tl w1 w2 w3 :
  held_sound q w1 w2 -> held_complete q tl w1 w2 -> held_complete q tl w2 w3 ->
  held_complete q tl w1 w3.
Proof.
  intros Hs H1 H2 o t b (o1 & E1 & [H|[H (o2 & E2 & H')]])%H1.
  - apply H2 in H as (o3 & E3 & [H|[H (o4 & E4 & H')]]).
    + exists o3. split; [by etrans|]. by left.
    + apply Hs in H' as (o5 & E5 & H'). exists o3. split; [by etrans|]. right.
      split; [done|]. exists o5. split; [|done]. etrans; [exact E5|]. by etrans.
  - apply H2 in H as (o3 & E3 & [H|[H _]]); exists o3;
      (split; [by etrans|]); right; eauto.
Qed.

(** An entry the merge leaves as it is. *)
Definition bystander (ol : nat) (e : state_lock_entry_t) : Prop :=
  (forall oc, sle_owner e = Some oc -> ~ oc ≈ ol) \/ sle_blocked e <> STATE_NON_BLOCKING.

(** What the walk, or part of it, achieves. *)
Record merged ol tl bl k w k' w' : Prop := {
  md_merging : merging ol tl bl k' w';
  md_grow : forall b, in_range k b -> in_range k' b;
  md_sound : forall q, q STATE_NON_BLOCKING = true -> q bl = true -> held_sound q w w';
  md_complete : forall q, q STATE_NON_BLOCKING = true -> q bl = true -> held_complete q tl w w';
  md_lists : forall h, h <> lock_list obj -> glist (s_lists w') h = glist (s_lists w) h;
  md_on_file : forall j, on_file obj w' j -> on_file obj w j \/ (s_next w <= j)%nat;
  md_entries : forall j, ~ on_file obj w j -> j <> lock_entry -> (j < s_next w)%nat ->
    s_entries w' !! j = s_entries w !! j;
  md_bystander : forall j e, on_file obj w j -> j <> lock_entry -> s_entries w !! j = Some e ->
    bystander ol e -> on_file obj w' j /\ s_entries w' !! j = Some e;
  md_entry_on_file : on_file obj w lock_entry -> on_file obj w' lock_entry;
  md_obj : sle_obj <$> s_entries w' !! lock_entry = sle_obj <$> s_entries w !! lock_entry;
  md_next : (s_next w <= s_next w')%nat;
  md_cookies : s_cookies w' = s_cookies w;
  md_fsal : s_fsal w' = s_fsal w
}.

Lemma merged_refl ol tl bl k w : merging ol tl bl k w -> merged ol tl bl k w k w.
Proof.
  intros. split; auto using held_sound_refl, held_complete_refl.
Qed.

Lemma merged_trans ol tl bl k1 w1 k2 w2 k3 w3 :
  merged ol tl bl k1 w1 k2 w2 -> merged ol tl bl k2 w2 k3 w3 -> merged ol tl bl k1 w1 k3 w3.
Proof.
  intros [M1 G1 S1 C1 L1 O1 E1 B1 F1 J1 N1 K1 P1] [M2 G2 S2 C2 L2 O2 E2 B2 F2 J2 N2 K2 P2].
  split; auto; try congruence.
  - intros q Hq Hb. eapply held_sound_trans; eauto.
  - intros q Hq Hb. eapply held_complete_trans; eauto.
  - intros h Hh. rewrite L2 by done. auto.
  - intros j [H|H]%O2; [|right; lia]. apply O1 in H as [H|H]; auto.
  - intros j H1 H2 H3. rewrite E2; [auto| |done|lia]. intros [H|H]%O1; [done|lia].
  - intros j e H1 H2 H3 H4. destruct (B1 j e H1 H2 H3 H4). eauto.
  - etrans; eauto.
Qed.

Lemma step_merged ol tl bl k w c ce oc w1 k1 :
  merging ol tl bl k w -> merging ol tl bl k1 w1 ->
  on_file obj w c -> s_entries w !! c = Some ce -> c <> lock_entry ->
  sle_owner ce = Some oc -> oc ≈ ol -> sle_blocked ce = STATE_NON_BLOCKING ->
  merge_step c ce k w w1 -> (forall b, in_range k b -> in_range k1 b) ->
  s_cookies w1 = s_cookies w -> s_fsal w1 = s_fsal w ->
  merged ol tl bl k w k1 w1.
Proof.
  intros Hm Hm1 Hin Hc Hne Hoc Hsm Hnb Hst Hsub Hck Hfs.
  pose proof (m_wf _ _ _ _ _ Hm) as Hwf.
  assert (forall j, on_file obj w1 j -> on_file obj w j \/ j = s_next w) as Hon.
  { intros j. unfold on_file.
    destruct Hst as [? _ _ E' _|? ? ? _ _ _ _ _ E' _|? ? _ _ _ _ E' _]; rewrite E'; auto.
    - rewrite elem_of_glist_add_tail. intros [?|[_ ?]]; auto.
    - rewrite elem_of_glist_del. intros [_ ?]. auto. }
  assert (forall j, j <> c -> on_file obj w j -> on_file obj w1 j) as Hon1.
  { intros j Hj. unfold on_file.
    destruct Hst as [? _ _ E' _|? ? ? _ _ _ _ _ E' _|? ? _ _ _ _ E' _]; rewrite E'; auto.
    - rewrite elem_of_glist_add_tail. auto.
    - rewrite elem_of_glist_del. auto. }
  assert (s_next w1 = s_next w \/ s_next w1 = S (s_next w)) as Hnx
    by (destruct Hst; auto).
  split; auto; try lia.
  - intros q Hq Hb. by eapply step_held_sound.
  - intros q Hq Hb. by eapply step_held_complete.
  - intros h Hh. by eapply step_other_lists.
  - intros j [?| ->]%Hon; [by left|right; lia].
  - intros j H1 H2 H3. eapply step_untouched; [done| |done|lia]. by intros ->.
  - intros j e H1 H2 H3 H4.
    assert (j <> c).
    { intros ->. rewrite Hc in H3. injection H3 as <-. destruct H4 as [H4|H4]; [|done].
      by eapply H4. }
    split; [auto|]. rewrite (step_untouched c ce k w w1 j); auto.
    intros ->. by eapply (wf_fresh_list env x w Hwf).
  - destruct (m_entry _ _ _ _ _ Hm) as (l & Hl & _).
    pose proof (wf_fresh env x w Hwf) as Hfr.
    destruct Hst as [? _ E _ _|? ? ? _ E _ _ _ _ _|? l' _ Hl' E _ _ _].
    + by rewrite E, lookup_insert_ne.
    + rewrite E, !lookup_insert_ne by congruence. done.
    + by rewrite E, Hl'.
Qed.

Lemma merge_loop fuel ol tl bl k0 k w pre rest :
  let w' := glist_for_each_safe fuel (fun w => lst w)
              (merge_check_entry env obj lock_entry) (head rest) w in
  merging ol tl bl k w -> bounded w' -> lst w = pre ++ rest ->
  (costs k w rest <= fuel)%nat -> (forall b, in_range k0 b -> in_range k b) ->
  exists k', merged ol tl bl k w k' w' /\
    (ends_below ol w -> lock_end k < UINT64_MAX ->
     (forall id, id ∈ pre -> cleared ol tl k0 w id) ->
     forall id, on_file obj w' id -> cleared ol tl k0 w' id) /\
    (forall n, glist_for_each_safe (fuel + n) (fun w => lst w)
                 (merge_check_entry env obj lock_entry) (head rest) w = w').
Proof.
  revert k w pre rest. induction fuel as [|fuel IH]; intros k w pre rest; simpl;
    intros Hm Hbd Hl Hcost Hk0.
  { destruct rest as [|c rest].
    - exists k. split_and!; [by apply merged_refl| |by intros [|n]]. intros _ _ Hpre id.
      unfold on_file. rewrite Hl, app_nil_r. apply Hpre.
    - assert (1 <= cost k w c)%nat by (unfold cost; repeat case_match; lia).
      unfold costs in Hcost. simpl in Hcost. lia. }
  destruct rest as [|c post]; simpl in *.
  { exists k. split_and!; [by apply merged_refl| |done]. intros _ _ Hpre id. unfold on_file.
    rewrite Hl, app_nil_r. apply Hpre. }
  pose proof (m_wf _ _ _ _ _ Hm) as Hwf.
  pose proof (wf_lists env x w Hwf) as (Hlive & Hnd & _).
  assert (on_file obj w c) as Hin
    by (unfold on_file; rewrite Hl, elem_of_app; right; by left).
  destruct (Hlive _ _ Hin) as (ce & Hc & [oc Hoc] & _).
  rewrite Hl, glist_next_app in Hbd |- * by (rewrite <- Hl; apply Hnd).
  destruct (merge_check_step ol tl bl k w c ce oc Hm Hin Hc Hoc)
    as (Hwf1 & Hck & Hfs & [[E Hun]|(Hne & Hsm & Hnb & Hst)]).
  - rewrite E in Hbd |- *. rewrite (cons_middle c pre post), app_assoc in Hl.
    destruct (IH k w (pre ++ [c]) post Hm Hbd Hl) as (k' & Hmd & Hclr & Hfuel); auto.
    { assert (1 <= cost k w c)%nat by (unfold cost; repeat case_match; lia).
      unfold costs in *. simpl in Hcost. lia. }
    exists k'. split_and!; [done| |done]. intros He Hk Hpre. apply Hclr; auto.
    intros id. rewrite elem_of_app, list_elem_of_singleton.
    intros [?| ->]; [auto|]. by eapply unmerged_cleared.
  - set (w1 := merge_check_entry env obj lock_entry c w) in *.
    assert (bounded w1) as Hbd1 by (eapply bounded_mono; [apply next_merge_loop|exact Hbd]).
    destruct (step_merging ol tl bl k w c ce w1) as (k1 & Hm1 & Hs1 & Hsub & Hsub'); auto.
    destruct (step_list c ce k w w1 pre post) as (mid & ext & Hl1 & Hmid & Hext); auto.
    assert (merged ol tl bl k w k1 w1) as Hmd1 by (by eapply step_merged).
    assert (forall b, in_range k0 b -> in_range k1 b) as Hk1 by auto.
    specialize (Hnd (lock_list obj)). rewrite Hl in Hnd.
    apply NoDup_app in Hnd as (_ & Hpc & [Hcp _]%NoDup_cons).
    assert (forall id, id ∈ pre ++ post -> id <> c /\ id <> s_next w) as Hold.
    { intros id Hid. split.
      - intros ->. apply elem_of_app in Hid as [Hid|Hid]; [|done]. apply (Hpc c Hid). by left.
      - intros ->. apply (wf_fresh_list env x w Hwf (lock_list obj)). rewrite Hl.
        apply elem_of_app in Hid as [Hid|Hid]; apply elem_of_app; [by left|right; by right]. }
    assert (forall id, (forall id, id ∈ pre -> cleared ol tl k0 w id) ->
              on_file obj w1 id -> id ∈ pre ++ mid ++ ext -> cleared ol tl k0 w1 id) as Hclr1.
    { intros id Hpre Hon Hid. destruct (decide (id ∈ pre)) as [Hp|Hp].
      - intros e o He Hnl. rewrite (step_untouched c ce k w w1 id) in He;
          try (apply Hold; rewrite elem_of_app; by left); try done.
        by apply (Hpre id Hp).
      - apply (step_cleared ol tl bl k k0 w c ce w1 id); try done.
        apply elem_of_app in Hid as [?|Hid]; [done|]. apply elem_of_app in Hid as [Hid|Hid].
        + left. destruct Hmid as [->| ->]; [by apply list_elem_of_singleton in Hid|].
          by apply elem_of_nil in Hid.
        + right. destruct Hext as [->|[-> _]]; [by apply elem_of_nil in Hid|].
          by apply list_elem_of_singleton in Hid. }
    destruct post as [|p ps].
    + simpl in *. assert (forall m, glist_for_each_safe m (fun w => lst w)
                    (merge_check_entry env obj lock_entry) None w1 = w1) as Hnone
        by (by intros [|m]).
      rewrite !Hnone in *. exists k1. split_and!; [done| |intros n; by rewrite Hnone].
      intros _ _ Hpre id Hon; apply Hclr1; auto; unfold on_file in Hon; by rewrite Hl1 in Hon.
    + rewrite app_assoc in Hl1. change (head (p :: ps)) with (head ((p :: ps) ++ ext)) in *.
      destruct (IH k1 w1 (pre ++ mid) ((p :: ps) ++ ext) Hm1 Hbd Hl1) as (k' & Hmd & Hclr & Hfuel); auto.
      { pose proof (step_cost ol tl bl k w c ce w1 ext (p :: ps) k1) as Hsc.
        unfold costs in *. simpl in *. apply (Nat.lt_succ_r _ fuel).
        eapply Nat.lt_le_trans; [apply Hsc; try done|exact Hcost].
        intros id Hid. apply Hold. rewrite elem_of_app. by right. }
      exists k'. split_and!; [by eapply merged_trans| |done]. intros He Hk Hpre.
      destruct (step_ends ol tl bl k w c ce oc w1 k1) as [He1 Hek1]; auto.
      apply Hclr; auto. intros id Hid. apply Hclr1; auto.
      * unfold on_file. rewrite Hl1, elem_of_app. by left.
      * rewrite app_assoc, elem_of_app. by left.
Qed.

(** [merge_lock_entry] as a whole. *)
Lemma merge_lock_entry_spec ol tl bl k w :
  merging ol tl bl k w -> bounded (merge_lock_entry env obj lock_entry w) ->
  exists k', merged ol tl bl k w k' (merge_lock_entry env obj lock_entry w) /\
    (ends_below ol w -> lock_end k < UINT64_MAX ->
     forall id, on_file obj (merge_lock_entry env obj lock_entry w) id ->
       cleared ol tl k (merge_lock_entry env obj lock_entry w) id).
Proof.
  intros Hm Hbd. unfold merge_lock_entry in *.
  destruct (merge_loop (2 * length (lst w)) ol tl bl k k w [] (lst w))
    as (k' & Hmd & Hclr & _); auto using costs_le.
  exists k'. split; [done|]. intros He Hk. apply Hclr; auto.
  intros id. by rewrite elem_of_nil.
Qed.

(** The bound on the traversal is never what ends it. *)
Lemma merge_lock_entry_fuel ol tl bl k w n :
  merging ol tl bl k w -> bounded (merge_lock_entry env obj lock_entry w) ->
  glist_for_each_safe (2 * length (lst w) + n) (fun w => lst w)
    (merge_check_entry env obj lock_entry) (head (lst w)) w
  = merge_lock_entry env obj lock_entry w.
Proof.
  intros Hm Hbd. unfold merge_lock_entry in *.
  destruct (merge_loop (2 * length (lst w)) ol tl bl k k w [] (lst w))
    as (k' & _ & _ & Hf); auto using costs_le.
Qed.
End merge.
