(* ===== verification/LockSubtract.v ===== *)
(** * The subtraction of a range, byte by byte

    [subtract_lock_from_entry], [subtract_lock_from_list] and
    [subtract_list_from_list] (SAL/state_lock.c): whatever the subtraction
    applies to loses exactly the bytes of the range, and everything else
    stays. *)
From S2P Require Import Prelude Status Owners Fsal LockData LockList LockWf LockSem LockMerge.

(** ** The pieces that remain of a range *)

Lemma left_piece_range l e :
  lock_ok l -> lock_ok e -> lock_start e < lock_start l -> lock_start l <= lock_end e ->
  let left := set_lock_length (u64 (lock_start l - lock_start e)) e in
  lock_ok left /\ forall b, in_range left b <-> in_range e b /\ b < lock_start l.
Proof.
  intros Hl He H1 H2. range_facts. pose proof Hl as (?&?&?&?). pose proof He as (?&?&?&?).
  rewrite u64_small by (unfold is_u64; lia).
  destruct (lock_set_length e (lock_start l - lock_start e)) as [Hok Hr]; try lia.
  split; [done|]. intros b. rewrite Hr. unfold in_range. lia.
Qed.

Lemma right_piece_range l e :
  lock_ok l -> lock_ok e -> lock_end l < lock_end e -> lock_start e <= lock_end l ->
  let right := set_lock_length
                 (if lock_end e =? UINT64_MAX then 0 else u64 (lock_end e - lock_end l))
                 (set_lock_start (u64 (lock_end l + 1)) e) in
  lock_ok right /\ forall b, in_range right b <-> in_range e b /\ lock_end l < b.
Proof.
  intros Hl He H1 H2. range_facts. pose proof Hl as (?&?&?&?). pose proof He as (?&?&?&?).
  rewrite (u64_small (lock_end l + 1)) by (unfold is_u64; lia).
  destruct (Z.eqb_spec (lock_end e) UINT64_MAX) as [Hmax|Hmax].
  - unfold set_lock_length, set_lock_start. simpl.
    destruct (lock_ok_mk (lock_sle_type e) (lock_type e) (lock_end l + 1) 0 (lock_reclaim e))
      as [Hok Hend']; try lia.
    split; [done|]. intros b. unfold in_range. rewrite Hend'. simpl. lia.
  - rewrite u64_small by (unfold is_u64; lia).
    destruct (lock_set_range e (lock_end l + 1) (lock_end e - lock_end l)) as [Hok Hr]; try lia.
    split; [done|]. intros b. rewrite Hr. unfold in_range. lia.
Qed.

Lemma next_free_list {F} (env : sal_env) h (w : sal F) : s_next (free_list env h w) = s_next w.
Proof.
  unfold free_list. generalize (glist (s_lists w) h). intros l. revert w.
  induction l as [|y l IH]; intros w; simpl; [done|]. by rewrite IH, next_remove.
Qed.

Section subtract.
Context {F : Type} (env : sal_env) (x : nat -> Z) (Hx : forall j, x j <= 3).
Implicit Types (w : sal F) (h : sle_head).

(** ** One piece split off an entry *)

(** [n] is a part of the entry [e]: same owner, file, type and status. *)
Definition piece_of (e : state_lock_entry_t) (P : Z -> Prop) w (n : nat) : Prop :=
  exists en, s_entries w !! n = Some en /\ sle_owner en = sle_owner e /\
    sle_obj en = sle_obj e /\ sle_blocked en = sle_blocked e /\
    lock_type (sle_lock en) = lock_type (sle_lock e) /\
    forall b, in_range (sle_lock en) b <-> P b.

Lemma split_piece f h id e o w :
  wf_with env x w -> s_entries w !! id = Some e -> sle_owner e = Some o ->
  lock_ok (f (sle_lock e)) -> lock_type (f (sle_lock e)) = lock_type (sle_lock e) ->
  (forall obj, h = lock_list obj -> sle_obj e = obj) ->
  exists w1 w', state_lock_entry_t_dup env id w = (Some (s_next w), w1) /\
  w' = upd_lists (glist_add_tail h (s_next w)) (on_lock f (s_next w) w1) /\
  wf_with env x w' /\
  s_next w' = S (s_next w) /\ s_cookies w' = s_cookies w /\ s_fsal w' = s_fsal w /\
  s_lists w' = glist_add_tail h (s_next w) (s_lists w) /\
  (forall j, (j < s_next w)%nat -> s_entries w' !! j = s_entries w !! j) /\
  piece_of e (in_range (f (sle_lock e))) w' (s_next w).
Proof.
  intros Hwf He Ho Hok Ht Hh.
  destruct (dup_spec env id e o w He Ho) as (w1 & E & Hwf1 & E1 & E2 & E3 & E4 & E5 & E6).
  specialize (Hwf1 x Hwf).
  exists w1. eexists. split; [done|]. split; [reflexivity|].
  assert (s_entries (on_lock f (s_next w) w1) !! s_next w =
          Some (set_sle_lock (f (sle_lock e))
                  (new_entry_of (sle_obj e) (sle_export e) (sle_blocked e) o
                     (sle_state e) (sle_lock e)))) as Hn.
  { simpl. by rewrite lookup_alter_eq, E1, lookup_insert_eq. }
  split_and!; simpl; try done.
  - apply wf_upd_lists; [apply wf_on_entry; [done|]|].
    + intros e0. rewrite E1, lookup_insert_eq. intros [= <-]. by split_and!.
    + simpl in Hn. simpl. eapply lists_ok_add_tail; [| |exact Hn|done|done].
      * eapply lists_ok_entries; [apply (wf_lists env x w1 Hwf1)|].
        intros h' j e0 _ He0 Ho0. destruct (decide (j = s_next w)) as [->|].
        -- rewrite lookup_alter_eq, He0. simpl. eauto.
        -- rewrite lookup_alter_ne by done. eauto.
      * rewrite E3. by apply (wf_fresh_list env x).
  - by rewrite E3.
  - intros j Hj. rewrite lookup_alter_ne by lia. rewrite E1. apply lookup_insert_ne. lia.
  - eexists. split; [exact Hn|]. by split_and!.
Qed.

(** What a subtraction leaves of an entry: [ns] are the pieces. *)
Record entry_split (lock : fsal_lock_param_t) h split remove found (e : state_lock_entry_t)
    (ns : list nat) w w' : Prop := {
  es_old : forall j, (j < s_next w)%nat -> s_entries w' !! j = s_entries w !! j;
  es_list : glist (s_lists w') h = filter (fun y => y <> found) (glist (s_lists w) h);
  es_remove : glist (s_lists w') remove = glist (s_lists w) remove ++ [found];
  es_split : glist (s_lists w') split = glist (s_lists w) split ++ ns;
  es_others : forall h', h' <> h -> h' <> split -> h' <> remove ->
    glist (s_lists w') h' = glist (s_lists w) h';
  es_fresh : forall n, n ∈ ns -> (s_next w <= n)%nat;
  es_pieces : forall n, n ∈ ns -> exists P, piece_of e P w' n /\
    forall b, P b -> in_range (sle_lock e) b /\ ~ in_range lock b;
  es_cover : forall b, in_range (sle_lock e) b -> ~ in_range lock b ->
    exists n P, n ∈ ns /\ piece_of e P w' n /\ P b
}.

Lemma piece_mono e P w w' n :
  piece_of e P w n -> s_entries w' !! n = s_entries w !! n -> piece_of e P w' n.
Proof. intros (en & H & ?) E. exists en. by rewrite E. Qed.

(** The state once the pieces are made, before the entry itself moves. *)
Record pieces_added split (ns : list nat) w w1 : Prop := {
  pa_wf : wf_with env x w1;
  pa_next : (s_next w <= s_next w1)%nat;
  pa_cookies : s_cookies w1 = s_cookies w;
  pa_fsal : s_fsal w1 = s_fsal w;
  pa_lists : forall h, glist (s_lists w1) h =
    if decide (h = split) then glist (s_lists w) split ++ ns else glist (s_lists w) h;
  pa_old : forall j, (j < s_next w)%nat -> s_entries w1 !! j = s_entries w !! j;
  pa_fresh : forall n, n ∈ ns -> (s_next w <= n)%nat
}.

Lemma pieces_added_nil split w : wf_with env x w -> pieces_added split [] w w.
Proof.
  intros. split; try done.
  - intros h. rewrite app_nil_r. by case_decide; subst.
  - intros n. by rewrite elem_of_nil.
Qed.

Lemma pieces_added_one split ns w w1 w2 :
  pieces_added split ns w w1 -> wf_with env x w2 ->
  s_next w2 = S (s_next w1) -> s_cookies w2 = s_cookies w1 -> s_fsal w2 = s_fsal w1 ->
  s_lists w2 = glist_add_tail split (s_next w1) (s_lists w1) ->
  (forall j, (j < s_next w1)%nat -> s_entries w2 !! j = s_entries w1 !! j) ->
  pieces_added split (ns ++ [s_next w1]) w w2.
Proof.
  intros [H1 H2 H3 H4 H5 H6 H7] Hwf En Ec Ef El Eo. split; try done; try congruence; try lia.
  - intros h. rewrite El, glist_add_tail_lookup, !H5.
    repeat case_decide; subst; try done. by rewrite app_assoc.
  - intros j Hj. rewrite Eo by lia. auto.
  - intros n. rewrite elem_of_app, list_elem_of_singleton. intros [?| ->]; auto.
Qed.

(** The entry moves to the list of removed entries. *)
Lemma move_to_remove lock h split remove found e o ns w w1 :
  wf_with env x w -> pieces_added split ns w w1 ->
  found ∈ glist (s_lists w) h -> s_entries w !! found = Some e -> sle_owner e = Some o ->
  h <> split -> h <> remove -> split <> remove -> (forall obj, remove <> lock_list obj) ->
  (forall n, n ∈ ns -> exists P, piece_of e P w1 n /\
     forall b, P b -> in_range (sle_lock e) b /\ ~ in_range lock b) ->
  (forall b, in_range (sle_lock e) b -> ~ in_range lock b ->
     exists n P, n ∈ ns /\ piece_of e P w1 n /\ P b) ->
  let w' := upd_lists (glist_add_tail remove found) (upd_lists (glist_del found) w1) in
  wf_with env x w' /\ s_cookies w' = s_cookies w /\ s_fsal w' = s_fsal w /\
  (s_next w <= s_next w')%nat /\
  entry_split lock h split remove found e ns w w'.
Proof.
  intros Hwf [P1 P2 P3 P4 P5 P6 P7] Hin He Ho N1 N2 N3 N4 Hp Hcov. simpl.
  assert (found < s_next w)%nat as Hlt by (eapply (wf_next env x w Hwf); by eexists).
  destruct (wf_lists env x w Hwf) as (_ & _ & Hd).
  assert (forall h', h' <> h -> found ∉ glist (s_lists w1) h') as Hnot.
  { intros h' Hh' Hin'. rewrite P5 in Hin'. case_decide; [|by eapply Hh', Hd].
    apply elem_of_app in Hin' as [Hin'|Hin'].
    - subst. apply N1. by eapply Hd.
    - apply P7 in Hin'. lia. }
  assert (forall h', glist (glist_add_tail remove found (glist_del found (s_lists w1))) h' =
            if decide (h' = remove) then glist (s_lists w1) remove ++ [found]
            else if decide (h' = h) then filter (fun y => y <> found) (glist (s_lists w1) h)
            else glist (s_lists w1) h') as Hg.
  { intros h'. rewrite glist_add_tail_lookup. case_decide; subst.
    - by rewrite glist_del_not_in by by apply Hnot.
    - case_decide; subst; [by rewrite glist_del_lookup|]. by rewrite glist_del_not_in by auto. }
  split_and!; try done.
  - apply wf_upd_lists; [apply wf_upd_lists; [done|]|]; simpl.
    + apply lists_ok_del, (wf_lists env x w1 P1).
    + eapply lists_ok_add_tail.
      * apply lists_ok_del, (wf_lists env x w1 P1).
      * apply glist_del_on_no_list.
      * by rewrite P6.
      * by rewrite Ho.
      * intros obj ->. by destruct (N4 obj).
  - split; simpl; try done; intros.
    + by rewrite Hg, decide_False, decide_True, P5, decide_False by done.
    + by rewrite Hg, decide_True, P5, decide_False by done.
    + by rewrite Hg, decide_False, decide_False, P5, decide_True by done.
    + by rewrite Hg, decide_False, decide_False, P5, decide_False by done.
Qed.

(** The pieces [subtract_lock_from_entry] makes of an overlapping entry. *)
Lemma subtract_pieces found lock split w e o :
  wf_with env x w -> lock_ok lock -> s_entries w !! found = Some e -> sle_owner e = Some o ->
  (forall obj, split <> lock_list obj) ->
  lock_start (sle_lock e) <= lock_end lock -> lock_start lock <= lock_end (sle_lock e) ->
  let left w :=
    match state_lock_entry_t_dup env found w with
    | (Some found_entry_left, w) =>
        upd_lists (glist_add_tail split found_entry_left)
          (on_lock (set_lock_length (u64 (lock_start lock - lock_start (sle_lock e))))
             found_entry_left w)
    | (None, w) => w
    end in
  let right w :=
    match state_lock_entry_t_dup env found w with
    | (Some found_entry_right, w) =>
        upd_lists (glist_add_tail split found_entry_right)
          (on_lock (fun k =>
             set_lock_length
               (if lock_end (sle_lock e) =? UINT64_MAX then 0
                else u64 (lock_end (sle_lock e) - lock_end lock))
               (set_lock_start (u64 (lock_end lock + 1)) k))
             found_entry_right w)
    | (None, w) => w
    end in
  let wl := if lock_start (sle_lock e) <? lock_start lock then left w else w in
  let wp := if lock_end lock <? lock_end (sle_lock e) then right wl else wl in
  exists ns, pieces_added split ns w wp /\
    (forall n, n ∈ ns -> exists P, piece_of e P wp n /\
       forall b, P b -> in_range (sle_lock e) b /\ ~ in_range lock b) /\
    (forall b, in_range (sle_lock e) b -> ~ in_range lock b ->
       exists n P, n ∈ ns /\ piece_of e P wp n /\ P b).
Proof.
  intros Hwf Hlk He Ho N4 Hge1 Hge2 left right wl wp.
  pose proof (wf_ranges env x w Hwf found e He) as Hek.
  assert (found < s_next w)%nat as Hlt by (eapply (wf_next env x w Hwf); by eexists).
  assert (exists nl, pieces_added split nl w wl /\
            (forall n, n ∈ nl -> piece_of e (fun b => in_range (sle_lock e) b /\
                                              b < lock_start lock) wl n) /\
            (lock_start (sle_lock e) < lock_start lock -> exists n, n ∈ nl))
    as (nl & HL1 & HL2 & HL3).
  { subst wl. destruct (Z.ltb_spec (lock_start (sle_lock e)) (lock_start lock)) as [Hl|Hl].
    - destruct (left_piece_range lock (sle_lock e)) as [Hok Hr]; try done.
      destruct (split_piece (set_lock_length (u64 (lock_start lock - lock_start (sle_lock e))))
                  split found e o w) as (w1 & w' & E & E' & S1 & S2 & S3 & S4 & S5 & S6 & S7);
        try done.
      { intros obj Hobj. by destruct (N4 obj). }
      assert (left w = w') as -> by (subst left; simpl; by rewrite E, E').
      exists ([] ++ [s_next w]). split; [|split].
      + by apply pieces_added_one; [apply pieces_added_nil|..].
      + intros n ->%list_elem_of_singleton. destruct S7 as (en & A1&A2&A3&A4&A5&A6).
        exists en. split_and!; try done. intros b. by rewrite A6, Hr.
      + intros _. exists (s_next w). by left.
    - exists []. split; [by apply pieces_added_nil|]. split; [|lia].
      intros n. by rewrite elem_of_nil. }
  assert (s_entries wl !! found = Some e) as He' by (rewrite (pa_old _ _ _ _ HL1); done).
  assert (exists nr, pieces_added split (nl ++ nr) w wp /\
            (forall j, (j < s_next wl)%nat -> s_entries wp !! j = s_entries wl !! j) /\
            (forall n, n ∈ nr -> piece_of e (fun b => in_range (sle_lock e) b /\
                                              lock_end lock < b) wp n) /\
            (lock_end lock < lock_end (sle_lock e) -> exists n, n ∈ nr))
    as (nr & HR1 & HR0 & HR2 & HR3).
  { subst wp. destruct (Z.ltb_spec (lock_end lock) (lock_end (sle_lock e))) as [Hl|Hl].
    - destruct (right_piece_range lock (sle_lock e)) as [Hok Hr]; try done.
      destruct (split_piece (fun k =>
             set_lock_length
               (if lock_end (sle_lock e) =? UINT64_MAX then 0
                else u64 (lock_end (sle_lock e) - lock_end lock))
               (set_lock_start (u64 (lock_end lock + 1)) k))
                  split found e o wl) as (w1 & w' & E & E' & S1 & S2 & S3 & S4 & S5 & S6 & S7);
        try done.
      { by apply (pa_wf _ _ _ _ HL1). }
      { intros obj Hobj. by destruct (N4 obj). }
      assert (right wl = w') as -> by (subst right; simpl; by rewrite E, E').
      exists [s_next wl]. split; [|split; [|split]].
      + by eapply pieces_added_one.
      + done.
      + intros n ->%list_elem_of_singleton. destruct S7 as (en & A1&A2&A3&A4&A5&A6).
        exists en. split_and!; try done. intros b. by rewrite A6, Hr.
      + intros _. exists (s_next wl). by left.
    - exists []. rewrite app_nil_r. split_and!; try done; [|lia].
      intros n. by rewrite elem_of_nil. }
  assert (forall n, n ∈ nl -> piece_of e (fun b => in_range (sle_lock e) b /\
                                            b < lock_start lock) wp n) as HL2'.
  { intros n Hn. eapply piece_mono; [by apply HL2|]. apply HR0.
    apply HL2 in Hn as (en & Hn & _). apply (wf_next env x wl (pa_wf _ _ _ _ HL1)). by eexists. }
  exists (nl ++ nr). split; [done|]. split.
  - intros n [Hn|Hn]%elem_of_app; eexists; (split; [eauto|]); unfold in_range; simpl; lia.
  - intros b Hb Hnb. unfold in_range in Hb, Hnb.
    destruct (decide (b < lock_start lock)) as [Hlt'|Hge'].
    + destruct HL3 as [n Hn]; [lia|]. do 2 eexists. split; [apply elem_of_app; by left|].
      split; [by apply HL2'|]. unfold in_range. lia.
    + destruct HR3 as [n Hn]; [lia|]. do 2 eexists. split; [apply elem_of_app; by right|].
      split; [by apply HR2|]. unfold in_range. lia.
Qed.

Lemma subtract_entry_spec found lock h split remove w e o :
  wf_with env x w -> lock_ok lock ->
  found ∈ glist (s_lists w) h -> s_entries w !! found = Some e -> sle_owner e = Some o ->
  h <> split -> h <> remove -> split <> remove ->
  (forall obj, split <> lock_list obj) -> (forall obj, remove <> lock_list obj) ->
  exists rm w', subtract_lock_from_entry env found lock split remove w = (STATE_SUCCESS, rm, w') /\
  wf_with env x w' /\ s_cookies w' = s_cookies w /\ s_fsal w' = s_fsal w /\
  (s_next w <= s_next w')%nat /\
  ((rm = false /\ w' = w /\ forall b, ~ (in_range (sle_lock e) b /\ in_range lock b)) \/
   (rm = true /\ exists ns, entry_split lock h split remove found e ns w w')).
Proof.
  intros Hwf Hlk Hin He Ho N1 N2 N3 N4 N5.
  pose proof (wf_ranges env x w Hwf found e He) as Hek.
  unfold subtract_lock_from_entry. rewrite He.
  destruct (Z.ltb_spec (lock_end lock) (lock_start (sle_lock e))) as [Hlt1|Hge1].
  { do 2 eexists. split; [reflexivity|]. split_and!; try done. left. split_and!; try done.
    unfold in_range. lia. }
  destruct (Z.ltb_spec (lock_end (sle_lock e)) (lock_start lock)) as [Hlt2|Hge2].
  { do 2 eexists. split; [reflexivity|]. split_and!; try done. left. split_and!; try done.
    unfold in_range. lia. }
  match goal with |- context [upd_lists (glist_del found) ?w1] => set (wp := w1) end.
  assert (exists ns, pieces_added split ns w wp /\
    (forall n, n ∈ ns -> exists P, piece_of e P wp n /\
       forall b, P b -> in_range (sle_lock e) b /\ ~ in_range lock b) /\
    (forall b, in_range (sle_lock e) b -> ~ in_range lock b ->
       exists n P, n ∈ ns /\ piece_of e P wp n /\ P b)) as (ns & Hpa & Hps & Hcov).
  2: { destruct (move_to_remove lock h split remove found e o ns w wp) as (M1&M2&M3&M4&M5);
         try done.
       do 2 eexists. split; [reflexivity|]. split_and!; try done. right. eauto. }
  subst wp.
  destruct ((lock_start lock <=? lock_start (sle_lock e))
            && (lock_end (sle_lock e) <=? lock_end lock)) eqn:Efull.
  - exists []. split; [by apply pieces_added_nil|].
    apply andb_prop in Efull as [E1%Z.leb_le E2%Z.leb_le]. split.
    + intros n. by rewrite elem_of_nil.
    + unfold in_range. intros b. lia.
  - by apply (subtract_pieces found lock split w e o).
Qed.

(** ** The loop over the list *)
Section loop.
Context (owner : option nat) (state_applies : bool) (state : Z) (lock : fsal_lock_param_t).
Context (h : sle_head) (Hlk : lock_ok lock).
Context (Hhs : h <> split_lock_list) (Hhr : h <> remove_list).

(** The bytes the entries [ids] keep. *)
Definition remains (q : state_blocking_t -> bool) (ids : list nat) w (o : nat)
    (t : fsal_lock_t) (b : Z) : Prop :=
  exists id e, id ∈ ids /\ s_entries w !! id = Some e /\ q (sle_blocked e) = true /\
    sle_owner e = Some o /\ lock_type (sle_lock e) = t /\ in_range (sle_lock e) b /\
    ~ (subtract_applies env owner state_applies state e = true /\ in_range lock b).

Lemma remains_cons q id l w o t b :
  remains q (id :: l) w o t b <-> remains q [id] w o t b \/ remains q l w o t b.
Proof.
  unfold remains. split.
  - intros (j & e & [E|Hj]%elem_of_cons & H); [left|right];
      exists j, e; (split; [|done]); [subst; by left|done].
  - intros [(j & e & Hj & H)|(j & e & Hj & H)]; exists j, e; (split; [|done]).
    + apply list_elem_of_singleton in Hj as ->. by left.
    + by right.
Qed.

Lemma remains_entries q l w w' o t b :
  (forall id, id ∈ l -> s_entries w' !! id = s_entries w !! id) ->
  remains q l w' o t b <-> remains q l w o t b.
Proof.
  intros E. unfold remains. split; intros (j & e & Hj & He & H); exists j, e;
    (split; [done|]); rewrite ?E in *; try done; by rewrite <- ?E.
Qed.

(** What the loop over [l], the rest of the list after [kept], does. *)
Record loop_done (l kept kept' ns rs : list nat) w w' : Prop := {
  ld_wf : wf_with env x w';
  ld_cookies : s_cookies w' = s_cookies w;
  ld_fsal : s_fsal w' = s_fsal w;
  ld_next : (s_next w <= s_next w')%nat;
  ld_old : forall j, (j < s_next w)%nat -> s_entries w' !! j = s_entries w !! j;
  ld_list : glist (s_lists w') h = kept ++ kept';
  ld_split : glist (s_lists w') split_lock_list = glist (s_lists w) split_lock_list ++ ns;
  ld_remove : glist (s_lists w') remove_list = glist (s_lists w) remove_list ++ rs;
  ld_others : forall h', h' <> h -> h' <> split_lock_list -> h' <> remove_list ->
    glist (s_lists w') h' = glist (s_lists w) h';
  ld_kept : forall id, id ∈ kept' -> id ∈ l;
  ld_removed : forall id, id ∈ rs -> id ∈ l;
  ld_stay : forall id e, id ∈ l -> s_entries w !! id = Some e ->
    subtract_applies env owner state_applies state e = false -> id ∈ kept';
  ld_fresh : forall n, n ∈ ns -> (s_next w <= n)%nat;
  ld_obj : forall obj n, h = lock_list obj -> n ∈ ns ->
    exists en, s_entries w' !! n = Some en /\ sle_obj en = obj;
  ld_holds : forall q o t b,
    holds_in q (fun id => id ∈ kept' \/ id ∈ ns) w' o t b <-> remains q l w o t b
}.

Lemma listed_lt w h' id : wf_with env x w -> id ∈ glist (s_lists w) h' -> (id < s_next w)%nat.
Proof.
  intros Hwf Hin. destruct (wf_lists env x w Hwf) as (Hl & _).
  destruct (Hl _ _ Hin) as (e & He & _). apply (wf_next env x w Hwf). by eexists.
Qed.

(** The loop keeps an entry and goes on. *)
Lemma loop_done_keep found l kept kept' ns rs w w' e o :
  wf_with env x w -> s_entries w !! found = Some e -> sle_owner e = Some o ->
  (forall b, in_range (sle_lock e) b ->
     ~ (subtract_applies env owner state_applies state e = true /\ in_range lock b)) ->
  loop_done l (kept ++ [found]) kept' ns rs w w' ->
  loop_done (found :: l) kept (found :: kept') ns rs w w'.
Proof.
  intros Hwf He Ho Hno [D1 D2 D3 D4 D5 D6 D7 D8 D9 D10 D15 D14 D11 D12 D13].
  assert (found < s_next w)%nat as Hlt by (eapply (wf_next env x w Hwf); by eexists).
  split; try done.
  - by rewrite D6, <- app_assoc.
  - intros id [->|?]%elem_of_cons; [by left|right; auto].
  - intros id Hid. right. auto.
  - intros id e' [->|?]%elem_of_cons; [by left|right; eauto].
  - intros q o' t b. rewrite remains_cons, <- D13. split.
    + intros (id & e' & [Hin|Hin] & H).
      * apply elem_of_cons in Hin as [->|Hin].
        -- left. exists found, e'. rewrite D5 in H by done.
           destruct H as (H1&H2&H3&H4&H5). split_and!; try done; [by left|].
           rewrite He in H1. injection H1 as <-. auto.
        -- right. exists id, e'. eauto.
      * right. exists id, e'. eauto.
    + intros [(id & e' & Hin & H)|(id & e' & Hin & H)].
      * apply list_elem_of_singleton in Hin as ->. exists found, e'. rewrite D5 by done.
        destruct H as (H1&H2&H3&H4&H5&_). split_and!; try done. left. by left.
      * exists id, e'. split; [|done]. destruct Hin; [left; by right|by right].
Qed.

(** The loop splits an entry and goes on. *)
Lemma loop_done_split found l kept kept' ns1 ns2 rs w w1 w' e o :
  wf_with env x w -> s_entries w !! found = Some e -> sle_owner e = Some o ->
  (forall obj, h = lock_list obj -> sle_obj e = obj) ->
  subtract_applies env owner state_applies state e = true ->
  (forall id, id ∈ l -> (id < s_next w)%nat) ->
  wf_with env x w1 -> s_cookies w1 = s_cookies w -> s_fsal w1 = s_fsal w ->
  (s_next w <= s_next w1)%nat ->
  entry_split lock h split_lock_list remove_list found e ns1 w w1 ->
  loop_done l kept kept' ns2 rs w1 w' ->
  loop_done (found :: l) kept kept' (ns1 ++ ns2) (found :: rs) w w'.
Proof.
  intros Hwf He Ho Hobj Hap Hl Hwf1 Ec Ef En [S1 S2 S3 S4 S5 S6 S7 S8]
    [D1 D2 D3 D4 D5 D6 D7 D8 D9 D10 D15 D14 D11 D12 D13].
  assert (found < s_next w)%nat as Hlt by (eapply (wf_next env x w Hwf); by eexists).
  assert (forall n P, n ∈ ns1 -> piece_of e P w1 n -> piece_of e P w' n) as Hpm.
  { intros n P Hn HP. eapply piece_mono; [done|]. apply D5.
    destruct HP as (en & Hen & _). apply (wf_next env x w1 Hwf1). by eexists. }
  split; try done; try congruence; try lia.
  - intros j Hj. rewrite D5 by lia. auto.
  - by rewrite D7, S4, app_assoc.
  - by rewrite D8, S3, <- app_assoc.
  - intros h' H1 H2 H3. rewrite D9 by done. auto.
  - intros id Hid. right. auto.
  - intros id [->|Hid]%elem_of_cons; [by left|right; auto].
  - intros id e' [->|Hid]%elem_of_cons He' Hna; [congruence|].
    apply (D14 id e'); [done| |done]. rewrite S1; auto.
  - intros n [Hn|Hn]%elem_of_app; [auto|]. specialize (D11 n Hn). lia.
  - intros obj n Eh [Hn|Hn]%elem_of_app; [|eauto].
    destruct (S7 n Hn) as (P & HP & _). apply Hpm in HP as (en & A1&A2&A3&_); [|done].
    exists en. split; [done|]. rewrite A3. auto.
  - intros q o' t b. rewrite remains_cons, <- (remains_entries q l w w1), <- D13
      by (intros; apply S1; auto).
    split.
    + intros (id & e' & Hid & H1 & H2 & H3 & H4 & H5).
      assert (id ∈ ns1 \/ (id ∈ kept' \/ id ∈ ns2)) as [Hn|Hn].
      { destruct Hid as [Hid|[Hid|Hid]%elem_of_app]; auto. }
      * left. destruct (S7 id Hn) as (P & HP & HPb).
        apply Hpm in HP as (en & A1&A2&A3&A4&A5&A6); [|done].
        rewrite H1 in A1. injection A1 as <-. rewrite A6 in H5. destruct (HPb b H5).
        exists found, e. split_and!; try done; try congruence; [by left|naive_solver].
      * right. exists id, e'. by split_and!.
    + intros [(id & e' & Hid & H1 & H2 & H3 & H4 & H5 & H6)|(id & e' & Hid & H)].
      * apply list_elem_of_singleton in Hid as ->. rewrite He in H1. injection H1 as <-.
        destruct (S8 b H5) as (n & P & Hn & HP & Hb); [naive_solver|].
        apply Hpm in HP as (en & A1&A2&A3&A4&A5&A6); [|done].
        exists n, en. split_and!; try congruence; [right; apply elem_of_app; by left|].
        by apply A6.
      * exists id, e'. split; [|done].
        destruct Hid; [by left|right; apply elem_of_app; by right].
Qed.

Lemma subtract_loop_spec l kept removed w :
  wf_with env x w -> glist (s_lists w) h = kept ++ l ->
  exists removed' w' kept' ns rs,
    subtract_lock_loop env owner state_applies state lock l removed w
    = (STATE_SUCCESS, removed', w') /\ loop_done l kept kept' ns rs w w'.
Proof.
  revert kept removed w. induction l as [|found l IH]; intros kept removed w Hwf Hl; simpl.
  { exists removed, w, [], [], []. split; [done|].
    split; rewrite ?app_nil_r; try done; try (intros; by rewrite elem_of_nil in *).
    - by rewrite Hl, app_nil_r.
    - intros q o t b. split.
      + intros (id & e & [H|H] & _); by rewrite elem_of_nil in H.
      + intros (id & e & H & _). by rewrite elem_of_nil in H. }
  pose proof (wf_lists env x w Hwf) as (Hlive & Hnd & _).
  assert (found ∈ glist (s_lists w) h) as Hin
    by (rewrite Hl, elem_of_app; right; by left).
  destruct (Hlive _ _ Hin) as (e & He & [o Ho] & Hobj). rewrite He.
  assert (glist (s_lists w) h = (kept ++ [found]) ++ l) as Hl' by (by rewrite <- app_assoc).
  destruct (subtract_applies env owner state_applies state e) eqn:Eap.
  - destruct (subtract_entry_spec found lock h split_lock_list remove_list w e o)
      as (rm & w1 & -> & Hwf1 & Ec & Ef & En & [(-> & -> & Hno)|(-> & ns1 & Hsp)]); try done.
    + rewrite decide_False by tauto.
      destruct (IH (kept ++ [found]) (removed || false) w Hwf Hl')
        as (rm' & w' & kept' & ns & rs & E & Hd).
      exists rm', w', (found :: kept'), ns, rs. split; [exact E|].
      eapply loop_done_keep; eauto. intros b Hb [_ Hb']. by eapply Hno.
    + rewrite decide_False by tauto.
      assert (glist (s_lists w1) h = kept ++ l) as Hl1.
      { rewrite (es_list _ _ _ _ _ _ _ _ _ Hsp), Hl.
        apply filter_app_cons_ne. rewrite <- Hl. apply Hnd. }
      destruct (IH kept (removed || true) w1 Hwf1 Hl1)
        as (rm' & w' & kept' & ns & rs & E & Hd).
      exists rm', w', kept', (ns1 ++ ns), (found :: rs). split; [exact E|].
      eapply loop_done_split; eauto.
      intros id Hid. apply (listed_lt w h); [done|]. rewrite Hl, elem_of_app. right. by right.
  - destruct (IH (kept ++ [found]) removed w Hwf Hl')
      as (rm' & w' & kept' & ns & rs & E & Hd).
    exists rm', w', (found :: kept'), ns, rs. split; [exact E|].
    eapply loop_done_keep; eauto. intros b _ [? _]. congruence.
Qed.

(** ** Freeing the removed entries *)

Lemma free_list_spec h' w :
  wf_with env x w -> bounded w ->
  let w' := free_list env h' w in
  wf_with env x w' /\ s_next w' = s_next w /\ s_cookies w' = s_cookies w /\
  s_fsal w' = s_fsal w /\ glist (s_lists w') h' = [] /\
  (forall h'', h'' <> h' -> glist (s_lists w') h'' = glist (s_lists w) h'') /\
  (forall j, j ∉ glist (s_lists w) h' -> s_entries w' !! j = s_entries w !! j).
Proof.
  unfold free_list. intros Hwf Hbd.
  remember (glist (s_lists w) h') as l eqn:Hl. symmetry in Hl. revert w Hwf Hbd Hl.
  induction l as [|id l IH]; intros w Hwf Hbd Hl; simpl; [by split_and!|].
  pose proof (wf_lists env x w Hwf) as (Hlive & Hnd & Hd).
  assert (id ∈ glist (s_lists w) h') as Hin by (rewrite Hl; by left).
  destruct (Hlive _ _ Hin) as (e & He & [o Ho] & _).
  destruct (remove_frame env id w e o He Ho) as (R1 & R2 & R3 & R4 & R5).
  destruct (IH (remove_from_locklist env id w)) as (H1&H2&H3&H4&H5&H6&H7).
  - by eapply wf_remove.
  - unfold bounded. by rewrite R3.
  - rewrite R2, glist_del_lookup, Hl. apply (filter_app_cons_ne [] l id).
    rewrite <- Hl. apply Hnd.
  - split_and!; try done; try congruence.
    + intros h'' Hh. rewrite H6, R2 by done. apply glist_del_not_in.
      intros Hin'. by eapply Hh, Hd.
    + intros j [Hj1 Hj2]%not_elem_of_cons. rewrite H7 by done. auto.
Qed.

(** ** [subtract_lock_from_list] *)

Record subtracted w w' : Prop := {
  sb_wf : wf_with env x w';
  sb_cookies : s_cookies w' = s_cookies w;
  sb_fsal : s_fsal w' = s_fsal w;
  sb_next : (s_next w <= s_next w')%nat;
  sb_others : forall h', h' <> h -> h' <> split_lock_list -> h' <> remove_list ->
    glist (s_lists w') h' = glist (s_lists w) h';
  sb_old : forall j, (j < s_next w)%nat -> j ∉ glist (s_lists w) h ->
    s_entries w' !! j = s_entries w !! j;
  sb_on : forall j, j ∈ glist (s_lists w') h -> j ∈ glist (s_lists w) h \/ (s_next w <= j)%nat;
  sb_stay : forall j e, j ∈ glist (s_lists w) h -> s_entries w !! j = Some e ->
    subtract_applies env owner state_applies state e = false ->
    j ∈ glist (s_lists w') h /\ s_entries w' !! j = Some e;
  sb_holds : forall q o t b,
    holds_in q (fun id => id ∈ glist (s_lists w') h) w' o t b <->
    remains q (glist (s_lists w) h) w o t b
}.

Lemma subtract_list_spec w :
  wf_with env x w ->
  bounded (subtract_lock_from_list env owner state_applies state lock h w).2 ->
  exists removed w',
    subtract_lock_from_list env owner state_applies state lock h w
    = (STATE_SUCCESS, removed, w') /\ subtracted w w'.
Proof.
  intros Hwf. unfold subtract_lock_from_list.
  set (w0 := upd_lists _ w).
  assert (forall h', glist (s_lists w0) h' =
            if decide (h' = remove_list) then [] else
            if decide (h' = split_lock_list) then [] else glist (s_lists w) h') as Hg0.
  { intros h'. simpl. by rewrite !glist_init_lookup. }
  assert (wf_with env x w0) as Hwf0.
  { apply wf_upd_lists; [done|]. do 2 apply lists_ok_init. apply (wf_lists env x w Hwf). }
  assert (glist (s_lists w0) h = [] ++ glist (s_lists w0) h) as Hl0 by done.
  assert (glist (s_lists w0) h = glist (s_lists w) h) as Hl
    by (by rewrite Hg0, !decide_False).
  destruct (subtract_loop_spec (glist (s_lists w0) h) [] false w0 Hwf0 Hl0)
    as (rm & w1 & kept & ns & rs & -> & [D1 D2 D3 D4 D5 D6 D7 D8 D9 D10 D15 D14 D11 D12 D13]).
  rewrite decide_False by tauto. simpl in *. intros Hbd.
  assert (bounded w1) as Hbd1.
  { unfold bounded in *. simpl in Hbd. by rewrite next_free_list in Hbd. }
  destruct (free_list_spec remove_list w1 D1 Hbd1) as (F1&F2&F3&F4&F5&F6&F7).
  set (w2 := free_list env remove_list w1) in *.
  rewrite (Hg0 remove_list) in D8. rewrite (Hg0 split_lock_list) in D7.
  rewrite decide_True in D8 by done. rewrite decide_False, decide_True in D7 by done.
  simpl in D7, D8.
  assert (glist (s_lists w2) split_lock_list = ns) as Hs2 by (rewrite F6; done).
  assert (glist (s_lists w2) h = kept) as Hk2 by (rewrite F6; done).
  assert (forall j, j ∈ kept \/ j ∈ ns -> s_entries w2 !! j = s_entries w1 !! j) as He2.
  { intros j Hj. apply F7. intros Hr. destruct (wf_lists env x w1 D1) as (_ & _ & Hd).
    destruct Hj as [Hj|Hj]; [apply Hhr, (Hd _ _ j); [by rewrite D6|done]|].
    enough (split_lock_list = remove_list) by done. eapply Hd; [|done]. by rewrite D7. }
  eexists _, _. split; [reflexivity|].
  assert (forall h', glist (glist_add_list_tail h split_lock_list (s_lists w2)) h' =
            if decide (h' = h) then kept ++ ns else
            if decide (h' = split_lock_list) then [] else glist (s_lists w2) h') as Hg2.
  { intros h'. by rewrite glist_add_list_tail_lookup, Hk2, Hs2. }
  split; simpl; try done; try congruence; try (unfold w2; lia).
  - apply wf_upd_lists; [done|]. apply lists_ok_add_list_tail; [done|apply (wf_lists env x w2 F1)|].
    intros obj n en -> Hn Hen. rewrite Hs2 in Hn. rewrite He2 in Hen by auto.
    destruct (D12 obj n eq_refl Hn) as (en' & Hen' & <-). congruence.
  - intros h' H1 H2 H3. rewrite Hg2, !decide_False, F6, D9, Hg0, !decide_False by done. done.
  - intros j Hj Hnj. rewrite F7; [by apply D5|]. rewrite D8.
    intros Hr%D15. by rewrite Hl in Hr.
  - intros j. rewrite Hg2, decide_True by done.
    intros [Hj|Hj]%elem_of_app; [left; rewrite <- Hl; auto|right; by apply D11].
  - intros j e Hj He Hna. rewrite Hl in *. rewrite Hg2, decide_True by done.
    assert (j ∈ kept) as Hk by (by eapply D14). split; [apply elem_of_app; by left|].
    rewrite He2 by auto. rewrite D5; [done|]. by apply (listed_lt w h).
  - intros q o t b. rewrite Hg2, decide_True by done.
    rewrite <- (remains_entries q (glist (s_lists w) h) w w0 o t b), <- Hl, <- D13 by done.
    split; intros (id & e & Hid & He & H); exists id, e; (split; [|split]); try done.
    + by apply elem_of_app.
    + rewrite <- He2; [done|]. by apply elem_of_app.
    + by apply elem_of_app.
    + by rewrite He2.
Qed.
End loop.
End subtract.

(** ** The allocation counter never goes back *)
Section next.
Context {F : Type} (env : sal_env).
Implicit Types (w : sal F).

Lemma next_piece f h id w :
  (s_next w <= s_next (match state_lock_entry_t_dup env id w with
                       | (Some n, w) => upd_lists (glist_add_tail h n) (on_lock f n w)
                       | (None, w) => w
                       end))%nat.
Proof.
  pose proof (next_dup env id w) as Hd.
  by destruct (state_lock_entry_t_dup env id w) as [[n|] w'].
Qed.

Lemma next_subtract_entry found lock split remove w :
  (s_next w <= s_next (subtract_lock_from_entry env found lock split remove w).2)%nat.
Proof.
  unfold subtract_lock_from_entry. destruct (s_entries w !! found) as [e|]; [|done].
  destruct (_ <? _); [done|]. destruct (_ <? _); [done|]. simpl.
  destruct (_ && _); [done|].
  match goal with |- context [if lock_end lock <? _ then _ else ?w1] =>
    assert (s_next w <= s_next w1)%nat as Hl; [|set (wl := w1) in *] end.
  { destruct (_ <? _); [apply next_piece|done]. }
  destruct (lock_end lock <? lock_end (sle_lock e)); [|exact Hl].
  etrans; [exact Hl|apply next_piece].
Qed.

Lemma next_subtract_loop owner sa st lock l removed w :
  (s_next w <= s_next (subtract_lock_loop env owner sa st lock l removed w).2)%nat.
Proof.
  revert removed w. induction l as [|id l IH]; intros removed w; simpl; [done|].
  destruct (s_entries w !! id) as [e|]; [|apply IH].
  destruct (subtract_applies env owner sa st e); [|apply IH].
  pose proof (next_subtract_entry id lock split_lock_list remove_list w) as Hn.
  destruct (subtract_lock_from_entry _ _ _ _ _ _) as [[st1 r1] w1]. simpl in Hn.
  case_decide; [done|]. etrans; [exact Hn|apply IH].
Qed.

Lemma next_subtract_list owner sa st lock h w :
  (s_next w <= s_next (subtract_lock_from_list env owner sa st lock h w).2)%nat.
Proof.
  unfold subtract_lock_from_list. set (w0 := upd_lists _ w).
  pose proof (next_subtract_loop owner sa st lock (glist (s_lists w0) h) false w0) as Hn.
  destruct (subtract_lock_loop _ _ _ _ _ _ _ _) as [[st1 r1] w1]. simpl in *.
  case_decide; simpl.
  - etrans; [exact Hn|]. generalize (glist (s_lists w1) remove_list). intros l. clear.
    revert w1. induction l as [|y l IH]; intros w1; simpl; [done|].
    etrans; [|apply IH]. done.
  - by rewrite next_free_list.
Qed.

Lemma next_subtract_list_loop target l w :
  (s_next w <= s_next (subtract_list_loop env target l w).2)%nat.
Proof.
  revert w. induction l as [|id l IH]; intros w; simpl; [done|].
  destruct (s_entries w !! id) as [e|]; [|apply IH].
  pose proof (next_subtract_list None false 0 (sle_lock e) target w) as Hn.
  destruct (subtract_lock_from_list _ _ _ _ _ _ _) as [[st1 r1] w1]. simpl in *.
  case_decide; [done|]. etrans; [exact Hn|apply IH].
Qed.
End next.
