(* ===== verification/LockFsalOps.v ===== *)
(** * The calls into the FSAL

    [do_unlock_no_owner] and [do_lock_op] (SAL/state_lock.c): they leave
    the locks of every file as they are, and the ranges that
    [do_unlock_no_owner] unlocks in a backend without lock owners are those
    no remaining lock covers. *)
From S2P Require Import Prelude Status Owners Fsal LockData LockList LockOps.
From S2P Require Import LockWf LockSem LockMerge LockSubtract.

Section fsal_ops.
Context `{FsalOps F} (env : sal_env) (x : nat -> Z) (Hx : forall j, x j <= 3).
Implicit Types (w : sal F) (h : sle_head).

(** Everything the locks of the files are made of is untouched. *)
Record files_same w w' : Prop := {
  fr_wf : wf_with env x w';
  fr_cookies : s_cookies w' = s_cookies w;
  fr_next : (s_next w <= s_next w')%nat;
  fr_lists : forall obj, glist (s_lists w') (lock_list obj) = glist (s_lists w) (lock_list obj);
  fr_entries : forall j, (j < s_next w)%nat -> s_entries w' !! j = s_entries w !! j
}.

Lemma files_same_trans w1 w2 w3 :
  files_same w1 w2 -> files_same w2 w3 -> files_same w1 w3.
Proof.
  intros [A1 A2 A3 A4 A5] [B1 B2 B3 B4 B5]. split; try done; try congruence.
  - etrans; eauto.
  - intros j Hj. rewrite B5 by lia. auto.
Qed.

Lemma files_same_of_core w w' :
  wf_with env x w -> s_entries w' = s_entries w -> s_cookies w' = s_cookies w ->
  s_next w' = s_next w -> s_lists w' = s_lists w -> s_owner_locks w' = s_owner_locks w ->
  s_client_locks w' = s_client_locks w -> s_export_locks w' = s_export_locks w ->
  s_state_locks w' = s_state_locks w -> s_blocks w' = s_blocks w -> files_same w w'.
Proof.
  intros Hwf E1 E2 E3 E4 E5 E6 E7 E8 E9. split; try congruence.
  - by eapply wf_same.
  - by rewrite E3.
Qed.

Lemma files_same_refl w : wf_with env x w -> files_same w w.
Proof. intros. by apply files_same_of_core. Qed.

(** The bytes held are the same. *)
Lemma files_same_holds q obj w w' o t b :
  wf_with env x w -> files_same w w' ->
  holds_in q (on_file obj w') w' o t b <-> holds_in q (on_file obj w) w o t b.
Proof.
  intros Hwf [A1 A2 A3 A4 A5]. unfold holds_in, on_file. rewrite A4.
  split; intros (id & e & Hid & He & Hr); exists id, e; (split; [done|]).
  - rewrite <- A5; [done|]. by eapply listed_lt.
  - rewrite A5; [done|]. by eapply listed_lt.
Qed.

(** ** The list of ranges to unlock *)

Definition unlock_ids w : list nat := glist (s_lists w) fsal_unlock_list.

(** Some range on the list covers the byte. *)
Definition to_unlock w (b : Z) : Prop :=
  exists id e, id ∈ unlock_ids w /\ s_entries w !! id = Some e /\ in_range (sle_lock e) b.

(** Some entry among [ids] covers the byte. *)
Definition covered (ids : list nat) w (b : Z) : Prop :=
  exists id e, id ∈ ids /\ s_entries w !! id = Some e /\ in_range (sle_lock e) b.

Definition all_granted w : Prop :=
  forall id e, id ∈ unlock_ids w -> s_entries w !! id = Some e ->
    sle_blocked e = STATE_NON_BLOCKING.

Definition any_status : state_blocking_t -> bool := fun _ => true.

Lemma to_unlock_holds w b :
  wf_with env x w ->
  to_unlock w b <-> exists o t, holds_in any_status (fun id => id ∈ unlock_ids w) w o t b.
Proof.
  intros Hwf. destruct (wf_lists env x w Hwf) as (Hl & _). split.
  - intros (id & e & Hin & He & Hb). destruct (Hl _ _ Hin) as (e' & He' & [o Ho] & _).
    rewrite He in He'. injection He' as <-. exists o, (lock_type (sle_lock e)), id, e.
    by split_and!.
  - intros (o & t & id & e & Hin & He & _ & _ & _ & Hb). by exists id, e.
Qed.

Lemma subtract_all_applies e :
  sle_blocked e = STATE_NON_BLOCKING -> subtract_applies env None false 0 e = true.
Proof. intros Hb. unfold subtract_applies. rewrite Hb. reflexivity. Qed.

(** The state while the list is built: everything below address [n] is as
    it was in [w0], and the list is made of new entries. *)
Record building (n : nat) w0 w : Prop := {
  bu_wf : wf_with env x w;
  bu_cookies : s_cookies w = s_cookies w0;
  bu_next : (n <= s_next w)%nat;
  bu_lists : forall obj, glist (s_lists w) (lock_list obj) = glist (s_lists w0) (lock_list obj);
  bu_entries : forall j, (j < n)%nat -> s_entries w !! j = s_entries w0 !! j;
  bu_new : forall id, id ∈ unlock_ids w -> (n <= id)%nat;
  bu_granted : all_granted w
}.

(** A range is not empty, so that its status shows in the bytes held. *)
Lemma subtracted_granted lock w w' :
  wf_with env x w -> all_granted w ->
  subtracted env x None false 0 lock fsal_unlock_list w w' -> all_granted w'.
Proof.
  intros Hwf Hall Hsb id e Hin He.
  destruct (decide (sle_blocked e = STATE_NON_BLOCKING)) as [|Hne]; [done|]. exfalso.
  pose proof (sb_wf _ _ _ _ _ _ _ _ _ Hsb) as Hwf'.
  destruct (wf_lists env x w' Hwf') as (Hl & _).
  destruct (Hl _ _ Hin) as (e' & He' & [o Ho] & _). rewrite He in He'. injection He' as <-.
  set (q := fun s => bool_decide (s <> STATE_NON_BLOCKING)).
  assert (holds_in q (fun id => id ∈ glist (s_lists w') fsal_unlock_list) w' o
            (lock_type (sle_lock e)) (lock_end (sle_lock e))) as Hh.
  { exists id, e. split_and!; try done.
    - by apply bool_decide_eq_true_2.
    - apply in_range_end, (wf_ranges env x w' Hwf' id e He). }
  apply (sb_holds _ _ _ _ _ _ _ _ _ Hsb) in Hh as (id' & e' & Hin' & He' & Hq & _).
  unfold q in Hq. rewrite (Hall id' e' Hin' He') in Hq. done.
Qed.

Lemma building_subtract n lock w0 w w' :
  lock_ok lock -> building n w0 w ->
  subtracted env x None false 0 lock fsal_unlock_list w w' ->
  building n w0 w' /\ s_fsal w' = s_fsal w /\
  (forall b, to_unlock w' b <-> to_unlock w b /\ ~ in_range lock b).
Proof.
  intros Hlk [B1 B2 B3 B4 B5 B6 B7] Hsb.
  pose proof (subtracted_granted lock w w' B1 B7 Hsb) as Hall.
  destruct Hsb as [S1 S2 S3 S4 S5 S6 S7 S8 S9].
  split; [|split; [done|]].
  - split; try done; try congruence; try lia.
    + intros obj. rewrite S5 by done. auto.
    + intros j Hj. rewrite S6; [auto|lia|]. intros Hin%B6. lia.
    + intros id Hin. apply S7 in Hin as [Hin%B6|Hin]; lia.
  - intros b. rewrite !to_unlock_holds by done. unfold unlock_ids.
    setoid_rewrite S9. split.
    + intros (o & t & id & e & Hin & He & _ & Ho & Ht & Hb & Hn).
      split; [exists o, t, id, e; by split_and!|]. intros Hb'. apply Hn.
      split; [|done]. apply subtract_all_applies. by apply (B7 id e).
    + intros [(o & t & id & e & Hin & He & _ & Ho & Ht & Hb) Hnb].
      exists o, t, id, e. split_and!; try done. by intros [_ ?].
Qed.

Lemma building_loop n w0 l w :
  building n w0 w ->
  (forall id, id ∈ l -> (id < n)%nat /\ exists e, s_entries w0 !! id = Some e /\ lock_ok (sle_lock e)) ->
  bounded (subtract_list_loop env fsal_unlock_list l w).2 ->
  exists w', subtract_list_loop env fsal_unlock_list l w = (STATE_SUCCESS, w') /\
    building n w0 w' /\ s_fsal w' = s_fsal w /\
    forall b, to_unlock w' b <-> to_unlock w b /\ ~ covered l w0 b.
Proof.
  revert w. induction l as [|id l IH]; intros w Hbu Hl Hbd; simpl in *.
  { exists w. split_and!; try done. intros b. split; [|by intros [? _]]. intros Hb.
    split; [done|]. intros (id & e & Hin & _). by apply elem_of_nil in Hin. }
  destruct (Hl id) as (Hlt & e & He & Hok); [by left|].
  pose proof (bu_entries _ _ _ Hbu id Hlt) as E. rewrite He in E. rewrite E in Hbd |- *.
  destruct (subtract_list_spec (F:=F) env x Hx None false 0 (sle_lock e) fsal_unlock_list Hok
              ltac:(done) ltac:(done) w (bu_wf _ _ _ Hbu)) as (rm & w1 & E1 & Hsb).
  { eapply bounded_mono; [|exact Hbd].
    destruct (subtract_lock_from_list _ _ _ _ _ _ _) as [[st r] w1]. simpl.
    case_decide; [done|]. apply next_subtract_list_loop. }
  rewrite E1 in Hbd |- *. rewrite decide_False in Hbd |- * by tauto.
  destruct (building_subtract n (sle_lock e) w0 w w1 Hok Hbu Hsb) as (Hbu1 & Hf1 & Hu1).
  destruct (IH w1 Hbu1) as (w' & E' & Hbu' & Hf' & Hu'); [|done|].
  { intros j Hj. apply Hl. by right. }
  exists w'. split_and!; try done; [congruence|].
  intros b. rewrite Hu', Hu1. split.
  - intros [[H1 H2] H3]. split; [done|]. intros (j & ej & [->|Hj]%elem_of_cons & Hej & Hb).
    + rewrite He in Hej. by injection Hej as <-.
    + apply H3. by exists j, ej.
  - intros [H1 H2]. split_and!; [done| |].
    + intros Hb. apply H2. exists id, e. split_and!; try done. by left.
    + intros (j & ej & Hj & Hr). apply H2. exists j, ej. split; [by right|done].
Qed.

(** ** Unlocking the ranges of the list *)

(** The unlock calls for a sequence of ranges. *)
Definition fsal_unlocks (obj : nat) (ranges : list fsal_lock_param_t) (f : F) : F :=
  foldl (fun f r => (lock_op obj None FSAL_OP_UNLOCK r zero_lock f).2) f ranges.

Definition lock_at w (id : nat) : list fsal_lock_param_t :=
  match s_entries w !! id with Some e => [sle_lock e] | None => [] end.

Lemma lock_at_same w w' ids :
  (forall id, id ∈ ids -> s_entries w' !! id = s_entries w !! id) ->
  flat_map (lock_at w') ids = flat_map (lock_at w) ids.
Proof.
  induction ids as [|id ids IH]; intros E; [done|]. simpl.
  rewrite IH by (intros; apply E; by right). f_equal. unfold lock_at. by rewrite E by by left.
Qed.

Lemma unlock_fold n w0 obj ids st w :
  building n w0 w -> bounded w -> unlock_ids w = ids ->
  exists st' w',
    foldl (fun acc id => fsal_unlock_entry env obj id acc) (st, w) ids = (st', w') /\
    building n w0 w' /\ s_next w' = s_next w /\
    fsal_st (s_fsal w') = fsal_unlocks obj (flat_map (lock_at w) ids) (fsal_st (s_fsal w)) /\
    open_fd_count (s_fsal w') = open_fd_count (s_fsal w).
Proof.
  revert st w. induction ids as [|id ids IH]; intros st w Hbu Hbd Hids; simpl.
  { exists st, w. by split_and!. }
  pose proof (bu_wf _ _ _ Hbu) as Hwf.
  pose proof (wf_lists env x w Hwf) as (Hl & Hnd & Hd).
  assert (id ∈ glist (s_lists w) fsal_unlock_list) as Hin
    by (unfold unlock_ids in Hids; rewrite Hids; by left).
  destruct (Hl _ _ Hin) as (e & He & [o Ho] & _).
  rewrite He. unfold with_fsal.
  destruct (lock_op obj None FSAL_OP_UNLOCK (sle_lock e) zero_lock (fsal_st (s_fsal w)))
    as [[fst cl] f1] eqn:Eop. simpl.
  set (w1 := upd_fsal _ w).
  assert (wf_with env x w1) as Hwf1 by (by eapply wf_same; [..|exact Hwf]).
  destruct (remove_frame env id w1 e o He Ho) as (R1 & R2 & R3 & R4 & R5).
  assert (building n w0 (remove_from_locklist env id w1)) as Hbu1.
  { destruct Hbu as [B1 B2 B3 B4 B5 B6 B7]. split.
    - by eapply wf_remove.
    - by rewrite R4.
    - by rewrite R3.
    - intros f. rewrite R2, glist_del_not_in; [apply B4|].
      intros Hin'. by pose proof (Hd _ _ _ Hin Hin').
    - intros j Hj. rewrite R1; [by apply B5|]. intros ->. apply B6 in Hin. lia.
    - intros j. unfold unlock_ids. rewrite R2. intros [_ Hj]%elem_of_glist_del. auto.
    - intros j e'. unfold unlock_ids. rewrite R2. intros [Hj1 Hj2]%elem_of_glist_del.
      rewrite R1 by done. by apply B7. }
  destruct (IH (if decide (state_error_convert fst <> STATE_SUCCESS)
                then state_error_convert fst else st) (remove_from_locklist env id w1))
    as (st' & w' & E & Hbu' & Hn' & Hf' & Ho'); [done| | |].
  { unfold bounded. by rewrite R3. }
  { unfold unlock_ids in *. rewrite R2, glist_del_lookup. simpl. rewrite Hids.
    apply (filter_app_cons_ne [] ids id). rewrite <- Hids. apply Hnd. }
  exists st', w'. split; [exact E|]. split_and!; [done|by rewrite Hn', R3| |].
  - rewrite Hf', R5, (lock_at_same w).
    + unfold lock_at at 2. rewrite He. simpl. by rewrite Eop.
    + intros j Hj. rewrite R1; [done|]. intros ->.
      unfold unlock_ids in Hids. specialize (Hnd fsal_unlock_list).
      rewrite Hids in Hnd. by apply NoDup_cons in Hnd as [? _].
  - by rewrite Ho', R5.
Qed.

Lemma next_fsal_unlock obj ids st w :
  (s_next w <= s_next (foldl (fun acc id => fsal_unlock_entry env obj id acc) (st, w) ids).2)%nat.
Proof.
  revert st w. induction ids as [|id ids IH]; intros st w; simpl; [done|].
  destruct (s_entries w !! id) as [e|]; [|apply IH].
  unfold with_fsal. destruct (lock_op _ _ _ _ _ _) as [[fs cl] f1]. simpl.
  etrans; [|apply IH]. by rewrite next_remove.
Qed.

Lemma do_unlock_no_owner_spec ctx obj lock w :
  wf_with env x w -> lock_ok lock ->
  bounded (do_unlock_no_owner env ctx obj lock w).2 ->
  exists status w' ranges,
    do_unlock_no_owner env ctx obj lock w = (status, w') /\ files_same w w' /\
    fsal_st (s_fsal w') = fsal_unlocks obj ranges (fsal_st (s_fsal w)) /\
    open_fd_count (s_fsal w') = open_fd_count (s_fsal w) /\
    forall b, (exists r, r ∈ ranges /\ in_range r b) <->
              in_range lock b /\ ~ covered (glist (s_lists w) (lock_list obj)) w b.
Proof.
  intros Hwf Hok. unfold do_unlock_no_owner.
  destruct (create_spec env obj ctx STATE_NON_BLOCKING unknown_owner None lock w)
    as (w1 & E & E1 & E2 & E3 & E4 & E5 & _ & _ & _ & E6 & _).
  pose proof (wf_create env x w obj ctx STATE_NON_BLOCKING unknown_owner None lock Hwf Hok) as Hwf1.
  rewrite E in *. simpl in Hwf1. set (w2 := upd_lists (glist_add_tail _ _) _).
  assert (wf_with env x w2) as Hwf2.
  { apply wf_upd_lists; [apply wf_upd_lists; [done|]|]; simpl.
    - apply lists_ok_init, (wf_lists env x w1 Hwf1).
    - eapply lists_ok_add_tail; [apply lists_ok_init, (wf_lists env x w1 Hwf1)| | | |done].
      + intros h. rewrite glist_init_lookup. case_decide; [apply not_elem_of_nil|].
        rewrite E3. by apply (wf_fresh_list env x).
      + rewrite E1. apply lookup_insert_eq.
      + done. }
  assert (unlock_ids w2 = [s_next w]) as Hu2.
  { unfold unlock_ids, w2. simpl. rewrite glist_add_tail_lookup, decide_True by done.
    by rewrite glist_init_lookup, decide_True. }
  assert (s_entries w2 !! s_next w =
          Some (new_entry_of obj ctx STATE_NON_BLOCKING unknown_owner None lock)) as Hn2
    by (simpl; rewrite E1; apply lookup_insert_eq).
  assert (forall f, glist (s_lists w2) (lock_list f) = glist (s_lists w) (lock_list f)) as Hl2.
  { intros f. simpl. rewrite glist_add_tail_lookup, decide_False by done.
    by rewrite glist_init_lookup, decide_False, E3. }
  assert (building (s_next w) w w2) as Hbu.
  { split; try done.
    - simpl. rewrite E2. lia.
    - intros j Hj. simpl. rewrite E1. apply lookup_insert_ne. lia.
    - intros id. rewrite Hu2. intros ->%list_elem_of_singleton. lia.
    - intros id e. rewrite Hu2. intros ->%list_elem_of_singleton. rewrite Hn2. by intros [= <-]. }
  unfold subtract_list_from_list. rewrite Hl2.
  set (l := glist (s_lists w) (lock_list obj)).
  intros Hbd.
  assert (forall id, id ∈ l -> (id < s_next w)%nat /\
            exists e, s_entries w !! id = Some e /\ lock_ok (sle_lock e)) as Hlv.
  { intros id Hin. split; [by eapply listed_lt|]. destruct (wf_lists env x w Hwf) as (Hl & _).
    destruct (Hl _ _ Hin) as (e & He & _). exists e. split; [done|].
    by apply (wf_ranges env x w Hwf id). }
  destruct (building_loop (s_next w) w l w2 Hbu Hlv) as (w3 & E' & Hbu3 & Hf3 & Hu3).
  { destruct (subtract_list_loop env fsal_unlock_list l w2) as [st3 w3] eqn:E'. simpl.
    eapply bounded_mono; [|exact Hbd]. apply next_fsal_unlock. }
  rewrite E' in Hbd |- *.
  assert (bounded w3) as Hbd3 by (eapply bounded_mono; [apply next_fsal_unlock|exact Hbd]).
  destruct (unlock_fold (s_next w) w obj (unlock_ids w3) STATE_SUCCESS w3 Hbu3 Hbd3 eq_refl)
    as (st' & w' & E'' & [B1 B2 B3 B4 B5 B6 B7] & Hn' & Hf' & Ho').
  exists st', w', (flat_map (lock_at w3) (unlock_ids w3)). split; [exact E''|].
  split_and!; [by split|by rewrite Hf', Hf3, <- E6|by rewrite Ho', Hf3; simpl; rewrite E6|].
  intros b. transitivity (to_unlock w3 b).
  - unfold to_unlock, lock_at. setoid_rewrite list_elem_of_In. setoid_rewrite in_flat_map.
    split.
    + intros (r & (id & Hid & Hr) & Hb). destruct (s_entries w3 !! id) as [e|] eqn:He; [|done].
      exists id, e. destruct Hr as [<-|[]]. by split_and!.
    + intros (id & e & Hid & He & Hb). exists (sle_lock e). split; [|done].
      exists id. split; [done|]. rewrite He. by left.
  - rewrite Hu3. enough (to_unlock w2 b <-> in_range lock b) as Hto by tauto.
    unfold to_unlock. rewrite Hu2. split.
    + intros (id & e & ->%list_elem_of_singleton & He & Hb). rewrite Hn2 in He.
      by injection He as <-.
    + intros Hb. eexists (s_next w), _. split_and!; [by left|exact Hn2|done].
Qed.

(** ** [do_lock_op] *)

Lemma with_fsal_frame {A} (op : F -> A * F) w :
  exists a f, with_fsal op w = (a, upd_fsal (fun st => mk_fsal_state f (open_fd_count st)) w).
Proof. unfold with_fsal. destruct (op _) as [a f]. by exists a, f. Qed.

Lemma files_same_upd_fsal w f : wf_with env x w -> files_same w (upd_fsal f w).
Proof. intros. by apply files_same_of_core. Qed.

Lemma files_same_add_ref w w' t n : files_same w w' -> files_same w (add_ref t n w').
Proof.
  intros Hs. eapply files_same_trans; [exact Hs|]. by apply files_same_of_core; [apply Hs|..].
Qed.

Lemma do_lock_op_same ctx obj st op owner lock wanted overlap w :
  wf_with env x w -> lock_ok lock ->
  bounded (do_lock_op env ctx obj st op owner lock wanted overlap w).2 ->
  files_same w (do_lock_op env ctx obj st op owner lock wanted overlap w).2.
Proof.
  intros Hwf Hok. unfold do_lock_op.
  destruct (negb _ || _ || _); [intros _; by apply files_same_refl|].
  match goal with |- context [let '(_, _) := ?p in _] =>
    enough (bounded p.2 -> files_same w p.2) as Hp; [destruct p as [[status cl] w1]|] end.
  { simpl in Hp. destruct (bool_decide (status = STATE_LOCK_CONFLICT) && wanted); simpl; [|done].
    intros Hbd. apply files_same_add_ref, Hp. done. }
  destruct (fs_supports ctx fso_lock_support_owner || _).
  - intros _. destruct (negb (support_ex obj));
      match goal with |- context [with_fsal ?o w] =>
        destruct (with_fsal_frame o w) as ([fs cl] & f & ->) end;
      simpl; by apply files_same_upd_fsal.
  - assert (lock_ok (set_lock_sle_type FSAL_POSIX_LOCK lock)) as Hok' by done.
    pose proof (do_unlock_no_owner_spec ctx obj _ w Hwf Hok') as Hspec.
    destruct (do_unlock_no_owner env ctx obj (set_lock_sle_type FSAL_POSIX_LOCK lock) w)
      as [status w1]. simpl in *. intros Hbd.
    destruct (Hspec Hbd) as (st' & w' & ranges & [= <- <-] & Hs & _). done.
Qed.

Lemma next_do_unlock ctx obj lock w :
  (s_next w <= s_next (do_unlock_no_owner env ctx obj lock w).2)%nat.
Proof.
  unfold do_unlock_no_owner.
  destruct (create_spec env obj ctx STATE_NON_BLOCKING unknown_owner None lock w)
    as (w1 & E & _ & E2 & _). rewrite E.
  set (w2 := upd_lists (glist_add_tail _ _) _). unfold subtract_list_from_list.
  pose proof (next_subtract_list_loop env fsal_unlock_list
                (glist (s_lists w2) (lock_list obj)) w2) as Hn.
  destruct (subtract_list_loop _ _ _ _) as [st w3]. simpl in *.
  etrans; [|apply next_fsal_unlock]. lia.
Qed.

Lemma next_do_lock_op ctx obj st op owner lock wanted overlap w :
  (s_next w <= s_next (do_lock_op env ctx obj st op owner lock wanted overlap w).2)%nat.
Proof.
  unfold do_lock_op. destruct (negb _ || _ || _); [done|].
  match goal with |- context [let '(_, _) := ?p in _] =>
    enough (s_next w <= s_next p.2)%nat as Hp; [destruct p as [[status cl] w1]|] end.
  { simpl in Hp. by destruct (bool_decide (status = STATE_LOCK_CONFLICT) && wanted). }
  destruct (fs_supports ctx fso_lock_support_owner || _).
  - destruct (negb (support_ex obj));
      match goal with |- context [with_fsal ?o w] =>
        destruct (with_fsal_frame o w) as ([fs cl] & f & ->) end; done.
  - pose proof (next_do_unlock ctx obj (set_lock_sle_type FSAL_POSIX_LOCK lock) w) as Hn.
    by destruct (do_unlock_no_owner _ _ _ _ _) as [status w1].
Qed.
End fsal_ops.
