(* ===== verification/LockGrant.v ===== *)
(** * Granting and cancelling blocked locks

    The grant cookies, the NLM callback, [try_to_grant_lock],
    [grant_blocked_locks], [cancel_blocked_lock] and their callers
    (SAL/state_lock.c): they keep the state well formed, and change nothing
    about a lock but the status of the ones they are about. *)
From S2P Require Import Prelude Status Owners Fsal LockData LockList LockOps.
From S2P Require Import LockWf LockSem LockMerge LockSubtract LockFsalOps.

(** ** Entries that describe the same lock *)

Definition same_lock (e e' : state_lock_entry_t) : Prop :=
  sle_owner e' = sle_owner e /\ sle_obj e' = sle_obj e /\ sle_export e' = sle_export e /\
  sle_state e' = sle_state e /\ lock_type (sle_lock e') = lock_type (sle_lock e) /\
  lock_start (sle_lock e') = lock_start (sle_lock e) /\
  lock_length (sle_lock e') = lock_length (sle_lock e).

Definition like (e e' : state_lock_entry_t) : Prop :=
  same_lock e e' /\ sle_blocked e' = sle_blocked e.

#[export] Instance same_lock_refl : Reflexive same_lock.
Proof. intros e. by split_and!. Qed.

#[export] Instance same_lock_trans : Transitive same_lock.
Proof. intros a b c (?&?&?&?&?&?&?) (?&?&?&?&?&?&?). split_and!; congruence. Qed.

#[export] Instance like_refl : Reflexive like.
Proof. intros e. by split. Qed.

#[export] Instance like_trans : Transitive like.
Proof. intros a b c [H1 ?] [H2 ?]. split; [by etrans|congruence]. Qed.

Lemma lock_end_same k k' :
  lock_start k' = lock_start k -> lock_length k' = lock_length k -> lock_end k' = lock_end k.
Proof. intros E1 E2. unfold lock_end. by rewrite E1, E2. Qed.

Lemma same_lock_range e e' b :
  same_lock e e' -> in_range (sle_lock e') b <-> in_range (sle_lock e) b.
Proof.
  intros (_&_&_&_&_&E1&E2). unfold in_range. by rewrite E1, (lock_end_same _ _ E1 E2).
Qed.

Section grant.
Context `{FsalOps F} (env : sal_env).
Implicit Types (w : sal F) (x : nat -> Z).

(** The lists of the files only lose entries, and only entries in [D]; the
    entries describe the same locks, and the status of an entry changes
    only in [D], along [T]. *)
Record evolves x (D : nat -> Prop) (T : state_blocking_t -> state_blocking_t -> Prop) w w'
    : Prop := {
  ev_wf : wf_with env x w';
  ev_next : (s_next w <= s_next w')%nat;
  ev_sub : forall f, sublist (glist (s_lists w') (lock_list f)) (glist (s_lists w) (lock_list f));
  ev_keep : forall f id, on_file f w id -> ~ D id -> on_file f w' id;
  ev_like : forall f id e, on_file f w id -> s_entries w !! id = Some e -> ~ D id ->
    exists e', s_entries w' !! id = Some e' /\ like e e';
  ev_touched : forall f id e, on_file f w' id -> s_entries w !! id = Some e -> D id ->
    exists e', s_entries w' !! id = Some e' /\ same_lock e e' /\ T (sle_blocked e) (sle_blocked e')
}.

(** Nothing changes for the locks of the files. *)
Definition quiet x w w' : Prop := evolves x (fun _ => False) (fun _ _ => False) w w'.

Lemma evolves_refl x D (T : state_blocking_t -> state_blocking_t -> Prop) w :
  wf_with env x w -> (forall s, T s s) -> evolves x D T w w.
Proof.
  intros Hwf HT. split; try done.
  - intros f id e _ He _. by exists e.
  - intros f id e _ He _. by exists e.
Qed.

Lemma quiet_refl x w : wf_with env x w -> quiet x w w.
Proof. intros Hwf. split; try done. intros f id e _ He _. by exists e. Qed.

Lemma evolves_sub_on x D T w w' f id : evolves x D T w w' -> on_file f w' id -> on_file f w id.
Proof. intros Hev Hin. eapply elem_of_sublist; [exact Hin|apply Hev]. Qed.

Lemma evolves_trans x D T w1 w2 w3 :
  Transitive T -> wf_with env x w2 ->
  evolves x D T w1 w2 -> evolves x D T w2 w3 -> evolves x D T w1 w3.
Proof.
  intros HT Hwf2 A B. split.
  - apply B.
  - etrans; [apply A|apply B].
  - intros f. etrans; [apply B|apply A].
  - intros f id Hin HD. eapply ev_keep; eauto. eapply ev_keep; eauto.
  - intros f id e Hin He HD. destruct (ev_like _ _ _ _ _ A f id e Hin He HD) as (e2 & He2 & L2).
    destruct (ev_like _ _ _ _ _ B f id e2) as (e3 & He3 & L3); eauto using ev_keep.
    exists e3. split; [done|]. by etrans.
  - intros f id e Hin He HD.
    destruct (ev_touched _ _ _ _ _ A f id e) as (e2 & He2 & L2 & T2); eauto using evolves_sub_on.
    destruct (ev_touched _ _ _ _ _ B f id e2) as (e3 & He3 & L3 & T3); eauto.
    exists e3. split_and!; [done|by etrans|by etrans].
Qed.

Lemma evolves_weaken x (D D' : nat -> Prop) (T : state_blocking_t -> state_blocking_t -> Prop) w w' :
  (forall id, Decision (D id)) -> evolves x D T w w' ->
  (forall id, D id -> D' id) -> (forall s, T s s) -> evolves x D' T w w'.
Proof.
  intros Hdec A HD HT. split; try apply A.
  - intros f id Hin Hn. apply (ev_keep _ _ _ _ _ A); eauto.
  - intros f id e Hin He Hn. eapply (ev_like _ _ _ _ _ A); eauto.
  - intros f id e Hin He HD'. destruct (decide (D id)) as [Hd|Hd].
    + by apply (ev_touched _ _ _ _ _ A f).
    + destruct (ev_like _ _ _ _ _ A f id e) as (e' & He' & [L1 L2]);
        eauto using evolves_sub_on.
      exists e'. split_and!; try done. by rewrite L2.
Qed.

Lemma quiet_evolves x D T w1 w2 w3 :
  quiet x w1 w2 -> evolves x D T w2 w3 -> evolves x D T w1 w3.
Proof.
  intros A B. split.
  - apply B.
  - etrans; [apply A|apply B].
  - intros f. etrans; [apply B|apply A].
  - intros f id Hin HD. apply (ev_keep _ _ _ _ _ B); [|done].
    apply (ev_keep _ _ _ _ _ A); [done|tauto].
  - intros f id e Hin He HD.
    destruct (ev_like _ _ _ _ _ A f id e Hin He ltac:(tauto)) as (e2 & He2 & L2).
    destruct (ev_like _ _ _ _ _ B f id e2) as (e3 & He3 & L3); try done.
    { apply (ev_keep _ _ _ _ _ A); [done|tauto]. }
    exists e3. split; [done|]. by etrans.
  - intros f id e Hin He HD.
    pose proof (evolves_sub_on _ _ _ _ _ _ _ B Hin) as Hin2.
    pose proof (evolves_sub_on _ _ _ _ _ _ _ A Hin2) as Hin1.
    destruct (ev_like _ _ _ _ _ A f id e Hin1 He ltac:(tauto)) as (e2 & He2 & [L2 S2]).
    destruct (ev_touched _ _ _ _ _ B f id e2) as (e3 & He3 & L3 & T3); eauto.
    exists e3. split_and!; [done|by etrans|congruence].
Qed.

Lemma evolves_quiet x D T w1 w2 w3 :
  evolves x D T w1 w2 -> quiet x w2 w3 -> evolves x D T w1 w3.
Proof.
  intros A B. split.
  - apply B.
  - etrans; [apply A|apply B].
  - intros f. etrans; [apply B|apply A].
  - intros f id Hin HD. apply (ev_keep _ _ _ _ _ B); [|tauto]. by apply (ev_keep _ _ _ _ _ A).
  - intros f id e Hin He HD.
    destruct (ev_like _ _ _ _ _ A f id e Hin He HD) as (e2 & He2 & L2).
    destruct (ev_like _ _ _ _ _ B f id e2) as (e3 & He3 & L3); try tauto.
    { by apply (ev_keep _ _ _ _ _ A). }
    exists e3. split; [done|]. by etrans.
  - intros f id e Hin He HD.
    pose proof (evolves_sub_on _ _ _ _ _ _ _ B Hin) as Hin2.
    destruct (ev_touched _ _ _ _ _ A f id e Hin2 He HD) as (e2 & He2 & L2 & T2).
    destruct (ev_like _ _ _ _ _ B f id e2 Hin2 He2 ltac:(tauto)) as (e3 & He3 & [L3 S3]).
    exists e3. split_and!; [done|by etrans|congruence].
Qed.

Lemma quiet_trans x w1 w2 w3 : quiet x w1 w2 -> quiet x w2 w3 -> quiet x w1 w3.
Proof. apply quiet_evolves. Qed.

Lemma files_same_quiet x w w' : wf_with env x w -> files_same env x w w' -> quiet x w w'.
Proof.
  intros Hwf [A1 A2 A3 A4 A5]. split; try done.
  - intros f. by rewrite A4.
  - intros f id. unfold on_file. by rewrite A4.
  - intros f id e Hin He _. exists e. split; [|done]. rewrite A5; [done|]. by eapply listed_lt.
Qed.

(** A change of entries that keeps every listed lock, and no change of the
    lists. *)
Lemma quiet_of_lists x w w' :
  wf_with env x w' -> (s_next w <= s_next w')%nat -> s_lists w' = s_lists w ->
  (forall id e e', s_entries w !! id = Some e -> s_entries w' !! id = Some e' -> like e e') ->
  quiet x w w'.
Proof.
  intros Hwf' Hn El Hlk. split; try done.
  - intros f. by rewrite El.
  - intros f id. unfold on_file. by rewrite El.
  - intros f id e Hin He _. unfold on_file in Hin. rewrite <- El in Hin.
    destruct (wf_lists env x w' Hwf') as (Hl & _).
    destruct (Hl _ _ Hin) as (e' & He' & _). eauto.
Qed.

Lemma quiet_same_entries x w w' :
  wf_with env x w' -> (s_next w <= s_next w')%nat -> s_lists w' = s_lists w ->
  s_entries w' = s_entries w -> quiet x w w'.
Proof.
  intros Hwf' Hn El Ee. apply quiet_of_lists; try done.
  intros id e e' He. rewrite Ee, He. by intros [= <-].
Qed.

(** ** Cookies *)

Lemma wf_on_block x w f b :
  wf_with env x w -> (forall bl, sbd_lock_entry (f bl) = sbd_lock_entry bl) ->
  wf_with env x (on_block f b w).
Proof.
  intros [] Hf. constructor; try done. simpl. intros id e b' He Hb.
  destruct (wf_blocks id e b' He Hb) as (bl & Hbl & Hle).
  destruct (decide (b' = b)) as [->|].
  - exists (f bl). by rewrite lookup_alter_eq, Hbl, Hf.
  - exists bl. by rewrite lookup_alter_ne.
Qed.

Lemma wf_del_cookie x w c : wf_with env x w -> wf_with env x (upd_cookies (delete c) w).
Proof.
  intros [? ? ? ? ? ? Hcn ? (R1 & R2 & R3 & R4) ?]. constructor; try done; simpl.
  - intros c' Hc'. apply Hcn. destruct Hc' as [ce Hc']. apply lookup_delete_Some in Hc' as [_ ?].
    by eexists.
  - split_and!; try done.
    + intros id e He. specialize (R1 id e He).
      destruct (s_cookies w !! c) as [ce|] eqn:Ec.
      * rewrite (cookies_of_delete _ _ _ id Ec). case_decide; lia.
      * by rewrite delete_id.
    + intros c' ce [_ Hce]%lookup_delete_Some. eauto.
Qed.

(** Giving up the reference of a cookie with the cookie. *)
Lemma wf_cookie_ref x w c ce :
  wf_with env x w -> s_cookies w !! c = Some ce -> x (sce_lock_entry ce) <= 3 ->
  wf_with env (add_at x (sce_lock_entry ce) 1) (upd_cookies (delete c) w).
Proof.
  intros [? ? ? ? ? ? Hcn ? (R1 & R2 & R3 & R4) ?] Hc Hx. constructor; try done; simpl.
  - intros c' Hc'. apply Hcn. destruct Hc' as [ce' Hc']. apply lookup_delete_Some in Hc' as [_ ?].
    by eexists.
  - split_and!.
    + intros id e He. specialize (R1 id e He). rewrite (cookies_of_delete _ _ _ id Hc).
      unfold add_at. repeat case_decide; try congruence; lia.
    + intros c' ce' [_ Hce]%lookup_delete_Some. eauto.
    + intros id. specialize (R3 id). unfold add_at. case_decide; subst; lia.
    + intros id. unfold add_at. case_decide; subst; eauto.
Qed.

Lemma dec_ref_upd_cookies id f w :
  same_core (upd_cookies f (lock_entry_dec_ref id w)) (lock_entry_dec_ref id (upd_cookies f w)).
Proof.
  unfold lock_entry_dec_ref, same_core. simpl. destruct (s_entries w !! id) as [e|]; [|done].
  case_match; [destruct (sle_block_data e)|]; by split_and!.
Qed.

Lemma free_cookie_wf x w c :
  (forall j, x j <= 3) -> wf_with env x w -> bounded w -> wf_with env x (free_cookie c true w).
Proof.
  intros Hx Hwf Hbd. unfold free_cookie. destruct (s_cookies w !! c) as [ce|] eqn:Ec; [|done].
  set (w1 := match entry_block w (sce_lock_entry ce) with Some b => _ | None => w end).
  assert (wf_with env x w1 /\ s_cookies w1 = s_cookies w /\ s_next w1 = s_next w /\
          s_entries w1 = s_entries w) as (Hwf1 & E1 & E2 & E3).
  { subst w1. destruct (entry_block w (sce_lock_entry ce)); split_and!; try done.
    by apply wf_on_block. }
  assert (is_Some (s_entries w1 !! sce_lock_entry ce)) as [e He].
  { destruct (wf_refs env x w1 Hwf1) as (_ & R2 & _). apply (R2 c). by rewrite E1. }
  rewrite <- E1 in Ec.
  pose proof (wf_cookie_ref x w1 c ce Hwf1 Ec (Hx _)) as Hwf2.
  eapply wf_same_core; [|eapply wf_ext; [apply (add_at_cancel x (sce_lock_entry ce) 1)|
    eapply (wf_dec_ref env _ _ (sce_lock_entry ce) e Hwf2)]].
  - destruct (dec_ref_upd_cookies (sce_lock_entry ce) (delete c) w1)
      as (A1&A2&A3&A4&A5&A6&A7&A8&A9&A10). by split_and!.
  - unfold bounded in *. simpl. by rewrite E2.
  - done.
  - rewrite add_at_eq. destruct (wf_refs env x w1 Hwf1) as (_ & _ & R3 & _).
    specialize (R3 (sce_lock_entry ce)). lia.
Qed.

Lemma free_cookie_frame c u w :
  s_lists (free_cookie c u w) = s_lists w /\ s_next (free_cookie c u w) = s_next w /\
  (forall id e e', s_entries w !! id = Some e -> s_entries (free_cookie c u w) !! id = Some e' ->
     e' = set_sle_ref_count (sle_ref_count e') e).
Proof.
  unfold free_cookie. destruct (s_cookies w !! c) as [ce|] eqn:Ec.
  2: { split_and!; try done. intros id e e' H1 H2. rewrite H1 in H2. injection H2 as <-.
       by destruct e. }
  destruct u; simpl.
  - set (w1 := match entry_block w (sce_lock_entry ce) with Some b => _ | None => w end).
    assert (s_lists w1 = s_lists w /\ s_next w1 = s_next w /\ s_entries w1 = s_entries w)
      as (E1 & E2 & E3) by (subst w1; by destruct (entry_block w (sce_lock_entry ce))).
    destruct (dec_ref_frame (sce_lock_entry ce) w1) as (D1 & D2 & D3 & _).
    split_and!; [congruence|congruence|]. intros id e e' He He'.
    destruct (decide (id = sce_lock_entry ce)) as [->|Hne].
    + eapply dec_ref_at; [|done]. by rewrite E3.
    + rewrite D1, E3, He in He' by done. injection He' as <-. by destruct e.
  - split_and!; try done. intros id e e' H1 H2. rewrite H1 in H2. injection H2 as <-.
    by destruct e.
Qed.

Lemma like_set_ref n e : like e (set_sle_ref_count n e).
Proof. done. Qed.

Lemma free_cookie_quiet x w c u :
  (forall j, x j <= 3) -> wf_with env x w -> bounded w -> quiet x w (free_cookie c u w).
Proof.
  intros Hx Hwf Hbd. destruct (free_cookie_frame c u w) as (E1 & E2 & E3).
  apply quiet_of_lists; try done.
  - destruct u; [by apply free_cookie_wf|]. unfold free_cookie.
    destruct (s_cookies w !! c); [|done]. by apply wf_del_cookie.
  - by rewrite E2.
  - intros id e e' He He'. rewrite (E3 id e e' He He'). apply like_set_ref.
Qed.

Lemma wf_new_cookie x w ck :
  wf_with env (add_at x (sce_lock_entry ck) 1) w -> (forall j, 0 <= x j) ->
  is_Some (s_entries w !! sce_lock_entry ck) ->
  wf_with env x (upd_cookies <[s_next w := ck]> (upd_next S w)).
Proof.
  intros [? ? ? ? ? Hnx Hcn ? (R1 & R2 & R3 & R4) ?] Hx Hs.
  assert (s_cookies w !! s_next w = None) as Hc.
  { destruct (s_cookies w !! s_next w) eqn:E; [|done].
    pose proof (Hcn (s_next w) ltac:(by eexists)). lia. }
  constructor; try done; simpl.
  - intros id Hid. specialize (Hnx id Hid). lia.
  - intros c Hc'. destruct (decide (c = s_next w)) as [->|]; [lia|].
    rewrite lookup_insert_ne in Hc' by done. specialize (Hcn c Hc'). lia.
  - split_and!.
    + intros id e He. specialize (R1 id e He). rewrite cookies_of_insert by done.
      unfold add_at in R1. repeat case_decide; try congruence; lia.
    + intros c ce. destruct (decide (c = s_next w)) as [->|].
      * rewrite lookup_insert_eq. by intros [= <-].
      * rewrite lookup_insert_ne by done. eauto.
    + intros id. specialize (R3 id). specialize (Hx id). unfold add_at in R3. case_decide; lia.
    + intros id Hid. apply R4. unfold add_at. case_decide; lia.
Qed.

(** The state [state_add_grant_cookie] reaches before it calls the FSAL. *)
Definition cookie_added (obj lock_entry block : nat) (cookie : list Z) w : sal F :=
  on_block (set_sbd_blocked_cookie (Some (s_next w))) block
    (lock_entry_inc_ref lock_entry
       (upd_ht_cookies <[cookie := s_next w]>
          (upd_cookies <[s_next w := mk_cookie obj lock_entry cookie]> (upd_next S w)))).

Lemma cookie_added_quiet x w obj lock_entry block cookie e :
  (forall j, x j <= 3) -> wf_with env x w -> bounded w -> s_entries w !! lock_entry = Some e ->
  quiet x w (cookie_added obj lock_entry block cookie w).
Proof.
  intros Hx Hwf Hbd He. apply quiet_of_lists; try done.
  - apply wf_on_block; [|done].
    pose proof (wf_inc_ref env x w lock_entry e Hwf Hbd He (Hx _)) as Hwf1.
    eapply wf_same_core;
      [|eapply (wf_new_cookie x (lock_entry_inc_ref lock_entry w)
                  (mk_cookie obj lock_entry cookie)); [exact Hwf1|..]].
    + by split_and!.
    + intros j. destruct (wf_refs env x w Hwf) as (_ & _ & R3 & _). by destruct (R3 j).
    + simpl. rewrite lookup_alter_eq, He. by eexists.
  - simpl. lia.
  - intros id e1 e2 H1. simpl. destruct (decide (id = lock_entry)) as [->|].
    + rewrite lookup_alter_eq, H1. by intros [= <-].
    + rewrite lookup_alter_ne, H1 by done. by intros [= <-].
Qed.

(** ** FSAL calls about an entry *)

Lemma next_do_entry_lock_op ctx obj op le w :
  (s_next w <= s_next (do_entry_lock_op env ctx obj op le w).2)%nat.
Proof.
  unfold do_entry_lock_op. destruct (s_entries w !! le) as [e|]; [|done].
  set (w1 := on_lock _ le w).
  pose proof (next_do_lock_op env ctx obj (sle_state e) op (sle_owner e) (sle_lock e)
                false false w1) as Hn.
  by destruct (do_lock_op _ _ _ _ _ _ _ _ _ _) as [[st out] w2].
Qed.

Lemma do_entry_lock_op_quiet x ctx obj op le w :
  (forall j, x j <= 3) -> wf_with env x w -> bounded (do_entry_lock_op env ctx obj op le w).2 ->
  quiet x w (do_entry_lock_op env ctx obj op le w).2.
Proof.
  intros Hx Hwf. unfold do_entry_lock_op.
  destruct (s_entries w !! le) as [e|] eqn:He; [|intros; by apply quiet_refl].
  set (w1 := on_lock _ le w).
  assert (wf_with env x w1) as Hwf1.
  { apply wf_on_entry; [done|]. intros e' He'. split_and!; try done. simpl.
    by apply (wf_ranges env x w Hwf le). }
  assert (quiet x w w1) as Hq1.
  { apply quiet_of_lists; try done. intros id e1 e2 H1 H2. simpl in H2.
    destruct (decide (id = le)) as [->|].
    - rewrite lookup_alter_eq, H1 in H2. by injection H2 as <-.
    - rewrite lookup_alter_ne, H1 in H2 by done. by injection H2 as <-. }
  pose proof (do_lock_op_same env x Hx ctx obj (sle_state e) op (sle_owner e) (sle_lock e)
                false false w1 Hwf1 (wf_ranges env x w Hwf le e He)) as Hs.
  destruct (do_lock_op _ _ _ _ _ _ _ _ _ _) as [[st out] w2]. simpl in *. intros Hbd.
  eapply quiet_trans; [exact Hq1|]. apply files_same_quiet; auto.
Qed.

Lemma next_add_grant_cookie ctx obj cookie le w :
  (s_next w <= s_next (state_add_grant_cookie env ctx obj cookie le w).2)%nat.
Proof.
  unfold state_add_grant_cookie. destruct (entry_block w le) as [b|]; [|done].
  destruct cookie as [|z cookie]; [done|]. simpl.
  destruct (s_ht_cookies w !! (z :: cookie)); [simpl; lia|].
  match goal with |- context [let '(_, _) := ?p in _] =>
    enough (s_next w <= s_next p.2)%nat as Hp; [destruct p as [status w1]|] end.
  { simpl in Hp. case_decide; simpl; [|done].
    destruct (free_cookie_frame (s_next w) false w1) as (_ & E & _). by rewrite E. }
  match goal with |- context [match ?g with Some _ => _ | None => _ end] =>
    destruct g as [[]|] end; simpl; try lia.
  all: etrans; [|apply next_do_entry_lock_op]; simpl; lia.
Qed.

Lemma add_grant_cookie_quiet x ctx obj cookie le w :
  (forall j, x j <= 3) -> wf_with env x w ->
  bounded (state_add_grant_cookie env ctx obj cookie le w).2 ->
  quiet x w (state_add_grant_cookie env ctx obj cookie le w).2.
Proof.
  intros Hx Hwf Hbd.
  assert (bounded w) as Hbd0 by (eapply bounded_mono; [apply next_add_grant_cookie|exact Hbd]).
  unfold state_add_grant_cookie, entry_block in *.
  destruct (s_entries w !! le) as [e|] eqn:He; simpl in *; [|by apply quiet_refl].
  destruct (sle_block_data e) as [b|]; [|by apply quiet_refl].
  destruct cookie as [|z cookie]; [by apply quiet_refl|]. simpl in *.
  destruct (s_ht_cookies w !! (z :: cookie)).
  { simpl. apply quiet_same_entries; simpl; try done; [|lia].
    destruct Hwf as [? ? ? ? ? Hnx Hcn ? (R1&R2&R3&R4) ?]. constructor; try done; simpl.
    - intros id Hid. specialize (Hnx id Hid). lia.
    - intros c Hc. specialize (Hcn c Hc). lia.
    - split_and!; try done. intros id e' He'. specialize (R1 id e' He'). lia. }
  fold (cookie_added obj le b (z :: cookie) w) in *.
  change (on_block _ b _) with (cookie_added obj le b (z :: cookie) w) in *.
  pose proof (cookie_added_quiet x w obj le b (z :: cookie) e Hx Hwf Hbd0 He) as Hq1.
  set (w1 := cookie_added obj le b (z :: cookie) w) in *.
  match goal with |- context [let '(_, _) := ?p in _] =>
    enough (bounded p.2 -> quiet x w1 p.2) as Hp; [destruct p as [status w2]|] end.
  - simpl in Hp. destruct (decide (status <> STATE_SUCCESS)); simpl in *.
    + destruct (free_cookie_frame (s_next w) false w2) as (_ & E & _).
      assert (bounded w2) as Hbd2 by (unfold bounded in *; by rewrite E in Hbd).
      specialize (Hp Hbd2). eapply quiet_trans; [eapply quiet_trans; [exact Hq1|exact Hp]|].
      apply free_cookie_quiet; auto. apply Hp.
    + eapply quiet_trans; [exact Hq1|auto].
  - match goal with |- context [match ?g with Some _ => _ | None => _ end] =>
      destruct g as [[]|] end; simpl.
    all: try (intros; apply quiet_refl, Hq1).
    all: apply do_entry_lock_op_quiet; [done|apply Hq1].
Qed.

Lemma next_cancel_grant ctx c w : (s_next w <= s_next (state_cancel_grant env ctx c w).2)%nat.
Proof.
  unfold state_cancel_grant. destruct (s_cookies w !! c) as [ce|]; [|done].
  pose proof (next_do_entry_lock_op ctx (sce_obj ce) FSAL_OP_UNLOCK (sce_lock_entry ce) w) as Hn.
  destruct (do_entry_lock_op _ _ _ _ _ _) as [st w1]. simpl in *.
  destruct (free_cookie_frame c true w1) as (_ & E & _). by rewrite E.
Qed.

Lemma cancel_grant_quiet x ctx c w :
  (forall j, x j <= 3) -> wf_with env x w -> bounded (state_cancel_grant env ctx c w).2 ->
  quiet x w (state_cancel_grant env ctx c w).2.
Proof.
  intros Hx Hwf. unfold state_cancel_grant.
  destruct (s_cookies w !! c) as [ce|]; [|intros; by apply quiet_refl].
  pose proof (do_entry_lock_op_quiet x ctx (sce_obj ce) FSAL_OP_UNLOCK (sce_lock_entry ce) w
                Hx Hwf) as Hq.
  destruct (do_entry_lock_op _ _ _ _ _ _) as [st w1]. simpl in *.
  destruct (free_cookie_frame c true w1) as (_ & E & _). unfold bounded. rewrite E. intros Hbd.
  specialize (Hq Hbd). eapply quiet_trans; [exact Hq|]. apply free_cookie_quiet; auto. apply Hq.
Qed.

(** ** The GRANTED callback *)

Lemma quiet_core x w w' :
  wf_with env x w -> same_core w w' -> quiet x w w'.
Proof.
  intros Hwf Hs. pose proof Hs as (E1&E2&E3&E4&_).
  apply quiet_same_entries; try done; [by eapply wf_same_core|by rewrite E3].
Qed.

Lemma ref_host_core host n w : same_core w (ref_host host n w).
Proof. unfold ref_host. destruct host; by split_and!. Qed.

Lemma submit_quiet x task w : wf_with env x w -> quiet x w (submit task w).2.
Proof.
  intros Hwf. unfold submit. destruct (with_fsal_frame fridgethr_submit w) as (rc & f & ->).
  destruct (rc =? 0); simpl; apply quiet_same_entries; try done;
    by eapply wf_same; [..|exact Hwf].
Qed.

Lemma next_submit task w : s_next (submit task w).2 = s_next w.
Proof.
  unfold submit. destruct (with_fsal_frame fridgethr_submit w) as (rc & f & ->).
  by destruct (rc =? 0).
Qed.

Lemma next_callback ctx obj le w :
  (s_next w <= s_next (nlm_granted_callback env ctx obj le w).2)%nat.
Proof.
  unfold nlm_granted_callback. simpl. set (w0 := upd_granted_cookie _ w).
  match goal with |- context [state_add_grant_cookie env ctx obj ?k le w0] =>
    pose proof (next_add_grant_cookie ctx obj k le w0) as Hn;
    destruct (state_add_grant_cookie env ctx obj k le w0) as [[st c] w1] end. simpl in *.
  destruct c as [c|]; [|done]. destruct (s_entries w1 !! le) as [e|]; [|done].
  destruct (sle_owner e) as [o|]; [|done].
  unfold state_async_schedule. set (w2 := ref_host _ _ w1).
  assert (s_next w2 = s_next w1) as E2 by (apply (ref_host_core _ 1 w1)).
  match goal with |- context [submit ?t w2] =>
    pose proof (next_submit t w2) as Hs; destruct (submit t w2) as [st' w3] end. simpl in *.
  case_decide; [|simpl; lia].
  set (w4 := ref_host _ _ w3).
  assert (s_next w4 = s_next w3) as E4 by (apply (ref_host_core _ (-1) w3)).
  pose proof (next_cancel_grant ctx c w4) as Hc.
  destruct (state_cancel_grant env ctx c w4) as [st2 w5]. simpl in *. lia.
Qed.

Lemma callback_quiet x ctx obj le w :
  (forall j, x j <= 3) -> wf_with env x w -> bounded (nlm_granted_callback env ctx obj le w).2 ->
  quiet x w (nlm_granted_callback env ctx obj le w).2.
Proof.
  intros Hx Hwf. unfold nlm_granted_callback. simpl. set (w0 := upd_granted_cookie _ w).
  assert (wf_with env x w0) as Hwf0 by (by eapply wf_same; [..|exact Hwf]).
  assert (quiet x w w0) as Hq0 by (by apply quiet_same_entries).
  match goal with |- context [state_add_grant_cookie env ctx obj ?k le w0] =>
    pose proof (add_grant_cookie_quiet x ctx obj k le w0 Hx Hwf0) as Hq1;
    destruct (state_add_grant_cookie env ctx obj k le w0) as [[st c] w1] end. simpl in *.
  assert (forall w', bounded w' -> (s_next w1 <= s_next w')%nat -> quiet x w w1) as Hq1'.
  { intros w' Hb Hle. eapply quiet_trans; [exact Hq0|]. apply Hq1. by eapply bounded_mono. }
  destruct c as [c|]; [|intros Hb; by eapply Hq1'].
  destruct (s_entries w1 !! le) as [e|]; [|intros Hb; by eapply Hq1'].
  destruct (sle_owner e) as [o|]; [|intros Hb; by eapply Hq1'].
  unfold state_async_schedule. set (w2 := ref_host _ _ w1).
  assert (same_core w1 w2) as Hc2 by apply ref_host_core.
  match goal with |- context [submit ?t w2] =>
    pose proof (submit_quiet x t w2) as Hq3; pose proof (next_submit t w2) as Hs;
    destruct (submit t w2) as [st' w3] end. simpl in *.
  assert (s_next w2 = s_next w1) as E2 by apply Hc2.
  assert (forall w', bounded w' -> (s_next w1 <= s_next w')%nat -> quiet x w w3) as Hq3'.
  { intros w' Hb Hle. specialize (Hq1' w' Hb Hle).
    assert (quiet x w w2) as Hq2.
    { eapply quiet_trans; [exact Hq1'|]. apply quiet_core; [apply Hq1'|done]. }
    eapply quiet_trans; [exact Hq2|]. apply Hq3, Hq2. }
  case_decide; simpl; [|intros Hb; eapply Hq3'; [done|lia]].
  set (w4 := ref_host _ _ w3).
  assert (same_core w3 w4) as Hc4 by apply ref_host_core.
  pose proof (cancel_grant_quiet x ctx c w4 Hx) as Hq5.
  pose proof (next_cancel_grant ctx c w4) as Hn5.
  destruct (state_cancel_grant env ctx c w4) as [st2 w5]. simpl in *. intros Hb.
  assert (s_next w4 = s_next w3) as E4 by apply Hc4.
  specialize (Hq3' w5 Hb ltac:(lia)).
  assert (quiet x w w4) as Hq4.
  { eapply quiet_trans; [exact Hq3'|]. apply quiet_core; [apply Hq3'|done]. }
  eapply quiet_trans; [exact Hq4|]. apply Hq5; [apply Hq4|done].
Qed.

(** ** Changing the status of one entry, and taking one off the lists *)

Lemma evolves_status x D (T0 T : state_blocking_t -> state_blocking_t -> Prop) w w' :
  evolves x D T0 w w' ->
  (forall f id e e', on_file f w' id -> D id -> s_entries w !! id = Some e ->
     s_entries w' !! id = Some e' -> T (sle_blocked e) (sle_blocked e')) ->
  evolves x D T w w'.
Proof.
  intros A HT. split; try apply A. intros f id e Hin He HD.
  destruct (ev_touched _ _ _ _ _ A f id e Hin He HD) as (e' & He' & Hl & _).
  exists e'. split_and!; try done. by eapply HT.
Qed.

Lemma remove_evolves x T f le w :
  (forall j, x j <= 3) -> wf_with env x w -> bounded w -> on_file f w le ->
  evolves x (fun j => j = le) T w (remove_from_locklist env le w).
Proof.
  intros Hx Hwf Hbd Hin. destruct (wf_lists env x w Hwf) as (Hl & _).
  destruct (Hl _ _ Hin) as (e & He & [o Ho] & _).
  destruct (remove_frame env le w e o He Ho) as (R1 & R2 & R3 & R4 & R5).
  split.
  - by eapply wf_remove.
  - by rewrite R3.
  - intros g. rewrite R2, glist_del_lookup. apply sublist_filter.
  - intros g id Hid Hne. unfold on_file. rewrite R2. by apply elem_of_glist_del.
  - intros g id e' Hid He' Hne. exists e'. by rewrite R1.
  - intros g id e' Hid He' ->. unfold on_file in Hid. rewrite R2 in Hid.
    by apply elem_of_glist_del in Hid as [? _].
Qed.

Lemma remove_off_file x f g le w :
  wf_with env x w -> on_file f w le -> ~ on_file g (remove_from_locklist env le w) le.
Proof.
  intros Hwf Hin. destruct (wf_lists env x w Hwf) as (Hl & _).
  destruct (Hl _ _ Hin) as (e & He & [o Ho] & _).
  destruct (remove_frame env le w e o He Ho) as (_ & R2 & _).
  unfold on_file. rewrite R2. by intros [? _]%elem_of_glist_del.
Qed.

Lemma status_evolves x (T : state_blocking_t -> state_blocking_t -> Prop) s le w :
  wf_with env x w -> (forall e, s_entries w !! le = Some e -> T (sle_blocked e) s) ->
  evolves x (fun j => j = le) T w (on_entry (set_sle_blocked s) le w).
Proof.
  intros Hwf HT. split; try done.
  - apply wf_on_entry; [done|]. intros e He. split_and!; try done.
    exact (wf_ranges env x w Hwf le e He).
  - intros f id e Hin He Hne. exists e. simpl. by rewrite lookup_alter_ne.
  - intros f id e Hin He ->. simpl. rewrite lookup_alter_eq, He. simpl.
    eexists. split; [done|]. split; [by split_and!|auto].
Qed.

Lemma on_block_quiet x w f b :
  wf_with env x w -> (forall bl, sbd_lock_entry (f bl) = sbd_lock_entry bl) ->
  quiet x w (on_block f b w).
Proof. intros Hwf Hf. apply quiet_same_entries; try done. by apply wf_on_block. Qed.

Lemma add_ref_quiet x w t n : wf_with env x w -> quiet x w (add_ref t n w).
Proof. intros Hwf. apply quiet_core; [done|by split_and!]. Qed.

(** ** [try_to_grant_lock] *)

Definition may_grant (a b : state_blocking_t) : Prop := b = a \/ b = STATE_GRANTING.
Definition any_change (a b : state_blocking_t) : Prop := True.

#[local] Instance any_change_trans : Transitive any_change.
Proof. done. Qed.

Lemma next_grant_call_back le e blk w :
  (s_next w <= s_next (grant_by_call_back env le e blk w))%nat.
Proof.
  unfold grant_by_call_back.
  match goal with |- context [nlm_granted_callback env ?a ?b le ?v] =>
    pose proof (next_callback a b le v) as Hn;
    destruct (nlm_granted_callback env a b le v) as [st w4] end. simpl in *.
  repeat case_decide; rewrite ?next_remove; done.
Qed.

Lemma next_try_grant le w : (s_next w <= s_next (try_to_grant_lock env le w))%nat.
Proof.
  unfold try_to_grant_lock. destruct (s_entries w !! le) as [e|]; [|done].
  destruct (sle_blocked e), (sle_block_data e) as [blk|], (export_ready env (sle_export e));
    rewrite ?next_remove; auto using next_grant_call_back.
Qed.

Lemma grant_call_back_evolves x f le e blk w :
  (forall j, x j <= 3) -> wf_with env x w -> on_file f w le -> s_entries w !! le = Some e ->
  bounded (grant_by_call_back env le e blk w) ->
  evolves x (fun j => j = le) may_grant w (grant_by_call_back env le e blk w).
Proof.
  intros Hx Hwf Hin He. unfold grant_by_call_back.
  set (w1 := add_ref _ 1 w). set (w2 := on_entry _ le w1). set (w3 := on_block _ blk w2).
  assert (quiet x w w1) as Q1 by (by apply add_ref_quiet).
  assert (evolves x (fun j => j = le) may_grant w w2) as V2.
  { eapply quiet_evolves; [exact Q1|]. apply status_evolves; [apply Q1|]. intros. by right. }
  assert (evolves x (fun j => j = le) may_grant w w3) as V3.
  { eapply evolves_quiet; [exact V2|]. apply on_block_quiet; [apply V2|].
    intros bl. by case_decide. }
  pose proof (callback_quiet x (sle_export e) (sle_obj e) le w3 Hx (ev_wf _ _ _ _ _ V3)) as Q4.
  destruct (nlm_granted_callback env (sle_export e) (sle_obj e) le w3) as [st w4].
  set (w5 := add_ref _ (-1) w4).
  assert (bounded w4 -> evolves x (fun j => j = le) may_grant w w5) as V5.
  { intros Hb. specialize (Q4 Hb). eapply evolves_quiet; [eapply evolves_quiet; [exact V3|exact Q4]|].
    apply add_ref_quiet, Q4. }
  case_decide; [|case_decide].
  - (* still blocked: the status is restored *)
    intros Hbd. specialize (V5 Hbd).
    set (w6 := on_entry (set_sle_blocked (sle_blocked e)) le w5).
    eapply evolves_quiet; [|apply on_block_quiet; [|done]].
    + eapply (evolves_status x _ any_change).
      * eapply evolves_trans; [apply _| | |apply status_evolves; [apply V5|done]]; [apply V5|].
        eapply evolves_status; [exact V5|done].
      * intros g id e1 e2 _ -> H1 H2. left. rewrite He in H1. injection H1 as <-.
        simpl in H2. rewrite lookup_alter_eq in H2. destruct (s_entries w4 !! le); [|done].
        simpl in H2. by injection H2 as <-.
    + apply (status_evolves x any_change); [apply V5|done].
  - intros Hbd. eapply evolves_quiet; [by apply V5|]. apply quiet_core; [|by split_and!].
    by apply V5.
  - intros Hbd. unfold bounded in Hbd. rewrite next_remove in Hbd. specialize (V5 Hbd).
    set (w6 := upd_blocked _ w5) in *.
    assert (evolves x (fun j => j = le) may_grant w w6) as V6.
    { eapply evolves_quiet; [exact V5|]. apply quiet_core; [apply V5|by split_and!]. }
    eapply (evolves_status x _ any_change).
    + eapply evolves_trans; [apply _| |eapply evolves_status; [exact V6|done]|].
      * apply V6.
      * apply (remove_evolves x any_change f); try done; [apply V6|].
        apply (ev_keep _ _ _ _ _ (Q4 Hbd) f le Hin). tauto.
    + intros g id e1 e2 Hin' ->. exfalso. revert Hin'. apply (remove_off_file x f).
      * apply V6.
      * apply (ev_keep _ _ _ _ _ (Q4 Hbd) f le Hin). tauto.
Qed.

Lemma try_grant_evolves x f le w :
  (forall j, x j <= 3) -> wf_with env x w -> on_file f w le ->
  bounded (try_to_grant_lock env le w) ->
  evolves x (fun j => j = le) may_grant w (try_to_grant_lock env le w).
Proof.
  intros Hx Hwf Hin Hbd.
  assert (bounded w) as Hbd0 by (eapply bounded_mono; [apply next_try_grant|exact Hbd]).
  pose proof (remove_evolves x may_grant f le w Hx Hwf Hbd0 Hin) as Hr.
  unfold try_to_grant_lock in *. destruct (s_entries w !! le) as [e|] eqn:He.
  - destruct (sle_blocked e), (sle_block_data e) as [blk|], (export_ready env (sle_export e));
      try exact Hr; by apply (grant_call_back_evolves x f).
  - apply evolves_refl; [done|]. intros. by left.
Qed.

(** ** A loop over the list of a file that works on one entry at a time *)
Section fold.
Context (x : nat -> Z) (f : nat) (T : state_blocking_t -> state_blocking_t -> Prop).
Context (body : nat -> sal F -> sal F) (P : state_lock_entry_t -> bool).
Context (HTr : forall s, T s s) (HTt : Transitive T).
Context (HP : forall e e', like e e' -> P e' = P e).
Context (Hnext : forall id w, (s_next w <= s_next (body id w))%nat).
Context (Hbody : forall id w, wf_with env x w -> on_file f w id -> bounded (body id w) ->
  evolves x (fun j => j = id) T w (body id w)).
Context (Hskip : forall id w e, s_entries w !! id = Some e -> P e = false -> body id w = w).

(** The entries the loop is about, in the state it starts in. *)
Definition selected w0 (id : nat) : Prop :=
  on_file f w0 id /\ match s_entries w0 !! id with Some e => P e = true | None => False end.

#[export] Instance selected_dec w0 id : Decision (selected w0 id).
Proof. unfold selected, on_file. destruct (s_entries w0 !! id); apply _. Defined.

Lemma next_fold l w : (s_next w <= s_next (foldl (fun w id => body id w) w l))%nat.
Proof.
  revert w. induction l as [|id l IH]; intros w; simpl; [done|].
  etrans; [apply (Hnext id)|apply IH].
Qed.

Lemma fold_evolves_gen w0 l w :
  NoDup l -> (forall id, id ∈ l -> on_file f w0 id) -> (forall id, id ∈ l -> on_file f w id) ->
  wf_with env x w0 -> evolves x (selected w0) T w0 w ->
  bounded (foldl (fun w id => body id w) w l) ->
  evolves x (selected w0) T w0 (foldl (fun w id => body id w) w l).
Proof.
  revert w. induction l as [|id l IH]; intros w Hnd Hin0 Hin Hwf0 Hev Hbd; simpl in *; [done|].
  apply NoDup_cons in Hnd as [Hid Hnd].
  pose proof (ev_wf _ _ _ _ _ Hev) as Hwf.
  assert (bounded (body id w)) as Hbd1 by (eapply bounded_mono; [apply next_fold|exact Hbd]).
  assert (on_file f w id) as Hidw by (apply Hin; by left).
  pose proof (Hbody id w Hwf Hidw Hbd1) as Hev1.
  apply IH; try done.
  - intros j Hj. apply Hin0. by right.
  - intros j Hj. eapply ev_keep; [exact Hev1|apply Hin; by right|]. by intros ->.
  - destruct (decide (selected w0 id)) as [Hs|Hs].
    + eapply evolves_trans; [apply _|exact Hwf|exact Hev|].
      eapply evolves_weaken; [|exact Hev1|by intros ? ->|done]. intros j. apply _.
    + assert (on_file f w0 id) as H0 by (apply Hin0; by left).
      destruct (wf_lists env x w0 Hwf0) as (Hl & _). destruct (Hl _ _ H0) as (e0 & He0 & _).
      destruct (ev_like _ _ _ _ _ Hev f id e0 H0 He0 Hs) as (e & He & Hlk).
      rewrite (Hskip id w e He); [done|]. rewrite (HP e0 e Hlk).
      unfold selected in Hs. rewrite He0 in Hs. destruct (P e0); tauto.
Qed.

Lemma fold_evolves w :
  wf_with env x w ->
  bounded (foldl (fun w id => body id w) w (glist (s_lists w) (lock_list f))) ->
  evolves x (selected w) T w
    (foldl (fun w id => body id w) w (glist (s_lists w) (lock_list f))).
Proof.
  intros Hwf Hbd. apply fold_evolves_gen; try done.
  - apply (wf_lists env x w Hwf).
  - by apply evolves_refl.
Qed.

(** A property each iteration keeps. *)
Lemma fold_invariant (Q : sal F -> Prop) w :
  (forall id w, wf_with env x w -> on_file f w id -> bounded (body id w) -> Q w -> Q (body id w)) ->
  wf_with env x w -> Q w ->
  bounded (foldl (fun w id => body id w) w (glist (s_lists w) (lock_list f))) ->
  Q (foldl (fun w id => body id w) w (glist (s_lists w) (lock_list f))).
Proof.
  intros HQ Hwf Hq. assert (forall id, id ∈ glist (s_lists w) (lock_list f) -> on_file f w id) as Hin
    by done.
  destruct (wf_lists env x w Hwf) as (_ & Hnd & _). specialize (Hnd (lock_list f)).
  revert Hin Hnd. generalize (glist (s_lists w) (lock_list f)). intros l.
  revert w Hwf Hq. induction l as [|id l IH]; intros w Hwf Hq Hin Hnd Hbd; simpl in *; [done|].
  apply NoDup_cons in Hnd as [Hid Hnd].
  assert (bounded (body id w)) as Hbd1 by (eapply bounded_mono; [apply next_fold|exact Hbd]).
  assert (on_file f w id) as Hidw by (apply Hin; by left).
  pose proof (Hbody id w Hwf Hidw Hbd1) as Hev1.
  apply IH; try done; [apply Hev1|by apply HQ|].
  intros j Hj. eapply ev_keep; [exact Hev1|apply Hin; by right|]. by intros ->.
Qed.
End fold.
End grant.
