(* ===== verification/LockExcl.v ===== *)
(** * Mutual exclusion

    No two owners hold conflicting locks on a byte: the invariant, and that
    granting blocked locks ([grant_blocked_locks], SAL/state_lock.c) keeps
    it. *)
From S2P Require Import Prelude Status Owners Fsal LockData LockList LockOps.
From S2P Require Import LockWf LockSem LockMerge LockSubtract LockFsalOps LockGrant.

Section search.
Context {F : Type}.
Implicit Types (w : sal F).

Lemma find_entry_None P l w :
  find_entry P l w = None <->
  forall id e, id ∈ l -> s_entries w !! id = Some e -> P e = false.
Proof.
  induction l as [|y l IH]; simpl.
  - split; [|done]. intros _ id e Hin. by apply elem_of_nil in Hin.
  - destruct (s_entries w !! y) as [ey|] eqn:Ey; [destruct (P ey) eqn:Ep|].
    + split; [done|]. intros Hall. rewrite (Hall y ey) in Ep; [done|by left|done].
    + rewrite IH. split.
      * intros Hall id e [->|Hin]%elem_of_cons He; [congruence|eauto].
      * intros Hall id e Hin. apply Hall. by right.
    + rewrite IH. split.
      * intros Hall id e [->|Hin]%elem_of_cons He; [congruence|eauto].
      * intros Hall id e Hin. apply Hall. by right.
Qed.

Lemma find_entry_Some P l w id :
  find_entry P l w = Some id ->
  id ∈ l /\ exists e, s_entries w !! id = Some e /\ P e = true.
Proof.
  induction l as [|y l IH]; simpl; [done|].
  destruct (s_entries w !! y) as [ey|] eqn:Ey; [destruct (P ey) eqn:Ep|].
  - intros [= <-]. split; [by left|eauto].
  - intros [Hin He]%IH. split; [by right|done].
  - intros [Hin He]%IH. split; [by right|done].
Qed.
End search.

Section excl.
Context `{FsalOps F} (env : sal_env) (Hsame : Equivalence (same_owner (env_owners env))).
Implicit Types (w : sal F).

#[local] Infix "≈" := (same_owner (env_owners env)) (at level 70).

(** The locks in force on file [f] do not conflict. *)
Definition excl w (f : nat) : Prop :=
  forall b o1 t1 o2 t2, holds w f o1 t1 b -> holds w f o2 t2 b -> ~ o1 ≈ o2 ->
    t1 <> FSAL_LOCK_W /\ t2 <> FSAL_LOCK_W.

Lemma excl_mono w w' f :
  excl w f -> (forall o t b, holds w' f o t b -> exists o', o' ≈ o /\ holds w f o' t b) ->
  excl w' f.
Proof.
  intros He Hs b o1 t1 o2 t2 (o1' & E1 & H1)%Hs (o2' & E2 & H2)%Hs Hne.
  apply (He b o1' t1 o2' t2 H1 H2). intros E. apply Hne.
  etrans; [symmetry; exact E1|]. by etrans.
Qed.

(** Adding a lock of owner [ol] that conflicts with none in force. *)
Lemma excl_add w w' f ol tl (R : Z -> Prop) :
  excl w f ->
  (forall o t b, holds w' f o t b ->
     exists o', o' ≈ o /\ (holds w f o' t b \/ (o' ≈ ol /\ t = tl /\ R b))) ->
  (forall o t b, holds w f o t b -> R b -> ~ o ≈ ol -> t <> FSAL_LOCK_W /\ tl <> FSAL_LOCK_W) ->
  excl w' f.
Proof.
  intros He Hs Hc b o1 t1 o2 t2 (o1' & E1 & H1)%Hs (o2' & E2 & H2)%Hs Hne.
  assert (~ o1' ≈ o2') as Hne'.
  { intros E. apply Hne. etrans; [symmetry; exact E1|]. by etrans. }
  destruct H1 as [H1|(L1 & -> & R1)], H2 as [H2|(L2 & -> & R2)].
  - by apply (He b o1' t1 o2' t2).
  - apply (Hc o1' t1 b); try done. intros E. apply Hne'. etrans; [exact E|by symmetry].
  - destruct (Hc o2' t2 b); try done. intros E. apply Hne'. etrans; [exact L1|by symmetry].
  - exfalso. apply Hne'. etrans; [exact L1|by symmetry].
Qed.

(** What [get_overlapping_entry] looks for. *)
Lemma entry_conflicts_false owner lock e :
  entry_conflicts env owner lock e = false ->
  granted (sle_blocked e) = true ->
  forall b, in_range (sle_lock e) b -> in_range lock b ->
    different_owners (env_owners env) (sle_owner e) owner = true ->
    lock_type (sle_lock e) <> FSAL_LOCK_W /\ lock_type lock <> FSAL_LOCK_W.
Proof.
  unfold entry_conflicts, granted, in_range. intros Hc Hg b Hb1 Hb2 Hd.
  rewrite Hg, Hd in Hc. simpl in Hc.
  rewrite (proj2 (Z.leb_le _ _)), (proj2 (Z.leb_le _ _)) in Hc by lia. simpl in Hc.
  rewrite andb_true_r in Hc. apply orb_false_iff in Hc as [H1 H2].
  by apply bool_decide_eq_false in H1, H2.
Qed.

(** ** Granting blocked locks *)

Lemma on_file_entry x w f id :
  wf_with env x w -> on_file f w id ->
  exists e o, s_entries w !! id = Some e /\ sle_owner e = Some o /\ sle_obj e = f.
Proof.
  intros Hwf Hin. destruct (wf_lists env x w Hwf) as (Hl & _).
  destruct (Hl _ _ Hin) as (e & He & [o Ho] & Hf). exists e, o. auto.
Qed.

(** A lock in force after an evolution was in force before, or is one whose
    status changed. *)
Lemma evolves_holds x (D : nat -> Prop) T w w' f o t b :
  (forall id, Decision (D id)) -> wf_with env x w -> evolves env x D T w w' ->
  holds w' f o t b ->
  holds w f o t b \/
  exists id e s, D id /\ on_file f w id /\ s_entries w !! id = Some e /\
    sle_owner e = Some o /\ lock_type (sle_lock e) = t /\ in_range (sle_lock e) b /\
    T (sle_blocked e) s /\ granted s = true.
Proof.
  intros Hdec Hwf Hev (id & e' & Hin' & He' & Hg & Ho & Ht & Hb).
  pose proof (evolves_sub_on env _ _ _ _ _ _ _ Hev Hin') as Hin.
  destruct (on_file_entry x w f id Hwf Hin) as (e & o' & He & Ho' & _).
  destruct (decide (D id)) as [Hd|Hd].
  - right. destruct (ev_touched _ _ _ _ _ _ Hev f id e Hin' He Hd) as (e'' & He'' & Hl & HT).
    rewrite He' in He''. injection He'' as <-.
    exists id, e, (sle_blocked e'). pose proof Hl as (L1 & _ & _ & _ & L5 & _).
    split_and!; try done; try congruence. by rewrite <- (same_lock_range e e').
  - left. destruct (ev_like _ _ _ _ _ _ Hev f id e Hin He Hd) as (e'' & He'' & Hl & Hbk).
    rewrite He' in He''. injection He'' as <-.
    pose proof Hl as (L1 & _ & _ & _ & L5 & _).
    exists id, e. split_and!; try done; try congruence. by rewrite <- (same_lock_range e e').
Qed.

(** Granting an entry that conflicts with none in force. *)
Lemma try_grant_excl x f g id w e :
  (forall j, x j <= 3) -> wf_with env x w -> on_file f w id -> s_entries w !! id = Some e ->
  get_overlapping_entry env f (sle_owner e) (sle_lock e) w = None ->
  bounded (try_to_grant_lock env id w) ->
  excl w g -> excl (try_to_grant_lock env id w) g.
Proof.
  intros Hx Hwf Hin He Eg Hbd Hex.
  destruct (on_file_entry x w f id Hwf Hin) as (e' & o & He' & Ho & Hobj).
  rewrite He in He'. injection He' as <-.
  pose proof (try_grant_evolves env x f id w Hx Hwf Hin Hbd) as Hev.
  pose proof (proj1 (find_entry_None _ _ _) Eg) as Hnone.
  assert (forall o' t b, holds w g o' t b -> in_range (sle_lock e) b /\ g = f -> ~ o' ≈ o ->
            t <> FSAL_LOCK_W /\ lock_type (sle_lock e) <> FSAL_LOCK_W) as Hnc.
  { intros o' t b (id2 & e2 & Hin2 & He2 & Hg2 & Ho2 & Ht2 & Hb2) [Hb ->] Hne.
    subst t. eapply entry_conflicts_false; [by eapply Hnone|done|done|exact Hb|].
    rewrite Ho2, Ho. destruct (different_owners _ _ _) eqn:Ed; [done|]. by destruct Hne. }
  eapply (excl_add w _ g o (lock_type (sle_lock e))
            (fun b => in_range (sle_lock e) b /\ g = f)); [done| |exact Hnc].
  intros o' t b Hh. exists o'. split; [done|].
  destruct (evolves_holds x (fun j => j = id) may_grant w _ g o' t b (fun j => _) Hwf Hev Hh)
    as [Hh'|(id2 & e2 & s & -> & Hin2 & He2 & Ho2 & Ht2 & Hb2 & HT & Hg2)]; [by left|].
  right. rewrite He in He2. injection He2 as <-.
  destruct (wf_lists env x w Hwf) as (_ & _ & Hd).
  pose proof (Hd _ _ _ Hin Hin2) as [= ->]. rewrite Ho in Ho2. injection Ho2 as ->.
  by split_and!.
Qed.

Definition is_waiting (e : state_lock_entry_t) : bool :=
  match sle_blocked e with
  | STATE_NLM_BLOCKING | STATE_NFSV4_BLOCKING => true
  | _ => false
  end.

#[local] Instance may_grant_trans : Transitive may_grant.
Proof. intros a b c [->| ->] [->| ->]; unfold may_grant; auto. Qed.

Lemma next_grant_entry f id w : (s_next w <= s_next (grant_blocked_entry env f id w))%nat.
Proof.
  unfold grant_blocked_entry. destruct (s_entries w !! id) as [e|]; [|done].
  case_decide; [done|]. destruct (get_overlapping_entry _ _ _ _ _); [done|].
  apply next_try_grant.
Qed.

Lemma next_grant_blocked ctx f w : (s_next w <= s_next (grant_blocked_locks env ctx f w))%nat.
Proof.
  unfold grant_blocked_locks. case_match; [done|].
  apply (next_fold (grant_blocked_entry env f)). apply next_grant_entry.
Qed.

Lemma grant_entry_evolves x f id w :
  (forall j, x j <= 3) -> wf_with env x w -> on_file f w id ->
  bounded (grant_blocked_entry env f id w) ->
  evolves env x (fun j => j = id) may_grant w (grant_blocked_entry env f id w) /\
  (forall g, excl w g -> excl (grant_blocked_entry env f id w) g).
Proof.
  intros Hx Hwf Hin Hbd. unfold grant_blocked_entry in *.
  destruct (on_file_entry x w f id Hwf Hin) as (e & o & He & Ho & Hobj). rewrite He in *.
  assert (evolves env x (fun j => j = id) may_grant w w) as Hrefl.
  { apply evolves_refl; [done|]. intros. by left. }
  case_decide; [by split|].
  destruct (get_overlapping_entry env f (sle_owner e) (sle_lock e) w) as [id'|] eqn:Eg;
    [by split|].
  split; [by apply (try_grant_evolves env x f)|]. intros g. by apply (try_grant_excl x f g id w e).
Qed.

(** The entries that wait for file [f]. *)
Definition waiting_in (f : nat) w (id : nat) : Prop := selected f is_waiting w id.

Lemma grant_blocked_evolves x ctx f w :
  (forall j, x j <= 3) -> wf_with env x w -> bounded (grant_blocked_locks env ctx f w) ->
  evolves env x (waiting_in f w) may_grant w (grant_blocked_locks env ctx f w) /\
  (forall g, excl w g -> excl (grant_blocked_locks env ctx f w) g).
Proof.
  intros Hx Hwf Hbd. unfold grant_blocked_locks in *.
  destruct (fs_supports ctx fso_lock_support_async_block).
  { split; [|done]. apply evolves_refl; [done|by left]. }
  split.
  - apply (fold_evolves env x f may_grant (grant_blocked_entry env f) is_waiting); try done.
    + by left.
    + apply _.
    + intros e e' [_ E]. unfold is_waiting. by rewrite E.
    + apply next_grant_entry.
    + intros id w1 Hwf1 Hin1 Hbd1. by apply grant_entry_evolves.
    + intros id w1 e He Hw. unfold grant_blocked_entry. rewrite He.
      unfold is_waiting in Hw. rewrite decide_True; [done|]. by destruct (sle_blocked e).
  - intros g Hg.
    apply (fold_invariant env x f may_grant (grant_blocked_entry env f)
             (next_grant_entry f)); try done.
    + intros id w1 Hwf1 Hin1 Hbd1. by apply grant_entry_evolves.
    + intros id w1 Hwf1 Hin1 Hbd1. by apply (grant_entry_evolves x f id w1 Hx Hwf1 Hin1 Hbd1).
Qed.
End excl.
