(* ===== verification/LockCancel.v ===== *)
(** * Cancelling blocked locks, and completing grants

    [cancel_blocked_lock], [cancel_blocked_locks_range],
    [grant_blocked_lock_immediate], [state_complete_grant] and
    [state_release_grant] (SAL/state_lock.c) keep the state well formed and
    keep mutual exclusion. *)
From S2P Require Import Prelude Status Owners Fsal LockData LockList LockOps.
From S2P Require Import LockWf LockSem LockMerge LockSubtract LockFsalOps LockGrant LockExcl.

Section cancel.
Context `{FsalOps F} (env : sal_env) (Hsame : Equivalence (same_owner (env_owners env))).
Implicit Types (w : sal F) (x : nat -> Z).

#[local] Infix "≈" := (same_owner (env_owners env)) (at level 70).

Definition may_cancel (a b : state_blocking_t) : Prop := b = a \/ b = STATE_CANCELED.

#[local] Instance may_cancel_trans : Transitive may_cancel.
Proof. intros a b c [->| ->] [->| ->]; unfold may_cancel; auto. Qed.

Lemma find_attached_frame k w c w' :
  find_attached k w = (c, w') -> same_core w w'.
Proof.
  unfold find_attached, state_find_grant. destruct k as [bytes|].
  - destruct (s_ht_cookies w !! bytes); intros [= <- <-]; by split_and!.
  - intros [= <- <-]. by split_and!.
Qed.

Lemma find_attached_quiet x k w c w' :
  wf_with env x w -> find_attached k w = (c, w') -> quiet env x w w' /\ s_next w' = s_next w.
Proof.
  intros Hwf E. pose proof (find_attached_frame k w c w' E) as Hc.
  split; [by apply quiet_core|apply Hc].
Qed.

Lemma next_cancel_blocked ctx obj le w :
  (s_next w <= s_next (cancel_blocked_lock env ctx obj le w))%nat.
Proof.
  unfold cancel_blocked_lock. set (w1 := on_entry _ le w).
  destruct (attached_cookie w1 le) as [k|].
  - rewrite next_remove. destruct (find_attached k w1) as [c w2] eqn:E.
    destruct (find_attached_frame k w1 c w2 E) as (_&_&En&_).
    destruct c as [c|]; [|by rewrite En].
    destruct (free_cookie_frame c true w2) as (_ & E2 & _). by rewrite E2, En.
  - pose proof (next_do_entry_lock_op env ctx obj FSAL_OP_CANCEL le w1) as Hn.
    destruct (do_entry_lock_op _ _ _ _ _ _) as [st w2]. simpl in Hn.
    case_decide; [done|]. by rewrite next_remove.
Qed.

(** Evolutions that end in taking the entry off its list. *)
Lemma evolves_then_remove x T f le w w1 :
  (forall j, x j <= 3) -> Transitive T -> (forall s, T s s) ->
  evolves env x (fun j => j = le) T w w1 -> on_file f w1 le -> bounded w1 ->
  evolves env x (fun j => j = le) T w (remove_from_locklist env le w1).
Proof.
  intros Hx HT HTr Hev Hin Hbd. eapply evolves_trans; [done| |exact Hev|].
  - apply Hev.
  - by apply (remove_evolves env x T f); [|apply Hev|..].
Qed.

Lemma cancel_blocked_evolves x ctx obj f le w :
  (forall j, x j <= 3) -> wf_with env x w -> on_file f w le ->
  bounded (cancel_blocked_lock env ctx obj le w) ->
  evolves env x (fun j => j = le) may_cancel w (cancel_blocked_lock env ctx obj le w).
Proof.
  intros Hx Hwf Hin. unfold cancel_blocked_lock. set (w1 := on_entry _ le w).
  assert (evolves env x (fun j => j = le) may_cancel w w1) as V1
    by (apply status_evolves; [done|by right]).
  assert (on_file f w1 le) as Hin1 by done.
  assert (forall s, may_cancel s s) as HTr by (by left).
  destruct (attached_cookie w1 le) as [k|].
  - destruct (find_attached k w1) as [c w2] eqn:E.
    destruct (find_attached_quiet x k w1 c w2 (ev_wf _ _ _ _ _ _ V1) E) as [Q2 En].
    intros Hbd. unfold bounded in Hbd. rewrite next_remove in Hbd.
    destruct c as [c|].
    + destruct (free_cookie_frame c true w2) as (El & E2 & _).
      assert (bounded w2) as Hbd2 by (unfold bounded; by rewrite E2 in Hbd).
      pose proof (free_cookie_quiet env x w2 c true Hx (ev_wf _ _ _ _ _ _ Q2) Hbd2) as Q3.
      apply (evolves_then_remove x may_cancel f); try done; try apply _.
      * eapply evolves_quiet; [eapply evolves_quiet; [exact V1|exact Q2]|exact Q3].
      * apply (ev_keep _ _ _ _ _ _ Q3); [|tauto]. apply (ev_keep _ _ _ _ _ _ Q2); [done|tauto].
    + apply (evolves_then_remove x may_cancel f); try done; try apply _.
      * eapply evolves_quiet; [exact V1|exact Q2].
      * apply (ev_keep _ _ _ _ _ _ Q2); [done|tauto].
  - pose proof (do_entry_lock_op_quiet env x ctx obj FSAL_OP_CANCEL le w1 Hx
                  (ev_wf _ _ _ _ _ _ V1)) as Q2.
    destruct (do_entry_lock_op _ _ _ _ _ _) as [st w2]. simpl in Q2. case_decide; intros Hbd.
    + eapply evolves_quiet; [exact V1|auto].
    + unfold bounded in Hbd. rewrite next_remove in Hbd. specialize (Q2 Hbd).
      apply (evolves_then_remove x may_cancel f); try done; try apply _.
      * eapply evolves_quiet; [exact V1|exact Q2].
      * apply (ev_keep _ _ _ _ _ _ Q2); [done|tauto].
Qed.

(** The entries [cancel_blocked_locks_range] works on. *)
Definition cancel_body ctx obj owner sa st lock (id : nat) w : sal F :=
  match s_entries w !! id with
  | Some e => if cancel_applies env owner sa st lock e
              then cancel_blocked_lock env ctx obj id w else w
  | None => w
  end.

Lemma cancel_applies_like owner sa st lock e e' :
  like e e' -> cancel_applies env owner sa st lock e' = cancel_applies env owner sa st lock e.
Proof.
  intros [(E1&_&_&E4&_&E6&E7) E]. unfold cancel_applies.
  by rewrite E1, E4, E, E6, (lock_end_same _ _ E6 E7).
Qed.

Lemma next_cancel_body ctx obj owner sa st lock id w :
  (s_next w <= s_next (cancel_body ctx obj owner sa st lock id w))%nat.
Proof.
  unfold cancel_body. destruct (s_entries w !! id); [|done].
  case_match; [apply next_cancel_blocked|done].
Qed.

Lemma next_cancel_range ctx obj owner sa st lock w :
  (s_next w <= s_next (cancel_blocked_locks_range env ctx obj owner sa st lock w))%nat.
Proof. apply (next_fold (cancel_body ctx obj owner sa st lock)). apply next_cancel_body. Qed.

Lemma cancel_range_evolves x ctx obj owner sa st lock w :
  (forall j, x j <= 3) -> wf_with env x w ->
  bounded (cancel_blocked_locks_range env ctx obj owner sa st lock w) ->
  evolves env x (selected obj (cancel_applies env owner sa st lock) w) may_cancel w
    (cancel_blocked_locks_range env ctx obj owner sa st lock w).
Proof.
  intros Hx Hwf Hbd.
  apply (fold_evolves env x obj may_cancel (cancel_body ctx obj owner sa st lock)
           (cancel_applies env owner sa st lock)); try done.
  - by left.
  - apply _.
  - intros e e'. apply cancel_applies_like.
  - apply next_cancel_body.
  - intros id w1 Hwf1 Hin1. unfold cancel_body.
    assert (evolves env x (fun j => j = id) may_cancel w1 w1) as Hr
      by (apply evolves_refl; [done|by left]).
    destruct (s_entries w1 !! id) as [e|]; [|done].
    destruct (cancel_applies env owner sa st lock e); [|done].
    by apply (cancel_blocked_evolves x ctx obj obj).
  - intros id w1 e He Hn. unfold cancel_body. by rewrite He, Hn.
Qed.

(** Locks are only lost, so exclusion is kept. *)
Lemma evolves_cancel_excl x (D : nat -> Prop) w w' g :
  (forall id, Decision (D id)) -> wf_with env x w -> evolves env x D may_cancel w w' ->
  excl env w g -> excl env w' g.
Proof.
  intros Hdec Hwf Hev Hex. eapply excl_mono; [done|exact Hex|].
  intros o t b Hh. exists o. split; [done|].
  destruct (evolves_holds env x D may_cancel w w' g o t b Hdec Hwf Hev Hh)
    as [Hh'|(id & e & s & _ & Hin & He & Ho & Ht & Hb & [->| ->] & Hg)]; [done| |done].
  exists id, e. by split_and!.
Qed.

Lemma quiet_excl x w w' g :
  wf_with env x w -> quiet env x w w' -> excl env w g -> excl env w' g.
Proof.
  intros Hwf Hq Hex. eapply excl_mono; [done|exact Hex|].
  intros o t b Hh. exists o. split; [done|].
  destruct (evolves_holds env x (fun _ => False) (fun _ _ => False) w w' g o t b
              (fun _ => right (fun f => f)) Hwf Hq Hh) as [Hh'|(id & e & s & [] & _)]. done.
Qed.

(** ** Completing a grant *)

Lemma next_merge f le w : (s_next w <= s_next (merge_lock_entry env f le w))%nat.
Proof. apply next_merge_loop. Qed.

(** Merging an entry that is on the list, and in force. *)
Lemma merge_listed x f le l w :
  (forall j, x j <= 3) -> wf_with env x w -> on_file f w le -> s_entries w !! le = Some l ->
  granted (sle_blocked l) = true -> bounded (merge_lock_entry env f le w) ->
  wf_with env x (merge_lock_entry env f le w) /\
  on_file f (merge_lock_entry env f le w) le /\
  forall g, excl env w g -> excl env (merge_lock_entry env f le w) g.
Proof.
  intros Hx Hwf Hin Hl Hg Hbd.
  destruct (on_file_entry env x w f le Hwf Hin) as (l' & ol & Hl' & Hol & _).
  rewrite Hl in Hl'. injection Hl' as <-.
  assert (bounded w) as Hbd0 by (eapply bounded_mono; [apply next_merge|exact Hbd]).
  assert (merging env le x ol (lock_type (sle_lock l)) (sle_blocked l) (sle_lock l) w) as Hm.
  { split; try done. exists l. by split_and!. }
  destruct (merge_lock_entry_spec env Hsame f le x _ _ _ _ w Hm Hbd) as (k' & Hmd & _).
  set (w' := merge_lock_entry env f le w) in *.
  pose proof (m_wf _ _ _ _ _ _ _ _ (md_merging _ _ _ _ _ _ _ _ _ _ _ Hmd)) as Hwf'.
  split_and!; [done|by apply (md_entry_on_file _ _ _ _ _ _ _ _ _ _ _ Hmd)|].
  intros g Hex. eapply excl_mono; [done|exact Hex|]. intros o t b Hh.
  destruct (decide (g = f)) as [->|Hne].
  - destruct (md_sound _ _ _ _ _ _ _ _ _ _ _ Hmd granted eq_refl Hg o t b) as (o' & E & Hh').
    + destruct Hh as (id & e & Hid & Hr). exists id, e. split; [by left|done].
    + exists o'. split; [done|]. destruct Hh' as (id & e & [Hid| ->] & Hr); by exists id, e || exists le, e.
  - exists o. split; [done|]. destruct Hh as (id & e & Hid & He & Hr).
    unfold on_file in Hid. rewrite (md_lists _ _ _ _ _ _ _ _ _ _ _ Hmd) in Hid by congruence.
    destruct (wf_lists env x w Hwf) as (_ & _ & Hd).
    exists id, e. split; [done|]. split; [|done]. rewrite <- He. symmetry.
    apply (md_entries _ _ _ _ _ _ _ _ _ _ _ Hmd).
    + intros Hid'. pose proof (Hd _ _ _ Hid Hid'). congruence.
    + intros ->. pose proof (Hd _ _ _ Hid Hin). congruence.
    + by eapply listed_lt.
Qed.

(** Marking an entry in force as granted, merging it and granting what the
    merge may have unblocked. *)
Lemma finish_grant x ctx f le l w :
  (forall j, x j <= 3) -> wf_with env x w -> on_file f w le -> s_entries w !! le = Some l ->
  granted (sle_blocked l) = true ->
  let w' := grant_blocked_locks env ctx f
              (merge_lock_entry env f le
                 (on_entry (set_sle_blocked STATE_NON_BLOCKING) le w)) in
  bounded w' -> wf_with env x w' /\ forall g, excl env w g -> excl env w' g.
Proof.
  intros Hx Hwf Hin Hl Hg w' Hbd. unfold w' in *.
  set (w1 := on_entry _ le w) in *.
  assert (evolves env x (fun j => j = le) (fun _ s => s = STATE_NON_BLOCKING) w w1) as V1
    by (by apply status_evolves).
  assert (s_entries w1 !! le = Some (set_sle_blocked STATE_NON_BLOCKING l)) as Hl1
    by (simpl; by rewrite lookup_alter_eq, Hl).
  assert (bounded (merge_lock_entry env f le w1)) as Hbd2
    by (eapply bounded_mono; [apply next_grant_blocked|exact Hbd]).
  destruct (merge_listed x f le _ w1 Hx (ev_wf _ _ _ _ _ _ V1) Hin Hl1 eq_refl Hbd2)
    as (Hwf2 & _ & Hex2).
  destruct (grant_blocked_evolves env Hsame x ctx f _ Hx Hwf2 Hbd) as (V3 & Hex3).
  split; [apply V3|]. intros g Hex. apply Hex3, Hex2.
  eapply excl_mono; [done|exact Hex|]. intros o t b Hh. exists o. split; [done|].
  destruct (evolves_holds env x (fun j => j = le) _ w w1 g o t b (fun j => _) Hwf V1 Hh)
    as [Hh'|(id & e & s & -> & Hin' & He & Ho & Ht & Hb & _ & _)]; [done|].
  exists le, e. rewrite Hl in He. injection He as <-. by split_and!.
Qed.

(** Freeing the block data of an entry. *)
Lemma drop_block_quiet x le b w l :
  wf_with env x w -> s_entries w !! le = Some l -> sle_block_data l = Some b ->
  quiet env x w (on_entry (set_sle_block_data None) le (upd_blocks (delete b) w)).
Proof.
  intros Hwf Hl Hb. apply quiet_of_lists; try done.
  - destruct Hwf as [? ? ? ? ? ? ? ? (R1&R2&R3&R4) Hbk].
    assert (same_lock l (set_sle_block_data None l)) as Hs by (by split_and!).
    constructor; simpl; rewrite ?(alter_is_insert _ _ _ _ Hl); try done.
    + eapply lists_ok_entries; [done|]. intros h id e _ He Ho.
      destruct (decide (id = le)) as [->|].
      * rewrite lookup_insert_eq. rewrite Hl in He. injection He as <-. eauto.
      * rewrite lookup_insert_ne by done. eauto.
    + by eapply tracks_update.
    + by eapply tracks_update.
    + by eapply tracks_update.
    + by eapply tracks_update.
    + intros id. rewrite (insert_is_Some _ le l) by done. auto.
    + intros id e [[-> ->]|[_ ?]]%insert_case; simpl; eauto.
    + split_and!; try done.
      * intros id e [[-> ->]|[_ ?]]%insert_case; simpl; eauto. by apply (R1 le l).
      * intros c ce Hc. rewrite (insert_is_Some _ le l) by done. eauto.
      * intros id Hid. rewrite (insert_is_Some _ le l) by done. eauto.
    + intros id e b' [[-> ->]|[Hne He]]%insert_case Hb'; [done|].
      destruct (Hbk id e b' He Hb') as (bl & Hbl & Hle).
      exists bl. split; [|done]. rewrite lookup_delete_ne; [done|].
      intros ->. destruct (Hbk le l b' Hl Hb) as (bl' & Hbl' & Hle'). congruence.
  - intros id e e' He. simpl. destruct (decide (id = le)) as [->|].
    + rewrite lookup_alter_eq, He. by intros [= <-].
    + rewrite lookup_alter_ne, He by done. by intros [= <-].
Qed.

Lemma grant_immediate_ok x ctx f le l w :
  (forall j, x j <= 3) -> wf_with env x w -> on_file f w le -> s_entries w !! le = Some l ->
  granted (sle_blocked l) = true -> bounded (grant_blocked_lock_immediate env ctx f le w) ->
  wf_with env x (grant_blocked_lock_immediate env ctx f le w) /\
  forall g, excl env w g -> excl env (grant_blocked_lock_immediate env ctx f le w) g.
Proof.
  intros Hx Hwf Hin Hl Hg. unfold grant_blocked_lock_immediate.
  assert (forall w1, quiet env x w w1 ->
    let w' := grant_blocked_locks env ctx f
                (merge_lock_entry env f le
                   (on_entry (set_sle_blocked STATE_NON_BLOCKING) le w1)) in
    bounded w' -> wf_with env x w' /\ forall g, excl env w g -> excl env w' g) as Hfin.
  { intros w1 Q w' Hbd. destruct (ev_like _ _ _ _ _ _ Q f le l Hin Hl) as (l1 & Hl1 & _ & Hb1);
      [tauto|].
    destruct (finish_grant x ctx f le l1 w1 Hx (ev_wf _ _ _ _ _ _ Q)) as (H1 & H2); try done.
    - apply (ev_keep _ _ _ _ _ _ Q); [done|tauto].
    - by rewrite Hb1.
    - split; [done|]. intros g Hex. by apply H2, (quiet_excl x w). }
  destruct (entry_block w le) as [b|] eqn:Eb.
  - destruct (attached_cookie w le) as [k|].
    + destruct (find_attached k w) as [c w1] eqn:E.
      destruct (find_attached_quiet x k w c w1 Hwf E) as [Q1 En].
      destruct c as [c|].
      * intros Hbd. apply Hfin; [|done]. eapply quiet_trans; [exact Q1|].
        apply free_cookie_quiet; [done|apply Q1|].
        eapply bounded_mono; [|exact Hbd].
        etrans; [|apply next_grant_blocked]. etrans; [|apply next_merge]. simpl.
        destruct (free_cookie_frame c true w1) as (_ & E2 & _). by rewrite E2.
      * intros Hbd. split; [apply Q1|]. intros g. by apply (quiet_excl x).
    + intros Hbd. apply Hfin; [|done]. unfold entry_block in Eb. rewrite Hl in Eb.
      by apply (drop_block_quiet x le b w l).
  - intros Hbd. apply Hfin; [|done]. by apply quiet_refl.
Qed.
End cancel.
