(* ===== verification/LockInv.v ===== *)
(** * The invariants of the lock manager

    The operations of SAL/state_lock.c as steps of a transition system, and
    what holds in every state they can reach: the state is well formed, so
    that nothing on a list has been freed, and no two owners hold
    conflicting locks. *)
From S2P Require Import Prelude Status Owners Fsal LockData LockList LockOps.
From S2P Require Import LockWf LockSem LockMerge LockSubtract LockFsalOps LockGrant LockExcl.
From S2P Require Import LockCancel.

Section inv.
Context `{FsalOps F} (env : sal_env) (Hsame : Equivalence (same_owner (env_owners env))).
Implicit Types (w : sal F) (x : nat -> Z).

#[local] Infix "≈" := (same_owner (env_owners env)) (at level 70).

(** What an operation keeps. *)
Definition keeps x w w' : Prop :=
  wf_with env x w' /\ forall g, excl env w g -> excl env w' g.

(** The same, with exclusion kept only under the condition [P]. *)
Definition keeps_when (P : Prop) x w w' : Prop :=
  wf_with env x w' /\ (P -> forall g, excl env w g -> excl env w' g).

Lemma keeps_always P x w w' : keeps x w w' -> keeps_when P x w w'.
Proof. intros [A1 A2]. by split. Qed.

Lemma keeps_when_l P x w1 w2 w3 : keeps x w1 w2 -> keeps_when P x w2 w3 -> keeps_when P x w1 w3.
Proof. intros [A1 A2] [B1 B2]. split; auto. Qed.

Lemma keeps_when_r P x w1 w2 w3 : keeps_when P x w1 w2 -> keeps x w2 w3 -> keeps_when P x w1 w3.
Proof. intros [A1 A2] [B1 B2]. split; auto. Qed.

Lemma keeps_trans x w1 w2 w3 : keeps x w1 w2 -> keeps x w2 w3 -> keeps x w1 w3.
Proof. intros [A1 A2] [B1 B2]. split; auto. Qed.

Lemma keeps_quiet x w w' : wf_with env x w -> quiet env x w w' -> keeps x w w'.
Proof. intros Hwf Q. split; [apply Q|]. intros g. by apply (quiet_excl env Hsame x). Qed.

Lemma keeps_refl x w : wf_with env x w -> keeps x w w.
Proof. by split. Qed.

Lemma keeps_remove x f le w :
  (forall j, x j <= 3) -> wf_with env x w -> bounded w -> on_file f w le ->
  keeps x w (remove_from_locklist env le w).
Proof.
  intros Hx Hwf Hbd Hin.
  pose proof (remove_evolves env x may_cancel f le w Hx Hwf Hbd Hin) as Hev.
  split; [apply Hev|]. intros g.
  by apply (evolves_cancel_excl env Hsame x (fun j => j = le) w _ g (fun j => _) Hwf Hev).
Qed.

Lemma keeps_grant_blocked x ctx f w :
  (forall j, x j <= 3) -> wf_with env x w -> bounded (grant_blocked_locks env ctx f w) ->
  keeps x w (grant_blocked_locks env ctx f w).
Proof.
  intros Hx Hwf Hbd. destruct (grant_blocked_evolves env Hsame x ctx f w Hx Hwf Hbd) as [V E].
  split; [apply V|done].
Qed.

Lemma keeps_free_cookie x c u w :
  (forall j, x j <= 3) -> wf_with env x w -> bounded (free_cookie c u w) ->
  keeps x w (free_cookie c u w).
Proof.
  intros Hx Hwf Hbd. apply keeps_quiet; [done|]. apply free_cookie_quiet; try done.
  destruct (free_cookie_frame c u w) as (_ & E & _). unfold bounded in *. by rewrite E in Hbd.
Qed.

Lemma keeps_do_lock_op x ctx obj st op owner lock wanted overlap w :
  (forall j, x j <= 3) -> wf_with env x w -> lock_ok lock ->
  bounded (do_lock_op env ctx obj st op owner lock wanted overlap w).2 ->
  keeps x w (do_lock_op env ctx obj st op owner lock wanted overlap w).2.
Proof.
  intros Hx Hwf Hok Hbd. apply keeps_quiet; [done|]. apply files_same_quiet; [done|].
  by apply do_lock_op_same.
Qed.

(** ** Completing and releasing grants *)

(** A cookie that is held refers to an entry of its file. *)
Definition cookie_listed w (c : nat) : Prop :=
  forall ce, s_cookies w !! c = Some ce ->
    (sle_blocked <$> s_entries w !! sce_lock_entry ce) = Some STATE_GRANTING ->
    on_file (sce_obj ce) w (sce_lock_entry ce).

Lemma complete_grant_keeps x ctx c w :
  (forall j, x j <= 3) -> wf_with env x w -> cookie_listed w c ->
  bounded (state_complete_grant env ctx c w) -> keeps x w (state_complete_grant env ctx c w).
Proof.
  intros Hx Hwf Hcl. unfold state_complete_grant.
  destruct (s_cookies w !! c) as [ce|] eqn:Ec; [|by intros; apply keeps_refl].
  set (w1 := if decide _ then _ else w).
  enough (bounded w1 -> keeps x w w1) as Hk.
  { intros Hbd. destruct (free_cookie_frame c true w1) as (_ & E & _).
    assert (bounded w1) as Hbd1 by (unfold bounded in *; by rewrite E in Hbd).
    specialize (Hk Hbd1). eapply keeps_trans; [exact Hk|].
    apply keeps_free_cookie; try done. apply Hk. }
  subst w1. case_decide as Hg; [|by intros; apply keeps_refl]. intros Hbd.
  destruct (s_entries w !! sce_lock_entry ce) as [l|] eqn:Hl; [|done].
  specialize (Hcl ce Ec). rewrite Hl in Hcl. specialize (Hcl Hg). simpl in Hg.
  apply (finish_grant env Hsame x ctx (sce_obj ce) (sce_lock_entry ce) l w); try done.
  injection Hg as ->. done.
Qed.

Lemma next_complete_grant ctx c w :
  (s_next w <= s_next (state_complete_grant env ctx c w))%nat.
Proof.
  unfold state_complete_grant. destruct (s_cookies w !! c) as [ce|]; [|done].
  set (w1 := if decide _ then _ else w).
  destruct (free_cookie_frame c true w1) as (_ & E & _). rewrite E. subst w1.
  case_decide; [|done]. etrans; [|apply next_grant_blocked]. etrans; [|apply next_merge]. done.
Qed.

Lemma put_obj_core obj w : same_core w (put_obj_if_empty obj w).
Proof. unfold put_obj_if_empty. case_match; by split_and!. Qed.

Lemma release_grant_keeps x ctx c w :
  (forall j, x j <= 3) -> wf_with env x w -> cookie_listed w c ->
  bounded (state_release_grant env ctx c w).2 -> keeps x w (state_release_grant env ctx c w).2.
Proof.
  intros Hx Hwf Hcl. unfold state_release_grant.
  destruct (s_cookies w !! c) as [ce|] eqn:Ec; [|by intros; apply keeps_refl].
  match goal with |- context [let '(_, _) := ?p in _] =>
    enough (bounded p.2 -> keeps x w p.2) as Hk; [destruct p as [status w1]|] end.
  - simpl in *. set (w2 := free_cookie c true w1). set (w3 := grant_blocked_locks env ctx _ w2).
    assert (s_next w2 = s_next w1) as E2 by (apply free_cookie_frame).
    destruct (put_obj_core (sce_obj ce) w3) as (P1&P2&P3&P4&P5&P6&P7&P8&P9&P10).
    intros Hbd. unfold bounded in Hbd. rewrite P3 in Hbd.
    assert (bounded w2) as Hbd2 by (eapply bounded_mono; [apply next_grant_blocked|exact Hbd]).
    assert (bounded w1) as Hbd1 by (unfold bounded in *; by rewrite <- E2).
    pose proof (Hk Hbd1) as K1.
    pose proof (keeps_free_cookie x c true w1 Hx (proj1 K1) Hbd2) as K2.
    pose proof (keeps_grant_blocked x ctx (sce_obj ce) w2 Hx (proj1 K2) Hbd) as K3.
    eapply keeps_trans; [exact K1|]. eapply keeps_trans; [exact K2|].
    eapply keeps_trans; [exact K3|]. apply keeps_quiet; [apply K3|].
    apply quiet_core; [apply K3|by split_and!].
  - case_decide as Hg; [|by intros; apply keeps_refl].
    specialize (Hcl ce Ec Hg).
    set (w1 := on_entry _ _ w).
    assert (evolves env x (fun j => j = sce_lock_entry ce) may_cancel w w1) as V1
      by (apply status_evolves; [done|by right]).
    assert (keeps x w w1) as K1.
    { split; [apply V1|]. intros g.
      by apply (evolves_cancel_excl env Hsame x _ w w1 g (fun j => _) Hwf V1). }
    pose proof (do_entry_lock_op_quiet env x ctx (sce_obj ce) FSAL_OP_UNLOCK (sce_lock_entry ce)
                  w1 Hx (proj1 K1)) as Q2.
    destruct (do_entry_lock_op _ _ _ _ _ _) as [status w2]. simpl in Q2.
    case_decide; simpl; intros Hbd.
    + eapply keeps_trans; [exact K1|]. apply keeps_quiet; [apply K1|auto].
    + unfold bounded in Hbd. rewrite next_remove in Hbd. specialize (Q2 Hbd).
      eapply keeps_trans; [exact K1|]. eapply keeps_trans; [apply keeps_quiet; [apply K1|exact Q2]|].
      apply (keeps_remove x (sce_obj ce)); try done; [apply Q2|].
      apply (ev_keep _ _ _ _ _ _ Q2); [done|tauto].
Qed.

(** ** Upcalls *)

(** The entry a scheduled retry is about is still on its file's list. *)
Definition upcall_live w (b : nat) : Prop :=
  forall le, (s_blocks w !! b ≫= sbd_lock_entry) = Some le ->
    exists e, s_entries w !! le = Some e /\ on_file (sle_obj e) w le.

Lemma upcall_wf b w :
  wf env w -> upcall_live w b -> bounded (process_blocked_lock_upcall env b w) ->
  wf env (process_blocked_lock_upcall env b w).
Proof.
  intros Hwf Hr. unfold process_blocked_lock_upcall.
  destruct (s_blocks w !! b ≫= sbd_lock_entry) as [le|] eqn:Eb; [|done].
  destruct (Hr le Eb) as (e & He & Hin).
  set (w1 := lock_entry_inc_ref le w). set (w2 := try_to_grant_lock env le w1).
  destruct (dec_ref_frame le w2) as (_ & _ & E3 & _). intros Hbd.
  assert (bounded w2) as Hbd2 by (unfold bounded in *; by rewrite E3 in Hbd).
  assert (bounded w) as Hbd0
    by (eapply bounded_mono; [|exact Hbd2]; apply (next_try_grant env le w1)).
  set (x1 := add_at (fun _ => 0) le 1).
  assert (forall j, x1 j <= 3) as Hx1 by (intros j; unfold x1, add_at; case_decide; lia).
  assert (wf_with env x1 w1) as Hwf1 by (by apply (wf_inc_ref env _ w le e)).
  pose proof (try_grant_evolves env x1 (sle_obj e) le w1 Hx1 Hwf1 Hin Hbd2) as V2.
  assert (is_Some (s_entries w2 !! le)) as [e2 He2].
  { destruct (wf_refs env x1 w2 (ev_wf _ _ _ _ _ _ V2)) as (_ & _ & _ & R4). apply R4.
    unfold x1. rewrite add_at_eq. lia. }
  eapply wf_ext; [apply (add_at_cancel (fun _ => 0) le 1)|].
  apply (wf_dec_ref env _ _ le e2); try done; [apply V2|]. rewrite add_at_eq. lia.
Qed.

(** Scheduling a retry changes a reason and the queue. *)
Lemma schedule_keeps x gt b w : wf_with env x w -> keeps x w (schedule_blocked gt b w).
Proof.
  intros Hwf. apply keeps_quiet; [done|]. unfold schedule_blocked, state_block_schedule, submit.
  set (w1 := on_block _ b w).
  assert (quiet env x w w1) as Q.
  { apply quiet_same_entries; try done. pose proof Hwf as [W1 W2 W3 W4 W5 W6 W7 W8 W9 W10].
    split; try done. intros id e b' He Eb. destruct (W10 id e b' He Eb) as (bl & Hbl & Hl).
    simpl. destruct (decide (b' = b)) as [->|].
    - rewrite lookup_alter_eq, Hbl. by eexists.
    - rewrite lookup_alter_ne by done. eauto. }
  destruct (with_fsal_frame fridgethr_submit w1) as (rc & f & ->).
  eapply quiet_trans; [exact Q|].
  destruct (rc =? 0); (apply quiet_same_entries; try done; by eapply wf_same; [..|apply Q]).
Qed.

Lemma polling_keeps x w : wf_with env x w -> keeps x w (blocked_lock_polling w).
Proof.
  unfold blocked_lock_polling. generalize (s_blocked w). intros l. revert w.
  induction l as [|b l IH]; intros w Hwf; simpl; [by apply keeps_refl|].
  match goal with |- keeps _ _ (foldl _ ?w1 _) => assert (keeps x w w1) as K end.
  { repeat case_match; try (by apply keeps_refl). by apply schedule_keeps. }
  eapply keeps_trans; [exact K|]. apply IH, K.
Qed.

Lemma fsal_upcall_keeps x obj owner lock gt w w' :
  wf_with env x w -> find_blocked_lock_upcall obj owner lock gt w = Some w' -> keeps x w w'.
Proof.
  intros Hwf. unfold find_blocked_lock_upcall. case_match; [done|]. intros [= <-].
  by apply schedule_keeps.
Qed.

(** ** [state_cancel] and [state_unlock] *)

Lemma cancel_keeps x ctx obj owner lock w :
  (forall j, x j <= 3) -> wf_with env x w ->
  bounded (state_cancel env ctx obj owner lock w).2 ->
  keeps x w (state_cancel env ctx obj owner lock w).2.
Proof.
  intros Hx Hwf. unfold state_cancel. case_decide; [by intros; apply keeps_refl|].
  destruct (find_entry _ _ w) as [id|] eqn:Ef; [|by intros; apply keeps_refl].
  apply find_entry_Some in Ef as [Hin _]. simpl. intros Hbd.
  assert (bounded (cancel_blocked_lock env ctx obj id w)) as Hbd1
    by (eapply bounded_mono; [apply next_grant_blocked|exact Hbd]).
  pose proof (cancel_blocked_evolves env x ctx obj obj id w Hx Hwf Hin Hbd1) as V1.
  eapply keeps_trans; [|apply keeps_grant_blocked; [done|apply V1|done]].
  split; [apply V1|]. intros g.
  by apply (evolves_cancel_excl env Hsame x _ w _ g (fun j => _) Hwf V1).
Qed.

Lemma subtract_keeps x owner sa st lock obj w w' :
  wf_with env x w -> subtracted env x owner sa st lock (lock_list obj) w w' -> keeps x w w'.
Proof.
  intros Hwf Hsb. pose proof Hsb as [S1 S2 S3 S4 S5 S6 S7 S8 S9]. split; [done|].
  intros g Hex. eapply excl_mono; [done|exact Hex|]. intros o t b Hh. exists o. split; [done|].
  destruct (decide (g = obj)) as [->|Hne].
  - apply S9 in Hh as (id & e & Hid & He & Hg & Ho & Ht & Hb & _). exists id, e. by split_and!.
  - destruct Hh as (id & e & Hid & He & Hr). unfold on_file in Hid.
    rewrite S5 in Hid by congruence. exists id, e. split; [done|]. split; [|done].
    rewrite <- He. symmetry. apply S6; [by eapply listed_lt|].
    intros Hid'. destruct (wf_lists env x w Hwf) as (_ & _ & Hd).
    pose proof (Hd _ _ _ Hid Hid'). congruence.
Qed.

Lemma next_state_unlock_tail ctx obj st owner lock w :
  (s_next w <= s_next (grant_blocked_locks env ctx obj
     (do_lock_op env ctx obj st FSAL_OP_UNLOCK owner lock false false w).2))%nat.
Proof. etrans; [apply next_do_lock_op|apply next_grant_blocked]. Qed.

Lemma unlock_keeps x ctx obj state owner sa st lock w :
  (forall j, x j <= 3) -> wf_with env x w -> lock_ok lock ->
  bounded (state_unlock env ctx obj state owner sa st lock w).2 ->
  keeps x w (state_unlock env ctx obj state owner sa st lock w).2.
Proof.
  intros Hx Hwf Hok. unfold state_unlock. case_decide; [by intros; apply keeps_refl|].
  destruct (glist_empty _ _); [by intros; apply keeps_refl|].
  set (w1 := cancel_blocked_locks_range env ctx obj owner sa st lock w).
  destruct (subtract_lock_from_list env owner sa st lock (lock_list obj) w1)
    as [[status rm] w2] eqn:E2.
  set (w3 := put_obj_if_empty obj w2).
  assert (s_next w3 = s_next w2) as En3 by apply put_obj_core.
  assert (s_next w1 <= s_next w2)%nat as En2.
  { pose proof (next_subtract_list env owner sa st lock (lock_list obj) w1) as Hn.
    by rewrite E2 in Hn. }
  assert (bounded w2 -> status = STATE_SUCCESS /\ keeps x w w3) as K3.
  { intros Hbd2.
    assert (bounded w1) as Hbd1 by (by eapply bounded_mono).
    pose proof (cancel_range_evolves env x ctx obj owner sa st lock w Hx Hwf Hbd1) as V1.
    assert (keeps x w w1) as K1.
    { split; [apply V1|]. intros g.
      apply (evolves_cancel_excl env Hsame x _ w w1 g (fun j => _) Hwf V1). }
    destruct (subtract_list_spec env x Hx owner sa st lock (lock_list obj) Hok
                ltac:(done) ltac:(done) w1 (proj1 K1)) as (rm' & w2' & E2' & Hsb).
    { by rewrite E2. }
    rewrite E2 in E2'. injection E2' as -> <- <-. split; [done|].
    eapply keeps_trans; [exact K1|].
    pose proof (subtract_keeps x owner sa st lock obj w1 w2 (proj1 K1) Hsb) as K2.
    eapply keeps_trans; [exact K2|]. apply keeps_quiet; [apply K2|].
    apply quiet_core; [apply K2|apply put_obj_core]. }
  case_decide as Hs; simpl.
  { intros Hbd. unfold bounded in Hbd. rewrite En3 in Hbd. by destruct (K3 Hbd). }
  pose proof (keeps_do_lock_op x ctx obj state FSAL_OP_UNLOCK owner lock false false w3 Hx) as K4.
  pose proof (next_state_unlock_tail ctx obj state owner lock w3) as Hn4.
  pose proof (next_do_lock_op env ctx obj state FSAL_OP_UNLOCK owner lock false false w3) as Hn5.
  destruct (do_lock_op _ _ _ _ _ _ _ _ _ w3) as [[st4 out] w4]. simpl in *. intros Hbd.
  assert (bounded w4) as Hbd4 by (eapply bounded_mono; [apply next_grant_blocked|exact Hbd]).
  assert (bounded w2) as Hbd2 by (unfold bounded in *; lia).
  destruct (K3 Hbd2) as [_ K]. eapply keeps_trans; [exact K|].
  specialize (K4 (proj1 K) Hok Hbd4). eapply keeps_trans; [exact K4|].
  apply keeps_grant_blocked; try done. apply K4.
Qed.

(** ** [state_test] *)

Lemma fsal_open_quiet x ctx obj flags w :
  wf_with env x w -> quiet env x w (sal_fsal_open ctx obj flags w).2.
Proof.
  intros Hwf. unfold sal_fsal_open. destruct (fsal_open ctx obj flags (s_fsal w)) as [st f].
  apply quiet_same_entries; try done. by eapply wf_same; [..|exact Hwf].
Qed.

Lemma copy_conflict_core id w : same_core w (copy_conflict id w).2.
Proof.
  unfold copy_conflict. destruct (s_entries w !! id) as [e|]; [destruct (sle_owner e)|];
    by split_and!.
Qed.

Lemma test_keeps x ctx obj state owner lock w :
  (forall j, x j <= 3) -> wf_with env x w -> lock_ok lock ->
  bounded (state_test env ctx obj state owner lock w).2 ->
  keeps x w (state_test env ctx obj state owner lock w).2.
Proof.
  intros Hx Hwf Hok. unfold state_test.
  match goal with |- context [let '(_, _) := ?p in _] =>
    assert (quiet env x w p.2) as Q; [|destruct p as [fs w1]] end.
  { destruct (_ && _); [by apply fsal_open_quiet|by apply quiet_refl]. }
  simpl in Q. pose proof (keeps_quiet x w w1 Hwf Q) as K1.
  destruct (FSAL_IS_ERROR fs); [by intros; apply K1|].
  destruct (get_overlapping_entry env obj owner lock w1) as [id|].
  - pose proof (copy_conflict_core id w1) as Hc.
    destruct (copy_conflict id w1) as [out w2]. simpl in *. intros _.
    eapply keeps_trans; [exact K1|]. apply keeps_quiet; [apply K1|].
    apply quiet_core; [apply K1|done].
  - intros Hbd. eapply keeps_trans; [exact K1|]. apply keeps_do_lock_op; try done. apply K1.
Qed.

(** ** [state_lock] *)

(** Anything but an unlock only changes the FSAL and the ledger. *)
Definition but_fsal w w' : Prop :=
  s_entries w' = s_entries w /\ s_cookies w' = s_cookies w /\ s_next w' = s_next w /\
  s_lists w' = s_lists w /\ s_owner_locks w' = s_owner_locks w /\
  s_client_locks w' = s_client_locks w /\ s_export_locks w' = s_export_locks w /\
  s_state_locks w' = s_state_locks w /\ s_blocks w' = s_blocks w.

Lemma do_lock_op_but_fsal ctx obj st op owner lock wanted overlap w :
  op <> FSAL_OP_UNLOCK ->
  but_fsal w (do_lock_op env ctx obj st op owner lock wanted overlap w).2 /\
  (op <> FSAL_OP_LOCKB ->
   (do_lock_op env ctx obj st op owner lock wanted overlap w).1.1 <> STATE_LOCK_BLOCKED).
Proof.
  intros Hop. unfold do_lock_op. destruct (negb _ || _ || _); [by split|].
  rewrite (bool_decide_eq_true_2 (op <> FSAL_OP_UNLOCK) Hop), orb_true_r.
  set (fop := if _ && _ then FSAL_OP_LOCK else op).
  match goal with |- context [let '(_, _) := (if negb (support_ex obj) then ?a else ?b) in _] =>
    assert (exists fs cl f, (if negb (support_ex obj) then a else b) =
      ((fs, cl), upd_fsal (fun st => mk_fsal_state f (open_fd_count st)) w)) as (fs & cl & f & ->)
  end.
  { destruct (negb (support_ex obj));
      match goal with |- context [with_fsal ?o w] =>
        destruct (with_fsal_frame o w) as ([fs cl] & f & ->) end; by exists fs, cl, f. }
  set (status := if _ && _ then STATE_FSAL_ERROR else _).
  split.
  - destruct (bool_decide (status = STATE_LOCK_CONFLICT) && wanted); by split_and!.
  - intros Hnb.
    assert (status <> STATE_LOCK_BLOCKED) as Hst.
    { subst status fop. rewrite (bool_decide_eq_false_2 (op = FSAL_OP_LOCKB)) by done. simpl.
      rewrite (bool_decide_eq_true_2 (op <> FSAL_OP_LOCKB)) by done.
      rewrite andb_false_r, andb_true_r.
      destruct (bool_decide_reflect (state_error_convert fs = STATE_LOCK_BLOCKED)); done. }
    destruct (bool_decide (status = STATE_LOCK_CONFLICT) && wanted); done.
Qed.

Lemma but_fsal_wf x w w' : but_fsal w w' -> wf_with env x w -> wf_with env x w'.
Proof. intros (?&?&?&?&?&?&?&?&?). by apply wf_same. Qed.

(** Linking an entry that is on no list, when it conflicts with no lock in
    force or is not in force. *)
Lemma link_keeps x w f le e o :
  wf_with env x w -> on_no_list (s_lists w) le -> s_entries w !! le = Some e ->
  sle_owner e = Some o -> sle_obj e = f ->
  (forall q g o' t b, holds_in q (fun id => on_file g w id \/ (g = f /\ id = le)) w o' t b ->
     held_as q w g o' t b \/ (g = f /\ o' = o /\ q (sle_blocked e) = true /\
                          t = lock_type (sle_lock e) /\ in_range (sle_lock e) b)) /\
  wf_with env x (upd_lists (glist_add_tail (lock_list f) le) w) /\
  (forall q g o' t b, held_as q (upd_lists (glist_add_tail (lock_list f) le) w) g o' t b <->
     holds_in q (fun id => on_file g w id \/ (g = f /\ id = le)) w o' t b).
Proof.
  intros Hwf Hno He Ho Hobj. split_and!.
  - intros q g o' t b (id & e' & [Hin|[-> ->]] & He' & Hr); [left; by exists id, e'|].
    right. rewrite He in He'. injection He' as <-. destruct Hr as (H1&H2&H3&H4).
    split_and!; try done. congruence.
  - apply wf_upd_lists; [done|].
    apply (lists_ok_add_tail _ _ _ _ e); [apply (wf_lists env x w Hwf)|done|done|..].
    + by rewrite Ho.
    + intros f' [= <-]. done.
  - intros q g o' t b. unfold held_as, holds_in, on_file. simpl.
    setoid_rewrite elem_of_glist_add_tail.
    assert (forall id, (lock_list g = lock_list f /\ id = le) <-> (g = f /\ id = le)) as E
      by (intros id; split; intros [E ->]; split; congruence).
    by setoid_rewrite E.
Qed.

(** The scan allowed the request. *)
Lemma scan_allow_spec ctx owner lock ov l w ov' :
  scan_locks env ctx owner lock ov l w = scan_allow ov' ->
  forall id e, id ∈ l -> s_entries w !! id = Some e -> request_conflicts env owner lock e = false.
Proof.
  revert ov. induction l as [|y l IH]; intros ov Hs id e Hin He; [by apply elem_of_nil in Hin|].
  simpl in Hs. apply elem_of_cons in Hin as [->|Hin].
  - rewrite He in Hs. destruct (_ && _); [done|].
    by destruct (request_conflicts env owner lock e).
  - destruct (s_entries w !! y) as [ey|]; [|by eapply IH].
    destruct (_ && _); [done|]. destruct (request_conflicts env owner lock ey); [done|].
    destruct (entirely_overlaps lock ey); [destruct (negb _); [done|]|]; by eapply IH.
Qed.

Lemma request_conflicts_false owner lock e :
  request_conflicts env owner lock e = false -> lock_reclaim lock = false ->
  forall b, in_range (sle_lock e) b -> in_range lock b ->
    different_owners (env_owners env) (sle_owner e) (Some owner) = true ->
    lock_type (sle_lock e) <> FSAL_LOCK_W /\ lock_type lock <> FSAL_LOCK_W.
Proof.
  unfold request_conflicts, in_range. intros Hc Hr b Hb1 Hb2 Hd.
  rewrite Hr, Hd in Hc. simpl in Hc.
  rewrite (proj2 (Z.leb_le _ _)), (proj2 (Z.leb_le _ _)) in Hc by lia. simpl in Hc.
  rewrite andb_true_r in Hc. apply orb_false_iff in Hc as [H1 H2].
  by apply bool_decide_eq_false in H1, H2.
Qed.

(** The block data handed to [state_lock] is allocated and not in use. *)
Definition block_free w (block_data : option nat) : Prop :=
  forall b, block_data = Some b ->
    is_Some (s_blocks w !! b) /\
    forall id e, s_entries w !! id = Some e -> sle_block_data e <> Some b.

(** Marking a fresh entry as blocked, with its block data. *)
Lemma wf_block_entry x w le e blocking block_data bt :
  wf_with env x w -> s_entries w !! le = Some e -> sle_block_data e = None ->
  block_free w block_data ->
  let w1 := on_entry (set_sle_blocked blocking) le
              (on_entry (set_sle_block_data block_data) le w) in
  let w2 := match block_data with
            | Some b => on_block (fun b => set_sbd_block_type bt
                                   (set_sbd_lock_entry (Some le) b)) b w1
            | None => w1
            end in
  wf_with env x w2 /\ s_next w2 = s_next w /\ s_lists w2 = s_lists w /\
  s_entries w2 = <[le := set_sle_blocked blocking (set_sle_block_data block_data e)]> (s_entries w).
Proof.
  intros Hwf He Hnb Hbf w1 w2.
  assert (s_entries w2 = <[le := set_sle_blocked blocking (set_sle_block_data block_data e)]>
            (s_entries w)) as Ee.
  { transitivity (s_entries w1); [by subst w2; destruct block_data|]. simpl.
    rewrite (alter_is_insert _ (s_entries w) le e He).
    erewrite alter_is_insert; [|apply lookup_insert_eq]. by rewrite insert_insert_eq. }
  assert (s_next w2 = s_next w /\ s_lists w2 = s_lists w /\ s_cookies w2 = s_cookies w /\
          s_owner_locks w2 = s_owner_locks w /\ s_client_locks w2 = s_client_locks w /\
          s_export_locks w2 = s_export_locks w /\ s_state_locks w2 = s_state_locks w)
    as (E1&E2&E3&E4&E5&E6&E7) by (subst w2; by destruct block_data).
  split_and!; try done.
  destruct Hwf as [? ? ? ? ? Hnx ? Hrg (R1&R2&R3&R4) Hbk].
  constructor; rewrite ?E1, ?E2, ?E3, ?E4, ?E5, ?E6, ?E7, ?Ee; try done.
  - eapply lists_ok_entries; [done|]. intros h id e' _ He' Ho.
    destruct (decide (id = le)) as [->|].
    + rewrite lookup_insert_eq. rewrite He in He'. injection He' as <-. eauto.
    + rewrite lookup_insert_ne by done. eauto.
  - by eapply tracks_update.
  - by eapply tracks_update.
  - by eapply tracks_update.
  - by eapply tracks_update.
  - intros id. rewrite (insert_is_Some _ le e) by done. auto.
  - intros id e' [[-> ->]|[_ ?]]%insert_case; simpl; eauto.
  - split_and!; try done.
    + intros id e' [[-> ->]|[_ ?]]%insert_case; simpl; eauto. by apply (R1 le e).
    + intros c ce Hc. rewrite (insert_is_Some _ le e) by done. eauto.
    + intros id Hid. rewrite (insert_is_Some _ le e) by done. eauto.
  - intros id e' b [[-> ->]|[Hne He']]%insert_case Hb.
    + simpl in Hb. subst block_data. destruct (Hbf b eq_refl) as [[bl Hbl] _].
      subst w2. simpl. rewrite lookup_alter_eq, Hbl. simpl. by eexists.
    + destruct (Hbk id e' b He' Hb) as (bl & Hbl & Hle).
      subst w2. destruct block_data as [b'|]; simpl; [|by exists bl].
      destruct (Hbf b' eq_refl) as [_ Hun].
      rewrite lookup_alter_ne by (intros ->; by eapply Hun). by exists bl.
Qed.

(** The state after the entry is created and the FSAL was asked. *)
Record placed x w w2 obj (e : state_lock_entry_t) : Prop := {
  pl_wf : wf_with env x w2;
  pl_next : s_next w2 = S (s_next w);
  pl_entries : s_entries w2 = <[s_next w := e]> (s_entries w);
  pl_lists : s_lists w2 = s_lists w;
  pl_blocks : s_blocks w2 = s_blocks w;
  pl_obj : sle_obj e = obj;
  pl_block_data : sle_block_data e = None
}.

Lemma placed_held q x w w2 obj e g o t b :
  wf_with env x w -> placed x w w2 obj e -> held_as q w2 g o t b <-> held_as q w g o t b.
Proof.
  intros Hwf [P1 P2 P3 P4 P5 P6 P7]. unfold held_as, holds_in, on_file. rewrite P4, P3.
  split; intros (id & e' & Hin & He & Hr); exists id, e'; (split; [done|]).
  - rewrite lookup_insert_ne in He; [done|].
    intros E. pose proof (listed_lt env x w (lock_list g) id Hwf Hin). lia.
  - rewrite lookup_insert_ne; [done|].
    intros E. pose proof (listed_lt env x w (lock_list g) id Hwf Hin). lia.
Qed.

Lemma placed_unlisted x w w2 obj e :
  wf_with env x w -> placed x w w2 obj e -> on_no_list (s_lists w2) (s_next w).
Proof. intros Hwf Hp. rewrite (pl_lists _ _ _ _ _ Hp). by apply (wf_fresh_list env x). Qed.

(** The lock is refused: the entry goes away. *)
Lemma place_discard x w w2 obj e o :
  (forall j, x j <= 3) -> wf_with env x w -> placed x w w2 obj e -> sle_owner e = Some o ->
  bounded w2 -> keeps x w (remove_from_locklist env (s_next w) w2).
Proof.
  intros Hx Hwf Hp Ho Hbd. pose proof Hp as [P1 P2 P3 P4 P5 P6 P7].
  assert (s_entries w2 !! s_next w = Some e) as He by (rewrite P3; apply lookup_insert_eq).
  destruct (remove_frame env (s_next w) w2 e o He Ho) as (R1 & R2 & _).
  split; [by eapply wf_remove|].
  intros g Hex. eapply excl_mono; [done|exact Hex|]. intros o' t b Hh. exists o'. split; [done|].
  apply (placed_held granted x w w2 obj e); try done.
  destruct Hh as (id & e' & Hin & He' & Hr). unfold on_file in Hin. rewrite R2 in Hin.
  apply elem_of_glist_del in Hin as [Hne Hin]. exists id, e'. split; [done|].
  by rewrite <- R1.
Qed.

(** The lock is blocked: the entry waits on the list. *)
Lemma place_blocked x w w2 obj e o block_data bt :
  wf_with env x w -> placed x w w2 obj e -> sle_owner e = Some o ->
  block_free w block_data ->
  let wa := on_entry (set_sle_blocked STATE_NLM_BLOCKING) (s_next w)
              (on_entry (set_sle_block_data block_data) (s_next w) w2) in
  let wb := match block_data with
            | Some b => on_block (fun b => set_sbd_block_type bt
                                   (set_sbd_lock_entry (Some (s_next w)) b)) b wa
            | None => wa
            end in
  keeps x w (upd_lists (glist_add_tail (lock_list obj) (s_next w)) wb).
Proof.
  intros Hwf Hp Ho Hbf wa wb. pose proof Hp as [P1 P2 P3 P4 P5 P6 P7].
  assert (s_entries w2 !! s_next w = Some e) as He by (rewrite P3; apply lookup_insert_eq).
  assert (block_free w2 block_data) as Hbf2.
  { intros b Hb. destruct (Hbf b Hb) as [H1 H2]. rewrite P5. split; [done|].
    intros id e'. rewrite P3. intros [[-> ->]|[_ ?]]%insert_case; [by rewrite P7|eauto]. }
  destruct (wf_block_entry x w2 (s_next w) e STATE_NLM_BLOCKING block_data bt P1 He P7 Hbf2)
    as (Hwfb & Enb & Elb & Eeb). fold wa in Hwfb, Enb, Elb, Eeb. fold wb in Hwfb, Enb, Elb, Eeb.
  set (e1 := set_sle_blocked STATE_NLM_BLOCKING (set_sle_block_data block_data e)) in *.
  assert (s_entries wb !! s_next w = Some e1) as He1 by (rewrite Eeb; apply lookup_insert_eq).
  assert (on_no_list (s_lists wb) (s_next w)) as Hno
    by (rewrite Elb; by apply (placed_unlisted x w w2 obj e)).
  destruct (link_keeps x wb obj (s_next w) e1 o Hwfb Hno He1 Ho P6) as (L1 & L2 & L3).
  split; [done|]. intros g Hex. eapply excl_mono; [done|exact Hex|].
  intros o' t b Hh. exists o'. split; [done|]. apply L3, L1 in Hh as [Hh|(_&_&Hg&_)]; [|done].
  apply (placed_held granted x w w2 obj e); try done.
  destruct Hh as (id & e' & Hin & He' & Hr). unfold on_file in Hin. rewrite Elb in Hin.
  exists id, e'. split; [done|]. split; [|done]. rewrite <- He', Eeb.
  rewrite lookup_insert_ne; [done|]. intros <-. by apply (Hno (lock_list g)); rewrite Elb.
Qed.

(** The lock is granted: it is merged into the list.  What is held then is
    what was held, with the lock's own range of its own owner. *)
Record linked x w w4 obj (e : state_lock_entry_t) o : Prop := {
  lk_wf : wf_with env x w4;
  lk_sound : forall q g o' t b, q STATE_NON_BLOCKING = true ->
    held_as q w4 g o' t b -> exists o'', o'' ≈ o' /\
    (held_as q w g o'' t b \/
     (g = obj /\ o'' = o /\ t = lock_type (sle_lock e) /\ in_range (sle_lock e) b));
  lk_complete : forall q o' t b, q STATE_NON_BLOCKING = true ->
    held_as q w obj o' t b -> exists o'', o'' ≈ o' /\
    (held_as q w4 obj o'' t b \/
     (held_as q w4 obj o'' (lock_type (sle_lock e)) b /\ exists o3, o3 ≈ o' /\
        (held_as q w obj o3 (lock_type (sle_lock e)) b \/
         (o3 = o /\ in_range (sle_lock e) b))));
  lk_granted : forall b, in_range (sle_lock e) b ->
    held_as fully w4 obj o (lock_type (sle_lock e)) b;
  lk_cleared : ends_below env obj o w -> lock_end (sle_lock e) < UINT64_MAX ->
    forall o' t b, held_as fully w4 obj o' t b -> o' ≈ o -> in_range (sle_lock e) b ->
      t = lock_type (sle_lock e);
  lk_others : forall q g o' t b, g <> obj -> held_as q w4 g o' t b <-> held_as q w g o' t b
}.

Lemma placed_involved q x w w2 obj e o o' t b :
  wf_with env x w -> placed x w w2 obj e -> sle_owner e = Some o ->
  holds_in q (involved obj (s_next w) w2) w2 o' t b <->
  (held_as q w obj o' t b \/
   (o' = o /\ q (sle_blocked e) = true /\ t = lock_type (sle_lock e) /\ in_range (sle_lock e) b)).
Proof.
  intros Hwf Hp Ho. rewrite <- (placed_held q x w w2 obj e obj o' t b Hwf Hp).
  assert (s_entries w2 !! s_next w = Some e) as He
    by (rewrite (pl_entries _ _ _ _ _ Hp); apply lookup_insert_eq).
  split.
  - intros (id & e' & [Hin| ->] & He' & Hr); [left; by exists id, e'|]. right.
    rewrite He in He'. injection He' as <-. destruct Hr as (H1&H2&H3&H4).
    split_and!; try done. congruence.
  - intros [(id & e' & Hin & Hr)|(-> & Hq & -> & Hr)].
    + exists id, e'. split; [by left|done].
    + exists (s_next w), e. split; [by right|done].
Qed.

Lemma merge_link x w w2 obj e o :
  (forall j, x j <= 3) -> wf_with env x w -> placed x w w2 obj e -> sle_owner e = Some o ->
  sle_blocked e = STATE_NON_BLOCKING ->
  let w4 := upd_lists (glist_add_tail (lock_list obj) (s_next w))
              (merge_lock_entry env obj (s_next w) w2) in
  bounded w4 -> linked x w w4 obj e o.
Proof.
  intros Hx Hwf Hp Ho Hnb w4 Hbd. pose proof Hp as [P1 P2 P3 P4 P5 P6 P7].
  assert (s_entries w2 !! s_next w = Some e) as He by (rewrite P3; apply lookup_insert_eq).
  set (w3 := merge_lock_entry env obj (s_next w) w2) in *.
  assert (bounded w3) as Hbd3 by exact Hbd.
  assert (bounded w2) as Hbd2 by (eapply bounded_mono; [apply next_merge|exact Hbd3]).
  assert (merging env (s_next w) x o (lock_type (sle_lock e)) (sle_blocked e) (sle_lock e) w2)
    as Hm by (split; try done; exists e; by split_and!).
  destruct (merge_lock_entry_spec env Hsame obj (s_next w) x _ _ _ _ w2 Hm Hbd3)
    as (k' & Hmd & Hclr). fold w3 in Hmd, Hclr.
  pose proof (md_merging _ _ _ _ _ _ _ _ _ _ _ Hmd) as
    [Hwf3 _ (l3 & Hl3 & Hol3 & Htl3 & Hbl3 & Hk3) _].
  pose proof (placed_unlisted x w w2 obj e Hwf Hp) as Hno2.
  assert (on_no_list (s_lists w3) (s_next w)) as Hno3.
  { intros h Hin. destruct (decide (h = lock_list obj)) as [->|Hne].
    - destruct (md_on_file _ _ _ _ _ _ _ _ _ _ _ Hmd (s_next w) Hin) as [Hin2|Hin2].
      + by apply (Hno2 (lock_list obj)).
      + lia.
    - rewrite (md_lists _ _ _ _ _ _ _ _ _ _ _ Hmd h Hne) in Hin. by apply (Hno2 h). }
  assert (sle_obj l3 = obj) as Hobj3.
  { pose proof (md_obj _ _ _ _ _ _ _ _ _ _ _ Hmd) as E. rewrite Hl3, He in E. simpl in E.
    congruence. }
  destruct (link_keeps x w3 obj (s_next w) l3 o Hwf3 Hno3 Hl3 Hol3 Hobj3) as (L1 & L2 & L3).
  assert (forall q o' t b, held_as q w4 obj o' t b <->
            holds_in q (involved obj (s_next w) w3) w3 o' t b) as Linv.
  { intros q o' t b. unfold w4. rewrite L3.
    split; intros (id & e' & Hid & Hr); exists id, e'; (split; [|done]);
      [destruct Hid as [?|[_ ?]]; [by left|by right]|destruct Hid as [?|?]; [by left|by right]]. }
  assert (forall q g o' t b, g <> obj -> held_as q w4 g o' t b <-> held_as q w g o' t b) as Loth.
  { intros q g o' t b Hg. rewrite <- (placed_held q x w w2 obj e g o' t b Hwf Hp).
    unfold w4. rewrite L3.
    assert (forall id, on_file g w3 id <-> on_file g w2 id) as Eg
      by (intros id; unfold on_file; by rewrite (md_lists _ _ _ _ _ _ _ _ _ _ _ Hmd) by congruence).
    assert (forall id, on_file g w2 id -> s_entries w3 !! id = s_entries w2 !! id) as Ee.
    { intros id Hid. apply (md_entries _ _ _ _ _ _ _ _ _ _ _ Hmd).
      - intros Hid'. destruct (wf_lists env x w2 P1) as (_ & _ & Hd).
        pose proof (Hd _ _ _ Hid Hid'). congruence.
      - intros ->. by apply (Hno2 (lock_list g)).
      - by eapply listed_lt. }
    split; intros (id & e' & Hid & He' & Hr).
    - destruct Hid as [Hid|[? _]]; [|done]. apply Eg in Hid. exists id, e'.
      rewrite Ee in He' by done. done.
    - exists id, e'. split; [left; by apply Eg|]. by rewrite Ee. }
  split; try done.
  - intros q g o' t b Hq Hh. destruct (decide (g = obj)) as [->|Hg].
    + apply Linv in Hh. apply (md_sound _ _ _ _ _ _ _ _ _ _ _ Hmd) in Hh as (o'' & E & Hh);
        [|done|by rewrite Hnb].
      exists o''. split; [done|]. apply (placed_involved q x w w2 obj e o) in Hh; try done. tauto.
    + exists o'. split; [done|]. left. by apply Loth.
  - intros q o' t b Hq Hh.
    destruct (md_complete _ _ _ _ _ _ _ _ _ _ _ Hmd q Hq ltac:(by rewrite Hnb) o' t b)
      as (o'' & E & Hr); [apply (placed_involved q x w w2 obj e o); auto|].
    exists o''. split; [done|]. rewrite !Linv. destruct Hr as [Hr|(Hr & o3 & E3 & Hr3)]; [by left|].
    right. split; [done|]. exists o3. split; [done|].
    apply (placed_involved q x w w2 obj e o) in Hr3; try done. tauto.
  - intros b Hb. apply Linv. exists (s_next w), l3. split; [by right|].
    split_and!; try done; [by rewrite Hbl3, Hnb|].
    rewrite Hk3. by apply (md_grow _ _ _ _ _ _ _ _ _ _ _ Hmd).
  - intros Heb Hend o' t b Hh Eo Hb. apply Linv in Hh as (id & e' & Hid & He' & Hq & Ho' & Ht & Hr).
    destruct (decide (id = s_next w)) as [->|Hne]; [congruence|].
    destruct Hid as [Hid|Hid]; [|done].
    destruct (decide (lock_type (sle_lock e') = lock_type (sle_lock e))) as [E|E]; [congruence|].
    exfalso. apply bool_decide_eq_true in Hq.
    refine (Hclr _ Hend id Hid e' o' He' Hne Ho' Eo Hq E b Hb Hr).
    intros id' e1 oc Hin1 He1 Ho1 E1. unfold on_file in Hin1. rewrite P4 in Hin1.
    apply (Heb id' e1 oc); try done. rewrite P3, lookup_insert_ne in He1; [done|].
    intros <-. pose proof (listed_lt env x w (lock_list obj) _ Hwf Hin1). lia.
Qed.

Lemma linked_keeps x w w4 obj e o :
  linked x w w4 obj e o ->
  (forall o' t b, holds w obj o' t b -> in_range (sle_lock e) b -> ~ o' ≈ o ->
     t <> FSAL_LOCK_W /\ lock_type (sle_lock e) <> FSAL_LOCK_W) ->
  keeps x w w4.
Proof.
  intros [Hwf Hs _ _ _ Ho] Hnc. split; [done|]. intros g Hex.
  destruct (decide (g = obj)) as [->|Hg].
  - apply (excl_add env Hsame w w4 obj o (lock_type (sle_lock e)) (in_range (sle_lock e)));
      [done| |done].
    intros o' t b Hh. destruct (Hs granted obj o' t b eq_refl Hh) as (o'' & E & [Hh'|(_ & -> & Hr)]).
    + exists o''. by split; [|left].
    + exists o. split; [done|]. by right.
  - eapply excl_mono; [done|exact Hex|]. intros o' t b Hh. exists o'. split; [done|].
    by apply (Ho granted g o' t b Hg).
Qed.

(** The state once the entry exists and the FSAL was asked. *)
Lemma place_placed x ctx obj owner state lock op (ask : bool) allow overlap w :
  wf_with env x w -> lock_ok lock -> op <> FSAL_OP_UNLOCK ->
  let w1 := (create_state_lock_entry env obj ctx STATE_NON_BLOCKING owner state lock w).2 in
  let r := if ask then do_lock_op env ctx obj state op (Some owner) lock allow overlap w1
           else (STATE_LOCK_BLOCKED, no_out, w1) in
  placed x w r.2 obj (new_entry_of obj ctx STATE_NON_BLOCKING owner state lock).
Proof.
  intros Hwf Hok Hop w1 r.
  pose proof (wf_create env x w obj ctx STATE_NON_BLOCKING owner state lock Hwf Hok) as Hwf1.
  destruct (create_spec env obj ctx STATE_NON_BLOCKING owner state lock w)
    as (w' & E & E1 & E2 & E3 & _ & E5 & _).
  unfold r, w1 in *. rewrite E in *. simpl in *.
  destruct ask; [|by split].
  destruct (do_lock_op_but_fsal ctx obj state op (Some owner) lock allow overlap w' Hop)
    as [Hbf _].
  pose proof (but_fsal_wf x _ _ Hbf Hwf1). destruct Hbf as (F1&F2&F3&F4&F5&F6&F7&F8&F9).
  split; try done; congruence.
Qed.

(** Taking a reference on the object first. *)
Lemma placed_add_ref x w w2 obj e (c : bool) r n :
  placed x w w2 obj e -> placed x w (if c then add_ref r n w2 else w2) obj e.
Proof. intros [P1 P2 P3 P4 P5 P6 P7]. destruct c; split; try done. by eapply wf_same; [..|exact P1]. Qed.

(** A lock that is granted at once is linked, and then the locks that
    wait are looked at. *)
Lemma place_success x ctx obj owner state blocking block_data lock op allow overlap out w :
  (forall j, x j <= 3) -> wf_with env x w -> lock_ok lock -> op <> FSAL_OP_UNLOCK ->
  let r := state_lock_place env ctx obj owner state blocking block_data lock op allow overlap out w in
  bounded r.2 -> r.1.1 = STATE_SUCCESS ->
  exists w4, linked x w w4 obj (new_entry_of obj ctx STATE_NON_BLOCKING owner state lock) owner /\
    r.2 = grant_blocked_locks env ctx obj w4.
Proof.
  intros Hx Hwf Hok Hop. unfold state_lock_place.
  pose proof (place_placed x ctx obj owner state lock op
    (allow || fs_supports ctx fso_lock_support_async_block) allow overlap w Hwf Hok Hop) as Hp.
  destruct (create_spec env obj ctx STATE_NON_BLOCKING owner state lock w) as (w1 & E & E1 & _).
  rewrite E in *. simpl in Hp.
  match type of Hp with placed _ _ (snd ?p) _ _ => destruct p as [[status op_out] w2] end.
  set (e := new_entry_of obj ctx STATE_NON_BLOCKING owner state lock) in *.
  destruct status; simpl; intros Hbd Hst; try done. eexists. split; [|reflexivity].
  apply (merge_link x w _ obj e owner); try done; [by apply placed_add_ref|].
  eapply bounded_mono; [apply next_grant_blocked|exact Hbd].
Qed.

Lemma place_keeps x ctx obj owner state blocking block_data lock op allow overlap out w :
  (forall j, x j <= 3) -> wf_with env x w -> lock_ok lock -> block_free w block_data ->
  op <> FSAL_OP_UNLOCK ->
  (allow = false \/ op = FSAL_OP_LOCKB -> blocking = STATE_NLM_BLOCKING) ->
  let r := state_lock_place env ctx obj owner state blocking block_data lock op allow overlap out w in
  bounded r.2 ->
  keeps_when (allow || fs_supports ctx fso_lock_support_async_block = true ->
    forall o t b, holds w obj o t b -> in_range lock b -> ~ o ≈ owner ->
      t <> FSAL_LOCK_W /\ lock_type lock <> FSAL_LOCK_W) x w r.2.
Proof.
  intros Hx Hwf Hok Hbf Hop Hbl. unfold state_lock_place.
  set (async := fs_supports ctx fso_lock_support_async_block).
  pose proof (place_placed x ctx obj owner state lock op (allow || async) allow overlap w
    Hwf Hok Hop) as Hp.
  destruct (create_spec env obj ctx STATE_NON_BLOCKING owner state lock w) as (w1 & E & E1 & _).
  rewrite E in *. simpl in Hp.
  set (r := if allow || async then do_lock_op env ctx obj state op (Some owner) lock allow overlap w1
            else (STATE_LOCK_BLOCKED, no_out, w1)) in *.
  assert (r.1.1 = STATE_LOCK_BLOCKED -> blocking = STATE_NLM_BLOCKING) as Hb.
  { intros Hb. apply Hbl. unfold r in Hb. destruct allow; [|by left]. right. simpl in Hb.
    destruct (do_lock_op_but_fsal ctx obj state op (Some owner) lock true overlap w1 Hop) as [_ Hnot].
    destruct (decide (op = FSAL_OP_LOCKB)) as [|Hne]; [done|]. by apply (Hnot Hne) in Hb. }
  assert (r.1.1 = STATE_SUCCESS -> allow || async = true) as Hsu by (unfold r; by destruct (_ || _)).
  clearbody r. destruct r as [[status op_out] w2]. simpl in Hb, Hp, Hsu.
  set (e := new_entry_of obj ctx STATE_NON_BLOCKING owner state lock) in *.
  destruct status;
    try (intros Hbd; apply keeps_always, (place_discard x w w2 obj e owner); try done;
         simpl in Hbd; unfold bounded in *; by rewrite next_remove in Hbd).
  - intros Hbd. simpl in *.
    match type of Hbd with context [merge_lock_entry env obj _ ?w3] =>
      pose proof (merge_link x w w3 obj e owner Hx Hwf) as Hl end.
    match type of Hbd with context [grant_blocked_locks env ctx obj ?w4] => set (w4' := w4) in * end.
    assert (bounded w4') as Hbd4 by (eapply bounded_mono; [apply next_grant_blocked|exact Hbd]).
    assert (linked x w w4' obj e owner) as HL by (apply Hl; try done; by apply placed_add_ref).
    eapply keeps_when_r;
      [|apply (keeps_grant_blocked x ctx obj w4'); [done|exact (lk_wf _ _ _ _ _ _ HL)|done]].
    split; [exact (lk_wf _ _ _ _ _ _ HL)|]. intros Hnc.
    apply (linked_keeps x w w4' obj e owner HL (Hnc (Hsu eq_refl))).
  - rewrite (Hb eq_refl). intros _. simpl. apply keeps_always.
    pose proof (place_blocked x w w2 obj e owner block_data
      (if async then STATE_BLOCK_ASYNC else if allow then STATE_BLOCK_POLL else STATE_BLOCK_INTERNAL)
      Hwf Hp eq_refl Hbf) as HK.
    cbv zeta in HK. destruct block_data as [b|]; [|exact HK].
    eapply keeps_trans; [exact HK|]. apply keeps_quiet; [apply HK|].
    apply quiet_same_entries; try done. by eapply wf_same; [..|apply HK].
Qed.

Lemma scan_existing_spec ctx owner lock ov l w id :
  scan_locks env ctx owner lock ov l w = scan_existing id ->
  id ∈ l /\ exists e, s_entries w !! id = Some e /\ entirely_overlaps lock e = true /\
    different_owners (env_owners env) (sle_owner e) (Some owner) = false.
Proof.
  revert ov. induction l as [|y l IH]; intros ov Hs; [done|]. simpl in Hs.
  assert (forall ov', scan_locks env ctx owner lock ov' l w = scan_existing id ->
    id ∈ y :: l /\ exists e, s_entries w !! id = Some e /\ entirely_overlaps lock e = true /\
      different_owners (env_owners env) (sle_owner e) (Some owner) = false) as Hr.
  { intros ov' [Hin He]%IH. split; [by right|done]. }
  destruct (s_entries w !! y) as [e|] eqn:Ey; [|by eapply Hr].
  destruct (_ && _); [done|]. destruct (request_conflicts env owner lock e); [done|].
  destruct (entirely_overlaps lock e) eqn:Eo; [|by eapply Hr].
  destruct (different_owners _ _ _) eqn:Ed; simpl in Hs; [by eapply Hr|].
  injection Hs as ->. split; [by left|eauto].
Qed.

Lemma scan_exit_status ctx owner lock ov l w st :
  scan_locks env ctx owner lock ov l w = scan_exit st -> st = STATE_INVALID_ARGUMENT.
Proof.
  revert ov. induction l as [|y l IH]; intros ov Hs; [done|]. simpl in Hs.
  repeat case_match; simplify_eq; eauto.
Qed.

Lemma find_blocked_status ctx owner blocking lock l w st :
  find_blocked_request env ctx owner blocking lock l w = Some st ->
  st = STATE_INVALID_ARGUMENT \/ st = STATE_LOCK_BLOCKED.
Proof.
  induction l as [|y l IH]; simpl; [done|]. repeat case_match; intros; simplify_eq; eauto.
Qed.

(** A request the scan allows conflicts with no lock in force. *)
Lemma scan_allow_holds x ctx obj owner lock ov w ov' :
  wf_with env x w -> lock_reclaim lock = false ->
  scan_locks env ctx owner lock ov (glist (s_lists w) (lock_list obj)) w = scan_allow ov' ->
  forall o t b, holds w obj o t b -> in_range lock b -> ~ o ≈ owner ->
    t <> FSAL_LOCK_W /\ lock_type lock <> FSAL_LOCK_W.
Proof.
  intros Hwf Hr Hs o t b (id & e & Hin & He & _ & Ho & Ht & Hb) Hb' Hne. subst t.
  apply (request_conflicts_false owner lock e (scan_allow_spec _ _ _ _ _ _ _ Hs id e Hin He) Hr b);
    try done.
  rewrite Ho. apply not_false_is_true. exact Hne.
Qed.

Lemma lock_keeps x ctx obj owner state blocking block_data lock w :
  (forall j, x j <= 3) -> wf_with env x w -> lock_ok lock -> block_free w block_data ->
  let r := state_lock env ctx obj owner state blocking block_data lock w in
  bounded r.2 ->
  keeps_when (lock_reclaim lock = false /\ fs_supports ctx fso_lock_support_async_block = false)
    x w r.2.
Proof.
  intros Hx Hwf Hok Hbf. unfold state_lock.
  match goal with |- context [if negb (support_ex obj) then ?p else ?q] =>
    assert (quiet env x w (if negb (support_ex obj) then p else q).2) as Q;
    [|assert (block_free (if negb (support_ex obj) then p else q).2 block_data) as Hbf1;
      [|destruct (if negb (support_ex obj) then p else q) as [fs w1]]] end.
  { destruct (negb _); [by apply fsal_open_quiet|by apply quiet_refl]. }
  { destruct (negb _); [|done]. unfold sal_fsal_open. by destruct (fsal_open _ _ _ _). }
  simpl in Q, Hbf1. pose proof (keeps_quiet x w w1 Hwf Q) as K1.
  pose proof (proj1 K1) as Hwf1. cbv zeta. intros Hbd.
  eapply keeps_when_l; [exact K1|]. clear K1 Q.
  destruct (FSAL_IS_ERROR fs); [by apply keeps_always, keeps_refl|].
  match goal with |- context [match ?p with Some _ => _ | None => _ end] =>
    destruct p as [st|] end; [by apply keeps_always, keeps_refl|].
  destruct (scan_locks env ctx owner lock false _ w1) as [st|id|id|ov] eqn:Es.
  - by apply keeps_always, keeps_refl.
  - destruct (scan_existing_spec _ _ _ _ _ _ _ Es) as [Hin _]. simpl in *. apply keeps_always.
    case_decide as Hg; [|by apply keeps_refl].
    destruct (s_entries w1 !! id) as [l|] eqn:El; [|done]. injection Hg as Hg.
    apply (grant_immediate_ok env Hsame x ctx obj id l); try done. by rewrite Hg.
  - pose proof (copy_conflict_core id w1) as Hc.
    destruct (copy_conflict id w1) as [out w2] eqn:Ec. simpl in Hc.
    assert (keeps x w1 w2) as K2 by (apply keeps_quiet; [done|]; by apply quiet_core).
    assert (block_free w2 block_data) as Hbf2.
    { unfold block_free. by destruct Hc as (-> & _ & _ & _ & _ & _ & _ & _ & -> & _). }
    case_decide; [|by apply keeps_always]. eapply keeps_when_l; [exact K2|].
    edestruct place_keeps as [P1 P2]; [..|split; [exact P1|]]; try done; [apply K2|].
    intros [_ Hna]. apply P2. by rewrite Hna.
  - edestruct place_keeps as [P1 P2]; [..|split; [exact P1|]]; try done;
      try (by case_decide); try (by intros [?|?]; repeat case_decide).
    intros [Hrc _]. apply P2. intros _. by eapply scan_allow_holds.
Qed.
End inv.
