(* ===== verification/LockReach.v ===== *)
(** * Runs of the lock manager

    The entry points of SAL/state_lock.c as the transitions of one system.
    A [sal_request] is a call of one of them by a protocol, by the poller or
    by an upcall thread, [perform] runs it, [allowed] says when such a call
    may be made, and [runs ok] are the states reached with requests that are
    [ok].  The state is well formed (LockWf.v) in every run from the empty
    server; conflicting locks are excluded (LockExcl.v) in the [orderly]
    ones. *)
From S2P Require Import Prelude Owners Fsal LockData LockList LockOps.
From S2P Require Import LockWf LockSem LockMerge LockSubtract LockFsalOps LockGrant.
From S2P Require Import LockExcl LockCancel LockInv.

(** The calls.  [req_block] is the protocol filling in the
    [state_block_data_t] that its next blocking request hands over
    (Protocols/NLM/nlm_Lock.c); the grant requests answer a granted call
    back and name the cookie entry [state_find_grant] found. *)
Inductive sal_request :=
| req_block (b : nat) (data : state_block_data_t)
| req_lock (ctx obj owner : nat) (state : option nat) (blocking : state_blocking_t)
    (block_data : option nat) (lock : fsal_lock_param_t)
| req_test (ctx obj : nat) (state owner : option nat) (lock : fsal_lock_param_t)
| req_unlock (ctx obj : nat) (state owner : option nat) (state_applies : bool)
    (nsm_state : Z) (lock : fsal_lock_param_t)
| req_cancel (ctx obj : nat) (owner : option nat) (lock : fsal_lock_param_t)
| req_complete_grant (ctx cookie : nat)
| req_release_grant (ctx cookie : nat)
| req_poll
| req_available (obj owner : nat) (lock : fsal_lock_param_t) (grant_type : state_grant_type_t)
| req_upcall (block : nat).

Section reach.
Context `{FsalOps F} (env : sal_env).
Implicit Types w : sal F.

Definition perform (r : sal_request) w : sal F :=
  match r with
  | req_block b data => upd_blocks (fun m => <[b := data]> m) w
  | req_lock ctx obj owner state blocking block_data lock =>
      (state_lock env ctx obj owner state blocking block_data lock w).2
  | req_test ctx obj state owner lock => (state_test env ctx obj state owner lock w).2
  | req_unlock ctx obj state owner sa st lock =>
      (state_unlock env ctx obj state owner sa st lock w).2
  | req_cancel ctx obj owner lock => (state_cancel env ctx obj owner lock w).2
  | req_complete_grant ctx c => state_complete_grant env ctx c w
  | req_release_grant ctx c => (state_release_grant env ctx c w).2
  | req_poll => blocked_lock_polling w
  | req_available obj owner lock grant_type =>
      default w (find_blocked_lock_upcall obj owner lock grant_type w)
  | req_upcall b => process_blocked_lock_upcall env b w
  end.

(** What the callers guarantee: ranges that stay below 2^64, block data
    that is not in use and is there when the request may block, an answer
    only for a lock that was not taken off its file in the meantime, an
    upcall of the FSAL only for a lock that blocks (the server stops
    otherwise), and a scheduled retry only while its entry is listed. *)
Definition allowed (r : sal_request) w : Prop :=
  match r with
  | req_block b data => s_blocks w !! b = None
  | req_lock _ _ _ _ blocking block_data lock =>
      lock_ok lock /\ block_free w block_data /\
      (blocking = STATE_NLM_BLOCKING -> is_Some block_data)
  | req_test _ _ _ _ lock => lock_ok lock
  | req_unlock _ _ _ _ _ _ lock => lock_ok lock
  | req_cancel _ _ _ _ => True
  | req_complete_grant _ c => cookie_listed w c
  | req_release_grant _ c => cookie_listed w c
  | req_poll => True
  | req_available obj owner lock grant_type =>
      is_Some (find_blocked_lock_upcall obj owner lock grant_type w)
  | req_upcall b => upcall_live w b
  end.

(** The requests that ask the lock list before they grant anything: locks
    that are no reclaims, through exports whose backend leaves blocking locks
    to the server, and no retry of a blocked lock on behalf of the backend. *)
Definition orderly (r : sal_request) : Prop :=
  match r with
  | req_lock ctx _ _ _ _ _ lock =>
      lock_reclaim lock = false /\ fs_supports ctx fso_lock_support_async_block = false
  | req_upcall _ => False
  | _ => True
  end.

Inductive sal_step (ok : sal_request -> Prop) w : sal F -> Prop :=
| sal_step_request r :
    ok r -> allowed r w -> bounded (perform r w) -> sal_step ok w (perform r w).

(** A server with no locks, whatever state the backend is in. *)
Definition sal_init (c : granted_cookie) (f : fsal_state F) : sal F :=
  mk_sal ∅ ∅ ∅ 1 ∅ ∅ ∅ ∅ ∅ [] ∅ ∅ c [] f.

(** The states of the runs whose requests are all [ok]. *)
Inductive runs (ok : sal_request -> Prop) : sal F -> Prop :=
| runs_init c f : runs ok (sal_init c f)
| runs_step w w' : runs ok w -> sal_step ok w w' -> runs ok w'.

Definition reachable : sal F -> Prop := runs (fun _ => True).

(** ** Every call keeps the invariants *)

Lemma wf_init c f : wf env (sal_init c f).
Proof.
  split; simpl.
  - split_and!; unfold glist; intros *; rewrite ?lookup_empty; simpl; try (by intros ?%elem_of_nil).
    constructor.
  - intros k id. unfold glist. rewrite lookup_empty. simpl. rewrite elem_of_nil.
    split; [done|]. intros (e & He & _). by rewrite lookup_empty in He.
  - intros k id. unfold glist. rewrite lookup_empty. simpl. rewrite elem_of_nil.
    split; [done|]. intros (e & He & _). by rewrite lookup_empty in He.
  - intros k id. unfold glist. rewrite lookup_empty. simpl. rewrite elem_of_nil.
    split; [done|]. intros (e & He & _). by rewrite lookup_empty in He.
  - intros k id. unfold glist. rewrite lookup_empty. simpl. rewrite elem_of_nil.
    split; [done|]. intros (e & He & _). by rewrite lookup_empty in He.
  - intros id [? He]. by rewrite lookup_empty in He.
  - intros id [? He]. by rewrite lookup_empty in He.
  - intros id e He. by rewrite lookup_empty in He.
  - split_and!; try (cbn; intros; lia).
    + intros ? ? He. by rewrite lookup_empty in He.
    + intros ? ? He. by rewrite lookup_empty in He.
  - intros ? ? ? He. by rewrite lookup_empty in He.
Qed.

Context (Henv : owner_env_wf (env_owners env)).

#[local] Instance same_owner_is_equiv : Equivalence (same_owner (env_owners env)).
Proof. by apply same_owner_equiv. Qed.

Lemma block_keeps b data w :
  wf env w -> s_blocks w !! b = None ->
  keeps env (fun _ => 0) w (upd_blocks (fun m => <[b := data]> m) w).
Proof.
  intros Hwf Hb. apply keeps_quiet; [apply _|done|].
  apply quiet_same_entries; try done. pose proof Hwf as [W1 W2 W3 W4 W5 W6 W7 W8 W9 W10].
  split; try done. intros id e b' He Eb. destruct (W10 id e b' He Eb) as (bl & Hbl & Hl).
  exists bl. simpl. rewrite lookup_insert_ne; [done|congruence].
Qed.

Lemma perform_keeps r w :
  wf env w -> allowed r w -> bounded (perform r w) ->
  keeps_when env (orderly r) (fun _ => 0) w (perform r w).
Proof.
  intros Hwf. assert (forall j : nat, (fun _ => 0) j <= 3) as Hx by (intros; cbn; lia).
  destruct r; simpl.
  - intros Hb _. by apply keeps_always, block_keeps.
  - intros (H1 & H2 & _) Hbd. apply lock_keeps; try done; apply _.
  - intros Hok Hbd. apply keeps_always, test_keeps; try done; apply _.
  - intros Hok Hbd. apply keeps_always, unlock_keeps; try done; apply _.
  - intros _ Hbd. apply keeps_always, cancel_keeps; try done; apply _.
  - intros Hc Hbd. apply keeps_always, complete_grant_keeps; try done; apply _.
  - intros Hc Hbd. apply keeps_always, release_grant_keeps; try done; apply _.
  - intros _ _. apply keeps_always, polling_keeps; [apply _|done].
  - intros [w' Hw'] _. rewrite Hw'. simpl. eapply keeps_always, fsal_upcall_keeps; [apply _|..]; done.
  - intros Hc Hbd. split; [by apply upcall_wf|done].
Qed.

Lemma runs_mono (ok ok' : sal_request -> Prop) w :
  (forall r, ok r -> ok' r) -> runs ok w -> runs ok' w.
Proof.
  intros Hok. induction 1 as [c f|w w' _ IH [r ? ? ?]]; [constructor|].
  eapply runs_step; [exact IH|]. constructor; auto.
Qed.

Lemma runs_wf ok w : runs ok w -> wf env w.
Proof.
  induction 1 as [c f|w w' _ IHw [r _ Ha Hbd]]; [apply wf_init|]. by apply perform_keeps.
Qed.

Lemma runs_excl w : runs orderly w -> forall f, excl env w f.
Proof.
  induction 1 as [c f|w w' Hw IHe [r Ho Ha Hbd]]; intros g.
  - intros b o1 t1 o2 t2 (id & e & Hid & _). by apply elem_of_nil in Hid.
  - apply (perform_keeps r w); try done. by eapply runs_wf.
Qed.
End reach.
