(* ===== verification/LockBytes.v ===== *)
(** * What the clients hold, byte by byte

    The effect of [state_lock], [state_unlock] and [state_test]
    (SAL/state_lock.c) on the locks that clients have been told of. *)
From S2P Require Import Prelude Status Owners Fsal LockData LockList LockOps.
From S2P Require Import LockWf LockSem LockMerge LockSubtract LockFsalOps LockGrant.
From S2P Require Import LockExcl LockCancel LockInv.

Section bytes.
Context `{FsalOps F} (env : sal_env) (Hsame : Equivalence (same_owner (env_owners env))).
Implicit Types (w : sal F) (x : nat -> Z).

#[local] Infix "≈" := (same_owner (env_owners env)) (at level 70).

(** The party of [o] has been told that it holds a lock of type [t] on
    byte [b]. *)
Definition told w (f o : nat) (t : fsal_lock_t) (b : Z) : Prop :=
  exists o', o' ≈ o /\ held_as fully w f o' t b.

(** No party has both types of lock on a byte. *)
Definition one_type w (f : nat) : Prop :=
  forall o t1 t2 b, told w f o t1 b -> told w f o t2 b -> t1 = t2.

#[export] Instance told_proper w f :
  Proper (same_owner (env_owners env) ==> eq ==> eq ==> iff) (told w f).
Proof.
  intros o1 o2 E t ? <- b ? <-. unfold told.
  split; intros (o' & E' & Hh); exists o'; (split; [|done]); etrans; try done; by symmetry.
Qed.

(** A fully granted lock of the file with property [Q]. *)
Definition some_lock w (f : nat) (Q : state_lock_entry_t -> Prop) : Prop :=
  exists id e, on_file f w id /\ s_entries w !! id = Some e /\
    sle_blocked e = STATE_NON_BLOCKING /\ Q e.

Lemma held_some_lock w f o t b :
  held_as fully w f o t b <->
  some_lock w f (fun e => sle_owner e = Some o /\ lock_type (sle_lock e) = t /\
                          in_range (sle_lock e) b).
Proof.
  unfold held_as, holds_in, some_lock, fully. setoid_rewrite bool_decide_eq_true. done.
Qed.

Lemma remains_some_lock owner sa st lock w f o t b :
  remains env owner sa st lock fully (glist (s_lists w) (lock_list f)) w o t b <->
  some_lock w f (fun e => sle_owner e = Some o /\ lock_type (sle_lock e) = t /\
                          in_range (sle_lock e) b /\
                          ~ (subtract_applies env owner sa st e = true /\ in_range lock b)).
Proof.
  unfold remains, some_lock, fully. setoid_rewrite bool_decide_eq_true. done.
Qed.

(** Changes that leave the fully granted locks alone. *)
Lemma evolves_some_lock x (D : nat -> Prop) T w w' f (Q : state_lock_entry_t -> Prop) :
  (forall id, Decision (D id)) -> wf_with env x w -> evolves env x D T w w' ->
  (forall id e, D id -> s_entries w !! id = Some e -> sle_blocked e <> STATE_NON_BLOCKING) ->
  (forall s s', s <> STATE_NON_BLOCKING -> T s s' -> s' <> STATE_NON_BLOCKING) ->
  (forall e e', like e e' -> Q e' <-> Q e) ->
  some_lock w' f Q <-> some_lock w f Q.
Proof.
  intros Hdec Hwf Hev HD HT HQ. split.
  - intros (id & e' & Hin' & He' & Hg & Hq).
    pose proof (evolves_sub_on env _ _ _ _ _ _ _ Hev Hin') as Hin.
    destruct (on_file_entry env x w f id Hwf Hin) as (e & o' & He & _).
    destruct (decide (D id)) as [Hd|Hd].
    + destruct (ev_touched _ _ _ _ _ _ Hev f id e Hin' He Hd) as (e'' & He'' & _ & Ht').
      rewrite He' in He''. injection He'' as <-. by apply (HT _ _ (HD id e Hd He)) in Ht'.
    + destruct (ev_like _ _ _ _ _ _ Hev f id e Hin He Hd) as (e'' & He'' & Hl).
      rewrite He' in He''. injection He'' as <-. exists id, e.
      split_and!; try done; [destruct Hl; congruence|by apply (HQ e e')].
  - intros (id & e & Hin & He & Hg & Hq).
    assert (~ D id) as Hd by (intros Hd; by apply (HD id e Hd He)).
    destruct (ev_like _ _ _ _ _ _ Hev f id e Hin He Hd) as (e' & He' & Hl).
    exists id, e'. split_and!; try done; [|destruct Hl; congruence|by apply (HQ e e')].
    by apply (ev_keep _ _ _ _ _ _ Hev).
Qed.

(** The properties of a lock that [like] respects. *)
Definition lock_prop (Q : state_lock_entry_t -> Prop) : Prop :=
  forall e e', like e e' -> Q e' <-> Q e.

Lemma held_lock_prop o t b :
  lock_prop (fun e => sle_owner e = Some o /\ lock_type (sle_lock e) = t /\
                      in_range (sle_lock e) b).
Proof.
  intros e e' [Hl Hs]. pose proof Hl as (-> & _ & _ & _ & -> & _).
  by rewrite (same_lock_range e e').
Qed.

Lemma remains_lock_prop owner sa st lock o t b :
  lock_prop (fun e => sle_owner e = Some o /\ lock_type (sle_lock e) = t /\
                      in_range (sle_lock e) b /\
                      ~ (subtract_applies env owner sa st e = true /\ in_range lock b)).
Proof.
  intros e e' [Hl Hs]. pose proof Hl as (E1 & _ & _ & E4 & E5 & _).
  rewrite (same_lock_range e e') by done. unfold subtract_applies. by rewrite E1, E4, E5, Hs.
Qed.

Lemma quiet_some_lock x w w' f Q :
  wf_with env x w -> quiet env x w w' -> lock_prop Q -> some_lock w' f Q <-> some_lock w f Q.
Proof. intros Hwf V HQ. by apply (evolves_some_lock x _ _ w w' f Q (fun _ => _) Hwf V). Qed.

Lemma grant_blocked_some_lock x ctx g w f Q :
  (forall j, x j <= 3) -> wf_with env x w -> bounded (grant_blocked_locks env ctx g w) ->
  lock_prop Q -> some_lock (grant_blocked_locks env ctx g w) f Q <-> some_lock w f Q.
Proof.
  intros Hx Hwf Hbd HQ.
  destruct (grant_blocked_evolves env Hsame x ctx g w Hx Hwf Hbd) as [V _].
  apply (evolves_some_lock x _ _ w _ f Q (fun _ => _) Hwf V); [| |done].
  - intros id e [_ Hsel] He. rewrite He in Hsel. intros E. unfold is_waiting in Hsel.
    by rewrite E in Hsel.
  - by intros s s' Hs [->| ->].
Qed.

Lemma cancel_range_some_lock x ctx obj owner sa st lock w f Q :
  (forall j, x j <= 3) -> wf_with env x w ->
  bounded (cancel_blocked_locks_range env ctx obj owner sa st lock w) -> lock_prop Q ->
  some_lock (cancel_blocked_locks_range env ctx obj owner sa st lock w) f Q <-> some_lock w f Q.
Proof.
  intros Hx Hwf Hbd HQ.
  pose proof (cancel_range_evolves env x ctx obj owner sa st lock w Hx Hwf Hbd) as V.
  apply (evolves_some_lock x _ _ w _ f Q (fun _ => _) Hwf V); [| |done].
  - intros id e [_ Hsel] He. rewrite He in Hsel. unfold cancel_applies in Hsel.
    rewrite !andb_true_iff in Hsel. destruct Hsel as [[_ Hs] _].
    by apply bool_decide_eq_true in Hs.
  - by intros s s' Hs [->| ->].
Qed.

(** Deciding what is held. *)
Definition held_bool (q : state_blocking_t -> bool) w (f o : nat) (t : fsal_lock_t) (b : Z)
    : bool :=
  existsb (fun id =>
    match s_entries w !! id with
    | Some e => q (sle_blocked e) && bool_decide (sle_owner e = Some o)
                && bool_decide (lock_type (sle_lock e) = t)
                && ((lock_start (sle_lock e) <=? b) && (b <=? lock_end (sle_lock e)))
    | None => false
    end) (glist (s_lists w) (lock_list f)).

Lemma held_bool_spec q w f o t b : held_bool q w f o t b = true <-> held_as q w f o t b.
Proof.
  unfold held_bool, held_as, holds_in, on_file. rewrite existsb_exists.
  split; intros (id & Hr).
  - destruct Hr as [Hin Hr]. apply list_elem_of_In in Hin.
    destruct (s_entries w !! id) as [e|] eqn:He; [|done].
    rewrite !andb_true_iff, !Z.leb_le, !bool_decide_eq_true in Hr.
    exists id, e. unfold in_range. tauto.
  - destruct Hr as (e & Hin & He & Hr). exists id. split; [by apply list_elem_of_In|].
    rewrite He, !andb_true_iff, !Z.leb_le, !bool_decide_eq_true. unfold in_range in Hr. tauto.
Qed.

(** A file with one lock. *)
Lemma on_file_single w f id0 e0 id e :
  glist (s_lists w) (lock_list f) = [id0] -> s_entries w !! id0 = Some e0 ->
  on_file f w id -> s_entries w !! id = Some e -> e = e0.
Proof.
  intros El E0 Hin He. unfold on_file in Hin. rewrite El in Hin.
  apply list_elem_of_singleton in Hin as ->. congruence.
Qed.

Lemma one_type_single w f id e :
  glist (s_lists w) (lock_list f) = [id] -> s_entries w !! id = Some e -> one_type w f.
Proof.
  intros El He o t1 t2 b (o1 & _ & i1 & e1 & Hin1 & He1 & _ & _ & H1 & _)
    (o2 & _ & i2 & e2 & Hin2 & He2 & _ & _ & H2 & _).
  rewrite (on_file_single w f id e i1 e1) in H1 by done.
  rewrite (on_file_single w f id e i2 e2) in H2 by done. congruence.
Qed.

(** ** [state_unlock] *)

(** What is left of the locks after a subtraction. *)
Lemma subtracted_fully x owner sa st lock obj w w' f o t b :
  wf_with env x w -> subtracted env x owner sa st lock (lock_list obj) w w' ->
  held_as fully w' f o t b <->
  if decide (f = obj)
  then remains env owner sa st lock fully (glist (s_lists w) (lock_list obj)) w o t b
  else held_as fully w f o t b.
Proof.
  intros Hwf Hsb. case_decide as Hf; [subst; apply (sb_holds _ _ _ _ _ _ _ _ _ Hsb)|].
  assert (forall id, on_file f w' id <-> on_file f w id) as Eo.
  { intros id. unfold on_file.
    by rewrite (sb_others _ _ _ _ _ _ _ _ _ Hsb) by congruence. }
  assert (forall id, on_file f w id -> s_entries w' !! id = s_entries w !! id) as Ee.
  { intros id Hid. apply (sb_old _ _ _ _ _ _ _ _ _ Hsb); [by eapply listed_lt|].
    intros Hid'. destruct (wf_lists env x w Hwf) as (_ & _ & Hd).
    pose proof (Hd _ _ _ Hid Hid'). congruence. }
  split; intros (id & e & Hid & He & Hr); exists id, e.
  - apply Eo in Hid. rewrite Ee in He by done. done.
  - split; [by apply Eo|]. by rewrite Ee.
Qed.

Lemma unlock_fully x ctx obj state owner sa st lock w f o t b :
  (forall j, x j <= 3) -> wf_with env x w -> lock_ok lock -> obj_type obj = REGULAR_FILE ->
  bounded (state_unlock env ctx obj state owner sa st lock w).2 ->
  held_as fully (state_unlock env ctx obj state owner sa st lock w).2 f o t b <->
  if decide (f = obj)
  then remains env owner sa st lock fully (glist (s_lists w) (lock_list obj)) w o t b
  else held_as fully w f o t b.
Proof.
  intros Hx Hwf Hok Hty. unfold state_unlock. rewrite decide_False by (intros Hn; by apply Hn).
  destruct (glist_empty _ _) eqn:Eemp.
  { intros _. case_decide; [subst|done]. unfold remains, held_as, holds_in, on_file. simpl.
    unfold glist_empty in Eemp. destruct (glist (s_lists w) (lock_list obj)); [|done].
    split; intros (id & e & Hid & _); by apply elem_of_nil in Hid. }
  set (w1 := cancel_blocked_locks_range env ctx obj owner sa st lock w).
  destruct (subtract_lock_from_list env owner sa st lock (lock_list obj) w1)
    as [[status rm] w2] eqn:E2.
  set (w3 := put_obj_if_empty obj w2).
  assert (s_next w3 = s_next w2) as En3 by apply put_obj_core.
  assert (s_next w1 <= s_next w2)%nat as En2.
  { pose proof (next_subtract_list env owner sa st lock (lock_list obj) w1) as Hn.
    by rewrite E2 in Hn. }
  assert (bounded w2 -> status = STATE_SUCCESS /\ wf_with env x w3 /\
          (held_as fully w3 f o t b <->
           if decide (f = obj)
           then remains env owner sa st lock fully (glist (s_lists w) (lock_list obj)) w o t b
           else held_as fully w f o t b)) as K3.
  { intros Hbd2.
    assert (bounded w1) as Hbd1 by (by eapply bounded_mono).
    pose proof (ev_wf _ _ _ _ _ _
      (cancel_range_evolves env x ctx obj owner sa st lock w Hx Hwf Hbd1)) as Hwf1.
    fold w1 in Hwf1.
    destruct (subtract_list_spec env x Hx owner sa st lock (lock_list obj) Hok
                ltac:(done) ltac:(done) w1 Hwf1) as (rm' & w2' & E2' & Hsb).
    { by rewrite E2. }
    rewrite E2 in E2'. injection E2' as -> <- <-.
    pose proof (sb_wf _ _ _ _ _ _ _ _ _ Hsb) as Hwf2.
    assert (quiet env x w2 w3) as Q3 by (apply quiet_core; [done|apply put_obj_core]).
    split_and!; [done|apply Q3|].
    rewrite !held_some_lock, (quiet_some_lock x w2 w3) by auto using held_lock_prop.
    rewrite <- held_some_lock, (subtracted_fully x owner sa st lock obj w1 w2) by done.
    case_decide; [subst f|].
    - rewrite !remains_some_lock. apply (cancel_range_some_lock x); auto using remains_lock_prop.
    - rewrite !held_some_lock. apply (cancel_range_some_lock x); auto using held_lock_prop. }
  clearbody w3. destruct (decide (status <> STATE_SUCCESS)) as [Hs|Hs]; simpl.
  { intros Hbd. unfold bounded in Hbd. simpl in Hbd. rewrite En3 in Hbd. by destruct (K3 Hbd). }
  pose proof (do_lock_op_same env x Hx ctx obj state FSAL_OP_UNLOCK owner lock false false w3) as K4.
  pose proof (next_do_lock_op env ctx obj state FSAL_OP_UNLOCK owner lock false false w3) as Hn5.
  destruct (do_lock_op _ _ _ _ _ _ _ _ _ w3) as [[st4 out] w4]. simpl in *. intros Hbd.
  assert (bounded w4) as Hbd4 by (eapply bounded_mono; [apply next_grant_blocked|exact Hbd]).
  assert (bounded w2) as Hbd2 by (unfold bounded in *; lia).
  destruct (K3 Hbd2) as (_ & Hwf3 & K).
  pose proof (files_same_quiet env x w3 w4 Hwf3 (K4 Hwf3 Hok Hbd4)) as Q4.
  rewrite <- K, !held_some_lock, (grant_blocked_some_lock x);
    [|done|apply Q4|done|apply held_lock_prop].
  apply (quiet_some_lock x); auto using held_lock_prop.
Qed.

(** The caller's own locks lose the range, nothing else changes. *)
Lemma unlock_told x ctx obj state o0 st lock w f o t b :
  (forall j, x j <= 3) -> wf_with env x w -> lock_ok lock -> obj_type obj = REGULAR_FILE ->
  let w' := (state_unlock env ctx obj state (Some o0) false st lock w).2 in
  bounded w' ->
  told w' f o t b <-> told w f o t b /\ ~ (f = obj /\ o ≈ o0 /\ in_range lock b).
Proof.
  intros Hx Hwf Hok Hty w' Hbd. unfold told, w'.
  setoid_rewrite (unlock_fully x ctx obj state (Some o0) false st lock w); try done.
  case_decide as Hf; [subst f|].
  2:{ split; [|tauto]. intros Hh. split; [done|]. by intros [? _]. }
  assert (forall o' e, sle_owner e = Some o' -> sle_blocked e = STATE_NON_BLOCKING ->
            subtract_applies env (Some o0) false st e = true <-> o' ≈ o0) as Happ.
  { intros o' e Ho Hb. unfold subtract_applies, same_owner. rewrite Ho, Hb. simpl.
    by destruct (different_owners (env_owners env) (Some o') (Some o0)). }
  split.
  - intros (o' & E & (id & e & Hid & He & Hq & Ho & Ht & Hr & Hn)).
    pose proof Hq as Hq'. apply bool_decide_eq_true in Hq'. split.
    + exists o'. split; [done|]. exists id, e. by split_and!.
    + intros (_ & E0 & Hb). apply Hn. split; [|done]. apply (Happ o'); try done. by etrans.
  - intros [(o' & E & (id & e & Hid & He & Hq & Ho & Ht & Hr)) Hn].
    pose proof Hq as Hq'. apply bool_decide_eq_true in Hq'.
    exists o'. split; [done|]. exists id, e. split_and!; try done.
    intros [Ha Hb]. apply Hn. split_and!; try done. apply (Happ o' e Ho Hq') in Ha.
    etrans; [symmetry; exact E|done].
Qed.

(** ** [state_lock] *)

Lemma linked_told x w w4 obj e owner f o t b :
  linked env x w w4 obj e owner -> one_type w obj -> ends_below env obj owner w ->
  lock_end (sle_lock e) < UINT64_MAX ->
  told w4 f o t b <->
  if decide (f = obj /\ o ≈ owner /\ lock_start (sle_lock e) <= b <= lock_end (sle_lock e))
  then t = lock_type (sle_lock e) else told w f o t b.
Proof.
  intros [L1 L2 L3 L4 L5 L6] H1 Heb Hend. case_decide as Hc.
  - destruct Hc as (-> & Eo & Hb). split.
    + intros (o' & E & Hh). apply (L5 Heb Hend o' t b Hh); [by etrans|done].
    + intros ->. exists owner. split; [by symmetry|]. by apply L4.
  - destruct (decide (f = obj)) as [->|Hf].
    2:{ unfold told. by setoid_rewrite (L6 fully f _ t b Hf). }
    split.
    + intros (o' & E & Hh). destruct (L2 fully obj o' t b eq_refl Hh) as (o'' & E' & [Hh'|Hn]).
      * exists o''. split; [by etrans|done].
      * destruct Hn as (_ & -> & _ & Hb). destruct Hc. split_and!; try done; try apply Hb.
        symmetry. by etrans.
    + intros (o' & E & Hh). destruct (L3 fully o' t b eq_refl Hh) as (o'' & E' & [Hh'|(Hh' & Hn)]).
      * exists o''. split; [by etrans|done].
      * destruct Hn as (o3 & E3 & [Hh3|[-> Hb]]).
        -- rewrite (H1 o t (lock_type (sle_lock e)) b); [|by exists o'|].
           ++ exists o''. split; [by etrans|done].
           ++ exists o3. split; [by etrans|done].
        -- destruct Hc. split_and!; try done; try apply Hb. symmetry. by etrans.
Qed.

Definition none_granting w (f o : nat) : Prop :=
  forall id e o', on_file f w id -> s_entries w !! id = Some e -> sle_owner e = Some o' ->
    o' ≈ o -> sle_blocked e <> STATE_GRANTING.

(** A lock the owner already has. *)
Lemma existing_told w f owner lock id e oc :
  one_type w f -> on_file f w id -> s_entries w !! id = Some e -> sle_owner e = Some oc ->
  oc ≈ owner -> entirely_overlaps lock e = true -> sle_blocked e <> STATE_GRANTING ->
  forall o t b, o ≈ owner -> lock_start lock <= b <= lock_end lock ->
    told w f o t b <-> t = lock_type lock.
Proof.
  intros H1 Hin He Ho Eo Hov Hng o t b Eo' Hb. unfold entirely_overlaps in Hov.
  rewrite !andb_true_iff, !Z.leb_le, orb_true_iff, !bool_decide_eq_true in Hov.
  destruct Hov as (((Ho1 & Ho2) & Ht) & [Hs|Hs]); [|done].
  assert (told w f o (lock_type lock) b) as Hh.
  { exists oc. split; [etrans; [exact Eo|by symmetry]|]. exists id, e.
    split_and!; try done; [by apply bool_decide_eq_true|unfold in_range; lia]. }
  split; [intros Hh'; by eapply H1|by intros ->].
Qed.

Lemma lock_told x ctx obj owner state blocking block_data lock w f o t b :
  (forall j, x j <= 3) -> wf_with env x w -> lock_ok lock ->
  one_type w obj -> ends_below env obj owner w -> none_granting w obj owner ->
  lock_end lock < UINT64_MAX ->
  let r := state_lock env ctx obj owner state blocking block_data lock w in
  bounded r.2 -> r.1.1 = STATE_SUCCESS ->
  told r.2 f o t b <->
  if decide (f = obj /\ o ≈ owner /\ lock_start lock <= b <= lock_end lock)
  then t = lock_type lock else told w f o t b.
Proof.
  intros Hx Hwf Hok H1 Heb Hng Hend. unfold state_lock.
  match goal with |- context [if negb (support_ex obj) then ?p else ?q] =>
    assert (quiet env x w (if negb (support_ex obj) then p else q).2 /\
      s_entries (if negb (support_ex obj) then p else q).2 = s_entries w /\
      s_lists (if negb (support_ex obj) then p else q).2 = s_lists w) as (Q & Ee & El);
    [|destruct (if negb (support_ex obj) then p else q) as [fs w1]] end.
  { destruct (negb _); [|split; [by apply quiet_refl|done]].
    split; [by apply fsal_open_quiet|]. unfold sal_fsal_open. by destruct (fsal_open _ _ _ _). }
  simpl in Q, Ee, El.
  assert (forall f o t b, told w1 f o t b <-> told w f o t b) as Et1.
  { intros f' o' t' b'. unfold told, held_as, holds_in, on_file. by rewrite Ee, El. }
  assert (ends_below env obj owner w1) as Heb1.
  { intros id e oc. unfold on_file. rewrite Ee, El. apply Heb. }
  assert (one_type w1 obj) as H11 by (intros o' t1 t2 b'; rewrite !Et1; apply H1).
  assert (forall w2 w3, quiet env x w1 w2 ->
    linked env x w2 w3 obj (new_entry_of obj ctx STATE_NON_BLOCKING owner state lock) owner ->
    bounded (grant_blocked_locks env ctx obj w3) -> s_entries w2 = s_entries w1 ->
    s_lists w2 = s_lists w1 ->
    told (grant_blocked_locks env ctx obj w3) f o t b <->
    if decide (f = obj /\ o ≈ owner /\ lock_start lock <= b <= lock_end lock)
    then t = lock_type lock else told w f o t b) as Hplace.
  { intros w2 w3 Q2 HL Hbd E2 E2'.
    assert (forall f o t b, told w2 f o t b <-> told w1 f o t b) as Et2.
    { intros f' o' t' b'. unfold told, held_as, holds_in, on_file. by rewrite E2, E2'. }
    assert (one_type w2 obj /\ ends_below env obj owner w2) as [H12 Heb2].
    { split; [intros o' t1 t2 b'; rewrite !Et2; apply H11|].
      intros id e oc. unfold on_file. rewrite E2, E2'. apply Heb1. }
    pose proof (linked_told x w2 w3 obj _ owner f o t b HL H12 Heb2 Hend) as Hlt.
    simpl in Hlt. etrans; [|etrans; [exact Hlt|]].
    - unfold told. setoid_rewrite held_some_lock.
      setoid_rewrite (grant_blocked_some_lock x); auto using held_lock_prop.
      apply (lk_wf _ _ _ _ _ _ _ HL).
    - case_decide; [done|]. by rewrite Et2, Et1. }
  pose proof (ev_wf _ _ _ _ _ _ Q) as Hwf1.
  destruct (FSAL_IS_ERROR fs) eqn:Efs.
  { intros _ Hs. apply state_error_convert_success in Hs. congruence. }
  match goal with |- context [match ?p with Some _ => _ | None => _ end] =>
    destruct p as [st|] eqn:Ep end.
  { intros _ Hs. simpl in Hs. subst st. case_decide; [|done].
    by apply find_blocked_status in Ep as [?|?]. }
  destruct (scan_locks env ctx owner lock false _ w1) as [st|id|id|ov] eqn:Es.
  - intros _ Hs. simpl in Hs. subst st. by apply scan_exit_status in Es.
  - destruct (scan_existing_spec _ _ _ _ _ _ _ _ Es) as (Hin & e & He & Hov & Hd).
    destruct (on_file_entry env x w1 obj id Hwf1 Hin) as (e' & oc & He' & Hoc & _).
    rewrite He in He'. injection He' as <-. rewrite Hoc in Hd.
    assert (sle_blocked e <> STATE_GRANTING) as Hns.
    { apply (Hng id e oc); [|by rewrite <- Ee|done..]. unfold on_file. by rewrite <- El. }
    simpl. rewrite decide_False by (rewrite He; simpl; congruence). intros _ _. rewrite Et1.
    clear Ep. case_decide as Hc; [|done]. destruct Hc as (-> & Eo & Hb). rewrite <- Et1.
    by apply (existing_told w1 obj owner lock id e oc).
  - pose proof (copy_conflict_core id w1) as Hc.
    destruct (copy_conflict id w1) as [out w2] eqn:Ec. simpl in Hc.
    pose proof (quiet_core env x w1 w2 Hwf1 Hc) as Q2.
    destruct (decide (blocking = STATE_NLM_BLOCKING)); [|by intros]. intros Hbd Hs.
    destruct (place_success env Hsame x ctx obj owner state blocking block_data lock
      FSAL_OP_LOCKB false true out w2 Hx (ev_wf _ _ _ _ _ _ Q2) Hok ltac:(done) Hbd Hs)
      as (w4 & HL & E4). rewrite E4 in *. destruct Hc as (C1 & _ & _ & C4 & _).
    by apply (Hplace w2 w4).
  - intros Hbd Hs.
    assert ((if decide (blocking = STATE_NLM_BLOCKING) then FSAL_OP_LOCKB else FSAL_OP_LOCK)
            <> FSAL_OP_UNLOCK) as Hop by (clear; by case_decide).
    destruct (place_success env Hsame x ctx obj owner state blocking block_data lock
      (if decide (blocking = STATE_NLM_BLOCKING) then FSAL_OP_LOCKB else FSAL_OP_LOCK)
      true ov no_out w1 Hx Hwf1 Hok Hop Hbd Hs) as (w4 & HL & E4).
    rewrite E4 in *. apply (Hplace w1 w4); try done. by apply quiet_refl.
Qed.

(** A request against a conflicting lock in force does not succeed. *)
Lemma lock_refused x ctx obj owner state blocking block_data lock w o t b :
  (forall j, x j <= 3) -> wf_with env x w -> excl env w obj -> lock_reclaim lock = false ->
  fs_supports ctx fso_lock_support_async_block = false ->
  holds w obj o t b -> ~ o ≈ owner -> lock_start lock <= b <= lock_end lock ->
  t = FSAL_LOCK_W \/ lock_type lock = FSAL_LOCK_W ->
  (state_lock env ctx obj owner state blocking block_data lock w).1.1 <> STATE_SUCCESS.
Proof.
  intros Hx Hwf Hex Hrc Hna Hh Hne Hb Hw. unfold state_lock.
  match goal with |- context [if negb (support_ex obj) then ?p else ?q] =>
    assert (wf_with env x (if negb (support_ex obj) then p else q).2 /\
      s_entries (if negb (support_ex obj) then p else q).2 = s_entries w /\
      s_lists (if negb (support_ex obj) then p else q).2 = s_lists w) as (Hwf1 & Ee & El);
    [|destruct (if negb (support_ex obj) then p else q) as [fs w1]] end.
  { destruct (negb _); [|done].
    split; [by apply fsal_open_quiet|]. unfold sal_fsal_open. by destruct (fsal_open _ _ _ _). }
  simpl in Hwf1, Ee, El.
  assert (forall o' t' b', holds w1 obj o' t' b' <-> holds w obj o' t' b') as Eh.
  { intros o' t' b'. unfold holds, held_as, holds_in, on_file. by rewrite Ee, El. }
  destruct (FSAL_IS_ERROR fs) eqn:Efs.
  { simpl. rewrite state_error_convert_success. congruence. }
  match goal with |- context [match ?p with Some _ => _ | None => _ end] =>
    destruct p as [st|] eqn:Ep end.
  { simpl. intros ->. case_decide; [|done]. by apply find_blocked_status in Ep as [?|?]. }
  clear Ep. destruct (scan_locks env ctx owner lock false _ w1) as [st|id|id|ov] eqn:Es; simpl.
  - intros ->. by apply scan_exit_status in Es.
  - intros _. destruct (scan_existing_spec _ _ _ _ _ _ _ _ Es) as (Hin & e & He & Hov & Hd).
    destruct (on_file_entry env x w1 obj id Hwf1 Hin) as (e' & oc & He' & Hoc & _).
    rewrite He in He'. injection He' as <-. rewrite Hoc in Hd. unfold entirely_overlaps in Hov.
    rewrite !andb_true_iff, !Z.leb_le, orb_true_iff, !bool_decide_eq_true in Hov.
    destruct Hov as (((Ho1 & Ho2) & Ht) & Hs).
    destruct (Hex b o t oc (lock_type lock)) as [H1 H2]; [done| | |tauto].
    + apply Eh. exists id, e. split_and!; try done; [by destruct Hs as [-> | ->]|].
      unfold in_range. lia.
    + intros E. apply Hne. etrans; [exact E|exact Hd].
  - destruct (copy_conflict id w1) as [out w2]. case_decide; [|done].
    unfold state_lock_place. rewrite Hna. done.
  - intros _. destruct (scan_allow_holds env x ctx obj owner lock false w1 ov Hwf1 Hrc Es o t b); 
      [by apply Eh|done|done|tauto].
Qed.

(** ** [state_test] *)

Lemma test_conflict ctx obj state owner lock w o t b :
  lock_ok lock ->
  holds w obj o t b -> ~ o ≈ owner -> lock_start lock <= b <= lock_end lock ->
  t = FSAL_LOCK_W \/ lock_type lock = FSAL_LOCK_W ->
  (state_test env ctx obj state (Some owner) lock w).1.1 <> STATE_SUCCESS.
Proof.
  intros Hok Hh Hne Hb Hw. unfold state_test.
  match goal with |- context [let '(_, _) := ?p in _] =>
    assert (s_entries p.2 = s_entries w /\ s_lists p.2 = s_lists w) as [Ee El];
    [|destruct p as [fs w1]] end.
  { destruct (_ && _); [|done]. unfold sal_fsal_open. by destruct (fsal_open _ _ _ _). }
  simpl in Ee, El. destruct (FSAL_IS_ERROR fs) eqn:Efs.
  { simpl. rewrite state_error_convert_success. congruence. }
  destruct (get_overlapping_entry env obj (Some owner) lock w1) as [id|] eqn:Eg.
  { by destruct (copy_conflict id w1). }
  exfalso. destruct Hh as (id & e & Hin & He & Hg & Ho & Ht & Hr).
  unfold get_overlapping_entry in Eg. rewrite El in Eg.
  rewrite <- Ee in He. pose proof (proj1 (find_entry_None _ _ _) Eg id e Hin He) as Hc.
  destruct (entry_conflicts_false env (Some owner) lock e Hc Hg b Hr Hb) as [H1 H2].
  - rewrite Ho. apply not_false_is_true. exact Hne.
  - destruct Hw; congruence.
Qed.
End bytes.
