(* ===== verification/Backends.v ===== *)
(** * Backends and owners to run the model with

    Concrete instances of the interface of Fsal.v and of the environment of
    the SAL, used to evaluate the operations on example inputs.  One
    backend grants everything and records the lock operations it is given,
    one answers from a list; they model no FSAL of the program. *)
From S2P Require Import Prelude Status Owners Fsal LockData.

(** One lock operation the backend was asked for. *)
Record logged := mk_logged {
  lg_obj : nat;
  lg_owner : option nat;
  lg_op : fsal_lock_op_t;
  lg_start : Z;
  lg_length : Z
}.

Definition log_state : Type := list logged.

(** [supports] answers for the options, [answer] gives the outcome of a lock
    operation after the ones recorded so far. *)
Definition log_fsal (supports : fsal_fsinfo_options_t -> bool) (ex : bool)
    (answer : log_state -> logged -> fsal_errors_t) : FsalOps log_state := {|
  fs_supports := fun _ o => supports o;
  support_ex := fun _ => ex;
  obj_type := fun _ => REGULAR_FILE;
  obj_status := fun _ _ => FSAL_O_RDWR;
  obj_open := fun _ _ f => (fsalstat ERR_FSAL_NO_ERROR 0, f);
  obj_close := fun _ f => (fsalstat ERR_FSAL_NO_ERROR 0, f);
  obj_reopen := fun _ _ f => (fsalstat ERR_FSAL_NO_ERROR 0, f);
  lock_op := fun obj owner op lock conflict f =>
    let l := mk_logged obj owner op (lock_start lock) (lock_length lock) in
    (fsalstat (answer f l) 0, conflict, f ++ [l]);
  lock_op2 := fun obj _ owner op lock conflict f =>
    let l := mk_logged obj owner op (lock_start lock) (lock_length lock) in
    (fsalstat (answer f l) 0, conflict, f ++ [l]);
  share_op := fun _ _ f => (fsalstat ERR_FSAL_NO_ERROR 0, f);
  obj_reopen2 := fun _ _ _ f => (fsalstat ERR_FSAL_NO_ERROR 0, f);
  fridgethr_submit := fun f => (0, f)
|}.

(** A backend that keeps lock owners apart and knows no asynchronous
    blocking locks. *)
Definition plain_options (o : fsal_fsinfo_options_t) : bool :=
  match o with
  | fso_lock_support | fso_lock_support_owner => true
  | _ => false
  end.

(** A backend without lock owners. *)
Definition ownerless_options (o : fsal_fsinfo_options_t) : bool :=
  match o with fso_lock_support => true | _ => false end.

(** A backend for shares: opens and share operations are answered from a
    list, and without error when it is used up.  The file is never seen
    open, so that every open reaches the backend. *)
Definition next_answer (f : list fsal_errors_t) : fsal_status_t * list fsal_errors_t :=
  match f with
  | e :: f => (fsalstat e 0, f)
  | [] => (fsalstat ERR_FSAL_NO_ERROR 0, [])
  end.

Definition scripted_fsal (share_support : bool) : FsalOps (list fsal_errors_t) := {|
  fs_supports := fun _ o => match o with fso_share_support => share_support | _ => false end;
  support_ex := fun _ => false;
  obj_type := fun _ => REGULAR_FILE;
  obj_status := fun _ _ => FSAL_O_CLOSED;
  obj_open := fun _ _ f => next_answer f;
  obj_close := fun _ f => (fsalstat ERR_FSAL_NO_ERROR 0, f);
  obj_reopen := fun _ _ f => (fsalstat ERR_FSAL_NO_ERROR 0, f);
  lock_op := fun _ _ _ _ conflict f => (fsalstat ERR_FSAL_NO_ERROR 0, conflict, f);
  lock_op2 := fun _ _ _ _ _ conflict f => (fsalstat ERR_FSAL_NO_ERROR 0, conflict, f);
  share_op := fun _ _ f => next_answer f;
  obj_reopen2 := fun _ _ _ f => (fsalstat ERR_FSAL_NO_ERROR 0, f);
  fridgethr_submit := fun f => (0, f)
|}.

(** Owner [p] is the NFSv4 lock owner of client [p]. *)
Definition example_owner (p : nat) : state_owner_t := {|
  so_type := STATE_LOCK_OWNER_NFSV4;
  so_owner_val := [];
  so_clientid := Z.of_nat p;
  so_client := None;
  so_nlm_svid := 0;
  proc_id := 0
|}.

Definition example_nlm_client : state_nlm_client_t := {|
  slc_nsm_client := None;
  slc_server_addr := AF_INET 0 0;
  slc_client_type := 0;
  slc_nlm_caller_name := []
|}.

Definition example_owners : owner_env := {|
  owner_at := example_owner;
  nlm_client_at := fun _ => example_nlm_client;
  nsm_client_at := fun _ => {| ssc_client := 0; ssc_nlm_caller_name := [] |};
  nsm_use_caller_name := false
|}.

Definition example_env : sal_env := mk_sal_env example_owners (fun _ => 0) (fun _ => true).

Lemma example_owners_wf : owner_env_wf example_owners.
Proof. done. Qed.

Definition example_fsal : fsal_state log_state := mk_fsal_state [] 0.

Definition example_lock (t : fsal_lock_t) (start len : Z) : fsal_lock_param_t := {|
  lock_sle_type := FSAL_POSIX_LOCK;
  lock_type := t;
  lock_start := start;
  lock_length := len;
  lock_reclaim := false
|}.

(** Block data as NLM fills it in. *)
Definition example_block : state_block_data_t :=
  mk_block STATE_GRANT_NONE STATE_BLOCK_NONE None None.
