(* ===== verification/LockProps.v ===== *)
(** * The correctness of the lock manager

    The properties of SAL/state_lock.c: exclusion, lifetime and indexing of
    the lock entries in every state a run reaches, and the effect of the
    operations byte by byte, each with an example it applies to. *)
From S2P Require Import Prelude Status Owners Fsal LockData LockList LockOps.
From S2P Require Import LockWf LockSem LockMerge LockSubtract LockFsalOps LockGrant.
From S2P Require Import LockExcl LockCancel LockInv LockReach LockBytes Backends.

(** ** An example run *)

#[local] Instance plain_fsal : FsalOps log_state := log_fsal plain_options false (fun _ _ => ERR_FSAL_NO_ERROR).

Definition lock_w1 : sal_request :=
  req_lock 7 100 1 None STATE_NON_BLOCKING None (example_lock FSAL_LOCK_W 0 10).
Definition lock_r2 : sal_request :=
  req_lock 7 100 2 None STATE_NON_BLOCKING None (example_lock FSAL_LOCK_R 20 10).

Definition example_init : sal log_state :=
  sal_init (mk_granted_cookie 0 0 0) example_fsal.
Definition example_w1 : sal log_state := perform example_env lock_w1 example_init.
Definition example_w2 : sal log_state := perform example_env lock_r2 example_w1.

Lemma example_lock_ok t start len :
  0 <= start -> 0 <= len -> start + len <= UINT64_MAX -> lock_ok (example_lock t start len).
Proof. intros. repeat split; simpl; lia. Qed.

Lemma example_lock_step obj owner t start len (w : sal log_state) :
  0 <= start -> 0 <= len -> start + len <= UINT64_MAX ->
  let r := req_lock 7 obj owner None STATE_NON_BLOCKING None (example_lock t start len) in
  bounded (perform example_env r w) ->
  runs example_env orderly w -> runs example_env orderly (perform example_env r w).
Proof.
  intros H1 H2 H3 r Hbd Hw. eapply runs_step; [exact Hw|]. constructor; [done| |done].
  repeat split; simpl; try lia; done.
Qed.

Lemma example_w1_runs : runs example_env orderly example_w1.
Proof. apply example_lock_step; [done|done|done|vm_compute; reflexivity|constructor]. Qed.

Lemma example_w2_runs : runs example_env orderly example_w2.
Proof. apply example_lock_step; [done|done|done|vm_compute; reflexivity|apply example_w1_runs]. Qed.

Definition lock_r1 : sal_request :=
  req_lock 7 100 1 None STATE_NON_BLOCKING None (example_lock FSAL_LOCK_R 20 10).
Definition example_w3 : sal log_state := perform example_env lock_r1 example_w2.

Lemma example_w3_runs : runs example_env orderly example_w3.
Proof. apply example_lock_step; [done|done|done|vm_compute; reflexivity|apply example_w2_runs]. Qed.

(** Block data for a request that may block. *)
Definition example_w4 : sal log_state := perform example_env (req_block 5 example_block) example_w3.

Lemma example_w4_runs : runs example_env orderly example_w4.
Proof.
  eapply runs_step; [apply example_w3_runs|]. constructor; [done|vm_compute; reflexivity|].
  vm_compute. reflexivity.
Qed.

Lemma example_w1_reachable : reachable example_env example_w1.
Proof. by eapply runs_mono, example_w1_runs. Qed.

Lemma example_w3_reachable : reachable example_env example_w3.
Proof. by eapply runs_mono, example_w3_runs. Qed.

Ltac held_compute := apply held_bool_spec; vm_compute; reflexivity.

(** ** Exclusion *)

(** C1: in every state of a run without reclaims, through exports whose
    backend leaves blocking locks to the server, and without retries of
    blocked locks on behalf of the backend (the three ways past the check of
    the lock list), when two different owners have locks in force on the same
    byte of a file, neither of them is a write lock.  Blocked locks that
    [grant_blocked_locks] grants are included. *)
Theorem lock_exclusion {F} {fsal : FsalOps F} env (w : sal F) f b o1 t1 o2 t2 :
  owner_env_wf (env_owners env) -> runs env orderly w ->
  holds w f o1 t1 b -> holds w f o2 t2 b ->
  different_owners (env_owners env) (Some o1) (Some o2) = true ->
  t1 <> FSAL_LOCK_W /\ t2 <> FSAL_LOCK_W.
Proof.
  intros He Hr H1 H2 Hd. apply (runs_excl env He w Hr f b o1 t1 o2 t2 H1 H2).
  unfold same_owner. congruence.
Qed.

Lemma lock_exclusion_witness :
  FSAL_LOCK_R <> FSAL_LOCK_W /\ FSAL_LOCK_R <> FSAL_LOCK_W.
Proof.
  apply (lock_exclusion example_env example_w3 100 25 1 FSAL_LOCK_R 2 FSAL_LOCK_R).
  - apply example_owners_wf.
  - apply example_w3_runs.
  - held_compute.
  - held_compute.
  - vm_compute. reflexivity.
Defined.

(** C21: in a run as above, a request that is no reclaim and that goes to a
    backend which leaves blocking locks to the server is never granted when it
    conflicts with a lock in force of another owner. *)
Theorem lock_conflict_refused {F} {fsal : FsalOps F} env (w : sal F)
    ctx obj owner state blocking block_data lock o t b :
  owner_env_wf (env_owners env) -> runs env orderly w -> lock_reclaim lock = false ->
  fs_supports ctx fso_lock_support_async_block = false ->
  (blocking = STATE_NLM_BLOCKING -> is_Some block_data) ->
  holds w obj o t b -> different_owners (env_owners env) (Some o) (Some owner) = true ->
  lock_start lock <= b <= lock_end lock ->
  t = FSAL_LOCK_W \/ lock_type lock = FSAL_LOCK_W ->
  (state_lock env ctx obj owner state blocking block_data lock w).1.1 <> STATE_SUCCESS.
Proof.
  intros He Hr Hrc Hna _ Hh Hd Hb Hw.
  eapply (lock_refused env (same_owner_equiv _ He) (fun _ => 0)); try done.
  - by eapply runs_wf.
  - by apply runs_excl.
  - unfold same_owner. congruence.
Qed.

(** Owner 1 holds bytes 0 to 9 for writing; the request of owner 2 blocks. *)
Lemma lock_conflict_refused_witness :
  (state_lock example_env 7 100 2 None STATE_NLM_BLOCKING (Some 5%nat)
     (example_lock FSAL_LOCK_R 5 10) example_w4).1.1 <> STATE_SUCCESS.
Proof.
  apply (lock_conflict_refused example_env example_w4 7 100 2 None STATE_NLM_BLOCKING (Some 5%nat)
           (example_lock FSAL_LOCK_R 5 10) 1 FSAL_LOCK_W 7).
  - apply example_owners_wf.
  - apply example_w4_runs.
  - reflexivity.
  - reflexivity.
  - by eexists.
  - held_compute.
  - vm_compute. reflexivity.
  - vm_compute. split; discriminate.
  - by left.
Defined.

(** ** The effect of the operations, byte by byte *)

(** C6: when [state_lock] grants a lock to an owner whose locks on the file
    and whose request end below the last offset 2^64-1, who has none of them
    still being granted, in a state where no owner has a byte of the file with
    two types, the owner has exactly the requested type on the requested
    bytes, and the locks of every other owner, of the other bytes and of the
    other files are as before; no byte ends up with two types.  (For locks up
    to the last offset it fails: [eof_lock_not_downgraded].) *)
Theorem lock_bytes {F} {fsal : FsalOps F} env (w : sal F)
    ctx obj owner state blocking block_data lock :
  owner_env_wf (env_owners env) -> reachable env w -> lock_ok lock ->
  one_type env w obj -> ends_below env obj owner w -> none_granting env w obj owner ->
  lock_end lock < UINT64_MAX ->
  let r := state_lock env ctx obj owner state blocking block_data lock w in
  let w' := r.2 in
  bounded w' -> r.1.1 = STATE_SUCCESS ->
  let in_request f o b :=
    f = obj /\ same_owner (env_owners env) o owner /\ lock_start lock <= b <= lock_end lock in
  (forall f o t b, told env w' f o t b <->
     (in_request f o b /\ t = lock_type lock) \/ (~ in_request f o b /\ told env w f o t b)) /\
  one_type env w' obj.
Proof.
  intros He Hr Hok H1 Heb Hng Hend.
  pose proof (fun f o t b => lock_told env (same_owner_equiv _ He) (fun _ => 0) ctx obj owner state
    blocking block_data lock w f o t b ltac:(cbn; lia)
    (runs_wf env He _ w Hr) Hok H1 Heb Hng Hend) as Hl.
  intros r w' Hbd Hst in_request. unfold w', r. split.
  - intros f o t b. rewrite (Hl f o t b Hbd Hst). unfold in_request. case_decide; tauto.
  - intros o t1 t2 b. rewrite (Hl obj o t1 b Hbd Hst), (Hl obj o t2 b Hbd Hst).
    case_decide; [congruence|]. apply H1.
Qed.

(** Owner 1 holds bytes 0 to 9 for writing and downgrades 5 to 14. *)
Lemma lock_bytes_witness :
  let w' := (state_lock example_env 7 100 1 None STATE_NON_BLOCKING None
               (example_lock FSAL_LOCK_R 5 10) example_w1).2 in
  one_type example_env w' 100.
Proof.
  assert (exists e, glist (s_lists example_w1) (lock_list 100) = [1%nat] /\
    s_entries example_w1 !! 1%nat = Some e /\ lock_end (sle_lock e) = 9 /\
    sle_blocked e = STATE_NON_BLOCKING) as (e & Hg & He & Hend & Hb)
    by (eexists; do 2 (split; [vm_compute; reflexivity|]); by split).
  refine (proj2 (lock_bytes example_env example_w1 7 100 1 None STATE_NON_BLOCKING None
    (example_lock FSAL_LOCK_R 5 10) example_owners_wf example_w1_reachable _ _ _ _ _ _ _)).
  - by apply example_lock_ok.
  - by apply (one_type_single example_env example_w1 100 1 e).
  - intros id e' o Hin He' _ _. rewrite (on_file_single example_w1 100 1 e id e' Hg He Hin He').
    by rewrite Hend.
  - intros id e' o Hin He' _ _. rewrite (on_file_single example_w1 100 1 e id e' Hg He Hin He').
    by rewrite Hb.
  - vm_compute. reflexivity.
  - vm_compute. reflexivity.
  - vm_compute. reflexivity.
Defined.

(** C7: [state_unlock] takes the range away from the locks the caller has
    been granted, splitting them where necessary, and changes nothing for
    other owners, bytes and files. *)
Theorem unlock_bytes {F} {fsal : FsalOps F} env (w : sal F) ctx obj state owner nsm_state lock :
  owner_env_wf (env_owners env) -> reachable env w -> lock_ok lock ->
  obj_type obj = REGULAR_FILE ->
  let w' := (state_unlock env ctx obj state (Some owner) false nsm_state lock w).2 in
  bounded w' ->
  forall f o t b, told env w' f o t b <->
    told env w f o t b /\
    ~ (f = obj /\ same_owner (env_owners env) o owner /\ lock_start lock <= b <= lock_end lock).
Proof.
  intros He Hr Hok Hty w' Hbd f o t b.
  apply (unlock_told env (same_owner_equiv _ He) (fun _ => 0)); try done.
  apply (runs_wf env He _ w Hr).
Qed.

Lemma unlock_bytes_witness :
  let w' := (state_unlock example_env 7 100 None (Some 1%nat) false 0
               (example_lock FSAL_LOCK_R 22 3) example_w3).2 in
  ~ told example_env w' 100 1 FSAL_LOCK_R 23 /\ told example_env w' 100 1 FSAL_LOCK_R 27.
Proof.
  pose proof (unlock_bytes example_env example_w3 7 100 None 1 0 (example_lock FSAL_LOCK_R 22 3)
    example_owners_wf example_w3_reachable ltac:(by apply example_lock_ok)
    eq_refl ltac:(vm_compute; reflexivity)) as Hu.
  cbv zeta in *. split; rewrite Hu.
  - intros [_ Hn]. apply Hn. split_and!; done.
  - split.
    + exists 1%nat. split; [done|]. held_compute.
    + intros (_ & _ & _ & Hb). by vm_compute in Hb.
Defined.

(** ** Lifetime and indexing of the lock entries *)

(** C19: in every state of a run, an entry on a lock list is allocated, and
    its reference count covers the list and every grant cookie that points
    to it; a cookie points to an allocated entry with a positive count.  So
    dropping a reference never frees an entry that is still pointed to. *)
Theorem entries_alive {F} {fsal : FsalOps F} env (w : sal F) :
  owner_env_wf (env_owners env) -> reachable env w ->
  (forall f id, on_file f w id -> exists e, s_entries w !! id = Some e /\
     1 + cookies_of (s_cookies w) id <= sle_ref_count e) /\
  (forall c ce, s_cookies w !! c = Some ce -> exists e,
     s_entries w !! sce_lock_entry ce = Some e /\ 1 <= sle_ref_count e).
Proof.
  intros He Hr. pose proof (runs_wf env He _ w Hr) as Hwf.
  destruct (wf_refs _ _ _ Hwf) as (R1 & R2 & _). split.
  - intros f id Hin. destruct (on_file_entry env _ w f id Hwf Hin) as (e & o & Hl & Ho & _).
    exists e. split; [done|]. specialize (R1 id e Hl). unfold own_ref in R1. rewrite Ho in R1. lia.
  - intros c ce Hc. destruct (R2 c ce Hc) as [e Hl]. exists e. split; [done|].
    specialize (R1 _ e Hl). pose proof (cookies_of_pos _ _ _ Hc).
    assert (0 <= own_ref e) by (unfold own_ref; by destruct (sle_owner e)). lia.
Qed.

Lemma entries_alive_witness :
  exists e, s_entries example_w3 !! 1%nat = Some e /\ 1 <= sle_ref_count e.
Proof.
  destruct (entries_alive example_env example_w3 example_owners_wf example_w3_reachable) as [Ha _].
  destruct (Ha 100 1)%nat as (e & He & Hr).
  - apply list_elem_of_In. vm_compute. auto.
  - exists e. split; [done|]. unfold cookies_of in Hr. lia.
Defined.

(** C20: in every state of a run the five ways to find a lock entry agree:
    an entry is on the list of an owner, of an export, of a [state_t] or of
    an NLM client exactly when it names it, a lock list holds each entry
    once and only entries of its own file that have an owner, and no entry
    is on two lists. *)
Theorem lists_agree {F} {fsal : FsalOps F} env (w : sal F) :
  owner_env_wf (env_owners env) -> reachable env w ->
  tracks sle_owner (s_owner_locks w) (s_entries w) /\
  tracks (client_key env) (s_client_locks w) (s_entries w) /\
  tracks export_key (s_export_locks w) (s_entries w) /\
  tracks state_key (s_state_locks w) (s_entries w) /\
  (forall f, NoDup (glist (s_lists w) (lock_list f))) /\
  (forall f id, on_file f w id -> exists e o,
     s_entries w !! id = Some e /\ sle_obj e = f /\ sle_owner e = Some o /\
     id ∈ glist (s_owner_locks w) o) /\
  (forall f g id, on_file f w id -> on_file g w id -> f = g).
Proof.
  intros He Hr. pose proof (runs_wf env He _ w Hr) as Hwf.
  destruct (wf_lists _ _ _ Hwf) as (L1 & L2 & L3).
  split_and!; try apply Hwf; [auto| |].
  - intros f id Hin. destruct (L1 _ _ Hin) as (e & Hl & [o Ho] & Hf).
    exists e, o. split_and!; auto. apply (wf_owners _ _ _ Hwf). eauto.
  - intros f g id Hf Hg. pose proof (L3 _ _ _ Hf Hg). congruence.
Qed.

Lemma lists_agree_witness :
  exists e, s_entries example_w3 !! 1%nat = Some e /\ 1%nat ∈ glist (s_owner_locks example_w3) 1%nat.
Proof.
  destruct (lists_agree example_env example_w3 example_owners_wf example_w3_reachable)
    as (Ho & _).
  assert (exists e, s_entries example_w3 !! 1%nat = Some e /\ sle_owner e = Some 1%nat)
    as (e & He & Hoe) by (eexists; split; [vm_compute; reflexivity|reflexivity]).
  exists e. split; [done|]. apply Ho. eauto.
Defined.

(** C33: [state_test] never reports success for a range on which another
    owner has a conflicting lock in force. *)
Theorem test_reports_conflict {F} {fsal : FsalOps F} env (w : sal F)
    ctx obj state owner lock o t b :
  owner_env_wf (env_owners env) -> lock_ok lock -> holds w obj o t b ->
  different_owners (env_owners env) (Some o) (Some owner) = true ->
  lock_start lock <= b <= lock_end lock ->
  t = FSAL_LOCK_W \/ lock_type lock = FSAL_LOCK_W ->
  (state_test env ctx obj state (Some owner) lock w).1.1 <> STATE_SUCCESS.
Proof.
  intros He Hok Hh Hd Hb Hw. eapply test_conflict; try done. unfold same_owner. congruence.
Qed.

Lemma test_reports_conflict_witness :
  (state_test example_env 7 100 None (Some 2%nat) (example_lock FSAL_LOCK_R 5 1) example_w3).1.1
  <> STATE_SUCCESS.
Proof.
  apply (test_reports_conflict example_env example_w3 7 100 None 2
           (example_lock FSAL_LOCK_R 5 1) 1 FSAL_LOCK_W 5).
  - apply example_owners_wf.
  - by apply example_lock_ok.
  - held_compute.
  - vm_compute. reflexivity.
  - done.
  - by left.
Defined.

(** C34: with a backend that does not tell lock owners apart, an unlock
    releases in the backend exactly the bytes of the range that no lock entry
    of the file covers any more, so the locks of the other owners stay. *)
Theorem ownerless_unlock_ranges {F} {fsal : FsalOps F} env (w : sal F) ctx obj lock :
  owner_env_wf (env_owners env) -> reachable env w -> lock_ok lock ->
  let r := do_unlock_no_owner env ctx obj lock w in
  bounded r.2 ->
  exists ranges,
    fsal_st (s_fsal r.2) = fsal_unlocks obj ranges (fsal_st (s_fsal w)) /\
    forall b, (exists l, l ∈ ranges /\ in_range l b) <->
      in_range lock b /\ ~ covered (glist (s_lists w) (lock_list obj)) w b.
Proof.
  intros He Hr Hok r Hbd. pose proof (runs_wf env He _ w Hr) as Hwf.
  destruct (do_unlock_no_owner_spec env (fun _ => 0) ltac:(cbn; lia) ctx obj lock w Hwf Hok Hbd)
    as (st & w' & ranges & E & _ & Hf & _ & Hb).
  exists ranges. unfold r. by rewrite E.
Qed.

Lemma covered_bool ids (w : sal log_state) b :
  covered ids w b <->
  existsb (fun id => match s_entries w !! id with
                     | Some e => (lock_start (sle_lock e) <=? b) && (b <=? lock_end (sle_lock e))
                     | None => false
                     end) ids = true.
Proof.
  unfold covered, in_range. rewrite existsb_exists. split.
  - intros (id & e & Hin & He & Hb). exists id. split; [by apply list_elem_of_In|].
    rewrite He, andb_true_iff, !Z.leb_le. done.
  - intros (id & Hin & Hb). apply list_elem_of_In in Hin.
    destruct (s_entries w !! id) as [e|] eqn:He; [|done].
    rewrite andb_true_iff, !Z.leb_le in Hb. by exists id, e.
Qed.

Lemma ownerless_unlock_ranges_witness :
  exists ranges : list fsal_lock_param_t,
    (exists l, l ∈ ranges /\ in_range l 15) /\ ~ (exists l, l ∈ ranges /\ in_range l 25).
Proof.
  destruct (ownerless_unlock_ranges example_env example_w3 7 100 (example_lock FSAL_LOCK_W 0 40)
    example_owners_wf example_w3_reachable ltac:(by apply example_lock_ok)
    ltac:(vm_compute; reflexivity)) as (ranges & _ & Hb).
  exists ranges. rewrite !Hb, !covered_bool. split.
  - split; [done|]. vm_compute. discriminate.
  - intros [_ Hn]. apply Hn. vm_compute. reflexivity.
Defined.

(** C35: the traversal of [merge_lock_entry], which appends to the list it
    walks, ends: it visits at most two entries for each entry of the list,
    and a larger bound gives the same result. *)
Theorem merge_terminates {F} {fsal : FsalOps F} env (w : sal F) obj lock_entry e o n :
  owner_env_wf (env_owners env) -> reachable env w ->
  s_entries w !! lock_entry = Some e -> sle_owner e = Some o ->
  bounded (merge_lock_entry env obj lock_entry w) ->
  let lst (w : sal F) := glist (s_lists w) (lock_list obj) in
  glist_for_each_safe (2 * length (lst w) + n) lst (merge_check_entry env obj lock_entry)
    (head (lst w)) w
  = merge_lock_entry env obj lock_entry w.
Proof.
  intros He Hr Hl Ho Hbd lst. pose proof (runs_wf env He _ w Hr) as Hwf.
  apply (merge_lock_entry_fuel env (same_owner_equiv _ He) obj lock_entry (fun _ => 0)
           o (lock_type (sle_lock e)) (sle_blocked e) (sle_lock e)); [|done].
  split; [done|cbn; lia|eauto 10|].
  eapply bounded_mono; [apply next_merge|exact Hbd].
Qed.

Lemma merge_terminates_witness :
  glist_for_each_safe 50
    (fun w : sal log_state => glist (s_lists w) (lock_list 100))
    (merge_check_entry example_env 100 1)
    (head (glist (s_lists example_w3) (lock_list 100))) example_w3
  = merge_lock_entry example_env 100 1 example_w3.
Proof.
  assert (exists e, s_entries example_w3 !! 1%nat = Some e /\ sle_owner e = Some 1%nat /\
    length (glist (s_lists example_w3) (lock_list 100)) = 3%nat) as (e & He & Ho & Hn)
    by (eexists; split; [vm_compute; reflexivity|split; [done|vm_compute; reflexivity]]).
  pose proof (merge_terminates example_env example_w3 100 1 e 1 44 example_owners_wf
    example_w3_reachable He Ho ltac:(vm_compute; reflexivity)) as Hm.
  cbv beta zeta in Hm. rewrite Hn in Hm. exact Hm.
Defined.
