(* ===== verification/LockFindings.v ===== *)
(** * What the lock manager does in corner cases

    Runs of the model of SAL/state_lock.c on inputs where the code departs
    from what its comments or its own bookkeeping intend. *)
From S2P Require Import Prelude Status Owners Fsal LockData LockList LockOps.
From S2P Require Import LockWf LockSem LockMerge LockInv LockReach LockBytes Backends.

Definition granting_fsal (o : fsal_fsinfo_options_t -> bool) : FsalOps log_state :=
  log_fsal o false (fun _ _ => ERR_FSAL_NO_ERROR).

Definition empty_sal : sal log_state := sal_init (mk_granted_cookie 0 0 0) example_fsal.

(** A write lock to the end of the file, then a read lock of the same owner
    on bytes 10 to 19. *)
Definition eof_run : sal log_state :=
  let _ := granting_fsal plain_options in
  perform example_env
    (req_lock 7 100 1 None STATE_NON_BLOCKING None (example_lock FSAL_LOCK_R 10 10))
    (perform example_env
       (req_lock 7 100 1 None STATE_NON_BLOCKING None (example_lock FSAL_LOCK_W 0 0)) empty_sal).

(** A lock to the end of the file is never merged or split, since
    [check_entry_end + 1] wraps to zero: after the downgrade of bytes 10 to
    19 the owner still holds them for writing as well. *)
Theorem eof_lock_not_downgraded :
  held_bool fully eof_run 100 1 FSAL_LOCK_W 15 = true /\
  held_bool fully eof_run 100 1 FSAL_LOCK_R 15 = true.
Proof. vm_compute. split; reflexivity. Qed.

(** A backend that reports a conflict, with a lock outside the server, for
    every lock request. *)
Definition busy_fsal : FsalOps log_state :=
  log_fsal plain_options false
    (fun _ l => match lg_op l with FSAL_OP_LOCK => ERR_FSAL_DELAY | _ => ERR_FSAL_NO_ERROR end).

(** A blocking request for an unlocked file, then the client gives up with
    an unlock. *)
Definition refs_run : sal log_state :=
  let _ := busy_fsal in
  foldl (fun w r => perform example_env r w) empty_sal
    [req_block 1 example_block;
     req_lock 7 100 1 None STATE_NLM_BLOCKING (Some 1%nat) (example_lock FSAL_LOCK_W 0 10);
     req_unlock 7 100 None (Some 1%nat) false 0 (example_lock FSAL_LOCK_W 0 10)].

(** The reference [state_lock] takes for a file with locks is not taken
    when the first lock blocks, but [state_unlock] drops it when the list
    empties: the file has lost a reference nobody took. *)
Theorem blocked_lock_drops_foreign_ref :
  glist (s_lists refs_run) (lock_list 100) = [] /\ s_refs refs_run !! ref_obj 100 = Some (-1).
Proof. vm_compute. split; reflexivity. Qed.

(** A backend that does not tell the owners of the server apart and where,
    until its third operation, somebody else has bytes 5 to 9. *)
#[local] Instance contended_fsal : FsalOps log_state :=
  log_fsal ownerless_options false
    (fun f l => if decide (lg_op l = FSAL_OP_LOCK /\ lg_start l = 0 /\ lg_length l = 10 /\
                           (length f < 4)%nat)
                then ERR_FSAL_DELAY else ERR_FSAL_NO_ERROR).

(** Owner 1 waits for bytes 0 to 9, which the backend refuses, and owner 2
    for bytes 0 to 4, behind owner 1.  A lock of owner 3 elsewhere in the file
    makes the server look at the waiting locks: owner 2 gets its lock.  Then
    the poller tries the lock of owner 1 again. *)
Definition poll_requests : list sal_request :=
  [req_block 1 example_block;
   req_lock 7 100 1 None STATE_NLM_BLOCKING (Some 1%nat) (example_lock FSAL_LOCK_W 0 10);
   req_block 2 example_block;
   req_lock 7 100 2 None STATE_NLM_BLOCKING (Some 2%nat) (example_lock FSAL_LOCK_W 0 5);
   req_poll;
   req_lock 7 100 3 None STATE_NON_BLOCKING None (example_lock FSAL_LOCK_W 50 10);
   req_upcall 1].

Definition poll_run : sal log_state :=
  foldl (fun w r => perform example_env r w) empty_sal poll_requests.

#[local] Instance lock_ok_dec l : Decision (lock_ok l).
Proof. unfold lock_ok. apply _. Defined.

#[local] Instance bounded_dec (w : sal log_state) : Decision (bounded w).
Proof. unfold bounded. apply _. Defined.

(** The conditions of [allowed] for these requests, computed. *)
Definition allowedb (r : sal_request) (w : sal log_state) : bool :=
  match r with
  | req_block b _ => bool_decide (s_blocks w !! b = None)
  | req_lock _ _ _ _ _ block_data lock =>
      bool_decide (lock_ok lock) &&
      match block_data with
      | Some b => bool_decide (is_Some (s_blocks w !! b)) &&
                  bool_decide (map_Forall (fun _ e => sle_block_data e <> Some b) (s_entries w))
      | None => match r with req_lock _ _ _ _ STATE_NON_BLOCKING _ _ => true | _ => false end
      end
  | req_poll => true
  | req_upcall b =>
      match s_blocks w !! b ≫= sbd_lock_entry with
      | Some le => match s_entries w !! le with
                   | Some e => bool_decide (le ∈ glist (s_lists w) (lock_list (sle_obj e)))
                   | None => false
                   end
      | None => true
      end
  | _ => false
  end.

Lemma allowedb_spec r w : allowedb r w = true -> allowed r w.
Proof.
  destruct r as [b|ctx obj o st bl [b|] lock| | | | | | | |b]; simpl; try done.
  - by intros ?%bool_decide_eq_true.
  - rewrite !andb_true_iff, !bool_decide_eq_true. intros (Hok & Hs & Hm).
    split_and!; [done| |done]. intros b' [= <-]. by split.
  - rewrite andb_true_iff, bool_decide_eq_true. intros [Hok Hb]. split_and!; [done|done|].
    by destruct bl.
  - intros Hl le E. rewrite E in Hl. destruct (s_entries w !! le) as [e|]; [|done].
    apply bool_decide_eq_true in Hl. by exists e.
Qed.

Fixpoint runnable (rs : list sal_request) (w : sal log_state) : bool :=
  match rs with
  | [] => true
  | r :: rs => let w' := perform example_env r w in
               allowedb r w && bool_decide (bounded w') && runnable rs w'
  end.

Lemma runnable_reachable rs w :
  runnable rs w = true -> reachable example_env w ->
  reachable example_env (foldl (fun w r => perform example_env r w) w rs).
Proof.
  revert w. induction rs as [|r rs IH]; intros w Hr Hw; [done|].
  simpl in *. apply andb_true_iff in Hr as [[Ha%allowedb_spec Hb%bool_decide_eq_true]%andb_true_iff Hr].
  apply IH; [done|]. eapply runs_step; [exact Hw|]. by constructor.
Qed.

(** A retry of a blocked lock on behalf of the backend does not look at the
    lock list, so with a backend that does not tell the owners of the server
    apart a run reaches a state where two owners have a write lock in force
    on the same byte. *)
Theorem polling_grants_conflict :
  reachable example_env poll_run /\
  holds poll_run 100 1 FSAL_LOCK_W 2 /\ holds poll_run 100 2 FSAL_LOCK_W 2 /\
  different_owners (env_owners example_env) (Some 1%nat) (Some 2%nat) = true.
Proof.
  split_and!.
  - apply runnable_reachable; [vm_compute; reflexivity|constructor].
  - apply held_bool_spec. vm_compute. reflexivity.
  - apply held_bool_spec. vm_compute. reflexivity.
  - vm_compute. reflexivity.
Qed.
