(* ===== verification/Acl.v ===== *)
(** * Access control entries

    The NFSv4 ACL data of include/fsal_types.h: the constants, the
    [fsal_ace_t] with the macros that test it, the attributes an access
    check reads and the encoding of an access request
    ([fsal_accessflags_t]). *)
From S2P Require Import Prelude Status Fsal.

Definition FSAL_ACE_TYPE_ALLOW : Z := 0.
Definition FSAL_ACE_TYPE_DENY : Z := 1.
Definition FSAL_ACE_TYPE_AUDIT : Z := 2.
Definition FSAL_ACE_TYPE_ALARM : Z := 3.

Definition FSAL_ACE_FLAG_FILE_INHERIT : Z := 0x00000001.
Definition FSAL_ACE_FLAG_DIR_INHERIT : Z := 0x00000002.
Definition FSAL_ACE_FLAG_NO_PROPAGATE : Z := 0x00000004.
Definition FSAL_ACE_FLAG_INHERIT_ONLY : Z := 0x00000008.
Definition FSAL_ACE_FLAG_SUCCESSFUL : Z := 0x00000010.
Definition FSAL_ACE_FLAG_FAILED : Z := 0x00000020.
Definition FSAL_ACE_FLAG_GROUP_ID : Z := 0x00000040.
Definition FSAL_ACE_FLAG_INHERITED : Z := 0x00000080.

Definition FSAL_ACE_IFLAG_MODE_GEN : Z := 0x10000000.
Definition FSAL_ACE_IFLAG_EXCLUDE_FILES : Z := 0x40000000.
Definition FSAL_ACE_IFLAG_EXCLUDE_DIRS : Z := 0x20000000.
Definition FSAL_ACE_IFLAG_SPECIAL_ID : Z := 0x80000000.

Definition FSAL_ACE_FLAG_INHERIT : Z :=
  Z.lor FSAL_ACE_FLAG_FILE_INHERIT
    (Z.lor FSAL_ACE_FLAG_DIR_INHERIT FSAL_ACE_FLAG_INHERIT_ONLY).

Definition FSAL_ACE_PERM_READ_DATA : Z := 0x00000001.
Definition FSAL_ACE_PERM_LIST_DIR : Z := 0x00000001.
Definition FSAL_ACE_PERM_WRITE_DATA : Z := 0x00000002.
Definition FSAL_ACE_PERM_ADD_FILE : Z := 0x00000002.
Definition FSAL_ACE_PERM_APPEND_DATA : Z := 0x00000004.
Definition FSAL_ACE_PERM_ADD_SUBDIRECTORY : Z := 0x00000004.
Definition FSAL_ACE_PERM_READ_NAMED_ATTR : Z := 0x00000008.
Definition FSAL_ACE_PERM_WRITE_NAMED_ATTR : Z := 0x00000010.
Definition FSAL_ACE_PERM_EXECUTE : Z := 0x00000020.
Definition FSAL_ACE_PERM_DELETE_CHILD : Z := 0x00000040.
Definition FSAL_ACE_PERM_READ_ATTR : Z := 0x00000080.
Definition FSAL_ACE_PERM_WRITE_ATTR : Z := 0x00000100.
Definition FSAL_ACE_PERM_DELETE : Z := 0x00010000.
Definition FSAL_ACE_PERM_READ_ACL : Z := 0x00020000.
Definition FSAL_ACE_PERM_WRITE_ACL : Z := 0x00040000.
Definition FSAL_ACE_PERM_WRITE_OWNER : Z := 0x00080000.
Definition FSAL_ACE_PERM_SYNCHRONIZE : Z := 0x00100000.

Definition FSAL_ACE_SPECIAL_OWNER : Z := 1.
Definition FSAL_ACE_SPECIAL_GROUP : Z := 2.
Definition FSAL_ACE_SPECIAL_EVERYONE : Z := 3.

(** [fsal_ace_t]; the union [who] of a [uid_t] and a [gid_t] is one
    number.  An [fsal_acl_t] is the list of its [naces] entries. *)
Record fsal_ace_t := mk_ace {
  ace_type : Z;
  ace_perm : Z;
  ace_flag : Z;
  ace_iflag : Z;
  ace_who : Z
}.

Definition fsal_acl_t : Type := list fsal_ace_t.

(** [struct user_cred]: [caller_garray] has [caller_glen] elements. *)
Record user_cred := mk_cred {
  caller_uid : Z;
  caller_gid : Z;
  caller_garray : list Z
}.

(** The attributes of [struct attrlist] that the access checks and the
    ACL conversions read and write. *)
Record attrlist := mk_attrs {
  at_mask : Z;
  at_type : object_file_type_t;
  at_owner : Z;
  at_group : Z;
  at_mode : Z;
  at_acl : option fsal_acl_t
}.

Definition IS_FSAL_ACE_BIT (word bit : Z) : bool := negb (Z.land word bit =? 0).
Definition IS_FSAL_ACE_FLAG (ace : fsal_ace_t) (bit : Z) : bool :=
  IS_FSAL_ACE_BIT (ace_flag ace) bit.

Definition IS_FSAL_ACE_ALLOW (ace : fsal_ace_t) : bool := ace_type ace =? FSAL_ACE_TYPE_ALLOW.
Definition IS_FSAL_ACE_DENY (ace : fsal_ace_t) : bool := ace_type ace =? FSAL_ACE_TYPE_DENY.
Definition IS_FSAL_ACE_PERM (ace : fsal_ace_t) : bool :=
  IS_FSAL_ACE_ALLOW ace || IS_FSAL_ACE_DENY ace.

Definition IS_FSAL_ACE_FILE_INHERIT ace := IS_FSAL_ACE_FLAG ace FSAL_ACE_FLAG_FILE_INHERIT.
Definition IS_FSAL_ACE_DIR_INHERIT ace := IS_FSAL_ACE_FLAG ace FSAL_ACE_FLAG_DIR_INHERIT.
Definition IS_FSAL_ACE_NO_PROPAGATE ace := IS_FSAL_ACE_FLAG ace FSAL_ACE_FLAG_NO_PROPAGATE.
Definition IS_FSAL_ACE_INHERIT_ONLY ace := IS_FSAL_ACE_FLAG ace FSAL_ACE_FLAG_INHERIT_ONLY.
Definition IS_FSAL_ACE_GROUP_ID ace := IS_FSAL_ACE_FLAG ace FSAL_ACE_FLAG_GROUP_ID.
Definition IS_FSAL_ACE_INHERIT ace := IS_FSAL_ACE_FLAG ace FSAL_ACE_FLAG_INHERIT.

Definition IS_FSAL_ACE_SPECIAL_OWNER (ace : fsal_ace_t) : bool :=
  ace_who ace =? FSAL_ACE_SPECIAL_OWNER.
Definition IS_FSAL_ACE_SPECIAL_GROUP (ace : fsal_ace_t) : bool :=
  ace_who ace =? FSAL_ACE_SPECIAL_GROUP.
Definition IS_FSAL_ACE_SPECIAL_EVERYONE (ace : fsal_ace_t) : bool :=
  ace_who ace =? FSAL_ACE_SPECIAL_EVERYONE.
Definition IS_FSAL_ACE_SPECIAL (ace : fsal_ace_t) : bool :=
  IS_FSAL_ACE_SPECIAL_OWNER ace || IS_FSAL_ACE_SPECIAL_GROUP ace
  || IS_FSAL_ACE_SPECIAL_EVERYONE ace.

Definition IS_FSAL_ACE_MODE_GEN (ace : fsal_ace_t) : bool :=
  IS_FSAL_ACE_BIT (ace_iflag ace) FSAL_ACE_IFLAG_MODE_GEN.
Definition IS_FSAL_ACE_SPECIAL_ID (ace : fsal_ace_t) : bool :=
  IS_FSAL_ACE_BIT (ace_iflag ace) FSAL_ACE_IFLAG_SPECIAL_ID.
Definition IS_FSAL_FILE_APPLICABLE (ace : fsal_ace_t) : bool :=
  negb (IS_FSAL_ACE_BIT (ace_iflag ace) FSAL_ACE_IFLAG_EXCLUDE_FILES).
Definition IS_FSAL_DIR_APPLICABLE (ace : fsal_ace_t) : bool :=
  negb (IS_FSAL_ACE_BIT (ace_iflag ace) FSAL_ACE_IFLAG_EXCLUDE_DIRS).

(** [fsal_accessflags_t]. *)
Definition FSAL_R_OK : Z := 0x04000000.
Definition FSAL_W_OK : Z := 0x02000000.
Definition FSAL_X_OK : Z := 0x01000000.
Definition FSAL_ACCESS_FLAG_BIT_MASK : Z := 0x80000000.
Definition FSAL_MODE_BIT_MASK : Z := 0x07000000.
Definition FSAL_ACE4_BIT_MASK : Z := 0x50FFFFFF.
Definition FSAL_MODE_MASK_FLAG : Z := 0x00000000.
Definition FSAL_ACE4_MASK_FLAG : Z := 0x80000000.
Definition FSAL_ACE4_PERM_CONTINUE : Z := 0x40000000.
Definition FSAL_ACE4_REQ_FLAG : Z := 0x10000000.

Definition FSAL_MODE_MASK (access : Z) : Z := Z.land access FSAL_MODE_BIT_MASK.
Definition FSAL_ACE4_MASK (access : Z) : Z := Z.land access FSAL_ACE4_BIT_MASK.
Definition FSAL_MODE_MASK_SET (access : Z) : Z := Z.lor access FSAL_MODE_MASK_FLAG.
Definition FSAL_ACE4_MASK_SET (access : Z) : Z := Z.lor access FSAL_ACE4_MASK_FLAG.
Definition IS_FSAL_ACE4_MASK_VALID (access : Z) : bool :=
  Z.land access FSAL_ACCESS_FLAG_BIT_MASK =? FSAL_ACE4_MASK_FLAG.
Definition IS_FSAL_ACE4_REQ (access : Z) : bool :=
  negb (Z.land access FSAL_ACE4_REQ_FLAG =? 0).

(** [mode_t] bits of <sys/stat.h>: 0400, 0200, 0100 and so on. *)
Definition S_IRUSR : Z := 0x100.
Definition S_IWUSR : Z := 0x080.
Definition S_IXUSR : Z := 0x040.
Definition S_IRGRP : Z := 0x020.
Definition S_IWGRP : Z := 0x010.
Definition S_IXGRP : Z := 0x008.
Definition S_IROTH : Z := 0x004.
Definition S_IWOTH : Z := 0x002.
Definition S_IXOTH : Z := 0x001.
Definition S_IRWXU : Z := 0x1C0.
Definition S_IRWXG : Z := 0x038.
Definition S_IRWXO : Z := 0x007.
