(* ===== verification/Access.v ===== *)
(** * Access checks

    FSAL/access_check.c: whether the credentials of a caller allow an
    access to an object, by its NFSv4 ACL ([fsal_check_access_acl]) or by
    its mode bits ([fsal_check_access_no_acl]), and the choice between the
    two ([fsal_test_access]).

    The output parameters [allowed] and [denied] are pointers that may be
    NULL: [None] then, and otherwise the value they point to.  The compile
    time option ENABLE_RFC_ACL is the parameter [rfc_acl]. *)
From S2P Require Import Prelude Status Fsal Acl.

Definition fsal_check_ace_owner (uid : Z) (creds : user_cred) : bool := caller_uid creds =? uid.

Definition fsal_check_ace_group (gid : Z) (creds : user_cred) : bool :=
  (caller_gid creds =? gid) || existsb (fun g => g =? gid) (caller_garray creds).

Definition fsal_check_ace_matches (pace : fsal_ace_t) (creds : user_cred)
    (is_owner is_group : bool) : bool :=
  if IS_FSAL_ACE_SPECIAL_ID pace then
    if ace_who pace =? FSAL_ACE_SPECIAL_OWNER then is_owner
    else if ace_who pace =? FSAL_ACE_SPECIAL_GROUP then is_group
    else if ace_who pace =? FSAL_ACE_SPECIAL_EVERYONE then true
    else false
  else if IS_FSAL_ACE_GROUP_ID pace then fsal_check_ace_group (ace_who pace) creds
  else fsal_check_ace_owner (ace_who pace) creds.

Definition fsal_check_ace_applicable (pace : fsal_ace_t) (creds : user_cred)
    (is_dir is_owner is_group is_root : bool) : bool :=
  let is_file := negb is_dir in
  if IS_FSAL_ACE_INHERIT_ONLY pace then false else
  if is_file && negb (IS_FSAL_FILE_APPLICABLE pace) then false else
  if negb is_file && negb (IS_FSAL_DIR_APPLICABLE pace) then false else
  is_root || fsal_check_ace_matches pace creds is_owner is_group.

(** The permissions whose refusal is reported as EPERM. *)
Definition attr_perms : Z :=
  Z.lor FSAL_ACE_PERM_WRITE_ATTR (Z.lor FSAL_ACE_PERM_WRITE_ACL FSAL_ACE_PERM_WRITE_OWNER).

(** How the loop over the entries ends: with a return, or at its end or a
    break with what is still missing. *)
Inductive acl_loop :=
| acl_return (status : fsal_status_t) (allowed denied : option Z)
| acl_done (missing_access : Z) (allowed denied : option Z).

Section acl.
Context (rfc_acl : bool).

(** The status for refused permissions. *)
Definition refusal (refused : Z) : fsal_status_t :=
  if negb rfc_acl && negb (Z.land refused attr_perms =? 0)
  then fsalstat ERR_FSAL_PERM 0 else fsalstat ERR_FSAL_ACCESS 0.

Fixpoint check_aces (creds : user_cred) (v4mask : Z) (is_dir is_owner is_group is_root : bool)
    (aces : list fsal_ace_t) (missing_access : Z) (allowed denied : option Z) : acl_loop :=
  match aces with
  | [] => acl_done missing_access allowed denied
  | pace :: aces =>
      let continue := check_aces creds v4mask is_dir is_owner is_group is_root aces in
      if negb (IS_FSAL_ACE_ALLOW pace) && negb (IS_FSAL_ACE_DENY pace)
      then continue missing_access allowed denied else
      if fsal_check_ace_applicable pace creds is_dir is_owner is_group is_root then
        if IS_FSAL_ACE_ALLOW pace then
          let tperm := match denied with
                       | Some d => Z.land (ace_perm pace) (Z.lnot d)
                       | None => ace_perm pace
                       end in
          let allowed := (fun a => Z.lor a (Z.land v4mask tperm)) <$> allowed in
          let missing_access :=
            Z.land missing_access (Z.lnot (Z.land tperm missing_access)) in
          if missing_access =? 0 then acl_done missing_access allowed denied
          else continue missing_access allowed denied
        else if negb (Z.land (ace_perm pace) missing_access =? 0) && negb is_root then
          let refused := Z.land (ace_perm pace) missing_access in
          let denied := (fun d => Z.lor d (Z.land v4mask (ace_perm pace))) <$> denied in
          if bool_decide (denied = None) || (Z.land v4mask FSAL_ACE4_PERM_CONTINUE =? 0)
          then acl_return (refusal refused) allowed denied
          else
            let missing_access := Z.land missing_access (Z.lnot refused) in
            if missing_access =? 0 then acl_done missing_access allowed denied
            else continue missing_access allowed denied
        else continue missing_access allowed denied
      else continue missing_access allowed denied
  end.

(** The permissions an owner always has. *)
Definition owner_perms : Z :=
  Z.lor FSAL_ACE_PERM_WRITE_ACL
    (Z.lor FSAL_ACE_PERM_READ_ACL
       (Z.lor FSAL_ACE_PERM_WRITE_ATTR FSAL_ACE_PERM_READ_ATTR)).

(** The result carries what [allowed] and [denied] point to at the end. *)
Definition fsal_check_access_acl (creds : user_cred) (v4mask : Z) (allowed denied : option Z)
    (attrs : attrlist) : fsal_status_t * option Z * option Z :=
  let allowed := (fun _ => 0) <$> allowed in
  let denied := (fun _ => 0) <$> denied in
  match at_acl attrs with
  | None => (fsalstat ERR_FSAL_NO_ACE 0, allowed, denied)
  | Some aces =>
      let missing_access := Z.land v4mask (Z.lnot FSAL_ACE4_PERM_CONTINUE) in
      if missing_access =? 0 then (fsalstat ERR_FSAL_NO_ERROR 0, allowed, denied) else
      let is_dir := bool_decide (at_type attrs = DIRECTORY) in
      let is_root := caller_uid creds =? 0 in
      if is_root && is_dir
      then (fsalstat ERR_FSAL_NO_ERROR 0, (fun _ => v4mask) <$> allowed, denied) else
      let missing_access :=
        if is_root then Z.land missing_access FSAL_ACE_PERM_EXECUTE else missing_access in
      let allowed :=
        if is_root then (fun _ => Z.land v4mask (Z.lnot FSAL_ACE_PERM_EXECUTE)) <$> allowed
        else allowed in
      if is_root && (missing_access =? 0)
      then (fsalstat ERR_FSAL_NO_ERROR 0, allowed, denied) else
      let uid := u32 (at_owner attrs) in
      let gid := u32 (at_group attrs) in
      let is_owner := fsal_check_ace_owner uid creds in
      let is_group := fsal_check_ace_group gid creds in
      let allowed :=
        if is_owner then (fun a => Z.lor a (Z.land v4mask owner_perms)) <$> allowed
        else allowed in
      let missing_access :=
        if is_owner then
          Z.land
            (Z.land missing_access
               (Z.lnot (Z.lor FSAL_ACE_PERM_WRITE_ACL FSAL_ACE_PERM_READ_ACL)))
            (Z.lnot (Z.lor FSAL_ACE_PERM_WRITE_ATTR FSAL_ACE_PERM_READ_ATTR))
        else missing_access in
      if is_owner && (missing_access =? 0)
      then (fsalstat ERR_FSAL_NO_ERROR 0, allowed, denied) else
      match check_aces creds v4mask is_dir is_owner is_group is_root aces
              missing_access allowed denied with
      | acl_return status allowed denied => (status, allowed, denied)
      | acl_done missing_access allowed denied =>
          let status :=
            if IS_FSAL_ACE4_REQ v4mask && negb (missing_access =? 0)
            then fsalstat ERR_FSAL_NO_ACE 0
            else if negb (missing_access =? 0)
                    || match denied with Some d => negb (d =? 0) | None => false end
            then refusal missing_access
            else fsalstat ERR_FSAL_NO_ERROR 0 in
          (status, allowed, denied)
      end
  end.
End acl.

Definition fsal_check_access_no_acl (creds : user_cred) (access_type : Z)
    (allowed denied : option Z) (attrs : attrlist) : fsal_status_t * option Z * option Z :=
  let set (v : Z) (o : option Z) := (fun _ => v) <$> o in
  let allowed := set 0 allowed in
  let denied := set 0 denied in
  if access_type =? 0 then (fsalstat ERR_FSAL_NO_ERROR 0, allowed, denied) else
  let uid := u32 (at_owner attrs) in
  let gid := u32 (at_group attrs) in
  let mode := at_mode attrs in
  if caller_uid creds =? 0 then
    if decide (at_type attrs = DIRECTORY)
    then (fsalstat ERR_FSAL_NO_ERROR 0, set access_type allowed, denied) else
    let rc := (Z.land access_type FSAL_X_OK =? 0)
              || negb (Z.land mode (Z.lor S_IXOTH (Z.lor S_IXUSR S_IXGRP)) =? 0) in
    if negb rc
    then (fsalstat ERR_FSAL_ACCESS 0, set (Z.land access_type (Z.lnot FSAL_X_OK)) allowed,
           set (Z.land access_type FSAL_X_OK) denied)
    else (fsalstat ERR_FSAL_NO_ERROR 0, set access_type allowed, denied)
  else
  let mode :=
    if caller_uid creds =? uid then Z.shiftr mode 6
    else if (caller_gid creds =? gid) || existsb (fun g => g =? gid) (caller_garray creds)
    then Z.shiftr mode 3 else mode in
  let mask :=
    Z.lor (if negb (Z.land mode S_IROTH =? 0) then FSAL_R_OK else 0)
      (Z.lor (if negb (Z.land mode S_IWOTH =? 0) then FSAL_W_OK else 0)
         (if negb (Z.land mode S_IXOTH =? 0) then FSAL_X_OK else 0)) in
  let status := if Z.land mask access_type =? access_type
                then fsalstat ERR_FSAL_NO_ERROR 0 else fsalstat ERR_FSAL_ACCESS 0 in
  (status, set (Z.land mask access_type) allowed, set (Z.land (Z.lnot mask) access_type) denied).

(** The object's attributes come from the backend: [getattrs] is its
    answer. *)
Definition fsal_test_access (rfc_acl : bool) (creds : user_cred)
    (getattrs : fsal_status_t * attrlist) (access_type : Z) (allowed denied : option Z)
    (owner_skip : bool) : fsal_status_t * option Z * option Z :=
  let '(status, attrs) := getattrs in
  if FSAL_IS_ERROR status then (status, allowed, denied) else
  if owner_skip && (at_owner attrs =? caller_uid creds)
  then (fsalstat ERR_FSAL_NO_ERROR 0, allowed, denied) else
  if IS_FSAL_ACE4_REQ access_type
     || (bool_decide (is_Some (at_acl attrs)) && IS_FSAL_ACE4_MASK_VALID access_type)
  then fsal_check_access_acl rfc_acl creds (FSAL_ACE4_MASK access_type) allowed denied attrs
  else fsal_check_access_no_acl creds (FSAL_MODE_MASK access_type) allowed denied attrs.

(** ** The meaning of an ACL *)

(** The verdict of the ACL on one permission bit: that of the first entry
    that applies to the caller and mentions the bit. *)
Fixpoint first_match (creds : user_cred) (is_dir is_owner is_group : bool)
    (aces : list fsal_ace_t) (n : Z) : option bool :=
  match aces with
  | [] => None
  | pace :: aces =>
      if IS_FSAL_ACE_PERM pace
         && fsal_check_ace_applicable pace creds is_dir is_owner is_group false
         && Z.testbit (ace_perm pace) n
      then Some (IS_FSAL_ACE_ALLOW pace)
      else first_match creds is_dir is_owner is_group aces n
  end.

Section spec.
Context (rfc_acl : bool) (creds : user_cred) (v4mask : Z) (is_dir is_owner is_group : bool).

#[local] Abbreviation verdict := (first_match creds is_dir is_owner is_group).
#[local] Abbreviation loop aces m a d :=
  (check_aces rfc_acl creds v4mask is_dir is_owner is_group false aces m a d).

Lemma refusal_error refused : FSAL_IS_ERROR (refusal rfc_acl refused) = true.
Proof. unfold refusal. by destruct (_ && _). Qed.

(** Evaluation that stops at the first refusal. *)
Definition stops (denied : option Z) : Prop :=
  denied = None \/ (denied = Some 0 /\ Z.land v4mask FSAL_ACE4_PERM_CONTINUE = 0).

(** What is still missing after an entry that allows [perm]. *)
Lemma testbit_remove missing perm n :
  0 <= n ->
  Z.testbit (Z.land missing (Z.lnot (Z.land perm missing))) n =
  Z.testbit missing n && negb (Z.testbit perm n).
Proof.
  intros Hn. autorewrite with bits. by destruct (Z.testbit missing n), (Z.testbit perm n).
Qed.

Lemma check_aces_spec aces missing allowed denied :
  stops denied ->
  match loop aces missing allowed denied with
  | acl_return status _ _ =>
      FSAL_IS_ERROR status = true /\
      exists n, 0 <= n /\ Z.testbit missing n = true /\ verdict aces n = Some false
  | acl_done m _ d =>
      d = denied /\
      (m = 0 <-> forall n, 0 <= n -> Z.testbit missing n = true -> verdict aces n = Some true)
  end.
Proof.
  intros Hst. revert missing allowed. induction aces as [|pace aces IH]; intros missing allowed; simpl.
  { split; [done|]. rewrite zero_bits. split; intros Hm n Hn.
    - rewrite Hm by done. done.
    - apply not_true_is_false. intros Hb. by specialize (Hm n Hn Hb). }
  unfold IS_FSAL_ACE_PERM. destruct (IS_FSAL_ACE_ALLOW pace) eqn:Ea; simpl.
  - destruct (fsal_check_ace_applicable _ _ _ _ _ _); [|apply IH].
    set (tperm := match denied with Some _ => _ | None => _ end).
    assert (tperm = ace_perm pace) as ->.
    { unfold tperm. destruct Hst as [->|[-> _]]; [done|]. by_bits. by rewrite andb_true_r. }
    set (m := Z.land missing _).
    pose proof (fun n Hn => testbit_remove missing (ace_perm pace) n Hn) as Hm. fold m in Hm.
    destruct (Z.eqb_spec m 0) as [E|_].
    { split; [done|]. split; [|done]. intros _ n Hn Hb. specialize (Hm n Hn).
      rewrite E, Z.testbit_0_l, Hb in Hm. by destruct (Z.testbit (ace_perm pace) n). }
    specialize (IH m ((fun a => Z.lor a (Z.land v4mask (ace_perm pace))) <$> allowed)).
    destruct (check_aces _ _ _ _ _ _ _ aces m _ denied) as [st a d|m' a d].
    + destruct IH as (He & n & Hn & Hb & Hv). split; [done|]. exists n.
      rewrite Hm, andb_true_iff in Hb by done. destruct Hb as [Hb Hp].
      apply negb_true_iff in Hp. rewrite Hp. done.
    + destruct IH as [-> IH]. split; [done|]. rewrite IH. split; intros Hall n Hn Hb.
      * specialize (Hm n Hn). specialize (Hall n Hn). rewrite Hm, Hb in Hall.
        destruct (Z.testbit (ace_perm pace) n); auto.
      * rewrite Hm, andb_true_iff, negb_true_iff in Hb by done. destruct Hb as [Hb Hp].
        specialize (Hall n Hn Hb). by rewrite Hp in Hall.
  - destruct (IS_FSAL_ACE_DENY pace); simpl; [|apply IH].
    destruct (fsal_check_ace_applicable _ _ _ _ _ _); [|apply IH]. simpl. rewrite andb_true_r.
    destruct (Z.eqb_spec (Z.land (ace_perm pace) missing) 0) as [E|Hne]; simpl.
    + assert (forall n, 0 <= n -> Z.testbit missing n = true ->
                Z.testbit (ace_perm pace) n = false) as Hp.
      { intros n Hn Hb. apply not_true_is_false. intros Hp.
        apply (proj2 (land_common (ace_perm pace) missing)); eauto. }
      specialize (IH missing allowed).
      destruct (check_aces _ _ _ _ _ _ _ aces missing _ denied) as [st a d|m' a d].
      * destruct IH as (He & n & Hn & Hb & Hv). split; [done|]. exists n. by rewrite Hp.
      * destruct IH as [-> IH]. split; [done|]. rewrite IH.
        split; intros Hall n Hn Hb; specialize (Hall n Hn Hb); by rewrite Hp in *.
    + assert (bool_decide ((fun d => Z.lor d (Z.land v4mask (ace_perm pace))) <$> denied = None)
        || (Z.land v4mask FSAL_ACE4_PERM_CONTINUE =? 0) = true) as ->.
      { destruct Hst as [->|[_ ->]]; [done|]. apply orb_true_r. }
      split; [apply refusal_error|]. apply land_common in Hne as (n & Hn & Hp & Hb).
      exists n. by rewrite Hp.
Qed.

(** The same for root, which entries that deny do not stop. *)
Definition allow_somewhere (aces : list fsal_ace_t) (n : Z) : Prop :=
  exists pace, pace ∈ aces /\ IS_FSAL_ACE_ALLOW pace = true /\
    fsal_check_ace_applicable pace creds is_dir is_owner is_group true = true /\
    Z.testbit (ace_perm pace) n = true.

Lemma check_aces_root aces missing allowed denied :
  denied = None \/ denied = Some 0 ->
  exists m a, check_aces rfc_acl creds v4mask is_dir is_owner is_group true aces
                missing allowed denied = acl_done m a denied /\
    (m = 0 <-> forall n, 0 <= n -> Z.testbit missing n = true -> allow_somewhere aces n).
Proof.
  intros Hd. revert missing allowed. induction aces as [|pace aces IH]; intros missing allowed; simpl.
  { exists missing, allowed. split; [done|]. rewrite zero_bits. split; intros Hm n Hn.
    - rewrite Hm by done. done.
    - apply not_true_is_false. intros Hb.
      destruct (Hm n Hn Hb) as (pace & Hin & _). by apply elem_of_nil in Hin. }
  assert (forall n, (IS_FSAL_ACE_ALLOW pace = true ->
             fsal_check_ace_applicable pace creds is_dir is_owner is_group true = true ->
             Z.testbit (ace_perm pace) n = false) ->
           allow_somewhere (pace :: aces) n <-> allow_somewhere aces n) as Hskip.
  { intros n Hn. split.
    - intros (p & [->|Hin]%elem_of_cons & Ha & Hp & Hb); [rewrite Hn in Hb; done|].
      exists p. auto.
    - intros (p & Hin & Hr). exists p. split; [by right|done]. }
  assert (forall m', exists m a, check_aces rfc_acl creds v4mask is_dir is_owner is_group true aces
            m' allowed denied = acl_done m a denied /\
          (m = 0 <-> forall n, 0 <= n -> Z.testbit m' n = true -> allow_somewhere aces n))
    as IH' by auto.
  destruct (IS_FSAL_ACE_ALLOW pace) eqn:Ea; simpl.
  2:{ assert (exists m a, check_aces rfc_acl creds v4mask is_dir is_owner is_group true aces
            missing allowed denied = acl_done m a denied /\
          (m = 0 <-> forall n, 0 <= n -> Z.testbit missing n = true ->
             allow_somewhere (pace :: aces) n)) as Hr.
      { destruct (IH' missing) as (m & a & E & Hm). exists m, a. split; [done|]. rewrite Hm.
        by setoid_rewrite Hskip. }
      rewrite andb_false_r. by repeat case_match. }
  destruct (fsal_check_ace_applicable pace _ _ _ _ _) eqn:Ep.
  2:{ destruct (IH' missing) as (m & a & E & Hm). exists m, a. split; [done|]. rewrite Hm.
      by setoid_rewrite Hskip. }
  set (tperm := match denied with Some _ => _ | None => _ end).
  assert (tperm = ace_perm pace) as ->.
  { unfold tperm. destruct Hd as [->| ->]; [done|]. by_bits. by rewrite andb_true_r. }
  set (m := Z.land missing _).
  pose proof (fun n Hn => testbit_remove missing (ace_perm pace) n Hn) as Hm. fold m in Hm.
  assert (forall n, Z.testbit (ace_perm pace) n = true -> allow_somewhere (pace :: aces) n) as Hhd.
  { intros n Hb. exists pace. split; [by left|done]. }
  destruct (Z.eqb_spec m 0) as [E|_].
  { do 2 eexists. split; [done|]. split; [|done]. intros _ n Hn Hb. apply Hhd.
    specialize (Hm n Hn). rewrite E, Z.testbit_0_l, Hb in Hm.
    by destruct (Z.testbit (ace_perm pace) n). }
  destruct (IH m ((fun a => Z.lor a (Z.land v4mask (ace_perm pace))) <$> allowed))
    as (m' & a & E & Hm'). exists m', a. split; [done|]. rewrite Hm'.
  split; intros Hall n Hn Hb.
  - destruct (Z.testbit (ace_perm pace) n) eqn:Hp; [auto|]. apply Hskip; [done|].
    apply Hall; [done|]. by rewrite Hm, Hb, Hp.
  - rewrite Hm, andb_true_iff, negb_true_iff in Hb by done. destruct Hb as [Hb Hp].
    apply (Hskip n); auto.
Qed.
End spec.

(** ** Properties *)

(** The permissions a request asks for: every bit of the mask but the one
    that asks to continue. *)
Definition requests (v4mask n : Z) : Prop :=
  0 <= n /\ Z.testbit v4mask n = true /\ Z.testbit FSAL_ACE4_PERM_CONTINUE n = false.

Lemma testbit_request v4mask n :
  0 <= n ->
  Z.testbit (Z.land v4mask (Z.lnot FSAL_ACE4_PERM_CONTINUE)) n = true <-> requests v4mask n.
Proof.
  intros Hn. autorewrite with bits. rewrite andb_true_iff, negb_true_iff. unfold requests. tauto.
Qed.

(** What is missing once the owner got its share. *)
Lemma testbit_owner missing n :
  0 <= n ->
  Z.testbit (Z.land (Z.land missing
      (Z.lnot (Z.lor FSAL_ACE_PERM_WRITE_ACL FSAL_ACE_PERM_READ_ACL)))
      (Z.lnot (Z.lor FSAL_ACE_PERM_WRITE_ATTR FSAL_ACE_PERM_READ_ATTR))) n =
  Z.testbit missing n && negb (Z.testbit owner_perms n).
Proof.
  intros Hn. unfold owner_perms. autorewrite with bits.
  by destruct (Z.testbit missing n), (Z.testbit FSAL_ACE_PERM_WRITE_ACL n),
    (Z.testbit FSAL_ACE_PERM_READ_ACL n), (Z.testbit FSAL_ACE_PERM_WRITE_ATTR n),
    (Z.testbit FSAL_ACE_PERM_READ_ATTR n).
Qed.

Definition acl_owner (creds : user_cred) (attrs : attrlist) : bool :=
  fsal_check_ace_owner (u32 (at_owner attrs)) creds.
Definition acl_group (creds : user_cred) (attrs : attrlist) : bool :=
  fsal_check_ace_group (u32 (at_group attrs)) creds.
Definition acl_dir (attrs : attrlist) : bool := bool_decide (at_type attrs = DIRECTORY).

Lemma stops_start v4mask (denied : option Z) :
  denied = None \/ Z.land v4mask FSAL_ACE4_PERM_CONTINUE = 0 ->
  stops v4mask ((fun _ => 0) <$> denied).
Proof. destruct denied as [d|]; [|by left]. intros [?|?]; [done|by right]. Qed.

Lemma acl_verdict rfc_acl creds v4mask allowed denied attrs aces :
  caller_uid creds <> 0 -> at_acl attrs = Some aces ->
  denied = None \/ Z.land v4mask FSAL_ACE4_PERM_CONTINUE = 0 ->
  FSAL_IS_ERROR (fsal_check_access_acl rfc_acl creds v4mask allowed denied attrs).1.1 = false <->
  forall n, requests v4mask n ->
    (acl_owner creds attrs = true /\ Z.testbit owner_perms n = true) \/
    first_match creds (acl_dir attrs) (acl_owner creds attrs) (acl_group creds attrs) aces n
    = Some true.
Proof.
  intros Hroot Hacl Hst. unfold fsal_check_access_acl. rewrite Hacl.
  rewrite (proj2 (Z.eqb_neq _ _) Hroot). cbn [andb].
  fold (acl_owner creds attrs) (acl_group creds attrs) (acl_dir attrs).
  set (missing := Z.land v4mask (Z.lnot FSAL_ACE4_PERM_CONTINUE)).
  destruct (Z.eqb_spec missing 0) as [E|_].
  { simpl. split; [|done]. intros _ n Hn. exfalso. pose proof Hn as (Hn0 & _).
    apply (testbit_request v4mask n Hn0) in Hn. fold missing in Hn.
    by rewrite E, Z.testbit_0_l in Hn. }
  set (missing' := if acl_owner creds attrs then _ else missing).
  assert (forall n, 0 <= n -> Z.testbit missing' n = true <->
            requests v4mask n /\ (acl_owner creds attrs = true -> Z.testbit owner_perms n = false))
    as Hm.
  { intros n Hn. rewrite <- testbit_request by done. fold missing. unfold missing'.
    destruct (acl_owner creds attrs); [|naive_solver].
    rewrite testbit_owner, andb_true_iff, negb_true_iff by done. tauto. }
  assert (forall P : Z -> Prop,
    (forall n, 0 <= n -> Z.testbit missing' n = true -> P n) <->
    (forall n, requests v4mask n ->
       (acl_owner creds attrs = true /\ Z.testbit owner_perms n = true) \/ P n)) as Hall.
  { intros P. split; intros Hp n Hn.
    - destruct (acl_owner creds attrs && Z.testbit owner_perms n) eqn:E.
      + apply andb_true_iff in E. by left.
      + right. apply Hp; [apply Hn|]. apply Hm; [apply Hn|]. split; [done|].
        intros Ho. by rewrite Ho in E.
    - intros Hb. apply Hm in Hb as [Hr Ho]; [|done]. destruct (Hp n Hr) as [[H1 H2]|?]; [|done].
      rewrite (Ho H1) in H2. done. }
  rewrite <- Hall.
  destruct (acl_owner creds attrs && (missing' =? 0)) eqn:E0.
  { simpl. split; [|done]. intros _ n Hn Hb. apply andb_true_iff in E0 as [_ E0%Z.eqb_eq].
    by rewrite E0, Z.testbit_0_l in Hb. }
  match goal with |- context [check_aces _ _ _ _ _ _ _ aces missing' ?a ?d] =>
    pose proof (check_aces_spec rfc_acl creds v4mask (acl_dir attrs) (acl_owner creds attrs)
      (acl_group creds attrs) aces missing' a d (stops_start v4mask denied Hst)) as Hs;
    destruct (check_aces _ _ _ _ _ _ _ aces missing' a d) as [st a' d'|m a' d'] end.
  - destruct Hs as (He & n & Hn & Hb & Hv). simpl. rewrite He. split; [done|].
    intros Hp. specialize (Hp n Hn Hb). congruence.
  - destruct Hs as [-> Hm0]. simpl. rewrite <- Hm0.
    destruct (Z.eqb_spec m 0) as [->|Hne]; simpl.
    + rewrite andb_false_r. by destruct denied.
    + rewrite andb_true_r. split; [|done].
      destruct (IS_FSAL_ACE4_REQ v4mask); [done|]. by rewrite refusal_error.
Qed.

(** C24: an access check by ACL succeeds for a caller that is not root
    exactly when, for every requested permission, the caller owns the object
    and the permission is one an owner always has, or the first entry of the
    ACL that applies to the caller and mentions the permission allows it. *)
Theorem acl_access_first_match rfc_acl creds v4mask allowed denied attrs aces :
  caller_uid creds <> 0 -> at_acl attrs = Some aces ->
  denied = None \/ Z.land v4mask FSAL_ACE4_PERM_CONTINUE = 0 ->
  FSAL_IS_ERROR (fsal_check_access_acl rfc_acl creds v4mask allowed denied attrs).1.1 = false <->
  forall n, requests v4mask n ->
    (acl_owner creds attrs = true /\ Z.testbit owner_perms n = true) \/
    first_match creds (acl_dir attrs) (acl_owner creds attrs) (acl_group creds attrs) aces n
    = Some true.
Proof. apply acl_verdict. Qed.

Definition deny_write_ace (uid : Z) : fsal_ace_t :=
  mk_ace FSAL_ACE_TYPE_DENY FSAL_ACE_PERM_WRITE_DATA 0 0 uid.
Definition allow_everyone_ace (perm : Z) : fsal_ace_t :=
  mk_ace FSAL_ACE_TYPE_ALLOW perm 0 FSAL_ACE_IFLAG_SPECIAL_ID FSAL_ACE_SPECIAL_EVERYONE.
Definition acl_attrs (mode : Z) (aces : list fsal_ace_t) : attrlist :=
  mk_attrs 0 REGULAR_FILE 0 0 mode (Some aces).

Lemma acl_access_first_match_witness :
  first_match (mk_cred 10 20 []) false false false
    [deny_write_ace 11; allow_everyone_ace 3] 1 = Some true.
Proof.
  destruct (proj1 (acl_access_first_match false (mk_cred 10 20 []) 3 None None
    (acl_attrs 0 [deny_write_ace 11; allow_everyone_ace 3]) _
    ltac:(done) eq_refl ltac:(by left)) ltac:(vm_compute; reflexivity) 1) as [[H _]|H].
  - by repeat split.
  - done.
  - exact H.
Defined.

Lemma testbit_execute n : Z.testbit FSAL_ACE_PERM_EXECUTE n = (n =? 5).
Proof. change FSAL_ACE_PERM_EXECUTE with (2 ^ 5). rewrite Z.pow2_bits_eqb by lia. apply Z.eqb_sym. Qed.

(** Root may do anything to a directory, and anything but execute to
    another object; execute it may when it is not requested or when some
    entry that is not inherit-only allows it to anybody. *)
Theorem acl_access_root rfc_acl creds v4mask allowed denied attrs aces :
  caller_uid creds = 0 -> at_acl attrs = Some aces ->
  FSAL_IS_ERROR (fsal_check_access_acl rfc_acl creds v4mask allowed denied attrs).1.1 = false <->
  at_type attrs = DIRECTORY \/ Z.testbit v4mask 5 = false \/
  allow_somewhere creds (acl_dir attrs) (acl_owner creds attrs) (acl_group creds attrs) aces 5.
Proof.
  intros Hroot Hacl. unfold fsal_check_access_acl. rewrite Hacl, Hroot. cbn [andb Z.eqb].
  fold (acl_owner creds attrs) (acl_group creds attrs) (acl_dir attrs).
  set (missing := Z.land v4mask (Z.lnot FSAL_ACE4_PERM_CONTINUE)).
  assert (Z.testbit missing 5 = Z.testbit v4mask 5) as H5.
  { unfold missing. autorewrite with bits. by rewrite andb_true_r. }
  destruct (Z.eqb_spec missing 0) as [E|_].
  { split; [|done]. intros _. right. left. by rewrite <- H5, E. }
  destruct (acl_dir attrs) eqn:Ed; unfold acl_dir in Ed.
  { apply bool_decide_eq_true in Ed. split; [by left|done]. }
  apply bool_decide_eq_false in Ed.
  set (m1 := Z.land missing FSAL_ACE_PERM_EXECUTE).
  assert (forall n, Z.testbit m1 n = true <-> n = 5 /\ Z.testbit v4mask 5 = true) as Hm1.
  { intros n. unfold m1. rewrite Z.land_spec, testbit_execute, andb_true_iff, Z.eqb_eq, <- H5.
    split; intros [? ?]; subst; auto. }
  destruct (Z.eqb_spec m1 0) as [E|_].
  { split; [|done]. intros _. right. left. apply not_true_is_false. intros Hb.
    assert (Z.testbit m1 5 = true) as F by (by apply Hm1). by rewrite E in F. }
  set (m2 := if acl_owner creds attrs then _ else m1).
  assert (forall n, 0 <= n -> Z.testbit m2 n = true <-> n = 5 /\ Z.testbit v4mask 5 = true) as Hm2.
  { intros n Hn. unfold m2. destruct (acl_owner creds attrs); [|apply Hm1].
    rewrite testbit_owner, andb_true_iff, Hm1 by done. split; [tauto|]. by intros [-> ?]. }
  destruct (acl_owner creds attrs && (m2 =? 0)) eqn:E0.
  { simpl. split; [|done]. intros _. right. left. apply not_true_is_false. intros Hb.
    assert (Z.testbit m2 5 = true) as F by (by apply Hm2).
    apply andb_true_iff in E0 as [_ E0%Z.eqb_eq]. by rewrite E0 in F. }
  match goal with |- context [check_aces _ _ _ _ _ _ true aces m2 ?a ?d] =>
    destruct (check_aces_root rfc_acl creds v4mask false (acl_owner creds attrs)
      (acl_group creds attrs) aces m2 a d ltac:(destruct denied; auto)) as (m & a' & -> & Hm) end.
  assert (m = 0 <-> Z.testbit v4mask 5 = false \/
    allow_somewhere creds false (acl_owner creds attrs) (acl_group creds attrs) aces 5) as Hm'.
  { rewrite Hm. split.
    - intros Hall. destruct (Z.testbit v4mask 5) eqn:E5; [|by left]. right.
      apply Hall; [done|]. by apply Hm2.
    - intros Hor n Hn Hb. apply Hm2 in Hb as [-> Hb]; [|done]. by destruct Hor; [congruence|]. }
  simpl. destruct (Z.eqb_spec m 0) as [E|Hne]; simpl.
  - rewrite andb_false_r. apply Hm' in E. destruct denied; tauto.
  - rewrite andb_true_r. split.
    + destruct (IS_FSAL_ACE4_REQ v4mask); [done|]. by rewrite refusal_error.
    + intros [?|Hor]; [done|]. by apply Hm' in Hor.
Qed.

Lemma acl_access_root_witness :
  FSAL_IS_ERROR (fsal_check_access_acl false (mk_cred 0 0 []) 0x21 None None
    (acl_attrs 0 [allow_everyone_ace 0x20])).1.1 = false.
Proof.
  apply (acl_access_root false (mk_cred 0 0 []) 0x21 None None
    (acl_attrs 0 [allow_everyone_ace 0x20]) [allow_everyone_ace 0x20] eq_refl eq_refl).
  right. right. exists (allow_everyone_ace 0x20). split; [by left|by repeat split].
Defined.

(** The mode bits of the class the caller belongs to: the owner's, else the
    group's, else those of the others, as the three low bits. *)
Definition class_mode (creds : user_cred) (attrs : attrlist) : Z :=
  Z.land 7
    (if acl_owner creds attrs then Z.shiftr (at_mode attrs) 6
     else if acl_group creds attrs then Z.shiftr (at_mode attrs) 3 else at_mode attrs).

Lemma mask_of_mode mode :
  Z.lor (if negb (Z.land mode S_IROTH =? 0) then FSAL_R_OK else 0)
    (Z.lor (if negb (Z.land mode S_IWOTH =? 0) then FSAL_W_OK else 0)
       (if negb (Z.land mode S_IXOTH =? 0) then FSAL_X_OK else 0))
  = Z.shiftl (Z.land 7 mode) 24.
Proof.
  change S_IROTH with (2 ^ 2). change S_IWOTH with (2 ^ 1). change S_IXOTH with (2 ^ 0).
  rewrite !land_pow2 by lia. rewrite !negb_involutive. change 7 with (Z.ones 3).
  by_bits. rewrite Z.shiftl_spec, Z.land_spec, Z.testbit_ones by lia.
  destruct (decide (n = 24)) as [->|H24];
    [change (24 - 24) with 0; by destruct (Z.testbit mode 0), (Z.testbit mode 1), (Z.testbit mode 2)|].
  destruct (decide (n = 25)) as [->|H25];
    [change (25 - 24) with 1; by destruct (Z.testbit mode 0), (Z.testbit mode 1), (Z.testbit mode 2)|].
  destruct (decide (n = 26)) as [->|H26];
    [change (26 - 24) with 2; by destruct (Z.testbit mode 0), (Z.testbit mode 1), (Z.testbit mode 2)|].
  change FSAL_R_OK with (2 ^ 26). change FSAL_W_OK with (2 ^ 25). change FSAL_X_OK with (2 ^ 24).
  destruct (Z.testbit mode 2), (Z.testbit mode 1), (Z.testbit mode 0);
    rewrite ?Z.pow2_bits_eqb, ?Z.testbit_0_l by lia;
    rewrite ?(proj2 (Z.eqb_neq 26 n)), ?(proj2 (Z.eqb_neq 25 n)), ?(proj2 (Z.eqb_neq 24 n)) by lia;
    simpl; symmetry; apply andb_false_iff; left; apply andb_false_iff; lia.
Qed.

(** An access check by mode bits allows a caller that is not root
    exactly the requested accesses that the bits of its class grant: the
    owner's bits for the owner, the group's for a member of the group, the
    others' for anybody else.  What it reports as allowed and as denied
    partition the request, and it succeeds when nothing is denied. *)
Theorem mode_access_by_class creds access_type attrs a0 d0 :
  caller_uid creds <> 0 ->
  let granted := Z.shiftl (class_mode creds attrs) 24 in
  exists a d status,
    fsal_check_access_no_acl creds access_type (Some a0) (Some d0) attrs = (status, Some a, Some d) /\
    a = Z.land granted access_type /\ Z.lor a d = access_type /\ Z.land a d = 0 /\
    (FSAL_IS_ERROR status = false <-> d = 0).
Proof.
  intros Hroot granted. unfold fsal_check_access_no_acl. simpl.
  change (caller_uid creds =? u32 (at_owner attrs)) with (acl_owner creds attrs).
  fold (fsal_check_ace_group (u32 (at_group attrs)) creds). fold (acl_group creds attrs).
  destruct (Z.eqb_spec access_type 0) as [->|_].
  { exists 0, 0, (fsalstat ERR_FSAL_NO_ERROR 0). split; [done|]. by rewrite Z.land_0_r. }
  rewrite (proj2 (Z.eqb_neq _ _) Hroot), mask_of_mode. fold (class_mode creds attrs). fold granted.
  do 3 eexists. split; [reflexivity|]. split; [done|].
  assert (Z.lor (Z.land granted access_type) (Z.land (Z.lnot granted) access_type) = access_type)
    as Hor by (by_bits; by destruct (Z.testbit granted n), (Z.testbit access_type n)).
  split; [done|]. split.
  { by_bits. by destruct (Z.testbit granted n), (Z.testbit access_type n). }
  destruct (Z.eqb_spec (Z.land granted access_type) access_type) as [E|Hne]; simpl.
  - split; [|done]. intros _. rewrite <- E. by_bits.
    by destruct (Z.testbit granted n), (Z.testbit access_type n).
  - split; [done|]. intros E. rewrite E, Z.lor_0_r in Hor. done.
Qed.

Lemma mode_access_by_class_witness :
  exists a d status,
    fsal_check_access_no_acl (mk_cred 10 20 [30]) (Z.lor FSAL_R_OK FSAL_W_OK) (Some 0) (Some 0)
      (mk_attrs 0 REGULAR_FILE 1 30 0x1A4 None) = (status, Some a, Some d) /\
    a = FSAL_R_OK.
Proof.
  destruct (mode_access_by_class (mk_cred 10 20 [30]) (Z.lor FSAL_R_OK FSAL_W_OK)
    (mk_attrs 0 REGULAR_FILE 1 30 0x1A4 None) 0 0 ltac:(done)) as (a & d & st & E & Ha & _).
  exists a, d, st. split; [exact E|]. rewrite Ha. reflexivity.
Defined.
