(* ===== verification/AclOps.v ===== *)
(** * ACLs made, inherited and used

    The ACL functions of FSAL/commonlib.c (inheritance, the entries that
    stand for mode bits, the way back from an ACL to mode bits, the checks
    for remove and rename) and the permission checks of FSAL/fsal_helper.c
    that build on the access check.

    An array of entries is a block of memory of fixed size: a list, with
    reads and writes through [ace_get] and [ace_put].  An access outside the
    block is the result [None], never a silent success. *)
From S2P Require Import Prelude Status Fsal Acl Access.

Definition ATTR_SIZE : Z := 0x4.
Definition ATTR_ACL : Z := 0x20.
Definition ATTR_MODE : Z := 0x80.
Definition ATTR_OWNER : Z := 0x200.
Definition ATTR_GROUP : Z := 0x400.
Definition ATTR_ATIME : Z := 0x1000.
Definition ATTR_MTIME : Z := 0x8000.
Definition ATTR_ATIME_SERVER : Z := 0x200000.
Definition ATTR_MTIME_SERVER : Z := 0x400000.

Definition FSAL_TEST_MASK (mask attr : Z) : bool := negb (Z.land mask attr =? 0).
Definition FSAL_SET_MASK (mask attr : Z) : Z := Z.lor mask attr.

Definition FSAL_READ_ACCESS : Z :=
  Z.lor (FSAL_MODE_MASK_SET FSAL_R_OK) (FSAL_ACE4_MASK_SET FSAL_ACE_PERM_READ_DATA).
Definition FSAL_WRITE_ACCESS : Z :=
  Z.lor (FSAL_MODE_MASK_SET FSAL_W_OK)
    (FSAL_ACE4_MASK_SET (Z.lor FSAL_ACE_PERM_WRITE_DATA FSAL_ACE_PERM_APPEND_DATA)).
Definition FSAL_EXECUTE_ACCESS : Z :=
  Z.lor (FSAL_MODE_MASK_SET FSAL_X_OK) (FSAL_ACE4_MASK_SET FSAL_ACE_PERM_EXECUTE).

(** ** Blocks of entries *)

Definition zero_ace : fsal_ace_t := mk_ace 0 0 0 0 0.

(** [nfs4_ace_alloc] clears the block (support/nfs4_acls.c). *)
Definition nfs4_ace_alloc (nace : nat) : list fsal_ace_t := replicate nace zero_ace.

Definition ace_get (aces : list fsal_ace_t) (i : nat) : option fsal_ace_t := aces !! i.
Definition ace_put (i : nat) (a : fsal_ace_t) (aces : list fsal_ace_t)
    : option (list fsal_ace_t) :=
  if decide (i < length aces)%nat then Some (<[i := a]> aces) else None.

Definition set_ace_type t a := mk_ace t (ace_perm a) (ace_flag a) (ace_iflag a) (ace_who a).
Definition set_ace_perm p a := mk_ace (ace_type a) p (ace_flag a) (ace_iflag a) (ace_who a).
Definition set_ace_flag f a := mk_ace (ace_type a) (ace_perm a) f (ace_iflag a) (ace_who a).
Definition set_ace_iflag f a := mk_ace (ace_type a) (ace_perm a) (ace_flag a) f (ace_who a).
Definition set_ace_who w a := mk_ace (ace_type a) (ace_perm a) (ace_flag a) (ace_iflag a) w.

Definition set_at_acl (acl : option fsal_acl_t) (attrs : attrlist) : attrlist :=
  mk_attrs (FSAL_SET_MASK (at_mask attrs) ATTR_ACL) (at_type attrs) (at_owner attrs)
    (at_group attrs) (at_mode attrs) acl.

(** ** Inheritance *)

Definition is_dup_ace (ace : fsal_ace_t) (inherit : Z) : bool :=
  if negb (IS_FSAL_ACE_INHERIT ace) then false else
  if negb (inherit =? FSAL_ACE_FLAG_DIR_INHERIT) then false else
  if IS_FSAL_ACE_NO_PROPAGATE ace then false else
  if IS_FSAL_ACE_FILE_INHERIT ace && negb (IS_FSAL_ACE_DIR_INHERIT ace) then false else
  if negb (IS_FSAL_ACE_PERM ace) then false else
  true.

(** [dup_ace]: the source entry as it is left, and the copy. *)
Definition dup_ace (sace : fsal_ace_t) : fsal_ace_t * fsal_ace_t :=
  (set_ace_flag (Z.lor (ace_flag sace) FSAL_ACE_FLAG_INHERIT_ONLY) sace,
    set_ace_flag (Z.land (ace_flag sace)
                    (Z.lnot (Z.lor FSAL_ACE_FLAG_INHERIT FSAL_ACE_FLAG_NO_PROPAGATE))) sace).

(** One iteration of the copying loop of [fsal_inherit_acls], on the block
    and the index [dace] points to. *)
Definition inherit_ace (inherit : Z) (sace : fsal_ace_t) (st : list fsal_ace_t * nat)
    : option (list fsal_ace_t * nat) :=
  let '(aces, dace) := st in
  if IS_FSAL_ACE_FLAG sace inherit then
    if IS_FSAL_ACE_NO_PROPAGATE sace then
      aces ← ace_put dace
        (set_ace_flag (Z.land (ace_flag sace)
           (Z.lnot (Z.lor FSAL_ACE_FLAG_INHERIT FSAL_ACE_FLAG_NO_PROPAGATE))) sace) aces;
      Some (aces, S dace)
    else if (inherit =? FSAL_ACE_FLAG_DIR_INHERIT) && IS_FSAL_ACE_FILE_INHERIT sace
            && negb (IS_FSAL_ACE_DIR_INHERIT sace) then
      aces ← ace_put dace
        (set_ace_flag (Z.lor (ace_flag sace) FSAL_ACE_FLAG_NO_PROPAGATE) sace) aces;
      Some (aces, S dace)
    else if is_dup_ace sace inherit then
      let '(s, d) := dup_ace sace in
      aces ← ace_put dace s aces;
      aces ← ace_put (S dace) d aces;
      Some (aces, S (S dace))
    else
      aces ← ace_put dace sace aces;
      Some (aces, S dace)
  else Some (aces, dace).

Definition inherit_count (inherit : Z) (sacl : fsal_acl_t) : nat :=
  foldl (fun naces sace =>
           let naces := if IS_FSAL_ACE_FLAG sace inherit then S naces else naces in
           if is_dup_ace sace inherit then S naces else naces) 0%nat sacl.

Fixpoint each_ace (f : fsal_ace_t -> list fsal_ace_t * nat -> option (list fsal_ace_t * nat))
    (sacl : list fsal_ace_t) (st : list fsal_ace_t * nat) : option (list fsal_ace_t * nat) :=
  match sacl with
  | [] => Some st
  | sace :: sacl => st ← f sace st; each_ace f sacl st
  end.

(** [None]: an entry was written outside the allocated block. *)
Definition fsal_inherit_acls (attrs : attrlist) (sacl : option fsal_acl_t) (inherit : Z)
    : option (fsal_errors_t * attrlist) :=
  match sacl with
  | None | Some [] => Some (ERR_FSAL_NO_ERROR, attrs)
  | Some sacl =>
      match at_acl attrs with
      | Some (_ :: _) => Some (ERR_FSAL_EXIST, attrs)
      | _ =>
          let naces := inherit_count inherit sacl in
          if decide (naces = 0)%nat then Some (ERR_FSAL_NO_ERROR, attrs) else
          '(aces, _) ← each_ace (inherit_ace inherit) sacl (nfs4_ace_alloc naces, 0%nat);
          Some (ERR_FSAL_NO_ERROR, set_at_acl (Some aces) attrs)
      end
  end.

(** ** Entries for the mode bits *)

(** [fsal_mode_set_ace]: the entries [deny] and [allow] afterwards. *)
Definition fsal_mode_set_ace (deny allow : fsal_ace_t) (mode : Z) : fsal_ace_t * fsal_ace_t :=
  let allow := set_ace_type FSAL_ACE_TYPE_ALLOW allow in
  let deny := set_ace_type FSAL_ACE_TYPE_DENY deny in
  let grant (c : Z) (perm : Z) (p : fsal_ace_t * fsal_ace_t) :=
    let '(deny, allow) := p in
    if negb (Z.land mode c =? 0)
    then (deny, set_ace_perm (Z.lor (ace_perm allow) perm) allow)
    else (set_ace_perm (Z.lor (ace_perm deny) perm) deny, allow) in
  grant S_IXUSR FSAL_ACE_PERM_EXECUTE
    (grant S_IWUSR (Z.lor FSAL_ACE_PERM_WRITE_DATA FSAL_ACE_PERM_APPEND_DATA)
       (grant S_IRUSR FSAL_ACE_PERM_READ_DATA (deny, allow))).

(** The pair of entries for one class: [deny] at index [i], [allow] at
    the next one. *)
Definition mode_gen_pair (i : nat) (who : Z) (group : bool) (mode : Z) (aces : list fsal_ace_t)
    : option (list fsal_ace_t) :=
  let mark (a : fsal_ace_t) :=
    let a := set_ace_who who a in
    let a := set_ace_iflag
      (Z.lor (ace_iflag a) (Z.lor FSAL_ACE_IFLAG_MODE_GEN FSAL_ACE_IFLAG_SPECIAL_ID)) a in
    if group then set_ace_flag FSAL_ACE_FLAG_GROUP_ID a else a in
  deny ← ace_get aces i;
  allow ← ace_get aces (S i);
  let '(deny, allow) := fsal_mode_set_ace (mark deny) (mark allow) mode in
  aces ← ace_put i deny aces;
  ace_put (S i) allow aces.

Definition fsal_mode_gen_set (ace : nat) (mode : Z) (aces : list fsal_ace_t)
    : option (list fsal_ace_t) :=
  aces ← mode_gen_pair ace FSAL_ACE_SPECIAL_OWNER false (Z.land mode S_IRWXU) aces;
  aces ← mode_gen_pair (ace + 2) FSAL_ACE_SPECIAL_GROUP true
    (Z.shiftl (Z.land mode S_IRWXG) 3) aces;
  mode_gen_pair (ace + 4) FSAL_ACE_SPECIAL_EVERYONE false
    (Z.shiftl (Z.land mode S_IRWXO) 6) aces.

Definition fsal_mode_gen_acl (attrs : attrlist) : option (fsal_status_t * attrlist) :=
  aces ← fsal_mode_gen_set 0 (at_mode attrs) (nfs4_ace_alloc 6);
  Some (fsalstat ERR_FSAL_NO_ERROR 0, set_at_acl (Some aces) attrs).

(** The permissions the mode bits stand for. *)
Definition mode_perms : Z :=
  Z.lor FSAL_ACE_PERM_READ_DATA
    (Z.lor FSAL_ACE_PERM_LIST_DIR
       (Z.lor FSAL_ACE_PERM_WRITE_DATA
          (Z.lor FSAL_ACE_PERM_ADD_FILE
             (Z.lor FSAL_ACE_PERM_APPEND_DATA
                (Z.lor FSAL_ACE_PERM_ADD_SUBDIRECTORY FSAL_ACE_PERM_EXECUTE))))).

Definition carry_count (sacl : fsal_acl_t) : nat :=
  foldl (fun naces sace =>
           if IS_FSAL_ACE_MODE_GEN sace then naces else
           let naces := S naces in
           if IS_FSAL_ACE_INHERIT_ONLY sace then naces else
           if negb (IS_FSAL_ACE_PERM sace) then naces else
           if IS_FSAL_ACE_INHERIT sace then S naces else naces) 0%nat sacl.

(** One iteration of the copying loop of [fsal_mode_to_acl], with the
    increment of [dace] that ends it, also after a [continue].  The second
    component is the counter [naces] of the new ACL. *)
Definition carry_ace (sace : fsal_ace_t) (st : list fsal_ace_t * nat * nat)
    : option (list fsal_ace_t * nat * nat) :=
  let '(aces, naces, dace) := st in
  if IS_FSAL_ACE_MODE_GEN sace then Some (aces, naces, S dace) else
  let naces := S naces in
  if IS_FSAL_ACE_INHERIT_ONLY sace || negb (IS_FSAL_ACE_PERM sace) then
    aces ← ace_put dace sace aces;
    Some (aces, naces, S dace)
  else
    let strip (a : fsal_ace_t) :=
      if IS_FSAL_ACE_SPECIAL a
      then set_ace_perm (Z.land (ace_perm a) (Z.lnot mode_perms)) a else a in
    if IS_FSAL_ACE_INHERIT sace then
      aces ← ace_put dace
        (set_ace_flag (Z.lor (ace_flag sace) FSAL_ACE_FLAG_INHERIT_ONLY) sace) aces;
      aces ← ace_put (S dace)
        (strip (set_ace_flag (Z.land (ace_flag sace) (Z.lnot FSAL_ACE_FLAG_INHERIT)) sace)) aces;
      Some (aces, S naces, S (S dace))
    else
      aces ← ace_put dace (strip sace) aces;
      Some (aces, naces, S dace).

Fixpoint carry_aces (sacl : list fsal_ace_t) (st : list fsal_ace_t * nat * nat)
    : option (list fsal_ace_t * nat * nat) :=
  match sacl with
  | [] => Some st
  | sace :: sacl => st ← carry_ace sace st; carry_aces sacl st
  end.

Definition fsal_mode_to_acl (attrs : attrlist) (sacl : option fsal_acl_t)
    : option (fsal_status_t * attrlist) :=
  if negb (FSAL_TEST_MASK (at_mask attrs) ATTR_MODE)
  then Some (fsalstat ERR_FSAL_NO_ERROR 0, attrs) else
  match sacl with
  | None | Some [] => fsal_mode_gen_acl attrs
  | Some sacl =>
      let naces := carry_count sacl in
      if decide (naces = 0)%nat then fsal_mode_gen_acl attrs else
      let naces := (naces + 6)%nat in
      '(aces, acl_naces, dace) ← carry_aces sacl (nfs4_ace_alloc naces, 0%nat, 0%nat);
      if decide (naces <> acl_naces + 6)%nat
      then Some (fsalstat ERR_FSAL_SERVERFAULT 0,
                  mk_attrs (at_mask attrs) (at_type attrs) (at_owner attrs) (at_group attrs)
                    (at_mode attrs) (Some (take acl_naces aces)))
      else
        aces ← fsal_mode_gen_set dace (at_mode attrs) aces;
        Some (fsalstat ERR_FSAL_NO_ERROR 0, set_at_acl (Some aces) attrs)
  end.

(** ** Mode bits from an ACL *)

(** The rows of [ace_modes]: read, write and execute bits. *)
Definition ace_modes_owner : Z * Z * Z := (S_IRUSR, S_IWUSR, S_IXUSR).
Definition ace_modes_group : Z * Z * Z := (S_IRGRP, S_IWGRP, S_IXGRP).
Definition ace_modes_everyone : Z * Z * Z :=
  (Z.lor S_IRUSR (Z.lor S_IRGRP S_IROTH), Z.lor S_IWUSR (Z.lor S_IWGRP S_IWOTH),
    Z.lor S_IXUSR (Z.lor S_IXGRP S_IXOTH)).

Definition set_mode (mode bits : Z) (allow : bool) : Z :=
  if allow then Z.lor mode bits else Z.land mode (Z.lnot bits).

Definition ace_to_mode (mode : Z) (ace : fsal_ace_t) : Z :=
  let modes :=
    if IS_FSAL_ACE_SPECIAL_OWNER ace then Some ace_modes_owner
    else if IS_FSAL_ACE_SPECIAL_GROUP ace then Some ace_modes_group
    else if IS_FSAL_ACE_SPECIAL_EVERYONE ace then Some ace_modes_everyone
    else None in
  match modes with
  | None => mode
  | Some (r, w, x) =>
      let allow := IS_FSAL_ACE_ALLOW ace in
      let has (perm : Z) := IS_FSAL_ACE_BIT (ace_perm ace) perm in
      let mode := if has FSAL_ACE_PERM_READ_DATA then set_mode mode r allow else mode in
      let mode := if has FSAL_ACE_PERM_WRITE_DATA || has FSAL_ACE_PERM_APPEND_DATA
                  then set_mode mode w allow else mode in
      if has FSAL_ACE_PERM_EXECUTE then set_mode mode x allow else mode
  end.

Definition fsal_acl_to_mode (attrs : attrlist) : fsal_status_t * attrlist :=
  if negb (FSAL_TEST_MASK (at_mask attrs) ATTR_ACL)
  then (fsalstat ERR_FSAL_NO_ERROR 0, attrs) else
  match at_acl attrs with
  | None | Some [] => (fsalstat ERR_FSAL_NO_ERROR 0, attrs)
  | Some aces =>
      (fsalstat ERR_FSAL_NO_ERROR 0,
        mk_attrs (FSAL_SET_MASK (at_mask attrs) ATTR_MODE) (at_type attrs) (at_owner attrs)
          (at_group attrs) (foldl ace_to_mode (at_mode attrs) aces) (at_acl attrs))
  end.

(** ** Checks that build on the access check *)

(** Objects are pointers; [getattrs] is what the backend answers for the
    attributes of an object.  The method [test_access] is the default one,
    [fsal_test_access]. *)
Section checks.
Context (rfc_acl : bool) (creds : user_cred) (getattrs : nat -> fsal_status_t * attrlist).

Definition test_access (obj : nat) (access_type : Z) : fsal_status_t :=
  (fsal_test_access rfc_acl creds (getattrs obj) access_type None None false).1.1.

Definition fsal_access (obj : nat) (access_type : Z) : fsal_status_t :=
  test_access obj access_type.

Definition fsal_not_in_group_list (gid : Z) : bool :=
  if caller_gid creds =? gid then false
  else negb (existsb (fun g => g =? gid) (caller_garray creds)).

Definition check_open_permission (obj : nat) (openflags : Z) : fsal_status_t :=
  let access_mask := if negb (Z.land openflags FSAL_O_READ =? 0) then FSAL_READ_ACCESS else 0 in
  let access_mask := if negb (Z.land openflags FSAL_O_WRITE =? 0)
                     then Z.lor access_mask FSAL_WRITE_ACCESS else access_mask in
  let status := fsal_access obj access_mask in
  if negb (FSAL_IS_ERROR status) then status else
  if decide (major status <> ERR_FSAL_PERM) then status else
  if negb (Z.land openflags FSAL_O_WRITE =? 0) then status else
  fsal_access obj FSAL_EXECUTE_ACCESS.

(** [attr] are the attributes to set. *)
Definition fsal_check_setattr_perms (obj : nat) (attr : attrlist) : fsal_status_t :=
  if caller_uid creds =? 0 then fsalstat ERR_FSAL_NO_ERROR 0 else
  let '(status, current) := getattrs obj in
  if FSAL_IS_ERROR status then status else
  let not_owner := negb (caller_uid creds =? at_owner current) in
  let test (a : Z) := FSAL_TEST_MASK (at_mask attr) a in
  if test ATTR_OWNER && negb (at_owner attr =? caller_uid creds)
  then fsalstat ERR_FSAL_PERM 0 else
  let access_check :=
    if test ATTR_OWNER && not_owner
    then FSAL_ACE4_MASK_SET FSAL_ACE_PERM_WRITE_OWNER else 0 in
  if test ATTR_GROUP && fsal_not_in_group_list (u32 (at_group attr))
  then fsalstat ERR_FSAL_PERM 0 else
  let access_check :=
    if test ATTR_GROUP && not_owner
    then Z.lor access_check (FSAL_ACE4_MASK_SET FSAL_ACE_PERM_WRITE_OWNER)
    else access_check in
  if negb not_owner then status else
  let access_check :=
    if test ATTR_MODE || test ATTR_ACL
    then Z.lor access_check (FSAL_ACE4_MASK_SET FSAL_ACE_PERM_WRITE_ACL)
    else access_check in
  let access_check :=
    if test ATTR_SIZE
    then Z.lor access_check (FSAL_ACE4_MASK_SET FSAL_ACE_PERM_WRITE_DATA)
    else access_check in
  let access_check :=
    if (test ATTR_MTIME_SERVER || test ATTR_ATIME_SERVER)
       && negb (test ATTR_MTIME) && negb (test ATTR_ATIME)
    then Z.lor access_check (FSAL_ACE4_MASK_SET FSAL_ACE_PERM_WRITE_DATA)
    else if test ATTR_MTIME_SERVER || test ATTR_ATIME_SERVER || test ATTR_MTIME
            || test ATTR_ATIME
    then Z.lor access_check (FSAL_ACE4_MASK_SET FSAL_ACE_PERM_WRITE_ATTR)
    else access_check in
  if decide (is_Some (at_acl current)) then test_access obj access_check else
  if negb (access_check =? FSAL_ACE4_MASK_SET FSAL_ACE_PERM_WRITE_DATA)
  then fsalstat ERR_FSAL_PERM 0
  else test_access obj FSAL_W_OK.

Definition fsal_remove_access (dir_hdl rem_hdl : nat) (isdir : bool) : fsal_status_t :=
  let fsal_status := test_access dir_hdl
    (Z.lor (FSAL_MODE_MASK_SET FSAL_X_OK) (FSAL_ACE4_MASK_SET FSAL_ACE_PERM_EXECUTE)) in
  if FSAL_IS_ERROR fsal_status then fsal_status else
  let del_status := test_access rem_hdl
    (Z.lor (Z.lor (FSAL_MODE_MASK_SET FSAL_W_OK) (FSAL_ACE4_MASK_SET FSAL_ACE_PERM_DELETE))
       FSAL_ACE4_REQ_FLAG) in
  let fsal_status := test_access dir_hdl
    (Z.lor (Z.lor (FSAL_MODE_MASK_SET FSAL_W_OK)
              (FSAL_ACE4_MASK_SET FSAL_ACE_PERM_DELETE_CHILD)) FSAL_ACE4_REQ_FLAG) in
  if FSAL_IS_ERROR fsal_status && FSAL_IS_ERROR del_status then
    if decide (major fsal_status <> ERR_FSAL_NO_ACE) then fsal_status else
    if decide (major del_status <> ERR_FSAL_NO_ACE) then del_status else
    let fsal_status := test_access dir_hdl
      (Z.lor (FSAL_MODE_MASK_SET FSAL_W_OK)
         (FSAL_ACE4_MASK_SET (if isdir then FSAL_ACE_PERM_ADD_SUBDIRECTORY
                              else FSAL_ACE_PERM_ADD_FILE))) in
    if FSAL_IS_ERROR fsal_status then fsal_status
    else fsalstat ERR_FSAL_NO_ERROR 0
  else fsalstat ERR_FSAL_NO_ERROR 0.

Definition fsal_rename_access (src_dir_hdl src_obj_hdl dst_dir_hdl : nat)
    (dst_obj_hdl : option nat) (isdir : bool) : fsal_status_t :=
  let status := fsal_remove_access src_dir_hdl src_obj_hdl isdir in
  if FSAL_IS_ERROR status then status else
  let status := match dst_obj_hdl with
                | Some dst => fsal_remove_access dst_dir_hdl dst isdir
                | None => status
                end in
  if FSAL_IS_ERROR status then status else
  let access_type := Z.lor (FSAL_MODE_MASK_SET FSAL_W_OK)
    (FSAL_ACE4_MASK_SET (if isdir then FSAL_ACE_PERM_ADD_SUBDIRECTORY
                         else FSAL_ACE_PERM_ADD_FILE)) in
  let status := test_access dst_dir_hdl access_type in
  if FSAL_IS_ERROR status then status else fsalstat ERR_FSAL_NO_ERROR 0.
End checks.

#[global] Arguments ace_put : simpl never.
#[global] Arguments inherit_ace : simpl never.
#[global] Arguments carry_ace : simpl never.
#[global] Arguments mode_gen_pair : simpl never.
#[global] Arguments fsal_mode_gen_set : simpl never.
