(* ===== verification/AclProps.v ===== *)
(** * Properties of the ACL functions

    Memory safety and results of the functions of FSAL/commonlib.c that
    build ACLs, the agreement of an ACL made from mode bits with the mode
    bits themselves, and what the checks of FSAL/commonlib.c and
    FSAL/fsal_helper.c decide. *)
From S2P Require Import Prelude Status Fsal Acl Access AclOps.

(** ** Filling a block from the left *)

Definition zeros (k : nat) : list fsal_ace_t := nfs4_ace_alloc k.

Lemma put_next pre a k :
  ace_put (length pre) a (pre ++ zeros (S k)) = Some ((pre ++ [a]) ++ zeros k).
Proof.
  unfold ace_put, zeros, nfs4_ace_alloc. rewrite decide_True by (rewrite length_app; simpl; lia).
  f_equal. rewrite insert_app_r_alt, Nat.sub_diag by lia. simpl. by rewrite <- app_assoc.
Qed.

Lemma put_length i a aces aces' : ace_put i a aces = Some aces' -> length aces' = length aces.
Proof. unfold ace_put. case_decide; [|done]. intros [= <-]. apply length_insert. Qed.

(** ** Inheritance *)

(** What a directory's entry gives a new object. *)
Definition inherited (inherit : Z) (sace : fsal_ace_t) : list fsal_ace_t :=
  if IS_FSAL_ACE_FLAG sace inherit then
    if IS_FSAL_ACE_NO_PROPAGATE sace then
      [set_ace_flag (Z.land (ace_flag sace)
         (Z.lnot (Z.lor FSAL_ACE_FLAG_INHERIT FSAL_ACE_FLAG_NO_PROPAGATE))) sace]
    else if (inherit =? FSAL_ACE_FLAG_DIR_INHERIT) && IS_FSAL_ACE_FILE_INHERIT sace
            && negb (IS_FSAL_ACE_DIR_INHERIT sace) then
      [set_ace_flag (Z.lor (ace_flag sace) FSAL_ACE_FLAG_NO_PROPAGATE) sace]
    else if is_dup_ace sace inherit then [(dup_ace sace).1; (dup_ace sace).2]
    else [sace]
  else [].

Lemma inherit_ace_emits inherit sace pre k :
  (length (inherited inherit sace) <= k)%nat ->
  inherit_ace inherit sace (pre ++ zeros k, length pre) =
  Some ((pre ++ inherited inherit sace) ++ zeros (k - length (inherited inherit sace)),
         length (pre ++ inherited inherit sace)).
Proof.
  unfold inherit_ace, inherited. destruct (IS_FSAL_ACE_FLAG sace inherit); intros Hk.
  2:{ simpl. by rewrite app_nil_r, Nat.sub_0_r. }
  assert (forall a, (1 <= k)%nat -> (ace_put (length pre) a (pre ++ zeros k)
    ≫= fun aces => Some (aces, S (length pre)))
    = Some ((pre ++ [a]) ++ zeros (k - 1), length (pre ++ [a]))) as H1.
  { intros a Hk1. destruct k as [|k]; [lia|]. rewrite put_next. simpl. rewrite Nat.sub_0_r.
    by rewrite length_app, Nat.add_comm. }
  destruct (IS_FSAL_ACE_NO_PROPAGATE sace); [by apply H1|].
  destruct (_ && _ && _); [by apply H1|].
  destruct (is_dup_ace sace inherit); [|by apply H1].
  unfold dup_ace in *. simpl in *. destruct k as [|[|k]]; [lia..|].
  rewrite put_next. simpl. 
  replace (S (length pre)) with (length (pre ++ [set_ace_flag
    (Z.lor (ace_flag sace) FSAL_ACE_FLAG_INHERIT_ONLY) sace])) by (rewrite length_app; simpl; lia).
  rewrite put_next. simpl. rewrite <- !app_assoc. simpl.
  do 3 f_equal; [by rewrite Nat.sub_0_r|]. rewrite !length_app. simpl. lia.
Qed.

Lemma each_inherit_emits inherit sacl pre k :
  (length (flat_map (inherited inherit) sacl) <= k)%nat ->
  each_ace (inherit_ace inherit) sacl (pre ++ zeros k, length pre) =
  Some ((pre ++ flat_map (inherited inherit) sacl) ++
          zeros (k - length (flat_map (inherited inherit) sacl)),
         length (pre ++ flat_map (inherited inherit) sacl)).
Proof.
  revert pre k. induction sacl as [|sace sacl IH]; intros pre k Hk; simpl in *.
  { by rewrite app_nil_r, Nat.sub_0_r. }
  rewrite length_app in Hk. rewrite inherit_ace_emits by lia. simpl.
  rewrite IH by lia. rewrite <- !app_assoc, !length_app, Nat.sub_add_distr. done.
Qed.

Lemma inherit_count_enough inherit sacl :
  (length (flat_map (inherited inherit) sacl) <= inherit_count inherit sacl)%nat.
Proof.
  unfold inherit_count. enough (forall n, (n + length (flat_map (inherited inherit) sacl) <=
    foldl (fun naces sace =>
           let naces := if IS_FSAL_ACE_FLAG sace inherit then S naces else naces in
           if is_dup_ace sace inherit then S naces else naces) n sacl)%nat) as H by apply (H 0%nat).
  induction sacl as [|sace sacl IH]; intros n; simpl; [lia|].
  rewrite length_app. etrans; [|apply IH].
  assert (length (inherited inherit sace) <=
    (if IS_FSAL_ACE_FLAG sace inherit then 1 else 0) +
    (if is_dup_ace sace inherit then 1 else 0))%nat.
  { unfold inherited. repeat case_match; simpl; lia. }
  repeat case_match; lia.
Qed.

Definition example_dir_ace : fsal_ace_t :=
  mk_ace FSAL_ACE_TYPE_ALLOW 1 (Z.lor FSAL_ACE_FLAG_FILE_INHERIT FSAL_ACE_FLAG_DIR_INHERIT) 0 500.

(** C31: [fsal_inherit_acls] never writes outside the block it allocates,
    and the new ACL starts with exactly what each entry of the directory
    hands down, in order; the rest of the block is cleared entries. *)
Theorem inherit_acls_result attrs sacl inherit :
  at_acl attrs = None \/ at_acl attrs = Some [] ->
  inherit_count inherit sacl <> 0%nat ->
  exists pad,
    fsal_inherit_acls attrs (Some sacl) inherit =
    Some (ERR_FSAL_NO_ERROR,
           set_at_acl (Some (flat_map (inherited inherit) sacl ++ zeros pad)) attrs) /\
    (length (flat_map (inherited inherit) sacl) + pad = inherit_count inherit sacl)%nat.
Proof.
  intros Hacl Hn. pose proof (inherit_count_enough inherit sacl) as Hle.
  exists (inherit_count inherit sacl - length (flat_map (inherited inherit) sacl))%nat.
  split; [|lia]. unfold fsal_inherit_acls. destruct sacl as [|sace sacl]; [done|].
  set (s := sace :: sacl) in *.
  pose proof (each_inherit_emits inherit s [] (inherit_count inherit s) Hle) as He.
  cbn [app length] in He. unfold zeros at 1 in He.
  destruct Hacl as [->| ->]; rewrite decide_False by done; by rewrite He.
Qed.

Lemma inherit_acls_result_witness :
  exists pad, fsal_inherit_acls (mk_attrs 0 DIRECTORY 0 0 0 None) (Some [example_dir_ace])
    FSAL_ACE_FLAG_DIR_INHERIT =
  Some (ERR_FSAL_NO_ERROR,
         set_at_acl (Some (flat_map (inherited FSAL_ACE_FLAG_DIR_INHERIT) [example_dir_ace]
                           ++ zeros pad)) (mk_attrs 0 DIRECTORY 0 0 0 None)).
Proof.
  destruct (inherit_acls_result (mk_attrs 0 DIRECTORY 0 0 0 None) [example_dir_ace]
    FSAL_ACE_FLAG_DIR_INHERIT ltac:(by left) ltac:(done)) as (pad & E & _).
  exists pad. exact E.
Defined.

(** ** Entries for the mode bits *)

(** The two entries of a class: what it is denied and what it is allowed. *)
Definition mode_pair (who flag : Z) (r w x : bool) : list fsal_ace_t :=
  let perm (b : bool) (p : Z) := if b then p else 0 in
  let perms (f : bool -> bool) :=
    Z.lor (Z.lor (perm (f r) FSAL_ACE_PERM_READ_DATA)
             (perm (f w) (Z.lor FSAL_ACE_PERM_WRITE_DATA FSAL_ACE_PERM_APPEND_DATA)))
      (perm (f x) FSAL_ACE_PERM_EXECUTE) in
  let iflag := Z.lor FSAL_ACE_IFLAG_MODE_GEN FSAL_ACE_IFLAG_SPECIAL_ID in
  [mk_ace FSAL_ACE_TYPE_DENY (perms negb) flag iflag who;
   mk_ace FSAL_ACE_TYPE_ALLOW (perms id) flag iflag who].

(** The six entries for a mode. *)
Definition mode_aces (mode : Z) : list fsal_ace_t :=
  let b := Z.testbit mode in
  mode_pair FSAL_ACE_SPECIAL_OWNER 0 (b 8) (b 7) (b 6) ++
  mode_pair FSAL_ACE_SPECIAL_GROUP FSAL_ACE_FLAG_GROUP_ID (b 5) (b 4) (b 3) ++
  mode_pair FSAL_ACE_SPECIAL_EVERYONE 0 (b 2) (b 1) (b 0).

Lemma mode_gen_pair_zeros pre k who (group : bool) mode :
  mode_gen_pair (length pre) who group mode (pre ++ zeros (S (S k))) =
  Some ((pre ++ mode_pair who (if group then FSAL_ACE_FLAG_GROUP_ID else 0)
           (Z.testbit mode 8) (Z.testbit mode 7) (Z.testbit mode 6)) ++ zeros k).
Proof.
  unfold mode_gen_pair, ace_get.
  assert ((pre ++ zeros (S (S k))) !! length pre = Some zero_ace) as ->
    by (rewrite lookup_app_r, Nat.sub_diag by lia; done).
  assert ((pre ++ zeros (S (S k))) !! S (length pre) = Some zero_ace) as ->
    by (rewrite lookup_app_r, Nat.sub_succ_l, Nat.sub_diag by lia; done).
  cbn [mbind option_bind]. unfold fsal_mode_set_ace.
  change S_IRUSR with (2 ^ 8). change S_IWUSR with (2 ^ 7). change S_IXUSR with (2 ^ 6).
  rewrite !land_pow2 by lia. rewrite !negb_involutive.
  assert (forall d a, (ace_put (length pre) d (pre ++ zeros (S (S k))) ≫= ace_put (S (length pre)) a)
            = Some ((pre ++ [d; a]) ++ zeros k)) as Hput.
  { intros d a. rewrite put_next. simpl.
    replace (S (length pre)) with (length (pre ++ [d])) by (rewrite length_app; simpl; lia).
    rewrite put_next. by rewrite <- !app_assoc. }
  destruct (Z.testbit mode 8), (Z.testbit mode 7), (Z.testbit mode 6), group;
    simpl; rewrite Hput; reflexivity.
Qed.

Lemma shifted_bit mode mask s b :
  0 <= b -> Z.testbit mask (b - s) = true ->
  Z.testbit (Z.shiftl (Z.land mode mask) s) b = Z.testbit mode (b - s).
Proof. intros Hb Hm. by rewrite Z.shiftl_spec, Z.land_spec, Hm, andb_true_r by lia. Qed.

Lemma masked_bit mode mask b :
  Z.testbit mask b = true -> Z.testbit (Z.land mode mask) b = Z.testbit mode b.
Proof. intros Hm. by rewrite Z.land_spec, Hm, andb_true_r. Qed.

Lemma mode_gen_set_zeros pre mode k :
  fsal_mode_gen_set (length pre) mode (pre ++ zeros (6 + k)) = Some ((pre ++ mode_aces mode) ++ zeros k).
Proof.
  unfold fsal_mode_gen_set. change (6 + k)%nat with (S (S (4 + k))).
  rewrite mode_gen_pair_zeros. cbn [mbind option_bind].
  set (p1 := pre ++ _).
  replace (length pre + 2)%nat with (length p1) by (unfold p1; rewrite length_app; simpl; lia).
  change (4 + k)%nat with (S (S (2 + k))). rewrite mode_gen_pair_zeros. cbn [mbind option_bind].
  set (p2 := p1 ++ _).
  replace (length pre + 4)%nat with (length p2)
    by (unfold p2, p1; rewrite !length_app; simpl; lia).
  change (2 + k)%nat with (S (S k)). rewrite mode_gen_pair_zeros.
  unfold p2, p1, mode_aces. rewrite <- !app_assoc.
  rewrite !(shifted_bit mode S_IRWXG 3), !(shifted_bit mode S_IRWXO 6) by done.
  rewrite !(masked_bit mode S_IRWXU) by done. done.
Qed.

Lemma mode_gen_acl_result attrs :
  fsal_mode_gen_acl attrs =
  Some (fsalstat ERR_FSAL_NO_ERROR 0, set_at_acl (Some (mode_aces (at_mode attrs))) attrs).
Proof.
  unfold fsal_mode_gen_acl.
  pose proof (mode_gen_set_zeros [] (at_mode attrs) 0) as E. rewrite app_nil_r in E.
  cbn [app length Nat.add] in E. unfold zeros in E. by rewrite E.
Qed.

(** ** Carrying entries over *)

(** How many entries a copied entry makes, and how many are mode made. *)
Definition carried (sace : fsal_ace_t) : nat :=
  if IS_FSAL_ACE_MODE_GEN sace then 0
  else if IS_FSAL_ACE_INHERIT_ONLY sace || negb (IS_FSAL_ACE_PERM sace) then 1
  else if IS_FSAL_ACE_INHERIT sace then 2 else 1.

Definition mode_made (sacl : list fsal_ace_t) : nat :=
  length (filter (fun a => IS_FSAL_ACE_MODE_GEN a = true) sacl).

Lemma carry_count_sum sacl : carry_count sacl = sum_list_with carried sacl.
Proof.
  unfold carry_count. enough (forall n, foldl (fun naces sace =>
           if IS_FSAL_ACE_MODE_GEN sace then naces else
           let naces := S naces in
           if IS_FSAL_ACE_INHERIT_ONLY sace then naces else
           if negb (IS_FSAL_ACE_PERM sace) then naces else
           if IS_FSAL_ACE_INHERIT sace then S naces else naces) n sacl
         = n + sum_list_with carried sacl)%nat as H by apply (H 0%nat).
  induction sacl as [|a sacl IH]; intros n; simpl; [lia|]. rewrite IH. unfold carried.
  destruct (IS_FSAL_ACE_MODE_GEN a), (IS_FSAL_ACE_INHERIT_ONLY a), (IS_FSAL_ACE_PERM a),
    (IS_FSAL_ACE_INHERIT a); simpl; lia.
Qed.

Lemma carry_ace_moves sace aces n d aces' n' d' :
  carry_ace sace (aces, n, d) = Some (aces', n', d') ->
  length aces' = length aces /\ n' = (n + carried sace)%nat /\
  d' = (d + carried sace + (if IS_FSAL_ACE_MODE_GEN sace then 1 else 0))%nat.
Proof.
  unfold carry_ace, carried. destruct (IS_FSAL_ACE_MODE_GEN sace).
  { intros [= <- <- <-]. split; [done|lia]. }
  destruct (_ || _); [|destruct (IS_FSAL_ACE_INHERIT sace)].
  - destruct (ace_put d sace aces) eqn:E; simpl; [|done]. intros [= <- <- <-].
    apply put_length in E. split; [done|lia].
  - destruct (ace_put d _ aces) as [a1|] eqn:E1; simpl; [|done].
    destruct (ace_put (S d) _ a1) eqn:E2; simpl; [|done]. intros [= <- <- <-].
    apply put_length in E1, E2. split; [congruence|lia].
  - destruct (ace_put d _ aces) eqn:E; simpl; [|done]. intros [= <- <- <-].
    apply put_length in E. split; [done|lia].
Qed.

Lemma carry_aces_moves sacl aces n d aces' n' d' :
  carry_aces sacl (aces, n, d) = Some (aces', n', d') ->
  length aces' = length aces /\ n' = (n + sum_list_with carried sacl)%nat /\
  d' = (d + sum_list_with carried sacl + mode_made sacl)%nat.
Proof.
  revert aces n d. induction sacl as [|a sacl IH]; intros aces n d; simpl.
  { intros [= <- <- <-]. split; [done|unfold mode_made; simpl; lia]. }
  destruct (carry_ace a (aces, n, d)) as [[[a1 n1] d1]|] eqn:E; simpl; [|done].
  apply carry_ace_moves in E as (L1 & -> & ->). intros (L & -> & ->)%IH.
  split; [congruence|]. unfold mode_made. rewrite filter_cons.
  case_decide as Hg; [rewrite Hg; simpl; lia|].
  apply not_true_is_false in Hg. rewrite Hg. lia.
Qed.

Lemma mode_gen_set_bounds d mode aces aces' :
  fsal_mode_gen_set d mode aces = Some aces' -> (d + 6 <= length aces)%nat.
Proof.
  assert (forall i who g m l l', mode_gen_pair i who g m l = Some l' ->
            (S i < length l)%nat /\ length l' = length l) as Hp.
  { intros i who g m l l'. unfold mode_gen_pair, ace_get.
    destruct (l !! i) as [a|]; simpl; [|done].
    destruct (l !! S i) as [b|] eqn:Eb; simpl; [|done].
    destruct (fsal_mode_set_ace _ _ _) as [x y].
    destruct (ace_put i x l) as [l1|] eqn:E1; simpl; [|done]. intros E2.
    apply put_length in E1, E2. apply lookup_lt_Some in Eb. split; [done|congruence]. }
  unfold fsal_mode_gen_set.
  destruct (mode_gen_pair d _ _ _ aces) as [l1|] eqn:E1; simpl; [|done].
  destruct (mode_gen_pair (d + 2) _ _ _ l1) as [l2|] eqn:E2; simpl; [|done]. intros E3.
  apply Hp in E1, E2, E3. lia.
Qed.

(** [fsal_mode_to_acl] writes behind the end of the block it
    allocates whenever the old ACL has an entry made from mode bits beside
    an entry that is carried over: the destination pointer also advances
    for the entries that are skipped. *)
Theorem mode_to_acl_overruns attrs sacl :
  FSAL_TEST_MASK (at_mask attrs) ATTR_MODE = true ->
  (exists a, a ∈ sacl /\ IS_FSAL_ACE_MODE_GEN a = true) ->
  (exists a, a ∈ sacl /\ IS_FSAL_ACE_MODE_GEN a = false) ->
  fsal_mode_to_acl attrs (Some sacl) = None.
Proof.
  intros Hm (g & Hg & Hgen) (c & Hc & Hcar). unfold fsal_mode_to_acl. rewrite Hm. simpl.
  destruct sacl as [|s0 sacl0]; [by apply elem_of_nil in Hg|]. set (sacl := s0 :: sacl0) in *.
  assert (1 <= carry_count sacl)%nat as Hcount.
  { rewrite carry_count_sum. apply list_elem_of_split in Hc as (l1 & l2 & ->).
    rewrite sum_list_with_app. simpl. unfold carried at 2. rewrite Hcar.
    repeat case_match; lia. }
  rewrite decide_False by lia.
  destruct (carry_aces sacl _) as [[[aces n] d]|] eqn:E; simpl; [|done].
  apply carry_aces_moves in E as (L & -> & ->). rewrite carry_count_sum. simpl.
  rewrite decide_False by lia.
  destruct (fsal_mode_gen_set _ _ aces) as [aces'|] eqn:E'; simpl; [|done].
  apply mode_gen_set_bounds in E'. unfold nfs4_ace_alloc in L. rewrite length_replicate in L.
  assert (1 <= mode_made sacl)%nat.
  { unfold mode_made. apply list_elem_of_split in Hg as (l1 & l2 & ->).
    rewrite filter_app, filter_cons, length_app. rewrite decide_True by done. simpl. lia. }
  rewrite carry_count_sum in L. unfold sacl in L at 1. simpl in L. lia.
Qed.

Lemma mode_to_acl_overruns_witness :
  fsal_mode_to_acl (mk_attrs ATTR_MODE REGULAR_FILE 0 0 0x1FF None)
    (Some (mk_ace FSAL_ACE_TYPE_ALLOW 1 0 0 500 :: mode_aces 0x1A4)) = None.
Proof.
  apply mode_to_acl_overruns.
  - reflexivity.
  - exists (mk_ace FSAL_ACE_TYPE_DENY 0x20 0 0x90000000 1). split; [|reflexivity].
    apply list_elem_of_In. vm_compute. auto.
  - exists (mk_ace FSAL_ACE_TYPE_ALLOW 1 0 0 500). split; [by left|reflexivity].
Defined.

(** What an entry that is carried over becomes. *)
Definition strip_special (a : fsal_ace_t) : fsal_ace_t :=
  if IS_FSAL_ACE_SPECIAL a
  then set_ace_perm (Z.land (ace_perm a) (Z.lnot mode_perms)) a else a.

Definition carried_aces (sace : fsal_ace_t) : list fsal_ace_t :=
  if IS_FSAL_ACE_INHERIT_ONLY sace || negb (IS_FSAL_ACE_PERM sace) then [sace]
  else if IS_FSAL_ACE_INHERIT sace then
    [set_ace_flag (Z.lor (ace_flag sace) FSAL_ACE_FLAG_INHERIT_ONLY) sace;
     strip_special (set_ace_flag (Z.land (ace_flag sace) (Z.lnot FSAL_ACE_FLAG_INHERIT)) sace)]
  else [strip_special sace].

Lemma carried_length sace :
  IS_FSAL_ACE_MODE_GEN sace = false -> length (carried_aces sace) = carried sace.
Proof. intros Hg. unfold carried, carried_aces. rewrite Hg. by repeat case_match. Qed.

Lemma carry_ace_emits sace pre k n :
  IS_FSAL_ACE_MODE_GEN sace = false ->
  carry_ace sace (pre ++ zeros (carried sace + k), n, length pre) =
  Some ((pre ++ carried_aces sace) ++ zeros k, (n + carried sace)%nat,
         length (pre ++ carried_aces sace)).
Proof.
  intros Hg. unfold carry_ace, carried, carried_aces. rewrite Hg.
  assert (forall a, (ace_put (length pre) a (pre ++ zeros (1 + k))
    ≫= fun aces => Some (aces, S n, S (length pre)))
    = Some ((pre ++ [a]) ++ zeros k, (n + 1)%nat, length (pre ++ [a]))) as H1.
  { intros a. change (1 + k)%nat with (S k). rewrite put_next. cbn [mbind option_bind].
    rewrite length_app. simpl. do 3 f_equal; lia. }
  destruct (_ || _); [apply H1|]. fold (strip_special sace).
  destruct (IS_FSAL_ACE_INHERIT sace); [|apply H1].
  change (2 + k)%nat with (S (S k)). rewrite put_next. cbn [mbind option_bind].
  match goal with |- context [(pre ++ [?a]) ++ zeros (S k)] =>
    replace (S (length pre)) with (length (pre ++ [a])) by (rewrite length_app; simpl; lia) end.
  rewrite put_next. cbn [mbind option_bind].
  rewrite <- !app_assoc, !length_app. simpl. unfold strip_special. do 3 f_equal; lia.
Qed.

Lemma carry_aces_emits sacl pre k n :
  (forall a, a ∈ sacl -> IS_FSAL_ACE_MODE_GEN a = false) ->
  carry_aces sacl (pre ++ zeros (sum_list_with carried sacl + k), n, length pre) =
  Some ((pre ++ flat_map carried_aces sacl) ++ zeros k, (n + sum_list_with carried sacl)%nat,
         length (pre ++ flat_map carried_aces sacl)).
Proof.
  revert pre n. induction sacl as [|a sacl IH]; intros pre n Hg; simpl.
  { rewrite app_nil_r. do 3 f_equal. lia. }
  rewrite <- Nat.add_assoc, carry_ace_emits by (apply Hg; by left). cbn [mbind option_bind].
  rewrite IH by (intros; apply Hg; by right). rewrite <- !app_assoc, Nat.add_assoc. done.
Qed.

(** Without such entries [fsal_mode_to_acl] stays inside its block:
    the new ACL is the entries carried over, followed by the six for the
    mode bits. *)
Theorem mode_to_acl_result attrs sacl :
  FSAL_TEST_MASK (at_mask attrs) ATTR_MODE = true -> sacl <> [] ->
  (forall a, a ∈ sacl -> IS_FSAL_ACE_MODE_GEN a = false) ->
  fsal_mode_to_acl attrs (Some sacl) =
  Some (fsalstat ERR_FSAL_NO_ERROR 0,
         set_at_acl (Some (flat_map carried_aces sacl ++ mode_aces (at_mode attrs))) attrs).
Proof.
  intros Hm Hne Hg. unfold fsal_mode_to_acl. rewrite Hm. simpl.
  destruct sacl as [|s0 sacl0]; [done|]. set (sacl := s0 :: sacl0) in *.
  assert (carry_count sacl <> 0)%nat as Hn.
  { rewrite carry_count_sum. unfold sacl. simpl. unfold carried at 1.
    rewrite (Hg s0) by (by left). repeat case_match; lia. }
  rewrite decide_False by done.
  pose proof (carry_aces_emits sacl [] 6 0 Hg) as E. cbn [app length] in E.
  rewrite carry_count_sum. unfold zeros in E. rewrite E. cbn [mbind option_bind].
  rewrite decide_False by lia. rewrite (mode_gen_set_zeros _ _ 0).
  cbn [mbind option_bind]. by rewrite app_nil_r.
Qed.

Lemma mode_to_acl_result_witness :
  exists aces, fsal_mode_to_acl (mk_attrs ATTR_MODE REGULAR_FILE 0 0 0x1FF None)
    (Some [mk_ace FSAL_ACE_TYPE_ALLOW 1 0 0 500]) =
    Some (fsalstat ERR_FSAL_NO_ERROR 0,
           set_at_acl (Some aces) (mk_attrs ATTR_MODE REGULAR_FILE 0 0 0x1FF None)).
Proof.
  eexists. apply (mode_to_acl_result (mk_attrs ATTR_MODE REGULAR_FILE 0 0 0x1FF None)
    [mk_ace FSAL_ACE_TYPE_ALLOW 1 0 0 500]).
  - reflexivity.
  - discriminate.
  - intros a ->%list_elem_of_singleton. reflexivity.
Defined.

(** ** An ACL made from mode bits means the mode bits *)

(** A request for any of read, write and execute. *)
Definition rwx_access (r w x : bool) : Z :=
  Z.lor (if r then FSAL_READ_ACCESS else 0)
    (Z.lor (if w then FSAL_WRITE_ACCESS else 0) (if x then FSAL_EXECUTE_ACCESS else 0)).

Lemma shiftr_test mode s k : 0 <= s -> 0 <= k ->
  (Z.land (Z.shiftr mode s) (2 ^ k) =? 0) = negb (Z.testbit mode (k + s)).
Proof. intros Hs Hk. by rewrite land_pow2, Z.shiftr_spec by lia. Qed.

(** The bit of the caller's class, given those of the three classes. *)
Definition class_bit (creds : user_cred) (attrs : attrlist) (u g o : Z) : bool :=
  let b := Z.testbit (at_mode attrs) in
  if acl_owner creds attrs then b u else if acl_group creds attrs then b g else b o.

Definition class_grants creds attrs (r w x : bool) : bool :=
  (negb r || class_bit creds attrs 8 5 2) && (negb w || class_bit creds attrs 7 4 1)
  && (negb x || class_bit creds attrs 6 3 0).

Ltac mode_cases attrs :=
  repeat match goal with
  | |- context [Z.testbit (at_mode attrs) ?k] => destruct (Z.testbit (at_mode attrs) k)
  end.

Lemma mode_side creds attrs r w x :
  caller_uid creds <> 0 ->
  FSAL_IS_ERROR (fsal_check_access_no_acl creds (FSAL_MODE_MASK (rwx_access r w x)) None None
                   attrs).1.1 = negb (class_grants creds attrs r w x).
Proof.
  intros Hroot. unfold fsal_check_access_no_acl, class_grants, class_bit.
  rewrite (proj2 (Z.eqb_neq _ _) Hroot).
  change (caller_uid creds =? u32 (at_owner attrs)) with (acl_owner creds attrs).
  fold (fsal_check_ace_group (u32 (at_group attrs)) creds). fold (acl_group creds attrs).
  change S_IROTH with (2 ^ 2). change S_IWOTH with (2 ^ 1). change S_IXOTH with (2 ^ 0).
  destruct (acl_owner creds attrs); [|destruct (acl_group creds attrs)];
    rewrite ?shiftr_test, ?land_pow2, !negb_involutive by lia;
    try change (2 + 6) with 8; try change (1 + 6) with 7; try change (0 + 6) with 6;
    try change (2 + 3) with 5; try change (1 + 3) with 4; try change (0 + 3) with 3;
    mode_cases attrs; destruct r, w, x; vm_compute; reflexivity.
Qed.

Lemma acl_side rfc_acl creds attrs acl_attrs r w x :
  caller_uid creds <> 0 -> acl_attrs = set_at_acl (Some (mode_aces (at_mode attrs))) attrs ->
  FSAL_IS_ERROR (fsal_check_access_acl rfc_acl creds (FSAL_ACE4_MASK (rwx_access r w x)) None None
                   acl_attrs).1.1 = negb (class_grants creds attrs r w x).
Proof.
  intros Hroot ->. unfold fsal_check_access_acl, class_grants, class_bit. cbn [at_acl set_at_acl].
  rewrite (proj2 (Z.eqb_neq _ _) Hroot). cbn [at_owner at_group at_type set_at_acl].
  fold (acl_owner creds attrs) (acl_group creds attrs) (acl_dir attrs).
  unfold mode_aces. cbn [andb].
  generalize (Z.testbit (at_mode attrs) 8) (Z.testbit (at_mode attrs) 7)
    (Z.testbit (at_mode attrs) 6) (Z.testbit (at_mode attrs) 5) (Z.testbit (at_mode attrs) 4)
    (Z.testbit (at_mode attrs) 3) (Z.testbit (at_mode attrs) 2) (Z.testbit (at_mode attrs) 1)
    (Z.testbit (at_mode attrs) 0).
  generalize (acl_owner creds attrs) (acl_group creds attrs) (acl_dir attrs).
  intros owner group dir b8 b7 b6 b5 b4 b3 b2 b1 b0.
  destruct owner; [destruct b8, b7, b6|destruct group; [destruct b5, b4, b3|destruct b2, b1, b0]];
    destruct rfc_acl, dir, r, w, x; vm_compute; reflexivity.
Qed.

(** C32: for a caller that is not root, the ACL that [fsal_mode_gen_acl]
    makes from the mode bits answers every request for read, write and
    execute as the mode bits do. *)
Theorem mode_acl_agrees rfc_acl creds attrs status attrs' r w x :
  caller_uid creds <> 0 -> at_acl attrs = None ->
  fsal_mode_gen_acl attrs = Some (status, attrs') ->
  let ok := fsalstat ERR_FSAL_NO_ERROR 0 in
  FSAL_IS_ERROR (fsal_test_access rfc_acl creds (ok, attrs') (rwx_access r w x) None None false).1.1
  = FSAL_IS_ERROR (fsal_test_access rfc_acl creds (ok, attrs) (rwx_access r w x) None None false).1.1.
Proof.
  intros Hroot Hacl. rewrite mode_gen_acl_result. intros [= <- <-] ok.
  unfold fsal_test_access. cbn [at_acl set_at_acl]. rewrite Hacl.
  change (FSAL_IS_ERROR ok) with false. cbn [andb].
  assert (IS_FSAL_ACE4_REQ (rwx_access r w x) = false) as -> by (by destruct r, w, x).
  rewrite bool_decide_eq_true_2 by eauto. rewrite bool_decide_eq_false_2 by (by intros []).
  cbn [orb andb]. rewrite (mode_side creds attrs r w x Hroot).
  destruct (IS_FSAL_ACE4_MASK_VALID (rwx_access r w x)).
  - by apply acl_side.
  - by rewrite (mode_side creds (set_at_acl _ attrs) r w x Hroot).
Qed.

Lemma mode_acl_agrees_witness :
  exists attrs', fsal_mode_gen_acl (mk_attrs 0 REGULAR_FILE 10 20 0x1A4 None) =
    Some (fsalstat ERR_FSAL_NO_ERROR 0, attrs') /\
  FSAL_IS_ERROR (fsal_test_access false (mk_cred 11 20 []) (fsalstat ERR_FSAL_NO_ERROR 0, attrs')
    FSAL_WRITE_ACCESS None None false).1.1 = true.
Proof.
  eexists. split; [reflexivity|].
  etrans; [|exact (eq_refl : FSAL_IS_ERROR (fsal_test_access false (mk_cred 11 20 [])
    (fsalstat ERR_FSAL_NO_ERROR 0, mk_attrs 0 REGULAR_FILE 10 20 0x1A4 None)
    FSAL_WRITE_ACCESS None None false).1.1 = true)].
  exact (mode_acl_agrees false (mk_cred 11 20 []) (mk_attrs 0 REGULAR_FILE 10 20 0x1A4 None)
    _ _ false true false ltac:(done) eq_refl eq_refl).
Defined.

(** ** Back to mode bits *)

(** The entries for everybody, which come last, decide alone. *)
Lemma everyone_decides m r w x :
  Z.land (foldl ace_to_mode m (mode_pair FSAL_ACE_SPECIAL_EVERYONE 0 r w x)) 0x1FF =
  Z.lor (if r then 0x124 else 0) (Z.lor (if w then 0x92 else 0) (if x then 0x49 else 0)).
Proof.
  set (put (b : bool) k m := if b then Z.lor m k else Z.land m (Z.lnot k)).
  assert (foldl ace_to_mode m (mode_pair FSAL_ACE_SPECIAL_EVERYONE 0 r w x) =
    let deny (b : bool) k m := if b then m else put false k m in
    let allow (b : bool) k m := if b then put true k m else m in
    allow x 0x49 (allow w 0x92 (allow r 0x124 (deny x 0x49 (deny w 0x92 (deny r 0x124 m))))))
    as -> by (destruct r, w, x; reflexivity).
  by_bits. destruct (decide (n < 9)) as [Hlt|Hge].
  - assert (n = 0 \/ n = 1 \/ n = 2 \/ n = 3 \/ n = 4 \/ n = 5 \/ n = 6 \/ n = 7 \/ n = 8)
      as Hcase by lia.
    unfold put. destruct r, w, x; autorewrite with bits; destruct_or! Hcase; subst n;
      match goal with |- context [Z.testbit m ?k] => generalize (Z.testbit m k) end;
      intros []; reflexivity.
  - change 0x1FF with (Z.ones 9). rewrite Z.ones_spec_high, andb_false_r by lia.
    assert (forall c, 0 <= c < 2 ^ 9 -> Z.testbit c n = false) as Hhigh.
    { intros c Hc. rewrite <- (Z.mod_small c (2 ^ 9)) by done.
      apply Z.mod_pow2_bits_high. lia. }
    destruct r, w, x; rewrite ?Hhigh, ?Z.testbit_0_l by done; done.
Qed.

(** [fsal_acl_to_mode] applies the entries in order, the last one
    winning, while an ACL is read with the first one winning: of an ACL that
    stands for mode bits only the bits of the others survive, and every
    class gets them. *)
Theorem acl_to_mode_loses_classes attrs status attrs' :
  fsal_mode_gen_acl attrs = Some (status, attrs') ->
  Z.land (at_mode (fsal_acl_to_mode attrs').2) 0x1FF = 0x49 * Z.land (at_mode attrs) 7.
Proof.
  rewrite mode_gen_acl_result. intros [= <- <-]. unfold fsal_acl_to_mode.
  assert (FSAL_TEST_MASK (at_mask (set_at_acl (Some (mode_aces (at_mode attrs))) attrs)) ATTR_ACL
          = true) as ->.
  { unfold FSAL_TEST_MASK, set_at_acl, FSAL_SET_MASK. cbn [at_mask].
    change ATTR_ACL with (2 ^ 5). rewrite land_pow2, Z.lor_spec by lia.
    by rewrite Z.pow2_bits_true, orb_true_r by lia. }
  cbn [negb at_acl set_at_acl at_mode snd]. unfold mode_aces at 1. cbn [app mode_pair].
  change (Z.land (foldl ace_to_mode (at_mode attrs) (mode_aces (at_mode attrs))) 0x1FF
          = 0x49 * Z.land (at_mode attrs) 7).
  unfold mode_aces. rewrite !foldl_app, everyone_decides.
  assert (Z.land (at_mode attrs) 7 =
    Z.lor (if Z.testbit (at_mode attrs) 2 then 4 else 0)
      (Z.lor (if Z.testbit (at_mode attrs) 1 then 2 else 0)
         (if Z.testbit (at_mode attrs) 0 then 1 else 0))) as ->.
  { rewrite Z.land_comm. apply (Z.mul_cancel_r _ _ (2 ^ 24)); [done|].
    rewrite <- !Z.shiftl_mul_pow2, <- mask_of_mode by lia.
    change S_IROTH with (2 ^ 2). change S_IWOTH with (2 ^ 1). change S_IXOTH with (2 ^ 0).
    rewrite !land_pow2, !negb_involutive by lia.
    by destruct (Z.testbit (at_mode attrs) 2), (Z.testbit (at_mode attrs) 1),
      (Z.testbit (at_mode attrs) 0). }
  by destruct (Z.testbit (at_mode attrs) 2), (Z.testbit (at_mode attrs) 1),
    (Z.testbit (at_mode attrs) 0).
Qed.

(** Mode 0700 comes back as 0. *)
Lemma acl_to_mode_loses_classes_witness :
  exists status attrs', fsal_mode_gen_acl (mk_attrs 0 REGULAR_FILE 10 20 0x1C0 None) =
    Some (status, attrs') /\ Z.land (at_mode (fsal_acl_to_mode attrs').2) 0x1FF = 0.
Proof.
  do 2 eexists. split; [reflexivity|].
  apply (acl_to_mode_loses_classes (mk_attrs 0 REGULAR_FILE 10 20 0x1C0 None) _ _ eq_refl).
Defined.

(** ** The checks *)

Lemma first_match_bit creds dir owner group aces n :
  first_match creds dir owner group aces n = Some true ->
  exists a, a ∈ aces /\ Z.testbit (ace_perm a) n = true.
Proof.
  induction aces as [|a aces IH]; simpl; [done|].
  destruct (_ && Z.testbit (ace_perm a) n) eqn:E.
  - intros _. apply andb_true_iff in E as [_ E]. exists a. split; [by left|done].
  - intros (b & Hb & Hn)%IH. exists b. split; [by right|done].
Qed.

(** The permissions of an entry fit the 21 bits of NFSv4. *)
Definition perms_ok (attrs : attrlist) : Prop :=
  forall aces a, at_acl attrs = Some aces -> a ∈ aces -> Z.testbit (ace_perm a) 28 = false.

Lemma required_never_granted rfc_acl creds getattrs obj access :
  caller_uid creds <> 0 -> perms_ok (getattrs obj).2 -> Z.testbit access 28 = true ->
  FSAL_IS_ERROR (test_access rfc_acl creds getattrs obj access) = true.
Proof.
  intros Hroot Hp Hb. unfold test_access, fsal_test_access.
  destruct (getattrs obj) as [st attrs]. simpl in Hp.
  destruct (FSAL_IS_ERROR st) eqn:Est; [done|]. cbn [andb].
  assert (IS_FSAL_ACE4_REQ access = true) as ->.
  { unfold IS_FSAL_ACE4_REQ. change FSAL_ACE4_REQ_FLAG with (2 ^ 28).
    by rewrite land_pow2, Hb by lia. }
  cbn [orb]. destruct (at_acl attrs) as [aces|] eqn:Ea.
  2:{ unfold fsal_check_access_acl. by rewrite Ea. }
  apply not_false_is_true. intros Hok.
  pose proof (proj1 (acl_verdict rfc_acl creds _ None None attrs aces Hroot Ea (or_introl eq_refl))
    Hok 28) as [[_ Ho]|Hf].
  - repeat split; [done|]. unfold FSAL_ACE4_MASK. by rewrite Z.land_spec, Hb.
  - done.
  - apply first_match_bit in Hf as (a & Hin & Hn). by rewrite (Hp aces a Ea Hin) in Hn.
Qed.

(** The permissions to delete never allow a removal: the flag that asks
    for an explicit allow stays among the missing permissions, so the checks
    for DELETE and DELETE_CHILD fail whatever the ACLs say, and a caller that
    is not root can remove an object only when it may add one to the
    directory. *)
Theorem delete_permission_ignored rfc_acl creds getattrs dir obj isdir :
  caller_uid creds <> 0 -> perms_ok (getattrs dir).2 -> perms_ok (getattrs obj).2 ->
  FSAL_IS_ERROR (fsal_remove_access rfc_acl creds getattrs dir obj isdir) = false ->
  FSAL_IS_ERROR (test_access rfc_acl creds getattrs dir
    (Z.lor (FSAL_MODE_MASK_SET FSAL_W_OK)
       (FSAL_ACE4_MASK_SET (if isdir then FSAL_ACE_PERM_ADD_SUBDIRECTORY
                            else FSAL_ACE_PERM_ADD_FILE)))) = false.
Proof.
  intros Hroot Hd Ho. unfold fsal_remove_access.
  destruct (FSAL_IS_ERROR (test_access _ _ _ dir _)) eqn:E1 at 1; [congruence|].
  rewrite !(required_never_granted rfc_acl creds getattrs) by done. cbn [andb].
  case_decide as H1; [by rewrite required_never_granted|].
  case_decide as H2; [by rewrite required_never_granted|].
  match goal with |- context [if FSAL_IS_ERROR ?s then _ else _] =>
    destruct (FSAL_IS_ERROR s) eqn:E2 end; [congruence|done].
Qed.

(** A directory whose ACL grants everybody execute and the permission to add
    files, and an object whose ACL grants everybody DELETE. *)
Definition example_getattrs (dir_perm : Z) (obj : nat) : fsal_status_t * attrlist :=
  (fsalstat ERR_FSAL_NO_ERROR 0,
    mk_attrs 0 (if decide (obj = 1%nat) then DIRECTORY else REGULAR_FILE) 10 20 0
      (Some [allow_everyone_ace
               (if decide (obj = 1%nat) then dir_perm else FSAL_ACE_PERM_DELETE)])).

Lemma delete_permission_ignored_witness :
  FSAL_IS_ERROR (fsal_remove_access false (mk_cred 11 20 []) (example_getattrs 0x20) 1 2 false)
  = true /\
  FSAL_IS_ERROR (test_access false (mk_cred 11 20 []) (example_getattrs 0x22) 1
    (Z.lor (FSAL_MODE_MASK_SET FSAL_W_OK) (FSAL_ACE4_MASK_SET FSAL_ACE_PERM_ADD_FILE))) = false.
Proof.
  split; [vm_compute; reflexivity|].
  apply (delete_permission_ignored false (mk_cred 11 20 []) (example_getattrs 0x22) 1 2 false).
  - done.
  - intros aces a [= <-] ->%list_elem_of_singleton. reflexivity.
  - intros aces a [= <-] ->%list_elem_of_singleton. reflexivity.
  - vm_compute. reflexivity.
Defined.

(** A refusal of permissions that are not about attributes is EACCES. *)
Lemma check_aces_no_perm rfc_acl creds v4mask dir owner group root aces m a d :
  Z.land m attr_perms = 0 ->
  match check_aces rfc_acl creds v4mask dir owner group root aces m a d with
  | acl_return st _ _ => major st <> ERR_FSAL_PERM
  | acl_done m' _ _ => Z.land m' attr_perms = 0
  end.
Proof.
  assert (forall p m, Z.land m attr_perms = 0 -> Z.land (Z.land m p) attr_perms = 0) as Hsub.
  { intros p m' Hm. rewrite <- Z.land_assoc, (Z.land_comm p), Z.land_assoc, Hm. done. }
  revert m a d. induction aces as [|x aces IH]; intros m a d Hm; simpl; [done|].
  destruct (negb _ && negb _); [by apply IH|].
  destruct (fsal_check_ace_applicable _ _ _ _ _ _); [|by apply IH].
  destruct (IS_FSAL_ACE_ALLOW x).
  - destruct (_ =? 0); [by apply Hsub|]. by apply IH, Hsub.
  - destruct (negb _ && negb _); [|by apply IH]. destruct (_ || _).
    + unfold refusal. rewrite (Z.land_comm (ace_perm x) m), Hsub by done.
      simpl. by rewrite andb_false_r.
    + destruct (_ =? 0); [by apply Hsub|]. by apply IH, Hsub.
Qed.

Lemma access_acl_no_perm rfc_acl creds v4mask attrs :
  Z.land v4mask attr_perms = 0 ->
  major (fsal_check_access_acl rfc_acl creds v4mask None None attrs).1.1 <> ERR_FSAL_PERM.
Proof.
  assert (forall p m, Z.land m attr_perms = 0 -> Z.land (Z.land m p) attr_perms = 0) as Hsub.
  { intros p m' Hm. rewrite <- Z.land_assoc, (Z.land_comm p), Z.land_assoc, Hm. done. }
  intros Hv. unfold fsal_check_access_acl. destruct (at_acl attrs) as [aces|]; [|done].
  set (m0 := Z.land v4mask (Z.lnot _)). assert (Z.land m0 attr_perms = 0) as Hm0 by (by apply Hsub).
  destruct (m0 =? 0); [done|]. do 3 (destruct (_ && _); [done|]).
  match goal with |- context [check_aces _ _ _ _ _ _ _ aces ?m _ _] => set (m2 := m) end.
  assert (Z.land m2 attr_perms = 0) as Hm2 by (unfold m2; repeat case_match; auto).
  match goal with |- context [check_aces ?r ?c ?v ?di ?o ?g ?ro aces m2 ?a ?d] =>
    pose proof (check_aces_no_perm r c v di o g ro aces m2 a d Hm2) as Hs;
    destruct (check_aces r c v di o g ro aces m2 a d) as [st a' d'|m a' d'] end; [done|].
  cbn [fst]. destruct (_ && _); [done|]. destruct (_ || _); [|done].
  unfold refusal. by rewrite Hs, andb_false_r.
Qed.

Lemma access_no_acl_no_perm creds access attrs :
  major (fsal_check_access_no_acl creds access None None attrs).1.1 <> ERR_FSAL_PERM.
Proof.
  unfold fsal_check_access_no_acl. destruct (access =? 0); [done|].
  destruct (caller_uid creds =? 0).
  - case_decide; [done|]. by destruct (negb _).
  - cbn [fst]. by destruct (_ =? _).
Qed.

(** The retry of an open for reading with execute permission is never
    reached: the access check refuses read permission with EACCES, and only
    EPERM leads to the retry. *)
Theorem open_never_tries_execute rfc_acl creds getattrs obj :
  major (getattrs obj).1 <> ERR_FSAL_PERM ->
  check_open_permission rfc_acl creds getattrs obj FSAL_O_READ =
  fsal_access rfc_acl creds getattrs obj FSAL_READ_ACCESS.
Proof.
  intros Hg. unfold check_open_permission. change (Z.land FSAL_O_READ FSAL_O_READ =? 0) with false.
  change (Z.land FSAL_O_READ FSAL_O_WRITE =? 0) with true. cbn [negb].
  destruct (FSAL_IS_ERROR _) eqn:E; [|done]. cbn [negb].
  rewrite decide_True; [done|].
  unfold fsal_access, test_access, fsal_test_access in *.
  destruct (getattrs obj) as [st attrs]. simpl in Hg.
  destruct (FSAL_IS_ERROR st); [done|]. cbn [andb].
  destruct (_ || _); [by apply access_acl_no_perm|apply access_no_acl_no_perm].
Qed.

(** A file that everybody may execute but not read. *)
Lemma open_never_tries_execute_witness :
  FSAL_IS_ERROR (check_open_permission false (mk_cred 11 20 [])
    (fun _ => (fsalstat ERR_FSAL_NO_ERROR 0, mk_attrs 0 REGULAR_FILE 10 20 0x49 None)) 1
    FSAL_O_READ) = true.
Proof.
  rewrite open_never_tries_execute; [vm_compute; reflexivity|discriminate].
Defined.

(** An ACL entry for the ordinary user whose number is 1 is taken for
    an entry of the owner: [fsal_acl_to_mode] looks at the number without
    the flag that marks special identifiers. *)
Theorem named_user_taken_for_owner perm :
  Z.testbit perm 0 = true -> 
  let ace := mk_ace FSAL_ACE_TYPE_ALLOW perm 0 0 1 in
  IS_FSAL_ACE_SPECIAL_ID ace = false /\
  Z.testbit (at_mode (fsal_acl_to_mode (mk_attrs ATTR_ACL REGULAR_FILE 10 20 0 (Some [ace]))).2) 8
  = true.
Proof.
  intros Hp ace. split; [done|]. change (Z.testbit (ace_to_mode 0 ace) 8 = true).
  assert (IS_FSAL_ACE_BIT perm FSAL_ACE_PERM_READ_DATA = true) as Hr.
  { unfold IS_FSAL_ACE_BIT. change FSAL_ACE_PERM_READ_DATA with (2 ^ 0).
    by rewrite land_pow2, Hp by lia. }
  change (Z.testbit
    (let mode := if IS_FSAL_ACE_BIT perm FSAL_ACE_PERM_READ_DATA then S_IRUSR else 0 in
     let mode := if IS_FSAL_ACE_BIT perm FSAL_ACE_PERM_WRITE_DATA
                    || IS_FSAL_ACE_BIT perm FSAL_ACE_PERM_APPEND_DATA
                 then Z.lor mode S_IWUSR else mode in
     if IS_FSAL_ACE_BIT perm FSAL_ACE_PERM_EXECUTE then Z.lor mode S_IXUSR else mode) 8 = true).
  rewrite Hr. destruct (_ || _), (IS_FSAL_ACE_BIT perm FSAL_ACE_PERM_EXECUTE); reflexivity.
Qed.

Lemma named_user_taken_for_owner_witness :
  Z.testbit (at_mode (fsal_acl_to_mode (mk_attrs ATTR_ACL REGULAR_FILE 10 20 0
    (Some [mk_ace FSAL_ACE_TYPE_ALLOW 1 0 0 1]))).2) 8 = true.
Proof. apply (named_user_taken_for_owner 1 eq_refl). Defined.
