(* ===== verification/FsalShare.v ===== *)
(** * Share reservations of open files

    The counters of [struct fsal_share] and the functions of
    FSAL/commonlib.c that keep and check them: [update_share_counters],
    [check_share_conflict] and [merge_share].  Their meaning is given by the
    open modes that are in effect: a list of open flags, of which the
    counters count the members.  The second half is the protocol by which
    FSAL/FSAL_VFS/file.c uses them: [vfs_open2] by handle, [vfs_reopen2] and
    [vfs_close2] take the reservation under the object lock, drop the lock
    for the system's open and take it again to undo the reservation, so other
    operations on the file run in between. *)
From S2P Require Import Prelude Flags Status Fsal.

(** [struct fsal_share], of [unsigned int] counters. *)
Record fsal_share := mk_share {
  share_access_read : Z;
  share_access_write : Z;
  share_deny_read : Z;
  share_deny_write : Z;
  share_deny_write_mand : Z
}.

Definition update_share_counters (share : fsal_share) (old_openflags new_openflags : Z)
    : fsal_share :=
  let inc (flag : Z) := flag_int new_openflags flag - flag_int old_openflags flag in
  let access_read_inc := inc FSAL_O_READ in
  let access_write_inc := inc FSAL_O_WRITE in
  let deny_read_inc := inc FSAL_O_DENY_READ in
  let deny_write_inc := inc FSAL_O_DENY_WRITE + inc FSAL_O_DENY_WRITE_MAND in
  let deny_write_mand_inc := inc FSAL_O_DENY_WRITE_MAND in
  mk_share (u32 (share_access_read share + access_read_inc))
    (u32 (share_access_write share + access_write_inc))
    (u32 (share_deny_read share + deny_read_inc))
    (u32 (share_deny_write share + deny_write_inc))
    (u32 (share_deny_write_mand share + deny_write_mand_inc)).

Definition check_share_conflict (share : fsal_share) (openflags : Z) (bypass : bool)
    : fsal_status_t :=
  if flag_set openflags FSAL_O_READ && (0 <? share_deny_read share) && negb bypass
  then fsalstat ERR_FSAL_SHARE_DENIED 0 else
  if flag_set openflags FSAL_O_WRITE
     && ((0 <? share_deny_write_mand share) || (negb bypass && (0 <? share_deny_write share)))
  then fsalstat ERR_FSAL_SHARE_DENIED 0 else
  if flag_set openflags FSAL_O_DENY_READ && (0 <? share_access_read share)
  then fsalstat ERR_FSAL_SHARE_DENIED 0 else
  if (flag_set openflags FSAL_O_DENY_WRITE || flag_set openflags FSAL_O_DENY_WRITE_MAND)
     && (0 <? share_access_write share)
  then fsalstat ERR_FSAL_SHARE_DENIED 0
  else fsalstat ERR_FSAL_NO_ERROR 0.

(** [merge_share]: the status and the original share afterwards. *)
Definition merge_share (orig_share dupe_share : fsal_share) : fsal_status_t * fsal_share :=
  let denied := (fsalstat ERR_FSAL_SHARE_DENIED 0, orig_share) in
  if (0 <? share_access_read dupe_share) && (0 <? share_deny_read orig_share) then denied else
  if (0 <? share_deny_read dupe_share) && (0 <? share_access_read orig_share) then denied else
  if (0 <? share_access_write dupe_share) && (0 <? share_deny_write orig_share) then denied else
  if (0 <? share_deny_write dupe_share) && (0 <? share_access_write orig_share) then denied else
  (fsalstat ERR_FSAL_NO_ERROR 0,
    mk_share (u32 (share_access_read orig_share + share_access_read dupe_share))
      (u32 (share_access_write orig_share + share_access_write dupe_share))
      (u32 (share_deny_read orig_share + share_deny_read dupe_share))
      (u32 (share_deny_write orig_share + share_deny_write dupe_share))
      (u32 (share_deny_write_mand orig_share + share_deny_write_mand dupe_share))).

(** ** The open modes the counters stand for *)

Definition share_of (opens : list Z) : fsal_share :=
  mk_share (counts FSAL_O_READ opens) (counts FSAL_O_WRITE opens)
    (counts FSAL_O_DENY_READ opens)
    (counts FSAL_O_DENY_WRITE opens + counts FSAL_O_DENY_WRITE_MAND opens)
    (counts FSAL_O_DENY_WRITE_MAND opens).

(** Few enough opens for the width of the counters. *)
Definition few (opens : list Z) : Prop := Z.of_nat (length opens) < 2147483648.

(** Two modes that may not be in effect together: one asks for an access the
    other denies.  With [bypass] only the mandatory denial of writing
    counts. *)
Definition blocks (o : Z) (bypass : bool) (f : Z) : Prop :=
  (flag_set o FSAL_O_READ = true /\ flag_set f FSAL_O_DENY_READ = true /\ bypass = false) \/
  (flag_set o FSAL_O_WRITE = true /\
     (flag_set f FSAL_O_DENY_WRITE_MAND = true \/
      (bypass = false /\ flag_set f FSAL_O_DENY_WRITE = true))) \/
  (flag_set o FSAL_O_DENY_READ = true /\ flag_set f FSAL_O_READ = true) \/
  ((flag_set o FSAL_O_DENY_WRITE = true \/ flag_set o FSAL_O_DENY_WRITE_MAND = true) /\
     flag_set f FSAL_O_WRITE = true).

Lemma counts_pos_add f1 f2 opens :
  (0 <? counts f1 opens + counts f2 opens) = true <->
  exists o, o ∈ opens /\ (flag_set o f1 = true \/ flag_set o f2 = true).
Proof.
  pose proof (counts_nonneg f1 opens). pose proof (counts_nonneg f2 opens).
  pose proof (counts_pos f1 opens) as H1. pose proof (counts_pos f2 opens) as H2.
  rewrite Z.ltb_lt in *. split.
  - intros Hp. destruct (decide (0 < counts f1 opens)) as [Hc|Hc].
    + apply H1 in Hc as (o & ? & ?). eauto.
    + assert (0 < counts f2 opens) as Hc2 by lia. apply H2 in Hc2 as (o & ? & ?). eauto.
  - intros (o & Ho & [Hf|Hf]); [assert (0 < counts f1 opens)|assert (0 < counts f2 opens)];
      [apply H1; eauto|lia|apply H2; eauto|lia].
Qed.

Lemma check_share_conflict_tests share openflags bypass :
  FSAL_IS_ERROR (check_share_conflict share openflags bypass) =
  (flag_set openflags FSAL_O_READ && (0 <? share_deny_read share) && negb bypass)
  || (flag_set openflags FSAL_O_WRITE
      && ((0 <? share_deny_write_mand share) || (negb bypass && (0 <? share_deny_write share))))
  || (flag_set openflags FSAL_O_DENY_READ && (0 <? share_access_read share))
  || ((flag_set openflags FSAL_O_DENY_WRITE || flag_set openflags FSAL_O_DENY_WRITE_MAND)
      && (0 <? share_access_write share)).
Proof.
  unfold check_share_conflict.
  destruct (_ && _ && _); [done|]. rewrite orb_false_l.
  destruct (flag_set openflags FSAL_O_WRITE && _); [done|]. rewrite orb_false_l.
  destruct (flag_set openflags FSAL_O_DENY_READ && _); [done|]. rewrite orb_false_l.
  by destruct (_ && _).
Qed.

Lemma check_share_conflict_denied share openflags bypass :
  FSAL_IS_ERROR (check_share_conflict share openflags bypass) = true ->
  check_share_conflict share openflags bypass = fsalstat ERR_FSAL_SHARE_DENIED 0.
Proof.
  unfold check_share_conflict.
  destruct (_ && _ && _); [done|]. destruct (flag_set openflags FSAL_O_WRITE && _); [done|].
  destruct (flag_set openflags FSAL_O_DENY_READ && _); [done|]. by destruct (_ && _).
Qed.

Lemma check_share_conflict_spec opens openflags bypass :
  FSAL_IS_ERROR (check_share_conflict (share_of opens) openflags bypass) = true <->
  exists f, f ∈ opens /\ blocks openflags bypass f.
Proof.
  rewrite check_share_conflict_tests.
  cbn [share_of share_access_read share_access_write
    share_deny_read share_deny_write share_deny_write_mand].
  rewrite !orb_true_iff, !andb_true_iff, !orb_true_iff, !andb_true_iff, !negb_true_iff.
  rewrite counts_pos_add, !counts_pos. unfold blocks. split.
  - intros [[[[[? (f&?&?)] ?]|[? [(f&?&?)|[? (f&?&[?|?])]]]]|[? (f&?&?)]]|[? (f&?&?)]];
      exists f; tauto.
  - intros (f & Hf & [(?&?&?)|[(?&[?|[? ?]])|[[? ?]|[? ?]]]]).
    + left; left; left. split; [split; [done|by exists f]|done].
    + left; left; right. split; [done|]. left. by exists f.
    + left; left; right. split; [done|]. right. split; [done|]. exists f. tauto.
    + left; right. split; [done|by exists f].
    + right. split; [done|by exists f].
Qed.

Lemma blocks_sym o f : blocks o false f -> blocks f false o.
Proof. unfold blocks. tauto. Qed.

(** Replacing one mode by another is what [update_share_counters] does to the
    counters, none of which wraps. *)
Lemma update_share_counters_spec opens i o n :
  few opens -> opens !! i = Some o ->
  update_share_counters (share_of opens) o n = share_of (<[i:=n]> opens).
Proof.
  intros Hf Hi. unfold update_share_counters, share_of.
  cbn [share_access_read share_access_write share_deny_read share_deny_write
    share_deny_write_mand].
  assert (forall flag, counts flag opens + (flag_int n flag - flag_int o flag)
                       = counts flag (<[i:=n]> opens)) as E
    by (intros flag; by rewrite (counts_insert flag opens i o n)).
  assert (forall flag, 0 <= counts flag (<[i:=n]> opens) < 2147483648) as R.
  { intros flag. split; [apply counts_nonneg|].
    eapply Z.le_lt_trans; [apply counts_le|]. by rewrite length_insert. }
  pose proof (E FSAL_O_DENY_WRITE). pose proof (E FSAL_O_DENY_WRITE_MAND).
  pose proof (R FSAL_O_DENY_WRITE). pose proof (R FSAL_O_DENY_WRITE_MAND).
  pose proof (R FSAL_O_READ). pose proof (R FSAL_O_WRITE). pose proof (R FSAL_O_DENY_READ).
  rewrite !E. f_equal; rewrite u32_small; lia.
Qed.

Lemma merge_share_spec l1 l2 :
  few (l1 ++ l2) ->
  ((exists o f, o ∈ l2 /\ f ∈ l1 /\ blocks o false f) /\
     merge_share (share_of l1) (share_of l2)
     = (fsalstat ERR_FSAL_SHARE_DENIED 0, share_of l1)) \/
  ((forall o f, o ∈ l2 -> f ∈ l1 -> ~ blocks o false f) /\
     merge_share (share_of l1) (share_of l2)
     = (fsalstat ERR_FSAL_NO_ERROR 0, share_of (l1 ++ l2))).
Proof.
  intros Hf. unfold merge_share.
  cbn [share_of share_access_read share_access_write share_deny_read share_deny_write
    share_deny_write_mand].
  destruct ((0 <? counts FSAL_O_READ l2) && _) eqn:E1.
  { apply andb_true_iff in E1 as [(o&?&?)%counts_pos (f&?&?)%counts_pos].
    left. split; [|done]. exists o, f. split_and!; [done..|]. left. done. }
  destruct ((0 <? counts FSAL_O_DENY_READ l2) && _) eqn:E2.
  { apply andb_true_iff in E2 as [(o&?&?)%counts_pos (f&?&?)%counts_pos].
    left. split; [|done]. exists o, f. split_and!; [done..|]. unfold blocks; tauto. }
  destruct ((0 <? counts FSAL_O_WRITE l2) && _) eqn:E3.
  { apply andb_true_iff in E3 as [(o&?&?)%counts_pos (f&?&?)%counts_pos_add].
    left. split; [|done]. exists o, f. split_and!; [done..|]. unfold blocks; tauto. }
  destruct ((0 <? _ + _) && (0 <? counts FSAL_O_WRITE l1)) eqn:E4.
  { apply andb_true_iff in E4 as [(o&?&?)%counts_pos_add (f&?&?)%counts_pos].
    left. split; [|done]. exists o, f. split_and!; [done..|]. unfold blocks; tauto. }
  right. split.
  - apply andb_false_iff in E1, E2, E3, E4.
    rewrite <-!not_true_iff_false, !counts_pos in E1, E2.
    rewrite <-!not_true_iff_false, counts_pos_add, !counts_pos in E3, E4.
    intros o f Ho Hl [(?&?&_)|[(?&[?|[_ ?]])|[[? ?]|[[?|?] ?]]]].
    + destruct E1 as [E1|E1]; apply E1; eauto.
    + destruct E3 as [E3|E3]; apply E3; eauto.
    + destruct E3 as [E3|E3]; apply E3; eauto.
    + destruct E2 as [E2|E2]; apply E2; eauto.
    + destruct E4 as [E4|E4]; apply E4; eauto.
    + destruct E4 as [E4|E4]; apply E4; eauto.
  - f_equal. unfold share_of. rewrite !counts_app.
    assert (forall flag, 0 <= counts flag l1 + counts flag l2 < 2147483648) as R.
    { intros flag. rewrite <-counts_app. split; [apply counts_nonneg|].
      eapply Z.le_lt_trans; [apply counts_le|done]. }
    pose proof (R FSAL_O_DENY_WRITE). pose proof (R FSAL_O_DENY_WRITE_MAND).
    pose proof (R FSAL_O_READ). pose proof (R FSAL_O_WRITE). pose proof (R FSAL_O_DENY_READ).
    f_equal; rewrite u32_small; lia.
Qed.

(** ** The reservation protocol *)

(** Where the share state of one open owner is: closed, reserved and waiting
    for the system's open, open, or reserved anew by [vfs_reopen2] while the
    descriptor still has the old mode. *)
Inductive share_phase :=
  | Closed
  | Opening (openflags : Z)
  | Opened (openflags : Z)
  | Reopening (old_openflags openflags : Z).

(** The mode the counters hold for it. *)
Definition reserved (p : share_phase) : Z :=
  match p with
  | Closed => FSAL_O_CLOSED
  | Opening o | Opened o | Reopening _ o => o
  end.

Record vfs_file := mk_vfs_file { vf_share : fsal_share; vf_states : list share_phase }.

(** The parts of the operations between which the object lock is free.  The
    result of the system's open is the [ok] of the second part. *)
Inductive share_event :=
  | OpenBegin (i : nat) (openflags : Z)
  | OpenEnd (i : nat) (ok : bool)
  | ReopenBegin (i : nat) (openflags : Z)
  | ReopenEnd (i : nat) (ok : bool)
  | Close2 (i : nat).

Definition set_phase (w : vfs_file) (i : nat) (old new : Z) (p : share_phase) : vfs_file :=
  mk_vfs_file (update_share_counters (vf_share w) old new) (<[i:=p]> (vf_states w)).

Definition vfs_open2_begin (w : vfs_file) (i : nat) (openflags : Z) : fsal_status_t * vfs_file :=
  let status := check_share_conflict (vf_share w) openflags false in
  if FSAL_IS_ERROR status then (status, w)
  else (status, set_phase w i FSAL_O_CLOSED openflags (Opening openflags)).

Definition vfs_open2_end (w : vfs_file) (i : nat) (openflags : Z) (ok : bool) : vfs_file :=
  if ok then mk_vfs_file (vf_share w) (<[i:=Opened openflags]> (vf_states w))
  else set_phase w i openflags FSAL_O_CLOSED Closed.

Definition vfs_reopen2_begin (w : vfs_file) (i : nat) (old_openflags openflags : Z)
    : fsal_status_t * vfs_file :=
  let status := check_share_conflict (vf_share w) openflags false in
  if FSAL_IS_ERROR status then (status, w)
  else (status, set_phase w i old_openflags openflags (Reopening old_openflags openflags)).

Definition vfs_reopen2_end (w : vfs_file) (i : nat) (old_openflags openflags : Z) (ok : bool)
    : vfs_file :=
  if ok then mk_vfs_file (vf_share w) (<[i:=Opened openflags]> (vf_states w))
  else set_phase w i openflags old_openflags (Opened old_openflags).

Definition vfs_close2 (w : vfs_file) (i : nat) (openflags : Z) : vfs_file :=
  set_phase w i openflags FSAL_O_CLOSED Closed.

(** One event; [None] where the state is not in the phase the event needs
    (the caller holds the state's lock over the whole operation). *)
Definition share_event_do (w : vfs_file) (e : share_event) : option vfs_file :=
  match e with
  | OpenBegin i o =>
      match vf_states w !! i with
      | Some Closed => Some (snd (vfs_open2_begin w i o)) | _ => None end
  | OpenEnd i ok =>
      match vf_states w !! i with
      | Some (Opening o) => Some (vfs_open2_end w i o ok) | _ => None end
  | ReopenBegin i o =>
      match vf_states w !! i with
      | Some (Opened old) => Some (snd (vfs_reopen2_begin w i old o)) | _ => None end
  | ReopenEnd i ok =>
      match vf_states w !! i with
      | Some (Reopening old o) => Some (vfs_reopen2_end w i old o ok) | _ => None end
  | Close2 i =>
      match vf_states w !! i with
      | Some (Opened o) => Some (vfs_close2 w i o) | _ => None end
  end.

Fixpoint share_run (w : vfs_file) (es : list share_event) : option vfs_file :=
  match es with
  | [] => Some w
  | e :: es => match share_event_do w e with Some w' => share_run w' es | None => None end
  end.

Definition vfs_file_new (n : nat) : vfs_file :=
  mk_vfs_file (mk_share 0 0 0 0 0) (replicate n Closed).

(** ** Invariants of the protocol *)

Definition modes (w : vfs_file) : list Z := reserved <$> vf_states w.

(** The counters count the reserved modes. *)
Definition exact (w : vfs_file) : Prop := vf_share w = share_of (modes w).

(** No two states reserve modes that deny each other. *)
Definition compatible (w : vfs_file) : Prop :=
  forall i j o f, i <> j -> modes w !! i = Some o -> modes w !! j = Some f -> ~ blocks o false f.

Definition no_revert (e : share_event) : Prop :=
  match e with ReopenEnd _ false => False | _ => True end.

Lemma modes_set w i old new p :
  modes (set_phase w i old new p) = <[i:=reserved p]> (modes w).
Proof. unfold modes. simpl. by rewrite list_fmap_insert. Qed.

Lemma modes_lookup w i p : vf_states w !! i = Some p -> modes w !! i = Some (reserved p).
Proof. intros Hp. unfold modes. by rewrite list_lookup_fmap, Hp. Qed.

Lemma set_phase_exact w i p0 p :
  few (modes w) -> exact w -> vf_states w !! i = Some p0 ->
  exact (set_phase w i (reserved p0) (reserved p) p).
Proof.
  intros Hf He Hi. unfold exact. rewrite modes_set. simpl. rewrite He.
  apply update_share_counters_spec; [done|by apply modes_lookup].
Qed.

(** Completing an open changes the phase and not the mode. *)
Lemma modes_complete w i p0 p :
  vf_states w !! i = Some p0 -> reserved p = reserved p0 ->
  modes (mk_vfs_file (vf_share w) (<[i:=p]> (vf_states w))) = modes w.
Proof.
  intros Hi Hr. unfold modes. simpl. rewrite list_fmap_insert, Hr.
  apply list_insert_id. by apply modes_lookup.
Qed.

(** An event changes nothing but the phase of one state, and the counters with
    it; where the new mode is not one the state gives up to, it was checked. *)
Lemma share_event_cases w e w' :
  share_event_do w e = Some w' ->
  modes w' = modes w /\ vf_share w' = vf_share w \/
  exists i p0 p, vf_states w !! i = Some p0 /\
    w' = set_phase w i (reserved p0) (reserved p) p /\
    (no_revert e -> reserved p = FSAL_O_CLOSED \/
       FSAL_IS_ERROR (check_share_conflict (vf_share w) (reserved p) false) = false).
Proof.
  intros He. destruct e as [i o|i ok|i o|i ok|i]; simpl in He;
    destruct (vf_states w !! i) as [p0|] eqn:Hp; try done; destruct p0; try done;
    simplify_eq; unfold vfs_open2_begin, vfs_open2_end, vfs_reopen2_begin, vfs_reopen2_end.
  - destruct (FSAL_IS_ERROR _) eqn:Hc; [by left|]. right. by exists i, Closed, (Opening o); auto.
  - destruct ok.
    + left. split; [|done]. by eapply modes_complete.
    + right. eexists i, _, Closed. split_and!; [done|done|]. by left.
  - destruct (FSAL_IS_ERROR _) eqn:Hc; [by left|]. right.
    eexists i, _, (Reopening _ o). split_and!; [done|done|]. by right.
  - destruct ok.
    + left. split; [|done]. by eapply modes_complete.
    + right. eexists i, _, (Opened _). split_and!; [done|done|done].
  - right. eexists i, _, Closed. split_and!; [done|done|]. by left.
Qed.

Lemma blocks_closed o : ~ blocks FSAL_O_CLOSED false o.
Proof. unfold blocks, flag_set. simpl. intros [[? _]|[[? _]|[[? _]|[[?|?] _]]]]; done. Qed.

Lemma set_phase_compatible w i p0 p :
  exact w -> compatible w -> vf_states w !! i = Some p0 ->
  reserved p = FSAL_O_CLOSED \/
    FSAL_IS_ERROR (check_share_conflict (vf_share w) (reserved p) false) = false ->
  compatible (set_phase w i (reserved p0) (reserved p) p).
Proof.
  intros He Hc Hi Hp.
  assert (forall j f, modes w !! j = Some f -> ~ blocks (reserved p) false f) as Hn.
  { intros j f Hj Hb. destruct Hp as [Hp|Hp].
    - rewrite Hp in Hb. by apply (blocks_closed f).
    - rewrite He in Hp. apply not_true_iff_false in Hp. apply Hp.
      apply check_share_conflict_spec. exists f. split; [by eapply list_elem_of_lookup_2|done]. }
  intros a b o f Hab Ha Hb. rewrite modes_set in Ha, Hb.
  destruct (decide (a = i)) as [->|Hai].
  - rewrite list_lookup_insert_ne in Hb by done.
    rewrite list_lookup_insert_eq in Ha by (by eapply lookup_lt_Some, modes_lookup).
    simplify_eq. by eapply Hn.
  - rewrite list_lookup_insert_ne in Ha by done.
    destruct (decide (b = i)) as [->|Hbi].
    + rewrite list_lookup_insert_eq in Hb by (by eapply lookup_lt_Some, modes_lookup).
      simplify_eq. intros Hbl. apply (Hn a o Ha). by apply blocks_sym.
    + rewrite list_lookup_insert_ne in Hb by done. exact (Hc a b o f Hab Ha Hb).
Qed.

Lemma share_event_inv w e w' :
  share_event_do w e = Some w' -> few (modes w) -> exact w ->
  few (modes w') /\ exact w' /\ (no_revert e -> compatible w -> compatible w').
Proof.
  intros He Hf Hx. apply share_event_cases in He as [[Hm Hs]|(i & p0 & p & Hi & -> & Hp)].
  - unfold exact, compatible. rewrite Hm, Hs. auto.
  - split; [|split].
    + unfold few. by rewrite modes_set, length_insert.
    + by apply set_phase_exact.
    + intros Hr Hc. apply set_phase_compatible; auto.
Qed.

Lemma share_run_inv es w w' :
  share_run w es = Some w' -> few (modes w) -> exact w ->
  exact w' /\ (Forall no_revert es -> compatible w -> compatible w').
Proof.
  revert w. induction es as [|e es IH]; simpl; intros w Hr Hf Hx; [by simplify_eq|].
  destruct (share_event_do w e) as [w1|] eqn:He; [|done].
  destruct (share_event_inv w e w1 He Hf Hx) as (Hf1 & Hx1 & Hc1).
  destruct (IH w1 Hr Hf1 Hx1) as [Hx' Hc']. split; [done|].
  intros [? ?]%Forall_cons Hc. auto.
Qed.

Lemma new_modes n : modes (vfs_file_new n) = replicate n FSAL_O_CLOSED.
Proof. unfold modes. simpl. by rewrite fmap_replicate. Qed.

Lemma counts_closed flag n : counts flag (replicate n FSAL_O_CLOSED) = 0.
Proof. induction n as [|n IH]; [done|]. simpl replicate. by rewrite counts_cons, IH. Qed.

Lemma new_exact n : exact (vfs_file_new n).
Proof. unfold exact. rewrite new_modes. unfold share_of. by rewrite !counts_closed. Qed.

Lemma new_compatible n : compatible (vfs_file_new n).
Proof.
  intros i j o f _ Hi _. rewrite new_modes in Hi.
  apply lookup_replicate in Hi as [-> _]. apply blocks_closed.
Qed.

Lemma new_few n : Z.of_nat n < 2147483648 -> few (modes (vfs_file_new n)).
Proof. unfold few. by rewrite new_modes, length_replicate. Qed.

(** ** Properties *)

(** C25: Exact share counters: after any interleaving of opens, reopens,
    their failures and closes on a file, the five counters are the numbers of
    states that reserve each access and each denial; none wraps. *)
Theorem share_counters_exact n es w :
  Z.of_nat n < 2147483648 -> share_run (vfs_file_new n) es = Some w ->
  vf_share w = share_of (modes w).
Proof.
  intros Hn Hr. by apply (share_run_inv es _ w Hr (new_few n Hn) (new_exact n)).
Qed.


(** C26: Share exclusion: as long as no reopen fails after it took its
    reservation, no interleaving leaves two states of a file with modes that
    deny each other. *)
Theorem share_exclusion n es w i j p q :
  Z.of_nat n < 2147483648 -> share_run (vfs_file_new n) es = Some w ->
  Forall no_revert es -> i <> j ->
  vf_states w !! i = Some p -> vf_states w !! j = Some q ->
  ~ blocks (reserved p) false (reserved q).
Proof.
  intros Hn Hr Hes Hij Hi Hj.
  destruct (share_run_inv es _ w Hr (new_few n Hn) (new_exact n)) as [_ Hc].
  apply (Hc Hes (new_compatible n) i j); [done|by apply modes_lookup..].
Qed.

(** A reopen that fails takes its old reservation back unchecked: one
    client narrows its mode, a second opens the file for writing in between,
    the first's open fails, and both are left open, one denying the writing
    the other has. *)
Theorem reopen_revert_conflict :
  exists w, share_run (vfs_file_new 2)
    [OpenBegin 0 (FSAL_O_READ + FSAL_O_DENY_WRITE); OpenEnd 0 true;
     ReopenBegin 0 FSAL_O_READ;
     OpenBegin 1 FSAL_O_WRITE; OpenEnd 1 true;
     ReopenEnd 0 false] = Some w /\
  vf_states w = [Opened (FSAL_O_READ + FSAL_O_DENY_WRITE); Opened FSAL_O_WRITE] /\
  blocks FSAL_O_WRITE false (FSAL_O_READ + FSAL_O_DENY_WRITE).
Proof.
  eexists. split; [vm_compute; reflexivity|]. split; [reflexivity|].
  right. left. split; [reflexivity|]. right. split; reflexivity.
Qed.

(** A reopen conflicts with the state's own reservation: the only state
    open on a file, with writing and a denial of writing (what an NFSv4 open
    for both with OPEN4_SHARE_DENY_WRITE gives), is refused a reopen to any
    mode that still denies writing, a downgrade included. *)
Theorem downgrade_refused_by_itself openflags :
  flag_set openflags FSAL_O_DENY_WRITE_MAND = true ->
  exists w, share_run (vfs_file_new 1)
    [OpenBegin 0 (FSAL_O_RDWR + FSAL_O_DENY_WRITE_MAND); OpenEnd 0 true] = Some w /\
  vfs_reopen2_begin w 0 (FSAL_O_RDWR + FSAL_O_DENY_WRITE_MAND) openflags
  = (fsalstat ERR_FSAL_SHARE_DENIED 0, w).
Proof.
  intros Ho. eexists. split; [vm_compute; reflexivity|].
  unfold vfs_reopen2_begin. rewrite check_share_conflict_denied; [done|].
  rewrite check_share_conflict_tests, Ho, (orb_true_r (flag_set openflags FSAL_O_DENY_WRITE)).
  apply orb_true_r.
Qed.

(** [merge_share] decides by the modes: it merges the counters of two
    handles of one file exactly when no mode of one denies a mode of the
    other, and the result counts the modes of both; otherwise it answers
    ERR_FSAL_SHARE_DENIED and leaves the counters. *)
Theorem merge_share_by_modes l1 l2 :
  few (l1 ++ l2) ->
  ((exists o f, o ∈ l2 /\ f ∈ l1 /\ blocks o false f) /\
     merge_share (share_of l1) (share_of l2)
     = (fsalstat ERR_FSAL_SHARE_DENIED 0, share_of l1)) \/
  ((forall o f, o ∈ l2 -> f ∈ l1 -> ~ blocks o false f) /\
     merge_share (share_of l1) (share_of l2)
     = (fsalstat ERR_FSAL_NO_ERROR 0, share_of (l1 ++ l2))).
Proof. apply merge_share_spec. Qed.

(** ** Witnesses *)

Definition sample_events : list share_event :=
  [OpenBegin 0 (FSAL_O_READ + FSAL_O_DENY_WRITE); OpenBegin 1 FSAL_O_READ;
   OpenEnd 1 true; OpenEnd 0 true; OpenBegin 2 FSAL_O_WRITE; Close2 1].

Definition sample_file : vfs_file :=
  mk_vfs_file (mk_share 1 0 0 1 0)
    [Opened (FSAL_O_READ + FSAL_O_DENY_WRITE); Closed; Closed].

Lemma share_counters_exact_witness :
  vf_share sample_file = share_of (modes sample_file).
Proof. apply (share_counters_exact 3 sample_events); [lia|vm_compute; reflexivity]. Defined.


Lemma share_exclusion_witness :
  ~ blocks (FSAL_O_READ + FSAL_O_DENY_WRITE) false FSAL_O_CLOSED.
Proof.
  apply (share_exclusion 3 sample_events sample_file 0 1
    (Opened (FSAL_O_READ + FSAL_O_DENY_WRITE)) Closed);
    [lia|vm_compute; reflexivity|by repeat constructor|lia|reflexivity|reflexivity].
Defined.

Lemma downgrade_refused_by_itself_witness :
  exists w, share_run (vfs_file_new 1)
    [OpenBegin 0 (FSAL_O_RDWR + FSAL_O_DENY_WRITE_MAND); OpenEnd 0 true] = Some w /\
  vfs_reopen2_begin w 0 (FSAL_O_RDWR + FSAL_O_DENY_WRITE_MAND)
    (FSAL_O_READ + FSAL_O_DENY_WRITE_MAND)
  = (fsalstat ERR_FSAL_SHARE_DENIED 0, w).
Proof. apply downgrade_refused_by_itself. reflexivity. Defined.

Lemma merge_share_by_modes_witness :
  (exists o f, o ∈ [FSAL_O_WRITE] /\ f ∈ [FSAL_O_DENY_WRITE] /\ blocks o false f) /\
    merge_share (share_of [FSAL_O_DENY_WRITE]) (share_of [FSAL_O_WRITE])
    = (fsalstat ERR_FSAL_SHARE_DENIED 0, share_of [FSAL_O_DENY_WRITE]) \/
  (forall o f, o ∈ [FSAL_O_WRITE] -> f ∈ [FSAL_O_DENY_WRITE] -> ~ blocks o false f) /\
    merge_share (share_of [FSAL_O_DENY_WRITE]) (share_of [FSAL_O_WRITE])
    = (fsalstat ERR_FSAL_NO_ERROR 0, share_of ([FSAL_O_DENY_WRITE] ++ [FSAL_O_WRITE])).
Proof. apply merge_share_by_modes. unfold few. simpl. lia. Defined.
