(* ===== verification/ShareState.v ===== *)
(** * Share reservations of NFSv4 opens

    The share counters that the state layer keeps for a file when its FSAL
    has no extended operations (SAL/state_share.c), and the operations that
    change them: the state part of OPEN (Protocols/NFS/nfs4_op_open.c,
    [open4_do_open] after its permission check), OPEN_DOWNGRADE, CLOSE and
    anonymous I/O.  They run under the file's state lock, so a run is a
    sequence of them.

    One file is modelled, with the open states that [nfs4_State_Get_Obj]
    finds: one per open owner.  What the backend answers comes from the
    interface of Fsal.v. *)
From S2P Require Import Prelude Flags Status Fsal Backends.

Definition OPEN4_SHARE_ACCESS_NONE : Z := 0.
Definition OPEN4_SHARE_ACCESS_READ : Z := 1.
Definition OPEN4_SHARE_ACCESS_WRITE : Z := 2.
Definition OPEN4_SHARE_ACCESS_BOTH : Z := 3.
Definition OPEN4_SHARE_DENY_NONE : Z := 0.
Definition OPEN4_SHARE_DENY_READ : Z := 1.
Definition OPEN4_SHARE_DENY_WRITE : Z := 2.

Definition OPEN_DELEGATE_READ : Z := 1.
Definition OPEN_DELEGATE_WRITE : Z := 2.

(** [sal_share_t], of [unsigned int] counters. *)
Record sal_share_t := mk_sal_share {
  share_access_read : Z;
  share_access_write : Z;
  share_deny_read : Z;
  share_deny_write : Z;
  share_deny_write_v4 : Z
}.

(** [struct state_share] without its list of lock states. *)
Record state_share := mk_state_share {
  share_access : Z;
  share_deny : Z;
  share_access_prev : Z;
  share_deny_prev : Z
}.

(** The fields of a [state_t] that matter here. *)
Record open_state := mk_open_state {
  st_share : state_share;
  st_export : nat
}.

#[export] Instance state_share_eq_dec : EqDecision state_share.
Proof. solve_decision. Defined.
#[export] Instance open_state_eq_dec : EqDecision open_state.
Proof. solve_decision. Defined.

(** [struct state_file] and the open states of the file, by their owner. *)
Record state_file (F : Type) := mk_state_file {
  share_state : sal_share_t;
  fds_curr_delegations : Z;
  fds_deleg_type : Z;
  anon_ops : Z;
  open_states : gmap nat open_state;
  backend : fsal_state F
}.
Arguments mk_state_file {F} _ _ _ _ _ _.
Arguments share_state {F} _.
Arguments fds_curr_delegations {F} _.
Arguments fds_deleg_type {F} _.
Arguments anon_ops {F} _.
Arguments open_states {F} _.
Arguments backend {F} _.

Inductive share_bypass_modes :=
| SHARE_BYPASS_NONE
| SHARE_BYPASS_READ
| SHARE_BYPASS_V3_WRITE.

#[export] Instance share_bypass_modes_eq_dec : EqDecision share_bypass_modes.
Proof. solve_decision. Defined.

(** ** The counters *)

Definition state_share_update_counter (hstate : sal_share_t)
    (old_access old_deny new_access new_deny : Z) (v4 : bool) : sal_share_t :=
  let access_read_inc := flag_int new_access OPEN4_SHARE_ACCESS_READ
                         - flag_int old_access OPEN4_SHARE_ACCESS_READ in
  let access_write_inc := flag_int new_access OPEN4_SHARE_ACCESS_WRITE
                          - flag_int old_access OPEN4_SHARE_ACCESS_WRITE in
  let deny_read_inc := flag_int new_deny OPEN4_SHARE_DENY_READ
                       - flag_int old_deny OPEN4_SHARE_DENY_READ in
  let deny_write_inc := flag_int new_deny OPEN4_SHARE_DENY_WRITE
                        - flag_int old_deny OPEN4_SHARE_DENY_WRITE in
  mk_sal_share (u32 (share_access_read hstate + access_read_inc))
    (u32 (share_access_write hstate + access_write_inc))
    (u32 (share_deny_read hstate + deny_read_inc))
    (u32 (share_deny_write hstate + deny_write_inc))
    (if v4 then u32 (share_deny_write_v4 hstate + deny_write_inc)
     else share_deny_write_v4 hstate).

Definition state_share_get_share_access (hstate : sal_share_t) : Z :=
  let share_access := 0 in
  let share_access :=
    if 0 <? share_access_read hstate
    then Z.lor share_access OPEN4_SHARE_ACCESS_READ else share_access in
  if 0 <? share_access_write hstate
  then Z.lor share_access OPEN4_SHARE_ACCESS_WRITE else share_access.

Definition state_share_get_share_deny (hstate : sal_share_t) : Z :=
  let share_deny := 0 in
  let share_deny :=
    if 0 <? share_deny_read hstate
    then Z.lor share_deny OPEN4_SHARE_DENY_READ else share_deny in
  if 0 <? share_deny_write hstate
  then Z.lor share_deny OPEN4_SHARE_DENY_WRITE else share_deny.

Definition state_share_check_conflict (hstate : sal_share_t) (share_access share_deny : Z)
    (bypass : share_bypass_modes) : state_status_t :=
  if flag_set share_access OPEN4_SHARE_ACCESS_READ && (0 <? share_deny_read hstate)
     && bool_decide (bypass <> SHARE_BYPASS_READ)
  then STATE_SHARE_DENIED else
  if flag_set share_access OPEN4_SHARE_ACCESS_WRITE
     && ((0 <? share_deny_write_v4 hstate)
         || (bool_decide (bypass <> SHARE_BYPASS_V3_WRITE) && (0 <? share_deny_write hstate)))
  then STATE_SHARE_DENIED else
  if flag_set share_deny OPEN4_SHARE_DENY_READ && (0 <? share_access_read hstate)
  then STATE_SHARE_DENIED else
  if flag_set share_deny OPEN4_SHARE_DENY_WRITE && (0 <? share_access_write hstate)
  then STATE_SHARE_DENIED
  else STATE_SUCCESS.

(** [1 << n] of an [int]; C leaves counts from 32 on undefined, which the
    processors take modulo 32. *)
Definition shl1 (n : Z) : Z := u32 (Z.shiftl 1 (n mod 32)).

Definition state_share_set_prev (state : state_share) (state_data : state_share) : state_share :=
  mk_state_share (share_access state) (share_deny state)
    (Z.lor (share_access_prev state) (shl1 (share_access state_data)))
    (Z.lor (share_deny_prev state) (shl1 (share_deny state_data))).

(** ** The share functions *)

Section share.
Context `{FsalOps F} (obj : nat).
Implicit Types (w : state_file F).

Definition set_share (s : sal_share_t) w : state_file F :=
  mk_state_file s (fds_curr_delegations w) (fds_deleg_type w) (anon_ops w) (open_states w)
    (backend w).

Definition set_anon_ops (n : Z) w : state_file F :=
  mk_state_file (share_state w) (fds_curr_delegations w) (fds_deleg_type w) n (open_states w)
    (backend w).

Definition set_states (m : gmap nat open_state) w : state_file F :=
  mk_state_file (share_state w) (fds_curr_delegations w) (fds_deleg_type w) (anon_ops w) m
    (backend w).

Definition set_backend (f : fsal_state F) w : state_file F :=
  mk_state_file (share_state w) (fds_curr_delegations w) (fds_deleg_type w) (anon_ops w)
    (open_states w) f.

Definition set_fsal (f : F) w : state_file F :=
  set_backend (mk_fsal_state f (open_fd_count (backend w))) w.

(** The assignment of a state's share data. *)
Definition set_state_share (owner : nat) (st : open_state) (d : state_share) w : state_file F :=
  set_states (<[owner := mk_open_state d (st_export st)]> (open_states w)) w.

Definition do_share_op (ctx_export : nat) (share : fsal_share_param_t) w
    : state_status_t * state_file F :=
  if negb (fs_supports ctx_export fso_share_support) then (STATE_SUCCESS, w) else
  let '(fsal_status, f) := share_op obj share (fsal_st (backend w)) in
  (state_error_convert fsal_status, set_fsal f w).

(** What the four functions below have in common: move the counters from
    the old to the new mode, tell the FSAL when the union has changed, and
    move them back when it refuses. *)
Definition state_share_push (ctx_export : nat) (old_access old_deny new_access new_deny : Z)
    (reclaim : bool) w : state_status_t * state_file F :=
  let old_entry_share_access := state_share_get_share_access (share_state w) in
  let old_entry_share_deny := state_share_get_share_deny (share_state w) in
  let w := set_share (state_share_update_counter (share_state w)
                        old_access old_deny new_access new_deny true) w in
  let new_entry_share_access := state_share_get_share_access (share_state w) in
  let new_entry_share_deny := state_share_get_share_deny (share_state w) in
  if negb (new_entry_share_access =? old_entry_share_access)
     || negb (new_entry_share_deny =? old_entry_share_deny)
  then
    let '(status, w) := do_share_op ctx_export
      {| sp_share_access := new_entry_share_access;
         sp_share_deny := new_entry_share_deny;
         sp_share_reclaim := reclaim |} w in
    if decide (status = STATE_SUCCESS) then (STATE_SUCCESS, w)
    else (status, set_share (state_share_update_counter (share_state w)
                               new_access new_deny old_access old_deny true) w)
  else (STATE_SUCCESS, w).

(** The functions take the open state of [owner]; [None] when there is none. *)
Definition state_share_add (ctx_export owner : nat) (reclaim : bool) w
    : option (state_status_t * state_file F) :=
  state ← open_states w !! owner;
  let new_share_access := share_access (st_share state) in
  let new_share_deny := share_deny (st_share state) in
  let '(status, w) := state_share_push ctx_export OPEN4_SHARE_ACCESS_NONE OPEN4_SHARE_DENY_NONE
                        new_share_access new_share_deny reclaim w in
  if decide (status = STATE_SUCCESS) then
    Some (status, set_state_share owner state
                    (state_share_set_prev (st_share state) (st_share state)) w)
  else Some (status, w).

Definition state_share_remove (ctx_export owner : nat) w
    : option (state_status_t * state_file F) :=
  state ← open_states w !! owner;
  let removed_share_access := share_access (st_share state) in
  let removed_share_deny := share_deny (st_share state) in
  Some (state_share_push ctx_export removed_share_access removed_share_deny
          OPEN4_SHARE_ACCESS_NONE OPEN4_SHARE_DENY_NONE false w).

Definition state_share_upgrade (ctx_export owner : nat) (state_data : state_share)
    (reclaim : bool) w : option (state_status_t * state_file F) :=
  state ← open_states w !! owner;
  let old_share_access := share_access (st_share state) in
  let old_share_deny := share_deny (st_share state) in
  let new_share_access := Z.lor (share_access state_data) old_share_access in
  let new_share_deny := Z.lor (share_deny state_data) old_share_deny in
  let '(status, w) := state_share_push ctx_export old_share_access old_share_deny
                        new_share_access new_share_deny reclaim w in
  if decide (status = STATE_SUCCESS) then
    let d := mk_state_share new_share_access new_share_deny
               (share_access_prev (st_share state)) (share_deny_prev (st_share state)) in
    Some (status, set_state_share owner state (state_share_set_prev d state_data) w)
  else Some (status, w).

Definition state_share_downgrade (ctx_export owner : nat) (state_data : state_share) w
    : option (state_status_t * state_file F) :=
  state ← open_states w !! owner;
  let old_share_access := share_access (st_share state) in
  let old_share_deny := share_deny (st_share state) in
  let new_share_access := share_access state_data in
  let new_share_deny := share_deny state_data in
  let '(status, w) := state_share_push ctx_export old_share_access old_share_deny
                        new_share_access new_share_deny false w in
  if decide (status = STATE_SUCCESS) then
    Some (status, set_state_share owner state
                    (mk_state_share new_share_access new_share_deny
                       (share_access_prev (st_share state)) (share_deny_prev (st_share state))) w)
  else Some (status, w).

(** A conflicting delegation is recalled by a task of the thread pool. *)
Definition state_deleg_conflict (write : bool) w : bool * state_file F :=
  if decide (obj_type obj <> REGULAR_FILE) then (false, w) else
  if (0 <? fds_curr_delegations w)
     && (((fds_deleg_type w =? OPEN_DELEGATE_READ) && write)
         || (fds_deleg_type w =? OPEN_DELEGATE_WRITE))
  then
    let '(_, f) := fridgethr_submit (fsal_st (backend w)) in
    (true, set_fsal f w)
  else (false, w).

Definition state_share_anonymous_io_start (share_access : Z) (bypass : share_bypass_modes) w
    : state_status_t * state_file F :=
  let status := state_share_check_conflict (share_state w) share_access OPEN4_SHARE_DENY_NONE
                  bypass in
  if decide (status <> STATE_SUCCESS) then (STATE_LOCKED, w) else
  let '(conflict, w) := state_deleg_conflict (flag_set share_access OPEN4_SHARE_ACCESS_WRITE) w in
  if (conflict : bool) then (STATE_FSAL_DELAY, w) else
  let w := set_anon_ops (u32 (anon_ops w + 1)) w in
  (status, set_share (state_share_update_counter (share_state w)
                        OPEN4_SHARE_ACCESS_NONE OPEN4_SHARE_DENY_NONE
                        share_access OPEN4_SHARE_DENY_NONE false) w).

Definition state_share_anonymous_io_done (share_access : Z) w : state_file F :=
  let w := set_share (state_share_update_counter (share_state w)
                        share_access OPEN4_SHARE_DENY_NONE
                        OPEN4_SHARE_ACCESS_NONE OPEN4_SHARE_DENY_NONE false) w in
  set_anon_ops (u32 (anon_ops w - 1)) w.

(** ** The NFSv4 operations *)

(** The open flags of [nfs4_op_open]. *)
Definition open4_openflags (share_access claim : Z) : Z :=
  let openflags :=
    if Z.land share_access OPEN4_SHARE_ACCESS_BOTH =? OPEN4_SHARE_ACCESS_READ
    then FSAL_O_READ else FSAL_O_RDWR in
  if negb (claim =? 0) then Z.lor openflags FSAL_O_RECLAIM else openflags.

(** The end of [open4_do_open]: open the file in the FSAL and push the share. *)
Definition open4_push_share (owner ctx_export : nat) (candidate_data : state_share)
    (openflags : Z) (new_state : bool) w : option (nfsstat4 * state_file F) :=
  let '(status, f) := fsal_open ctx_export obj openflags (backend w) in
  let w := set_backend f w in
  if FSAL_IS_ERROR status then Some (nfs4_Errno_verbose (major status), w) else
  let reclaim := flag_set openflags FSAL_O_RECLAIM in
  '(state_status, w) ←
    (if new_state then state_share_add ctx_export owner reclaim w
     else state_share_upgrade ctx_export owner candidate_data reclaim w);
  if decide (state_status = STATE_SUCCESS) then Some (NFS4_OK, w) else
  let '(_, f) := obj_close obj (fsal_st (backend w)) in
  Some (nfs4_Errno_state state_status, set_fsal f w).

(** [open4_do_open] from the check of the share conflict on.  [add_status]
    is what [state_add_impl] answers: it fails when the export is being
    removed or the hash table has no memory, and frees the new state then. *)
Definition open4_do_open (owner ctx_export : nat) (args_access args_deny openflags : Z)
    (add_status : state_status_t) w : option (nfsstat4 * state_file F) :=
  let candidate_data :=
    mk_state_share (Z.land args_access OPEN4_SHARE_ACCESS_BOTH) args_deny 0 0 in
  let state_status := state_share_check_conflict (share_state w)
    (share_access candidate_data) (share_deny candidate_data) SHARE_BYPASS_NONE in
  if decide (state_status <> STATE_SUCCESS) then Some (nfs4_Errno_state state_status, w) else
  let '(conflict, w) := state_deleg_conflict
    (flag_set (share_access candidate_data) OPEN4_SHARE_ACCESS_WRITE) w in
  if (conflict : bool) then Some (NFS4ERR_DELAY, w) else
  match open_states w !! owner with
  | None =>
      if decide (add_status <> STATE_SUCCESS) then Some (nfs4_Errno_state add_status, w) else
      open4_push_share owner ctx_export candidate_data openflags true
        (set_states (<[owner := mk_open_state candidate_data ctx_export]> (open_states w)) w)
  | Some file_state =>
      if decide (st_export file_state <> ctx_export) then Some (NFS4ERR_INVAL, w)
      else open4_push_share owner ctx_export candidate_data openflags false w
  end.

(** [fsal_reopen2] with the permission check, whose answer is [perm]. *)
Definition fsal_reopen2 (owner : nat) (openflags : Z) (perm : fsal_status_t) w
    : fsal_status_t * state_file F :=
  if FSAL_IS_ERROR perm then (perm, w) else
  let '(status, f) := obj_reopen2 obj owner openflags (fsal_st (backend w)) in
  (status, set_fsal f w).

Definition nfs4_do_open_downgrade (owner ctx_export : nat) (args_access args_deny : Z)
    (perm : fsal_status_t) w : option (nfsstat4 * state_file F) :=
  state ← open_states w !! owner;
  let d := st_share state in
  if negb (Z.land (share_access d) args_access =? args_access)
  then Some (NFS4ERR_INVAL, w) else
  if negb (Z.land (share_deny d) args_deny =? args_deny)
  then Some (NFS4ERR_INVAL, w) else
  if (Z.land (share_access_prev d) (shl1 args_access) =? 0)
     || (Z.land (share_deny_prev d) (shl1 args_deny) =? 0)
  then Some (NFS4ERR_INVAL, w) else
  '(state_status, w) ←
    (if support_ex obj then
       let openflags := 0 in
       let openflags := if flag_set args_access OPEN4_SHARE_ACCESS_READ
                        then Z.lor openflags FSAL_O_READ else openflags in
       let openflags := if flag_set args_access OPEN4_SHARE_ACCESS_WRITE
                        then Z.lor openflags FSAL_O_WRITE else openflags in
       let openflags := if flag_set args_deny OPEN4_SHARE_DENY_READ
                        then Z.lor openflags FSAL_O_DENY_READ else openflags in
       let openflags := if flag_set args_deny OPEN4_SHARE_DENY_WRITE
                        then Z.lor openflags FSAL_O_DENY_WRITE_MAND else openflags in
       let '(fsal_status, w) := fsal_reopen2 owner openflags perm w in
       Some (state_error_convert fsal_status, w)
     else
       state_share_downgrade ctx_export owner (mk_state_share args_access args_deny 0 0) w);
  if decide (state_status <> STATE_SUCCESS) then Some (NFS4ERR_SERVERFAULT, w)
  else Some (NFS4_OK, w).

(** The end of CLOSE: a refusal to release the share is only logged, and the
    state is deleted.  The status is the logged one. *)
Definition nfs4_close_share (owner ctx_export : nat) w
    : option (state_status_t * state_file F) :=
  '(state_status, w) ←
    (if support_ex obj then Some (STATE_SUCCESS, w)
     else state_share_remove ctx_export owner w);
  Some (state_status, set_states (delete owner (open_states w)) w).
End share.

(** ** Modes and what they contribute to the counters *)

(** Access and denial. *)
Definition mode : Type := Z * Z.

Definition state_mode (st : open_state) : mode :=
  (share_access (st_share st), share_deny (st_share st)).

Inductive counter := AccessRead | AccessWrite | DenyRead | DenyWrite | DenyWriteV4.

Definition read_counter (c : counter) (s : sal_share_t) : Z :=
  match c with
  | AccessRead => share_access_read s
  | AccessWrite => share_access_write s
  | DenyRead => share_deny_read s
  | DenyWrite => share_deny_write s
  | DenyWriteV4 => share_deny_write_v4 s
  end.

Definition weight (c : counter) (m : mode) : Z :=
  match c with
  | AccessRead => flag_int m.1 OPEN4_SHARE_ACCESS_READ
  | AccessWrite => flag_int m.1 OPEN4_SHARE_ACCESS_WRITE
  | DenyRead => flag_int m.2 OPEN4_SHARE_DENY_READ
  | DenyWrite | DenyWriteV4 => flag_int m.2 OPEN4_SHARE_DENY_WRITE
  end.

Definition sum_weights (c : counter) (l : list mode) : Z := foldr (fun m n => weight c m + n) 0 l.

Definition total (c : counter) (states : gmap nat open_state) : Z :=
  map_fold (fun _ st n => weight c (state_mode st) + n) 0 states.

Lemma weight_range c m : 0 <= weight c m <= 1.
Proof. destruct c; simpl; unfold flag_int; destruct (flag_set _ _); simpl; lia. Qed.

Lemma weight_none c : weight c (OPEN4_SHARE_ACCESS_NONE, OPEN4_SHARE_DENY_NONE) = 0.
Proof. by destruct c. Qed.

Lemma total_insert c states owner st :
  states !! owner = None ->
  total c (<[owner := st]> states) = weight c (state_mode st) + total c states.
Proof. intros H. unfold total. rewrite map_fold_insert_L; [done|lia|done]. Qed.

Lemma total_delete c states owner st :
  states !! owner = Some st ->
  total c (delete owner states) = total c states - weight c (state_mode st).
Proof.
  intros H. pose proof (total_insert c (delete owner states) owner st) as E.
  rewrite insert_delete_id in E by done. rewrite E by apply lookup_delete_eq. lia.
Qed.

Lemma total_replace c states owner st st' :
  states !! owner = Some st ->
  total c (<[owner := st']> states)
  = total c states + (weight c (state_mode st') - weight c (state_mode st)).
Proof.
  intros H. rewrite <-insert_delete_eq, total_insert by apply lookup_delete_eq.
  rewrite (total_delete c states owner st) by done. lia.
Qed.

Lemma total_range c states : 0 <= total c states <= Z.of_nat (size states).
Proof.
  unfold total. apply (map_fold_weak_ind (fun n m => 0 <= n <= Z.of_nat (size m))).
  - by rewrite map_size_empty.
  - intros i st m n Hi IH. rewrite map_size_insert_None by done.
    pose proof (weight_range c (state_mode st)). lia.
Qed.

Lemma total_pos c states :
  0 < total c states <->
  exists owner st, states !! owner = Some st /\ weight c (state_mode st) = 1.
Proof.
  assert (0 <= total c states /\ (0 < total c states <->
    exists owner st, states !! owner = Some st /\ weight c (state_mode st) = 1)) as [_ H];
    [|exact H].
  unfold total. apply (map_fold_weak_ind (fun n m => 0 <= n /\ (0 < n <->
    exists owner st, m !! owner = Some st /\ weight c (state_mode st) = 1))).
  - split; [lia|]. split; [lia|]. intros (? & ? & Hl & _). by rewrite lookup_empty in Hl.
  - intros i st m n Hi [Hn IH]. pose proof (weight_range c (state_mode st)) as Hw.
    split; [lia|]. split.
    + intros Hp. destruct (decide (weight c (state_mode st) = 1)) as [E|E].
      { exists i, st. by rewrite lookup_insert_eq. }
      destruct (proj1 IH) as (o & st' & Ho & Hst); [lia|]. exists o, st'. split; [|done].
      rewrite lookup_insert_ne; [done|]. intros ->. congruence.
    + intros (o & st' & Ho & Hst). apply lookup_insert_Some in Ho as [[<- <-]|[Hne Ho]]; [lia|].
      assert (0 < n) by (apply IH; eauto). lia.
Qed.

Lemma sum_weights_range c l : 0 <= sum_weights c l <= Z.of_nat (length l).
Proof.
  induction l as [|m l IH]; simpl; [lia|]. pose proof (weight_range c m). lia.
Qed.

Lemma sum_weights_pos c l : 0 < sum_weights c l <-> exists m, m ∈ l /\ weight c m = 1.
Proof.
  induction l as [|m l IH]; simpl.
  - split; [lia|]. intros (m & Hm & _). by apply elem_of_nil in Hm.
  - pose proof (weight_range c m). pose proof (sum_weights_range c l). split.
    + intros Hp. destruct (decide (weight c m = 1)) as [E|E]; [exists m; split; [by left|done]|].
      destruct (proj1 IH) as (m' & ? & ?); [lia|]. exists m'. split; [by right|done].
    + intros (m' & Hm & Hw). apply elem_of_cons in Hm as [->|Hm]; [lia|].
      assert (0 < sum_weights c l) by (apply IH; eauto). lia.
Qed.

Lemma sum_weights_delete c l i m :
  l !! i = Some m -> sum_weights c (delete i l) = sum_weights c l - weight c m.
Proof.
  revert i. induction l as [|x l IH]; intros [|i] Hi; try done; simplify_eq/=; [lia|].
  rewrite IH by done. lia.
Qed.

Lemma sum_weights_cons c m l : sum_weights c (m :: l) = weight c m + sum_weights c l.
Proof. done. Qed.

(** ** What the share functions do to the counters *)

Definition ledger {F} (X : counter -> Z) (w : state_file F) : Prop :=
  forall c, read_counter c (share_state w) = u32 (X c).

Lemma update_counter_v4 s oa od na nd c X :
  read_counter c s = u32 X ->
  read_counter c (state_share_update_counter s oa od na nd true)
  = u32 (X + (weight c (na, nd) - weight c (oa, od))).
Proof. by destruct c; simpl; intros ->; rewrite u32_idemp_add. Qed.

Lemma update_counter_anon s oa na c X :
  read_counter c s = u32 X ->
  read_counter c (state_share_update_counter s oa OPEN4_SHARE_DENY_NONE na
                    OPEN4_SHARE_DENY_NONE false)
  = u32 (X + (weight c (na, OPEN4_SHARE_DENY_NONE) - weight c (oa, OPEN4_SHARE_DENY_NONE))).
Proof.
  destruct c; simpl; intros ->; rewrite ?u32_idemp_add; try done.
  by rewrite Z.add_0_r.
Qed.

(** Everything but the counters and the backend. *)
Definition same_states {F} (w w' : state_file F) : Prop :=
  open_states w' = open_states w /\ anon_ops w' = anon_ops w /\
  fds_curr_delegations w' = fds_curr_delegations w /\ fds_deleg_type w' = fds_deleg_type w.

Section effects.
Context `{FsalOps F} (obj : nat).
Implicit Types (w : state_file F).

Lemma do_share_op_same ctx_export share w :
  same_states w (do_share_op obj ctx_export share w).2 /\
  share_state (do_share_op obj ctx_export share w).2 = share_state w.
Proof.
  unfold do_share_op. destruct (negb _); [done|]. by destruct (share_op _ _ _).
Qed.

Lemma state_share_push_ledger ctx_export oa od na nd reclaim X w :
  ledger X w ->
  let '(status, w') := state_share_push obj ctx_export oa od na nd reclaim w in
  same_states w w' /\
  ledger (fun c => X c + if decide (status = STATE_SUCCESS)
                         then weight c (na, nd) - weight c (oa, od) else 0) w'.
Proof.
  intros HX. unfold state_share_push. set (w1 := set_share _ w).
  assert (ledger (fun c => X c + (weight c (na, nd) - weight c (oa, od))) w1) as HX1.
  { intros c. simpl. by apply update_counter_v4. }
  destruct (_ || _).
  - destruct (do_share_op_same ctx_export
      {| sp_share_access := state_share_get_share_access (share_state w1);
         sp_share_deny := state_share_get_share_deny (share_state w1);
         sp_share_reclaim := reclaim |} w1) as [Hs He].
    destruct (do_share_op _ _ _ _) as [status w2]. simpl in Hs, He.
    case_decide as Hst; subst.
    + split; [done|]. intros c. rewrite decide_True, He by done. apply HX1.
    + split; [done|]. intros c. rewrite decide_False by done. simpl. rewrite He.
      rewrite (update_counter_v4 _ _ _ _ _ _ _ (HX1 c)). f_equal. lia.
  - split; [done|]. intros c. rewrite decide_True by done. apply HX1.
Qed.
Lemma state_deleg_conflict_same write w :
  same_states w (state_deleg_conflict obj write w).2 /\
  share_state (state_deleg_conflict obj write w).2 = share_state w.
Proof.
  unfold state_deleg_conflict. case_decide; [done|]. destruct (_ && _); [|done].
  by destruct (fridgethr_submit _).
Qed.

Lemma state_share_add_effect ctx_export owner reclaim X w st :
  ledger X w -> open_states w !! owner = Some st ->
  exists status w', state_share_add obj ctx_export owner reclaim w = Some (status, w') /\
    if decide (status = STATE_SUCCESS)
    then ledger (fun c => X c + weight c (state_mode st)) w' /\
         exists st', open_states w' = <[owner := st']> (open_states w) /\
                     state_mode st' = state_mode st
    else ledger X w' /\ open_states w' = open_states w.
Proof.
  intros HX Hst. unfold state_share_add. rewrite Hst. simpl.
  pose proof (state_share_push_ledger ctx_export OPEN4_SHARE_ACCESS_NONE OPEN4_SHARE_DENY_NONE
    (share_access (st_share st)) (share_deny (st_share st)) reclaim X w HX) as Hp.
  destruct (state_share_push _ _ _ _ _ _ _ _) as [status w1]. destruct Hp as [(Hs & _) HX1].
  case_decide as Hok; do 2 eexists; (split; [done|]).
  - rewrite decide_True by done. split.
    + intros c. simpl. rewrite HX1. cbv beta. by rewrite weight_none, Z.sub_0_r.
    + exists (mk_open_state (state_share_set_prev (st_share st) (st_share st)) (st_export st)).
      simpl. by rewrite Hs.
  - rewrite decide_False by done. split; [|done].
    intros c. rewrite HX1. cbv beta. by rewrite Z.add_0_r.
Qed.

Lemma state_share_remove_effect ctx_export owner X w st :
  ledger X w -> open_states w !! owner = Some st ->
  exists status w', state_share_remove obj ctx_export owner w = Some (status, w') /\
    open_states w' = open_states w /\
    ledger (fun c => X c - if decide (status = STATE_SUCCESS)
                           then weight c (state_mode st) else 0) w'.
Proof.
  intros HX Hst. unfold state_share_remove. rewrite Hst. simpl.
  pose proof (state_share_push_ledger ctx_export (share_access (st_share st))
    (share_deny (st_share st)) OPEN4_SHARE_ACCESS_NONE OPEN4_SHARE_DENY_NONE false X w HX) as Hp.
  destruct (state_share_push _ _ _ _ _ _ _ _) as [status w1]. destruct Hp as [(Hs & _) HX1].
  do 2 eexists. split; [done|]. split; [done|]. intros c. rewrite HX1. f_equal.
  cbv beta. rewrite weight_none. unfold state_mode. case_decide; lia.
Qed.

(** Upgrade and downgrade: the state has the new mode, or nothing changed. *)
Definition changed_mode (owner : nat) (st : open_state) (m : mode) (X : counter -> Z)
    (status : state_status_t) w w' : Prop :=
  if decide (status = STATE_SUCCESS)
  then ledger (fun c => X c + (weight c m - weight c (state_mode st))) w' /\
       exists st', open_states w' = <[owner := st']> (open_states w) /\ state_mode st' = m
  else ledger X w' /\ open_states w' = open_states w.

Lemma state_share_upgrade_effect ctx_export owner d reclaim X w st :
  ledger X w -> open_states w !! owner = Some st ->
  exists status w', state_share_upgrade obj ctx_export owner d reclaim w = Some (status, w') /\
    changed_mode owner st (Z.lor (share_access d) (share_access (st_share st)),
                           Z.lor (share_deny d) (share_deny (st_share st))) X status w w'.
Proof.
  intros HX Hst. unfold state_share_upgrade, changed_mode. rewrite Hst. simpl.
  pose proof (state_share_push_ledger ctx_export (share_access (st_share st))
    (share_deny (st_share st)) (Z.lor (share_access d) (share_access (st_share st)))
    (Z.lor (share_deny d) (share_deny (st_share st))) reclaim X w HX) as Hp.
  destruct (state_share_push _ _ _ _ _ _ _ _) as [status w1]. destruct Hp as [(Hs & _) HX1].
  case_decide as Hok; do 2 eexists; (split; [done|]).
  - rewrite decide_True by done. split.
    + exact HX1.
    + eexists. split; [by simpl; rewrite Hs|done].
  - rewrite decide_False by done. split; [|done].
    intros c. rewrite HX1. cbv beta. by rewrite Z.add_0_r.
Qed.

Lemma state_share_downgrade_effect ctx_export owner d X w st :
  ledger X w -> open_states w !! owner = Some st ->
  exists status w', state_share_downgrade obj ctx_export owner d w = Some (status, w') /\
    changed_mode owner st (share_access d, share_deny d) X status w w'.
Proof.
  intros HX Hst. unfold state_share_downgrade, changed_mode. rewrite Hst. simpl.
  pose proof (state_share_push_ledger ctx_export (share_access (st_share st))
    (share_deny (st_share st)) (share_access d) (share_deny d) false X w HX) as Hp.
  destruct (state_share_push _ _ _ _ _ _ _ _) as [status w1]. destruct Hp as [(Hs & _) HX1].
  case_decide as Hok; do 2 eexists; (split; [done|]).
  - rewrite decide_True by done. split.
    + exact HX1.
    + eexists. split; [by simpl; rewrite Hs|done].
  - rewrite decide_False by done. split; [|done].
    intros c. rewrite HX1. cbv beta. by rewrite Z.add_0_r.
Qed.
(** The outcomes of OPEN: refused with nothing changed, a new state, or an
    old state with a larger mode.  A new state may be left behind by an OPEN
    that failed, and is not counted then. *)
Inductive open_outcome (owner : nat) (cand : mode) (X : counter -> Z) w
    : nfsstat4 -> state_file F -> Prop :=
  | OpenRefused r w' :
      r <> NFS4_OK -> open_states w' = open_states w -> ledger X w' ->
      open_outcome owner cand X w r w'
  | OpenNew r w' st :
      open_states w !! owner = None ->
      open_states w' = <[owner := st]> (open_states w) -> state_mode st = cand ->
      ledger (fun c => X c + if decide (r = NFS4_OK) then weight c cand else 0) w' ->
      open_outcome owner cand X w r w'
  | OpenUpgraded w' old st :
      open_states w !! owner = Some old ->
      open_states w' = <[owner := st]> (open_states w) ->
      state_mode st = (Z.lor cand.1 (state_mode old).1, Z.lor cand.2 (state_mode old).2) ->
      ledger (fun c => X c + (weight c (state_mode st) - weight c (state_mode old))) w' ->
      open_outcome owner cand X w NFS4_OK w'.

Lemma open_outcome_from w1 owner cand X w r w' :
  open_states w1 = open_states w -> open_outcome owner cand X w1 r w' ->
  open_outcome owner cand X w r w'.
Proof.
  intros E [r' w2 Hr Hs Hl|r' w2 st Hn Hs Hm Hl|w2 old st Ho Hs Hm Hl]; rewrite E in *.
  - by apply OpenRefused.
  - by eapply OpenNew.
  - by eapply OpenUpgraded.
Qed.

Lemma nfs4_Errno_state_not_ok s : s <> STATE_SUCCESS -> nfs4_Errno_state s <> NFS4_OK.
Proof. by destruct s. Qed.

Lemma nfs4_Errno_verbose_not_ok st :
  FSAL_IS_ERROR st = true -> nfs4_Errno_verbose (major st) <> NFS4_OK.
Proof. destruct st as [m ?]. by destruct m. Qed.

Lemma open4_push_share_new owner ctx_export d openflags X w st :
  ledger X w -> open_states w !! owner = Some st -> st_share st = d ->
  exists r w', open4_push_share obj owner ctx_export d openflags true w = Some (r, w') /\
    ledger (fun c => X c + if decide (r = NFS4_OK) then weight c (state_mode st) else 0) w' /\
    exists st', open_states w' = <[owner := st']> (open_states w) /\ state_mode st' = state_mode st.
Proof.
  intros HX Hst <-. unfold open4_push_share.
  destruct (fsal_open ctx_export obj openflags (backend w)) as [status f].
  destruct (FSAL_IS_ERROR status) eqn:Ef.
  { do 2 eexists. split; [done|]. split.
    - intros c. rewrite decide_False by (by apply nfs4_Errno_verbose_not_ok).
      rewrite Z.add_0_r. apply HX.
    - exists st. split; [|done]. simpl. by rewrite insert_id. }
  destruct (state_share_add_effect ctx_export owner (flag_set openflags FSAL_O_RECLAIM) X
    (set_backend f w) st HX Hst) as (ss & w1 & -> & He). simpl.
  destruct (decide (ss = STATE_SUCCESS)) as [->|Hss].
  - destruct He as [HX1 (st' & Hs & Hm)]. do 2 eexists. split; [done|]. split; [done|].
    exists st'. by rewrite Hs.
  - destruct He as [HX1 Hs]. destruct (obj_close _ _) as [st2 f2]. do 2 eexists. split; [done|].
    split.
    + intros c. rewrite decide_False by (by apply nfs4_Errno_state_not_ok).
      rewrite Z.add_0_r. apply HX1.
    + exists st. split; [|done]. simpl. by rewrite Hs, insert_id.
Qed.

Lemma open4_push_share_old owner ctx_export d openflags X w old :
  ledger X w -> open_states w !! owner = Some old ->
  exists r w', open4_push_share obj owner ctx_export d openflags false w = Some (r, w') /\
    open_outcome owner (share_access d, share_deny d) X w r w'.
Proof.
  intros HX Hst. unfold open4_push_share.
  destruct (fsal_open ctx_export obj openflags (backend w)) as [status f].
  destruct (FSAL_IS_ERROR status) eqn:Ef.
  { do 2 eexists. split; [done|]. apply OpenRefused; [by apply nfs4_Errno_verbose_not_ok|done..]. }
  destruct (state_share_upgrade_effect ctx_export owner d (flag_set openflags FSAL_O_RECLAIM) X
    (set_backend f w) old HX Hst) as (ss & w1 & -> & He). unfold changed_mode in He. simpl.
  destruct (decide (ss = STATE_SUCCESS)) as [->|Hss].
  - destruct He as [HX1 (st' & Hs & Hm)]. do 2 eexists. split; [done|].
    apply (OpenUpgraded _ _ _ _ _ old st'); [done..|]. by rewrite Hm.
  - destruct He as [HX1 Hs]. destruct (obj_close _ _) as [st2 f2]. do 2 eexists. split; [done|].
    apply OpenRefused; [by apply nfs4_Errno_state_not_ok|done..].
Qed.

Lemma open4_do_open_outcome owner ctx_export access deny openflags add_status X w :
  ledger X w ->
  let cand := (Z.land access OPEN4_SHARE_ACCESS_BOTH, deny) in
  exists r w',
    open4_do_open obj owner ctx_export access deny openflags add_status w = Some (r, w') /\
    open_outcome owner cand X w r w' /\
    (open_states w' <> open_states w ->
     state_share_check_conflict (share_state w) cand.1 cand.2 SHARE_BYPASS_NONE = STATE_SUCCESS).
Proof.
  intros HX cand. unfold open4_do_open. cbn [share_access share_deny].
  case_decide as Hc.
  { do 2 eexists. split; [done|]. split; [|done].
    apply OpenRefused; [by apply nfs4_Errno_state_not_ok|done..]. }
  destruct (state_deleg_conflict_same
    (flag_set (Z.land access OPEN4_SHARE_ACCESS_BOTH) OPEN4_SHARE_ACCESS_WRITE) w)
    as [(Hs1 & _) He1].
  destruct (state_deleg_conflict _ _ w) as [conflict w1]. simpl in Hs1, He1.
  assert (ledger X w1) as HX1 by (intros c; rewrite He1; apply HX).
  destruct conflict.
  { do 2 eexists. split; [done|]. split; [by apply OpenRefused|done]. }
  destruct (open_states w1 !! owner) as [old|] eqn:Hold.
  - case_decide as Hx.
    { do 2 eexists. split; [done|]. split; [by apply OpenRefused|done]. }
    destruct (open4_push_share_old owner ctx_export (mk_state_share (Z.land access
      OPEN4_SHARE_ACCESS_BOTH) deny 0 0) openflags X w1 old HX1 Hold) as (r & w' & -> & Ho).
    do 2 eexists. split; [done|]. split; [|done]. by apply (open_outcome_from w1).
  - case_decide as Ha.
    { do 2 eexists. split; [done|]. split; [|done].
      apply OpenRefused; [by apply nfs4_Errno_state_not_ok|done..]. }
    set (d := mk_state_share _ _ _ _). set (st := mk_open_state d ctx_export).
    destruct (open4_push_share_new owner ctx_export d openflags X
      (set_states (<[owner := st]> (open_states w1)) w1) st HX1) as (r & w' & -> & HX2 & st' & Hs & Hm);
      [by apply lookup_insert_eq|done|].
    do 2 eexists. split; [done|]. split; [|done]. rewrite Hs1 in *.
    apply (OpenNew _ _ _ _ _ _ st'); [done| |done..]. rewrite Hs. simpl.
    by rewrite insert_insert_eq.
Qed.
End effects.

(** ** Runs *)

(** The requests on the file, with the parts of their outcome that come from
    outside of the model. *)
Inductive share_cmd :=
  | Open (owner ctx_export : nat) (access deny claim : Z) (add_status : state_status_t)
  | OpenDowngrade (owner ctx_export : nat) (access deny : Z)
  | CloseOpen (owner ctx_export : nat)
  | IoStart (access : Z) (bypass : share_bypass_modes)
  | IoDone (i : nat).

(** What a run has left to account for: the accesses of anonymous I/O in
    progress, the modes of states whose share was not released when they were
    deleted, and those of states that a failed OPEN left behind. *)
Record account := mk_account {
  io : list Z;
  leaked : list mode;
  orphans : list mode
}.

Definition no_account : account := mk_account [] [] [].

Definition io_modes (g : account) : list mode := (fun a => (a, OPEN4_SHARE_DENY_NONE)) <$> io g.

#[local] Arguments sum_weights : simpl never.

Section runs.
Context `{FsalOps F} (obj : nat).
Implicit Types (w : state_file F).

(** The state an OPEN left behind although it failed. *)
Definition orphan (owner : nat) (r : nfsstat4) w w' : list mode :=
  match open_states w !! owner, open_states w' !! owner with
  | None, Some st => if decide (r = NFS4_OK) then [] else [state_mode st]
  | _, _ => []
  end.

Definition share_step (c : share_cmd) (wg : state_file F * account)
    : option (state_file F * account) :=
  let '(w, g) := wg in
  match c with
  | Open owner ctx_export access deny claim add_status =>
      '(r, w') ← open4_do_open obj owner ctx_export access deny
                   (open4_openflags access claim) add_status w;
      Some (w', mk_account (io g) (leaked g) (orphan owner r w w' ++ orphans g))
  | OpenDowngrade owner ctx_export access deny =>
      '(_, w') ← nfs4_do_open_downgrade obj owner ctx_export access deny
                   (fsalstat ERR_FSAL_NO_ERROR 0) w;
      Some (w', g)
  | CloseOpen owner ctx_export =>
      st ← open_states w !! owner;
      '(status, w') ← nfs4_close_share obj owner ctx_export w;
      Some (w', mk_account (io g)
                  ((if decide (status = STATE_SUCCESS) then [] else [state_mode st]) ++ leaked g)
                  (orphans g))
  | IoStart access bypass =>
      let '(status, w') := state_share_anonymous_io_start obj access bypass w in
      Some (w', if decide (status = STATE_SUCCESS)
                then mk_account (access :: io g) (leaked g) (orphans g) else g)
  | IoDone i =>
      access ← io g !! i;
      Some (state_share_anonymous_io_done access w,
            mk_account (delete i (io g)) (leaked g) (orphans g))
  end.

Fixpoint open_run (cs : list share_cmd) (wg : state_file F * account)
    : option (state_file F * account) :=
  match cs with
  | [] => Some wg
  | c :: cs => wg ← share_step c wg; open_run cs wg
  end.

(** A file without shares. *)
Definition fresh_file (f : fsal_state F) : state_file F :=
  mk_state_file (mk_sal_share 0 0 0 0 0) 0 0 0 ∅ f.

(** What the counters should be. *)
Definition due (w : state_file F) (g : account) (c : counter) : Z :=
  total c (open_states w) + sum_weights c (io_modes g) + sum_weights c (leaked g)
  - sum_weights c (orphans g).

Definition accounted (wg : state_file F * account) : Prop := ledger (due wg.1 wg.2) wg.1.

Lemma ledger_ext X Y w : (forall c, X c = Y c) -> ledger X w -> ledger Y w.
Proof. intros E HX c. by rewrite <-E. Qed.

Lemma sum_weights_app c l1 l2 : sum_weights c (l1 ++ l2) = sum_weights c l1 + sum_weights c l2.
Proof.
  induction l1 as [|m l1 IH]; [done|]. simpl app. rewrite !sum_weights_cons, IH. lia.
Qed.

Lemma open_accounted owner ctx_export access deny claim add_status wg wg' :
  accounted wg -> share_step (Open owner ctx_export access deny claim add_status) wg = Some wg' ->
  accounted wg'.
Proof.
  destruct wg as [w g]. intros Ha Hs.
  destruct (open4_do_open_outcome obj owner ctx_export access deny (open4_openflags access claim)
    add_status (due w g) w Ha) as (r & w' & Ho & Hout & _).
  simpl in Hs. rewrite Ho in Hs. simplify_eq/=.
  destruct Hout as [r w' Hr Hst Hl|r w' st Hn Hst Hm Hl|w' old st Hold Hst Hm Hl];
    (eapply ledger_ext; [|exact Hl]); intros c; unfold due, orphan, io_modes; simpl; rewrite Hst.
  - by destruct (open_states w !! owner).
  - rewrite Hn, lookup_insert_eq, total_insert, sum_weights_app, Hm by done.
    case_decide; rewrite ?sum_weights_cons; change (sum_weights c []) with 0; lia.
  - rewrite Hold, (total_replace c _ _ old) by done. simpl. lia.
Qed.

Lemma downgrade_effect owner ctx_export access deny X w st :
  support_ex obj = false -> ledger X w -> open_states w !! owner = Some st ->
  exists r w', nfs4_do_open_downgrade obj owner ctx_export access deny
                 (fsalstat ERR_FSAL_NO_ERROR 0) w = Some (r, w') /\
    ((ledger X w' /\ open_states w' = open_states w) \/
     (Z.land (state_mode st).1 access = access /\ Z.land (state_mode st).2 deny = deny /\
      ledger (fun c => X c + (weight c (access, deny) - weight c (state_mode st))) w' /\
      exists st', open_states w' = <[owner := st']> (open_states w) /\
                  state_mode st' = (access, deny))).
Proof.
  intros Hex HX Hst. unfold nfs4_do_open_downgrade. rewrite Hst. simpl.
  destruct (Z.eqb_spec (Z.land (share_access (st_share st)) access) access) as [Ea|]; simpl; [|by eauto 8].
  destruct (Z.eqb_spec (Z.land (share_deny (st_share st)) deny) deny) as [Ed|]; simpl; [|by eauto 8].
  destruct (_ || _); [by eauto 8|]. rewrite Hex.
  destruct (state_share_downgrade_effect obj ctx_export owner (mk_state_share access deny 0 0) X w st
    HX Hst) as (ss & w1 & -> & He). unfold changed_mode in He. simpl in *.
  destruct (decide (ss = STATE_SUCCESS)) as [->|Hss]; [|rewrite decide_True by done].
  - destruct He as [HX1 He]. do 2 eexists. split; [done|]. right. done.
  - do 2 eexists. split; [done|]. by left.
Qed.

Lemma downgrade_accounted owner ctx_export access deny wg wg' :
  support_ex obj = false ->
  accounted wg -> share_step (OpenDowngrade owner ctx_export access deny) wg = Some wg' ->
  accounted wg'.
Proof.
  destruct wg as [w g]. intros Hex Ha Hs. simpl in Hs.
  destruct (open_states w !! owner) as [st|] eqn:Hst.
  2: { unfold nfs4_do_open_downgrade in Hs. by rewrite Hst in Hs. }
  destruct (downgrade_effect owner ctx_export access deny (due w g) w st Hex Ha Hst)
    as (r & w' & E & He). rewrite E in Hs. simplify_eq/=.
  destruct He as [[Hl Hs]|(_ & _ & Hl & st' & Hs & Hm)];
    (eapply ledger_ext; [|exact Hl]); intros c; unfold due; simpl; rewrite Hs; [done|].
  rewrite (total_replace c _ _ st), Hm by done. lia.
Qed.

Lemma close_accounted owner ctx_export wg wg' :
  support_ex obj = false ->
  accounted wg -> share_step (CloseOpen owner ctx_export) wg = Some wg' -> accounted wg'.
Proof.
  destruct wg as [w g]. intros Hex Ha Hs. simpl in Hs.
  destruct (open_states w !! owner) as [st|] eqn:Hst; [|done]. simpl in Hs.
  unfold nfs4_close_share in Hs. rewrite Hex in Hs.
  destruct (state_share_remove_effect obj ctx_export owner (due w g) w st Ha Hst)
    as (ss & w1 & E & Hs1 & Hl). rewrite E in Hs. simplify_eq/=.
  eapply ledger_ext; [|exact Hl]. intros c. unfold due, io_modes. simpl.
  rewrite Hs1, (total_delete c _ _ st), sum_weights_app by done.
  destruct (decide (ss = STATE_SUCCESS)); rewrite ?sum_weights_cons;
    change (sum_weights c []) with 0; lia.
Qed.

Lemma io_accounted access bypass wg wg' :
  accounted wg -> share_step (IoStart access bypass) wg = Some wg' -> accounted wg'.
Proof.
  destruct wg as [w g]. intros Ha Hs. simpl in Hs.
  unfold state_share_anonymous_io_start in Hs. case_decide as Hc.
  { simpl in Hs. by simplify_eq/=. }
  destruct (state_deleg_conflict_same obj (flag_set access OPEN4_SHARE_ACCESS_WRITE) w)
    as [(Hs1 & _) He1].
  destruct (state_deleg_conflict _ _ w) as [conflict w1]. simpl in Hs1, He1.
  destruct conflict; simplify_eq/=.
  { intros c. simpl. rewrite He1. unfold due. rewrite Hs1. apply Ha. }
  rewrite decide_True by done. intros c. simpl. rewrite He1.
  rewrite (update_counter_anon _ _ _ _ _ (Ha c)). f_equal.
  unfold due. simpl. rewrite Hs1.
  change (io_modes _) with ((access, OPEN4_SHARE_DENY_NONE) :: io_modes g) at 2.
  rewrite weight_none, sum_weights_cons. lia.
Qed.

Lemma io_done_accounted i wg wg' :
  accounted wg -> share_step (IoDone i) wg = Some wg' -> accounted wg'.
Proof.
  destruct wg as [w g]. intros Ha Hs. simpl in Hs.
  destruct (io g !! i) as [access|] eqn:Hi; simplify_eq/=. intros c. simpl.
  rewrite (update_counter_anon _ _ _ _ _ (Ha c)). f_equal. unfold due, io_modes. simpl.
  rewrite list_fmap_delete, (sum_weights_delete c _ i (access, OPEN4_SHARE_DENY_NONE)), weight_none.
  - lia.
  - by rewrite list_lookup_fmap, Hi.
Qed.

Lemma share_step_accounted c wg wg' :
  support_ex obj = false -> accounted wg -> share_step c wg = Some wg' -> accounted wg'.
Proof.
  destruct c; eauto using open_accounted, downgrade_accounted, close_accounted, io_accounted,
    io_done_accounted.
Qed.

(** ** Exclusion *)

Definition denies (m1 m2 : mode) : Prop :=
  (flag_set m1.1 OPEN4_SHARE_ACCESS_READ = true /\ flag_set m2.2 OPEN4_SHARE_DENY_READ = true) \/
  (flag_set m1.1 OPEN4_SHARE_ACCESS_WRITE = true /\ flag_set m2.2 OPEN4_SHARE_DENY_WRITE = true).

(** One of them denies an access of the other. *)
Definition mode_conflict (m1 m2 : mode) : Prop := denies m1 m2 \/ denies m2 m1.

(** The modes in effect. *)
Definition in_effect (wg : state_file F * account) (m : mode) : Prop :=
  (exists owner st, open_states wg.1 !! owner = Some st /\ state_mode st = m) \/
  m ∈ io_modes wg.2.

(** Nothing was leaked or left behind. *)
Definition clean (wg : state_file F * account) : Prop :=
  leaked wg.2 = [] /\ orphans wg.2 = [].

Definition load_of (wg : state_file F * account) : Z :=
  Z.of_nat (size (open_states wg.1) + length (io wg.2)).

Lemma weight_flag c m :
  weight c m = 1 <->
  match c with
  | AccessRead => flag_set m.1 OPEN4_SHARE_ACCESS_READ = true
  | AccessWrite => flag_set m.1 OPEN4_SHARE_ACCESS_WRITE = true
  | DenyRead => flag_set m.2 OPEN4_SHARE_DENY_READ = true
  | DenyWrite | DenyWriteV4 => flag_set m.2 OPEN4_SHARE_DENY_WRITE = true
  end.
Proof. destruct c; simpl; unfold flag_int; destruct (flag_set _ _); simpl; split; lia || done. Qed.

Lemma counter_positive wg c :
  accounted wg -> clean wg -> load_of wg < 4294967296 ->
  (0 <? read_counter c (share_state wg.1)) = true <->
  exists m, in_effect wg m /\ weight c m = 1.
Proof.
  destruct wg as [w g]. intros Ha [Hl Ho] Hb.
  assert (read_counter c (share_state w) = u32 (due w g c)) as E by apply Ha. simpl in *.
  rewrite E. unfold due. rewrite Hl, Ho. change (sum_weights c []) with 0.
  pose proof (total_range c (open_states w)). pose proof (sum_weights_range c (io_modes g)) as Hr.
  unfold load_of in Hb. simpl in Hb. unfold io_modes in Hr. rewrite length_fmap in Hr.
  fold (io_modes g) in Hr. rewrite u32_small by lia. rewrite Z.ltb_lt. unfold in_effect. simpl. split.
  - intros Hp. destruct (decide (0 < total c (open_states w))) as [Ht|Ht].
    + apply total_pos in Ht as (owner & st & Hst & Hw). eauto 8.
    + assert (0 < sum_weights c (io_modes g)) as Hs by lia.
      apply sum_weights_pos in Hs as (m & Hm & Hw). eauto.
  - intros (m & [(owner & st & Hst & <-)|Hm] & Hw).
    + assert (0 < total c (open_states w)) by (apply total_pos; eauto). lia.
    + assert (0 < sum_weights c (io_modes g)) by (apply sum_weights_pos; eauto). lia.
Qed.

(** The conflict check finds exactly the conflicts with the modes in effect. *)
Lemma check_conflict_spec wg a d :
  accounted wg -> clean wg -> load_of wg < 4294967296 ->
  if decide (state_share_check_conflict (share_state wg.1) a d SHARE_BYPASS_NONE = STATE_SUCCESS)
  then forall m, in_effect wg m -> ~ mode_conflict (a, d) m
  else state_share_check_conflict (share_state wg.1) a d SHARE_BYPASS_NONE = STATE_SHARE_DENIED /\
       exists m, in_effect wg m /\ mode_conflict (a, d) m.
Proof.
  intros Ha Hc Hb.
  pose proof (counter_positive wg DenyRead Ha Hc Hb) as PR.
  pose proof (counter_positive wg DenyWrite Ha Hc Hb) as PW.
  pose proof (counter_positive wg DenyWriteV4 Ha Hc Hb) as PV.
  pose proof (counter_positive wg AccessRead Ha Hc Hb) as AR.
  pose proof (counter_positive wg AccessWrite Ha Hc Hb) as AW.
  setoid_rewrite weight_flag in PR. setoid_rewrite weight_flag in PW.
  setoid_rewrite weight_flag in PV. setoid_rewrite weight_flag in AR.
  setoid_rewrite weight_flag in AW. simpl in *.
  unfold state_share_check_conflict, mode_conflict, denies.
  rewrite !bool_decide_true by done. rewrite andb_true_r, andb_true_l.
  destruct (flag_set a OPEN4_SHARE_ACCESS_READ && _) eqn:E1.
  { apply andb_true_iff in E1 as [? (m & ? & ?)%PR]. simpl. eauto 10. }
  destruct (flag_set a OPEN4_SHARE_ACCESS_WRITE && _) eqn:E2.
  { apply andb_true_iff in E2 as [? [(m & ? & ?)%PV|(m & ? & ?)%PW]%orb_true_iff]; simpl; eauto 10. }
  destruct (flag_set d OPEN4_SHARE_DENY_READ && _) eqn:E3.
  { apply andb_true_iff in E3 as [? (m & ? & ?)%AR]. simpl. eauto 10. }
  destruct (flag_set d OPEN4_SHARE_DENY_WRITE && _) eqn:E4.
  { apply andb_true_iff in E4 as [? (m & ? & ?)%AW]. simpl. eauto 10. }
  simpl. intros m Hm [[[Hf Hd]|[Hf Hd]]|[[Hd Hf]|[Hd Hf]]].
  - by rewrite Hf, (proj2 PR (ex_intro _ m (conj Hm Hd))) in E1.
  - by rewrite Hf, (proj2 PV (ex_intro _ m (conj Hm Hd))) in E2.
  - by rewrite Hf, (proj2 AR (ex_intro _ m (conj Hm Hd))) in E3.
  - by rewrite Hf, (proj2 AW (ex_intro _ m (conj Hm Hd))) in E4.
Qed.

Lemma flag_set_lor a b f : flag_set (Z.lor a b) f = flag_set a f || flag_set b f.
Proof.
  unfold flag_set. rewrite Z.land_lor_distr_l.
  destruct (Z.eqb_spec (Z.land a f) 0) as [->|Ha]; [by rewrite Z.lor_0_l|].
  destruct (Z.eqb_spec (Z.lor (Z.land a f) (Z.land b f)) 0) as [[? _]%Z.lor_eq_0_iff|]; done.
Qed.

Lemma flag_set_subset a b f : Z.land a b = b -> flag_set b f = true -> flag_set a f = true.
Proof.
  unfold flag_set. intros <-. rewrite !negb_true_iff, !Z.eqb_neq. intros Hb Ha. apply Hb.
  by rewrite (Z.land_comm a), <-Z.land_assoc, Ha, Z.land_0_r.
Qed.

(** A union conflicts only where one of its parts does, a smaller mode only
    where the larger does. *)
Lemma mode_conflict_lor a d m1 m2 :
  mode_conflict (Z.lor a m1.1, Z.lor d m1.2) m2 -> mode_conflict (a, d) m2 \/ mode_conflict m1 m2.
Proof.
  unfold mode_conflict, denies. simpl. rewrite !flag_set_lor, !orb_true_iff. tauto.
Qed.

Lemma mode_conflict_subset a d m1 m2 :
  Z.land m1.1 a = a -> Z.land m1.2 d = d -> mode_conflict (a, d) m2 -> mode_conflict m1 m2.
Proof.
  intros Ha Hd. unfold mode_conflict, denies. simpl.
  pose proof (fun f => flag_set_subset _ _ f Ha). pose proof (fun f => flag_set_subset _ _ f Hd).
  naive_solver.
Qed.

Lemma mode_conflict_sym m1 m2 : mode_conflict m1 m2 -> mode_conflict m2 m1.
Proof. unfold mode_conflict. tauto. Qed.

(** No two owners have states that conflict. *)
Definition exclusive (states : gmap nat open_state) : Prop :=
  forall o1 o2 st1 st2, o1 <> o2 -> states !! o1 = Some st1 -> states !! o2 = Some st2 ->
    ~ mode_conflict (state_mode st1) (state_mode st2).

Lemma exclusive_insert states owner st :
  exclusive states ->
  (forall o st', o <> owner -> states !! o = Some st' ->
     ~ mode_conflict (state_mode st) (state_mode st')) ->
  exclusive (<[owner := st]> states).
Proof.
  intros He Hn o1 o2 st1 st2 Hne H1 H2.
  apply lookup_insert_Some in H1 as [[<- <-]|[Hne1 H1]];
    apply lookup_insert_Some in H2 as [[<- <-]|[Hne2 H2]].
  - done.
  - by apply (Hn o2).
  - intros ?%mode_conflict_sym. by apply (Hn o1 st1).
  - by apply (He o1 o2).
Qed.

Lemma exclusive_delete states owner : exclusive states -> exclusive (delete owner states).
Proof.
  intros He o1 o2 st1 st2 Hne [_ H1]%lookup_delete_Some [_ H2]%lookup_delete_Some.
  by apply (He o1 o2).
Qed.

Definition share_inv (n : nat) (wg : state_file F * account) : Prop :=
  accounted wg /\ load_of wg <= Z.of_nat n /\ (clean wg -> exclusive (open_states wg.1)).

(** A candidate that passed the check conflicts with nobody's state. *)
Lemma candidate_exclusive n wg a d o st :
  share_inv n wg -> clean wg -> Z.of_nat n < 4294967296 ->
  state_share_check_conflict (share_state wg.1) a d SHARE_BYPASS_NONE = STATE_SUCCESS ->
  open_states wg.1 !! o = Some st -> ~ mode_conflict (a, d) (state_mode st).
Proof.
  intros (Ha & Hl & _) Hc Hn Hok Ho.
  pose proof (check_conflict_spec wg a d Ha Hc ltac:(lia)) as Hs.
  rewrite decide_True in Hs by done. apply Hs. left. eauto.
Qed.

Lemma open_inv n owner ctx_export access deny claim add_status wg wg' :
  Z.of_nat n < 4294967296 -> share_inv n wg ->
  share_step (Open owner ctx_export access deny claim add_status) wg = Some wg' ->
  load_of wg' <= Z.of_nat (S n) /\ (clean wg' -> exclusive (open_states wg'.1)).
Proof.
  destruct wg as [w g]. intros Hn Hi Hs. pose proof Hi as (Ha & Hl & Hx).
  destruct (open4_do_open_outcome obj owner ctx_export access deny (open4_openflags access claim)
    add_status (due w g) w Ha) as (r & w' & Ho & Hout & Hok).
  simpl in Hs. rewrite Ho in Hs. simplify_eq/=. unfold load_of, clean in *. simpl in *.
  pose proof (fun o st Hc Hok => candidate_exclusive n (w, g)
    (Z.land access OPEN4_SHARE_ACCESS_BOTH) deny o st Hi Hc Hn Hok) as Hcand.
  assert (forall l, l ++ orphans g = [] -> orphans g = []) as Happ
    by (by intros l [_ ?]%app_nil).
  destruct Hout as [r w' Hr Hst _|r w' st Hnone Hst Hm _|w' old st Hold Hst Hm _]; rewrite Hst in *.
  - split; [lia|]. intros [Hcl Hco]. apply Hx. eauto.
  - rewrite map_size_insert_None by done. split; [lia|]. intros [Hcl Hco].
    apply exclusive_insert; [apply Hx; eauto|]. intros o st' Hne Hst'. rewrite Hm.
    apply (Hcand o); [split; eauto| |done]. apply Hok. intros E.
    apply (f_equal (.!! owner)) in E. by rewrite lookup_insert_eq, Hnone in E.
  - rewrite map_size_insert_Some by done. split; [lia|]. intros [Hcl Hco].
    destruct (decide (<[owner:=st]> (open_states w) = open_states w)) as [->|Hd];
      [apply Hx; eauto|].
    apply exclusive_insert; [apply Hx; eauto|]. intros o st' Hne Hst'. rewrite Hm.
    intros [Hc|Hc]%mode_conflict_lor.
    { exact (Hcand o st' (conj Hcl (Happ _ Hco)) (Hok Hd) Hst' Hc). }
    by apply (Hx (conj Hcl (Happ _ Hco)) owner o old st').
Qed.

Lemma downgrade_inv n owner ctx_export access deny wg wg' :
  support_ex obj = false -> share_inv n wg ->
  share_step (OpenDowngrade owner ctx_export access deny) wg = Some wg' ->
  load_of wg' <= Z.of_nat (S n) /\ (clean wg' -> exclusive (open_states wg'.1)).
Proof.
  destruct wg as [w g]. intros Hex (Ha & Hl & Hx) Hs. simpl in Hs.
  destruct (open_states w !! owner) as [st|] eqn:Hst.
  2: { unfold nfs4_do_open_downgrade in Hs. by rewrite Hst in Hs. }
  destruct (downgrade_effect owner ctx_export access deny (due w g) w st Hex Ha Hst)
    as (r & w' & E & He). rewrite E in Hs. simplify_eq/=. unfold load_of, clean in *. simpl in *.
  destruct He as [[_ Hs]|(Hsa & Hsd & _ & st' & Hs & Hm)]; rewrite Hs.
  - split; [lia|done].
  - rewrite map_size_insert_Some by done. split; [lia|]. intros Hc.
    apply exclusive_insert; [by apply Hx|]. intros o st2 Hne Hst2. rewrite Hm.
    intros Hmc%(mode_conflict_subset _ _ (state_mode st) _ Hsa Hsd). by apply (Hx Hc owner o st st2).
Qed.

Lemma close_inv n owner ctx_export wg wg' :
  support_ex obj = false -> share_inv n wg ->
  share_step (CloseOpen owner ctx_export) wg = Some wg' ->
  load_of wg' <= Z.of_nat (S n) /\ (clean wg' -> exclusive (open_states wg'.1)).
Proof.
  destruct wg as [w g]. intros Hex (Ha & Hl & Hx) Hs. simpl in Hs.
  destruct (open_states w !! owner) as [st|] eqn:Hst; [|done]. simpl in Hs.
  unfold nfs4_close_share in Hs. rewrite Hex in Hs.
  destruct (state_share_remove_effect obj ctx_export owner (due w g) w st Ha Hst)
    as (ss & w1 & E & Hs1 & _). rewrite E in Hs. simplify_eq/=.
  unfold load_of, clean in *. simpl in *. rewrite Hs1. split.
  - rewrite map_size_delete, Hst. simpl. lia.
  - intros [[_ Hc]%app_nil Ho]. apply exclusive_delete, Hx. done.
Qed.

Lemma io_inv n c wg wg' :
  match c with IoStart _ _ | IoDone _ => True | _ => False end -> share_inv n wg ->
  share_step c wg = Some wg' ->
  load_of wg' <= Z.of_nat (S n) /\ (clean wg' -> exclusive (open_states wg'.1)).
Proof.
  destruct wg as [w g]. intros Hc (Ha & Hl & Hx) Hs. unfold load_of, clean in *. simpl in *.
  destruct c as [| | |access bypass|i]; try done; simpl in Hs.
  - unfold state_share_anonymous_io_start in Hs. case_decide as Hc'; [simplify_eq/=; split; [lia|done]|].
    destruct (state_deleg_conflict_same obj (flag_set access OPEN4_SHARE_ACCESS_WRITE) w)
      as [(Hs1 & _) He1].
    destruct (state_deleg_conflict _ _ w) as [[] w1]; simplify_eq/=; rewrite Hs1;
      [split; [lia|done]|]. rewrite decide_True by done. simpl. split; [lia|done].
  - destruct (io g !! i) as [a|] eqn:Hi; simplify_eq/=. split; [|done].
    rewrite length_delete by eauto. apply lookup_lt_Some in Hi. lia.
Qed.

Lemma share_step_inv n c wg wg' :
  support_ex obj = false -> Z.of_nat n < 4294967296 -> share_inv n wg ->
  share_step c wg = Some wg' -> share_inv (S n) wg'.
Proof.
  intros Hex Hn Hi Hs. pose proof (share_step_accounted c wg wg' Hex (proj1 Hi) Hs) as Ha.
  assert (load_of wg' <= Z.of_nat (S n) /\ (clean wg' -> exclusive (open_states wg'.1))) as [??]
    by (destruct c; [eapply open_inv|eapply downgrade_inv|eapply close_inv|eapply io_inv|
                     eapply io_inv]; eauto; done).
  by split.
Qed.

Lemma open_run_inv cs n wg wg' :
  support_ex obj = false -> Z.of_nat (n + length cs) < 4294967296 -> share_inv n wg ->
  open_run cs wg = Some wg' -> share_inv (n + length cs) wg'.
Proof.
  intros Hex. revert n wg. induction cs as [|c cs IH]; intros n wg Hn Hi Hr; simpl in *.
  { simplify_eq. by rewrite Nat.add_0_r. }
  destruct (share_step c wg) as [wg1|] eqn:Hs; [|done].
  rewrite <-Nat.add_succ_comm. apply (IH (S n) wg1); [lia| |done].
  apply (share_step_inv n c wg); [done|lia|done..].
Qed.

Lemma open_run_accounted cs wg wg' :
  support_ex obj = false -> accounted wg -> open_run cs wg = Some wg' -> accounted wg'.
Proof.
  intros Hex. revert wg. induction cs as [|c cs IH]; intros wg Ha Hr; simpl in *; [by simplify_eq|].
  destruct (share_step c wg) as [wg1|] eqn:Hs; [|done].
  apply (IH wg1); [|done]. by eapply share_step_accounted.
Qed.

Lemma fresh_accounted f : accounted (fresh_file f, no_account).
Proof. by intros []. Qed.

Lemma fresh_inv f : share_inv 0 (fresh_file f, no_account).
Proof.
  split; [apply fresh_accounted|]. split; [done|]. intros _ o1 o2 st1 st2 _ H1.
  simpl in H1. by rewrite lookup_empty in H1.
Qed.
End runs.

(** ** The properties *)

(** C22: what the share counters of a file are after any sequence of OPEN,
    OPEN_DOWNGRADE, CLOSE and anonymous I/O, through every failure of the
    backend.  Each counter is, modulo the width of the counters, the number
    of open states and of I/O in progress that have the flag, plus those
    closed while the backend refused to release their share, minus those
    that a failed OPEN left behind uncounted. *)
Theorem open_share_ledger `{FsalOps F} obj cs f w g :
  support_ex obj = false ->
  open_run obj cs (fresh_file f, no_account) = Some (w, g) ->
  forall c, read_counter c (share_state w) =
    u32 (total c (open_states w) + sum_weights c (io_modes g) + sum_weights c (leaked g)
         - sum_weights c (orphans g)).
Proof.
  intros Hex Hr. exact (open_run_accounted obj cs _ _ Hex (fresh_accounted f) Hr).
Qed.

Definition open_sample : list share_cmd := [
  Open 1 0 OPEN4_SHARE_ACCESS_READ OPEN4_SHARE_DENY_WRITE 0 STATE_SUCCESS;
  Open 2 0 OPEN4_SHARE_ACCESS_WRITE OPEN4_SHARE_DENY_NONE 0 STATE_SUCCESS;
  Open 2 0 OPEN4_SHARE_ACCESS_READ OPEN4_SHARE_DENY_NONE 0 STATE_SUCCESS;
  IoStart OPEN4_SHARE_ACCESS_READ SHARE_BYPASS_NONE;
  OpenDowngrade 1 0 OPEN4_SHARE_ACCESS_READ OPEN4_SHARE_DENY_WRITE;
  CloseOpen 1 0].

Definition sample_file : state_file (list fsal_errors_t) :=
  fresh_file (mk_fsal_state [] 0).

Lemma open_share_ledger_witness :
  exists w g,
    open_run (H := scripted_fsal false) 7 open_sample (sample_file, no_account) = Some (w, g) /\
    forall c, read_counter c (share_state w) =
      u32 (total c (open_states w) + sum_weights c (io_modes g) + sum_weights c (leaked g)
           - sum_weights c (orphans g)).
Proof.
  eexists _, _. split; [vm_compute; reflexivity|].
  apply (open_share_ledger (H := scripted_fsal false) 7 open_sample (mk_fsal_state [] 0));
    [reflexivity|vm_compute; reflexivity].
Defined.

(** C23: exclusion.  After a run that left nothing leaked or behind, no two
    owners have open states of which one denies an access of the other; an
    OPEN that conflicts with a state or an I/O in progress is answered
    NFS4ERR_SHARE_DENIED and changes nothing, and one that does not passes
    the check. *)
Theorem open_share_exclusion `{FsalOps F} obj cs f w g :
  support_ex obj = false -> Z.of_nat (length cs) < 4294967296 ->
  open_run obj cs (fresh_file f, no_account) = Some (w, g) -> leaked g = [] -> orphans g = [] ->
  exclusive (open_states w) /\
  forall owner ctx_export access deny openflags add_status,
    let cand := (Z.land access OPEN4_SHARE_ACCESS_BOTH, deny) in
    ((exists m, in_effect (w, g) m /\ mode_conflict cand m) /\
     open4_do_open obj owner ctx_export access deny openflags add_status w
     = Some (NFS4ERR_SHARE_DENIED, w)) \/
    ((forall m, in_effect (w, g) m -> ~ mode_conflict cand m) /\
     state_share_check_conflict (share_state w) cand.1 cand.2 SHARE_BYPASS_NONE = STATE_SUCCESS).
Proof.
  intros Hex Hn Hr Hl Ho.
  destruct (open_run_inv obj cs 0 _ _ Hex Hn (fresh_inv f) Hr) as (Ha & Hb & Hx).
  split; [by apply Hx|]. intros owner ctx_export access deny openflags add_status cand.
  pose proof (check_conflict_spec (w, g) cand.1 cand.2 Ha (conj Hl Ho)
    ltac:(simpl in *; lia)) as Hc.
  destruct (decide _) as [Hok|Hok]; [by right|]. left. destruct Hc as [Hd Hm].
  split; [done|]. unfold open4_do_open. simpl in *. rewrite decide_True by done. by rewrite Hd.
Qed.

Lemma open_share_exclusion_witness :
  exists w g,
    open_run (H := scripted_fsal false) 7 open_sample (sample_file, no_account) = Some (w, g) /\
    exclusive (open_states w).
Proof.
  eexists _, _. split; [vm_compute; reflexivity|].
  eapply (open_share_exclusion (H := scripted_fsal false) 7 open_sample (mk_fsal_state [] 0));
    [reflexivity|reflexivity|vm_compute; reflexivity|reflexivity|reflexivity].
Defined.

#[local] Arguments fsal_open : simpl never.

(** Runs on a file without delegations, for a backend without shares. *)
Section no_shares.
Context `{FsalOps F} (obj ctx_export : nat).
Implicit Types (w : state_file F).

Lemma no_delegations write w :
  fds_curr_delegations w = 0 -> state_deleg_conflict obj write w = (false, w).
Proof. intros E. unfold state_deleg_conflict. case_decide; [done|]. by rewrite E. Qed.

Lemma push_unsupported oa od na nd reclaim w :
  fs_supports ctx_export fso_share_support = false ->
  state_share_push obj ctx_export oa od na nd reclaim w =
  (STATE_SUCCESS, set_share (state_share_update_counter (share_state w) oa od na nd true) w).
Proof.
  intros E. unfold state_share_push, do_share_op. rewrite E. simpl. by destruct (_ || _).
Qed.

Lemma add_unsupported owner reclaim w st :
  fs_supports ctx_export fso_share_support = false -> open_states w !! owner = Some st ->
  state_share_add obj ctx_export owner reclaim w =
  Some (STATE_SUCCESS, set_state_share owner st
    (state_share_set_prev (st_share st) (st_share st))
    (set_share (state_share_update_counter (share_state w) OPEN4_SHARE_ACCESS_NONE
       OPEN4_SHARE_DENY_NONE (share_access (st_share st)) (share_deny (st_share st)) true) w)).
Proof. intros E Hst. unfold state_share_add. rewrite Hst. simpl. by rewrite push_unsupported. Qed.

Lemma upgrade_unsupported owner d reclaim w st :
  fs_supports ctx_export fso_share_support = false -> open_states w !! owner = Some st ->
  let access := Z.lor (share_access d) (share_access (st_share st)) in
  let deny := Z.lor (share_deny d) (share_deny (st_share st)) in
  state_share_upgrade obj ctx_export owner d reclaim w =
  Some (STATE_SUCCESS, set_state_share owner st
    (state_share_set_prev (mk_state_share access deny (share_access_prev (st_share st))
       (share_deny_prev (st_share st))) d)
    (set_share (state_share_update_counter (share_state w) (share_access (st_share st))
       (share_deny (st_share st)) access deny true) w)).
Proof. intros E Hst. unfold state_share_upgrade. rewrite Hst. simpl. by rewrite push_unsupported. Qed.
End no_shares.

(** An OPEN whose backend open fails leaves the state it made behind,
    which the owner's next OPEN takes for one whose share is counted.  After
    a failed and a repeated OPEN for writing that denies writing, another
    owner's OPEN for writing is granted beside it, and the CLOSE of the first
    lets the counter of denials wrap, so that no OPEN for writing is ever
    granted again. *)
Theorem failed_open_loses_share `{FsalOps F} obj ctx_export f0 status f1 f2 f3 :
  support_ex obj = false -> fs_supports ctx_export fso_share_support = false ->
  fsal_open ctx_export obj FSAL_O_RDWR f0 = (status, f1) -> FSAL_IS_ERROR status = true ->
  fsal_open ctx_export obj FSAL_O_RDWR f1 = (fsalstat ERR_FSAL_NO_ERROR 0, f2) ->
  fsal_open ctx_export obj FSAL_O_RDWR f2 = (fsalstat ERR_FSAL_NO_ERROR 0, f3) ->
  let open owner deny := open4_do_open obj owner ctx_export OPEN4_SHARE_ACCESS_WRITE deny
    (open4_openflags OPEN4_SHARE_ACCESS_WRITE 0) STATE_SUCCESS in
  exists r1 w1 w2 w3 w4 st1 st2,
    open 1%nat OPEN4_SHARE_DENY_WRITE (fresh_file f0) = Some (r1, w1) /\ r1 <> NFS4_OK /\
    open 1%nat OPEN4_SHARE_DENY_WRITE w1 = Some (NFS4_OK, w2) /\
    open 2%nat OPEN4_SHARE_DENY_NONE w2 = Some (NFS4_OK, w3) /\
    open_states w3 !! 1%nat = Some st1 /\ open_states w3 !! 2%nat = Some st2 /\
    denies (state_mode st2) (state_mode st1) /\
    nfs4_close_share obj 1 ctx_export w3 = Some (STATE_SUCCESS, w4) /\
    share_deny_write (share_state w4) = 4294967295.
Proof.
  intros Hex Hsup E0 Hst E1 E2 open.
  assert (open4_openflags OPEN4_SHARE_ACCESS_WRITE 0 = FSAL_O_RDWR) as Ef by done.
  set (st a d pa pd := mk_open_state (mk_state_share a d pa pd) ctx_export).
  exists (nfs4_Errno_verbose (major status)),
    (mk_state_file (mk_sal_share 0 0 0 0 0) 0 0 0 (<[1%nat := st 2 2 0 0]> ∅) f1),
    (mk_state_file (mk_sal_share 0 0 0 0 0) 0 0 0 (<[1%nat := st 2 2 4 4]> ∅) f2),
    (mk_state_file (mk_sal_share 0 1 0 0 0) 0 0 0
       (<[2%nat := st 2 0 4 1]> (<[1%nat := st 2 2 4 4]> ∅)) f3).
  eexists _, (st 2 2 4 4), (st 2 0 4 1). split_and!.
  - unfold open, open4_do_open. simpl. rewrite no_delegations by done. simpl.
    unfold open4_push_share. simpl. by rewrite Ef, E0, Hst.
  - by apply nfs4_Errno_verbose_not_ok.
  - unfold open, open4_do_open. simpl. rewrite no_delegations by done. simpl.
    rewrite lookup_insert_eq, decide_False by (simpl; tauto). unfold open4_push_share. simpl. rewrite Ef, E1. simpl.
    erewrite upgrade_unsupported by done. reflexivity.
  - unfold open, open4_do_open. simpl. rewrite no_delegations by done. simpl.
    rewrite lookup_insert_ne, lookup_empty by done. simpl.
    unfold open4_push_share. simpl. rewrite Ef, E2. simpl.
    erewrite add_unsupported by done. reflexivity.
  - done.
  - done.
  - by right.
  - unfold nfs4_close_share, state_share_remove. rewrite Hex. simpl.
    rewrite lookup_insert_ne, lookup_insert_eq by done. simpl.
    rewrite push_unsupported by done. reflexivity.
  - reflexivity.
Qed.

Lemma failed_open_loses_share_witness :
  exists r1 w1,
    open4_do_open (H := scripted_fsal false) 7 1 0 OPEN4_SHARE_ACCESS_WRITE OPEN4_SHARE_DENY_WRITE
      (open4_openflags OPEN4_SHARE_ACCESS_WRITE 0) STATE_SUCCESS
      (fresh_file (mk_fsal_state [ERR_FSAL_DELAY] 0)) = Some (r1, w1) /\ r1 <> NFS4_OK.
Proof.
  destruct (failed_open_loses_share (H := scripted_fsal false) 7 0
    (mk_fsal_state [ERR_FSAL_DELAY] 0) (fsalstat ERR_FSAL_DELAY 0) (mk_fsal_state [] 0)
    (mk_fsal_state [] 1) (mk_fsal_state [] 2)) as (r1 & w1 & _ & _ & _ & _ & _ & E & Hr & _);
    [reflexivity..|]. eauto.
Defined.
