(* ===== verification/Block.v ===== *)
(** * Blocks of memory

    A block of bytes that C code writes through a pointer.  A write outside
    of the block is the outcome [None], so that a function that stays inside
    of its buffers is one that has an outcome. *)
From S2P Require Import Prelude.

Abbreviation block := (list Z).

Definition store (i : nat) (v : Z) (m : block) : option block :=
  if decide (i < length m)%nat then Some (<[i := v]> m) else None.

Fixpoint store_all (i : nat) (l : list Z) (m : block) : option block :=
  match l with
  | [] => Some m
  | v :: l => m ← store i v m; store_all (S i) l m
  end.

(** [memcpy] of the first [n] bytes of [str]. *)
Definition memcpy (i : nat) (str : list Z) (n : nat) (m : block) : option block :=
  if decide (n <= length str)%nat then store_all i (take n str) m else None.

Lemma store_app (a : block) x b v : store (length a) v (a ++ x :: b) = Some (a ++ v :: b).
Proof.
  unfold store. rewrite decide_True by (rewrite length_app; simpl; lia). f_equal.
  rewrite insert_app_r_alt by lia. by rewrite Nat.sub_diag.
Qed.

Lemma store_end (a : block) v : store (length a) v a = None.
Proof. unfold store. by rewrite decide_False by lia. Qed.

Lemma store_all_app (a b : block) l :
  (length l <= length b)%nat ->
  store_all (length a) l (a ++ b) = Some (a ++ l ++ drop (length l) b).
Proof.
  revert a b. induction l as [|v l IH]; intros a b Hl; simpl; [by rewrite drop_0|].
  destruct b as [|x b]; simpl in *; [lia|]. rewrite store_app. simpl.
  replace (a ++ v :: b) with ((a ++ [v]) ++ b) by (by rewrite <-app_assoc).
  replace (S (length a)) with (length (a ++ [v])) by (rewrite length_app; simpl; lia).
  rewrite IH by lia. by rewrite <-app_assoc.
Qed.

(** Writing past the end of the block fails. *)
Lemma store_all_past (a b : block) l :
  (length b < length l)%nat -> store_all (length a) l (a ++ b) = None.
Proof.
  revert a b. induction l as [|v l IH]; intros a b Hl; simpl in *; [lia|].
  destruct b as [|x b]; simpl in *.
  { by rewrite app_nil_r, store_end. }
  rewrite store_app. simpl.
  replace (a ++ v :: b) with ((a ++ [v]) ++ b) by (by rewrite <-app_assoc).
  replace (S (length a)) with (length (a ++ [v])) by (rewrite length_app; simpl; lia).
  apply IH. lia.
Qed.

