(* ===== verification/Display.v ===== *)
(** * Display buffers

    The buffers in which log messages are built (log/display.c and
    include/display.h).  A buffer is a range of a block of memory; a write or
    a read outside of the block is the outcome [None], so that the functions'
    promise never to leave the buffer can be examined.

    A formatted string is given as the bytes that formatting produces; a
    [char] is its value as an unsigned byte, which is what the masks of the
    code look at.  [dspbuf] itself is never NULL here. *)
From stdpp Require Import pretty.
From Stdlib Require Import Ascii String.
From S2P Require Import Prelude Block.
#[local] Open Scope Z_scope.

(** [struct display_buffer]; pointers are offsets into the block, or NULL. *)
Record display_buffer := mk_display {
  b_size : nat;
  b_current : option nat;
  b_start : option nat
}.

Definition set_current (c : nat) (d : display_buffer) : display_buffer :=
  mk_display (b_size d) (Some c) (b_start d).

(** The bytes of a string constant. *)
Definition bytes_of (s : string) : list Z :=
  (fun c => Z.of_N (N_of_ascii c)) <$> list_ascii_of_string s.

(** ** The code *)

Definition display_state : Type := display_buffer * block.

Definition _display_buffer_remain (d : display_buffer) : Z :=
  match b_current d, b_start d with
  | Some c, Some s => s32 (u64 (Z.of_nat (b_size d) - (Z.of_nat c - Z.of_nat s)))
  | _, _ => 0
  end.

Definition display_buffer_remain (w : display_state) : option (Z * display_state) :=
  let '(d, m) := w in
  match b_start d with
  | None => Some (-1, (d, m))
  | Some s =>
      if decide (b_size d = 0)%nat then Some (-1, (d, m)) else
      let d :=
        match b_current d with
        | Some c =>
            if decide (c < s \/ s + b_size d < c)%nat then set_current s d else d
        | None => set_current s d
        end in
      if decide (b_size d < 4)%nat then
        m ← store s 0 m;
        Some (0, (set_current (s + b_size d) d, m))
      else Some (_display_buffer_remain d, (d, m))
  end.

(** The loop that goes back to the first byte of a character. *)
Fixpoint utf8_back (start ptr : nat) (m : block) : option nat :=
  if decide (start < ptr)%nat then
    b ← m !! ptr;
    if Z.land b 0xc0 =? 0x80 then
      match ptr with
      | S ptr => utf8_back start ptr m
      | O => Some O
      end
    else Some ptr
  else Some ptr.

Definition utf8_valid (b : Z) (utf8len : nat) : bool :=
  ((Z.land b 0x80 =? 0x00) && (utf8len =? 1)%nat)
  || ((Z.land b 0xe0 =? 0xc0) && (utf8len =? 2)%nat)
  || ((Z.land b 0xf0 =? 0xe0) && (utf8len =? 3)%nat)
  || ((Z.land b 0xf8 =? 0xf0) && (utf8len =? 4)%nat)
  || ((Z.land b 0xfc =? 0xf8) && (utf8len =? 5)%nat)
  || ((Z.land b 0xfe =? 0xfc) && (utf8len =? 6)%nat).

Definition ellipsis : list Z := bytes_of "..." ++ [0].

Definition _display_complete_overflow (start ptr : nat) (m : block) : option block :=
  let end_ := (ptr + 1)%nat in
  ptr ← utf8_back start ptr m;
  let utf8len := (end_ - ptr)%nat in
  b ← m !! ptr;
  let ptr := if utf8_valid b utf8len then end_ else ptr in
  store_all ptr ellipsis m.

(** [b_start] of a buffer that [display_buffer_remain] accepted. *)
Definition start_of (d : display_buffer) : nat := default 0%nat (b_start d).
Definition current_of (d : display_buffer) : nat := default 0%nat (b_current d).

Definition display_start (w : display_state) : option (Z * display_state) :=
  '(b_left, (d, m)) ← display_buffer_remain w;
  if b_left =? 0 then Some (0, (d, m)) else
  if b_left =? 1 then
    let d := set_current (current_of d + 1) d in
    m ← _display_complete_overflow (start_of d) (current_of d - 4) m;
    Some (0, (d, m))
  else Some (b_left, (d, m)).

Definition display_finish (w : display_state) : option (Z * display_state) :=
  '(b_left, (d, m)) ← display_buffer_remain w;
  if negb (b_left =? 0) then Some (b_left, (d, m)) else
  m ← _display_complete_overflow (start_of d) (current_of d - 4) m;
  Some (0, (d, m)).

Definition display_force_overflow (w : display_state) : option (Z * display_state) :=
  '(b_left, (d, m)) ← display_buffer_remain w;
  if b_left <=? 0 then Some (b_left, (d, m)) else
  m ← (if b_left <? 3
       then _display_complete_overflow (start_of d) (start_of d + b_size d - 4) m
       else _display_complete_overflow (start_of d) (current_of d) m);
  Some (0, (set_current (start_of d + b_size d) d, m)).

Definition display_reset_buffer (w : display_state) : display_state :=
  let '(d, m) := w in (mk_display (b_size d) (b_start d) (b_start d), m).

(** [vsnprintf] with the formatted string [s]. *)
Definition vsnprintf (i : nat) (size : nat) (s : list Z) (m : block) : option (Z * block) :=
  m ← store_all i (take (size - 1) s ++ [0]) m;
  Some (Z.of_nat (length s), m).

Definition display_vprintf (s : list Z) (w : display_state) : option (Z * display_state) :=
  '(b_left, (d, m)) ← display_start w;
  if b_left <=? 0 then Some (b_left, (d, m)) else
  '(len, m) ← vsnprintf (current_of d) (Z.to_nat b_left) s m;
  let d :=
    if b_left <=? len then set_current (current_of d + Z.to_nat b_left) d
    else set_current (current_of d + Z.to_nat len) d in
  display_finish (d, m).

Definition display_len_cat (str : list Z) (len : Z) (w : display_state)
    : option (Z * display_state) :=
  '(b_left, (d, m)) ← display_start w;
  if b_left <=? 0 then Some (b_left, (d, m)) else
  let cpy := if b_left <=? len then b_left - 1 else len in
  if cpy <? 0 then None else
  m ← memcpy (current_of d) str (Z.to_nat cpy) m;
  m ← store (current_of d + Z.to_nat cpy) 0 m;
  let d :=
    if b_left <=? len then set_current (current_of d + Z.to_nat b_left) d
    else set_current (current_of d + Z.to_nat len) d in
  display_finish (d, m).

(** [str] is given without its terminating null. *)
Definition display_cat (str : list Z) (w : display_state) : option (Z * display_state) :=
  display_len_cat str (Z.of_nat (length str)) w.

(** [%02x]. *)
Definition hex_digit (n : Z) : Z := if n <? 10 then 48 + n else 87 + n.
Definition hex_byte (b : Z) : list Z := [hex_digit (b / 16); hex_digit (b mod 16)].

Fixpoint display_hex (value : list Z) (b_left : Z) (w : display_state)
    : option (Z * display_state) :=
  match value with
  | [] => Some (b_left, w)
  | b :: value =>
      if 0 <? b_left then
        '(b_left, w) ← display_vprintf (hex_byte b) w;
        display_hex value b_left w
      else Some (b_left, w)
  end.

(** What the functions for opaque values print for a value they cannot show;
    [value] is NULL or a pointer to the given bytes, [len] of them or more. *)
Definition opaque_special (value : option (list Z)) (len : Z) (w : display_state)
    : option (option (Z * display_state)) :=
  if len <? 0 then Some (display_vprintf (bytes_of ("(invalid len=" ++ pretty len ++ ")")) w) else
  match value with
  | None => Some (display_cat (bytes_of "(NULL)") w)
  | Some _ => if len =? 0 then Some (display_cat (bytes_of "(EMPTY)") w) else None
  end.

Definition display_opaque_bytes (value : option (list Z)) (len : Z) (w : display_state)
    : option (Z * display_state) :=
  '(b_left, w) ← display_start w;
  if b_left <=? 0 then Some (b_left, w) else
  match opaque_special value len w, value with
  | Some r, _ => r
  | None, Some bytes =>
      '(b_left, w) ← display_cat (bytes_of "0x") w;
      '(_, w) ← display_hex (take (Z.to_nat len) bytes) b_left w;
      display_finish w
  | None, None => None
  end.

(** [isprint] of the C locale. *)
Definition isprint (b : Z) : bool := (32 <=? b) && (b <=? 126).

Definition display_opaque_value_max (value : option (list Z)) (len max : Z) (w : display_state)
    : option (Z * display_state) :=
  '(b_left, w) ← display_start w;
  if b_left <=? 0 then Some (b_left, w) else
  match opaque_special value len w, value with
  | Some r, _ => r
  | None, Some bytes =>
      '(b_left, w) ← display_vprintf (bytes_of ("(" ++ pretty len ++ ":")) w;
      if b_left <=? 0 then Some (b_left, w) else
      let cpy := if max <? len then max else len in
      '(b_left, w) ←
        (if forallb isprint (take (Z.to_nat len) bytes)
         then display_len_cat bytes cpy w
         else display_opaque_bytes (Some bytes) cpy w);
      if b_left <=? 0 then Some (b_left, w) else
      if max <? len then display_cat (bytes_of "...)") w else display_cat (bytes_of ")") w
  | None, None => None
  end.

Definition display_cat_trunc (str : list Z) (max : nat) (w : display_state)
    : option (Z * display_state) :=
  '(b_left, (d, m)) ← display_start w;
  if b_left <=? 0 then Some (b_left, (d, m)) else
  if b_left <=? Z.of_nat (max + 1) then display_cat str (d, m) else
  let catbuf := mk_display (max + 1) (b_current d) (b_current d) in
  '(b_left, (catbuf, m)) ← display_cat str (catbuf, m);
  let d := set_current (if b_left =? 0 then current_of catbuf - 1 else current_of catbuf) d in
  Some (_display_buffer_remain d, (d, m)).

(** ** Buffers that show a text *)

(** The buffer shows [text], behind [pre] and before [rest] in its block. *)
Definition shows (w : display_state) (pre text rest : list Z) : Prop :=
  let '(d, m) := w in
  m = pre ++ text ++ rest /\ b_start d = Some (length pre) /\
  b_current d = Some (length pre + length text)%nat /\
  (4 <= b_size d)%nat /\ Z.of_nat (b_size d) < 2147483648 /\
  (length text < b_size d <= length text + length rest)%nat.

Lemma s32_u64_small z : 0 <= z < 2147483648 -> s32 (u64 z) = z.
Proof. intros H. unfold s32, u64. rewrite (Z.mod_small z), Z.mod_small by lia. lia. Qed.

(** The bytes left in a buffer whose position is [n] bytes from the start. *)
Lemma remain_at s n d m :
  b_start d = Some s -> b_current d = Some (s + n)%nat -> (4 <= b_size d)%nat ->
  Z.of_nat (b_size d) < 2147483648 -> (n <= b_size d)%nat ->
  display_buffer_remain (d, m) = Some (Z.of_nat (b_size d - n), (d, m)).
Proof.
  intros Hs Hc H4 H31 Hn. unfold display_buffer_remain. rewrite Hs, decide_False by lia.
  rewrite Hc, !(decide_False (P := (s + n < s \/ s + b_size d < s + n)%nat)) by lia.
  rewrite decide_False by lia.
  unfold _display_buffer_remain. rewrite Hs, Hc, s32_u64_small by lia. do 2 f_equal. lia.
Qed.

Lemma start_room w pre text rest :
  shows w pre text rest -> (length text + 1 < b_size w.1)%nat ->
  display_start w = Some (Z.of_nat (b_size w.1 - length text), w).
Proof.
  destruct w as [d m]. intros (Hm & Hs & Hc & H4 & H31 & Ht) Hr. simpl in *.
  unfold display_start. rewrite (remain_at (length pre) (length text)) by (done || lia). simpl.
  rewrite (proj2 (Z.eqb_neq _ 0)) by lia. by rewrite (proj2 (Z.eqb_neq _ 1)) by lia.
Qed.

(** Appending a string, up to the call of [display_finish]. *)
Lemma cat_until_finish w pre text rest str :
  shows w pre text rest -> (length text + 1 < b_size w.1)%nat ->
  let room := (b_size w.1 - length text)%nat in
  let n := (length str `min` (room - 1))%nat in
  display_cat str w = display_finish
    (set_current (length pre + length text + (length str `min` room)) w.1,
     pre ++ text ++ take n str ++ 0 :: drop (S n) rest).
Proof.
  intros Hsh Hr room n. pose proof (start_room w pre text rest Hsh Hr) as Hst.
  destruct w as [d m]. destruct Hsh as (Hm & Hs & Hc & H4 & H31 & Ht). simpl in *.
  unfold display_cat, display_len_cat. rewrite Hst. simpl.
  rewrite (proj2 (Z.leb_gt _ 0)) by lia. fold room.
  replace (if Z.of_nat room <=? Z.of_nat (length str) then Z.of_nat room - 1
           else Z.of_nat (length str)) with (Z.of_nat n).
  2:{ destruct (Z.leb_spec (Z.of_nat room) (Z.of_nat (length str))); lia. }
  rewrite (proj2 (Z.ltb_ge _ 0)) by lia. rewrite !Nat2Z.id.
  unfold current_of. rewrite Hc. simpl. unfold memcpy. rewrite decide_True by lia.
  replace (length pre + length text)%nat with (length (pre ++ text)) by (by rewrite length_app).
  rewrite Hm, (app_assoc pre text rest), store_all_app by (rewrite length_take; lia). simpl.
  rewrite length_take. replace (n `min` length str)%nat with n by lia.
  destruct (drop n rest) as [|x rest'] eqn:Hd.
  { apply (f_equal length) in Hd. rewrite length_drop in Hd. simpl in Hd. lia. }
  replace (length (pre ++ text) + n)%nat with (length ((pre ++ text) ++ take n str))
    by (rewrite length_app, length_take; lia).
  rewrite (app_assoc (pre ++ text)), store_app. simpl.
  f_equal. f_equal.
  - destruct (Z.leb_spec (Z.of_nat room) (Z.of_nat (length str)));
      f_equal; lia.
  - rewrite <-!app_assoc. do 4 f_equal.
    change (S n) with (1 + n)%nat. rewrite Nat.add_comm, <-drop_drop, Hd. done.
Qed.

Lemma cat_fits w pre text rest str :
  shows w pre text rest -> (length text + 1 < b_size w.1)%nat ->
  (length text + length str < b_size w.1)%nat ->
  exists d', display_cat str w = Some (Z.of_nat (b_size w.1 - length (text ++ str)),
      (d', pre ++ (text ++ str) ++ 0 :: drop (S (length str)) rest)) /\
    b_size d' = b_size w.1 /\
    shows (d', pre ++ (text ++ str) ++ 0 :: drop (S (length str)) rest) pre (text ++ str)
      (0 :: drop (S (length str)) rest).
Proof.
  intros Hsh Hr Hl. rewrite (cat_until_finish w pre text rest str Hsh Hr).
  destruct w as [d m]. destruct Hsh as (Hm & Hs & Hc & H4 & H31 & Ht). simpl in *.
  exists (set_current (length pre + length (text ++ str)) d). rewrite length_app.
  replace (length str `min` (b_size d - length text - 1))%nat with (length str) by lia.
  replace (length str `min` (b_size d - length text))%nat with (length str) by lia.
  rewrite take_ge by lia. split; [|split; [done|]].
  - unfold display_finish.
    rewrite (remain_at (length pre) (length text + length str)); simpl; try done; try lia.
    + rewrite (proj2 (Z.eqb_neq _ 0)) by lia. simpl. rewrite <-!app_assoc, Nat.add_assoc. done.
    + f_equal. lia.
  - split_and!; simpl; rewrite ?length_app; try done; try lia.
    rewrite length_drop. lia.
Qed.

(** ** Properties *)

(** Successive calls of [display_cat], as the callers make them. *)
Fixpoint display_cats (strs : list (list Z)) (b_left : Z) (w : display_state)
    : option (Z * display_state) :=
  match strs with
  | [] => Some (b_left, w)
  | str :: strs => '(b_left, w) ← display_cat str w; display_cats strs b_left w
  end.

Lemma cats_fit strs w pre text rest b_left :
  shows w pre text rest -> Forall (fun s => s <> []) strs ->
  (length text + length (concat strs) < b_size w.1)%nat ->
  b_left = Z.of_nat (b_size w.1 - length text) ->
  exists w' rest', display_cats strs b_left w
      = Some (Z.of_nat (b_size w.1 - length (text ++ concat strs)), w') /\
    shows w' pre (text ++ concat strs) rest' /\ (strs <> [] -> head rest' = Some 0).
Proof.
  revert w text rest b_left. induction strs as [|str strs IH]; intros w text rest b_left Hsh Hne Hl ->.
  { simpl in *. exists w, rest. rewrite app_nil_r. done. }
  apply Forall_cons in Hne as [Hs Hne]. simpl in *. rewrite length_app in Hl.
  assert (0 < length str)%nat by (destruct str; [done|simpl; lia]).
  destruct (cat_fits w pre text rest str Hsh) as (d' & Hc & Hsz & Hsh'); [lia..|].
  rewrite Hc. simpl.
  destruct (IH _ (text ++ str) _ (Z.of_nat (b_size w.1 - length (text ++ str))) Hsh' Hne)
    as (w' & rest' & Hcs & Hw & Hh); simpl; rewrite ?Hsz; [rewrite length_app; lia|done|].
  exists w', rest'. simpl in Hcs. rewrite Hsz in Hcs. rewrite (app_assoc text str (concat strs)).
  split; [done|]. split; [done|]. intros _. destruct strs; [|by apply Hh].
  simpl in *. rewrite app_nil_r in *. injection Hcs as <-.
  destruct Hw as (E' & _).
  apply app_inv_head in E'. apply app_inv_head in E'. by rewrite <-E'.
Qed.

(** C37: strings appended one after the other to a fresh buffer, while they
    fit, build exactly their concatenation, terminated by a null; what each
    call returns is the space left, and nothing before the buffer changes. *)
Theorem display_builds_concat size strs pre rest :
  (4 <= size)%nat -> Z.of_nat size < 2147483648 -> (size <= length rest)%nat ->
  strs <> [] -> Forall (fun s => s <> []) strs -> (length (concat strs) < size)%nat ->
  exists d' tail,
    display_cats strs (Z.of_nat size)
      (mk_display size (Some (length pre)) (Some (length pre)), pre ++ rest)
    = Some (Z.of_nat (size - length (concat strs)), (d', pre ++ concat strs ++ 0 :: tail)).
Proof.
  intros H4 H31 Hr Hne Hs Hl.
  destruct (cats_fit strs
    (mk_display size (Some (length pre)) (Some (length pre)), pre ++ rest) pre [] rest (Z.of_nat size))
    as ([d' m'] & rest' & Hc & (Hm & _) & Hh); simpl; try done; [|lia|].
  - split_and!; simpl; try done; [by rewrite Nat.add_0_r|lia..].
  - simpl in *. specialize (Hh Hne). destruct rest' as [|x tail]; [done|]. simplify_eq/=.
    exists d', tail. done.
Qed.

Lemma ascii_bit b : 0 <= b < 128 -> Z.testbit b 7 = false.
Proof. intros Hb. apply Z.testbit_false; [lia|]. by rewrite Z.div_small by lia. Qed.

Lemma ascii_not_continuation b : 0 <= b < 128 -> (Z.land b 0xc0 =? 0x80) = false.
Proof.
  intros Hb. apply Z.eqb_neq. intros E.
  assert (Z.testbit (Z.land b 0xc0) 7 = true) as T by (by rewrite E).
  by rewrite Z.land_spec, ascii_bit in T.
Qed.

Lemma ascii_valid b : 0 <= b < 128 -> utf8_valid b 1 = true.
Proof.
  intros Hb. unfold utf8_valid. replace (Z.land b 0x80) with 0; [done|].
  symmetry. change 0x80 with (2 ^ 7). apply Z.bits_inj'. intros n Hn.
  rewrite Z.land_spec, Z.testbit_0_l, Z.pow2_bits_eqb by lia.
  destruct (Z.eqb_spec 7 n) as [<-|]; [by rewrite ascii_bit|apply andb_false_r].
Qed.

(** The ellipsis goes behind an ASCII character at [ptr]. *)
Lemma complete_overflow_ascii start a b tail :
  (start <= length a)%nat -> 0 <= b < 128 ->
  _display_complete_overflow start (length a) (a ++ b :: tail)
  = store_all (length (a ++ [b])) ellipsis ((a ++ [b]) ++ tail).
Proof.
  intros Hs Hb. unfold _display_complete_overflow.
  assert ((a ++ b :: tail) !! length a = Some b) as Hl by (by apply list_lookup_middle).
  assert (utf8_back start (length a) (a ++ b :: tail) = Some (length a)) as ->.
  { destruct (length a) as [|n] eqn:En; simpl.
    - done.
    - case_decide; [|done]. rewrite Hl. simpl. by rewrite ascii_not_continuation. }
  simpl. rewrite Hl. simpl. replace (length a + 1 - length a)%nat with 1%nat by lia.
  rewrite ascii_valid by done. rewrite length_app, <-app_assoc. done.
Qed.

(** A string that does not fit is written past the end of the buffer:
    when the character before the ellipsis is ASCII, the null behind it is
    stored one byte after the last byte of the buffer.  A buffer that ends
    with its block of memory is left. *)
Theorem display_overflow_leaves_buffer w pre text rest str b :
  shows w pre text rest -> (length text + 1 < b_size w.1)%nat ->
  (length text + length rest = b_size w.1)%nat ->
  (b_size w.1 <= length text + length str)%nat ->
  (text ++ str) !! (b_size w.1 - 4)%nat = Some b -> 0 <= b < 128 ->
  display_cat str w = None.
Proof.
  intros Hsh Hr Hend Hover Hb Hasc. rewrite (cat_until_finish w pre text rest str Hsh Hr).
  destruct w as [d m]. destruct Hsh as (Hm & Hs & Hc & H4 & H31 & Ht). simpl in *.
  set (room := (b_size d - length text)%nat).
  replace (length str `min` (room - 1))%nat with (room - 1)%nat by lia.
  replace (length str `min` room)%nat with room by lia.
  rewrite (drop_ge rest) by lia.
  unfold display_finish. rewrite (remain_at (length pre) (b_size d)); simpl; try done; try lia.
  2:{ f_equal. lia. }
  rewrite Nat.sub_diag. simpl. unfold start_of, current_of. simpl. rewrite Hs. simpl.
  set (full := text ++ take (room - 1) str).
  assert (length full = b_size d - 1)%nat as Hfull by (unfold full; rewrite length_app, length_take; lia).
  assert (full !! (b_size d - 4)%nat = Some b) as Hbf.
  { unfold full. rewrite <-Hb. destruct (decide (b_size d - 4 < length text)%nat).
    - by rewrite !lookup_app_l.
    - rewrite !lookup_app_r, lookup_take by lia. by rewrite decide_True by lia. }
  apply list_elem_of_split_length in Hbf as (l1 & l2 & El & Hl1).
  replace (pre ++ text ++ take (room - 1) str ++ [0]) with ((pre ++ l1) ++ b :: l2 ++ [0]).
  2:{ rewrite <-!app_assoc. f_equal. change (b :: l2 ++ [0]) with ((b :: l2) ++ [0]).
      rewrite app_assoc, <-El. unfold full. by rewrite <-app_assoc. }
  replace (length pre + length text + room - 4)%nat with (length (pre ++ l1))
    by (rewrite length_app; lia).
  rewrite complete_overflow_ascii; [|rewrite length_app; lia|done].
  rewrite store_all_past; [done|].
  assert (length full = length (l1 ++ b :: l2)) as Hlen by (by rewrite El).
  rewrite length_app in Hlen. simpl in Hlen. rewrite length_app. simpl. lia.
Qed.

(** ** Witnesses *)

Lemma display_builds_concat_witness :
  exists d' tail,
    display_cats [bytes_of "foo"; bytes_of "bar"] 10
      (mk_display 10 (Some 2%nat) (Some 2%nat), [7; 7] ++ replicate 10 9)
    = Some (4, (d', [7; 7] ++ bytes_of "foobar" ++ 0 :: tail)).
Proof.
  apply (display_builds_concat 10 [bytes_of "foo"; bytes_of "bar"] [7; 7] (replicate 10 9));
    [lia|lia|vm_compute; lia|done|by repeat constructor|vm_compute; lia].
Defined.

Lemma display_overflow_leaves_buffer_witness :
  display_cat (bytes_of "a message that is too long")
    (mk_display 10 (Some 0%nat) (Some 0%nat), replicate 10 0) = None.
Proof.
  apply (display_overflow_leaves_buffer _ [] [] (replicate 10 0) _ 97).
  - split_and!; simpl; (done || lia).
  - simpl. lia.
  - reflexivity.
  - vm_compute. lia.
  - vm_compute. reflexivity.
  - lia.
Defined.
