(* ===== verification/Base64.v ===== *)
(** * Base64

    The encoder and the decoder of support/bsd-base64.c, with the buffers
    they write to.  Strings are lists of unsigned bytes, without the
    terminating null of a source string. *)
From Stdlib Require Import Ascii String.
From S2P Require Import Prelude Block.
#[local] Open Scope Z_scope.

Definition chars (s : string) : list Z :=
  (fun c => Z.of_N (N_of_ascii c)) <$> list_ascii_of_string s.

(** ** The code *)

Definition Base64 : list Z :=
  chars "ABCDEFGHIJKLMNOPQRSTUVWXYZabcdefghijklmnopqrstuvwxyz0123456789+/".
Definition Base64url : list Z :=
  chars "ABCDEFGHIJKLMNOPQRSTUVWXYZabcdefghijklmnopqrstuvwxyz0123456789-_".
Definition Pad64 : Z := 61.

Definition u8 (z : Z) : Z := z mod 256.

Definition output0 (i0 : Z) : Z := u8 (Z.shiftr i0 2).
Definition output1 (i0 i1 : Z) : Z := u8 (Z.shiftl (Z.land i0 0x03) 4 + Z.shiftr i1 4).
Definition output2 (i1 i2 : Z) : Z := u8 (Z.shiftl (Z.land i1 0x0f) 2 + Z.shiftr i2 6).
Definition output3 (i2 : Z) : Z := u8 (Z.land i2 0x3f).

(** [Assert(output < 64)] and [map[output]]. *)
Definition digit (map : list Z) (output : Z) : option Z :=
  if output <? 64 then map !! Z.to_nat output else None.

Section encode.
Context (map : list Z) (targsize : nat).

(** The end: the terminating null. *)
Definition enc_end (datalength : nat) (target : block) : option (Z * block) :=
  if decide (targsize <= datalength)%nat then Some (-1, target) else
  target ← store datalength 0 target;
  Some (Z.of_nat datalength, target).

(** The padded last group: [second] is its second byte, if there is one. *)
Definition enc_pad (i0 : Z) (second : option Z) (datalength : nat) (target : block)
    : option (Z * block) :=
  let i1 := default 0 second in
  c0 ← digit map (output0 i0);
  c1 ← digit map (output1 i0 i1);
  c2 ← digit map (output2 i1 0);
  if decide (targsize < datalength + 4)%nat then Some (-1, target) else
  target ← store_all datalength
    [c0; c1; match second with Some _ => c2 | None => Pad64 end; Pad64] target;
  enc_end (datalength + 4) target.

Fixpoint b64_enc (src : list Z) (datalength : nat) (target : block) : option (Z * block) :=
  match src with
  | [] => enc_end datalength target
  | [i0] => enc_pad i0 None datalength target
  | [i0; i1] => enc_pad i0 (Some i1) datalength target
  | i0 :: i1 :: i2 :: src =>
      c0 ← digit map (output0 i0);
      c1 ← digit map (output1 i0 i1);
      c2 ← digit map (output2 i1 i2);
      c3 ← digit map (output3 i2);
      if decide (targsize < datalength + 4)%nat then Some (-1, target) else
      target ← store_all datalength [c0; c1; c2; c3] target;
      b64_enc src (datalength + 4) target
  end.
End encode.

Definition b64_ntop (src : list Z) (target : block) (targsize : nat) : option (Z * block) :=
  b64_enc Base64 targsize src 0 target.

Definition base64url_encode (src : list Z) (target : block) (targsize : nat)
    : option (Z * block) :=
  b64_enc Base64url targsize src 0 target.

(** [isspace] of the C locale. *)
Definition isspace (ch : Z) : bool := (ch =? 32) || ((9 <=? ch) && (ch <=? 13)).

(** [strchr(Base64, ch) - Base64]. *)
Definition strchr (ch : Z) : option Z :=
  (fun p => Z.of_nat p.1) <$> list_find (fun c => c = ch) Base64.

(** One more digit: the new state, index and target; [None] is an access
    outside of the target, [Some None] the return of -1. *)
Definition pton_digit (pos : Z) (targsize : nat) (state tarindex : nat) (target : option block)
    : option (option (nat * nat * option block)) :=
  match target with
  | None =>
      Some (Some (if decide (state = 3)%nat then 0%nat else S state,
                  if decide (state = 0)%nat then tarindex else S tarindex, None))
  | Some t =>
      match state with
      | 0%nat =>
          if decide (targsize <= tarindex)%nat then Some None else
          t ← store tarindex (u8 (Z.shiftl pos 2)) t;
          Some (Some (1%nat, tarindex, Some t))
      | 1%nat =>
          if decide (targsize <= tarindex + 1)%nat then Some None else
          old ← t !! tarindex;
          t ← store tarindex (u8 (Z.lor old (Z.shiftr pos 4))) t;
          t ← store (tarindex + 1) (u8 (Z.shiftl (Z.land pos 0x0f) 4)) t;
          Some (Some (2%nat, S tarindex, Some t))
      | 2%nat =>
          if decide (targsize <= tarindex + 1)%nat then Some None else
          old ← t !! tarindex;
          t ← store tarindex (u8 (Z.lor old (Z.shiftr pos 2))) t;
          t ← store (tarindex + 1) (u8 (Z.shiftl (Z.land pos 0x03) 6)) t;
          Some (Some (3%nat, S tarindex, Some t))
      | _ =>
          if decide (targsize <= tarindex)%nat then Some None else
          old ← t !! tarindex;
          t ← store tarindex (u8 (Z.lor old pos)) t;
          Some (Some (0%nat, S tarindex, Some t))
      end
  end.

(** The source after leading white space. *)
Fixpoint skip_spaces (src : list Z) : list Z :=
  match src with
  | ch :: src' => if isspace ch then skip_spaces src' else src
  | [] => []
  end.

(** [state] 3 after a pad character: only white space may follow, and the
    bits that were left over must be zero. *)
Definition pton_last (src : list Z) (tarindex : nat) (target : option block)
    : option (Z * option block) :=
  match skip_spaces src with
  | _ :: _ => Some (-1, target)
  | [] =>
      match target with
      | None => Some (Z.of_nat tarindex, target)
      | Some t =>
          extra ← t !! tarindex;
          if extra =? 0 then Some (Z.of_nat tarindex, target) else Some (-1, target)
      end
  end.

(** After a pad character; [src] is what follows it. *)
Definition pton_pad (src : list Z) (state tarindex : nat) (target : option block)
    : option (Z * option block) :=
  match state with
  | 0%nat | 1%nat => Some (-1, target)
  | 2%nat =>
      match skip_spaces src with
      | ch :: src => if ch =? Pad64 then pton_last src tarindex target else Some (-1, target)
      | [] => Some (-1, target)
      end
  | _ => pton_last src tarindex target
  end.

Fixpoint pton_loop (targsize : nat) (src : list Z) (state tarindex : nat) (target : option block)
    : option (Z * option block) :=
  match src with
  | [] =>
      if decide (state <> 0)%nat then Some (-1, target) else Some (Z.of_nat tarindex, target)
  | ch :: src =>
      if isspace ch then pton_loop targsize src state tarindex target else
      if ch =? Pad64 then pton_pad src state tarindex target else
      match strchr ch with
      | None => Some (-1, target)
      | Some pos =>
          r ← pton_digit pos targsize state tarindex target;
          match r with
          | Some (state, tarindex, target) => pton_loop targsize src state tarindex target
          | None => Some (-1, target)
          end
      end
  end.

Definition b64_pton (src : list Z) (target : option block) (targsize : nat)
    : option (Z * option block) :=
  pton_loop targsize src 0 0 target.

(** ** The encoding as a function *)

Definition symbol (map : list Z) (output : Z) : Z := default 0 (map !! Z.to_nat output).

Fixpoint enc_text (map : list Z) (src : list Z) : list Z :=
  match src with
  | [] => []
  | [i0] => [symbol map (output0 i0); symbol map (output1 i0 0); Pad64; Pad64]
  | [i0; i1] =>
      [symbol map (output0 i0); symbol map (output1 i0 i1); symbol map (output2 i1 0); Pad64]
  | i0 :: i1 :: i2 :: src =>
      symbol map (output0 i0) :: symbol map (output1 i0 i1) :: symbol map (output2 i1 i2)
      :: symbol map (output3 i2) :: enc_text map src
  end.

Definition bytes (l : list Z) : Prop := Forall (fun b => 0 <= b < 256) l.

(** Induction over groups of three. *)
Lemma groups_ind (P : list Z -> Prop) :
  P [] -> (forall a, P [a]) -> (forall a b, P [a; b]) ->
  (forall a b c l, P l -> P (a :: b :: c :: l)) -> forall l, P l.
Proof.
  intros H0 H1 H2 H3. fix IH 1. intros [|a [|b [|c l]]]; [apply H0|apply H1|apply H2|].
  apply H3, IH.
Qed.

(** ** Facts about bytes, checked for all of them *)

Definition all_bytes : list Z := seqZ 0 256.
Definition all_digits : list Z := seqZ 0 64.

Lemma byte_in b : 0 <= b < 256 -> b ∈ all_bytes.
Proof. intros Hb. apply elem_of_seqZ. lia. Qed.

Lemma digit_in d : 0 <= d < 64 -> d ∈ all_digits.
Proof. intros Hd. apply elem_of_seqZ. lia. Qed.

Lemma check_bytes (f : Z -> bool) :
  forallb f all_bytes = true -> forall b, 0 <= b < 256 -> f b = true.
Proof. intros Hf b Hb. apply (proj1 (forallb_forall f _) Hf), list_elem_of_In, byte_in, Hb. Qed.

Lemma check_pairs (f : Z -> Z -> bool) :
  forallb (fun a => forallb (f a) all_bytes) all_bytes = true ->
  forall a b, 0 <= a < 256 -> 0 <= b < 256 -> f a b = true.
Proof.
  intros Hf a b Ha Hb. apply (check_bytes (f a)); [|done].
  by apply (check_bytes (fun a => forallb (f a) all_bytes)).
Qed.

Definition is_digit (d : Z) : bool := (0 <=? d) && (d <? 64).

Lemma outputs_are_digits a b :
  0 <= a < 256 -> 0 <= b < 256 ->
  0 <= output0 a < 64 /\ 0 <= output1 a b < 64 /\ 0 <= output2 a b < 64 /\ 0 <= output3 b < 64.
Proof.
  intros Ha Hb.
  pose proof (check_pairs (fun a b => is_digit (output0 a) && is_digit (output1 a b)
    && is_digit (output2 a b) && is_digit (output3 b)) ltac:(vm_compute; reflexivity) a b Ha Hb) as H.
  unfold is_digit in H. rewrite !andb_true_iff, !Z.leb_le, !Z.ltb_lt in H. tauto.
Qed.

(** What the decoder makes of the digits: each digit holds the upper or the
    lower bits of a byte, which come together again. *)
Definition upper (n b : Z) : Z := Z.shiftl (Z.shiftr b n) n.

Lemma digit_parts a b :
  0 <= a < 256 -> 0 <= b < 256 ->
  u8 (Z.shiftl (output0 a) 2) = upper 2 a /\
  Z.shiftr (output1 a b) 4 = Z.land a 0x03 /\
  u8 (Z.shiftl (Z.land (output1 a b) 0x0f) 4) = upper 4 b /\
  Z.shiftr (output2 a b) 2 = Z.land a 0x0f /\
  u8 (Z.shiftl (Z.land (output2 a b) 0x03) 6) = upper 6 b /\
  output3 b = Z.land b 0x3f.
Proof.
  intros Ha Hb.
  pose proof (check_pairs (fun a b =>
    (u8 (Z.shiftl (output0 a) 2) =? upper 2 a) && (Z.shiftr (output1 a b) 4 =? Z.land a 0x03)
    && (u8 (Z.shiftl (Z.land (output1 a b) 0x0f) 4) =? upper 4 b)
    && (Z.shiftr (output2 a b) 2 =? Z.land a 0x0f)
    && (u8 (Z.shiftl (Z.land (output2 a b) 0x03) 6) =? upper 6 b)
    && (output3 b =? Z.land b 0x3f)) ltac:(vm_compute; reflexivity) a b Ha Hb) as H.
  rewrite !andb_true_iff, !Z.eqb_eq in H. tauto.
Qed.

Lemma byte_parts b :
  0 <= b < 256 ->
  u8 (Z.lor (upper 2 b) (Z.land b 0x03)) = b /\ u8 (Z.lor (upper 4 b) (Z.land b 0x0f)) = b /\
  u8 (Z.lor (upper 6 b) (Z.land b 0x3f)) = b.
Proof.
  intros Hb.
  pose proof (check_bytes (fun b => (u8 (Z.lor (upper 2 b) (Z.land b 0x03)) =? b)
    && (u8 (Z.lor (upper 4 b) (Z.land b 0x0f)) =? b)
    && (u8 (Z.lor (upper 6 b) (Z.land b 0x3f)) =? b)) ltac:(vm_compute; reflexivity) b Hb) as H.
  rewrite !andb_true_iff, !Z.eqb_eq in H. tauto.
Qed.

(** The decoder recognises every digit of the alphabet. *)
Lemma symbol_decodes d :
  0 <= d < 64 ->
  isspace (symbol Base64 d) = false /\ (symbol Base64 d =? Pad64) = false /\
  strchr (symbol Base64 d) = Some d.
Proof.
  intros Hd.
  pose proof (check_bytes (fun d => implb (d <? 64) (negb (isspace (symbol Base64 d))
    && negb (symbol Base64 d =? Pad64) && match strchr (symbol Base64 d) with Some p => p =? d | None => false end))
    ltac:(vm_compute; reflexivity) d ltac:(lia)) as H.
  simpl in H. rewrite (proj2 (Z.ltb_lt d 64)) in H by lia. simpl in H.
  destruct (strchr _) as [p|]; [|by rewrite andb_false_r in H].
  rewrite !andb_true_iff, !negb_true_iff, Z.eqb_eq in H. destruct H as [[??] ->]. done.
Qed.

(** ** The encoder *)

Lemma digit_symbol map d :
  length map = 64%nat -> 0 <= d < 64 -> digit map d = Some (symbol map d).
Proof.
  intros Hm Hd. unfold digit, symbol. rewrite (proj2 (Z.ltb_lt d 64)) by lia.
  destruct (lookup_lt_is_Some_2 map (Z.to_nat d)) as [c Hc]; [lia|]. by rewrite Hc.
Qed.

Lemma enc_text_length map src :
  length (enc_text map src) = (4 * ((length src + 2) / 3))%nat.
Proof.
  induction src as [| | |a b c src IH] using groups_ind; [done..|]. simpl enc_text. simpl length.
  replace (S (S (S (length src))) + 2)%nat with (1 * 3 + (length src + 2))%nat by lia.
  rewrite Nat.div_add_l by lia. lia.
Qed.

(** What the call has done to the target: nothing is said of its content
    when the text did not fit. *)
Definition enc_result (targsize : nat) (done text rest : list Z) (r : Z) (target : block) : Prop :=
  if decide (length (done ++ text) < targsize)%nat
  then r = Z.of_nat (length (done ++ text)) /\
       target = done ++ text ++ 0 :: drop (S (length text)) rest
  else r = -1 /\ length target = length (done ++ rest) /\
       drop targsize target = drop targsize (done ++ rest).

Lemma enc_end_result targsize done rest :
  (targsize <= length (done ++ rest))%nat ->
  exists r target,
    enc_end targsize (length done) (done ++ rest) = Some (r, target) /\
    enc_result targsize done [] rest r target.
Proof.
  intros Hs. unfold enc_end, enc_result. rewrite app_nil_r.
  destruct (decide (length done < targsize)%nat) as [Hd|Hd].
  - rewrite decide_False by lia. destruct rest as [|x rest].
    { rewrite app_nil_r in Hs. lia. }
    rewrite store_app. simpl. rewrite drop_0. eauto.
  - rewrite decide_True by lia. eauto 6.
Qed.

(** A group of four characters that fits moves from the text to what is done. *)
Lemma enc_result_group targsize done q text rest r target :
  (length done + length q <= targsize)%nat -> (length q <= length rest)%nat ->
  enc_result targsize (done ++ q) text (drop (length q) rest) r target ->
  enc_result targsize done (q ++ text) rest r target.
Proof.
  unfold enc_result. intros Ht Hq. rewrite <-!app_assoc.
  destruct (decide _) as [_|_]; intros [-> H]; split; try done.
  - rewrite H, drop_drop, length_app. by rewrite Nat.add_succ_r.
  - destruct H as [Hl Hd]. rewrite Hl, Hd, !length_app, length_drop. split; [lia|].
    rewrite !(drop_app_ge _ _ targsize) by lia. rewrite drop_app_ge by lia.
    rewrite drop_drop. f_equal. lia.
Qed.

Lemma enc_result_full targsize done text rest :
  (targsize < length (done ++ text))%nat -> enc_result targsize done text rest (-1) (done ++ rest).
Proof. intros Ht. unfold enc_result. by rewrite decide_False by lia. Qed.

#[local] Arguments store_all : simpl never.

(** The common shape of both kinds of groups. *)
Lemma enc_group targsize done q text rest (k : block -> option (Z * block)) :
  (targsize <= length (done ++ rest))%nat ->
  (length done + length q <= targsize -> length q <= length rest ->
   exists r target, k ((done ++ q) ++ drop (length q) rest) = Some (r, target) /\
     enc_result targsize (done ++ q) text (drop (length q) rest) r target)%nat ->
  exists r target,
    (if decide (targsize < length done + length q)%nat then Some (-1, done ++ rest) else
     target ← store_all (length done) q (done ++ rest); k target) = Some (r, target) /\
    enc_result targsize done (q ++ text) rest r target.
Proof.
  intros Hs Hk. rewrite length_app in Hs. destruct (decide _) as [Hd|Hd].
  - do 2 eexists. split; [done|]. apply enc_result_full. rewrite !length_app. lia.
  - rewrite store_all_app by lia. simpl. rewrite app_assoc.
    destruct Hk as (r & target & -> & Hr); [lia..|]. do 2 eexists. split; [done|].
    apply enc_result_group; [lia..|done].
Qed.

(** The end of a padded group. *)
Lemma enc_group_end targsize done q rest :
  length q = 4%nat -> (targsize <= length (done ++ rest))%nat ->
  exists r target,
    (if decide (targsize < length done + 4)%nat then Some (-1, done ++ rest) else
     target ← store_all (length done) q (done ++ rest);
     enc_end targsize (length done + 4) target) = Some (r, target) /\
    enc_result targsize done q rest r target.
Proof.
  intros <- Hs.
  pose proof (enc_group targsize done q [] rest (enc_end targsize (length done + length q))) as H.
  rewrite app_nil_r in H. apply H; [done|]. intros Hd Hq.
  rewrite <-length_app. apply enc_end_result.
  rewrite !length_app in *. rewrite length_drop. lia.
Qed.

Lemma b64_enc_result map targsize src done rest :
  length map = 64%nat -> bytes src -> (targsize <= length (done ++ rest))%nat ->
  exists r target,
    b64_enc map targsize src (length done) (done ++ rest) = Some (r, target) /\
    enc_result targsize done (enc_text map src) rest r target.
Proof.
  intros Hm. assert (0 <= 0 < 256) as Hz by lia. revert done rest.
  induction src as [|a|a b|a b c src IH] using groups_ind; intros done rest Hb Hs;
    unfold bytes in Hb; rewrite ?Forall_cons in Hb.
  - by apply enc_end_result.
  - destruct Hb as [Ha _]. destruct (outputs_are_digits a 0 Ha Hz) as (H0 & H1 & _ & _).
    destruct (outputs_are_digits 0 0 Hz Hz) as (_ & _ & H2 & _).
    simpl. unfold enc_pad. simpl. rewrite !(digit_symbol map) by done. cbn [mbind option_bind].
    by apply enc_group_end.
  - destruct Hb as (Ha & Hb & _). destruct (outputs_are_digits a b Ha Hb) as (H0 & H1 & _ & _).
    destruct (outputs_are_digits b 0 Hb Hz) as (_ & _ & H2 & _).
    simpl. unfold enc_pad. simpl. rewrite !(digit_symbol map) by done. cbn [mbind option_bind].
    by apply enc_group_end.
  - destruct Hb as (Ha & Hb & Hc & Hsrc).
    destruct (outputs_are_digits a b Ha Hb) as (H0 & H1 & _ & _).
    destruct (outputs_are_digits b c Hb Hc) as (_ & _ & H2 & H3).
    simpl. rewrite !(digit_symbol map) by done. cbn [mbind option_bind].
    apply (enc_group targsize done [_; _; _; _]); [done|]. intros Hd Hq.
    match goal with |- context [(done ++ ?q) ++ _] =>
      replace (length done + 4)%nat with (length (done ++ q)) by (by rewrite length_app) end.
    apply IH; [done|]. rewrite !length_app in *. rewrite length_drop. simpl in *. lia.
Qed.

(** ** The decoder *)

Lemma pton_symbol targsize d src state tarindex target r :
  0 <= d < 64 -> pton_digit d targsize state tarindex target = Some (Some r) ->
  pton_loop targsize (symbol Base64 d :: src) state tarindex target =
  pton_loop targsize src r.1.1 r.1.2 r.2.
Proof.
  intros Hd Hr. destruct (symbol_decodes d Hd) as (Hs & Hp & Hc).
  cbn [pton_loop]. rewrite Hs, Hp, Hc, Hr. by destruct r as [[??]?].
Qed.

(** The four digits, at the end of what has been decoded. *)
Section digits.
Context (targsize : nat) (pre : block).

Lemma pton_digit0 d x buf :
  (length pre < targsize)%nat ->
  pton_digit d targsize 0 (length pre) (Some (pre ++ x :: buf)) =
  Some (Some (1%nat, length pre, Some (pre ++ u8 (Z.shiftl d 2) :: buf))).
Proof. intros H. simpl. by rewrite decide_False, store_app by lia. Qed.

Lemma pton_digit1 d x y buf :
  (length pre + 1 < targsize)%nat ->
  pton_digit d targsize 1 (length pre) (Some (pre ++ x :: y :: buf)) =
  Some (Some (2%nat, S (length pre), Some (pre ++ u8 (Z.lor x (Z.shiftr d 4))
    :: u8 (Z.shiftl (Z.land d 0x0f) 4) :: buf))).
Proof.
  intros H. simpl. rewrite decide_False by lia. rewrite list_lookup_middle by done. simpl.
  rewrite store_app. simpl. rewrite cons_middle, app_assoc.
  replace (length pre + 1)%nat with (length (pre ++ [u8 (Z.lor x (Z.shiftr d 4))]))
    by (by rewrite length_app).
  rewrite store_app. simpl. by rewrite <-app_assoc.
Qed.

Lemma pton_digit2 d x y buf :
  (length pre + 1 < targsize)%nat ->
  pton_digit d targsize 2 (length pre) (Some (pre ++ x :: y :: buf)) =
  Some (Some (3%nat, S (length pre), Some (pre ++ u8 (Z.lor x (Z.shiftr d 2))
    :: u8 (Z.shiftl (Z.land d 0x03) 6) :: buf))).
Proof.
  intros H. simpl. rewrite decide_False by lia. rewrite list_lookup_middle by done. simpl.
  rewrite store_app. simpl. rewrite cons_middle, app_assoc.
  replace (length pre + 1)%nat with (length (pre ++ [u8 (Z.lor x (Z.shiftr d 2))]))
    by (by rewrite length_app).
  rewrite store_app. simpl. by rewrite <-app_assoc.
Qed.

Lemma pton_digit3 d x buf :
  (length pre < targsize)%nat ->
  pton_digit d targsize 3 (length pre) (Some (pre ++ x :: buf)) =
  Some (Some (0%nat, S (length pre), Some (pre ++ u8 (Z.lor x d) :: buf))).
Proof.
  intros H. simpl. rewrite decide_False by lia. rewrite list_lookup_middle by done. simpl.
  by rewrite store_app.
Qed.
End digits.

(** Two digits give one byte and the upper bits of the next. *)
Lemma pton_first targsize pre a b x y buf src :
  0 <= a < 256 -> 0 <= b < 256 -> (length pre + 1 < targsize)%nat ->
  pton_loop targsize (symbol Base64 (output0 a) :: symbol Base64 (output1 a b) :: src)
    0 (length pre) (Some (pre ++ x :: y :: buf)) =
  pton_loop targsize src 2 (length (pre ++ [a])) (Some ((pre ++ [a]) ++ upper 4 b :: buf)).
Proof.
  intros Ha Hb Ht. destruct (outputs_are_digits a b Ha Hb) as (H0 & H1 & _).
  destruct (digit_parts a b Ha Hb) as (P0 & P1 & P2 & _).
  erewrite pton_symbol by (try done; apply pton_digit0; lia). simpl fst. simpl snd.
  erewrite pton_symbol by (try done; apply pton_digit1; lia). simpl fst. simpl snd.
  rewrite P0, P1, P2, (proj1 (byte_parts a Ha)), <-app_assoc, length_app, Nat.add_1_r. done.
Qed.

(** The third completes the second byte. *)
Lemma pton_second targsize pre b c y buf src :
  0 <= b < 256 -> 0 <= c < 256 -> (length pre + 1 < targsize)%nat ->
  pton_loop targsize (symbol Base64 (output2 b c) :: src)
    2 (length pre) (Some (pre ++ upper 4 b :: y :: buf)) =
  pton_loop targsize src 3 (length (pre ++ [b])) (Some ((pre ++ [b]) ++ upper 6 c :: buf)).
Proof.
  intros Hb Hc Ht. destruct (outputs_are_digits b c Hb Hc) as (_ & _ & H2 & _).
  destruct (digit_parts b c Hb Hc) as (_ & _ & _ & P3 & P4 & _).
  erewrite pton_symbol by (try done; apply pton_digit2; lia). simpl fst. simpl snd.
  rewrite P3, P4, (proj1 (proj2 (byte_parts b Hb))), <-app_assoc, length_app, Nat.add_1_r. done.
Qed.

(** The fourth completes the third. *)
Lemma pton_third targsize pre c buf src :
  0 <= c < 256 -> (length pre < targsize)%nat ->
  pton_loop targsize (symbol Base64 (output3 c) :: src)
    3 (length pre) (Some (pre ++ upper 6 c :: buf)) =
  pton_loop targsize src 0 (length (pre ++ [c])) (Some ((pre ++ [c]) ++ buf)).
Proof.
  intros Hc Ht. destruct (outputs_are_digits c c Hc Hc) as (_ & _ & _ & H3).
  destruct (digit_parts c c Hc Hc) as (_ & _ & _ & _ & _ & P5).
  erewrite pton_symbol by (try done; apply pton_digit3; lia). simpl fst. simpl snd.
  rewrite P5, (proj2 (proj2 (byte_parts c Hc))), <-app_assoc, length_app, Nat.add_1_r. done.
Qed.

Lemma pton_enc_text targsize src pre buf :
  bytes src -> (length pre + length src < targsize <= length (pre ++ buf))%nat ->
  exists buf', pton_loop targsize (enc_text Base64 src) 0 (length pre) (Some (pre ++ buf)) =
    Some (Z.of_nat (length pre + length src), Some (pre ++ src ++ buf')).
Proof.
  assert (0 <= 0 < 256) as Hz by lia. revert pre buf.
  induction src as [|a|a b|a b c src IH] using groups_ind; intros pre buf Hb Ht;
    unfold bytes in Hb; rewrite ?Forall_cons in Hb; rewrite length_app in Ht; simpl length in *.
  - rewrite Nat.add_0_r. by exists buf.
  - destruct Hb as [Ha _]. destruct buf as [|x [|y buf]]; simpl length in *; try lia.
    simpl enc_text. rewrite pton_first by (done || lia). exists (0 :: buf).
    cbn [pton_loop]. simpl. unfold pton_last. simpl. rewrite list_lookup_middle by done. simpl.
    by rewrite length_app, <-app_assoc.
  - destruct Hb as (Ha & Hb & _). destruct buf as [|x [|y [|z buf]]]; simpl length in *; try lia.
    simpl enc_text. rewrite pton_first by (done || lia).
    rewrite pton_second by (done || rewrite length_app; simpl; lia). exists (0 :: buf).
    cbn [pton_loop]. simpl. unfold pton_last. simpl. rewrite list_lookup_middle by done. simpl.
    rewrite !length_app, <-!app_assoc. simpl. by rewrite <-Nat.add_assoc.
  - destruct Hb as (Ha & Hb & Hc & Hsrc).
    destruct buf as [|x [|y [|z buf]]]; simpl length in *; try lia.
    simpl enc_text. rewrite pton_first by (done || lia).
    rewrite pton_second by (done || rewrite length_app; simpl; lia).
    rewrite pton_third by (done || rewrite !length_app; simpl; lia).
    destruct (IH (((pre ++ [a]) ++ [b]) ++ [c]) buf Hsrc) as [buf' ->].
    { rewrite !length_app. simpl. lia. }
    exists buf'. rewrite !length_app, <-!app_assoc. simpl. do 3 f_equal. lia.
Qed.

(** ** The decoder stays inside of its target *)

(** The index while decoding: there is room for the bits that a digit left
    over. *)
Definition pton_room (targsize state tarindex : nat) : Prop :=
  (state <= 3 /\ tarindex <= targsize /\ (state <> 0 -> tarindex < targsize))%nat.

(** The same block, changed at most below [targsize]. *)
Definition same_above (targsize : nat) (t t' : block) : Prop :=
  length t' = length t /\ drop targsize t' = drop targsize t.

Lemma store_same_above targsize t0 t i v :
  (targsize <= length t0)%nat -> same_above targsize t0 t -> (i < targsize)%nat ->
  exists t', store i v t = Some t' /\ same_above targsize t0 t'.
Proof.
  intros Hl [Ht Hd] Hi. unfold store. rewrite decide_True by lia. eexists. split; [done|].
  split; [by rewrite length_insert|]. by rewrite drop_insert_lt by lia.
Qed.

Lemma pton_digit_safe targsize t0 d state tarindex t :
  (targsize <= length t0)%nat -> same_above targsize t0 t -> pton_room targsize state tarindex ->
  pton_digit d targsize state tarindex (Some t) = Some None \/
  exists state' tarindex' t',
    pton_digit d targsize state tarindex (Some t) = Some (Some (state', tarindex', Some t')) /\
    pton_room targsize state' tarindex' /\ same_above targsize t0 t'.
Proof.
  intros Hl Hs (H3 & Hle & Hlt).
  assert (forall i, i < targsize -> is_Some (t !! i))%nat as Hget.
  { intros i Hi. apply lookup_lt_is_Some_2. destruct Hs. lia. }
  assert (state = 0 \/ state = 1 \/ state = 2 \/ state = 3)%nat as [->|[->|[->| ->]]] by lia; simpl;
    case_decide as Ht; try (by left); right;
    try (destruct (Hget tarindex) as [old ->]; [lia|]; simpl).
  all: repeat match goal with Hs : same_above ?n ?t0 ?t |- context [store ?i ?v ?t] =>
    let t' := fresh "t" in let Hs' := fresh "Hs" in
    destruct (store_same_above n t0 t i v) as (t' & -> & Hs'); [done..|lia|]; simpl end.
  all: do 3 eexists; split; [done|]; split; [|done]; unfold pton_room; lia.
Qed.

Definition pton_outcome (targsize : nat) (t0 : block) (res : option (Z * option block)) : Prop :=
  exists r t', res = Some (r, Some t') /\ -1 <= r <= Z.of_nat targsize /\ same_above targsize t0 t'.

Lemma pton_fail targsize t0 t :
  same_above targsize t0 t -> pton_outcome targsize t0 (Some (-1, Some t)).
Proof. intros Hs. do 2 eexists. split; [done|]. split; [lia|done]. Qed.

Lemma pton_last_safe targsize t0 src tarindex t :
  (targsize <= length t0)%nat -> same_above targsize t0 t -> (tarindex < targsize)%nat ->
  pton_outcome targsize t0 (pton_last src tarindex (Some t)).
Proof.
  intros Hl Hs Ht. unfold pton_last. destruct (skip_spaces src); [|by apply pton_fail].
  destruct (lookup_lt_is_Some_2 t tarindex) as [e ->]; [destruct Hs; lia|]. simpl.
  destruct (e =? 0); [|by apply pton_fail]. do 2 eexists. split; [done|]. split; [lia|done].
Qed.

Lemma pton_loop_safe targsize t0 src state tarindex t :
  (targsize <= length t0)%nat -> same_above targsize t0 t -> pton_room targsize state tarindex ->
  pton_outcome targsize t0 (pton_loop targsize src state tarindex (Some t)).
Proof.
  intros Hl. revert state tarindex t.
  induction src as [|ch src IH]; intros state tarindex t Hs Hr; cbn [pton_loop].
  { destruct Hr as (_ & Hle & _). case_decide; [by apply pton_fail|].
    do 2 eexists. split; [done|]. split; [lia|done]. }
  destruct (isspace ch); [by apply IH|]. destruct (ch =? Pad64).
  { destruct Hr as (_ & _ & Hlt). destruct state as [|[|[|state]]]; simpl; try by apply pton_fail.
    - destruct (skip_spaces src) as [|c src']; [by apply pton_fail|].
      destruct (c =? Pad64); [|by apply pton_fail]. apply pton_last_safe; auto.
    - apply pton_last_safe; auto. }
  destruct (strchr ch) as [d|]; [|by apply pton_fail].
  destruct (pton_digit_safe targsize t0 d state tarindex t Hl Hs Hr)
    as [->|(state' & tarindex' & t' & -> & Hr' & Hs')]; simpl; [by apply pton_fail|].
  by apply IH.
Qed.

(** ** The properties *)

(** C29: decoding undoes encoding.  When the target has room for the text
    and its null, [b64_ntop] succeeds, and when the second target is larger
    than the data, [b64_pton] of the text returns the length of the data and
    leaves the data at the start of its target. *)
Theorem base64_roundtrip src target targsize out outsize :
  bytes src ->
  (4 * ((length src + 2) / 3) < targsize <= length target)%nat ->
  (length src < outsize <= length out)%nat ->
  exists n target' out',
    b64_ntop src target targsize = Some (Z.of_nat n, target') /\
    target' !! n = Some 0 /\
    b64_pton (take n target') (Some out) outsize = Some (Z.of_nat (length src), Some out') /\
    take (length src) out' = src.
Proof.
  intros Hb Ht Ho. exists (length (enc_text Base64 src)).
  destruct (b64_enc_result Base64 targsize src [] target) as (r & t & He & Hr);
    [done..|simpl; lia|].
  unfold enc_result in Hr. simpl in Hr. rewrite decide_True in Hr by (rewrite enc_text_length; lia).
  destruct Hr as [-> ->].
  destruct (pton_enc_text outsize src [] out Hb) as [buf Hp]; [simpl; lia|].
  do 2 eexists. split; [exact He|]. split; [by apply list_lookup_middle|].
  unfold b64_pton. rewrite take_app_length. split; [exact Hp|]. simpl. by rewrite take_app_length.
Qed.

Lemma base64_roundtrip_witness :
  exists n target' out',
    b64_ntop [255; 0; 17; 200] (replicate 12 7) 9 = Some (Z.of_nat n, target') /\
    target' !! n = Some 0 /\
    b64_pton (take n target') (Some (replicate 6 9)) 5 = Some (4, Some out') /\
    take 4 out' = [255; 0; 17; 200].
Proof.
  apply (base64_roundtrip [255; 0; 17; 200] (replicate 12 7) 9 (replicate 6 9) 5).
  - unfold bytes. repeat (apply Forall_cons; split; [lia|]). apply Forall_nil_2.
  - simpl. lia.
  - simpl. lia.
Defined.

(** What the encoders write.  Both of them never write outside of a
    target of [targsize] bytes; the text of [n] bytes has
    [4 * ceil (n / 3)] characters; they return its length and leave it with
    a null exactly when it is shorter than [targsize], and return -1
    otherwise, with nothing changed from [targsize] on. *)
Theorem base64_encode_result map encode src target targsize :
  (map, encode) ∈ [(Base64, b64_ntop); (Base64url, base64url_encode)] ->
  bytes src -> (targsize <= length target)%nat ->
  length (enc_text map src) = (4 * ((length src + 2) / 3))%nat /\
  exists r target',
    encode src target targsize = Some (r, target') /\
    if decide (length (enc_text map src) < targsize)%nat
    then r = Z.of_nat (length (enc_text map src)) /\
         target' = enc_text map src ++ 0 :: drop (S (length (enc_text map src))) target
    else r = -1 /\ same_above targsize target target'.
Proof.
  intros Hm Hb Ht. split; [apply enc_text_length|].
  assert (length map = 64%nat /\ encode src target targsize = b64_enc map targsize src 0 target)
    as [Hl ->].
  { rewrite !elem_of_cons in Hm. destruct Hm as [[= -> ->]|[[= -> ->]|Hm]]; [done..|].
    by apply not_elem_of_nil in Hm. }
  exact (b64_enc_result map targsize src [] target Hl Hb Ht).
Qed.

Lemma base64_encode_result_witness :
  length (enc_text Base64url [250; 251]) = 4%nat /\
  exists r target',
    base64url_encode [250; 251] (replicate 6 7) 5 = Some (r, target') /\
    r = 4 /\ target' = enc_text Base64url [250; 251] ++ 0 :: drop 5 (replicate 6 7).
Proof.
  apply (base64_encode_result Base64url base64url_encode [250; 251] (replicate 6 7) 5).
  - right. left.
  - unfold bytes. repeat (apply Forall_cons; split; [lia|]). apply Forall_nil_2.
  - simpl. lia.
Defined.

(** The decoder on any string.  Whatever the source is, [b64_pton]
    never accesses its target outside of the [targsize] bytes it was given,
    and returns -1 or a number of bytes that is at most [targsize]. *)
Theorem base64_decode_safe src target targsize :
  (targsize <= length target)%nat ->
  exists r target',
    b64_pton src (Some target) targsize = Some (r, Some target') /\
    -1 <= r <= Z.of_nat targsize /\ same_above targsize target target'.
Proof.
  intros Ht. apply pton_loop_safe; [done|done|]. unfold pton_room. lia.
Qed.

Lemma base64_decode_safe_witness :
  exists r target',
    b64_pton (chars "QUJDRA= =") (Some [1; 2; 3; 4; 5; 6]) 4 = Some (r, Some target') /\
    -1 <= r <= 4 /\ same_above 4 [1; 2; 3; 4; 5; 6] target'.
Proof. apply (base64_decode_safe (chars "QUJDRA= =") [1; 2; 3; 4; 5; 6] 4). simpl. lia. Defined.
