(* ===== verification/ClientData.v ===== *)
(** * Client identities of NFSv4: the records and the tables

    An NFSv4 client names itself by an opaque string.  For each string the
    server keeps a client record ([nfs_client_record_t]) that points to at
    most one confirmed and one unconfirmed client id ([nfs_client_id_t]); the
    client ids are in two hash tables, and the sessions of NFSv4.1 in a third.
    This file has the data, the reference counts with the destruction of what
    loses its last reference, the tables, the lease ([SAL/nfs4_lease.c]) and
    the operations on client ids of [SAL/nfs4_clientid.c] and on sessions of
    [SAL/nfs41_session_id.c].

    All objects live in stores indexed by their address and addresses are not
    reused, so the use of a freed object has the outcome [None]; so have a
    failed [assert] and [LogFatal].  Reference counts are unbounded.  What a
    client id does for its open and lock owners when it expires is the
    interface [ClientEnv] with the configuration and foreign functions. *)
From S2P Require Import Prelude Status Owners.

Inductive nfs_clientid_confirm_state_t :=
| UNCONFIRMED_CLIENT_ID
| CONFIRMED_CLIENT_ID
| EXPIRED_CLIENT_ID
| STALE_CLIENT_ID.

#[export] Instance confirm_state_eq_dec : EqDecision nfs_clientid_confirm_state_t.
Proof. solve_decision. Defined.

Inductive clientid_status_t :=
| CLIENT_ID_SUCCESS
| CLIENT_ID_INSERT_MALLOC_ERROR
| CLIENT_ID_INVALID_ARGUMENT
| CLIENT_ID_EXPIRED
| CLIENT_ID_STALE.

#[export] Instance clientid_status_eq_dec : EqDecision clientid_status_t.
Proof. solve_decision. Defined.

(** [nfs_client_cred_t], with the flavours that [nfs_rpc_req2client_cred]
    lets through. *)
Inductive nfs_client_cred_t :=
| AUTH_NONE
| AUTH_UNIX (aup_uid aup_gid : Z)
| RPCSEC_GSS (gss_context_id : Z).

#[export] Instance client_cred_eq_dec : EqDecision nfs_client_cred_t.
Proof. solve_decision. Defined.

(** The part of a [state_owner_t] of NFSv4 that concerns its life: its state
    list holds one reference per state, the cache of open owners one, and each
    lock owner one on its open owner. *)
Record owner_t := mk_owner {
  so_ptr : positive;
  so_refcount : Z;
  so_state_list : list Z;
  so_cached : bool;                        (* cache_expire != 0 *)
  so_related_owner : option positive
}.

(** [COMPOUND4res_extended]: the results of a compound, each with its
    operation, its status and what else it returns, and whether this reply is
    in a cache. *)
Record compound_res := mk_res {
  res_status : nfsstat4;
  res_array : list (Z * nfsstat4 * list Z);
  res_cached : bool
}.

(** What [calloc] leaves in a reply. *)
Definition zero_res : compound_res := mk_res NFS4_OK [] false.

Record nfs41_session_slot_t := mk_slot {
  slot_sequence : Z;
  cached_result : compound_res;
  cache_used : bool
}.

Definition zero_slot : nfs41_session_slot_t := mk_slot 0 zero_res false.

(** [NFS41_NB_SLOTS]. *)
Definition NFS41_NB_SLOTS : nat := 3.

(** A session id is the client id and a global counter, eight bytes each. *)
Definition sessionid4 : Type := Z * Z.

Record nfs41_session_t := mk_session {
  session_id : sessionid4;
  session_refcount : Z;
  session_clientid : Z;
  clientid_record : positive;
  session_xprt : sockaddr_t;
  ca_maxrequests : Z;
  ca_maxoperations : Z;
  slots : list nfs41_session_slot_t
}.

(** [cb_session_list] is a member of a union: it is [None] in the record of a
    v4.0 client, where its bytes are those of the callback channel. *)
Record nfs_client_id_t := mk_client_id {
  cid_clientid : Z;
  cid_verifier : Z;
  cid_incoming_verifier : Z;
  cid_last_renew : Z;
  cid_confirmed : nfs_clientid_confirm_state_t;
  cid_credential : nfs_client_cred_t;
  cid_client_record : option positive;
  cid_openowners : list owner_t;
  cid_lockowners : list owner_t;
  cid_owner_states : list Z;               (* cid_owner's so_state_list *)
  cb_session_list : option (list positive);
  cb_chan_down : bool;
  first_path_down_resp_time : Z;
  cid_create_session_slot : nfs41_session_slot_t;
  cid_create_session_sequence : Z;
  cid_refcount : Z;
  cid_lease_reservations : Z;
  cid_minorversion : Z;
  curr_deleg_grants : Z;
  gsh_client : option Z
}.

Record nfs_client_record_t := mk_client_record {
  cr_refcount : Z;
  cr_confirmed_rec : option positive;
  cr_unconfirmed_rec : option positive;
  cr_server_addr : Z;
  cr_pnfs_flags : Z;
  cr_client_val : list Z
}.

(** The server: its clock, its counters, the stores and the hash tables. *)
Record client_world := mk_world {
  w_time : Z;
  clientid_counter : Z;
  clientid_verifier : Z;
  global_sequence : Z;
  w_next : positive;
  w_ids : gmap positive nfs_client_id_t;
  w_recs : gmap positive nfs_client_record_t;
  w_sessions : gmap positive nfs41_session_t;
  ht_confirmed_client_id : gmap Z positive;
  ht_unconfirmed_client_id : gmap Z positive;
  ht_client_record : list positive;
  ht_session_id : gmap sessionid4 positive
}.

Definition initial_world (time : Z) : client_world :=
  mk_world time 0 0 0 1 ∅ ∅ ∅ ∅ ∅ [] ∅.

(** The configuration; the hash of client records (support/city.c); the
    comparison of the names of two GSS contexts (the GSS library); and the
    functions of other components that release the state of an owner:
    [state_nfs4_owner_unlock_all] (SAL/state_lock.c), [release_openstate]
    and [revoke_owner_delegs] (SAL/nfs4_state.c), [revoke_owner_layouts]
    (SAL/state_layout.c). *)
Class ClientEnv := {
  lease_lifetime : Z;
  ServerEpoch : Z;
  allow_delegations : bool;
  pnfs_mds : bool;
  pnfs_ds : bool;
  CityHash64WithSeed : list Z -> Z -> Z;
  gss_same_name : Z -> Z -> bool;
  state_nfs4_owner_unlock_all : owner_t -> owner_t;
  release_openstate : owner_t -> owner_t;
  revoke_owner_layouts : list Z -> list Z;
  revoke_owner_delegs : list Z -> list Z
}.

(** ** Field updates *)

Definition set_cid_verifier v (i : nfs_client_id_t) : nfs_client_id_t :=
  mk_client_id (cid_clientid i) v (cid_incoming_verifier i) (cid_last_renew i)
    (cid_confirmed i) (cid_credential i) (cid_client_record i) (cid_openowners i)
    (cid_lockowners i) (cid_owner_states i) (cb_session_list i) (cb_chan_down i)
    (first_path_down_resp_time i) (cid_create_session_slot i)
    (cid_create_session_sequence i) (cid_refcount i) (cid_lease_reservations i)
    (cid_minorversion i) (curr_deleg_grants i) (gsh_client i).
Definition set_cid_incoming_verifier v (i : nfs_client_id_t) : nfs_client_id_t :=
  mk_client_id (cid_clientid i) (cid_verifier i) v (cid_last_renew i) (cid_confirmed i)
    (cid_credential i) (cid_client_record i) (cid_openowners i) (cid_lockowners i)
    (cid_owner_states i) (cb_session_list i) (cb_chan_down i) (first_path_down_resp_time i)
    (cid_create_session_slot i) (cid_create_session_sequence i) (cid_refcount i)
    (cid_lease_reservations i) (cid_minorversion i) (curr_deleg_grants i) (gsh_client i).
Definition set_cid_last_renew v (i : nfs_client_id_t) : nfs_client_id_t :=
  mk_client_id (cid_clientid i) (cid_verifier i) (cid_incoming_verifier i) v
    (cid_confirmed i) (cid_credential i) (cid_client_record i) (cid_openowners i)
    (cid_lockowners i) (cid_owner_states i) (cb_session_list i) (cb_chan_down i)
    (first_path_down_resp_time i) (cid_create_session_slot i)
    (cid_create_session_sequence i) (cid_refcount i) (cid_lease_reservations i)
    (cid_minorversion i) (curr_deleg_grants i) (gsh_client i).
Definition set_cid_confirmed v (i : nfs_client_id_t) : nfs_client_id_t :=
  mk_client_id (cid_clientid i) (cid_verifier i) (cid_incoming_verifier i)
    (cid_last_renew i) v (cid_credential i) (cid_client_record i) (cid_openowners i)
    (cid_lockowners i) (cid_owner_states i) (cb_session_list i) (cb_chan_down i)
    (first_path_down_resp_time i) (cid_create_session_slot i)
    (cid_create_session_sequence i) (cid_refcount i) (cid_lease_reservations i)
    (cid_minorversion i) (curr_deleg_grants i) (gsh_client i).
Definition set_cid_client_record v (i : nfs_client_id_t) : nfs_client_id_t :=
  mk_client_id (cid_clientid i) (cid_verifier i) (cid_incoming_verifier i)
    (cid_last_renew i) (cid_confirmed i) (cid_credential i) v (cid_openowners i)
    (cid_lockowners i) (cid_owner_states i) (cb_session_list i) (cb_chan_down i)
    (first_path_down_resp_time i) (cid_create_session_slot i)
    (cid_create_session_sequence i) (cid_refcount i) (cid_lease_reservations i)
    (cid_minorversion i) (curr_deleg_grants i) (gsh_client i).
Definition set_cid_openowners v (i : nfs_client_id_t) : nfs_client_id_t :=
  mk_client_id (cid_clientid i) (cid_verifier i) (cid_incoming_verifier i)
    (cid_last_renew i) (cid_confirmed i) (cid_credential i) (cid_client_record i) v
    (cid_lockowners i) (cid_owner_states i) (cb_session_list i) (cb_chan_down i)
    (first_path_down_resp_time i) (cid_create_session_slot i)
    (cid_create_session_sequence i) (cid_refcount i) (cid_lease_reservations i)
    (cid_minorversion i) (curr_deleg_grants i) (gsh_client i).
Definition set_cid_lockowners v (i : nfs_client_id_t) : nfs_client_id_t :=
  mk_client_id (cid_clientid i) (cid_verifier i) (cid_incoming_verifier i)
    (cid_last_renew i) (cid_confirmed i) (cid_credential i) (cid_client_record i)
    (cid_openowners i) v (cid_owner_states i) (cb_session_list i) (cb_chan_down i)
    (first_path_down_resp_time i) (cid_create_session_slot i)
    (cid_create_session_sequence i) (cid_refcount i) (cid_lease_reservations i)
    (cid_minorversion i) (curr_deleg_grants i) (gsh_client i).
Definition set_cid_owner_states v (i : nfs_client_id_t) : nfs_client_id_t :=
  mk_client_id (cid_clientid i) (cid_verifier i) (cid_incoming_verifier i)
    (cid_last_renew i) (cid_confirmed i) (cid_credential i) (cid_client_record i)
    (cid_openowners i) (cid_lockowners i) v (cb_session_list i) (cb_chan_down i)
    (first_path_down_resp_time i) (cid_create_session_slot i)
    (cid_create_session_sequence i) (cid_refcount i) (cid_lease_reservations i)
    (cid_minorversion i) (curr_deleg_grants i) (gsh_client i).
Definition set_cb_session_list v (i : nfs_client_id_t) : nfs_client_id_t :=
  mk_client_id (cid_clientid i) (cid_verifier i) (cid_incoming_verifier i)
    (cid_last_renew i) (cid_confirmed i) (cid_credential i) (cid_client_record i)
    (cid_openowners i) (cid_lockowners i) (cid_owner_states i) v (cb_chan_down i)
    (first_path_down_resp_time i) (cid_create_session_slot i)
    (cid_create_session_sequence i) (cid_refcount i) (cid_lease_reservations i)
    (cid_minorversion i) (curr_deleg_grants i) (gsh_client i).
Definition set_cb_chan_down v (i : nfs_client_id_t) : nfs_client_id_t :=
  mk_client_id (cid_clientid i) (cid_verifier i) (cid_incoming_verifier i)
    (cid_last_renew i) (cid_confirmed i) (cid_credential i) (cid_client_record i)
    (cid_openowners i) (cid_lockowners i) (cid_owner_states i) (cb_session_list i) v
    (first_path_down_resp_time i) (cid_create_session_slot i)
    (cid_create_session_sequence i) (cid_refcount i) (cid_lease_reservations i)
    (cid_minorversion i) (curr_deleg_grants i) (gsh_client i).
Definition set_first_path_down_resp_time v (i : nfs_client_id_t) : nfs_client_id_t :=
  mk_client_id (cid_clientid i) (cid_verifier i) (cid_incoming_verifier i)
    (cid_last_renew i) (cid_confirmed i) (cid_credential i) (cid_client_record i)
    (cid_openowners i) (cid_lockowners i) (cid_owner_states i) (cb_session_list i)
    (cb_chan_down i) v (cid_create_session_slot i) (cid_create_session_sequence i)
    (cid_refcount i) (cid_lease_reservations i) (cid_minorversion i) (curr_deleg_grants i)
    (gsh_client i).
Definition set_cid_create_session_slot v (i : nfs_client_id_t) : nfs_client_id_t :=
  mk_client_id (cid_clientid i) (cid_verifier i) (cid_incoming_verifier i)
    (cid_last_renew i) (cid_confirmed i) (cid_credential i) (cid_client_record i)
    (cid_openowners i) (cid_lockowners i) (cid_owner_states i) (cb_session_list i)
    (cb_chan_down i) (first_path_down_resp_time i) v (cid_create_session_sequence i)
    (cid_refcount i) (cid_lease_reservations i) (cid_minorversion i) (curr_deleg_grants i)
    (gsh_client i).
Definition set_cid_create_session_sequence v (i : nfs_client_id_t) : nfs_client_id_t :=
  mk_client_id (cid_clientid i) (cid_verifier i) (cid_incoming_verifier i)
    (cid_last_renew i) (cid_confirmed i) (cid_credential i) (cid_client_record i)
    (cid_openowners i) (cid_lockowners i) (cid_owner_states i) (cb_session_list i)
    (cb_chan_down i) (first_path_down_resp_time i) (cid_create_session_slot i) v
    (cid_refcount i) (cid_lease_reservations i) (cid_minorversion i) (curr_deleg_grants i)
    (gsh_client i).
Definition set_cid_refcount v (i : nfs_client_id_t) : nfs_client_id_t :=
  mk_client_id (cid_clientid i) (cid_verifier i) (cid_incoming_verifier i)
    (cid_last_renew i) (cid_confirmed i) (cid_credential i) (cid_client_record i)
    (cid_openowners i) (cid_lockowners i) (cid_owner_states i) (cb_session_list i)
    (cb_chan_down i) (first_path_down_resp_time i) (cid_create_session_slot i)
    (cid_create_session_sequence i) v (cid_lease_reservations i) (cid_minorversion i)
    (curr_deleg_grants i) (gsh_client i).
Definition set_cid_lease_reservations v (i : nfs_client_id_t) : nfs_client_id_t :=
  mk_client_id (cid_clientid i) (cid_verifier i) (cid_incoming_verifier i)
    (cid_last_renew i) (cid_confirmed i) (cid_credential i) (cid_client_record i)
    (cid_openowners i) (cid_lockowners i) (cid_owner_states i) (cb_session_list i)
    (cb_chan_down i) (first_path_down_resp_time i) (cid_create_session_slot i)
    (cid_create_session_sequence i) (cid_refcount i) v (cid_minorversion i)
    (curr_deleg_grants i) (gsh_client i).

Definition set_cr_refcount v (r : nfs_client_record_t) : nfs_client_record_t :=
  mk_client_record v (cr_confirmed_rec r) (cr_unconfirmed_rec r) (cr_server_addr r)
    (cr_pnfs_flags r) (cr_client_val r).
Definition set_cr_confirmed_rec v (r : nfs_client_record_t) : nfs_client_record_t :=
  mk_client_record (cr_refcount r) v (cr_unconfirmed_rec r) (cr_server_addr r)
    (cr_pnfs_flags r) (cr_client_val r).
Definition set_cr_unconfirmed_rec v (r : nfs_client_record_t) : nfs_client_record_t :=
  mk_client_record (cr_refcount r) (cr_confirmed_rec r) v (cr_server_addr r)
    (cr_pnfs_flags r) (cr_client_val r).

Definition set_session_refcount v (s : nfs41_session_t) : nfs41_session_t :=
  mk_session (session_id s) v (session_clientid s) (clientid_record s) (session_xprt s)
    (ca_maxrequests s) (ca_maxoperations s) (slots s).
Definition set_slots v (s : nfs41_session_t) : nfs41_session_t :=
  mk_session (session_id s) (session_refcount s) (session_clientid s) (clientid_record s)
    (session_xprt s) (ca_maxrequests s) (ca_maxoperations s) v.

Definition set_w_time v (w : client_world) : client_world :=
  mk_world v (clientid_counter w) (clientid_verifier w) (global_sequence w) (w_next w)
    (w_ids w) (w_recs w) (w_sessions w) (ht_confirmed_client_id w)
    (ht_unconfirmed_client_id w) (ht_client_record w) (ht_session_id w).
Definition set_clientid_counter v (w : client_world) : client_world :=
  mk_world (w_time w) v (clientid_verifier w) (global_sequence w) (w_next w) (w_ids w)
    (w_recs w) (w_sessions w) (ht_confirmed_client_id w) (ht_unconfirmed_client_id w)
    (ht_client_record w) (ht_session_id w).
Definition set_clientid_verifier v (w : client_world) : client_world :=
  mk_world (w_time w) (clientid_counter w) v (global_sequence w) (w_next w) (w_ids w)
    (w_recs w) (w_sessions w) (ht_confirmed_client_id w) (ht_unconfirmed_client_id w)
    (ht_client_record w) (ht_session_id w).
Definition set_global_sequence v (w : client_world) : client_world :=
  mk_world (w_time w) (clientid_counter w) (clientid_verifier w) v (w_next w) (w_ids w)
    (w_recs w) (w_sessions w) (ht_confirmed_client_id w) (ht_unconfirmed_client_id w)
    (ht_client_record w) (ht_session_id w).
Definition set_w_next v (w : client_world) : client_world :=
  mk_world (w_time w) (clientid_counter w) (clientid_verifier w) (global_sequence w) v
    (w_ids w) (w_recs w) (w_sessions w) (ht_confirmed_client_id w)
    (ht_unconfirmed_client_id w) (ht_client_record w) (ht_session_id w).
Definition set_w_ids v (w : client_world) : client_world :=
  mk_world (w_time w) (clientid_counter w) (clientid_verifier w) (global_sequence w)
    (w_next w) v (w_recs w) (w_sessions w) (ht_confirmed_client_id w)
    (ht_unconfirmed_client_id w) (ht_client_record w) (ht_session_id w).
Definition set_w_recs v (w : client_world) : client_world :=
  mk_world (w_time w) (clientid_counter w) (clientid_verifier w) (global_sequence w)
    (w_next w) (w_ids w) v (w_sessions w) (ht_confirmed_client_id w)
    (ht_unconfirmed_client_id w) (ht_client_record w) (ht_session_id w).
Definition set_w_sessions v (w : client_world) : client_world :=
  mk_world (w_time w) (clientid_counter w) (clientid_verifier w) (global_sequence w)
    (w_next w) (w_ids w) (w_recs w) v (ht_confirmed_client_id w)
    (ht_unconfirmed_client_id w) (ht_client_record w) (ht_session_id w).
Definition set_ht_confirmed_client_id v (w : client_world) : client_world :=
  mk_world (w_time w) (clientid_counter w) (clientid_verifier w) (global_sequence w)
    (w_next w) (w_ids w) (w_recs w) (w_sessions w) v (ht_unconfirmed_client_id w)
    (ht_client_record w) (ht_session_id w).
Definition set_ht_unconfirmed_client_id v (w : client_world) : client_world :=
  mk_world (w_time w) (clientid_counter w) (clientid_verifier w) (global_sequence w)
    (w_next w) (w_ids w) (w_recs w) (w_sessions w) (ht_confirmed_client_id w) v
    (ht_client_record w) (ht_session_id w).
Definition set_ht_client_record v (w : client_world) : client_world :=
  mk_world (w_time w) (clientid_counter w) (clientid_verifier w) (global_sequence w)
    (w_next w) (w_ids w) (w_recs w) (w_sessions w) (ht_confirmed_client_id w)
    (ht_unconfirmed_client_id w) v (ht_session_id w).
Definition set_ht_session_id v (w : client_world) : client_world :=
  mk_world (w_time w) (clientid_counter w) (clientid_verifier w) (global_sequence w)
    (w_next w) (w_ids w) (w_recs w) (w_sessions w) (ht_confirmed_client_id w)
    (ht_unconfirmed_client_id w) (ht_client_record w) v.

Definition set_so_refcount v (o : owner_t) : owner_t :=
  mk_owner (so_ptr o) v (so_state_list o) (so_cached o) (so_related_owner o).

(** ** Steps that may fail *)

Definition CM (A : Type) : Type := client_world -> option (A * client_world).

#[export] Instance CM_ret : MRet CM := fun _ a w => Some (a, w).
#[export] Instance CM_bind : MBind CM :=
  fun _ _ k m w => match m w with Some (a, w') => k a w' | None => None end.

(** A use of freed memory, a failed assertion or a fatal error. *)
Definition crash {A} : CM A := fun _ => None.
Definition gets {A} (f : client_world -> A) : CM A := fun w => Some (f w, w).
Definition modify (f : client_world -> client_world) : CM unit := fun w => Some (tt, f w).
Definition assert_that (b : bool) : CM unit := if b then mret tt else crash.

Fixpoint for_each {A} (f : A -> CM unit) (l : list A) : CM unit :=
  match l with
  | [] => mret tt
  | a :: l => f a;; for_each f l
  end.

Definition time : CM Z := gets w_time.
Definition alloc : CM positive :=
  fun w => Some (w_next w, set_w_next (Pos.succ (w_next w)) w).

Definition get_id (p : positive) : CM nfs_client_id_t :=
  fun w => match w_ids w !! p with Some i => Some (i, w) | None => None end.
Definition get_rec (r : positive) : CM nfs_client_record_t :=
  fun w => match w_recs w !! r with Some c => Some (c, w) | None => None end.
Definition get_session (s : positive) : CM nfs41_session_t :=
  fun w => match w_sessions w !! s with Some x => Some (x, w) | None => None end.

Definition put_id (p : positive) (i : nfs_client_id_t) : CM unit :=
  modify (fun w => set_w_ids (<[p := i]> (w_ids w)) w).
Definition put_rec (r : positive) (c : nfs_client_record_t) : CM unit :=
  modify (fun w => set_w_recs (<[r := c]> (w_recs w)) w).
Definition put_session (s : positive) (x : nfs41_session_t) : CM unit :=
  modify (fun w => set_w_sessions (<[s := x]> (w_sessions w)) w).

Definition upd_id (p : positive) (f : nfs_client_id_t -> nfs_client_id_t) : CM unit :=
  i ← get_id p; put_id p (f i).
Definition upd_rec (r : positive) (f : nfs_client_record_t -> nfs_client_record_t) : CM unit :=
  c ← get_rec r; put_rec r (f c).
Definition upd_session (s : positive) (f : nfs41_session_t -> nfs41_session_t) : CM unit :=
  x ← get_session s; put_session s (f x).

(** ** Status codes and credentials *)

Definition clientid_error_to_nfsstat (err : clientid_status_t) : nfsstat4 :=
  match err with
  | CLIENT_ID_SUCCESS => NFS4_OK
  | CLIENT_ID_INSERT_MALLOC_ERROR => NFS4ERR_RESOURCE
  | CLIENT_ID_INVALID_ARGUMENT => NFS4ERR_SERVERFAULT
  | CLIENT_ID_EXPIRED => NFS4ERR_EXPIRED
  | CLIENT_ID_STALE => NFS4ERR_STALE_CLIENTID
  end.

Definition clientid_error_to_nfsstat_no_expire (err : clientid_status_t) : nfsstat4 :=
  let rc := clientid_error_to_nfsstat err in
  match rc with NFS4ERR_EXPIRED => NFS4ERR_STALE_CLIENTID | _ => rc end.

Section client.
Context `{Env : ClientEnv}.

Definition nfs_compare_clientcred (cred1 cred2 : nfs_client_cred_t) : bool :=
  match cred1, cred2 with
  | AUTH_UNIX uid1 gid1, AUTH_UNIX uid2 gid2 => (uid1 =? uid2) && (gid1 =? gid2)
  | RPCSEC_GSS ctx1, RPCSEC_GSS ctx2 => gss_same_name ctx1 ctx2
  | AUTH_NONE, AUTH_NONE => true
  | _, _ => false
  end.

(** ** The lease *)

(** [_valid_lease]: the seconds left of a lease, an [unsigned int]. *)
Definition lease_left (t : Z) (clientid : nfs_client_id_t) : Z :=
  if decide (cid_confirmed clientid = EXPIRED_CLIENT_ID) then 0 else
  if negb (cid_lease_reservations clientid =? 0) then lease_lifetime else
  if t <? cid_last_renew clientid + lease_lifetime
  then u32 (cid_last_renew clientid + lease_lifetime - t)
  else 0.

Definition valid_lease (t : Z) (clientid : nfs_client_id_t) : bool :=
  negb (lease_left t clientid =? 0).

Definition reserve_lease (p : positive) : CM bool :=
  i ← get_id p;
  t ← time;
  if valid_lease t i
  then put_id p (set_cid_lease_reservations (cid_lease_reservations i + 1) i);; mret true
  else mret false.

Definition update_lease (p : positive) : CM unit :=
  i ← get_id p;
  t ← time;
  let i := set_cid_lease_reservations (cid_lease_reservations i - 1) i in
  put_id p (if cid_lease_reservations i =? 0 then set_cid_last_renew t i else i).

(** ** Client records *)

Definition client_record_value_hash (key : nfs_client_record_t) : Z :=
  CityHash64WithSeed (cr_client_val key)
    (Z.lor (Z.shiftl (cr_pnfs_flags key) 32) (cr_server_addr key)).

Definition compare_client_record (key1 key2 : nfs_client_record_t) : Z :=
  if negb (length (cr_client_val key1) =? length (cr_client_val key2))%nat then 1 else
  if negb (cr_pnfs_flags key1 =? cr_pnfs_flags key2) then 1
  else memcmp (cr_client_val key1) (cr_client_val key2).

(** The hash table compares the keys whose hashes are equal. *)
Definition same_client_record (key1 key2 : nfs_client_record_t) : bool :=
  (client_record_value_hash key1 =? client_record_value_hash key2)
  && (compare_client_record key1 key2 =? 0).

Definition client_record_matches (key : nfs_client_record_t) w (r : positive) : bool :=
  match w_recs w !! r with Some c => same_client_record key c | None => false end.

Definition find_client_record (key : nfs_client_record_t) w : option positive :=
  List.find (client_record_matches key w) (ht_client_record w).

Definition inc_client_record_ref (r : positive) : CM unit :=
  upd_rec r (fun c => set_cr_refcount (cr_refcount c + 1) c).

Definition dec_client_record_ref (r : positive) : CM unit :=
  c ← get_rec r;
  let c := set_cr_refcount (cr_refcount c - 1) c in
  put_rec r c;;
  if 0 <? cr_refcount c then mret tt else
  found ← gets (find_client_record c);
  match found with
  | None => mret tt
  | Some old =>
      modify (fun w => set_ht_client_record (filter (fun x => x <> old) (ht_client_record w)) w);;
      modify (fun w => set_w_recs (delete old (w_recs w)) w)
  end.

Definition get_client_record (value : list Z) (pnfs_flags server_addr : Z)
    : CM (option positive) :=
  match value with
  | [] => mret None
  | _ =>
      let record := mk_client_record 1 None None server_addr pnfs_flags value in
      found ← gets (find_client_record record);
      match found with
      | Some r => inc_client_record_ref r;; mret (Some r)
      | None =>
          r ← alloc;
          put_rec r record;;
          modify (fun w => set_ht_client_record (r :: ht_client_record w) w);;
          mret (Some r)
      end
  end.

(** ** References to client ids and sessions

    The last reference to a session gives back its reference to the client
    id, and a client id that is freed removes its sessions.  The first
    argument of [dec_client_id_ref_] bounds this recursion: a session holds a
    reference, so a client id that is freed has none left. *)

Definition inc_client_id_ref (p : positive) : CM unit :=
  upd_id p (fun i => set_cid_refcount (cid_refcount i + 1) i).

Definition inc_session_ref (s : positive) : CM unit :=
  upd_session s (fun x => set_session_refcount (session_refcount x + 1) x).

Definition unlink_session (s : positive) (i : nfs_client_id_t) : nfs_client_id_t :=
  set_cb_session_list (filter (fun x => x <> s) <$> cb_session_list i) i.

Definition dec_session_ref_ (dec_id : positive -> CM unit) (s : positive) : CM unit :=
  x ← get_session s;
  let x := set_session_refcount (session_refcount x - 1) x in
  put_session s x;;
  if session_refcount x =? 0 then
    upd_id (clientid_record x) (unlink_session s);;
    dec_id (clientid_record x);;
    modify (fun w => set_w_sessions (delete s (w_sessions w)) w)
  else mret tt.

Definition nfs41_Session_Del_ (dec_id : positive -> CM unit) (sid : sessionid4) : CM bool :=
  found ← gets (fun w => ht_session_id w !! sid);
  match found with
  | Some s =>
      modify (fun w => set_ht_session_id (delete sid (ht_session_id w)) w);;
      dec_session_ref_ dec_id s;;
      mret true
  | None => mret false
  end.

Definition del_sessions_ (dec_id : positive -> CM unit) (p : positive) : CM unit :=
  i ← get_id p;
  if 0 <? cid_minorversion i then
    match cb_session_list i with
    | Some l =>
        for_each (fun s => x ← get_session s;
                           nfs41_Session_Del_ dec_id (session_id x);; mret tt) l
    | None => crash
    end
  else mret tt.

Definition free_client_id_ (dec_id : positive -> CM unit) (p : positive) : CM unit :=
  i ← get_id p;
  assert_that (cid_refcount i =? 0);;
  match cid_client_record i with
  | Some r => dec_client_record_ref r
  | None => mret tt
  end;;
  del_sessions_ dec_id p;;
  modify (fun w => set_w_ids (delete p (w_ids w)) w).

Fixpoint dec_client_id_ref_ (n : nat) (p : positive) : CM unit :=
  match n with
  | O => crash
  | S n =>
      i ← get_id p;
      let i := set_cid_refcount (cid_refcount i - 1) i in
      put_id p i;;
      if 0 <? cid_refcount i then mret tt else
      if decide (cid_confirmed i = EXPIRED_CLIENT_ID)
      then free_client_id_ (dec_client_id_ref_ n) p
      else crash
  end.

Definition dec_client_id_ref : positive -> CM unit := dec_client_id_ref_ 2.
Definition free_client_id : positive -> CM unit := free_client_id_ dec_client_id_ref.
Definition dec_session_ref : positive -> CM unit := dec_session_ref_ dec_client_id_ref.
Definition nfs41_Session_Del : sessionid4 -> CM bool := nfs41_Session_Del_ dec_client_id_ref.

(** [nfs41_Session_Set]; the caller built the key from a fresh counter. *)
Definition nfs41_Session_Set (s : positive) : CM bool :=
  x ← get_session s;
  found ← gets (fun w => ht_session_id w !! session_id x);
  match found with
  | Some _ => mret false
  | None =>
      modify (fun w => set_ht_session_id (<[session_id x := s]> (ht_session_id w)) w);;
      mret true
  end.

Definition nfs41_Session_Get_Pointer (sid : sessionid4) : CM (option positive) :=
  found ← gets (fun w => ht_session_id w !! sid);
  match found with
  | Some s => inc_session_ref s;; mret (Some s)
  | None => mret None
  end.

Definition nfs41_Build_sessionid (clientid : Z) : CM sessionid4 :=
  seq ← gets (fun w => u64 (global_sequence w + 1));
  modify (set_global_sequence seq);;
  mret (clientid, seq).

(** ** Client ids *)

Definition epoch_low : Z := Z.land ServerEpoch 4294967295.

Definition new_clientid : CM Z :=
  newid ← gets (fun w => u32 (clientid_counter w + 1));
  modify (set_clientid_counter newid);;
  mret (newid + Z.shiftl epoch_low 32).

Definition new_clientid_verifier : CM Z :=
  my_verifier ← gets (fun w => u64 (clientid_verifier w + 1));
  modify (set_clientid_verifier my_verifier);;
  mret my_verifier.

(** [create_client_id]; [client] is [op_ctx->client].  The memory comes
    zeroed, and the session list of a v4.1 record is not a list yet. *)
Definition create_client_id (clientid : Z) (client_record : positive)
    (credential : nfs_client_cred_t) (minorversion : Z) (client : option Z) : CM positive :=
  p ← alloc;
  clientid ← (if clientid =? 0 then new_clientid else mret clientid);
  t ← time;
  put_id p (mk_client_id clientid 0 0 t UNCONFIRMED_CLIENT_ID credential
              (Some client_record) [] [] [] None (minorversion =? 0) 0 zero_slot 0 0 0
              minorversion 0 client);;
  inc_client_record_ref client_record;;
  mret p.

(** The two tables of client ids. *)
Inductive cid_table := confirmed_table | unconfirmed_table.

Definition table_of (ht : cid_table) (w : client_world) : gmap Z positive :=
  match ht with
  | confirmed_table => ht_confirmed_client_id w
  | unconfirmed_table => ht_unconfirmed_client_id w
  end.

Definition set_table (ht : cid_table) (m : gmap Z positive) (w : client_world) : client_world :=
  match ht with
  | confirmed_table => set_ht_confirmed_client_id m w
  | unconfirmed_table => set_ht_unconfirmed_client_id m w
  end.

(** [HashTable_Del]: the value that was removed. *)
Definition HashTable_Del (ht : cid_table) (key : Z) : CM (option positive) :=
  old ← gets (fun w => table_of ht w !! key);
  modify (fun w => set_table ht (delete key (table_of ht w)) w);;
  mret old.

(** [hashtable_test_and_set] without overwriting. *)
Definition hashtable_test_and_set (ht : cid_table) (key : Z) (val : positive) : CM bool :=
  old ← gets (fun w => table_of ht w !! key);
  match old with
  | Some _ => mret false
  | None => modify (fun w => set_table ht (<[key := val]> (table_of ht w)) w);; mret true
  end.

Definition nfs_client_id_insert (p : positive) : CM clientid_status_t :=
  i ← get_id p;
  rc ← hashtable_test_and_set unconfirmed_table (cid_clientid i) p;
  if rc : bool then
    inc_client_id_ref p;;
    match cid_client_record i with
    | Some r => upd_rec r (set_cr_unconfirmed_rec (Some p))
    | None => crash
    end;;
    mret CLIENT_ID_SUCCESS
  else
    free_client_id p;;
    mret CLIENT_ID_INSERT_MALLOC_ERROR.

(** [remove_confirmed_client_id] and [remove_unconfirmed_client_id]: whether
    the table had the client id. *)
Definition remove_client_id (ht : cid_table)
    (detach : nfs_client_record_t -> nfs_client_record_t) (p : positive) : CM bool :=
  i ← get_id p;
  rc ← HashTable_Del ht (cid_clientid i);
  match rc with
  | None => mret false
  | Some _ =>
      match cid_client_record i with
      | Some r => upd_rec r detach
      | None => mret tt
      end;;
      upd_id p (set_cid_confirmed EXPIRED_CLIENT_ID);;
      dec_client_id_ref p;;
      mret true
  end.

Definition remove_confirmed_client_id : positive -> CM bool :=
  remove_client_id confirmed_table (set_cr_confirmed_rec None).
Definition remove_unconfirmed_client_id : positive -> CM bool :=
  remove_client_id unconfirmed_table (set_cr_unconfirmed_rec None).

Definition nfs_client_id_confirm (p : positive) : CM clientid_status_t :=
  i ← get_id p;
  match cid_client_record i with
  | None => crash
  | Some r =>
      upd_rec r (set_cr_unconfirmed_rec None);;
      old ← HashTable_Del unconfirmed_table (cid_clientid i);
      match old with
      | None => mret CLIENT_ID_INVALID_ARGUMENT
      | Some old_value =>
          upd_id p (set_cid_confirmed CONFIRMED_CLIENT_ID);;
          rc ← hashtable_test_and_set confirmed_table (cid_clientid i) old_value;
          if rc : bool then
            upd_rec r (set_cr_confirmed_rec (Some p));;
            mret CLIENT_ID_SUCCESS
          else
            upd_id p (set_cid_confirmed EXPIRED_CLIENT_ID);;
            dec_client_id_ref p;;
            mret CLIENT_ID_INSERT_MALLOC_ERROR
      end
  end.

Definition owner_has_state (o : owner_t) : bool :=
  negb (so_cached o) && match so_state_list o with [] => false | _ => true end.

(** [clientid_has_state], used by SETCLIENTID; the client's own owner, for
    delegations and layouts, is never cached. *)
Definition clientid_has_state (i : nfs_client_id_t) : bool :=
  existsb owner_has_state (cid_openowners i)
  || match cid_owner_states i with [] => false | _ => true end.

(** [client_id_has_state], used by EXCHANGE_ID. *)
Definition client_id_has_state (i : nfs_client_id_t) : bool :=
  match cid_openowners i with
  | [] => false
  | _ => match cid_owner_states i with [] => false | _ => true end
  end.

Definition nfs_client_id_get (ht : cid_table) (clientid : Z)
    : CM (clientid_status_t * option positive) :=
  if negb (Z.shiftr clientid 32 =? epoch_low) then mret (CLIENT_ID_STALE, None) else
  found ← gets (fun w => table_of ht w !! clientid);
  match found with
  | Some p =>
      inc_client_id_ref p;;
      i ← get_id p;
      if decide (cid_confirmed i = STALE_CLIENT_ID)
      then dec_client_id_ref p;; mret (CLIENT_ID_STALE, None)
      else mret (CLIENT_ID_SUCCESS, Some p)
  | None => mret (CLIENT_ID_EXPIRED, None)
  end.

(** ** Owners of a client id *)

Inductive owner_kind := open_owner | lock_owner.

Definition owners_of (k : owner_kind) (i : nfs_client_id_t) : list owner_t :=
  match k with open_owner => cid_openowners i | lock_owner => cid_lockowners i end.

Definition set_owners (k : owner_kind) (l : list owner_t) (i : nfs_client_id_t)
    : nfs_client_id_t :=
  match k with
  | open_owner => set_cid_openowners l i
  | lock_owner => set_cid_lockowners l i
  end.

Definition find_owner (so : positive) (l : list owner_t) : option owner_t :=
  List.find (fun o => bool_decide (so_ptr o = so)) l.

Definition on_owner (so : positive) (f : owner_t -> owner_t) (l : list owner_t)
    : list owner_t :=
  map (fun o => if decide (so_ptr o = so) then f o else o) l.

Definition upd_owner (k : owner_kind) (p so : positive) (f : owner_t -> owner_t) : CM unit :=
  upd_id p (fun i => set_owners k (on_owner so f (owners_of k i)) i).

Definition inc_state_owner_ref (k : owner_kind) (p so : positive) : CM unit :=
  upd_owner k p so (fun o => set_so_refcount (so_refcount o + 1) o).

(** [dec_state_owner_ref] with [free_nfs4_owner]: the last reference to a
    lock owner releases its open owner. *)
Definition dec_state_owner_ref_ (dec_related : positive -> CM unit) (k : owner_kind)
    (p so : positive) : CM unit :=
  i ← get_id p;
  match find_owner so (owners_of k i) with
  | None => crash
  | Some o =>
      let refcount := so_refcount o - 1 in
      upd_owner k p so (fun o => set_so_refcount (so_refcount o - 1) o);;
      if negb (refcount =? 0) then assert_that (0 <? refcount) else
      match so_related_owner o with
      | Some related => dec_related related
      | None => mret tt
      end;;
      upd_id p (fun i => set_owners k (filter (fun o => so_ptr o <> so) (owners_of k i)) i);;
      dec_client_id_ref p
  end.

(** An open owner has no related owner. *)
Definition dec_state_owner_ref (k : owner_kind) (p : positive) : positive -> CM unit :=
  match k with
  | open_owner => dec_state_owner_ref_ (fun _ => crash) open_owner p
  | lock_owner =>
      dec_state_owner_ref_ (dec_state_owner_ref_ (fun _ => crash) open_owner p) lock_owner p
  end.

(** [create_nfs4_owner] with [get_state_owner] and [init_nfs4_owner]: an
    owner that is found gets a reference and leaves the cache of open owners,
    one that is not is added to the list of the client id. *)
Definition create_nfs4_owner (k : owner_kind) (p so : positive) (related : option positive)
    : CM bool :=
  i ← get_id p;
  match find_owner so (owners_of k i) with
  | Some o =>
      upd_owner k p so (fun o =>
        mk_owner (so_ptr o) (so_refcount o + 1 - (if so_cached o then 1 else 0))
          (so_state_list o) false (so_related_owner o));;
      match related, so_related_owner o with
      | Some r, None =>
          inc_state_owner_ref open_owner p r;;
          upd_owner k p so (fun o =>
            mk_owner (so_ptr o) (so_refcount o) (so_state_list o) (so_cached o) (Some r));;
          mret true
      | Some r, Some r' =>
          if decide (r' = r) then mret true else dec_state_owner_ref k p so;; mret false
      | None, _ => mret true
      end
  | None =>
      match related with
      | Some r => inc_state_owner_ref open_owner p r
      | None => mret tt
      end;;
      inc_client_id_ref p;;
      upd_id p (fun i => set_owners k (owners_of k i ++ [mk_owner so 1 [] false related]) i);;
      mret true
  end.

(** The part of [state_add_impl] that links a state to its owner. *)
Definition state_add (k : owner_kind) (p so : positive) (st : Z) : CM unit :=
  upd_owner k p so (fun o =>
    mk_owner (so_ptr o) (so_refcount o + 1) (so_state_list o ++ [st]) (so_cached o)
      (so_related_owner o)).

Fixpoint glist_del_state (st : Z) (l : list Z) : list Z :=
  match l with
  | [] => []
  | x :: l => if x =? st then l else x :: glist_del_state st l
  end.

(** The part of [state_del_locked] that unlinks a state from its owner: an
    open owner without state keeps the reference and is cached. *)
Definition state_del (k : owner_kind) (p so : positive) (st : Z) : CM unit :=
  i ← get_id p;
  match find_owner so (owners_of k i) with
  | None => crash
  | Some o =>
      let states := glist_del_state st (so_state_list o) in
      let owner_retain := match k, states with open_owner, [] => true | _, _ => false end in
      upd_owner k p so (fun o =>
        mk_owner (so_ptr o) (so_refcount o) states owner_retain (so_related_owner o));;
      if owner_retain then mret tt else dec_state_owner_ref k p so
  end.

(** ** Expiry *)

(** The loops of [nfs_client_id_expire] over the owners: the first owner goes
    to the end of the list, its state is released, and it leaves the list
    with its last reference. *)
Fixpoint expire_owners (k : owner_kind) (release : owner_t -> owner_t) (n : nat)
    (p : positive) : CM unit :=
  i ← get_id p;
  match owners_of k i, n with
  | [], _ => mret tt
  | _, O => crash
  | o :: rest, S n =>
      put_id p (set_owners k
        (rest ++ [release (set_so_refcount (so_refcount o + 1) o)]) i);;
      dec_state_owner_ref k p (so_ptr o);;
      expire_owners k release n p
  end.

Definition detach_record (p : positive) (c : nfs_client_record_t) : nfs_client_record_t :=
  let c := if decide (cr_confirmed_rec c = Some p) then set_cr_confirmed_rec None c else c in
  if decide (cr_unconfirmed_rec c = Some p) then set_cr_unconfirmed_rec None c else c.

Definition nfs_client_id_expire (p : positive) (make_stale : bool) : CM bool :=
  i ← get_id p;
  if decide (cid_confirmed i = EXPIRED_CLIENT_ID) then mret false else
  let ht_expire :=
    match cid_confirmed i with
    | CONFIRMED_CLIENT_ID | STALE_CLIENT_ID => confirmed_table
    | _ => unconfirmed_table
    end in
  upd_id p (set_cid_client_record None);;
  match cid_client_record i with
  | Some r => upd_rec r (detach_record p);; dec_client_record_ref r
  | None => mret tt
  end;;
  (if make_stale then upd_id p (set_cid_confirmed STALE_CLIENT_ID) else
     upd_id p (set_cid_confirmed EXPIRED_CLIENT_ID);;
     rc ← HashTable_Del ht_expire (cid_clientid i);
     i ← get_id p;
     rc ← match rc with
          | None =>
              if decide (cid_confirmed i = STALE_CLIENT_ID)
              then HashTable_Del unconfirmed_table (cid_clientid i)
              else mret None
          | Some _ => mret rc
          end;
     match rc with None => crash | Some _ => mret tt end);;
  i ← get_id p;
  expire_owners lock_owner state_nfs4_owner_unlock_all (length (cid_lockowners i)) p;;
  upd_id p (fun i => set_cid_owner_states (revoke_owner_layouts (cid_owner_states i)) i);;
  i ← get_id p;
  expire_owners open_owner release_openstate (length (cid_openowners i)) p;;
  upd_id p (fun i => set_cid_owner_states (revoke_owner_delegs (cid_owner_states i)) i);;
  del_sessions_ dec_client_id_ref p;;
  (if make_stale then mret tt else dec_client_id_ref p);;
  mret true.

End client.
