(* ===== verification/ClientOps.v ===== *)
(** * Client identities of NFSv4: the operations

    One definition per operation of Protocols/NFS that makes, confirms,
    renews or destroys a client id or a session: SETCLIENTID,
    SETCLIENTID_CONFIRM, EXCHANGE_ID, CREATE_SESSION, DESTROY_CLIENTID,
    DESTROY_SESSION and RENEW; what OPEN, LOCK and CLOSE do to a client id;
    and the reaper (MainNFSD/nfs_reaper_thread.c) and the release of an
    address (SAL/nfs4_recovery.c), which expire client ids.

    An operation on a client record holds the record's mutex from the lookup
    to its end, and is one step here.  The lookups of the client id before it
    are part of the step. *)
From S2P Require Import Prelude Status Owners ClientData.

(** What a request brings: the minor version, the credential and the client
    of the compound ([op_ctx->client]), the position of the operation in it
    and the address it came from. *)
Record request := mk_request {
  rq_minorversion : Z;
  rq_credential : nfs_client_cred_t;
  rq_client : option Z;
  rq_oppos : Z;
  rq_addr : sockaddr_t
}.

(** Where [data->cached_res] points. *)
Inductive cache_loc :=
| slot_cache (s : positive) (slot : nat)
| create_session_cache (p : positive).

Definition same_client (a b : option Z) : bool :=
  match a, b with Some x, Some y => x =? y | _, _ => false end.

Section client_ops.
Context `{Env : ClientEnv}.

(** ** SETCLIENTID *)

(** The cases of RFC 7530 by the confirmed client id of the record: [None]
    refuses the request, else the client id and the verifier to return. *)
Definition setclientid_case (rq : request) (verifier : Z) (conf : option positive)
    : CM (option (Z * Z)) :=
  match conf with
  | Some conf =>
      inc_client_id_ref conf;;
      i ← get_id conf;
      let credmatch := nfs_compare_clientcred (cid_credential i) (rq_credential rq)
                       && same_client (rq_client rq) (gsh_client i) in
      if negb credmatch && clientid_has_state i
      then dec_client_id_ref conf;; mret None
      else
        clientid ← (if credmatch && (verifier =? cid_incoming_verifier i)
                    then mret (cid_clientid i) else new_clientid);
        v ← new_clientid_verifier;
        dec_client_id_ref conf;;
        mret (Some (clientid, v))
  | None =>
      clientid ← new_clientid;
      v ← new_clientid_verifier;
      mret (Some (clientid, v))
  end.

Definition remove_unconf (r : positive) : CM unit :=
  c ← get_rec r;
  match cr_unconfirmed_rec c with
  | Some u => remove_unconfirmed_client_id u;; mret tt
  | None => mret tt
  end.

(** [sizeof(cb_client_r_addr)], [SOCK_NAME_MAX + 1]. *)
Definition r_addr_size : nat := 129.

Definition setclientid_locked (rq : request) (verifier : Z) (r_addr : list Z) (r : positive)
    : CM (nfsstat4 * option (Z * Z)) :=
  c ← get_rec r;
  case ← setclientid_case rq verifier (cr_confirmed_rec c);
  match case with
  | None => mret (NFS4ERR_CLID_INUSE, None)
  | Some (clientid, v) =>
      remove_unconf r;;
      p ← create_client_id clientid r (rq_credential rq) 0 (rq_client rq);
      if (r_addr_size <=? length r_addr)%nat then mret (NFS4ERR_INVAL, None) else
      upd_id p (fun i => set_cid_verifier v (set_cid_incoming_verifier verifier i));;
      rc ← nfs_client_id_insert p;
      if decide (rc = CLIENT_ID_SUCCESS) then mret (NFS4_OK, Some (clientid, v))
      else mret (clientid_error_to_nfsstat_no_expire rc, None)
  end.

Definition nfs4_op_setclientid (rq : request) (id_val : list Z) (verifier : Z)
    (r_addr : list Z) : CM (nfsstat4 * option (Z * Z)) :=
  if 0 <? rq_minorversion rq then mret (NFS4ERR_NOTSUPP, None) else
  client_record ← get_client_record id_val 0 0;
  match client_record with
  | None => mret (NFS4ERR_SERVERFAULT, None)
  | Some r =>
      res ← setclientid_locked rq verifier r_addr r;
      dec_client_record_ref r;;
      mret res
  end.

(** ** SETCLIENTID_CONFIRM *)

(** Looks for the client id in the unconfirmed and then in the confirmed
    table; SETCLIENTID_CONFIRM and CREATE_SESSION start with it. *)
Definition find_client_id (clientid : Z)
    : CM (clientid_status_t * option positive * option positive) :=
  '(rc, unconf) ← nfs_client_id_get unconfirmed_table clientid;
  if decide (rc = CLIENT_ID_SUCCESS) then mret (rc, unconf, None) else
  '(rc, conf) ← nfs_client_id_get confirmed_table clientid;
  mret (rc, None, conf).

Definition principal_matches (rq : request) (i : nfs_client_id_t) : bool :=
  nfs_compare_clientcred (cid_credential i) (rq_credential rq)
  && same_client (rq_client rq) (gsh_client i).

(** An old confirmed client id of the record with another number is expired;
    the reference that this takes on the confirmed one is the caller's. *)
Definition expire_old_conf (r : positive) (clientid : Z) : CM (option positive) :=
  c ← get_rec r;
  match cr_confirmed_rec c with
  | None => mret None
  | Some conf =>
      inc_client_id_ref conf;;
      i ← get_id conf;
      if cid_clientid i =? clientid then mret (Some conf) else
      nfs_client_id_expire conf false;;
      dec_client_id_ref conf;;
      mret None
  end.

(** [nfs_test_cb_chan] and [set_cb_chan_down]; [cb_up] is what the test
    of the callback channel finds. *)
Definition test_cb_chan (cb_up : bool) (p : positive) : CM unit :=
  upd_id p (set_cb_chan_down (allow_delegations && negb cb_up)).

Definition confirm_unconf (rq : request) (cb_up : bool) (clientid : Z) (r unconf : positive)
    : CM nfsstat4 :=
  conf ← expire_old_conf r clientid;
  match conf with
  | Some conf =>
      u ← get_id unconf;
      i ← get_id conf;
      match cb_session_list i with
      | Some _ => crash                    (* the callback data are a session list *)
      | None => mret tt
      end;;
      upd_id conf (set_cid_verifier (cid_verifier u));;
      remove_unconfirmed_client_id unconf;;
      dec_client_id_ref unconf;;
      test_cb_chan cb_up conf;;
      dec_client_id_ref conf;;
      mret NFS4_OK
  | None =>
      rc ← nfs_client_id_confirm unconf;
      if decide (rc = CLIENT_ID_SUCCESS) then
        test_cb_chan cb_up unconf;;
        dec_client_id_ref unconf;;
        mret NFS4_OK
      else
        dec_client_id_ref unconf;;
        mret (clientid_error_to_nfsstat_no_expire rc)
  end.

Definition setclientid_confirm_locked (rq : request) (cb_up : bool)
    (clientid verifier : Z) (r : positive) (unconf conf : option positive) : CM nfsstat4 :=
  match unconf, conf with
  | Some u, _ =>
      i ← get_id u;
      if negb (principal_matches rq i) then
        dec_client_id_ref u;; mret NFS4ERR_CLID_INUSE
      else if decide (cid_confirmed i = CONFIRMED_CLIENT_ID /\ cid_verifier i = verifier) then
        dec_client_id_ref u;; mret NFS4_OK
      else if negb (bool_decide (cid_confirmed i = UNCONFIRMED_CLIENT_ID)) then
        dec_client_id_ref u;; mret NFS4ERR_STALE_CLIENTID
      else confirm_unconf rq cb_up clientid r u
  | None, Some conf =>
      i ← get_id conf;
      let status :=
        if negb (principal_matches rq i) then NFS4ERR_CLID_INUSE
        else if cid_verifier i =? verifier then NFS4_OK
        else NFS4ERR_CLID_INUSE in
      dec_client_id_ref conf;;
      mret status
  | None, None => crash
  end.

Definition record_of (p : positive) : CM positive :=
  i ← get_id p;
  match cid_client_record i with Some r => mret r | None => crash end.

Definition nfs4_op_setclientid_confirm (rq : request) (cb_up : bool) (clientid verifier : Z)
    : CM nfsstat4 :=
  if 0 <? rq_minorversion rq then mret NFS4ERR_NOTSUPP else
  '(rc, unconf, conf) ← find_client_id clientid;
  match (match unconf with Some u => Some u | None => conf end) with
  | None => mret (clientid_error_to_nfsstat_no_expire rc)
  | Some found =>
      r ← record_of found;
      inc_client_record_ref r;;
      status ← setclientid_confirm_locked rq cb_up clientid verifier r unconf conf;
      dec_client_record_ref r;;
      mret status
  end.

(** ** EXCHANGE_ID *)

Definition EXCHGID4_FLAG_SUPP_MOVED_REFER : Z := 0x00000001.
Definition EXCHGID4_FLAG_SUPP_MOVED_MIGR : Z := 0x00000002.
Definition EXCHGID4_FLAG_BIND_PRINC_STATEID : Z := 0x00000100.
Definition EXCHGID4_FLAG_USE_NON_PNFS : Z := 0x00010000.
Definition EXCHGID4_FLAG_USE_PNFS_MDS : Z := 0x00020000.
Definition EXCHGID4_FLAG_USE_PNFS_DS : Z := 0x00040000.
Definition EXCHGID4_FLAG_MASK_PNFS : Z := 0x00070000.
Definition EXCHGID4_FLAG_UPD_CONFIRMED_REC_A : Z := 0x40000000.
Definition EXCHGID4_FLAG_CONFIRMED_R : Z := 0x80000000.

Definition exchange_id_flags : Z :=
  Z.lor (Z.lor (Z.lor EXCHGID4_FLAG_SUPP_MOVED_REFER EXCHGID4_FLAG_SUPP_MOVED_MIGR)
               (Z.lor EXCHGID4_FLAG_BIND_PRINC_STATEID EXCHGID4_FLAG_USE_NON_PNFS))
        (Z.lor (Z.lor EXCHGID4_FLAG_USE_PNFS_MDS EXCHGID4_FLAG_USE_PNFS_DS)
               (Z.lor EXCHGID4_FLAG_UPD_CONFIRMED_REC_A EXCHGID4_FLAG_CONFIRMED_R)).

(** [a & ~mask] of two 32 bit words. *)
Definition outside (a mask : Z) : Z := Z.land a (Z.lxor mask 4294967295).

(** The roles the client record is made for. *)
Definition exchange_pnfs_flags (eia_flags : Z) : Z :=
  let flags := Z.land eia_flags EXCHGID4_FLAG_MASK_PNFS in
  let add (c : bool) flag flags := if c then Z.lor flags flag else flags in
  let roles (mds ds : bool) flags :=
    let flags := add mds EXCHGID4_FLAG_USE_PNFS_MDS flags in
    let flags := add ds EXCHGID4_FLAG_USE_PNFS_DS flags in
    add (flags =? 0) EXCHGID4_FLAG_USE_NON_PNFS flags in
  if flags =? 0 then roles pnfs_mds pnfs_ds flags
  else
    let wants flag := negb (Z.land eia_flags flag =? 0) in
    roles (wants EXCHGID4_FLAG_USE_PNFS_MDS && pnfs_mds)
          (wants EXCHGID4_FLAG_USE_PNFS_DS && pnfs_ds) flags.

(** [eir_clientid], [eir_sequenceid] and [eir_flags]. *)
Definition exchange_res : Type := Z * Z * Z.

(** What the confirmed client id of the record decides: a status that ends
    the operation, the client id to return again, or to go on. *)
Inductive exchange_case :=
| exchange_fails (status : nfsstat4)
| exchange_again (conf : positive)
| exchange_new.

Definition exchange_conf_case (rq : request) (co_verifier : Z) (update : bool)
    (conf : option positive) : CM exchange_case :=
  match conf with
  | None => mret (if update then exchange_fails NFS4ERR_NOENT else exchange_new)
  | Some conf =>
      inc_client_id_ref conf;;
      i ← get_id conf;
      t ← time;
      if negb update then
        if negb (nfs_compare_clientcred (cid_credential i) (rq_credential rq)) then
          if negb (valid_lease t i) || negb (client_id_has_state i) then
            nfs_client_id_expire conf false;;
            dec_client_id_ref conf;;
            mret exchange_new
          else dec_client_id_ref conf;; mret (exchange_fails NFS4ERR_CLID_INUSE)
        else if co_verifier =? cid_incoming_verifier i then mret (exchange_again conf)
        else mret exchange_new
      else
        let status :=
          if co_verifier =? cid_incoming_verifier i then
            if negb (principal_matches rq i) then NFS4ERR_PERM else NFS4ERR_NOTSUPP
          else NFS4ERR_NOT_SAME in
        dec_client_id_ref conf;;
        mret (exchange_fails status)
  end.

Definition exchange_reply (r p : positive) (eir_flags : Z) : CM (nfsstat4 * option exchange_res) :=
  c ← get_rec r;
  i ← get_id p;
  mret (NFS4_OK,
    Some (cid_clientid i, cid_create_session_sequence i,
          Z.lor (Z.lor eir_flags (cr_pnfs_flags c)) EXCHGID4_FLAG_SUPP_MOVED_REFER)).

Definition exchange_id_locked (rq : request) (co_verifier : Z) (update hostname : bool)
    (r : positive) : CM (nfsstat4 * option exchange_res) :=
  c ← get_rec r;
  case ← exchange_conf_case rq co_verifier update (cr_confirmed_rec c);
  match case with
  | exchange_fails status => mret (status, None)
  | exchange_again conf => exchange_reply r conf EXCHGID4_FLAG_CONFIRMED_R
  | exchange_new =>
      remove_unconf r;;
      p ← create_client_id 0 r (rq_credential rq) (rq_minorversion rq) (rq_client rq);
      upd_id p (fun i => set_cid_create_session_sequence 1 (set_cb_session_list (Some [])
                           (set_cid_incoming_verifier co_verifier i)));;
      if negb hostname then free_client_id p;; mret (NFS4ERR_SERVERFAULT, None) else
      rc ← nfs_client_id_insert p;
      if decide (rc = CLIENT_ID_SUCCESS) then exchange_reply r p 0
      else mret (clientid_error_to_nfsstat_no_expire rc, None)
  end.

(** [server_addr] is [get_raddr] of the connection and [hostname] whether
    [gethostname] succeeds. *)
Definition nfs4_op_exchange_id (rq : request) (co_ownerid : list Z) (co_verifier : Z)
    (eia_flags server_addr : Z) (hostname : bool) : CM (nfsstat4 * option exchange_res) :=
  if rq_minorversion rq =? 0 then mret (NFS4ERR_INVAL, None) else
  if negb (outside eia_flags exchange_id_flags =? 0) then mret (NFS4ERR_INVAL, None) else
  let update := negb (Z.land eia_flags EXCHGID4_FLAG_UPD_CONFIRMED_REC_A =? 0) in
  client_record ← get_client_record co_ownerid (exchange_pnfs_flags eia_flags) server_addr;
  match client_record with
  | None => mret (NFS4ERR_SERVERFAULT, None)
  | Some r =>
      res ← exchange_id_locked rq co_verifier update hostname r;
      dec_client_record_ref r;;
      mret res
  end.

(** ** CREATE_SESSION *)

Definition CREATE_SESSION4_FLAG_PERSIST : Z := 0x00000001.
Definition CREATE_SESSION4_FLAG_CONN_BACK_CHAN : Z := 0x00000002.
Definition CREATE_SESSION4_FLAG_CONN_RDMA : Z := 0x00000004.

Definition create_session_flags : Z :=
  Z.lor CREATE_SESSION4_FLAG_PERSIST
    (Z.lor CREATE_SESSION4_FLAG_CONN_BACK_CHAN CREATE_SESSION4_FLAG_CONN_RDMA).

(** The reply ([csr_sessionid], [csr_sequence], [csr_flags]) and what the
    operation leaves in [data]: [use_drc] and [cached_res]. *)
Record create_session_res := mk_cs_res {
  csr_status : nfsstat4;
  csr_ok : option (sessionid4 * Z * Z);
  cs_use_drc : bool;
  cs_cached : option cache_loc
}.

Definition cs_error (status : nfsstat4) : create_session_res := mk_cs_res status None false None.

(** The session and its place in the list of the client id.  The memory
    comes zeroed. *)
Definition new_session (rq : request) (clientid maxoperations : Z) (found : positive)
    : CM (positive * sessionid4) :=
  s ← alloc;
  inc_client_id_ref found;;
  i ← get_id found;
  match cb_session_list i with
  | None => crash
  | Some l => put_id found (set_cb_session_list (Some (s :: l)) i)
  end;;
  sid ← nfs41_Build_sessionid clientid;
  put_session s (mk_session sid 2 clientid found (rq_addr rq)
    (Z.of_nat NFS41_NB_SLOTS) maxoperations (replicate NFS41_NB_SLOTS zero_slot));;
  mret (s, sid).

(** The client id that the session confirms or updates: the confirmed
    record afterwards, or the error. *)
Definition create_session_confirm (clientid : Z) (r : positive)
    (unconf conf : option positive) (sid : sessionid4) : CM (nfsstat4 + positive) :=
  conf ← match conf with
         | Some conf => mret (Some conf)
         | None => expire_old_conf r clientid
         end;
  match conf, unconf with
  | Some conf, _ =>
      match unconf with
      | Some u => remove_unconfirmed_client_id u;; dec_client_id_ref u
      | None => mret tt
      end;;
      mret (inr conf)
  | None, Some u =>
      rc ← nfs_client_id_confirm u;
      if decide (rc = CLIENT_ID_SUCCESS) then mret (inr u) else
      nfs41_Session_Del sid;;
      dec_client_id_ref u;;
      mret (inl (clientid_error_to_nfsstat_no_expire rc))
  | None, None => crash
  end.

Definition create_session_locked (rq : request) (clientid sequence flags maxoperations : Z)
    (back_chan : bool) (r found : positive) (unconf conf : option positive)
    : CM create_session_res :=
  i ← get_id found;
  if (rq_oppos rq =? 0) && (u32 (sequence + 1) =? cid_create_session_sequence i)
     && cache_used (cid_create_session_slot i) then
    dec_client_id_ref found;;
    mret (mk_cs_res NFS4_OK None true (Some (create_session_cache found)))
  else if (rq_oppos rq =? 0) && negb (sequence =? cid_create_session_sequence i) then
    dec_client_id_ref found;; mret (cs_error NFS4ERR_SEQ_MISORDERED)
  else if negb (nfs_compare_clientcred (cid_credential i) (rq_credential rq)) then
    dec_client_id_ref found;; mret (cs_error NFS4ERR_CLID_INUSE)
  else if negb (outside flags create_session_flags =? 0) then
    dec_client_id_ref found;; mret (cs_error NFS4ERR_INVAL)
  else
    '(s, sid) ← new_session rq clientid maxoperations found;
    let cached := Some (create_session_cache found) in
    upd_id found (fun i => set_cid_create_session_slot
      (mk_slot (slot_sequence (cid_create_session_slot i))
         (cached_result (cid_create_session_slot i)) true) i);;
    ok ← nfs41_Session_Set s;
    if negb ok then
      dec_session_ref s;; dec_session_ref s;; dec_client_id_ref found;;
      mret (mk_cs_res NFS4ERR_SERVERFAULT None false cached)
    else
    res ← create_session_confirm clientid r unconf conf sid;
    match res with
    | inl status => mret (mk_cs_res status None false cached)
    | inr conf =>
        t ← time;
        upd_id conf (fun i => set_cid_last_renew t
          (set_cid_create_session_sequence (u32 (cid_create_session_sequence i + 1)) i));;
        dec_client_id_ref conf;;
        dec_session_ref s;;
        let csr_flags :=
          if negb (Z.land flags CREATE_SESSION4_FLAG_CONN_BACK_CHAN =? 0) && back_chan
          then CREATE_SESSION4_FLAG_CONN_BACK_CHAN else 0 in
        mret (mk_cs_res NFS4_OK (Some (sid, sequence, csr_flags)) false cached)
    end.

(** [back_chan] is whether the back channel can be created. *)
Definition nfs4_op_create_session (rq : request) (clientid sequence flags maxoperations : Z)
    (back_chan : bool) : CM create_session_res :=
  if rq_minorversion rq =? 0 then mret (cs_error NFS4ERR_INVAL) else
  '(rc, unconf, conf) ← find_client_id clientid;
  match (match unconf with Some u => Some u | None => conf end) with
  | None => mret (cs_error (clientid_error_to_nfsstat_no_expire rc))
  | Some found =>
      r ← record_of found;
      inc_client_record_ref r;;
      res ← create_session_locked rq clientid sequence flags maxoperations back_chan
              r found unconf conf;
      dec_client_record_ref r;;
      mret res
  end.

(** ** DESTROY_CLIENTID, DESTROY_SESSION and RENEW *)

(** The second lookup in the confirmed table is for a client id that was
    confirmed after the first. *)
Definition destroy_find (clientid : Z) : CM (option positive) :=
  '(_, conf) ← nfs_client_id_get confirmed_table clientid;
  match conf with
  | Some conf => mret (Some conf)
  | None =>
      '(_, unconf) ← nfs_client_id_get unconfirmed_table clientid;
      '(_, conf) ← nfs_client_id_get confirmed_table clientid;
      match conf, unconf with
      | Some conf, Some u => dec_client_id_ref u;; mret (Some conf)
      | Some conf, None => mret (Some conf)
      | None, _ => mret unconf
      end
  end.

(** In the record of a v4.0 client the bytes of the session list are those of
    a mutex, which do not look like an empty list. *)
Definition no_sessions (i : nfs_client_id_t) : bool :=
  match cb_session_list i with Some [] => true | _ => false end.

Definition destroy_clientid_locked (r : positive) : CM nfsstat4 :=
  c ← get_rec r;
  let conf := cr_confirmed_rec c in
  let unconf := cr_unconfirmed_rec c in
  busy ← match conf with
         | Some conf => i ← get_id conf; mret (negb (no_sessions i))
         | None => mret false
         end;
  if busy : bool then mret NFS4ERR_CLIENTID_BUSY else
  match conf with
  | Some conf => remove_confirmed_client_id conf;; mret tt
  | None => mret tt
  end;;
  match unconf with
  | Some u => remove_unconfirmed_client_id u;; mret tt
  | None => mret tt
  end;;
  mret NFS4_OK.

Definition nfs4_op_destroy_clientid (clientid : Z) : CM nfsstat4 :=
  found ← destroy_find clientid;
  match found with
  | None => mret NFS4ERR_STALE_CLIENTID
  | Some found =>
      i ← get_id found;
      match cid_client_record i with
      | None => mret NFS4ERR_STALE_CLIENTID
      | Some r =>
          inc_client_record_ref r;;
          status ← destroy_clientid_locked r;
          dec_client_record_ref r;;
          dec_client_id_ref found;;
          mret status
      end
  end.

Definition nfs4_op_destroy_session (rq : request) (sid : sessionid4) : CM nfsstat4 :=
  if rq_minorversion rq =? 0 then mret NFS4ERR_INVAL else
  found ← nfs41_Session_Get_Pointer sid;
  match found with
  | None => mret NFS4ERR_BADSESSION
  | Some s =>
      x ← get_session s;
      if negb (cmp_sockaddr (rq_addr rq) (session_xprt x) false) then
        dec_session_ref s;; mret NFS4ERR_CONN_NOT_BOUND_TO_SESSION
      else
        ok ← nfs41_Session_Del sid;
        dec_session_ref s;;
        mret (if ok : bool then NFS4_OK else NFS4ERR_BADSESSION)
  end.

Definition nfs4_op_renew (rq : request) (clientid : Z) : CM nfsstat4 :=
  if 0 <? rq_minorversion rq then mret NFS4ERR_NOTSUPP else
  '(rc, found) ← nfs_client_id_get confirmed_table clientid;
  match found with
  | None => mret (clientid_error_to_nfsstat rc)
  | Some p =>
      valid ← reserve_lease p;
      status ←
        (if negb valid then mret NFS4ERR_EXPIRED else
         update_lease p;;
         i ← get_id p;
         t ← time;
         if allow_delegations && cb_chan_down i && negb (curr_deleg_grants i =? 0) then
           put_id p (set_first_path_down_resp_time
             (if first_path_down_resp_time i =? 0 then t else first_path_down_resp_time i) i);;
           mret NFS4ERR_CB_PATH_DOWN
         else put_id p (set_first_path_down_resp_time 0 i);; mret NFS4_OK);
      dec_client_id_ref p;;
      mret status
  end.

(** ** State on behalf of a client id

    What OPEN, LOCK and CLOSE do to a client id and its owners when they
    succeed: the lookup of the client id, its lease for the time of a v4.0
    operation, the owner, and the state that is linked to it or unlinked.  OPEN
    reserves the lease itself, for LOCK and CLOSE the check of the stateid does
    so until the end of the compound.  OPEN gives up its owner after the lease;
    in one step the order does not matter. *)

Definition with_lease (minorversion clientid : Z) (body : positive -> CM nfsstat4)
    : CM nfsstat4 :=
  '(rc, found) ← nfs_client_id_get confirmed_table clientid;
  match found with
  | None => mret (clientid_error_to_nfsstat rc)
  | Some p =>
      valid ← (if minorversion =? 0 then reserve_lease p else mret true);
      if negb valid then dec_client_id_ref p;; mret NFS4ERR_EXPIRED else
      status ← body p;
      (if minorversion =? 0 then update_lease p else mret tt);;
      dec_client_id_ref p;;
      mret status
  end.

Definition client_open (minorversion clientid : Z) (so : positive) (st : Z) : CM nfsstat4 :=
  with_lease minorversion clientid (fun p =>
    create_nfs4_owner open_owner p so None;;
    state_add open_owner p so st;;
    dec_state_owner_ref open_owner p so;;
    mret NFS4_OK).

Definition client_lock (minorversion clientid : Z) (so related : positive) (st : Z)
    : CM nfsstat4 :=
  with_lease minorversion clientid (fun p =>
    i ← get_id p;
    match find_owner related (cid_openowners i) with
    | None => mret NFS4ERR_BAD_STATEID
    | Some _ =>
        ok ← create_nfs4_owner lock_owner p so (Some related);
        if negb ok then mret NFS4ERR_RESOURCE else
        state_add lock_owner p so st;;
        dec_state_owner_ref lock_owner p so;;
        mret NFS4_OK
    end).

Definition client_close (minorversion clientid : Z) (k : owner_kind) (so : positive) (st : Z)
    : CM nfsstat4 :=
  with_lease minorversion clientid (fun p =>
    i ← get_id p;
    match find_owner so (owners_of k i) with
    | Some o =>
        if bool_decide (st ∈ so_state_list o)
        then state_del k p so st;; mret NFS4_OK
        else mret NFS4ERR_BAD_STATEID
    | None => mret NFS4ERR_BAD_STATEID
    end).

(** ** Expiry by the server *)

(** [PRIME_STATE] buckets; the order of a bucket is that of its tree. *)
Definition PRIME_STATE : Z := 17.

Definition client_id_value_hash_func (clientid : Z) : Z := u32 clientid mod PRIME_STATE.

Definition bucket (ht : cid_table) (index : Z) (w : client_world) : list positive :=
  snd <$> filter (fun kv : Z * positive => client_id_value_hash_func (fst kv) = index)
            (map_to_list (table_of ht w)).

(** The walk of a bucket: how many entries it saw, and the first whose lease
    is not valid. *)
Fixpoint reap_scan (l : list positive) : CM (Z * option positive) :=
  match l with
  | [] => mret (0, None)
  | p :: l =>
      i ← get_id p;
      t ← time;
      if valid_lease t i then '(n, found) ← reap_scan l; mret (n + 1, found)
      else mret (1, Some p)
  end.

(** What the reaper does with a client id it found expired, in two steps:
    the references it takes while it still holds the client id's mutex, and
    the expiry after it has waited for that of the record. *)
Definition reap_pin (p : positive) : CM (option positive) :=
  i ← get_id p;
  inc_client_id_ref p;;
  match cid_client_record i with
  | Some r => inc_client_record_ref r
  | None => mret tt
  end;;
  mret (cid_client_record i).

Definition reap_expire (p : positive) (client_rec : option positive) : CM unit :=
  nfs_client_id_expire p false;;
  match client_rec with
  | Some r => dec_client_record_ref r
  | None => mret tt
  end;;
  dec_client_id_ref p.

Fixpoint reap_bucket (ht : cid_table) (index : Z) (n : nat) (count : Z) : CM Z :=
  l ← gets (bucket ht index);
  '(seen, found) ← reap_scan l;
  match found, n with
  | None, _ => mret (count + seen)
  | Some _, O => crash
  | Some p, S n =>
      client_rec ← reap_pin p;
      reap_expire p client_rec;;
      reap_bucket ht index n (count + seen)
  end.

Fixpoint reap_buckets (ht : cid_table) (n : nat) (index count : Z) : CM Z :=
  match n with
  | O => mret count
  | S n =>
      l ← gets (bucket ht index);
      count ← reap_bucket ht index (length l) count;
      reap_buckets ht n (index + 1) count
  end.

Definition reap_hash_table (ht : cid_table) : CM Z :=
  reap_buckets ht (Z.to_nat PRIME_STATE) 0 0.

(** The part of [reaper_run] about client ids. *)
Definition reap_client_ids : CM Z :=
  n ← reap_hash_table confirmed_table;
  m ← reap_hash_table unconfirmed_table;
  mret (n + m).

(** [nfs_release_v4_client]; [ip_match] is the comparison with the address. *)
Definition release_candidate (ip_match : nfs_client_id_t -> bool) (w : client_world)
    (p : positive) : bool :=
  match w_ids w !! p with
  | Some i => bool_decide (cid_confirmed i = CONFIRMED_CLIENT_ID) && ip_match i
  | None => false
  end.

Definition nfs_release_v4_client (ip_match : nfs_client_id_t -> bool) : CM unit :=
  l ← gets (fun w => snd <$> map_to_list (ht_confirmed_client_id w));
  found ← gets (fun w => List.find (release_candidate ip_match w) l);
  match found with
  | None => mret tt
  | Some p =>
      client_rec ← reap_pin p;
      nfs_client_id_expire p true;;
      match client_rec with
      | Some r => dec_client_record_ref r
      | None => mret tt
      end;;
      dec_client_id_ref p
  end.

End client_ops.
