(* ===== verification/Compound.v ===== *)
(** * Compounds and sessions of NFSv4

    [nfs4_Compound] (Protocols/NFS/nfs4_Compound.c), which runs the operations
    of a request, and SEQUENCE (Protocols/NFS/nfs4_op_sequence.c), which binds
    a v4.1 request to a slot of a session: a request with the next sequence
    number runs and its reply is kept in the slot, one with the same number
    gets the reply that was kept.

    The operations of ClientOps.v are run as they are; the others change the
    state of files and are a parameter, [FileOps].  A compound is also given
    one operation at a time, for others to run in between. *)
From S2P Require Import Prelude Status Owners ClientData ClientOps.

(** The operations, and whether their preconditions on the file handle and
    the permissions of the export hold ([exp_perm_flags]).  [files] is what
    they work on, the current file handle of the compound included. *)
Class FileOps := {
  files : Type;
  op_permitted : Z -> files -> nfsstat4;
  other_op : Z -> list Z -> files -> nfsstat4 * list Z * files
}.

(** [nfs_argop4], with the operations that ClientOps.v has; the last one is
    any other, with its number and its arguments. *)
Inductive nfs_argop4 :=
| OP_SEQUENCE (sa_sessionid : sessionid4) (sa_sequenceid sa_slotid : Z) (back_chan : bool)
| OP_SETCLIENTID (id_val : list Z) (verifier : Z) (r_addr : list Z)
| OP_SETCLIENTID_CONFIRM (cb_up : bool) (clientid verifier : Z)
| OP_RENEW (clientid : Z)
| OP_EXCHANGE_ID (co_ownerid : list Z) (co_verifier eia_flags server_addr : Z) (hostname : bool)
| OP_CREATE_SESSION (clientid sequence flags maxoperations : Z) (back_chan : bool)
| OP_DESTROY_SESSION (dsa_sessionid : sessionid4)
| OP_DESTROY_CLIENTID (clientid : Z)
| OP_OPEN (clientid : Z) (so : positive) (st : Z)
| OP_LOCK (clientid : Z) (so related : positive) (st : Z)
| OP_CLOSE (clientid : Z) (k : owner_kind) (so : positive) (st : Z)
| OP_other (opcode : Z) (args : list Z).

(** [nfs_opnum4]. *)
Definition NFS4_OP_CLOSE : Z := 4.
Definition NFS4_OP_LOCK : Z := 12.
Definition NFS4_OP_OPEN : Z := 18.
Definition NFS4_OP_RENEW : Z := 30.
Definition NFS4_OP_SETCLIENTID : Z := 35.
Definition NFS4_OP_SETCLIENTID_CONFIRM : Z := 36.
Definition NFS4_OP_RELEASE_LOCKOWNER : Z := 39.
Definition NFS4_OP_BIND_CONN_TO_SESSION : Z := 41.
Definition NFS4_OP_EXCHANGE_ID : Z := 42.
Definition NFS4_OP_CREATE_SESSION : Z := 43.
Definition NFS4_OP_DESTROY_SESSION : Z := 44.
Definition NFS4_OP_SEQUENCE : Z := 53.
Definition NFS4_OP_DESTROY_CLIENTID : Z := 57.
Definition NFS4_OP_RECLAIM_COMPLETE : Z := 58.
Definition NFS4_OP_REMOVEXATTR : Z := 75.
Definition NFS4_OP_ILLEGAL : Z := 10044.

Definition argop (op : nfs_argop4) : Z :=
  match op with
  | OP_SEQUENCE _ _ _ _ => NFS4_OP_SEQUENCE
  | OP_SETCLIENTID _ _ _ => NFS4_OP_SETCLIENTID
  | OP_SETCLIENTID_CONFIRM _ _ _ => NFS4_OP_SETCLIENTID_CONFIRM
  | OP_RENEW _ => NFS4_OP_RENEW
  | OP_EXCHANGE_ID _ _ _ _ _ => NFS4_OP_EXCHANGE_ID
  | OP_CREATE_SESSION _ _ _ _ _ => NFS4_OP_CREATE_SESSION
  | OP_DESTROY_SESSION _ => NFS4_OP_DESTROY_SESSION
  | OP_DESTROY_CLIENTID _ => NFS4_OP_DESTROY_CLIENTID
  | OP_OPEN _ _ _ => NFS4_OP_OPEN
  | OP_LOCK _ _ _ _ => NFS4_OP_LOCK
  | OP_CLOSE _ _ _ _ => NFS4_OP_CLOSE
  | OP_other opcode _ => opcode
  end.

Definition LastOpcode (minorversion : Z) : Z :=
  if minorversion =? 0 then NFS4_OP_RELEASE_LOCKOWNER
  else if minorversion =? 1 then NFS4_OP_RECLAIM_COMPLETE
  else NFS4_OP_REMOVEXATTR.

(** A request: what ClientOps.v needs of it, whether its tag is valid UTF-8
    and its credential has a flavour the server knows, and its operations. *)
Record COMPOUND4args := mk_args {
  c_rq : request;
  c_tag : bool;
  c_cred : bool;
  argarray : list nfs_argop4
}.

Inductive compound_answer :=
| NFS_REQ_DROP
| NFS_REQ_OK (res : compound_res).

(** The part of [compound_data_t] that outlives an operation. *)
Record compound_data_t := mk_data {
  oppos : Z;
  cached_res : option cache_loc;
  use_drc : bool;
  session : option positive;
  sequence : Z;
  slot : Z;
  preserved_clientid : option positive
}.

Definition zero_data : compound_data_t := mk_data 0 None false None 0 0 None.

Definition set_oppos v (d : compound_data_t) : compound_data_t :=
  mk_data v (cached_res d) (use_drc d) (session d) (sequence d) (slot d) (preserved_clientid d).
Definition set_cached v (d : compound_data_t) : compound_data_t :=
  mk_data (oppos d) v (use_drc d) (session d) (sequence d) (slot d) (preserved_clientid d).
Definition set_use_drc v (d : compound_data_t) : compound_data_t :=
  mk_data (oppos d) (cached_res d) v (session d) (sequence d) (slot d) (preserved_clientid d).
Definition set_preserved v (d : compound_data_t) : compound_data_t :=
  mk_data (oppos d) (cached_res d) (use_drc d) (session d) (sequence d) (slot d) v.
Definition set_session v sq sl (d : compound_data_t) : compound_data_t :=
  mk_data (oppos d) (cached_res d) (use_drc d) v sq sl (preserved_clientid d).

Definition set_res_cached v (r : compound_res) : compound_res :=
  mk_res (res_status r) (res_array r) v.

(** The bytes of a session id on a little-endian machine, and whether
    [strncmp] finds two of them equal. *)
Definition uint64_bytes (z : Z) : list Z :=
  (fun n => Z.land (Z.shiftr z (8 * n)) 255) <$> [0; 1; 2; 3; 4; 5; 6; 7].

Definition sessionid_bytes (sid : sessionid4) : list Z :=
  uint64_bytes (fst sid) ++ uint64_bytes (snd sid).

Fixpoint strncmp_equal (a b : list Z) : bool :=
  match a, b with
  | x :: a, y :: b => (x =? y) && ((x =? 0) || strncmp_equal a b)
  | _, _ => true
  end.

Definition SEQ4_STATUS_CB_PATH_DOWN : Z := 0x00000001.

Section compound.
Context `{Env : ClientEnv} {Ops : FileOps}.

(** ** SEQUENCE *)

Definition set_slot (n : nat) (v : nfs41_session_slot_t) (x : nfs41_session_t) : nfs41_session_t :=
  set_slots (<[n := v]> (slots x)) x.

(** [back_chan] is whether the client has a back channel.  Each branch but
    the last gives the session back; the reservation of the lease stays, for
    the end of the compound. *)
Definition nfs4_op_sequence (rq : request) (sa_sessionid : sessionid4)
    (sa_sequenceid sa_slotid : Z) (back_chan : bool) (data : compound_data_t)
    : CM (nfsstat4 * list Z * compound_data_t) :=
  if rq_minorversion rq =? 0 then mret (NFS4ERR_INVAL, [], data) else
  if negb (oppos data =? 0) then mret (NFS4ERR_SEQUENCE_POS, [], data) else
  found ← nfs41_Session_Get_Pointer sa_sessionid;
  match found with
  | None => mret (NFS4ERR_BADSESSION, [], data)
  | Some s =>
      x ← get_session s;
      valid ← reserve_lease (clientid_record x);
      if negb valid then dec_session_ref s;; mret (NFS4ERR_EXPIRED, [], data) else
      let data := set_preserved (Some (clientid_record x)) data in
      if ca_maxrequests x <=? sa_slotid
      then dec_session_ref s;; mret (NFS4ERR_BADSLOT, [], data) else
      let data := set_use_drc false data in
      match slots x !! Z.to_nat sa_slotid with
      | None => crash
      | Some sl =>
          if negb (u32 (slot_sequence sl + 1) =? sa_sequenceid) then
            if slot_sequence sl =? sa_sequenceid then
              dec_session_ref s;;
              mret (NFS4_OK, [],
                set_cached (Some (slot_cache s (Z.to_nat sa_slotid))) (set_use_drc true data))
            else dec_session_ref s;; mret (NFS4ERR_SEQ_MISORDERED, [], data)
          else
            let sq := u32 (slot_sequence sl + 1) in
            upd_session s (set_slot (Z.to_nat sa_slotid) (mk_slot sq (cached_result sl) true));;
            mret (NFS4_OK,
              [fst sa_sessionid; snd sa_sessionid; sq; sa_slotid; Z.of_nat NFS41_NB_SLOTS - 1;
               ca_maxrequests x - 1; if back_chan then 0 else SEQ4_STATUS_CB_PATH_DOWN],
              set_cached (Some (slot_cache s (Z.to_nat sa_slotid)))
                (set_session (Some s) sa_sequenceid sa_slotid data))
      end
  end.

(** ** One operation *)

Definition at_position (pos : Z) (rq : request) : request :=
  mk_request (rq_minorversion rq) (rq_credential rq) (rq_client rq) pos (rq_addr rq).

(** The client id an operation works for: its argument, or that of the
    session. *)
Definition client_of (rq : request) (clientid : Z) (data : compound_data_t) : CM Z :=
  if rq_minorversion rq =? 0 then mret clientid else
  match session data with
  | Some s => x ← get_session s; mret (session_clientid x)
  | None => crash
  end.

(** What the entry of [optabv4] does: the status, the rest of the result and
    the data of the compound. *)
Definition run_op (rq : request) (op : nfs_argop4) (data : compound_data_t) (fs : files)
    : CM (nfsstat4 * list Z * compound_data_t * files) :=
  let rq := at_position (oppos data) rq in
  match op with
  | OP_SEQUENCE sid sequenceid slotid back_chan =>
      '(status, body, data) ← nfs4_op_sequence rq sid sequenceid slotid back_chan data;
      mret (status, body, data, fs)
  | OP_SETCLIENTID id_val verifier r_addr =>
      '(status, res) ← nfs4_op_setclientid rq id_val verifier r_addr;
      mret (status, match res with Some (clientid, v) => [clientid; v] | None => [] end, data, fs)
  | OP_SETCLIENTID_CONFIRM cb_up clientid verifier =>
      status ← nfs4_op_setclientid_confirm rq cb_up clientid verifier;
      mret (status, [], data, fs)
  | OP_RENEW clientid => status ← nfs4_op_renew rq clientid; mret (status, [], data, fs)
  | OP_EXCHANGE_ID co_ownerid co_verifier eia_flags server_addr hostname =>
      '(status, res) ← nfs4_op_exchange_id rq co_ownerid co_verifier eia_flags server_addr hostname;
      mret (status,
        match res with Some (clientid, sq, flags) => [clientid; sq; flags] | None => [] end, data, fs)
  | OP_CREATE_SESSION clientid sq flags maxoperations back_chan =>
      res ← nfs4_op_create_session rq clientid sq flags maxoperations back_chan;
      let data := set_use_drc (cs_use_drc res) data in
      mret (csr_status res,
        match csr_ok res with Some (sid, sq, flags) => [fst sid; snd sid; sq; flags] | None => [] end,
        match cs_cached res with Some loc => set_cached (Some loc) data | None => data end, fs)
  | OP_DESTROY_SESSION sid =>
      status ← nfs4_op_destroy_session rq sid; mret (status, [], data, fs)
  | OP_DESTROY_CLIENTID clientid =>
      status ← nfs4_op_destroy_clientid clientid; mret (status, [], data, fs)
  | OP_OPEN clientid so st =>
      clientid ← client_of rq clientid data;
      status ← client_open (rq_minorversion rq) clientid so st; mret (status, [], data, fs)
  | OP_LOCK clientid so related st =>
      clientid ← client_of rq clientid data;
      status ← client_lock (rq_minorversion rq) clientid so related st; mret (status, [], data, fs)
  | OP_CLOSE clientid k so st =>
      clientid ← client_of rq clientid data;
      status ← client_close (rq_minorversion rq) clientid k so st; mret (status, [], data, fs)
  | OP_other opcode args =>
      let '(status, body, fs) := other_op opcode args fs in mret (status, body, data, fs)
  end.

(** The operations with [exp_perm_flags]: the others of ClientOps.v need no
    file handle. *)
Definition needs_permission (op : nfs_argop4) : bool :=
  match op with
  | OP_OPEN _ _ _ | OP_LOCK _ _ _ _ | OP_CLOSE _ _ _ _ | OP_other _ _ => true
  | _ => false
  end.

(** The body of the loop: the checks before an operation, which end the
    compound when they fail, and the operation.  BIND_CONN_TO_SESSION has
    [nfs4_op_illegal] in [optabv4]. *)
Definition one_op (rq : request) (op : nfs_argop4) (data : compound_data_t)
    (results : list (Z * nfsstat4 * list Z)) (fs : files)
    : CM (nfsstat4 * compound_data_t * list (Z * nfsstat4 * list Z) * files) :=
  let bad_op_state status := mret (status, data, results ++ [(argop op, status, [])], fs) in
  if (0 <? oppos data) && (argop op =? NFS4_OP_BIND_CONN_TO_SESSION)
  then bad_op_state NFS4ERR_NOT_ONLY_OP else
  let illegal := (LastOpcode (rq_minorversion rq) <? argop op)
                 || (argop op =? NFS4_OP_BIND_CONN_TO_SESSION) in
  too_many ← match session data with
             | Some s => x ← get_session s;
                 mret ((0 <? rq_minorversion rq) && (ca_maxoperations x =? oppos data))
             | None => mret false
             end;
  if too_many : bool then bad_op_state NFS4ERR_TOO_MANY_OPS else
  if illegal then
    mret (NFS4ERR_OP_ILLEGAL, data,
      results ++ [(NFS4_OP_ILLEGAL, NFS4ERR_OP_ILLEGAL, [])], fs) else
  let status := if needs_permission op then op_permitted (argop op) fs else NFS4_OK in
  if negb (bool_decide (status = NFS4_OK)) then bad_op_state status else
  '(status, body, data, fs) ← run_op rq op data fs;
  mret (status, data, results ++ [(argop op, status, body)], fs).

(** ** The end of a compound *)

Definition load_reply (loc : cache_loc) : CM compound_res :=
  match loc with
  | slot_cache s n =>
      x ← get_session s;
      match slots x !! n with Some sl => mret (cached_result sl) | None => crash end
  | create_session_cache p => i ← get_id p; mret (cached_result (cid_create_session_slot i))
  end.

Definition set_cached_result (r : compound_res) (sl : nfs41_session_slot_t) : nfs41_session_slot_t :=
  mk_slot (slot_sequence sl) r (cache_used sl).

Definition save_reply (loc : cache_loc) (r : compound_res) : CM unit :=
  match loc with
  | slot_cache s n =>
      x ← get_session s;
      match slots x !! n with
      | Some sl => put_session s (set_slot n (set_cached_result r sl) x)
      | None => crash
      end
  | create_session_cache p =>
      upd_id p (fun i => set_cid_create_session_slot
                           (set_cached_result r (cid_create_session_slot i)) i)
  end.

(** From the end of the loop: a replayed reply is read from the cache, and
    another one is saved where [cached_res] points; the lease is renewed and
    the session given back. *)
Definition compound_finish (status : nfsstat4) (data : compound_data_t)
    (results : list (Z * nfsstat4 * list Z)) : CM compound_res :=
  reply ← match cached_res data with
          | Some loc =>
              if use_drc data then load_reply loc else
              let reply := mk_res status results true in
              save_reply loc reply;; mret reply
          | None => mret (mk_res status results false)
          end;
  match preserved_clientid data with
  | Some p => update_lease p
  | None => mret tt
  end;;
  match session data with
  | Some s => dec_session_ref s
  | None => mret tt
  end;;
  mret reply.

(** ** The compound *)

(** The checks before the loop; [Some] is the status of an empty reply. *)
Definition compound_check (a : COMPOUND4args) : option nfsstat4 :=
  if 2 <? rq_minorversion (c_rq a) then Some NFS4ERR_MINOR_VERS_MISMATCH
  else if negb (c_tag a) then Some NFS4ERR_INVAL
  else match argarray a with
       | [] => Some NFS4_OK
       | _ => if (100 <? length (argarray a))%nat then Some NFS4ERR_RESOURCE else None
       end.

Definition starts_compound (opcode : Z) : bool :=
  existsb (Z.eqb opcode)
    [NFS4_OP_ILLEGAL; NFS4_OP_SEQUENCE; NFS4_OP_EXCHANGE_ID; NFS4_OP_CREATE_SESSION;
     NFS4_OP_DESTROY_SESSION; NFS4_OP_BIND_CONN_TO_SESSION; NFS4_OP_DESTROY_CLIENTID].

Definition only_op (opcode : Z) : bool :=
  existsb (Z.eqb opcode)
    [NFS4_OP_EXCHANGE_ID; NFS4_OP_CREATE_SESSION; NFS4_OP_DESTROY_CLIENTID;
     NFS4_OP_DESTROY_SESSION; NFS4_OP_BIND_CONN_TO_SESSION].

(** The checks for v4.1. *)
Definition session_check (a : COMPOUND4args) : option nfsstat4 :=
  if rq_minorversion (c_rq a) <=? 0 then None else
  match argarray a with
  | [] => None
  | op :: rest =>
      if negb (starts_compound (argop op)) then Some NFS4ERR_OP_NOT_IN_SESSION
      else if (0 <? length rest)%nat && only_op (argop op) then Some NFS4ERR_NOT_ONLY_OP
      else match op, rest with
           | OP_SEQUENCE sid _ _ _, OP_DESTROY_SESSION sid' :: _ :: _ =>
               if strncmp_equal (sessionid_bytes sid) (sessionid_bytes sid')
               then Some NFS4ERR_NOT_ONLY_OP else None
           | _, _ => None
           end
  end.

(** Whether an operation ends the loop. *)
Definition stops (status : nfsstat4) (data : compound_data_t) : bool :=
  negb (bool_decide (status = NFS4_OK)) || use_drc data.

Fixpoint compound_loop (rq : request) (ops : list nfs_argop4) (data : compound_data_t)
    (results : list (Z * nfsstat4 * list Z)) (fs : files) : CM (compound_res * files) :=
  match ops with
  | [] => reply ← compound_finish NFS4_OK data results; mret (reply, fs)
  | op :: ops =>
      '(status, data, results, fs) ← one_op rq op data results fs;
      if stops status data
      then reply ← compound_finish status data results; mret (reply, fs)
      else compound_loop rq ops (set_oppos (oppos data + 1) data) results fs
  end.

(** What a request meets before its first operation. *)
Definition compound_answered (a : COMPOUND4args) : option compound_answer :=
  match compound_check a with
  | Some status => Some (NFS_REQ_OK (mk_res status [] false))
  | None =>
      if negb (c_cred a) then Some NFS_REQ_DROP else
      match session_check a with
      | Some status => Some (NFS_REQ_OK (mk_res status [] false))
      | None => None
      end
  end.

Definition nfs4_Compound (a : COMPOUND4args) (fs : files) : CM (compound_answer * files) :=
  match compound_answered a with
  | Some answer => mret (answer, fs)
  | None =>
      '(reply, fs) ← compound_loop (c_rq a) (argarray a) zero_data [] fs;
      mret (NFS_REQ_OK reply, fs)
  end.

(** ** A compound by steps *)

(** A compound in progress: the operations that are left, of which there is
    one. *)
Record flight := mk_flight {
  fl_rq : request;
  fl_op : nfs_argop4;
  fl_rest : list nfs_argop4;
  fl_data : compound_data_t;
  fl_results : list (Z * nfsstat4 * list Z)
}.

Inductive outcome :=
| finished (answer : compound_answer)
| running (fl : flight).

(** The next operation, with the end of the compound when it is the last. *)
Definition advance (fl : flight) (fs : files) : CM (outcome * files) :=
  '(status, data, results, fs) ← one_op (fl_rq fl) (fl_op fl) (fl_data fl) (fl_results fl) fs;
  if stops status data
  then reply ← compound_finish status data results; mret (finished (NFS_REQ_OK reply), fs)
  else match fl_rest fl with
       | [] => reply ← compound_finish NFS4_OK data results; mret (finished (NFS_REQ_OK reply), fs)
       | op :: rest =>
           mret (running (mk_flight (fl_rq fl) op rest (set_oppos (oppos data + 1) data) results), fs)
       end.

Definition start_compound (a : COMPOUND4args) (fs : files) : CM (outcome * files) :=
  match compound_answered a, argarray a with
  | Some answer, _ => mret (finished answer, fs)
  | None, op :: rest => advance (mk_flight (c_rq a) op rest zero_data []) fs
  | None, [] => mret (finished NFS_REQ_DROP, fs)          (* not reached *)
  end.

End compound.
