(* ===== verification/ClientInv.v ===== *)
(** * Client identities of NFSv4: the invariant of the tables

    The invariant says how the client ids, the client records, the sessions
    and the three tables agree, and that every reference count covers the
    holders of the object.  The lemmas show that each primitive of
    ClientData.v has an outcome in a world with the invariant and keeps it;
    the references that a running operation holds are parameters of it. *)
From S2P Require Import Prelude Status Owners ClientData.

(** ** Outcomes *)

(** The step has an outcome, and it satisfies [Q]. *)
Definition wp {A} (m : CM A) (Q : A -> client_world -> Prop) (w : client_world) : Prop :=
  match m w with Some (a, w') => Q a w' | None => False end.

Lemma wp_ret {A} (a : A) Q w : Q a w -> wp (mret a) Q w.
Proof. done. Qed.

Lemma wp_bind {A B} (m : CM A) (k : A -> CM B) Q w :
  wp m (fun a => wp (k a) Q) w -> wp (m ≫= k) Q w.
Proof. unfold wp, mbind, CM_bind. by destruct (m w) as [[a w']|]. Qed.

Lemma wp_mono {A} (m : CM A) (Q Q' : A -> client_world -> Prop) w :
  wp m Q w -> (forall a w', Q a w' -> Q' a w') -> wp m Q' w.
Proof. unfold wp. destruct (m w) as [[a w']|]; auto. Qed.

Lemma wp_seq {A B} (m : CM A) (k : A -> CM B) R Q w :
  wp m R w -> (forall a w', R a w' -> wp (k a) Q w') -> wp (m ≫= k) Q w.
Proof. intros Hm Hk. apply wp_bind. eapply wp_mono; eauto. Qed.

Lemma wp_assoc {A B C} (m : CM A) (n : CM B) (k : B -> CM C) Q w :
  wp ((m;; n) ≫= k) Q w -> wp (m;; n ≫= k) Q w.
Proof. unfold wp, mbind, CM_bind. by destruct (m w) as [[a w']|]. Qed.

Lemma wp_gets {A} (f : client_world -> A) Q w : Q (f w) w -> wp (gets f) Q w.
Proof. done. Qed.

Lemma wp_modify f (Q : unit -> client_world -> Prop) w : Q tt (f w) -> wp (modify f) Q w.
Proof. done. Qed.

Lemma wp_time Q w : Q (w_time w) w -> wp time Q w.
Proof. done. Qed.

Lemma wp_get_id p i Q w : w_ids w !! p = Some i -> Q i w -> wp (get_id p) Q w.
Proof. intros H HQ. unfold wp, get_id. by rewrite H. Qed.

Lemma wp_get_rec r c Q w : w_recs w !! r = Some c -> Q c w -> wp (get_rec r) Q w.
Proof. intros H HQ. unfold wp, get_rec. by rewrite H. Qed.

Lemma wp_get_session s x Q w : w_sessions w !! s = Some x -> Q x w -> wp (get_session s) Q w.
Proof. intros H HQ. unfold wp, get_session. by rewrite H. Qed.

Lemma wp_upd_id p f i (Q : unit -> client_world -> Prop) w :
  w_ids w !! p = Some i -> Q tt (set_w_ids (<[p := f i]> (w_ids w)) w) -> wp (upd_id p f) Q w.
Proof. intros H HQ. unfold upd_id. apply wp_bind. by eapply wp_get_id. Qed.

Lemma wp_upd_rec r f c (Q : unit -> client_world -> Prop) w :
  w_recs w !! r = Some c -> Q tt (set_w_recs (<[r := f c]> (w_recs w)) w) ->
  wp (upd_rec r f) Q w.
Proof. intros H HQ. unfold upd_rec. apply wp_bind. by eapply wp_get_rec. Qed.

Lemma wp_upd_session s f x (Q : unit -> client_world -> Prop) w :
  w_sessions w !! s = Some x -> Q tt (set_w_sessions (<[s := f x]> (w_sessions w)) w) ->
  wp (upd_session s f) Q w.
Proof. intros H HQ. unfold upd_session. apply wp_bind. by eapply wp_get_session. Qed.

(** Runs the next primitive. *)
Ltac wp_step :=
  match goal with
  | |- wp (_ ≫= _) _ _ => apply wp_bind; wp_step
  | |- wp (mret _) _ _ => apply wp_ret
  | |- wp (gets _) _ _ => apply wp_gets
  | |- wp time _ _ => apply wp_time
  | |- wp (modify _) _ _ => apply wp_modify
  | |- wp (put_id _ _) _ _ => apply wp_modify
  | |- wp (put_rec _ _) _ _ => apply wp_modify
  | |- wp (put_session _ _) _ _ => apply wp_modify
  | |- wp (get_id _) _ _ => eapply wp_get_id; [eassumption|]
  | |- wp (get_rec _) _ _ => eapply wp_get_rec; [eassumption|]
  | |- wp (get_session _) _ _ => eapply wp_get_session; [eassumption|]
  | |- wp (upd_id _ _) _ _ => eapply wp_upd_id; [eassumption|]
  | |- wp (upd_rec _ _) _ _ => eapply wp_upd_rec; [eassumption|]
  | |- wp (upd_session _ _) _ _ => eapply wp_upd_session; [eassumption|]
  end.

(** ** Counting *)

Definition b2z (b : bool) : Z := if b then 1 else 0.

(** How often a pointer is in a list of held references. *)
Definition cnt (p : positive) (l : list positive) : Z :=
  Z.of_nat (length (filter (fun q => q = p) l)).

Lemma cnt_cons p q l : cnt p (q :: l) = b2z (bool_decide (q = p)) + cnt p l.
Proof.
  unfold cnt. rewrite filter_cons. case_decide as E; subst; cbn [length].
  - rewrite bool_decide_true by done. cbn [b2z]. lia.
  - rewrite bool_decide_false by done. cbn [b2z]. lia.
Qed.

Lemma cnt_nonneg p l : 0 <= cnt p l.
Proof. unfold cnt. lia. Qed.

Lemma cnt_elem p l : 0 < cnt p l <-> p ∈ l.
Proof.
  unfold cnt. split.
  - intros H. destruct (filter (fun q => q = p) l) as [|q l'] eqn:E; [cbn in H; lia|].
    assert (q ∈ filter (fun q => q = p) l) as Hq by (rewrite E; left).
    apply list_elem_of_filter in Hq as [-> ?]. done.
  - intros Hp. assert (p ∈ filter (fun q => q = p) l) as Hq by (by apply list_elem_of_filter).
    destruct (filter _ l); [by apply elem_of_nil in Hq|]. cbn. lia.
Qed.

Lemma cnt_zero p l : p ∉ l -> cnt p l = 0.
Proof. intros H. pose proof (cnt_nonneg p l). rewrite <- cnt_elem in H. lia. Qed.

Lemma cnt_perm p l l' : l ≡ₚ l' -> cnt p l = cnt p l'.
Proof. intros H. unfold cnt. by rewrite H. Qed.

(** How many values of a store satisfy a test. *)
Definition cntm {A} (P : A -> bool) (m : gmap positive A) : Z :=
  Z.of_nat (length (filter (fun kv => P kv.2 = true) (map_to_list m))).

Lemma cntm_insert_fresh {A} (P : A -> bool) (m : gmap positive A) p x :
  m !! p = None -> cntm P (<[p := x]> m) = b2z (P x) + cntm P m.
Proof.
  intros H. unfold cntm. rewrite map_to_list_insert by done. rewrite filter_cons.
  cbn [snd]. destruct (P x) eqn:E; [rewrite decide_True by done|rewrite decide_False by done];
    cbn [length b2z]; lia.
Qed.

Lemma cntm_delete {A} (P : A -> bool) (m : gmap positive A) p x :
  m !! p = Some x -> cntm P m = b2z (P x) + cntm P (delete p m).
Proof.
  intros H. rewrite <- (cntm_insert_fresh P (delete p m) p x) by apply lookup_delete_eq.
  by rewrite insert_delete_id.
Qed.

Lemma cntm_insert {A} (P : A -> bool) (m : gmap positive A) p x y :
  m !! p = Some x -> cntm P (<[p := y]> m) = cntm P m - b2z (P x) + b2z (P y).
Proof.
  intros H. rewrite (cntm_delete P m p x H).
  rewrite (cntm_delete P (<[p := y]> m) p y) by apply lookup_insert_eq.
  rewrite delete_insert_eq. lia.
Qed.

Lemma cntm_nonneg {A} (P : A -> bool) (m : gmap positive A) : 0 <= cntm P m.
Proof. unfold cntm. lia. Qed.

Lemma cntm_pos {A} (P : A -> bool) (m : gmap positive A) p x :
  m !! p = Some x -> P x = true -> 1 <= cntm P m.
Proof. intros H E. rewrite (cntm_delete P m p x H), E. pose proof (cntm_nonneg P (delete p m)). cbn. lia. Qed.

(** ** The invariant *)

Definition ident (i : nfs_client_id_t) : Z * nfs_clientid_confirm_state_t * option positive :=
  (cid_clientid i, cid_confirmed i, cid_client_record i).
Definition ptrs (c : nfs_client_record_t) : option positive * option positive :=
  (cr_confirmed_rec c, cr_unconfirmed_rec c).

(** The tables of client ids, the states of the client ids and the pointers
    of the client records agree.  An unconfirmed client id may be in no table:
    while it is created. *)
Record tab_ok (idv : gmap positive (Z * nfs_clientid_confirm_state_t * option positive))
    (recv : gmap positive (option positive * option positive))
    (hc hu : gmap Z positive) : Prop := {
  tab_conf c p : hc !! c = Some p -> exists st r,
    idv !! p = Some (c, st, r) /\ (st = CONFIRMED_CLIENT_ID \/ st = STALE_CLIENT_ID);
  tab_unconf c p : hu !! c = Some p -> exists r a,
    idv !! p = Some (c, UNCONFIRMED_CLIENT_ID, Some r) /\ recv !! r = Some (a, Some p);
  tab_confirmed p c r : idv !! p = Some (c, CONFIRMED_CLIENT_ID, r) ->
    hc !! c = Some p /\ exists r' a, r = Some r' /\ recv !! r' = Some (Some p, a);
  tab_stale p c r : idv !! p = Some (c, STALE_CLIENT_ID, r) -> hc !! c = Some p /\ r = None;
  tab_rec_conf r p a : recv !! r = Some (Some p, a) -> exists c,
    idv !! p = Some (c, CONFIRMED_CLIENT_ID, Some r);
  tab_rec_unconf r p a : recv !! r = Some (a, Some p) -> exists c,
    idv !! p = Some (c, UNCONFIRMED_CLIENT_ID, Some r) /\ hu !! c = Some p;
  tab_link p c st r : idv !! p = Some (c, st, Some r) -> is_Some (recv !! r)
}.

Definition linked (r : positive) (i : nfs_client_id_t) : bool :=
  bool_decide (cid_client_record i = Some r).

Definition session_list (i : nfs_client_id_t) : list positive := default [] (cb_session_list i).

Definition hashed (w : client_world) (p : positive) (i : nfs_client_id_t) : Z :=
  b2z (bool_decide (ht_confirmed_client_id w !! cid_clientid i = Some p))
  + b2z (bool_decide (ht_unconfirmed_client_id w !! cid_clientid i = Some p)).

(** The references to a client id other than those held by operations. *)
Definition id_refs (w : client_world) (p : positive) (i : nfs_client_id_t) : Z :=
  hashed w p i + Z.of_nat (length (cid_openowners i)) + Z.of_nat (length (cid_lockowners i))
  + Z.of_nat (length (session_list i)).

(** The owners of a client id: a lock owner has an open owner, and the
    reference counts are the numbers of their holders. *)
Definition related_to (so : positive) (o : owner_t) : bool :=
  bool_decide (so_related_owner o = Some so).

Record own_ok (i : nfs_client_id_t) : Prop := {
  own_open_nodup : NoDup (so_ptr <$> cid_openowners i);
  own_lock_nodup : NoDup (so_ptr <$> cid_lockowners i);
  own_open o : o ∈ cid_openowners i ->
    so_related_owner o = None /\
    1 <= Z.of_nat (length (so_state_list o)) + b2z (so_cached o) /\
    so_refcount o = Z.of_nat (length (so_state_list o)) + b2z (so_cached o)
      + Z.of_nat (length (filter (fun l => related_to (so_ptr o) l = true) (cid_lockowners i)));
  own_lock o : o ∈ cid_lockowners i ->
    so_cached o = false /\ so_refcount o = Z.of_nat (length (so_state_list o)) /\
    exists o', o' ∈ cid_openowners i /\ so_related_owner o = Some (so_ptr o');
  own_cached o : o ∈ cid_openowners i -> so_cached o = true -> so_state_list o = [];
  own_lock_states o : o ∈ cid_lockowners i -> so_state_list o <> []
}.

Section inv.
Context `{Env : ClientEnv}.

(** The client records are the entries of their table, and their counts
    cover the client ids that point to them. *)
Record recs_ok (ids : gmap positive nfs_client_id_t)
    (recs : gmap positive nfs_client_record_t) (l hr : list positive) : Prop := {
  recs_listed r : is_Some (recs !! r) <-> r ∈ l;
  recs_nodup : NoDup l;
  recs_keys r1 r2 c1 c2 : recs !! r1 = Some c1 -> recs !! r2 = Some c2 ->
    same_client_record c1 c2 = true -> r1 = r2;
  recs_refs r c : recs !! r = Some c -> cntm (linked r) ids + cnt r hr <= cr_refcount c;
  recs_held r : r ∈ hr -> is_Some (recs !! r)
}.

(** [hi], [hr] and [hs] are the references to client ids, client records and
    sessions that are held by running operations; [z] is a session that is
    being freed. *)
Record inv (hi hr hs : list positive) (z : option positive) (w : client_world) : Prop := {
  inv_tab : tab_ok (ident <$> w_ids w) (ptrs <$> w_recs w)
              (ht_confirmed_client_id w) (ht_unconfirmed_client_id w);
  inv_recs : recs_ok (w_ids w) (w_recs w) (ht_client_record w) hr;
  inv_refs p i : w_ids w !! p = Some i -> id_refs w p i + cnt p hi <= cid_refcount i;
  inv_held p : p ∈ hi -> is_Some (w_ids w !! p);
  inv_live p i : w_ids w !! p = Some i ->
    cid_confirmed i = EXPIRED_CLIENT_ID \/ 0 < hashed w p i \/
    (cid_openowners i = [] /\ cid_lockowners i = [] /\ session_list i = [] /\ p ∉ hi);
  inv_own p i : w_ids w !! p = Some i -> own_ok i;
  inv_minor p i : w_ids w !! p = Some i -> (0 < cid_minorversion i <-> is_Some (cb_session_list i));
  inv_list p i : w_ids w !! p = Some i ->
    NoDup (session_list i) /\
    forall s, s ∈ session_list i -> exists x,
      w_sessions w !! s = Some x /\ clientid_record x = p;
  inv_session s x : w_sessions w !! s = Some x -> z <> Some s ->
    (exists i, w_ids w !! clientid_record x = Some i /\ s ∈ session_list i) /\
    1 <= session_refcount x /\
    b2z (bool_decide (ht_session_id w !! session_id x = Some s)) + cnt s hs <= session_refcount x;
  inv_session_held s : s ∈ hs -> is_Some (w_sessions w !! s);
  inv_session_tab sid s : ht_session_id w !! sid = Some s -> exists x,
    w_sessions w !! s = Some x /\ session_id x = sid;
  inv_session_ids s s' x x' : w_sessions w !! s = Some x -> w_sessions w !! s' = Some x' ->
    session_id x = session_id x' -> s = s';
  inv_session_seq s x : w_sessions w !! s = Some x -> snd (session_id x) <= global_sequence w;
  inv_fresh_id q : is_Some (w_ids w !! q) -> (q < w_next w)%positive;
  inv_fresh_rec q : is_Some (w_recs w !! q) -> (q < w_next w)%positive;
  inv_fresh_session q : is_Some (w_sessions w !! q) -> (q < w_next w)%positive
}.

Lemma inv_perm hi hi' hr hr' hs hs' z w :
  hi ≡ₚ hi' -> hr ≡ₚ hr' -> hs ≡ₚ hs' -> inv hi hr hs z w -> inv hi' hr' hs' z w.
Proof.
  intros Hi Hr Hs H. destruct H as [? [] Hrefs Hheld Hlive ? ? ? Hses Hsh ? ? ? ? ? ?].
  split; try done; [split; try done|..].
  - intros r c Hc. by rewrite <- (cnt_perm r hr hr') by done; auto.
  - intros r. rewrite <- Hr. auto.
  - intros p i Hp. rewrite <- (cnt_perm p hi hi') by done. auto.
  - intros p. rewrite <- Hi. auto.
  - intros p i Hp. rewrite <- Hi. auto.
  - intros s x Hx Hz. rewrite <- (cnt_perm s hs hs') by done. auto.
  - intros s. rewrite <- Hs. auto.
Qed.

Lemma inv_initial t : inv [] [] [] None (initial_world t).
Proof.
  assert (forall p : positive, p ∉ @nil positive) as Hnil by (intros p; apply not_elem_of_nil).
  split; cbn [initial_world w_ids w_recs w_sessions ht_confirmed_client_id
    ht_unconfirmed_client_id ht_client_record ht_session_id];
    try (intros *; rewrite ?lookup_empty; done);
    try (intros q Hq; rewrite lookup_empty in Hq; by destruct Hq).
  - split; try (intros *; rewrite ?lookup_empty; done).
    + intros r. rewrite lookup_empty. split; [by intros [? ?]|by intros ?%Hnil].
    + constructor.
    + by intros r ?%Hnil.
  - by intros p ?%Hnil.
  - by intros s ?%Hnil.
Qed.

(** ** Updates of a client id *)

(** The part of a client id that the invariant looks at, besides the
    reference count. *)
Definition same_shape (i i' : nfs_client_id_t) : Prop :=
  ident i' = ident i /\ cid_openowners i' = cid_openowners i /\
  cid_lockowners i' = cid_lockowners i /\ cb_session_list i' = cb_session_list i /\
  cid_minorversion i' = cid_minorversion i.

Lemma same_shape_ident (m : gmap positive nfs_client_id_t) p i i' :
  m !! p = Some i -> ident i' = ident i -> (ident <$> <[p := i']> m) = (ident <$> m).
Proof.
  intros Hp E. rewrite fmap_insert. apply insert_id. by rewrite lookup_fmap, Hp, E.
Qed.

Lemma cntm_linked (m : gmap positive nfs_client_id_t) p i i' r :
  m !! p = Some i -> cid_client_record i' = cid_client_record i ->
  cntm (linked r) (<[p := i']> m) = cntm (linked r) m.
Proof.
  intros Hp E. rewrite (cntm_insert _ _ _ i) by done. unfold linked. rewrite E. lia.
Qed.

Lemma recs_ok_ids ids recs l hr p i i' :
  ids !! p = Some i -> cid_client_record i' = cid_client_record i ->
  recs_ok ids recs l hr -> recs_ok (<[p := i']> ids) recs l hr.
Proof.
  intros Hp E []. split; try done. intros r c Hc. rewrite (cntm_linked _ _ i) by done. auto.
Qed.

(** Replaces [p ∈ insert ...] by the two cases. *)
Ltac case_insert H :=
  apply lookup_insert_Some in H as [[<- <-]|[? H]].

(** A client id changes, and with it the records and the tables; its
    sessions stay. *)
Lemma inv_change hi hi' hr hr' hs z w w' p i i' :
  inv hi hr hs z w -> w_ids w !! p = Some i ->
  w_ids w' = <[p := i']> (w_ids w) -> w_sessions w' = w_sessions w ->
  ht_session_id w' = ht_session_id w -> global_sequence w' = global_sequence w ->
  w_next w' = w_next w ->
  tab_ok (<[p := ident i']> (ident <$> w_ids w)) (ptrs <$> w_recs w')
    (ht_confirmed_client_id w') (ht_unconfirmed_client_id w') ->
  recs_ok (<[p := i']> (w_ids w)) (w_recs w') (ht_client_record w') hr' ->
  (forall q, is_Some (w_recs w' !! q) -> is_Some (w_recs w !! q)) ->
  own_ok i' ->
  cb_session_list i' = cb_session_list i -> cid_minorversion i' = cid_minorversion i ->
  (forall q j, q <> p -> w_ids w !! q = Some j -> hashed w' q j = hashed w q j) ->
  id_refs w' p i' + cnt p hi' + cid_refcount i <= id_refs w p i + cnt p hi + cid_refcount i' ->
  (forall q, q <> p -> cnt q hi' = cnt q hi) ->
  (cid_confirmed i' = EXPIRED_CLIENT_ID \/ 0 < hashed w' p i' \/
   (cid_openowners i' = [] /\ cid_lockowners i' = [] /\ session_list i' = [] /\ p ∉ hi')) ->
  inv hi' hr' hs z w'.
Proof.
  intros H Hp Ei Ess Eht Egs Enx Htab' Hrecs' Hsub Ho Es Em Hh Hrc Hq Hl.
  assert (forall q, q <> p -> q ∈ hi' <-> q ∈ hi) as Hqin
    by (intros q Hne; rewrite <- !cnt_elem, Hq; done).
  assert (session_list i' = session_list i) as Esl by (unfold session_list; by rewrite Es).
  destruct H as [Htab Hrecs Hrefs Hheld Hlive Hown Hmin Hlist Hses Hsh Htabs Hids Hseq Hf1 Hf2 Hf3].
  split; rewrite ?Ei, ?Ess, ?Eht, ?Egs, ?Enx; try done.
  - by rewrite fmap_insert.
  - intros q j Hj. case_insert Hj.
    + specialize (Hrefs p i Hp). lia.
    + specialize (Hrefs q j Hj). unfold id_refs in *. rewrite Hq, Hh by done. lia.
  - intros q Hqi. destruct (decide (q = p)) as [->|Hne]; [by rewrite lookup_insert_eq|].
    rewrite lookup_insert_ne by done. apply Hheld. by apply Hqin.
  - intros q j Hj. case_insert Hj; [done|].
    rewrite Hqin, Hh by done. by apply Hlive.
  - intros q j Hj. case_insert Hj; [done|by eapply Hown].
  - intros q j Hj. case_insert Hj; [|by eapply Hmin]. rewrite Em, Es. by eapply Hmin.
  - intros q j Hj. case_insert Hj; [|by eapply Hlist]. rewrite Esl. by apply (Hlist p i).
  - intros s x Hx Hz. destruct (Hses s x Hx Hz) as ((j & Hj & Hsj) & ?). split; [|done].
    destruct (decide (clientid_record x = p)) as [Ep|Hne].
    + rewrite Ep in *. exists i'. rewrite lookup_insert_eq, Esl. split; [done|]. congruence.
    + exists j. by rewrite lookup_insert_ne.
  - intros q [j Hj]. apply Hf1. destruct (decide (q = p)) as [->|Hne]; [eauto|].
    rewrite lookup_insert_ne in Hj by done. eauto.
  - auto.
Qed.

Lemma inv_set_id hi hi' hr hs z w p i i' :
  inv hi hr hs z w -> w_ids w !! p = Some i -> same_shape i i' ->
  cid_refcount i + cnt p hi' <= cid_refcount i' + cnt p hi ->
  (forall q, q <> p -> cnt q hi' = cnt q hi) ->
  (p ∈ hi' -> p ∈ hi \/ cid_confirmed i = EXPIRED_CLIENT_ID \/ 0 < hashed w p i) ->
  inv hi' hr hs z (set_w_ids (<[p := i']> (w_ids w)) w).
Proof.
  intros H Hp (Eid & Eo & El & Es & Em) Hrc Hq Hin.
  assert (hashed (set_w_ids (<[p := i']> (w_ids w)) w) p i' = hashed w p i) as Eh.
  { injection Eid as Ec _ _. unfold hashed. by rewrite Ec. }
  assert (session_list i' = session_list i) as Esl by (unfold session_list; by rewrite Es).
  eapply inv_change; try done; cbn [set_w_ids w_recs ht_client_record
    ht_confirmed_client_id ht_unconfirmed_client_id].
  - rewrite <- fmap_insert, (same_shape_ident _ _ i) by done. apply H.
  - eapply recs_ok_ids; [done| |apply H]. by injection Eid.
  - destruct (inv_own _ _ _ _ _ H p i Hp). split; rewrite ?Eo, ?El; done.
  - unfold id_refs. rewrite Eh, Eo, El, Esl. lia.
  - rewrite Eh, Eo, El, Esl. injection Eid as _ -> _.
    destruct (inv_live _ _ _ _ _ H p i Hp) as [?|[?|(? & ? & ? & Hni)]]; [by left|by right; left|].
    destruct (decide (p ∈ hi')) as [Hpi|Hpi]; [|by right; right].
    destruct (Hin Hpi) as [?|[?|?]]; [done|by left|by right; left].
Qed.

Lemma inv_upd_id hi hr hs z w p i i' :
  inv hi hr hs z w -> w_ids w !! p = Some i -> same_shape i i' ->
  cid_refcount i' = cid_refcount i ->
  inv hi hr hs z (set_w_ids (<[p := i']> (w_ids w)) w).
Proof. intros H Hp Hs E. eapply inv_set_id; try done; [rewrite E; lia|by left]. Qed.

(** A client id that can be referred to: it is in a table, or it expired. *)
Definition usable (w : client_world) (p : positive) : Prop :=
  exists i, w_ids w !! p = Some i /\
    (cid_confirmed i = EXPIRED_CLIENT_ID \/ 0 < hashed w p i).

Lemma held_usable hi hr hs z w p : inv hi hr hs z w -> p ∈ hi -> usable w p.
Proof.
  intros H Hp. destruct (inv_held _ _ _ _ _ H p Hp) as [i Hi]. exists i. split; [done|].
  destruct (inv_live _ _ _ _ _ H p i Hi) as [?|[?|(_ & _ & _ & ?)]]; [by left|by right|done].
Qed.

Lemma inc_client_id_ref_ok hi hr hs z w p (Q : unit -> client_world -> Prop) :
  inv hi hr hs z w -> usable w p ->
  (forall i, w_ids w !! p = Some i ->
     let w' := set_w_ids (<[p := set_cid_refcount (cid_refcount i + 1) i]> (w_ids w)) w in
     inv (p :: hi) hr hs z w' -> Q tt w') ->
  wp (inc_client_id_ref p) Q w.
Proof.
  intros H (i & Hi & Hu) HQ. unfold inc_client_id_ref. wp_step. apply (HQ i Hi).
  eapply inv_set_id; try done.
  - rewrite cnt_cons, bool_decide_true by done. cbn. lia.
  - intros q Hq. rewrite cnt_cons, bool_decide_false by done. cbn. lia.
  - tauto.
Qed.

(** ** Client records *)

Lemma same_client_record_refl c : same_client_record c c = true.
Proof.
  unfold same_client_record, compare_client_record.
  rewrite !Z.eqb_refl, Nat.eqb_refl. cbn [negb andb].
  by rewrite (proj2 (memcmp_zero _ _ eq_refl) eq_refl).
Qed.

Lemma inv_set_recs hi hr hr' hs z w recs' l' :
  inv hi hr hs z w ->
  tab_ok (ident <$> w_ids w) (ptrs <$> recs')
    (ht_confirmed_client_id w) (ht_unconfirmed_client_id w) ->
  recs_ok (w_ids w) recs' l' hr' ->
  (forall q, is_Some (recs' !! q) -> is_Some (w_recs w !! q)) ->
  inv hi hr' hs z (set_w_recs recs' (set_ht_client_record l' w)).
Proof. intros [] ? ? ?. split; try done. auto. Qed.

(** [dec_client_record_ref] on the records and their table. *)
Definition rec_decr (recs : gmap positive nfs_client_record_t) (l : list positive)
    (r : positive) : option (gmap positive nfs_client_record_t * list positive) :=
  match recs !! r with
  | None => None
  | Some c =>
      let c' := set_cr_refcount (cr_refcount c - 1) c in
      let recs' := <[r := c']> recs in
      if 0 <? cr_refcount c' then Some (recs', l) else
      match List.find (fun x => match recs' !! x with
                                | Some y => same_client_record c' y
                                | None => false
                                end) l with
      | None => Some (recs', l)
      | Some old => Some (delete old recs', filter (fun x => x <> old) l)
      end
  end.

Lemma dec_client_record_ref_eq r w :
  dec_client_record_ref r w =
  match rec_decr (w_recs w) (ht_client_record w) r with
  | Some (recs', l') => Some (tt, set_w_recs recs' (set_ht_client_record l' w))
  | None => None
  end.
Proof.
  unfold dec_client_record_ref, rec_decr. destruct w as [t cc cv gs nx ids recs ss hc hu l ht].
  unfold mbind, CM_bind, get_rec. cbn [w_recs ht_client_record].
  destruct (recs !! r) as [c|]; [|done].
  cbn [put_rec modify set_cr_refcount cr_refcount].
  destruct (0 <? cr_refcount c - 1); [done|].
  unfold gets, find_client_record, client_record_matches.
  cbn [set_w_recs w_recs ht_client_record]. by destruct (List.find _ _).
Qed.

Lemma recs_find ids recs l hr r c :
  recs_ok ids recs l hr -> recs !! r = Some c ->
  List.find (fun x => match recs !! x with
                      | Some y => same_client_record c y
                      | None => false
                      end) l = Some r.
Proof.
  intros H Hr. destruct (List.find _ l) as [r'|] eqn:E.
  - apply List.find_some in E as [_ E]. destruct (recs !! r') as [c'|] eqn:Er; [|done].
    by rewrite (recs_keys _ _ _ _ H r r' c c').
  - eapply List.find_none in E; [|by apply list_elem_of_In, (recs_listed _ _ _ _ H); eauto].
    cbn in E. by rewrite Hr, same_client_record_refl in E.
Qed.

(** Changes of a record that keep its key. *)
Lemma recs_ok_upd ids recs l hr hr' r c c' :
  recs_ok ids recs l hr -> recs !! r = Some c ->
  (forall x, same_client_record c' x = same_client_record c x) ->
  (forall x, same_client_record x c' = same_client_record x c) ->
  cr_refcount c + cnt r hr' <= cr_refcount c' + cnt r hr ->
  (forall q, q <> r -> cnt q hr' = cnt q hr) ->
  recs_ok ids (<[r := c']> recs) l hr'.
Proof.
  intros H Hr K1 K2 Hrc Hq. split.
  - intros q. rewrite <- (recs_listed _ _ _ _ H q).
    destruct (decide (q = r)) as [->|?]; [rewrite lookup_insert_eq, Hr|rewrite lookup_insert_ne by done];
      done.
  - apply H.
  - intros r1 r2 c1 c2 H1 H2 E.
    apply lookup_insert_Some in H1 as [[<- <-]|[? H1]];
    apply lookup_insert_Some in H2 as [[<- <-]|[? H2]]; [done|..].
    + rewrite K1 in E. by apply (recs_keys _ _ _ _ H r r2 c c2).
    + rewrite K2 in E. by apply (recs_keys _ _ _ _ H r1 r c1 c).
    + by apply (recs_keys _ _ _ _ H r1 r2 c1 c2).
  - intros q x Hx. apply lookup_insert_Some in Hx as [[<- <-]|[? Hx]].
    + pose proof (recs_refs _ _ _ _ H r c Hr). lia.
    + rewrite Hq by done. by apply (recs_refs _ _ _ _ H).
  - intros q Hqi. destruct (decide (q = r)) as [->|?]; [by rewrite lookup_insert_eq|].
    rewrite lookup_insert_ne by done. apply (recs_held _ _ _ _ H).
    apply cnt_elem. rewrite <- Hq by done. by apply cnt_elem.
Qed.

Lemma cnt_push r hr : forall q, q <> r -> cnt q (r :: hr) = cnt q hr.
Proof. intros q Hq. rewrite cnt_cons, bool_decide_false by done. cbn. lia. Qed.

Lemma cnt_push_eq r hr : cnt r (r :: hr) = 1 + cnt r hr.
Proof. by rewrite cnt_cons, bool_decide_true. Qed.

Lemma recs_ok_delete ids recs l hr r :
  recs_ok ids recs l hr -> cntm (linked r) ids = 0 -> r ∉ hr ->
  recs_ok ids (delete r recs) (filter (fun x => x <> r) l) hr.
Proof.
  intros H Hl Hr. split.
  - intros q. rewrite list_elem_of_filter, <- (recs_listed _ _ _ _ H q).
    destruct (decide (q = r)) as [->|?];
      [rewrite lookup_delete_eq|rewrite lookup_delete_ne by done].
    + split; [by intros [? ?]|by intros [? ?]].
    + tauto.
  - apply NoDup_filter, H.
  - intros r1 r2 c1 c2 [? H1]%lookup_delete_Some [? H2]%lookup_delete_Some.
    by apply (recs_keys _ _ _ _ H).
  - intros q c [? Hc]%lookup_delete_Some. by apply (recs_refs _ _ _ _ H).
  - intros q Hq. rewrite lookup_delete_ne by (by intros ->). by apply (recs_held _ _ _ _ H).
Qed.

Lemma unlinked (m : gmap positive nfs_client_id_t) r p i :
  cntm (linked r) m = 0 -> m !! p = Some i -> cid_client_record i <> Some r.
Proof.
  intros H Hp E. pose proof (cntm_pos (linked r) m p i Hp) as Hpos.
  unfold linked in Hpos at 1. rewrite bool_decide_true in Hpos by done. specialize (Hpos eq_refl). lia.
Qed.

Lemma unlinked_view (m : gmap positive nfs_client_id_t) r p c st r' :
  cntm (linked r) m = 0 -> (ident <$> m) !! p = Some (c, st, Some r') -> r' <> r.
Proof.
  intros H Hp ->. rewrite lookup_fmap in Hp. destruct (m !! p) as [i|] eqn:E; [|done].
  injection Hp as ? ? ?. by eapply unlinked.
Qed.

Lemma tab_ok_delete_rec ids recv hc hu r :
  tab_ok (ident <$> ids) recv hc hu -> cntm (linked r) ids = 0 ->
  tab_ok (ident <$> ids) (delete r recv) hc hu.
Proof.
  intros H Hl. split.
  - apply H.
  - intros c p Hp. destruct (tab_unconf _ _ _ _ H c p Hp) as (r' & a & Hi & Hr).
    exists r', a. rewrite lookup_delete_ne; [done|]. by apply not_eq_sym, (unlinked_view ids r p c UNCONFIRMED_CLIENT_ID).
  - intros p c or Hp. destruct (tab_confirmed _ _ _ _ H p c or Hp) as (? & r' & a & -> & Hr).
    split; [done|]. exists r', a. rewrite lookup_delete_ne; [done|].
    by apply not_eq_sym, (unlinked_view ids r p c CONFIRMED_CLIENT_ID).
  - apply H.
  - intros r' p a [_ Hr]%lookup_delete_Some. by eapply (tab_rec_conf _ _ _ _ H).
  - intros r' p a [_ Hr]%lookup_delete_Some. by eapply (tab_rec_unconf _ _ _ _ H).
  - intros p c st r' Hp. rewrite lookup_delete_ne; [by eapply (tab_link _ _ _ _ H)|].
    by apply not_eq_sym, (unlinked_view ids r p c st).
Qed.

Lemma same_ptrs (m : gmap positive nfs_client_record_t) r c c' :
  m !! r = Some c -> ptrs c' = ptrs c -> (ptrs <$> <[r := c']> m) = (ptrs <$> m).
Proof.
  intros Hr E. rewrite fmap_insert. apply insert_id. by rewrite lookup_fmap, Hr, E.
Qed.

Lemma set_ht_client_record_id w : set_ht_client_record (ht_client_record w) w = w.
Proof. by destruct w. Qed.

Lemma rec_decr_ok hi hr hs z w r :
  inv hi (r :: hr) hs z w -> exists recs' l',
    rec_decr (w_recs w) (ht_client_record w) r = Some (recs', l') /\
    inv hi hr hs z (set_w_recs recs' (set_ht_client_record l' w)).
Proof.
  intros H. destruct (recs_held _ _ _ _ (inv_recs _ _ _ _ _ H) r) as [c Hc]; [by left|].
  unfold rec_decr. rewrite Hc.
  set (c' := set_cr_refcount (cr_refcount c - 1) c).
  assert (recs_ok (w_ids w) (<[r := c']> (w_recs w)) (ht_client_record w) hr) as Hok.
  { eapply recs_ok_upd; [apply H|done|done|done|..].
    - rewrite cnt_push_eq. cbn. lia.
    - intros q Hq. by rewrite cnt_push. }
  assert ((ptrs <$> <[r := c']> (w_recs w)) = (ptrs <$> w_recs w)) as Ep by (by eapply same_ptrs).
  destruct (0 <? cr_refcount c') eqn:E.
  - eexists _, _. split; [done|]. eapply inv_set_recs; [done|rewrite Ep; apply H|done|].
    intros q. destruct (decide (q = r)) as [->|?]; [eauto|by rewrite lookup_insert_ne].
  - rewrite (recs_find _ _ _ hr r c') by (done || apply lookup_insert_eq).
    pose proof (recs_refs _ _ _ _ Hok r c' (lookup_insert_eq _ _ _)) as Hrefs.
    pose proof (cntm_nonneg (linked r) (w_ids w)). pose proof (cnt_nonneg r hr).
    apply Z.ltb_ge in E.
    eexists _, _. split; [done|]. eapply inv_set_recs; [done|..].
    + rewrite fmap_delete, Ep. apply tab_ok_delete_rec; [apply H|lia].
    + apply recs_ok_delete; [done|lia|]. rewrite <- cnt_elem. lia.
    + intros q. destruct (decide (q = r)) as [->|?]; [rewrite lookup_delete_eq; by intros [? ?]|].
      by rewrite lookup_delete_ne, lookup_insert_ne.
Qed.

Lemma dec_client_record_ref_ok hi hr hs z w r (Q : unit -> client_world -> Prop) :
  inv hi (r :: hr) hs z w ->
  (forall recs' l', let w' := set_w_recs recs' (set_ht_client_record l' w) in
     inv hi hr hs z w' -> Q tt w') ->
  wp (dec_client_record_ref r) Q w.
Proof.
  intros H HQ. destruct (rec_decr_ok _ _ _ _ _ _ H) as (recs' & l' & E & Hi).
  unfold wp. rewrite dec_client_record_ref_eq, E. by apply HQ.
Qed.

Lemma inv_upd_rec hi hr hr' hs z w r c c' :
  inv hi hr hs z w -> w_recs w !! r = Some c ->
  (forall x, same_client_record c' x = same_client_record c x) ->
  (forall x, same_client_record x c' = same_client_record x c) ->
  cr_refcount c + cnt r hr' <= cr_refcount c' + cnt r hr ->
  (forall q, q <> r -> cnt q hr' = cnt q hr) ->
  tab_ok (ident <$> w_ids w) (<[r := ptrs c']> (ptrs <$> w_recs w))
    (ht_confirmed_client_id w) (ht_unconfirmed_client_id w) ->
  inv hi hr' hs z (set_w_recs (<[r := c']> (w_recs w)) w).
Proof.
  intros H Hr K1 K2 Hc Hq Ht. rewrite <- (set_ht_client_record_id w) at 2.
  eapply inv_set_recs; [done|by rewrite fmap_insert| |].
  - by eapply recs_ok_upd; [apply H|..].
  - intros q. destruct (decide (q = r)) as [->|?]; [eauto|by rewrite lookup_insert_ne].
Qed.

Lemma inc_client_record_ref_ok hi hr hs z w r (Q : unit -> client_world -> Prop) :
  inv hi hr hs z w -> is_Some (w_recs w !! r) ->
  (forall c, w_recs w !! r = Some c ->
     let w' := set_w_recs (<[r := set_cr_refcount (cr_refcount c + 1) c]> (w_recs w)) w in
     inv hi (r :: hr) hs z w' -> Q tt w') ->
  wp (inc_client_record_ref r) Q w.
Proof.
  intros H [c Hc] HQ. unfold inc_client_record_ref. wp_step. apply (HQ c Hc).
  eapply inv_upd_rec; try done.
  - rewrite cnt_push_eq. cbn. lia.
  - apply cnt_push.
  - rewrite <- fmap_insert, (same_ptrs _ _ c) by done. apply H.
Qed.

(** ** The end of a client id *)

Lemma tab_ok_delete_id idv recv hc hu p c st :
  tab_ok idv recv hc hu -> idv !! p = Some (c, st, None) ->
  st = EXPIRED_CLIENT_ID \/ st = UNCONFIRMED_CLIENT_ID ->
  tab_ok (delete p idv) recv hc hu.
Proof.
  intros H Hp Hst. split.
  - intros c' q Hq. destruct (tab_conf _ _ _ _ H c' q Hq) as (st' & r & Hi & Hs).
    exists st', r. rewrite lookup_delete_ne; [done|]. intros <-. naive_solver.
  - intros c' q Hq. destruct (tab_unconf _ _ _ _ H c' q Hq) as (r & a & Hi & Hr).
    exists r, a. rewrite lookup_delete_ne; [done|]. intros <-. naive_solver.
  - intros q c' r [_ Hq]%lookup_delete_Some. by apply (tab_confirmed _ _ _ _ H).
  - intros q c' r [_ Hq]%lookup_delete_Some. by apply (tab_stale _ _ _ _ H).
  - intros r q a Hr. destruct (tab_rec_conf _ _ _ _ H r q a Hr) as (c' & Hi).
    exists c'. rewrite lookup_delete_ne; [done|]. intros <-. naive_solver.
  - intros r q a Hr. destruct (tab_rec_unconf _ _ _ _ H r q a Hr) as (c' & Hi & Hu).
    exists c'. rewrite lookup_delete_ne; [done|]. intros <-. naive_solver.
  - intros q c' st' r [_ Hq]%lookup_delete_Some. by eapply (tab_link _ _ _ _ H).
Qed.

Lemma inv_delete_id hi hr hs z w p i :
  inv hi hr hs z w -> w_ids w !! p = Some i -> p ∉ hi ->
  cid_client_record i = None -> session_list i = [] ->
  cid_confirmed i = EXPIRED_CLIENT_ID \/ cid_confirmed i = UNCONFIRMED_CLIENT_ID ->
  inv hi hr hs z (set_w_ids (delete p (w_ids w)) w).
Proof.
  intros H Hp Hni Hr Hs Hst.
  assert (forall q j, hashed (set_w_ids (delete p (w_ids w)) w) q j = hashed w q j) as Hhq by done.
  assert (forall r, cntm (linked r) (delete p (w_ids w)) = cntm (linked r) (w_ids w)) as Hl.
  { intros r. rewrite (cntm_delete _ (w_ids w) p i) by done. unfold linked at 2.
    rewrite Hr. done. }
  destruct H as [Htab Hrecs Hrefs Hheld Hlive Hown Hmin Hlist Hses Hsh Htabs Hids Hseq Hf1 Hf2 Hf3].
  split; cbn [set_w_ids w_ids w_recs w_sessions ht_confirmed_client_id
    ht_unconfirmed_client_id ht_client_record ht_session_id global_sequence w_next]; try done.
  - rewrite fmap_delete. eapply tab_ok_delete_id; [done| |done].
    rewrite lookup_fmap, Hp. cbn. unfold ident. by rewrite Hr.
  - destruct Hrecs. split; try done. intros r c Hc. rewrite Hl. auto.
  - intros q j [_ Hj]%lookup_delete_Some. by apply Hrefs.
  - intros q Hq. rewrite lookup_delete_ne by (by intros ->). auto.
  - intros q j [_ Hj]%lookup_delete_Some. rewrite Hhq. auto.
  - intros q j [_ Hj]%lookup_delete_Some. eauto.
  - intros q j [_ Hj]%lookup_delete_Some. eauto.
  - intros q j [_ Hj]%lookup_delete_Some. eauto.
  - intros s x Hx Hz. destruct (Hses s x Hx Hz) as ((j & Hj & Hsj) & ?). split; [|done].
    exists j. rewrite lookup_delete_ne; [done|]. intros Ex. rewrite <- Ex, Hp in Hj. injection Hj as <-.
    rewrite Hs in Hsj. by apply elem_of_nil in Hsj.
  - intros q [j [_ Hj]%lookup_delete_Some]. eauto.
Qed.

(** What giving back references may change: counts, and objects may go. *)
Record shrinks (w w' : client_world) : Prop := {
  shrinks_ids q j' : w_ids w' !! q = Some j' -> exists j,
    w_ids w !! q = Some j /\ j' = set_cid_refcount (cid_refcount j') j;
  shrinks_recs r c' : w_recs w' !! r = Some c' -> exists c,
    w_recs w !! r = Some c /\ c' = set_cr_refcount (cr_refcount c') c;
  shrinks_rest :
    w' = set_w_ids (w_ids w') (set_w_recs (w_recs w') (set_ht_client_record (ht_client_record w') w))
}.

Lemma set_cid_refcount_id i : set_cid_refcount (cid_refcount i) i = i.
Proof. by destruct i. Qed.

Lemma set_cr_refcount_id c : set_cr_refcount (cr_refcount c) c = c.
Proof. by destruct c. Qed.

Lemma shrinks_refl w : shrinks w w.
Proof.
  split; [| |by destruct w].
  - intros q j Hj. exists j. by rewrite set_cid_refcount_id.
  - intros r c Hc. exists c. by rewrite set_cr_refcount_id.
Qed.

Lemma shrinks_trans w1 w2 w3 : shrinks w1 w2 -> shrinks w2 w3 -> shrinks w1 w3.
Proof.
  intros H1 H2. split.
  - intros q j3 Hj. destruct (shrinks_ids _ _ H2 q j3 Hj) as (j2 & Hj2 & E2).
    destruct (shrinks_ids _ _ H1 q j2 Hj2) as (j1 & Hj1 & E1).
    exists j1. split; [done|]. rewrite E2, E1. done.
  - intros r c3 Hc. destruct (shrinks_recs _ _ H2 r c3 Hc) as (c2 & Hc2 & E2).
    destruct (shrinks_recs _ _ H1 r c2 Hc2) as (c1 & Hc1 & E1).
    exists c1. split; [done|]. rewrite E2, E1. done.
  - rewrite (shrinks_rest _ _ H2). rewrite (shrinks_rest _ _ H1) at 1. done.
Qed.

Lemma rec_decr_shrinks w r recs' l' :
  rec_decr (w_recs w) (ht_client_record w) r = Some (recs', l') ->
  shrinks w (set_w_recs recs' (set_ht_client_record l' w)).
Proof.
  unfold rec_decr. intros E. destruct (w_recs w !! r) as [c|] eqn:Hr; [|done].
  assert (forall q c', recs' !! q = Some c' ->
    <[r := set_cr_refcount (cr_refcount c - 1) c]> (w_recs w) !! q = Some c') as Hsub.
  { destruct (0 <? _); [by injection E as <- <-|].
    destruct (List.find _ _) as [old|]; injection E as <- <-; [|done].
    by intros q c' [_ ?]%lookup_delete_Some. }
  split; cbn [set_w_recs set_ht_client_record w_ids w_recs]; [apply (shrinks_ids w w), shrinks_refl| |by destruct w].
  intros q c' [[<- <-]|[_ Hq]]%Hsub%lookup_insert_Some; [by exists c|].
  exists c'. by rewrite set_cr_refcount_id.
Qed.

(** A link of a client id to its record that is given up is a reference. *)
Lemma tab_ok_unlink idv recv hc hu p c st r :
  tab_ok idv recv hc hu -> idv !! p = Some (c, st, r) ->
  st = EXPIRED_CLIENT_ID \/ (st = UNCONFIRMED_CLIENT_ID /\ hu !! c <> Some p) ->
  tab_ok (<[p := (c, st, None)]> idv) recv hc hu.
Proof.
  intros H Hp Hst. split.
  - intros c' q Hq. destruct (tab_conf _ _ _ _ H c' q Hq) as (st' & r' & Hi & Hs).
    exists st', r'. rewrite lookup_insert_ne; [done|]. intros <-. naive_solver.
  - intros c' q Hq. destruct (tab_unconf _ _ _ _ H c' q Hq) as (r' & a & Hi & Hr).
    exists r', a. rewrite lookup_insert_ne; [done|]. intros <-. naive_solver.
  - intros q c' r' [[<- [= <- -> <-]]|[? Hq]]%lookup_insert_Some;
      [naive_solver|by apply (tab_confirmed _ _ _ _ H)].
  - intros q c' r' [[<- [= <- -> <-]]|[? Hq]]%lookup_insert_Some;
      [naive_solver|by apply (tab_stale _ _ _ _ H)].
  - intros r' q a Hr. destruct (tab_rec_conf _ _ _ _ H r' q a Hr) as (c' & Hi).
    exists c'. rewrite lookup_insert_ne; [done|]. intros <-. naive_solver.
  - intros r' q a Hr. destruct (tab_rec_unconf _ _ _ _ H r' q a Hr) as (c' & Hi & Hu).
    exists c'. rewrite lookup_insert_ne; [done|]. intros <-. naive_solver.
  - intros q c' st' r' [[<- [=]]|[? Hq]]%lookup_insert_Some. by eapply (tab_link _ _ _ _ H).
Qed.

Lemma recs_ok_unlink ids recs l hr p i i' r :
  recs_ok ids recs l hr -> ids !! p = Some i -> cid_client_record i = Some r ->
  cid_client_record i' = None -> is_Some (recs !! r) ->
  recs_ok (<[p := i']> ids) recs l (r :: hr).
Proof.
  intros H Hp E E' Hr. split; try apply H.
  - intros q c Hc. rewrite (cntm_insert _ _ _ i) by done. unfold linked at 2 3.
    rewrite E, E', cnt_cons. pose proof (recs_refs _ _ _ _ H q c Hc).
    rewrite (bool_decide_false (None = _)) by done.
    destruct (decide (r = q)) as [->|Hne].
    + rewrite !bool_decide_true by done. cbn. lia.
    + rewrite !bool_decide_false by congruence. cbn. lia.
  - intros q [->|Hq]%elem_of_cons; [done|by apply (recs_held _ _ _ _ H)].
Qed.

Lemma ids_view w p i : w_ids w !! p = Some i -> (ident <$> w_ids w) !! p = Some (ident i).
Proof. intros H. by rewrite lookup_fmap, H. Qed.

Lemma recs_view w r c : w_recs w !! r = Some c -> (ptrs <$> w_recs w) !! r = Some (ptrs c).
Proof. intros H. by rewrite lookup_fmap, H. Qed.

Lemma recs_view_some w r : is_Some ((ptrs <$> w_recs w) !! r) <-> is_Some (w_recs w !! r).
Proof. rewrite lookup_fmap. apply fmap_is_Some. Qed.

(** The record of a client id exists. *)
Lemma inv_link_some hi hr hs z w p i r :
  inv hi hr hs z w -> w_ids w !! p = Some i -> cid_client_record i = Some r ->
  is_Some (w_recs w !! r).
Proof.
  intros H Hp Hr. apply recs_view_some. eapply (tab_link _ _ _ _ (inv_tab _ _ _ _ _ H) p).
  rewrite (ids_view w p i Hp). unfold ident. by rewrite Hr.
Qed.

Lemma hashed_unconf hi hr hs z w p i :
  inv hi hr hs z w -> w_ids w !! p = Some i -> hashed w p i = 0 ->
  cid_confirmed i = EXPIRED_CLIENT_ID \/
  (cid_confirmed i = UNCONFIRMED_CLIENT_ID /\
   ht_unconfirmed_client_id w !! cid_clientid i <> Some p).
Proof.
  intros H Hp Hh. pose proof (ids_view w p i Hp) as Hv. unfold ident in Hv.
  unfold hashed in Hh.
  destruct (bool_decide_reflect (ht_confirmed_client_id w !! cid_clientid i = Some p));
    destruct (bool_decide_reflect (ht_unconfirmed_client_id w !! cid_clientid i = Some p));
    cbn in Hh; try lia.
  destruct (cid_confirmed i) eqn:Est; [by right| |by left|].
  - by destruct (tab_confirmed _ _ _ _ (inv_tab _ _ _ _ _ H) _ _ _ Hv).
  - by destruct (tab_stale _ _ _ _ (inv_tab _ _ _ _ _ H) _ _ _ Hv).
Qed.

Lemma inv_unlink hi hr hs z w p i r :
  inv hi hr hs z w -> w_ids w !! p = Some i -> hashed w p i = 0 ->
  cid_client_record i = Some r ->
  inv hi (r :: hr) hs z (set_w_ids (<[p := set_cid_client_record None i]> (w_ids w)) w).
Proof.
  intros H Hp Hh Hr. eapply inv_change; try done.
  - cbn. eapply tab_ok_unlink; [apply H|by rewrite (ids_view w p i Hp)|].
    exact (hashed_unconf _ _ _ _ _ _ _ H Hp Hh).
  - cbn. eapply recs_ok_unlink; try done; [apply H|by eapply inv_link_some].
  - by destruct (inv_own _ _ _ _ _ H p i Hp).
  - change (hashed _ p (set_cid_client_record None i)) with (hashed w p i).
    exact (inv_live _ _ _ _ _ H p i Hp).
Qed.

Lemma id_refs_zero w p i n :
  id_refs w p i + n <= 0 -> 0 <= n ->
  hashed w p i = 0 /\ cid_openowners i = [] /\ cid_lockowners i = [] /\ session_list i = [] /\ n = 0.
Proof.
  unfold id_refs. intros H Hn. assert (0 <= hashed w p i) by (unfold hashed, b2z; repeat destruct (bool_decide _); lia).
  repeat split; try lia; apply nil_length_inv; lia.
Qed.

Lemma del_no_sessions dec p i (Q : unit -> client_world -> Prop) w :
  w_ids w !! p = Some i -> (0 < cid_minorversion i -> is_Some (cb_session_list i)) ->
  session_list i = [] -> Q tt w -> wp (del_sessions_ dec p) Q w.
Proof.
  intros Hp Hm Hs HQ. unfold del_sessions_. wp_step.
  destruct (0 <? cid_minorversion i) eqn:Em; [|by wp_step].
  apply Z.ltb_lt in Em. destruct (Hm Em) as [l Hl].
  unfold session_list in Hs. rewrite Hl in *. cbn in Hs. subst l. by apply wp_ret.
Qed.

(** The last reference: the client id goes, and gives back its record. *)
Lemma free_client_id_ok dec hi hr hs z w p i (Q : unit -> client_world -> Prop) :
  inv hi hr hs z w -> w_ids w !! p = Some i -> cid_refcount i = 0 ->
  (forall w', inv hi hr hs z w' -> shrinks w w' -> Q tt w') ->
  wp (free_client_id_ dec p) Q w.
Proof.
  intros H Hp Hrc HQ.
  destruct (id_refs_zero w p i (cnt p hi)) as (Hh & Ho & Hl & Hs & Hc);
    [pose proof (inv_refs _ _ _ _ _ H p i Hp); lia|apply cnt_nonneg|].
  assert (p ∉ hi) as Hni by (rewrite <- cnt_elem; lia).
  unfold free_client_id_. wp_step. rewrite Hrc. cbn [Z.eqb assert_that].
  apply wp_bind, wp_ret, wp_bind.
  assert (exists w1, (match cid_client_record i with
     | Some r => dec_client_record_ref r | None => mret tt end) w = Some (tt, w1) /\
     w_ids w1 = w_ids w /\ shrinks w w1 /\
     inv hi hr hs z (set_w_ids (<[p := set_cid_client_record None i]> (w_ids w1)) w1))
    as (w1 & E & Ei & Hsh & Hi).
  { destruct (cid_client_record i) as [r|] eqn:Er.
    - pose proof (inv_unlink _ _ _ _ _ _ _ _ H Hp Hh Er) as Hu.
      destruct (rec_decr_ok _ _ _ _ _ _ Hu) as (recs' & l' & E & Hi).
      cbn [set_w_ids w_recs ht_client_record] in E.
      eexists. rewrite dec_client_record_ref_eq, E. split; [done|]. split; [done|].
      split; [by apply (rec_decr_shrinks w r)|]. exact Hi.
    - exists w. split; [done|]. split; [done|]. split; [apply shrinks_refl|].
      eapply inv_upd_id; try done. unfold same_shape, ident. cbn. by rewrite Er. }
  unfold wp at 1. rewrite E.
  apply wp_bind, (del_no_sessions dec p i); [by rewrite Ei| |done|].
  { apply (inv_minor _ _ _ _ _ H p i Hp). }
  wp_step. apply HQ.
  - replace (delete p (w_ids w1))
      with (delete p (<[p := set_cid_client_record None i]> (w_ids w1))) by apply delete_insert_eq.
    eapply (inv_delete_id _ _ _ _ _ p (set_cid_client_record None i)) in Hi;
      [exact Hi|apply lookup_insert_eq|done|done|done|].
    destruct (hashed_unconf _ _ _ _ _ _ _ H Hp Hh) as [?|[? _]]; [by left|by right].
  - split; cbn [set_w_ids w_ids].
    + intros q j [_ Hj]%lookup_delete_Some. by apply (shrinks_ids _ _ Hsh).
    + apply (shrinks_recs _ _ Hsh).
    + exact (f_equal (set_w_ids (delete p (w_ids w1))) (shrinks_rest _ _ Hsh)).
Qed.

Lemma dec_client_id_ref_n_ok n hi hr hs z w p (Q : unit -> client_world -> Prop) :
  inv (p :: hi) hr hs z w ->
  (forall w', inv hi hr hs z w' -> shrinks w w' -> Q tt w') ->
  wp (dec_client_id_ref_ (S n) p) Q w.
Proof.
  intros H HQ. destruct (held_usable _ _ _ _ _ p H) as (i & Hi & Hu); [by left|].
  cbn [dec_client_id_ref_]. wp_step. wp_step.
  set (i' := set_cid_refcount (cid_refcount i - 1) i).
  assert (inv hi hr hs z (set_w_ids (<[p := i']> (w_ids w)) w)) as H'.
  { eapply inv_set_id; try done.
    - rewrite cnt_push_eq. cbn. lia.
    - intros q Hq. by rewrite cnt_push.
    - intros _. left. by left. }
  assert (shrinks w (set_w_ids (<[p := i']> (w_ids w)) w)) as Hsh.
  { split; cbn [set_w_ids w_ids]; [|apply (shrinks_recs w w), shrinks_refl|by destruct w].
    intros q j [[<- <-]|[_ Hj]]%lookup_insert_Some; [by exists i|].
    exists j. by rewrite set_cid_refcount_id. }
  destruct (0 <? cid_refcount i') eqn:E; [wp_step; by apply HQ|]. apply Z.ltb_ge in E.
  pose proof (inv_refs _ _ _ _ _ H' p i' (lookup_insert_eq _ _ _)) as Hr.
  pose proof (cnt_nonneg p hi).
  assert (cid_confirmed i = EXPIRED_CLIENT_ID) as Est.
  { destruct Hu as [?|Hh]; [done|].
    destruct (id_refs_zero _ _ _ _ (Z.le_trans _ _ _ Hr E)) as (Hz & _); [done|].
    change (hashed _ p i') with (hashed w p i) in Hz. lia. }
  rewrite decide_True by done.
  eapply free_client_id_ok; [exact H'|apply lookup_insert_eq| |].
  - destruct (id_refs_zero _ _ _ _ (Z.le_trans _ _ _ Hr E)) as (? & Ho & Hl & Hs & ?); [done|].
    unfold id_refs in Hr. rewrite Ho, Hl, Hs in Hr. cbn [length] in Hr. lia.
  - intros w' Hw' Hs'. apply HQ; [done|]. by eapply shrinks_trans.
Qed.

Lemma dec_client_id_ref_ok hi hr hs z w p (Q : unit -> client_world -> Prop) :
  inv (p :: hi) hr hs z w ->
  (forall w', inv hi hr hs z w' -> shrinks w w' -> Q tt w') ->
  wp (dec_client_id_ref p) Q w.
Proof. apply dec_client_id_ref_n_ok. Qed.

(** ** Sessions *)

(** What releases may change: counts, sessions and owners. *)
Definition calm_id (j j' : nfs_client_id_t) : Prop :=
  j' = set_cid_owner_states (cid_owner_states j') (set_cid_lockowners (cid_lockowners j')
         (set_cid_openowners (cid_openowners j') (set_cb_session_list (cb_session_list j')
            (set_cid_refcount (cid_refcount j') j)))).

Record calm (w w' : client_world) : Prop := {
  calm_ids q j' : w_ids w' !! q = Some j' -> exists j, w_ids w !! q = Some j /\ calm_id j j';
  calm_recs r c' : w_recs w' !! r = Some c' -> exists c,
    w_recs w !! r = Some c /\ c' = set_cr_refcount (cr_refcount c') c;
  calm_conf : ht_confirmed_client_id w' = ht_confirmed_client_id w;
  calm_unconf : ht_unconfirmed_client_id w' = ht_unconfirmed_client_id w;
  calm_time : w_time w' = w_time w;
  calm_seq : global_sequence w' = global_sequence w;
  calm_next : w_next w' = w_next w
}.

Lemma calm_id_refl j : calm_id j j.
Proof. by destruct j. Qed.

Lemma calm_id_trans j1 j2 j3 : calm_id j1 j2 -> calm_id j2 j3 -> calm_id j1 j3.
Proof. unfold calm_id. intros E1 E2. rewrite E2, E1. done. Qed.

Lemma shrinks_calm w w' : shrinks w w' -> calm w w'.
Proof.
  intros H. split; try (rewrite (shrinks_rest _ _ H); done); [|apply H].
  intros q j' (j & Hj & E)%(shrinks_ids _ _ H). exists j. split; [done|]. rewrite E. by destruct j.
Qed.

Lemma calm_refl w : calm w w.
Proof. apply shrinks_calm, shrinks_refl. Qed.

Lemma calm_trans w1 w2 w3 : calm w1 w2 -> calm w2 w3 -> calm w1 w3.
Proof.
  intros H1 H2. split.
  - intros q j3 (j2 & (j1 & Hj1 & E1)%(calm_ids _ _ H1) & E2)%(calm_ids _ _ H2).
    exists j1. split; [done|]. by eapply calm_id_trans.
  - intros r c3 (c2 & (c1 & Hc1 & E1)%(calm_recs _ _ H1) & E2)%(calm_recs _ _ H2).
    exists c1. split; [done|]. rewrite E2, E1. done.
  - by rewrite (calm_conf _ _ H2), (calm_conf _ _ H1).
  - by rewrite (calm_unconf _ _ H2), (calm_unconf _ _ H1).
  - by rewrite (calm_time _ _ H2), (calm_time _ _ H1).
  - by rewrite (calm_seq _ _ H2), (calm_seq _ _ H1).
  - by rewrite (calm_next _ _ H2), (calm_next _ _ H1).
Qed.

Lemma filter_ne_id (s : positive) (l : list positive) : s ∉ l -> filter (fun x => x <> s) l = l.
Proof.
  induction l as [|a l IH]; [done|]. rewrite not_elem_of_cons, filter_cons. intros [? ?].
  rewrite decide_True by done. by rewrite IH.
Qed.

Lemma filter_ne_length (s : positive) (l : list positive) :
  NoDup l -> s ∈ l -> Z.of_nat (length (filter (fun x => x <> s) l)) = Z.of_nat (length l) - 1.
Proof.
  induction 1 as [|a l Ha Hl IH]; [by intros ?%elem_of_nil|].
  intros [->|Hs]%elem_of_cons; rewrite filter_cons; cbn [length].
  - rewrite decide_False by tauto. rewrite filter_ne_id by done. lia.
  - rewrite decide_True by (by intros ->). cbn [length]. rewrite Nat2Z.inj_succ, IH by done. lia.
Qed.

Lemma session_list_unlink s i :
  session_list (unlink_session s i) = filter (fun x => x <> s) (session_list i).
Proof. unfold session_list, unlink_session. cbn. by destruct (cb_session_list i). Qed.

Lemma inv_unlink_session hi hr hs w s x x' i :
  inv hi hr (s :: hs) None w -> w_sessions w !! s = Some x ->
  w_ids w !! clientid_record x = Some i ->
  session_id x' = session_id x ->
  inv (clientid_record x :: hi) hr hs (Some s)
    (set_w_ids (<[clientid_record x := unlink_session s i]> (w_ids w))
      (set_w_sessions (<[s := x']> (w_sessions w)) w)).
Proof.
  intros H Hs Hi Eid.
  assert (s ∈ session_list i) as Hsi.
  { destruct (inv_session _ _ _ _ _ H s x Hs) as ((j & Hj & ?) & _); [done|]. congruence. }
  set (p := clientid_record x) in *.
  set (w' := set_w_ids _ _).
  assert (forall q j, hashed w' q j = hashed w q j) as Hh by done.
  destruct H as [Htab Hrecs Hrefs Hheld Hlive Hown Hmin Hlist Hses Hsh Htabs Hids Hseq Hf1 Hf2 Hf3].
  destruct (Hlist p i Hi) as [Hnd Hmem].
  assert (forall q, is_Some (<[p := unlink_session s i]> (w_ids w) !! q) <-> is_Some (w_ids w !! q)) as Hsome.
  { intros q. destruct (decide (q = p)) as [->|?];
      [rewrite lookup_insert_eq, Hi|rewrite lookup_insert_ne by done]; done. }
  assert (forall q, is_Some (<[s := x']> (w_sessions w) !! q) <-> is_Some (w_sessions w !! q)) as Hsome'.
  { intros q. destruct (decide (q = s)) as [->|?];
      [rewrite lookup_insert_eq, Hs|rewrite lookup_insert_ne by done]; done. }
  assert (forall q y, <[s := x']> (w_sessions w) !! q = Some y -> exists y',
    w_sessions w !! q = Some y' /\ session_id y' = session_id y /\ (q <> s -> y' = y)) as Hy.
  { intros q y [[<- <-]|[? ?]]%lookup_insert_Some; [by exists x|by exists y]. }
  split; cbn [w' set_w_ids set_w_sessions w_ids w_recs w_sessions ht_confirmed_client_id
    ht_unconfirmed_client_id ht_client_record ht_session_id global_sequence w_next]; try done.
  - rewrite (same_shape_ident _ _ i) by done. done.
  - by eapply recs_ok_ids.
  - intros q j Hj. case_insert Hj.
    + specialize (Hrefs p i Hi). unfold id_refs in *. rewrite Hh, session_list_unlink, cnt_push_eq.
      rewrite filter_ne_length by done. cbn [unlink_session set_cb_session_list cid_openowners
        cid_lockowners cid_refcount]. change (hashed w p _) with (hashed w p i). lia.
    + rewrite cnt_push by done. unfold id_refs in *. rewrite Hh. by apply Hrefs.
  - intros q [->|Hq]%elem_of_cons; [by rewrite lookup_insert_eq|]. by apply Hsome, Hheld.
  - intros q j Hj. case_insert Hj; rewrite Hh.
    + destruct (Hlive p i Hi) as [?|[?|(_ & _ & E & _)]]; [by left|by right; left|].
      rewrite E in Hsi. by apply elem_of_nil in Hsi.
    + rewrite elem_of_cons. destruct (Hlive q j Hj) as [?|[?|(? & ? & ? & ?)]];
        [by left|by right; left|right; right]. naive_solver.
  - intros q j Hj. case_insert Hj; [|by eapply Hown]. destruct (Hown p i Hi). by split.
  - intros q j Hj. case_insert Hj; [|by eapply Hmin].
    cbn. rewrite (Hmin p i Hi), fmap_is_Some. done.
  - intros q j Hj. case_insert Hj.
    + rewrite session_list_unlink. split; [by apply NoDup_filter|].
      intros s' [Hne Hs']%list_elem_of_filter. rewrite lookup_insert_ne by done. by apply Hmem.
    + destruct (Hlist q j Hj) as [? Hm]. split; [done|]. intros s' Hs'.
      destruct (Hm s' Hs') as (y & Hys & Hyq). exists y. rewrite lookup_insert_ne; [done|].
      intros ->. assert (y = x) as -> by congruence. unfold p in *. congruence.
  - intros s' y Hys Hz. destruct (Hy s' y Hys) as (y' & Hy' & _ & Ey).
    assert (s' <> s) as Hne by (by intros ->). rewrite Ey in * by done.
    destruct (Hses s' y Hy') as ((j & Hj & Hsj) & ? & Hc); [done|]. rewrite cnt_push in Hc by done.
    split; [|done]. destruct (decide (clientid_record y = p)) as [Ep|Hnp].
    + exists (unlink_session s i). rewrite Ep, lookup_insert_eq, session_list_unlink.
      split; [done|]. apply list_elem_of_filter. split; [done|]. congruence.
    + exists j. by rewrite lookup_insert_ne.
  - intros s' Hs'. apply Hsome', Hsh. by right.
  - intros sid s' Ht. destruct (Htabs sid s' Ht) as (y & Hys & Ey).
    destruct (decide (s' = s)) as [->|?]; [|exists y; by rewrite lookup_insert_ne].
    exists x'. rewrite lookup_insert_eq. split; [done|]. congruence.
  - intros s1 s2 x1 x2 (y1 & Hy1 & E1 & _)%Hy (y2 & Hy2 & E2 & _)%Hy E.
    eapply Hids; [done..|]. congruence.
  - intros s1 y (y' & Hy' & <- & _)%Hy. by eapply Hseq.
  - intros q Hq. by apply Hf1, Hsome.
  - intros q Hq. by apply Hf3, Hsome'.
Qed.

Lemma inv_delete_session hi hr hs w s x :
  inv hi hr hs (Some s) w -> w_sessions w !! s = Some x -> s ∉ hs ->
  ht_session_id w !! session_id x <> Some s ->
  (forall p i, w_ids w !! p = Some i -> s ∉ session_list i) ->
  inv hi hr hs None (set_w_sessions (delete s (w_sessions w)) w).
Proof.
  intros H Hs Hni Hnt Hnl.
  destruct H as [Htab Hrecs Hrefs Hheld Hlive Hown Hmin Hlist Hses Hsh Htabs Hids Hseq Hf1 Hf2 Hf3].
  split; cbn [set_w_sessions w_ids w_recs w_sessions ht_session_id global_sequence w_next]; try done.
  - intros p i Hi. destruct (Hlist p i Hi) as [? Hm]. split; [done|]. intros s' Hs'.
    rewrite lookup_delete_ne; [by apply Hm|]. intros <-. by eapply Hnl.
  - intros s' y [? Hy]%lookup_delete_Some _. apply Hses; [done|]. congruence.
  - intros s' Hs'. rewrite lookup_delete_ne by (by intros ->). by apply Hsh.
  - intros sid s' Ht. destruct (Htabs sid s' Ht) as (y & Hy & Ey). exists y.
    rewrite lookup_delete_ne; [done|]. intros <-. congruence.
  - intros s1 s2 x1 x2 [_ ?]%lookup_delete_Some [_ ?]%lookup_delete_Some. by apply Hids.
  - intros s1 y [_ ?]%lookup_delete_Some. by apply (Hseq s1).
  - intros q [y [_ ?]%lookup_delete_Some]. eauto.
Qed.

Lemma inv_set_session hi hr hs hs' w s x x' :
  inv hi hr hs None w -> w_sessions w !! s = Some x ->
  session_id x' = session_id x -> clientid_record x' = clientid_record x ->
  1 <= session_refcount x' ->
  session_refcount x + cnt s hs' <= session_refcount x' + cnt s hs ->
  (forall q, q <> s -> cnt q hs' = cnt q hs) ->
  inv hi hr hs' None (set_w_sessions (<[s := x']> (w_sessions w)) w).
Proof.
  intros H Hs Eid Ec H1 Hrc Hq.
  destruct H as [Htab Hrecs Hrefs Hheld Hlive Hown Hmin Hlist Hses Hsh Htabs Hids Hseq Hf1 Hf2 Hf3].
  assert (forall q, is_Some (<[s := x']> (w_sessions w) !! q) <-> is_Some (w_sessions w !! q)) as Hsome.
  { intros q. destruct (decide (q = s)) as [->|?];
      [rewrite lookup_insert_eq, Hs|rewrite lookup_insert_ne by done]; done. }
  assert (forall q y, <[s := x']> (w_sessions w) !! q = Some y -> exists y',
    w_sessions w !! q = Some y' /\ session_id y' = session_id y) as Hy.
  { intros q y [[<- <-]|[? ?]]%lookup_insert_Some; [by exists x|by exists y]. }
  split; cbn [set_w_sessions w_ids w_recs w_sessions ht_session_id global_sequence w_next]; try done.
  - intros p i Hi. destruct (Hlist p i Hi) as [? Hm]. split; [done|]. intros s' Hs'.
    destruct (Hm s' Hs') as (y & Hys & Hyq). destruct (decide (s' = s)) as [->|?].
    + exists x'. rewrite lookup_insert_eq. split; [done|]. congruence.
    + exists y. by rewrite lookup_insert_ne.
  - intros s' y [[<- <-]|[? Hys]]%lookup_insert_Some _.
    + destruct (Hses s x Hs) as (? & ? & ?); [done|]. rewrite Ec, Eid. split; [done|]. lia.
    + rewrite Hq by done. by apply Hses.
  - intros s' Hs'. apply Hsome. destruct (decide (s' = s)) as [->|?]; [eauto|].
    apply Hsh. apply cnt_elem. rewrite <- Hq by done. by apply cnt_elem.
  - intros sid s' Ht. destruct (Htabs sid s' Ht) as (y & Hys & Ey).
    destruct (decide (s' = s)) as [->|?]; [|exists y; by rewrite lookup_insert_ne].
    exists x'. rewrite lookup_insert_eq. split; [done|]. congruence.
  - intros s1 s2 x1 x2 (y1 & Hy1 & E1)%Hy (y2 & Hy2 & E2)%Hy E. eapply Hids; [done..|]. congruence.
  - intros s1 y (y' & Hy' & <-)%Hy. by eapply Hseq.
  - intros q Hq'. by apply Hf3, Hsome.
Qed.

Lemma dec_session_ref_ok hi hr hs w s (Q : unit -> client_world -> Prop) :
  inv hi hr (s :: hs) None w ->
  (forall w', inv hi hr hs None w' -> calm w w' ->
     (forall q, q <> s -> w_sessions w' !! q = w_sessions w !! q) ->
     ht_session_id w' = ht_session_id w -> Q tt w') ->
  wp (dec_session_ref s) Q w.
Proof.
  intros H HQ. destruct (inv_session_held _ _ _ _ _ H s) as [x Hx]; [by left|].
  destruct (inv_session _ _ _ _ _ H s x Hx) as ((i & Hi & Hsi) & H1 & Hc); [done|].
  rewrite cnt_push_eq in Hc. pose proof (cnt_nonneg s hs).
  unfold dec_session_ref, dec_session_ref_. wp_step. wp_step.
  set (x' := set_session_refcount (session_refcount x - 1) x).
  destruct (session_refcount x' =? 0) eqn:E.
  - apply Z.eqb_eq in E. change (session_refcount x - 1 = 0) in E.
    assert (ht_session_id w !! session_id x <> Some s) as Hnt.
    { intros Ht. rewrite bool_decide_true in Hc by done. cbn in Hc. lia. }
    assert (s ∉ hs) as Hni.
    { rewrite <- cnt_elem. unfold b2z in Hc. destruct (bool_decide _); lia. }
    pose proof (inv_unlink_session _ _ _ _ s x x' i H Hx Hi eq_refl) as Hu.
    apply wp_bind, (wp_upd_id _ _ i); [done|].
    apply wp_bind, (dec_client_id_ref_ok hi hr hs (Some s)); [exact Hu|]. intros w' Hi' Hsh'. wp_step.
    pose proof (shrinks_rest _ _ Hsh') as Er. apply HQ.
    + eapply inv_delete_session; [exact Hi'|rewrite Er; apply lookup_insert_eq|done| |].
      { rewrite Er. exact Hnt. }
      intros q j' (j & Hj & ->)%(shrinks_ids _ _ Hsh'). cbn in Hj.
      apply lookup_insert_Some in Hj as [[<- <-]|[Hne Hj]].
      { change (s ∉ session_list (unlink_session s i)). rewrite session_list_unlink.
        rewrite list_elem_of_filter. tauto. }
      change (s ∉ session_list j). intros Hsj.
      destruct (inv_list _ _ _ _ _ H q j Hj) as [_ Hm]. destruct (Hm s Hsj) as (y & Hy & Hyq).
      congruence.
    + split; cbn [set_w_sessions w_ids w_recs ht_confirmed_client_id ht_unconfirmed_client_id
        w_time global_sequence]; try (rewrite Er; done).
      { intros q j' (j & Hj & ->)%(shrinks_ids _ _ Hsh'). cbn in Hj.
        apply lookup_insert_Some in Hj as [[<- <-]|[Hne Hj]];
          [exists i; by destruct i|exists j; by destruct j]. }
      apply (shrinks_recs _ _ Hsh').
    + intros q Hq. cbn. rewrite lookup_delete_ne, Er by done. cbn. by rewrite lookup_insert_ne.
    + cbn. by rewrite Er.
  - apply Z.eqb_neq in E. change (session_refcount x - 1 <> 0) in E. wp_step. apply HQ.
    + eapply (inv_set_session _ _ (s :: hs) hs _ s x x'); try done; [cbn; lia| |].
      * rewrite cnt_push_eq. cbn. lia.
      * intros q Hq. by rewrite cnt_push.
    + split; try done; [apply (calm_ids w w), calm_refl|apply (calm_recs w w), calm_refl].
    + intros q Hq. cbn. by rewrite lookup_insert_ne.
    + done.
Qed.

(** Removes the entry of a session in the table; its reference is left. *)
Lemma inv_unhash_session hi hr hs w sid s :
  inv hi hr hs None w -> ht_session_id w !! sid = Some s ->
  inv hi hr (s :: hs) None (set_ht_session_id (delete sid (ht_session_id w)) w).
Proof.
  intros H Hs.
  destruct H as [Htab Hrecs Hrefs Hheld Hlive Hown Hmin Hlist Hses Hsh Htabs Hids Hseq Hf1 Hf2 Hf3].
  destruct (Htabs sid s Hs) as (x & Hx & Ex).
  split; cbn [set_ht_session_id w_ids w_recs w_sessions ht_session_id global_sequence w_next]; try done.
  - intros s' y Hy _. destruct (Hses s' y Hy) as (? & ? & Hc); [done|]. split; [done|]. split; [done|].
    destruct (decide (s' = s)) as [->|Hne].
    + replace y with x in * by congruence. rewrite Ex, lookup_delete_eq, cnt_push_eq in *.
      rewrite Hs, bool_decide_true in Hc by done. rewrite bool_decide_false by done. cbn in *. lia.
    + rewrite cnt_push by done. etrans; [|exact Hc]. apply Z.add_le_mono_r.
      destruct (bool_decide_reflect (delete sid (ht_session_id w) !! session_id y = Some s')) as [Hd|Hd].
      * apply lookup_delete_Some in Hd as [_ Hd]. by rewrite bool_decide_true.
      * unfold b2z. destruct (bool_decide _); lia.
  - intros s' [->|Hs']%elem_of_cons; eauto.
  - intros sid' s' [_ Ht]%lookup_delete_Some. by apply Htabs.
Qed.

Lemma nfs41_Session_Del_ok hi hr hs w sid (Q : bool -> client_world -> Prop) :
  inv hi hr hs None w ->
  (forall ok w', inv hi hr hs None w' -> calm w w' ->
     (forall q x, w_sessions w !! q = Some x -> session_id x <> sid ->
        w_sessions w' !! q = Some x) -> Q ok w') ->
  wp (nfs41_Session_Del sid) Q w.
Proof.
  intros H HQ. unfold nfs41_Session_Del, nfs41_Session_Del_. wp_step.
  destruct (ht_session_id w !! sid) as [s|] eqn:Hs; [|wp_step; apply HQ; [done|apply calm_refl|done]].
  wp_step. apply wp_bind, (dec_session_ref_ok hi hr hs); [by apply inv_unhash_session|].
  intros w' Hw' Hc Hq _. wp_step. apply HQ; [done|by destruct Hc; split|].
  intros q x Hx Hne. rewrite Hq; [done|]. intros ->.
  destruct (inv_session_tab _ _ _ _ _ H sid s Hs) as (y & Hy & Ey). congruence.
Qed.

Lemma del_sessions_ok hi hr hs w p i (Q : unit -> client_world -> Prop) :
  inv hi hr hs None w -> w_ids w !! p = Some i ->
  (forall w', inv hi hr hs None w' -> calm w w' -> Q tt w') ->
  wp (del_sessions_ dec_client_id_ref p) Q w.
Proof.
  intros H Hp HQ. unfold del_sessions_. wp_step.
  destruct (0 <? cid_minorversion i) eqn:Em; [|wp_step; apply HQ; [done|apply calm_refl]].
  apply Z.ltb_lt in Em. destruct (proj1 (inv_minor _ _ _ _ _ H p i Hp) Em) as [l Hl]. rewrite Hl.
  destruct (inv_list _ _ _ _ _ H p i Hp) as [Hnd Hm]. unfold session_list in *. rewrite Hl in *.
  cbn in Hnd, Hm.
  assert (forall s, s ∈ l -> is_Some (w_sessions w !! s)) as Hl' by (intros s (x & ? & _)%Hm; eauto).
  clear Hl Hm Hp Em. revert w H Hl' HQ.
  induction Hnd as [|s l Hs Hnd IH]; intros w H Hl HQ; [apply wp_ret, HQ; [done|apply calm_refl]|].
  cbn [for_each]. destruct (Hl s) as [x Hx]; [by left|].
  apply wp_bind, wp_bind. wp_step.
  apply wp_bind, (nfs41_Session_Del_ok hi hr hs); [done|]. intros ok w1 H1 Hc Hq. wp_step.
  apply IH; [done| |].
  - intros s' Hs'. destruct (Hl s') as [y Hy]; [by right|]. exists y. apply Hq; [done|].
    intros E. assert (s' = s) as -> by (by eapply (inv_session_ids _ _ _ _ _ H)). done.
  - intros w2 H2 Hc2. apply HQ; [done|]. by eapply calm_trans.
Qed.
End inv.
