(* ===== verification/ClientLife.v ===== *)
(** * Client identities of NFSv4: the life of a client id

    The invariant of ClientInv.v through the operations on one client id:
    its owners and their state, its expiry, its creation, confirmation and
    removal.  The release of an owner's state belongs to other components;
    [OwnerLaws] says what it promises. *)
From S2P Require Import Prelude Status Owners ClientData ClientInv.

(** The release of all state of an owner gives back the references of its
    states, and an open owner that was kept in the cache leaves it. *)
Class OwnerLaws `{ClientEnv} := {
  unlock_all_releases o : let o' := state_nfs4_owner_unlock_all o in
    so_ptr o' = so_ptr o /\ so_related_owner o' = so_related_owner o /\
    so_refcount o' = so_refcount o - Z.of_nat (length (so_state_list o));
  release_openstate_releases o : let o' := release_openstate o in
    so_ptr o' = so_ptr o /\ so_related_owner o' = so_related_owner o /\
    so_refcount o' = so_refcount o - Z.of_nat (length (so_state_list o)) - b2z (so_cached o)
}.

(** ** Lists of owners *)

Lemma find_owner_some so l o : find_owner so l = Some o -> o ∈ l /\ so_ptr o = so.
Proof.
  intros [Hin E]%List.find_some. apply bool_decide_eq_true in E.
  split; [by apply list_elem_of_In|done].
Qed.

Lemma find_owner_elem l o :
  NoDup (so_ptr <$> l) -> o ∈ l -> find_owner (so_ptr o) l = Some o.
Proof.
  induction l as [|a l IH]; [by intros _ ?%elem_of_nil|].
  intros [Ha Hl]%NoDup_cons [->|Hin]%elem_of_cons; unfold find_owner; cbn [List.find].
  - by rewrite bool_decide_true.
  - rewrite bool_decide_false; [by apply IH|]. intros E. apply Ha. rewrite E.
    by apply list_elem_of_fmap_2.
Qed.

Lemma find_owner_none so l : find_owner so l = None <-> so ∉ so_ptr <$> l.
Proof.
  split.
  - intros E (o & -> & Ho)%list_elem_of_fmap.
    eapply List.find_none in E; [|by apply list_elem_of_In].
    by apply bool_decide_eq_false in E.
  - intros H. destruct (find_owner so l) as [o|] eqn:E; [|done].
    apply find_owner_some in E as [? <-]. destruct H. by apply list_elem_of_fmap_2.
Qed.

Lemma on_owner_ptrs so f l :
  (forall o, so_ptr (f o) = so_ptr o) -> (so_ptr <$> on_owner so f l) = (so_ptr <$> l).
Proof.
  intros Hf. induction l as [|o l IH]; [done|]. cbn. f_equal; [|done].
  case_decide; [apply Hf|done].
Qed.

Lemma on_owner_other so f l : so ∉ so_ptr <$> l -> on_owner so f l = l.
Proof.
  induction l as [|o l IH]; [done|]. cbn. intros [? ?]%not_elem_of_cons.
  rewrite decide_False by done. f_equal. by apply IH.
Qed.

Lemma on_owner_elem so f l o : o ∈ on_owner so f l <->
  (exists o', o' ∈ l /\ so_ptr o' = so /\ o = f o') \/ (o ∈ l /\ so_ptr o <> so).
Proof.
  unfold on_owner. rewrite list_elem_of_fmap. split.
  - intros (o' & -> & Ho). case_decide; [left; eauto|by right].
  - intros [(o' & Ho & E & ->)|[Ho E]]; [exists o'|exists o].
    + by rewrite decide_True.
    + by rewrite decide_False.
Qed.

Lemma filter_owner_last so (rest : list owner_t) o :
  so ∉ so_ptr <$> rest -> so_ptr o = so ->
  filter (fun o => so_ptr o <> so) (rest ++ [o]) = rest.
Proof.
  intros Hr Ho. rewrite filter_app, filter_cons, decide_False by (by rewrite Ho; tauto).
  cbn. rewrite app_nil_r. clear Ho. induction rest as [|a rest IH]; [done|].
  cbn in Hr. apply not_elem_of_cons in Hr as [? ?].
  rewrite filter_cons, decide_True by done. by rewrite IH.
Qed.

Lemma find_owner_last so rest o :
  so ∉ so_ptr <$> rest -> so_ptr o = so -> find_owner so (rest ++ [o]) = Some o.
Proof.
  intros Hr <-. induction rest as [|a rest IH]; unfold find_owner; cbn.
  - by rewrite bool_decide_true.
  - cbn in Hr. apply not_elem_of_cons in Hr as [? ?].
    rewrite bool_decide_false by done. by apply IH.
Qed.

Lemma on_owner_last so f rest o :
  so ∉ so_ptr <$> rest -> so_ptr o = so -> on_owner so f (rest ++ [o]) = rest ++ [f o].
Proof.
  intros Hr Ho. unfold on_owner. rewrite map_app. cbn. rewrite decide_True by done.
  f_equal. by apply on_owner_other.
Qed.

Lemma wp_upd_owner k p so f i (Q : unit -> client_world -> Prop) w :
  w_ids w !! p = Some i ->
  Q tt (set_w_ids (<[p := set_owners k (on_owner so f (owners_of k i)) i]> (w_ids w)) w) ->
  wp (upd_owner k p so f) Q w.
Proof. intros H HQ. unfold upd_owner. by eapply wp_upd_id. Qed.

(** ** Owners that go *)

Definition drop_ref (o : owner_t) : owner_t := set_so_refcount (so_refcount o - 1) o.

Definition drop_lock_owner (o : owner_t) (rest : list owner_t) (i : nfs_client_id_t)
    : nfs_client_id_t :=
  set_cid_lockowners rest
    (match so_related_owner o with
     | Some r => set_cid_openowners (on_owner r drop_ref (cid_openowners i)) i
     | None => i
     end).

Lemma own_ok_drop_lock i o rest :
  own_ok i -> cid_lockowners i = o :: rest -> own_ok (drop_lock_owner o rest i).
Proof.
  intros H El. destruct (own_lock i H o) as (_ & _ & oo & Hoo & Er); [rewrite El; left|].
  unfold drop_lock_owner. rewrite Er. split; cbn.
  - rewrite on_owner_ptrs by done. apply H.
  - pose proof (own_lock_nodup i H) as Hn. rewrite El in Hn. by apply NoDup_cons in Hn as [_ ?].
  - intros o1 [(o' & Ho' & E & ->)|[Ho1 Hne]]%on_owner_elem;
      [destruct (own_open i H o' Ho') as (? & ? & Hc)|destruct (own_open i H o1 Ho1) as (? & ? & Hc)];
      rewrite El, filter_cons in Hc; (split; [done|]; split; [done|]); cbn.
    + rewrite decide_True in Hc by (unfold related_to; rewrite Er, E; by apply bool_decide_true).
      cbn [length] in Hc. lia.
    + rewrite decide_False in Hc; [done|]. unfold related_to. rewrite Er, bool_decide_eq_true.
      congruence.
  - intros o1 Ho1. destruct (own_lock i H o1) as (? & ? & o' & Ho' & Er'); [rewrite El; by right|].
    split; [done|]. split; [done|]. destruct (decide (so_ptr o' = so_ptr oo)) as [E|Hne].
    + exists (drop_ref o'). split; [|done]. apply on_owner_elem. left. eauto.
    + exists o'. split; [|done]. apply on_owner_elem. by right.
  - intros o1 [(o' & Ho' & E & ->)|[Ho1 Hne]]%on_owner_elem;
      [exact (own_cached i H o' Ho')|exact (own_cached i H o1 Ho1)].
  - intros o1 Ho1. apply (own_lock_states i H). rewrite El. by right.
Qed.

Lemma own_ok_drop_open i o rest :
  own_ok i -> cid_lockowners i = [] -> cid_openowners i = o :: rest ->
  own_ok (set_cid_openowners rest i).
Proof.
  intros H El Eo. split; cbn.
  - pose proof (own_open_nodup i H) as Hn. rewrite Eo in Hn. by apply NoDup_cons in Hn as [_ ?].
  - apply H.
  - intros o1 Ho1. apply (own_open i H). rewrite Eo. by right.
  - rewrite El. by intros o1 ?%elem_of_nil.
  - intros o1 Ho1. apply (own_cached i H). rewrite Eo. by right.
  - rewrite El. by intros o1 ?%elem_of_nil.
Qed.

(** ** Expiry and the tables *)

Definition ptr_without (p : positive) (a : option positive * option positive)
    : option positive * option positive :=
  (if decide (a.1 = Some p) then None else a.1, if decide (a.2 = Some p) then None else a.2).

Lemma ptrs_detach p c : ptrs (detach_record p c) = ptr_without p (ptrs c).
Proof.
  unfold detach_record, ptr_without, ptrs. cbn.
  destruct (decide (cr_confirmed_rec c = Some p)); cbn;
    destruct (decide (cr_unconfirmed_rec c = Some p)); done.
Qed.

Lemma ptr_without_1 p a q b : ptr_without p a = (Some q, b) -> a.1 = Some q /\ q <> p.
Proof.
  unfold ptr_without. intros [= E _]. destruct (decide (a.1 = Some p)); [done|].
  split; [done|]. intros ->. done.
Qed.

Lemma ptr_without_2 p a q b : ptr_without p a = (b, Some q) -> a.2 = Some q /\ q <> p.
Proof.
  unfold ptr_without. intros [= _ E]. destruct (decide (a.2 = Some p)); [done|].
  split; [done|]. intros ->. done.
Qed.

Lemma ptr_without_keep_1 p a q : a.1 = Some q -> q <> p -> exists b, ptr_without p a = (Some q, b).
Proof. unfold ptr_without. intros -> Hne. rewrite decide_False by congruence. eauto. Qed.

Lemma ptr_without_keep_2 p a q : a.2 = Some q -> q <> p -> exists b, ptr_without p a = (b, Some q).
Proof.
  unfold ptr_without. intros -> Hne. rewrite (decide_False (P := Some q = Some p)) by congruence. eauto.
Qed.

(** The table that a client id of this state is in. *)
Definition table_for (st : nfs_clientid_confirm_state_t) : cid_table :=
  match st with
  | CONFIRMED_CLIENT_ID | STALE_CLIENT_ID => confirmed_table
  | _ => unconfirmed_table
  end.

Definition without_key (ht ht' : cid_table) (c : Z) (m : gmap Z positive) : gmap Z positive :=
  match ht, ht' with
  | confirmed_table, confirmed_table | unconfirmed_table, unconfirmed_table => delete c m
  | _, _ => m
  end.

(** The pointers of the records without those to [p]: only the record of [p]
    has any. *)
Definition recv_without (p : positive) (r : option positive)
    (recv : gmap positive (option positive * option positive)) :=
  match r with Some r => alter (ptr_without p) r recv | None => recv end.

Lemma recv_without_lookup idv recv hc hu p c st ro r a :
  tab_ok idv recv hc hu -> idv !! p = Some (c, st, ro) ->
  recv_without p ro recv !! r = Some a -> exists a',
    recv !! r = Some a' /\ a = ptr_without p a'.
Proof.
  intros H Hp Hr.
  assert (forall a', recv !! r = Some a' -> ro <> Some r -> a' = ptr_without p a') as Hkeep.
  { intros [x y] Ha Hne. unfold ptr_without. cbn. f_equal; case_decide as E; subst; try done; exfalso.
    - destruct (tab_rec_conf _ _ _ _ H r p y Ha) as (? & ?). naive_solver.
    - destruct (tab_rec_unconf _ _ _ _ H r p x Ha) as (? & ? & ?). naive_solver. }
  unfold recv_without in Hr. destruct ro as [r0|]; [|exists a; naive_solver].
  destruct (decide (r = r0)) as [->|Hne].
  - rewrite lookup_alter_eq in Hr. destruct (recv !! r0) as [a'|]; [|done]. injection Hr as <-. eauto.
  - rewrite lookup_alter_ne in Hr by done. exists a. split; [done|]. apply Hkeep; congruence.
Qed.

Lemma recv_without_some p ro recv r :
  is_Some (recv_without p ro recv !! r) <-> is_Some (recv !! r).
Proof.
  unfold recv_without. destruct ro as [r0|]; [|done].
  destruct (decide (r = r0)) as [->|Hne];
    [rewrite lookup_alter_eq, fmap_is_Some|rewrite lookup_alter_ne by done]; done.
Qed.

Lemma recv_without_keep p ro recv r a :
  recv !! r = Some a -> exists a', recv_without p ro recv !! r = Some a' /\
    (a' = a \/ a' = ptr_without p a).
Proof.
  intros Hr. unfold recv_without. destruct ro as [r0|]; [|eauto].
  destruct (decide (r = r0)) as [->|Hne].
  - rewrite lookup_alter_eq, Hr. cbn. eauto.
  - rewrite lookup_alter_ne by done. eauto.
Qed.

Lemma recv_keep_1 p ro recv r q b :
  recv !! r = Some (Some q, b) -> q <> p -> exists b', recv_without p ro recv !! r = Some (Some q, b').
Proof.
  intros Hr Hne. destruct (recv_without_keep p ro recv r _ Hr) as (a' & Ha' & [->| ->]); [eauto|].
  destruct (ptr_without_keep_1 p (Some q, b) q eq_refl Hne) as (b' & E). rewrite E in Ha'. eauto.
Qed.

Lemma recv_keep_2 p ro recv r q b :
  recv !! r = Some (b, Some q) -> q <> p -> exists b', recv_without p ro recv !! r = Some (b', Some q).
Proof.
  intros Hr Hne. destruct (recv_without_keep p ro recv r _ Hr) as (a' & Ha' & [->| ->]); [eauto|].
  destruct (ptr_without_keep_2 p (b, Some q) q eq_refl Hne) as (b' & E). rewrite E in Ha'. eauto.
Qed.

Lemma without_key_some ht ht' c (m : gmap Z positive) k q :
  without_key ht ht' c m !! k = Some q -> m !! k = Some q.
Proof. destruct ht, ht'; cbn; try done; by intros [_ ?]%lookup_delete_Some. Qed.

Lemma without_key_keep ht ht' c (m : gmap Z positive) k q p :
  (ht = ht' -> m !! c = Some p) -> m !! k = Some q -> q <> p ->
  without_key ht ht' c m !! k = Some q.
Proof.
  intros Hc Hk Hne. destruct ht, ht'; cbn; try done;
    (rewrite lookup_delete_ne; [done|intros ->; specialize (Hc eq_refl); congruence]).
Qed.

(** A client id expires: it leaves its table and its record forgets it. *)
Lemma tab_ok_expire idv recv hc hu p c st ro ro' :
  tab_ok idv recv hc hu -> idv !! p = Some (c, st, ro) -> st <> EXPIRED_CLIENT_ID ->
  (st = UNCONFIRMED_CLIENT_ID -> hu !! c = Some p) -> ro' = None \/ ro' = ro ->
  tab_ok (<[p := (c, EXPIRED_CLIENT_ID, ro')]> idv) (recv_without p ro recv)
    (without_key confirmed_table (table_for st) c hc)
    (without_key unconfirmed_table (table_for st) c hu).
Proof.
  intros H Hp Hst Hun Hro.
  assert (confirmed_table = table_for st -> hc !! c = Some p) as Hc1.
  { intros E. destruct st; try done;
      [by apply (tab_confirmed _ _ _ _ H p c ro)|by apply (tab_stale _ _ _ _ H p c ro)]. }
  assert (unconfirmed_table = table_for st -> hu !! c = Some p) as Hu1.
  { intros E. destruct st; try done; auto. }
  assert (forall k q, without_key confirmed_table (table_for st) c hc !! k = Some q -> q <> p) as Hcp.
  { intros k q Hk ->. pose proof (without_key_some _ _ _ _ _ _ Hk) as Hk'.
    destruct (tab_conf _ _ _ _ H k p Hk') as (st' & r & Hi & Hs). rewrite Hp in Hi.
    injection Hi as <- <- <-. by destruct Hs as [-> | ->]; cbn in Hk; rewrite lookup_delete_eq in Hk. }
  assert (forall k q, without_key unconfirmed_table (table_for st) c hu !! k = Some q -> q <> p) as Hup.
  { intros k q Hk ->. pose proof (without_key_some _ _ _ _ _ _ Hk) as Hk'.
    destruct (tab_unconf _ _ _ _ H k p Hk') as (r & a & Hi & _). rewrite Hp in Hi.
    injection Hi as <- -> ->. cbn in Hk. by rewrite lookup_delete_eq in Hk. }
  split.
  - intros k q Hk. rewrite lookup_insert_ne by (by apply not_eq_sym, (Hcp k)).
    by apply (tab_conf _ _ _ _ H), (without_key_some confirmed_table (table_for st) c).
  - intros k q Hk. pose proof (Hup k q Hk) as Hne. rewrite lookup_insert_ne by done.
    destruct (tab_unconf _ _ _ _ H k q) as (r & a & Hi & Hr).
    { by apply (without_key_some unconfirmed_table (table_for st) c). }
    destruct (recv_keep_2 p ro recv r q a Hr Hne) as (a' & ?). eauto.
  - intros q k r [[<- [=]]|[Hne Hq]]%lookup_insert_Some.
    destruct (tab_confirmed _ _ _ _ H q k r Hq) as (Hk & r' & a & -> & Hr).
    split; [by eapply without_key_keep|].
    destruct (recv_keep_1 p ro recv r' q a Hr) as (a' & ?); [done|]. eauto.
  - intros q k r [[<- [=]]|[Hne Hq]]%lookup_insert_Some.
    destruct (tab_stale _ _ _ _ H q k r Hq) as (Hk & ->). split; [by eapply without_key_keep|done].
  - intros r q a Hr. destruct (recv_without_lookup _ _ _ _ _ _ _ _ _ _ H Hp Hr) as ([x y] & Hr' & E).
    symmetry in E. apply ptr_without_1 in E as [E Hne]. cbn in E. subst x.
    destruct (tab_rec_conf _ _ _ _ H r q y Hr') as (k & ?). exists k. by rewrite lookup_insert_ne.
  - intros r q a Hr. destruct (recv_without_lookup _ _ _ _ _ _ _ _ _ _ H Hp Hr) as ([x y] & Hr' & E).
    symmetry in E. apply ptr_without_2 in E as [E Hne]. cbn in E. subst y.
    destruct (tab_rec_unconf _ _ _ _ H r q x Hr') as (k & ? & Hk). exists k.
    rewrite lookup_insert_ne by done. split; [done|]. by eapply without_key_keep.
  - intros q k st' r [[<- [= <- <- ->]]|[Hne Hq]]%lookup_insert_Some; apply recv_without_some.
    + destruct Hro as [?|Hro]; [done|]. rewrite <- Hro in Hp. by eapply (tab_link _ _ _ _ H).
    + by eapply (tab_link _ _ _ _ H).
Qed.

(** A confirmed client id becomes stale: it stays in its table. *)
Lemma tab_ok_stale idv recv hc hu p c ro :
  tab_ok idv recv hc hu -> idv !! p = Some (c, CONFIRMED_CLIENT_ID, ro) ->
  tab_ok (<[p := (c, STALE_CLIENT_ID, None)]> idv) (recv_without p ro recv) hc hu.
Proof.
  intros H Hp. destruct (tab_confirmed _ _ _ _ H p c ro Hp) as [Hc _].
  split.
  - intros k q Hk. destruct (decide (q = p)) as [->|Hne].
    + destruct (tab_conf _ _ _ _ H k p Hk) as (? & ? & Hi & _).
      exists STALE_CLIENT_ID, None. rewrite lookup_insert_eq. naive_solver.
    + rewrite lookup_insert_ne by done. by apply (tab_conf _ _ _ _ H).
  - intros k q Hk. destruct (tab_unconf _ _ _ _ H k q Hk) as (r & a & Hi & Hr).
    assert (q <> p) as Hne by naive_solver. rewrite lookup_insert_ne by done.
    destruct (recv_keep_2 p ro recv r q a Hr Hne) as (a' & ?). eauto.
  - intros q k r [[<- [=]]|[Hne Hq]]%lookup_insert_Some.
    destruct (tab_confirmed _ _ _ _ H q k r Hq) as (Hk & r' & a & -> & Hr). split; [done|].
    destruct (recv_keep_1 p ro recv r' q a Hr) as (a' & ?); [done|]. eauto.
  - intros q k r [[<- [= <- <-]]|[Hne Hq]]%lookup_insert_Some; [done|].
    by apply (tab_stale _ _ _ _ H).
  - intros r q a Hr. destruct (recv_without_lookup _ _ _ _ _ _ _ _ _ _ H Hp Hr) as ([x y] & Hr' & E).
    symmetry in E. apply ptr_without_1 in E as [E Hne]. cbn in E. subst x.
    destruct (tab_rec_conf _ _ _ _ H r q y Hr') as (k & ?). exists k. by rewrite lookup_insert_ne.
  - intros r q a Hr. destruct (recv_without_lookup _ _ _ _ _ _ _ _ _ _ H Hp Hr) as ([x y] & Hr' & E).
    symmetry in E. apply ptr_without_2 in E as [E Hne]. cbn in E. subst y.
    destruct (tab_rec_unconf _ _ _ _ H r q x Hr') as (k & ? & Hk). exists k.
    by rewrite lookup_insert_ne.
  - intros q k st' r [[<- [=]]|[Hne Hq]]%lookup_insert_Some. apply recv_without_some.
    by eapply (tab_link _ _ _ _ H).
Qed.

Section life.
Context `{Env : ClientEnv}.

Lemma inv_drop_owner hi hr hs w p i i2 :
  inv hi hr hs None w -> w_ids w !! p = Some i -> own_ok i2 -> ident i2 = ident i ->
  cb_session_list i2 = cb_session_list i -> cid_minorversion i2 = cid_minorversion i ->
  cid_refcount i2 = cid_refcount i ->
  (length (cid_openowners i2) + length (cid_lockowners i2) + 1
   = length (cid_openowners i) + length (cid_lockowners i))%nat ->
  inv (p :: hi) hr hs None (set_w_ids (<[p := i2]> (w_ids w)) w).
Proof.
  intros H Hp Hown Eid Es Em Erc Hlen.
  assert (hashed (set_w_ids (<[p := i2]> (w_ids w)) w) p i2 = hashed w p i) as Eh.
  { injection Eid as Ec _ _. unfold hashed. by rewrite Ec. }
  eapply (inv_change _ _ _ _ _ _ _ _ p i i2); try done.
  - cbn. rewrite <- fmap_insert, (same_shape_ident _ _ i) by done. apply H.
  - cbn. eapply recs_ok_ids; [done| |apply H]. by injection Eid.
  - unfold id_refs, session_list. rewrite Eh, Es, Erc, cnt_push_eq. lia.
  - apply cnt_push.
  - rewrite Eh. injection Eid as _ -> _.
    destruct (inv_live _ _ _ _ _ H p i Hp) as [?|[?|(Ho & Hl & _)]]; [by left|by right; left|].
    rewrite Ho, Hl in Hlen. cbn in Hlen. lia.
Qed.

Lemma dec_open_owner_live dec p so i o (Q : unit -> client_world -> Prop) w :
  w_ids w !! p = Some i -> find_owner so (cid_openowners i) = Some o -> 1 < so_refcount o ->
  Q tt (set_w_ids (<[p := set_cid_openowners (on_owner so drop_ref (cid_openowners i)) i]>
         (w_ids w)) w) ->
  wp (dec_state_owner_ref_ dec open_owner p so) Q w.
Proof.
  intros Hp Ho Hr HQ. unfold dec_state_owner_ref_. wp_step. cbn [owners_of]. rewrite Ho.
  apply wp_bind, (wp_upd_owner open_owner p so _ i); [done|].
  replace (so_refcount o - 1 =? 0) with false by (symmetry; apply Z.eqb_neq; lia).
  cbn [negb]. unfold assert_that. rewrite (proj2 (Z.ltb_lt _ _)) by lia. by apply wp_ret.
Qed.

(** The world after a change of one client id. *)
Definition with_id (p : positive) (i : nfs_client_id_t) (w : client_world) : client_world :=
  set_w_ids (<[p := i]> (w_ids w)) w.

Lemma with_id_lookup p i w : w_ids (with_id p i w) !! p = Some i.
Proof. apply lookup_insert_eq. Qed.

Lemma with_id_twice p i j w : with_id p j (with_id p i w) = with_id p j w.
Proof. unfold with_id. cbn. by rewrite insert_insert_eq. Qed.

Lemma wp_upd_with p f i (Q : unit -> client_world -> Prop) w :
  wp (upd_id p f) Q (with_id p i w) <-> Q tt (with_id p (f i) w).
Proof.
  unfold upd_id, wp, mbind, CM_bind, get_id. rewrite with_id_lookup.
  cbn. by rewrite <- (with_id_twice p i (f i) w).
Qed.

Lemma wp_upd_owner_with k p so f i (Q : unit -> client_world -> Prop) w :
  wp (upd_owner k p so f) Q (with_id p i w) <->
  Q tt (with_id p (set_owners k (on_owner so f (owners_of k i)) i) w).
Proof. exact (wp_upd_with p _ i Q w). Qed.

Lemma expire_lock_step hi hr hs w p i o o' rest (Q : unit -> client_world -> Prop) :
  inv hi hr hs None w -> w_ids w !! p = Some i -> cid_lockowners i = o :: rest ->
  so_ptr o' = so_ptr o -> so_related_owner o' = so_related_owner o -> so_refcount o' = 1 ->
  (forall w', inv hi hr hs None w' ->
     shrinks (with_id p (drop_lock_owner o rest i) w) w' -> Q tt w') ->
  wp (put_id p (set_owners lock_owner (rest ++ [o']) i);;
      dec_state_owner_ref lock_owner p (so_ptr o)) Q w.
Proof.
  intros H Hp El Ep Er E1 HQ. pose proof (inv_own _ _ _ _ _ H p i Hp) as Hown.
  assert (so_ptr o ∉ so_ptr <$> rest) as Hni.
  { pose proof (own_lock_nodup i Hown) as Hn. rewrite El in Hn. by apply NoDup_cons in Hn as [? _]. }
  destruct (own_lock i Hown o) as (_ & _ & oo & Hoo & Eoo); [rewrite El; left|].
  assert (inv (p :: hi) hr hs None (with_id p (drop_lock_owner o rest i) w)) as Hd.
  { apply (inv_drop_owner _ _ _ _ _ i); try done; [by apply own_ok_drop_lock|..];
      unfold drop_lock_owner; rewrite Eoo; try done.
    cbn. unfold on_owner. rewrite length_map, El. cbn. lia. }
  unfold drop_lock_owner in Hd. rewrite Eoo in Hd.
  apply wp_bind, wp_modify. change (set_w_ids _ w) with (with_id p (set_owners lock_owner (rest ++ [o']) i) w).
  unfold dec_state_owner_ref, dec_state_owner_ref_ at 1.
  apply wp_bind, (wp_get_id _ _ _ _ (with_id_lookup _ _ _)). cbn [owners_of set_owners cid_lockowners set_cid_lockowners].
  rewrite find_owner_last by done. apply wp_bind, wp_upd_owner_with.
  rewrite E1, Er, Eoo. cbn [Z.sub Z.eqb negb Z.add Z.opp Z.pos_sub owners_of set_owners].
  apply wp_bind. eapply (dec_open_owner_live _ _ _ _ oo); [apply with_id_lookup| |..].
  - cbn. apply find_owner_elem; [apply Hown|done].
  - destruct (own_open i Hown oo Hoo) as (_ & ? & ->). rewrite El, filter_cons.
    rewrite decide_True by (unfold related_to; rewrite Eoo; by apply bool_decide_true). cbn [length]. lia.
  - change (set_w_ids (<[p := ?j]> _) _) with (with_id p j (with_id p
      (set_cid_lockowners (on_owner (so_ptr o) (fun o => set_so_refcount (so_refcount o - 1) o)
         (rest ++ [o'])) (set_cid_lockowners (rest ++ [o']) i)) w)).
    rewrite with_id_twice. apply wp_bind, wp_upd_with.
    cbn [owners_of set_owners cid_lockowners set_cid_lockowners set_cid_openowners cid_openowners].
    rewrite on_owner_last, filter_owner_last by done.
    apply (dec_client_id_ref_ok hi hr hs None); [exact Hd|].
    intros w' Hw' Hsh. apply HQ; [done|]. unfold drop_lock_owner. by rewrite Eoo.
Qed.

Lemma expire_open_step hi hr hs w p i o o' rest (Q : unit -> client_world -> Prop) :
  inv hi hr hs None w -> w_ids w !! p = Some i -> cid_lockowners i = [] ->
  cid_openowners i = o :: rest ->
  so_ptr o' = so_ptr o -> so_related_owner o' = so_related_owner o -> so_refcount o' = 1 ->
  (forall w', inv hi hr hs None w' ->
     shrinks (with_id p (set_cid_openowners rest i) w) w' -> Q tt w') ->
  wp (put_id p (set_owners open_owner (rest ++ [o']) i);;
      dec_state_owner_ref open_owner p (so_ptr o)) Q w.
Proof.
  intros H Hp El Eo Ep Er E1 HQ. pose proof (inv_own _ _ _ _ _ H p i Hp) as Hown.
  assert (so_ptr o ∉ so_ptr <$> rest) as Hni.
  { pose proof (own_open_nodup i Hown) as Hn. rewrite Eo in Hn. by apply NoDup_cons in Hn as [? _]. }
  destruct (own_open i Hown o) as (Eoo & _); [rewrite Eo; left|].
  assert (inv (p :: hi) hr hs None (with_id p (set_cid_openowners rest i) w)) as Hd.
  { apply (inv_drop_owner _ _ _ _ _ i); try done; [by eapply own_ok_drop_open|].
    cbn. rewrite Eo. cbn. lia. }
  apply wp_bind, wp_modify. change (set_w_ids _ w) with (with_id p (set_owners open_owner (rest ++ [o']) i) w).
  unfold dec_state_owner_ref, dec_state_owner_ref_.
  apply wp_bind, (wp_get_id _ _ _ _ (with_id_lookup _ _ _)). cbn [owners_of set_owners cid_openowners set_cid_openowners].
  rewrite find_owner_last by done. apply wp_bind, wp_upd_owner_with.
  rewrite E1, Er, Eoo. cbn [Z.sub Z.eqb negb Z.add Z.opp Z.pos_sub owners_of set_owners].
  apply wp_bind, wp_ret, wp_bind, wp_upd_with.
  cbn [owners_of set_owners cid_lockowners set_cid_lockowners set_cid_openowners cid_openowners].
  rewrite on_owner_last, filter_owner_last by done.
  apply (dec_client_id_ref_ok hi hr hs None); [exact Hd|done].
Qed.

(** ** Expiry *)

Definition drop_key (ht : cid_table) (c : Z) (w : client_world) : client_world :=
  set_table ht (delete c (table_of ht w)) w.

Lemma drop_key_conf ht c w :
  ht_confirmed_client_id (drop_key ht c w)
  = without_key confirmed_table ht c (ht_confirmed_client_id w).
Proof. by destruct ht. Qed.

Lemma drop_key_unconf ht c w :
  ht_unconfirmed_client_id (drop_key ht c w)
  = without_key unconfirmed_table ht c (ht_unconfirmed_client_id w).
Proof. by destruct ht. Qed.

Lemma hashed_nonneg w p i : 0 <= hashed w p i.
Proof. unfold hashed, b2z. repeat destruct (bool_decide _); lia. Qed.

(** A client id that is hashed is in the table of its state, and only there. *)
Lemma hashed_in hi hr hs z w p i :
  inv hi hr hs z w -> w_ids w !! p = Some i -> 0 < hashed w p i ->
  cid_confirmed i <> EXPIRED_CLIENT_ID /\ hashed w p i = 1 /\
  table_of (table_for (cid_confirmed i)) w !! cid_clientid i = Some p.
Proof.
  intros H Hp.
  assert ((ident <$> w_ids w) !! p
    = Some (cid_clientid i, cid_confirmed i, cid_client_record i)) as Hv by (by apply ids_view).
  pose proof (tab_conf _ _ _ _ (inv_tab _ _ _ _ _ H) (cid_clientid i) p) as Hc.
  pose proof (tab_unconf _ _ _ _ (inv_tab _ _ _ _ _ H) (cid_clientid i) p) as Hu.
  unfold hashed.
  destruct (bool_decide_reflect (ht_confirmed_client_id w !! cid_clientid i = Some p)) as [Ec|Ec];
  destruct (bool_decide_reflect (ht_unconfirmed_client_id w !! cid_clientid i = Some p)) as [Eu|Eu];
    cbn; intros Hh; try lia.
  - destruct (Hc Ec) as (st & r & E & Hst). destruct (Hu Eu) as (r' & a & E' & _).
    rewrite E in E'. injection E' as -> _. by destruct Hst.
  - destruct (Hc Ec) as (st & r & E & Hst). rewrite Hv in E. injection E as E _.
    destruct Hst as [-> | ->]; rewrite E; done.
  - destruct (Hu Eu) as (r' & a & E & _). rewrite Hv in E. injection E as E _. by rewrite E.
Qed.

Lemma hashed_drop_other w w' ht c p q j :
  ht_confirmed_client_id w' = without_key confirmed_table ht c (ht_confirmed_client_id w) ->
  ht_unconfirmed_client_id w' = without_key unconfirmed_table ht c (ht_unconfirmed_client_id w) ->
  table_of ht w !! c = Some p -> q <> p -> hashed w' q j = hashed w q j.
Proof.
  intros Ec Eu Hp Hne. unfold hashed. rewrite Ec, Eu.
  destruct ht; cbn in *; f_equal; f_equal; apply bool_decide_ext;
    (destruct (decide (cid_clientid j = c)) as [->|Hk];
      [rewrite lookup_delete_eq; naive_solver|by rewrite lookup_delete_ne]).
Qed.

Lemma hashed_drop_self hi hr hs z w w' p i i' :
  inv hi hr hs z w -> w_ids w !! p = Some i -> 0 < hashed w p i ->
  cid_clientid i' = cid_clientid i ->
  ht_confirmed_client_id w' = without_key confirmed_table (table_for (cid_confirmed i))
    (cid_clientid i) (ht_confirmed_client_id w) ->
  ht_unconfirmed_client_id w' = without_key unconfirmed_table (table_for (cid_confirmed i))
    (cid_clientid i) (ht_unconfirmed_client_id w) ->
  hashed w' p i' = 0.
Proof.
  intros H Hp Hh Ec Hc Hu. destruct (hashed_in _ _ _ _ _ _ _ H Hp Hh) as (_ & H1 & Ht).
  unfold hashed in *. rewrite Ec, Hc, Hu. destruct (table_for _); cbn in *.
  - rewrite lookup_delete_eq. rewrite Ht in H1.
    rewrite (bool_decide_true (Some p = Some p)) in H1 by done.
    rewrite (bool_decide_false (None = Some p)) by done. cbn in *. lia.
  - rewrite lookup_delete_eq. rewrite Ht in H1.
    rewrite (bool_decide_true (Some p = Some p)) in H1 by done.
    rewrite (bool_decide_false (None = Some p)) by done. cbn in *. lia.
Qed.

Lemma inv_unhash hi hr hr' hs w w' p i ro' :
  inv hi hr hs None w -> w_ids w !! p = Some i -> 0 < hashed w p i ->
  ro' = None \/ ro' = cid_client_record i ->
  let i' := set_cid_confirmed EXPIRED_CLIENT_ID (set_cid_client_record ro' i) in
  let ht := table_for (cid_confirmed i) in
  w_ids w' = <[p := i']> (w_ids w) -> w_sessions w' = w_sessions w ->
  ht_session_id w' = ht_session_id w -> global_sequence w' = global_sequence w ->
  w_next w' = w_next w ->
  ht_confirmed_client_id w' = without_key confirmed_table ht (cid_clientid i) (ht_confirmed_client_id w) ->
  ht_unconfirmed_client_id w' = without_key unconfirmed_table ht (cid_clientid i) (ht_unconfirmed_client_id w) ->
  (ptrs <$> w_recs w') = recv_without p (cid_client_record i) (ptrs <$> w_recs w) ->
  recs_ok (<[p := i']> (w_ids w)) (w_recs w') (ht_client_record w') hr' ->
  inv (p :: hi) hr' hs None w'.
Proof.
  intros H Hp Hh Hro i' ht Ei Ess Eht Egs Enx Ec Eu Er Hrec.
  destruct (hashed_in _ _ _ _ _ _ _ H Hp Hh) as (Hst & H1 & Ht).
  pose proof (hashed_drop_self _ _ _ _ _ w' _ _ i' H Hp Hh eq_refl Ec Eu) as H0.
  eapply (inv_change _ _ _ _ _ _ _ _ p i i'); try done.
  - rewrite Er, Ec, Eu. apply tab_ok_expire; [apply H|by apply ids_view|done| |done].
    intros E. rewrite E in Ht. exact Ht.
  - intros q. rewrite <- !recs_view_some, Er. apply recv_without_some.
  - by destruct (inv_own _ _ _ _ _ H p i Hp).
  - intros q j Hne Hj. by eapply hashed_drop_other.
  - unfold id_refs. rewrite H0, H1, cnt_push_eq.
    change (session_list i') with (session_list i). change (cid_refcount i') with (cid_refcount i).
    change (cid_openowners i') with (cid_openowners i).
    change (cid_lockowners i') with (cid_lockowners i). lia.
  - apply cnt_push.
  - by left.
Qed.

Lemma calm_with_id p i i2 w :
  w_ids w !! p = Some i -> calm_id i i2 -> calm w (with_id p i2 w).
Proof.
  intros Hp Hc. destruct (calm_refl w) as [Hi ? ? ? ? ? ?]. split; try done.
  cbn. intros q j [[<- <-]|[_ Hj]]%lookup_insert_Some; eauto.
Qed.

Lemma shrinks_with_id hi hr hs w w' p i i2 :
  inv hi hr hs None w' -> p ∈ hi -> w_ids w !! p = Some i -> calm_id i i2 ->
  shrinks (with_id p i2 w) w' ->
  calm w w' /\ exists i', w_ids w' !! p = Some i' /\ i' = set_cid_refcount (cid_refcount i') i2.
Proof.
  intros H Hp Hi Hc Hs. split.
  - eapply calm_trans; [by eapply calm_with_id|by apply shrinks_calm].
  - destruct (inv_held _ _ _ _ _ H p Hp) as [i' Hi']. exists i'. split; [done|].
    apply (shrinks_ids _ _ Hs) in Hi' as (j & Hj & E). rewrite with_id_lookup in Hj.
    by injection Hj as ->.
Qed.

Lemma calm_drop_lock o rest i : calm_id i (drop_lock_owner o rest i).
Proof. unfold drop_lock_owner, calm_id. destruct (so_related_owner o); by destruct i. Qed.

Context {Laws : OwnerLaws}.

Lemma expire_locks_ok n hi hr hs w p i (Q : unit -> client_world -> Prop) :
  inv hi hr hs None w -> p ∈ hi -> w_ids w !! p = Some i ->
  (length (cid_lockowners i) <= n)%nat ->
  (forall w' i', inv hi hr hs None w' -> calm w w' -> w_ids w' !! p = Some i' ->
     cid_lockowners i' = [] -> Q tt w') ->
  wp (expire_owners lock_owner state_nfs4_owner_unlock_all n p) Q w.
Proof.
  revert w i. induction n as [|n IH]; intros w i H Hh Hp Hn HQ; cbn [expire_owners]; wp_step;
    cbn [owners_of]; (destruct (cid_lockowners i) as [|o rest] eqn:El;
      [wp_step; by eapply HQ; [done|apply calm_refl|..]|cbn in Hn]); [lia|].
  destruct (unlock_all_releases (set_so_refcount (so_refcount o + 1) o)) as (E1 & E2 & E3).
  destruct (own_lock i (inv_own _ _ _ _ _ H p i Hp) o) as (_ & Hrc & _); [rewrite El; left|].
  apply wp_assoc, wp_bind, (expire_lock_step hi hr hs _ _ i _ _ rest); try done; [cbn in E3; lia|].
  intros w1 H1 Hs. destruct (shrinks_with_id _ _ _ _ _ _ i _ H1 Hh Hp (calm_drop_lock o rest i) Hs)
    as (Hc & i1 & Hi1 & E).
  apply (IH w1 i1); try done; [rewrite E; cbn; lia|].
  intros w2 i2 H2 Hc2 Hi2 El2. eapply HQ; try done. by eapply calm_trans.
Qed.

Lemma expire_opens_ok n hi hr hs w p i (Q : unit -> client_world -> Prop) :
  inv hi hr hs None w -> p ∈ hi -> w_ids w !! p = Some i -> cid_lockowners i = [] ->
  (length (cid_openowners i) <= n)%nat ->
  (forall w' i', inv hi hr hs None w' -> calm w w' -> w_ids w' !! p = Some i' ->
     cid_lockowners i' = [] -> cid_openowners i' = [] -> Q tt w') ->
  wp (expire_owners open_owner release_openstate n p) Q w.
Proof.
  revert w i. induction n as [|n IH]; intros w i H Hh Hp El Hn HQ; cbn [expire_owners]; wp_step;
    cbn [owners_of]; (destruct (cid_openowners i) as [|o rest] eqn:Eo;
      [wp_step; by eapply HQ; [done|apply calm_refl|..]|cbn in Hn]); [lia|].
  destruct (release_openstate_releases (set_so_refcount (so_refcount o + 1) o)) as (E1 & E2 & E3).
  destruct (own_open i (inv_own _ _ _ _ _ H p i Hp) o) as (_ & _ & Hrc); [rewrite Eo; left|].
  rewrite El in Hrc. cbn in Hrc.
  apply wp_assoc, wp_bind, (expire_open_step hi hr hs _ _ i _ _ rest); try done; [cbn in E3; lia|].
  assert (calm_id i (set_cid_openowners rest i)) as Hci by (by destruct i).
  intros w1 H1 Hs. destruct (shrinks_with_id _ _ _ _ _ _ i _ H1 Hh Hp Hci Hs) as (Hc & i1 & Hi1 & E).
  apply (IH w1 i1); try done; [by rewrite E|rewrite E; cbn; lia|].
  intros w2 i2 H2 Hc2 Hi2 El2. eapply HQ; try done. by eapply calm_trans.
Qed.

(** The world when a client id is marked expired, or stale, and detached from
    its record, before any reference is given back. *)
Definition expire_mark (p : positive) (stale : bool) (i : nfs_client_id_t) (w : client_world)
    : client_world :=
  let i' := set_cid_confirmed (if stale then STALE_CLIENT_ID else EXPIRED_CLIENT_ID)
              (set_cid_client_record None i) in
  let recs := match cid_client_record i with
              | Some r => alter (detach_record p) r (w_recs w)
              | None => w_recs w
              end in
  let w1 := set_w_ids (<[p := i']> (w_ids w)) (set_w_recs recs w) in
  if stale then w1 else drop_key (table_for (cid_confirmed i)) (cid_clientid i) w1.

Lemma alter_some {A} (f : A -> A) (m : gmap positive A) r c :
  m !! r = Some c -> alter f r m = <[r := f c]> m.
Proof.
  intros Hc. apply map_eq. intros q. destruct (decide (q = r)) as [->|Hne].
  - by rewrite lookup_alter_eq, lookup_insert_eq, Hc.
  - by rewrite lookup_alter_ne, lookup_insert_ne by done.
Qed.

Lemma ptrs_alter p r (m : gmap positive nfs_client_record_t) :
  (ptrs <$> alter (detach_record p) r m) = alter (ptr_without p) r (ptrs <$> m).
Proof.
  apply map_eq. intros q. rewrite lookup_fmap. destruct (decide (q = r)) as [->|Hne].
  - rewrite !lookup_alter_eq, lookup_fmap. destruct (m !! r); cbn; [|done]. by rewrite ptrs_detach.
  - by rewrite !lookup_alter_ne, lookup_fmap by done.
Qed.

Lemma detach_record_key p c x :
  same_client_record (detach_record p c) x = same_client_record c x /\
  same_client_record x (detach_record p c) = same_client_record x c /\
  cr_refcount (detach_record p c) = cr_refcount c.
Proof.
  unfold detach_record. destruct (decide (cr_confirmed_rec c = Some p)); cbn;
    destruct (decide (cr_unconfirmed_rec _ = Some p)); done.
Qed.

Lemma expire_mark_recs hi hr hs z w p i i' :
  inv hi hr hs z w -> w_ids w !! p = Some i -> cid_client_record i' = None ->
  let recs := match cid_client_record i with
              | Some r => alter (detach_record p) r (w_recs w)
              | None => w_recs w
              end in
  (ptrs <$> recs) = recv_without p (cid_client_record i) (ptrs <$> w_recs w) /\
  recs_ok (<[p := i']> (w_ids w)) recs (ht_client_record w)
    (option_list (cid_client_record i) ++ hr).
Proof.
  intros H Hp E'. destruct (cid_client_record i) as [r|] eqn:Er; cbn.
  - split; [apply ptrs_alter|].
    destruct (inv_link_some _ _ _ _ _ _ _ _ H Hp Er) as [c Hc].
    rewrite (alter_some _ _ _ _ Hc).
    destruct (detach_record_key p c c) as (_ & _ & Erc).
    eapply recs_ok_upd; [eapply recs_ok_unlink; try done; apply H|done|..].
    + intros x. apply (detach_record_key p c x).
    + intros x. apply (detach_record_key p c x).
    + rewrite Erc. done.
    + done.
  - split; [done|]. eapply recs_ok_ids; [done| |apply H]. by rewrite E', Er.
Qed.

Lemma expire_mark_inv stale hi hr hs w p i :
  inv hi hr hs None w -> w_ids w !! p = Some i -> 0 < hashed w p i ->
  (stale = true -> cid_confirmed i = CONFIRMED_CLIENT_ID) ->
  inv (if stale then hi else p :: hi) (option_list (cid_client_record i) ++ hr) hs None
    (expire_mark p stale i w).
Proof.
  intros H Hp Hh Hst.
  destruct (expire_mark_recs _ _ _ _ _ _ _ (set_cid_confirmed
    (if stale then STALE_CLIENT_ID else EXPIRED_CLIENT_ID) (set_cid_client_record None i))
    H Hp eq_refl) as [Ep Hrec].
  unfold expire_mark. destruct stale.
  - eapply inv_change; try done.
    + cbn. rewrite Ep. apply tab_ok_stale; [apply H|]. rewrite (ids_view w p i Hp).
      unfold ident. by rewrite Hst.
    + intros q. rewrite <- !recs_view_some. cbn [set_w_ids set_w_recs w_recs]. rewrite Ep.
      apply recv_without_some.
    + by destruct (inv_own _ _ _ _ _ H p i Hp).
    + right. left. exact Hh.
  - eapply (inv_unhash _ _ _ _ _ _ p i None); try done; [by left|..].
    + by destruct (table_for _).
    + by destruct (table_for _).
    + by destruct (table_for _).
    + by destruct (table_for _).
    + by destruct (table_for _).
    + by rewrite drop_key_conf.
    + by rewrite drop_key_unconf.
    + by destruct (table_for _).
    + by destruct (table_for _).
Qed.

(** The record is released in the middle of the marking; it makes no
    difference to do this afterwards. *)
Lemma expire_detach stale hi hr hs w p i :
  inv hi hr hs None w -> w_ids w !! p = Some i -> 0 < hashed w p i ->
  (stale = true -> cid_confirmed i = CONFIRMED_CLIENT_ID) ->
  exists recs' l',
    (match cid_client_record i with
     | Some r => upd_rec r (detach_record p);; dec_client_record_ref r
     | None => mret tt
     end) (with_id p (set_cid_client_record None i) w)
    = Some (tt, set_w_recs recs' (set_ht_client_record l'
                  (with_id p (set_cid_client_record None i) w))) /\
    let w' := set_w_recs recs' (set_ht_client_record l' (expire_mark p stale i w)) in
    inv (if stale then hi else p :: hi) hr hs None w' /\ shrinks (expire_mark p stale i w) w'.
Proof.
  intros H Hp Hh Hst. pose proof (expire_mark_inv stale _ _ _ _ _ _ H Hp Hh Hst) as Hm.
  assert (w_recs (expire_mark p stale i w) = match cid_client_record i with
              | Some r => alter (detach_record p) r (w_recs w) | None => w_recs w end /\
          ht_client_record (expire_mark p stale i w) = ht_client_record w) as [Er El].
  { unfold expire_mark. destruct stale; [done|]. by destruct (table_for _). }
  destruct (cid_client_record i) as [r|] eqn:E.
  - destruct (inv_link_some _ _ _ _ _ _ _ _ H Hp E) as [c Hc].
    destruct (rec_decr_ok _ _ _ _ _ r Hm) as (recs' & l' & Ed & Hi).
    exists recs', l'. split; [|split; [done|by apply (rec_decr_shrinks _ r)]].
    rewrite Er, El, (alter_some _ _ _ _ Hc) in Ed.
    unfold mbind, CM_bind, upd_rec, get_rec, mbind, CM_bind, put_rec, modify.
    change (w_recs (with_id _ _ w)) with (w_recs w). rewrite Hc, dec_client_record_ref_eq.
    change (rec_decr _ _ r) with (rec_decr (<[r := detach_record p c]> (w_recs w))
      (ht_client_record w) r). by rewrite Ed.
  - exists (w_recs w), (ht_client_record w). split; [by destruct w|].
    assert (set_w_recs (w_recs w) (set_ht_client_record (ht_client_record w)
      (expire_mark p stale i w)) = expire_mark p stale i w) as ->.
    { rewrite <- El, <- Er at 1. by destruct (expire_mark p stale i w). }
    split; [done|apply shrinks_refl].
Qed.

Lemma wp_HashTable_Del ht key (Q : option positive -> client_world -> Prop) w :
  Q (table_of ht w !! key) (drop_key ht key w) -> wp (HashTable_Del ht key) Q w.
Proof. done. Qed.

(** The second half of [nfs_client_id_expire], after the marking. *)
Lemma expire_rest (stale : bool) hi hr hs w p i (Q : bool -> client_world -> Prop) :
  inv (if stale then hi else p :: hi) hr hs None w -> p ∈ hi -> w_ids w !! p = Some i ->
  (forall w', inv hi hr hs None w' -> calm w w' -> Q true w') ->
  wp (i ← get_id p;
      expire_owners lock_owner state_nfs4_owner_unlock_all (length (cid_lockowners i)) p;;
      upd_id p (fun i => set_cid_owner_states (revoke_owner_layouts (cid_owner_states i)) i);;
      i ← get_id p;
      expire_owners open_owner release_openstate (length (cid_openowners i)) p;;
      upd_id p (fun i => set_cid_owner_states (revoke_owner_delegs (cid_owner_states i)) i);;
      del_sessions_ dec_client_id_ref p;;
      (if stale then mret tt else dec_client_id_ref p);;
      mret true) Q w.
Proof.
  intros H Hh Hp HQ. set (hi' := if stale then hi else p :: hi) in *.
  assert (p ∈ hi') as Hh' by (destruct stale; [done|by right]).
  wp_step. apply wp_bind, (expire_locks_ok _ hi' hr hs _ _ i); try done.
  intros w1 i1 H1 C1 P1 L1.
  apply wp_bind, (wp_upd_id _ _ i1); [done|].
  set (i2 := set_cid_owner_states _ i1).
  assert (inv hi' hr hs None (with_id p i2 w1)) as H2 by (by eapply inv_upd_id).
  assert (calm w1 (with_id p i2 w1)) as C2 by (eapply calm_with_id; [done|by destruct i1]).
  apply wp_bind, (wp_get_id _ i2); [apply with_id_lookup|].
  apply wp_bind, (expire_opens_ok _ hi' hr hs (with_id p i2 w1) _ i2); try done; [apply with_id_lookup|].
  intros w3 i3 H3 C3 P3 L3 O3.
  apply wp_bind, (wp_upd_id _ _ i3); [done|].
  set (i4 := set_cid_owner_states _ i3).
  assert (inv hi' hr hs None (with_id p i4 w3)) as H4 by (by eapply inv_upd_id).
  assert (calm w3 (with_id p i4 w3)) as C4 by (eapply calm_with_id; [done|by destruct i3]).
  apply wp_bind, (del_sessions_ok hi' hr hs (with_id p i4 w3) p i4); try done; [apply with_id_lookup|].
  intros w5 H5 C5.
  assert (calm w w5) as C by
    (eapply calm_trans, calm_trans, calm_trans, calm_trans, C5; [exact C1|exact C2|exact C3|exact C4]).
  apply wp_bind. subst hi'. destruct stale.
  - apply wp_ret, wp_ret. by apply HQ.
  - apply (dec_client_id_ref_ok hi hr hs None); [done|]. intros w6 H6 C6. apply wp_ret, HQ; [done|].
    eapply calm_trans; [exact C|by apply shrinks_calm].
Qed.

Lemma nfs_client_id_expire_ok stale hi hr hs w p i (Q : bool -> client_world -> Prop) :
  inv hi hr hs None w -> p ∈ hi -> w_ids w !! p = Some i ->
  (stale = true -> cid_confirmed i = CONFIRMED_CLIENT_ID) ->
  (cid_confirmed i = EXPIRED_CLIENT_ID -> Q false w) ->
  (forall w', cid_confirmed i <> EXPIRED_CLIENT_ID -> inv hi hr hs None w' ->
     calm (expire_mark p stale i w) w' -> Q true w') ->
  wp (nfs_client_id_expire p stale) Q w.
Proof.
  intros H Hh Hp Hst HQ1 HQ2. unfold nfs_client_id_expire. wp_step.
  destruct (decide (cid_confirmed i = EXPIRED_CLIENT_ID)) as [Ee|Ee]; [wp_step; auto|].
  destruct (held_usable _ _ _ _ _ p H Hh) as (i' & Hi' & [?|Hhash]);
    [congruence|]. replace i' with i in Hhash by congruence. clear i' Hi'.
  destruct (hashed_in _ _ _ _ _ _ _ H Hp Hhash) as (_ & _ & Ht).
  destruct (expire_detach stale _ _ _ _ _ _ H Hp Hhash Hst) as (recs' & l' & E & Hi & Hs).
  apply wp_bind, (wp_upd_id _ _ i); [done|]. apply wp_bind. unfold wp at 1.
  change (set_w_ids _ w) with (with_id p (set_cid_client_record None i) w). rewrite E. clear E.
  set (wm := set_w_recs recs' (set_ht_client_record l' (expire_mark p stale i w))) in *.
  set (i' := set_cid_confirmed (if stale then STALE_CLIENT_ID else EXPIRED_CLIENT_ID)
               (set_cid_client_record None i)).
  assert (w_ids wm !! p = Some i') as Hpm.
  { unfold wm, expire_mark. destruct stale; cbn; [|destruct (table_for _)]; apply lookup_insert_eq. }
  apply wp_bind.
  enough (forall T, T wm -> wp (if stale then upd_id p (set_cid_confirmed STALE_CLIENT_ID) else
     upd_id p (set_cid_confirmed EXPIRED_CLIENT_ID);;
     rc ← HashTable_Del (table_for (cid_confirmed i)) (cid_clientid i);
     i ← get_id p;
     rc ← match rc with
          | None =>
              if decide (cid_confirmed i = STALE_CLIENT_ID)
              then HashTable_Del unconfirmed_table (cid_clientid i)
              else mret None
          | Some _ => mret rc
          end;
     match rc with None => crash | Some _ => mret tt end) (fun _ => T)
     (set_w_recs recs' (set_ht_client_record l' (with_id p (set_cid_client_record None i) w)))) as Hmark.
  { apply (Hmark _), (expire_rest stale hi hr hs wm p i'); try done.
    intros w' Hw' Hc. apply HQ2; [done|done|].
    eapply calm_trans; [|exact Hc]. by apply shrinks_calm. }
  intros T HT. unfold wm, expire_mark in HT.
  set (w0 := set_w_recs recs' _).
  assert (w_ids w0 !! p = Some (set_cid_client_record None i)) as Hp0 by apply lookup_insert_eq.
  assert (forall f, set_w_ids (<[p := f]> (w_ids w0)) w0
    = set_w_recs recs' (set_ht_client_record l' (with_id p f w))) as E0.
  { intros f. unfold w0, with_id. cbn. by rewrite insert_insert_eq. }
  destruct stale; [eapply wp_upd_id; [done|]; by rewrite E0|].
  apply wp_bind. eapply wp_upd_id; [done|]. rewrite E0.
  apply wp_bind, wp_HashTable_Del.
  assert (table_of (table_for (cid_confirmed i)) (set_w_recs recs' (set_ht_client_record l'
    (with_id p (set_cid_confirmed EXPIRED_CLIENT_ID (set_cid_client_record None i)) w)))
    !! cid_clientid i = Some p) as ->.
  { etrans; [|exact Ht]. by destruct (table_for _). }
  apply wp_bind, (wp_get_id _ i'); [destruct (table_for _); apply lookup_insert_eq|].
  apply wp_bind, wp_ret, wp_ret.
  unfold drop_key in HT. destruct (table_for _); exact HT.
Qed.

(** ** Client records by name *)

Lemma cntm_zero {A} (P : A -> bool) (m : gmap positive A) :
  (forall p x, m !! p = Some x -> P x = false) -> cntm P m = 0.
Proof.
  intros H. unfold cntm. destruct (filter _ (map_to_list m)) as [|[p x] l] eqn:E; [done|].
  assert ((p, x) ∈ filter (fun kv => P kv.2 = true) (map_to_list m)) as Hin by (rewrite E; left).
  apply list_elem_of_filter in Hin as [HP Hin]. apply elem_of_map_to_list in Hin.
  cbn in HP. by rewrite (H p x Hin) in HP.
Qed.

Lemma no_links hi hr hs z w r :
  inv hi hr hs z w -> w_recs w !! r = None -> cntm (linked r) (w_ids w) = 0.
Proof.
  intros H Hr. apply cntm_zero. intros p i Hp. apply bool_decide_eq_false. intros E.
  destruct (inv_link_some _ _ _ _ _ _ _ _ H Hp E) as [c Hc]. congruence.
Qed.

Lemma same_client_record_sym c1 c2 : same_client_record c1 c2 = same_client_record c2 c1.
Proof.
  assert (forall a b, same_client_record a b = true -> same_client_record b a = true) as Hs.
  { intros a b. unfold same_client_record, compare_client_record.
    rewrite !andb_true_iff, !Z.eqb_eq. intros [-> H]. split; [done|].
    destruct (Nat.eqb_spec (length (cr_client_val a)) (length (cr_client_val b))) as [E|?]; [|done].
    rewrite E, Nat.eqb_refl. cbn [negb] in *.
    destruct (Z.eqb_spec (cr_pnfs_flags a) (cr_pnfs_flags b)) as [Ef|?]; [|done].
    rewrite Ef, Z.eqb_refl. cbn [negb] in *.
    apply memcmp_zero in H; [|done]. rewrite H. by apply memcmp_zero. }
  destruct (same_client_record c1 c2) eqn:E1, (same_client_record c2 c1) eqn:E2; try done.
  - apply Hs in E1. congruence.
  - apply Hs in E2. congruence.
Qed.

(** The worlds that differ in the client records only. *)
Record same_ids (w w' : client_world) : Prop := {
  same_ids_ids : w_ids w' = w_ids w;
  same_ids_conf : ht_confirmed_client_id w' = ht_confirmed_client_id w;
  same_ids_unconf : ht_unconfirmed_client_id w' = ht_unconfirmed_client_id w;
  same_ids_time : w_time w' = w_time w;
  same_ids_seq : global_sequence w' = global_sequence w;
  same_ids_next : (w_next w <= w_next w')%positive;
  same_ids_recs q c' : w_recs w' !! q = Some c' -> (w_next w <= q)%positive \/ exists c,
    w_recs w !! q = Some c /\ c' = set_cr_refcount (cr_refcount c') c
}.

Lemma same_record_flags c1 c2 :
  same_client_record c1 c2 = true -> cr_pnfs_flags c1 = cr_pnfs_flags c2.
Proof.
  unfold same_client_record, compare_client_record. intros [_ H]%andb_true_iff.
  destruct (negb (length _ =? length _)%nat); [done|].
  by destruct (Z.eqb_spec (cr_pnfs_flags c1) (cr_pnfs_flags c2)).
Qed.

Lemma fresh_rec hi hr hs z w : inv hi hr hs z w -> w_recs w !! w_next w = None.
Proof.
  intros H. destruct (w_recs w !! w_next w) eqn:E; [|done].
  assert (w_next w < w_next w)%positive by (eapply (inv_fresh_rec _ _ _ _ _ H); eauto). lia.
Qed.

Lemma fresh_id hi hr hs z w : inv hi hr hs z w -> w_ids w !! w_next w = None.
Proof.
  intros H. destruct (w_ids w !! w_next w) eqn:E; [|done].
  assert (w_next w < w_next w)%positive by (eapply (inv_fresh_id _ _ _ _ _ H); eauto). lia.
Qed.

Lemma fresh_session hi hr hs z w : inv hi hr hs z w -> w_sessions w !! w_next w = None.
Proof.
  intros H. destruct (w_sessions w !! w_next w) eqn:E; [|done].
  assert (w_next w < w_next w)%positive by (eapply (inv_fresh_session _ _ _ _ _ H); eauto). lia.
Qed.

Lemma recs_ok_new ids recs l hr r c :
  recs_ok ids recs l hr -> recs !! r = None -> cntm (linked r) ids = 0 -> 1 <= cr_refcount c ->
  (forall r' c', recs !! r' = Some c' -> same_client_record c c' = false) ->
  recs_ok ids (<[r := c]> recs) (r :: l) (r :: hr).
Proof.
  intros H Hr Hl Hc Hk.
  assert (cnt r hr = 0) as Hz.
  { apply cnt_zero. intros [? ?]%(recs_held _ _ _ _ H). congruence. }
  split.
  - intros q. rewrite elem_of_cons, <- (recs_listed _ _ _ _ H q).
    destruct (decide (q = r)) as [->|Hne];
      [rewrite lookup_insert_eq; split; [by left|eauto]|rewrite lookup_insert_ne by done].
    split; [by right|by intros [?|?]].
  - constructor; [|apply H]. rewrite <- (recs_listed _ _ _ _ H r), Hr. by intros [? ?].
  - intros r1 r2 c1 c2 [[<- <-]|[? H1]]%lookup_insert_Some [[<- <-]|[? H2]]%lookup_insert_Some;
      [done|..].
    + by rewrite (Hk _ _ H2).
    + rewrite same_client_record_sym. by rewrite (Hk _ _ H1).
    + by apply (recs_keys _ _ _ _ H).
  - intros q c' [[<- <-]|[? Hc']]%lookup_insert_Some.
    + rewrite Hl, cnt_push_eq, Hz. lia.
    + rewrite cnt_push by done. by apply (recs_refs _ _ _ _ H).
  - intros q [->|Hq]%elem_of_cons; [by rewrite lookup_insert_eq|].
    destruct (decide (q = r)) as [->|?]; [by rewrite lookup_insert_eq|].
    rewrite lookup_insert_ne by done. by apply (recs_held _ _ _ _ H).
Qed.

Lemma tab_ok_new_rec idv recv hc hu r :
  tab_ok idv recv hc hu -> recv !! r = None -> tab_ok idv (<[r := (None, None)]> recv) hc hu.
Proof.
  intros H Hr. split; try apply H.
  - intros c p Hp. destruct (tab_unconf _ _ _ _ H c p Hp) as (r' & a & ? & ?). exists r', a.
    rewrite lookup_insert_ne; [done|]. congruence.
  - intros p c ro Hp. destruct (tab_confirmed _ _ _ _ H p c ro Hp) as (? & r' & a & ? & ?).
    split; [done|]. exists r', a. rewrite lookup_insert_ne; [done|]. congruence.
  - intros r' p a [[_ [=]]|[_ ?]]%lookup_insert_Some. by eapply (tab_rec_conf _ _ _ _ H).
  - intros r' p a [[_ [=]]|[_ ?]]%lookup_insert_Some. by eapply (tab_rec_unconf _ _ _ _ H).
  - intros p c st r' Hp. destruct (decide (r' = r)) as [->|?]; [by rewrite lookup_insert_eq|].
    rewrite lookup_insert_ne by done. by eapply (tab_link _ _ _ _ H).
Qed.

Lemma get_client_record_ok hi hr hs w value pnfs_flags server_addr
    (Q : option positive -> client_world -> Prop) :
  inv hi hr hs None w -> (value = [] -> Q None w) ->
  (forall r c w', inv hi (r :: hr) hs None w' -> same_ids w w' -> w_recs w' !! r = Some c ->
     cr_pnfs_flags c = pnfs_flags -> Q (Some r) w') ->
  wp (get_client_record value pnfs_flags server_addr) Q w.
Proof.
  intros H HQ0 HQ. unfold get_client_record. destruct value as [|b value]; [wp_step; auto|].
  set (record := mk_client_record _ _ _ _ _ _). wp_step.
  destruct (find_client_record record w) as [r|] eqn:Ef.
  - apply List.find_some in Ef as [_ Hm]. unfold client_record_matches in Hm.
    destruct (w_recs w !! r) as [c|] eqn:Hr; [|done].
    apply wp_bind, (inc_client_record_ref_ok hi hr hs None); [done|eauto|].
    intros c' Hc' w' Hw'. eapply wp_ret, HQ; [done| |apply lookup_insert_eq|].
    + split; try done. cbn. intros q y [[<- <-]|[_ Hy]]%lookup_insert_Some; right; [by exists c'|].
      exists y. by rewrite set_cr_refcount_id.
    + cbn. rewrite Hr in Hc'. injection Hc' as <-. symmetry. by apply (same_record_flags record).
  - unfold alloc. apply wp_bind. unfold wp at 1. wp_step. wp_step. wp_step.
    eapply HQ; [| |apply lookup_insert_eq|done]; cycle 1.
    { split; try done; [cbn; lia|]. cbn. intros q y [[<- _]|[_ Hy]]%lookup_insert_Some.
      - left. lia.
      - right. exists y. by rewrite set_cr_refcount_id. }
    pose proof (fresh_rec _ _ _ _ _ H) as Hf.
    destruct H as [Htab Hrecs Hrefs Hheld Hlive Hown Hmin Hlist Hses Hsh Htabs Hids Hseq Hf1 Hf2 Hf3] eqn:EH.
    split; try done; cbn.
    + rewrite fmap_insert. apply tab_ok_new_rec; [done|]. by rewrite lookup_fmap, Hf.
    + apply recs_ok_new; try done; [by apply (no_links hi hr hs None)|].
      intros r' c' Hc'. eapply List.find_none in Ef; [|apply list_elem_of_In, (recs_listed _ _ _ _ Hrecs); eauto].
      unfold client_record_matches in Ef. by rewrite Hc' in Ef.
    + intros q Hq%Hf1. lia.
    + intros q. destruct (decide (q = w_next w)) as [->|?]; [intros _; lia|].
      rewrite lookup_insert_ne by done. intros Hq%Hf2. lia.
    + intros q Hq%Hf3. lia.
Qed.

(** ** New client ids *)

(** What [create_client_id] makes, once it is complete: a client id in no
    table and without owners or sessions. *)
Definition new_id (r : positive) (i : nfs_client_id_t) : Prop :=
  cid_confirmed i = UNCONFIRMED_CLIENT_ID /\ cid_client_record i = Some r /\
  cid_openowners i = [] /\ cid_lockowners i = [] /\ session_list i = [] /\
  cid_refcount i = 0 /\ (0 < cid_minorversion i <-> is_Some (cb_session_list i)).

Lemma own_ok_nil i : cid_openowners i = [] -> cid_lockowners i = [] -> own_ok i.
Proof.
  intros Eo El. split; rewrite ?Eo, ?El; [apply NoDup_nil_2|apply NoDup_nil_2|..];
    by intros o ?%elem_of_nil.
Qed.

Lemma tab_ok_new_id idv recv hc hu p c r :
  tab_ok idv recv hc hu -> idv !! p = None -> is_Some (recv !! r) ->
  tab_ok (<[p := (c, UNCONFIRMED_CLIENT_ID, Some r)]> idv) recv hc hu.
Proof.
  intros H Hp Hr. split.
  - intros k q Hk. destruct (tab_conf _ _ _ _ H k q Hk) as (st & ro & ? & ?). exists st, ro.
    rewrite lookup_insert_ne; [done|]. congruence.
  - intros k q Hk. destruct (tab_unconf _ _ _ _ H k q Hk) as (r' & a & ? & ?). exists r', a.
    rewrite lookup_insert_ne; [done|]. congruence.
  - intros q k ro [[_ [=]]|[_ ?]]%lookup_insert_Some. by apply (tab_confirmed _ _ _ _ H).
  - intros q k ro [[_ [=]]|[_ ?]]%lookup_insert_Some. by apply (tab_stale _ _ _ _ H).
  - intros r' q a Hq. destruct (tab_rec_conf _ _ _ _ H r' q a Hq) as (k & ?). exists k.
    rewrite lookup_insert_ne; [done|]. congruence.
  - intros r' q a Hq. destruct (tab_rec_unconf _ _ _ _ H r' q a Hq) as (k & ? & ?). exists k.
    rewrite lookup_insert_ne; [done|]. congruence.
  - intros q k st r' [[_ [= _ _ <-]]|[_ ?]]%lookup_insert_Some; [done|].
    by eapply (tab_link _ _ _ _ H).
Qed.

Lemma inv_new_id hi hr hs w w' r c i :
  inv hi hr hs None w -> w_recs w !! r = Some c -> new_id r i ->
  w_ids w' = <[w_next w := i]> (w_ids w) ->
  w_recs w' = <[r := set_cr_refcount (cr_refcount c + 1) c]> (w_recs w) ->
  w_sessions w' = w_sessions w -> ht_session_id w' = ht_session_id w ->
  ht_confirmed_client_id w' = ht_confirmed_client_id w ->
  ht_unconfirmed_client_id w' = ht_unconfirmed_client_id w ->
  ht_client_record w' = ht_client_record w -> global_sequence w' = global_sequence w ->
  w_next w' = Pos.succ (w_next w) ->
  inv hi hr hs None w'.
Proof.
  intros H Hc (Est & Er & Eo & El & Es & Erc & Em) Ei Erec Ess Est' Ehc Ehu Ehr Egs Enx.
  pose proof (fresh_id _ _ _ _ _ H) as Hf.
  assert (forall q j, hashed w' q j = hashed w q j) as Hh by (intros q j; unfold hashed; by rewrite Ehc, Ehu).
  assert (w_next w ∉ hi) as Hni by (intros [? ?]%(inv_held _ _ _ _ _ H); congruence).
  assert (hashed w (w_next w) i = 0) as H0.
  { unfold hashed. rewrite !bool_decide_false; [done|..].
    - intros E. destruct (tab_unconf _ _ _ _ (inv_tab _ _ _ _ _ H) _ _ E) as (? & ? & Hv & _).
      rewrite lookup_fmap, Hf in Hv. done.
    - intros E. destruct (tab_conf _ _ _ _ (inv_tab _ _ _ _ _ H) _ _ E) as (? & ? & Hv & _).
      rewrite lookup_fmap, Hf in Hv. done. }
  destruct H as [Htab Hrecs Hrefs Hheld Hlive Hown Hmin Hlist Hses Hsh Htabs Hids Hseq Hf1 Hf2 Hf3].
  split; rewrite ?Ei, ?Erec, ?Ess, ?Est', ?Ehc, ?Ehu, ?Ehr, ?Egs, ?Enx; try done.
  - rewrite fmap_insert, (same_ptrs _ _ c) by done. unfold ident at 1. rewrite Est, Er.
    apply tab_ok_new_id; [done|by rewrite lookup_fmap, Hf|]. rewrite lookup_fmap, Hc. eauto.
  - destruct Hrecs as [Hls Hnd Hk Hrf Hhd]. split.
    + intros q. rewrite <- Hls. destruct (decide (q = r)) as [->|?];
        [rewrite lookup_insert_eq, Hc|rewrite lookup_insert_ne by done]; done.
    + done.
    + intros r1 r2 c1 c2 [[<- <-]|[? H1]]%lookup_insert_Some [[<- <-]|[? H2]]%lookup_insert_Some E;
        [done|by eapply (Hk r r2 c c2)|by eapply (Hk r1 r c1 c)|by eapply Hk].
    + intros q x. rewrite (cntm_insert_fresh _ _ _ _ Hf). unfold linked at 1. rewrite Er.
      intros [[<- <-]|[? Hx]]%lookup_insert_Some.
      * rewrite bool_decide_true by done. specialize (Hrf r c Hc). cbn. lia.
      * rewrite bool_decide_false by congruence. specialize (Hrf q x Hx). cbn. lia.
    + intros q Hq. destruct (decide (q = r)) as [->|?]; [by rewrite lookup_insert_eq|].
      rewrite lookup_insert_ne by done. auto.
  - intros q j [[<- <-]|[? Hj]]%lookup_insert_Some.
    + unfold id_refs. rewrite Hh, H0, Eo, El, Es, Erc, (cnt_zero _ hi) by done. done.
    + unfold id_refs. rewrite Hh. by apply Hrefs.
  - intros q Hq. rewrite lookup_insert_ne by congruence. auto.
  - intros q j [[<- <-]|[? Hj]]%lookup_insert_Some; rewrite Hh; [by right; right|by apply Hlive].
  - intros q j [[<- <-]|[? Hj]]%lookup_insert_Some; [by apply own_ok_nil|eauto].
  - intros q j [[<- <-]|[? Hj]]%lookup_insert_Some; [done|eauto].
  - intros q j [[<- <-]|[? Hj]]%lookup_insert_Some; [|eauto]. rewrite Es.
    split; [constructor|by intros s ?%elem_of_nil].
  - intros s x Hx Hz. destruct (Hses s x Hx Hz) as ((j & Hj & ?) & ?). split; [|done].
    exists j. rewrite lookup_insert_ne; [done|]. congruence.
  - intros q. destruct (decide (q = w_next w)) as [->|?]; [lia|].
    rewrite lookup_insert_ne by done. intros Hq%Hf1. lia.
  - intros q. destruct (decide (q = r)) as [->|?].
    + intros _. assert (r < w_next w)%positive by eauto. lia.
    + rewrite lookup_insert_ne by done. intros Hq%Hf2. lia.
  - intros q Hq%Hf3. lia.
Qed.

(** [create_client_id] leaves a world that [inv_new_id] is about, for the
    client id it returns or for one completed from it. *)
Definition created (w w' : client_world) (r : positive) (i : nfs_client_id_t) : Prop :=
  exists c, w_recs w !! r = Some c /\
  w_ids w' = <[w_next w := i]> (w_ids w) /\
  w_recs w' = <[r := set_cr_refcount (cr_refcount c + 1) c]> (w_recs w) /\
  w_sessions w' = w_sessions w /\ ht_session_id w' = ht_session_id w /\
  ht_confirmed_client_id w' = ht_confirmed_client_id w /\
  ht_unconfirmed_client_id w' = ht_unconfirmed_client_id w /\
  ht_client_record w' = ht_client_record w /\ global_sequence w' = global_sequence w /\
  w_next w' = Pos.succ (w_next w) /\ w_time w' = w_time w.

Lemma created_inv hi hr hs w w' r i :
  inv hi hr hs None w -> created w w' r i -> new_id r i -> inv hi hr hs None w'.
Proof. intros H (c & Hc & ? & ? & ? & ? & ? & ? & ? & ? & ? & _) Hn. by eapply inv_new_id. Qed.

Lemma create_client_id_ok w clientid r credential minorversion client
    (Q : positive -> client_world -> Prop) :
  is_Some (w_recs w !! r) ->
  (forall c' w', created w w' r (mk_client_id c' 0 0 (w_time w) UNCONFIRMED_CLIENT_ID credential
              (Some r) [] [] [] None (minorversion =? 0) 0 zero_slot 0 0 0
              minorversion 0 client) -> (clientid <> 0 -> c' = clientid) -> Q (w_next w) w') ->
  wp (create_client_id clientid r credential minorversion client) Q w.
Proof.
  intros [c Hc] HQ. unfold create_client_id. apply wp_bind. unfold wp at 1, alloc.
  apply wp_bind. destruct (clientid =? 0) eqn:E.
  - unfold new_clientid. wp_step. wp_step. wp_step. wp_step. wp_step.
    apply wp_bind. unfold inc_client_record_ref. eapply wp_upd_rec; [exact Hc|]. wp_step.
    apply Z.eqb_eq in E. eapply HQ; [|congruence]. exists c. repeat split; done.
  - wp_step. wp_step. wp_step.
    apply wp_bind. unfold inc_client_record_ref. eapply wp_upd_rec; [exact Hc|]. wp_step.
    eapply HQ; [|done]. exists c. repeat split; done.
Qed.

(** ** Into and out of the tables *)

Lemma tab_ok_insert idv recv hc hu p c r a :
  tab_ok idv recv hc hu -> idv !! p = Some (c, UNCONFIRMED_CLIENT_ID, Some r) ->
  recv !! r = Some (a, None) -> hu !! c = None ->
  tab_ok idv (<[r := (a, Some p)]> recv) hc (<[c := p]> hu).
Proof.
  intros H Hp Hr Hc. split; try apply H.
  - intros k q [[<- <-]|[_ Hk]]%lookup_insert_Some.
    + exists r, a. by rewrite lookup_insert_eq.
    + destruct (tab_unconf _ _ _ _ H k q Hk) as (r' & a' & ? & ?). exists r', a'.
      rewrite lookup_insert_ne; [done|]. congruence.
  - intros q k ro Hq. destruct (tab_confirmed _ _ _ _ H q k ro Hq) as (? & r' & a' & -> & Hr').
    split; [done|]. destruct (decide (r' = r)) as [->|?].
    + exists r, (Some p). rewrite lookup_insert_eq. naive_solver.
    + exists r', a'. by rewrite lookup_insert_ne.
  - intros r' q a' [[<- [= -> <-]]|[_ ?]]%lookup_insert_Some; by eapply (tab_rec_conf _ _ _ _ H).
  - intros r' q a' [[<- [= <- <-]]|[Hne Hr']]%lookup_insert_Some.
    + exists c. by rewrite lookup_insert_eq.
    + destruct (tab_rec_unconf _ _ _ _ H r' q a' Hr') as (k & ? & ?). exists k. split; [done|].
      rewrite lookup_insert_ne; [done|]. congruence.
  - intros q k st r' Hq. destruct (decide (r' = r)) as [->|?]; [by rewrite lookup_insert_eq|].
    rewrite lookup_insert_ne by done. by eapply (tab_link _ _ _ _ H).
Qed.

Lemma nfs_client_id_insert_ok hi hr hs w p i r c (Q : clientid_status_t -> client_world -> Prop) :
  inv hi hr hs None w -> w_ids w !! p = Some i -> new_id r i ->
  w_recs w !! r = Some c -> cr_unconfirmed_rec c = None ->
  (forall w', inv hi hr hs None w' ->
     w' = set_w_recs (<[r := set_cr_unconfirmed_rec (Some p) c]> (w_recs w))
            (set_w_ids (<[p := set_cid_refcount 1 i]> (w_ids w))
               (set_ht_unconfirmed_client_id
                  (<[cid_clientid i := p]> (ht_unconfirmed_client_id w)) w)) ->
     Q CLIENT_ID_SUCCESS w') ->
  (forall w', inv hi hr hs None w' -> shrinks w w' -> Q CLIENT_ID_INSERT_MALLOC_ERROR w') ->
  wp (nfs_client_id_insert p) Q w.
Proof.
  intros H Hp (Est & Er & Eo & El & Es & Erc & Em) Hr Hcu HQ1 HQ2.
  unfold nfs_client_id_insert. wp_step. unfold hashtable_test_and_set.
  apply wp_bind, wp_bind, wp_gets. cbn [table_of set_table].
  destruct (ht_unconfirmed_client_id w !! cid_clientid i) as [q|] eqn:Eu.
  { apply wp_ret, wp_bind. eapply free_client_id_ok; [exact H|done|done|].
    intros w' Hw' Hsh. apply wp_ret. by apply HQ2. }
  apply wp_bind, wp_modify, wp_ret. unfold inc_client_id_ref.
  apply wp_bind. eapply wp_upd_id; [done|]. apply wp_bind. rewrite Er.
  eapply wp_upd_rec; [done|]. apply wp_ret. rewrite Erc. apply HQ1; [|done].
  assert ((ident <$> w_ids w) !! p = Some (cid_clientid i, UNCONFIRMED_CLIENT_ID, Some r)) as Hv.
  { rewrite (ids_view w p i Hp). unfold ident. by rewrite Est, Er. }
  assert (ht_confirmed_client_id w !! cid_clientid i <> Some p) as Hnc.
  { intros E. destruct (tab_conf _ _ _ _ (inv_tab _ _ _ _ _ H) _ _ E) as (st & ? & E' & Hst).
    rewrite Hv in E'. injection E' as <- _. by destruct Hst. }
  eapply (inv_change hi hi hr hr hs None w _ p i (set_cid_refcount 1 i)); try done; cbn.
  - unfold ident at 1. cbn. rewrite Est, Er, fmap_insert.
    unfold ptrs at 1. cbn. rewrite (insert_id (ident <$> w_ids w)) by done.
    apply tab_ok_insert; [apply H|done| |done]. rewrite (recs_view w r c Hr). unfold ptrs. by rewrite Hcu.
  - eapply recs_ok_upd; [eapply recs_ok_ids; [done|done|apply H]|done|done|done|cbn; lia|done].
  - intros q. destruct (decide (q = r)) as [->|?]; [eauto|by rewrite lookup_insert_ne].
  - by apply own_ok_nil.
  - intros q j Hne Hj. unfold hashed. cbn. f_equal. f_equal. apply bool_decide_ext.
    destruct (decide (cid_clientid j = cid_clientid i)) as [->|?];
      [rewrite lookup_insert_eq, Eu; naive_solver|by rewrite lookup_insert_ne].
  - unfold id_refs, hashed. cbn. rewrite lookup_insert_eq, Eu, Erc.
    rewrite (bool_decide_false (_ = _)) by done. rewrite (bool_decide_true (Some p = Some p)) by done.
    rewrite (bool_decide_false (None = Some p)) by done. cbn [b2z].
    unfold session_list. cbn. lia.
  - right. left. unfold hashed. cbn. rewrite lookup_insert_eq.
    rewrite (bool_decide_true (Some p = Some p)) by done. unfold b2z. destruct (bool_decide _); lia.
Qed.

(** [detach] forgets [p]: the record has no other pointer to it. *)
Lemma remove_client_id_ok hi hr hs w p i r c detach (Q : bool -> client_world -> Prop) :
  inv hi hr hs None w -> w_ids w !! p = Some i -> 0 < hashed w p i ->
  cid_client_record i = Some r -> w_recs w !! r = Some c -> detach c = detach_record p c ->
  (forall w', inv hi hr hs None w' ->
     shrinks (drop_key (table_for (cid_confirmed i)) (cid_clientid i)
       (set_w_ids (<[p := set_cid_confirmed EXPIRED_CLIENT_ID i]> (w_ids w))
          (set_w_recs (<[r := detach_record p c]> (w_recs w)) w))) w' -> Q true w') ->
  wp (remove_client_id (table_for (cid_confirmed i)) detach p) Q w.
Proof.
  intros H Hp Hh Er Hr Ed HQ. unfold remove_client_id. wp_step.
  destruct (hashed_in _ _ _ _ _ _ _ H Hp Hh) as (_ & _ & Ht).
  apply wp_bind, wp_HashTable_Del. rewrite Ht, Er. apply wp_bind.
  set (ht := table_for (cid_confirmed i)) in *.
  eapply wp_upd_rec; [by destruct ht|]. rewrite Ed. apply wp_bind.
  eapply wp_upd_id; [by destruct ht|]. apply wp_bind.
  set (wm := drop_key ht _ _) in HQ.
  match goal with |- wp _ _ ?w0 => assert (w0 = wm) as -> by (by destruct ht) end.
  apply (dec_client_id_ref_ok hi hr hs None); [|by intros w' Hw' Hsh; apply wp_ret, HQ].
  destruct (detach_record_key p c c) as (_ & _ & Erc).
  assert (set_cid_client_record (cid_client_record i) i = i) as Eid by (by destruct i).
  eapply (inv_unhash _ hr _ _ w _ p i (cid_client_record i)); try (by destruct ht); [by right|..];
    rewrite ?Eid; try (by destruct ht).
  - unfold wm. by rewrite drop_key_conf.
  - unfold wm. by rewrite drop_key_unconf.
  - rewrite Er. cbn [recv_without]. rewrite <- ptrs_alter, (alter_some _ _ _ _ Hr). by destruct ht.
  - replace (w_recs wm) with (<[r := detach_record p c]> (w_recs w)) by (by destruct ht).
    replace (ht_client_record wm) with (ht_client_record w) by (by destruct ht).
    eapply recs_ok_upd; [eapply recs_ok_ids; [done|done|apply H]|done|..].
    + intros x. apply (detach_record_key p c x).
    + intros x. apply (detach_record_key p c x).
    + rewrite Erc. lia.
    + done.
Qed.

Lemma tab_ok_confirm idv recv hc hu p c r :
  tab_ok idv recv hc hu -> idv !! p = Some (c, UNCONFIRMED_CLIENT_ID, Some r) ->
  recv !! r = Some (None, Some p) -> hu !! c = Some p -> hc !! c = None ->
  tab_ok (<[p := (c, CONFIRMED_CLIENT_ID, Some r)]> idv) (<[r := (Some p, None)]> recv)
    (<[c := p]> hc) (delete c hu).
Proof.
  intros H Hp Hr Hu Hc. split.
  - intros k q [[<- <-]|[Hk Hq]]%lookup_insert_Some.
    + exists CONFIRMED_CLIENT_ID, (Some r). rewrite lookup_insert_eq. auto.
    + destruct (tab_conf _ _ _ _ H k q Hq) as (st & ro & ? & ?). exists st, ro.
      rewrite lookup_insert_ne; [done|]. congruence.
  - intros k q [Hk Hq]%lookup_delete_Some.
    destruct (tab_unconf _ _ _ _ H k q Hq) as (r' & a & ? & ?). exists r', a.
    rewrite !lookup_insert_ne; [done|congruence..].
  - intros q k ro [[<- [= <- <-]]|[Hne Hq]]%lookup_insert_Some.
    + rewrite !lookup_insert_eq. split; [done|]. exists r, None. by rewrite lookup_insert_eq.
    + destruct (tab_confirmed _ _ _ _ H q k ro Hq) as (Hk & r' & a & -> & Hr').
      rewrite lookup_insert_ne by congruence. split; [done|]. exists r', a.
      rewrite lookup_insert_ne; [done|]. congruence.
  - intros q k ro [[_ [=]]|[Hne Hq]]%lookup_insert_Some.
    destruct (tab_stale _ _ _ _ H q k ro Hq) as [Hk ->]. split; [|done].
    rewrite lookup_insert_ne; [done|]. congruence.
  - intros r' q a [[<- [= <- <-]]|[Hne Hq]]%lookup_insert_Some; [exists c; by rewrite lookup_insert_eq|].
    destruct (tab_rec_conf _ _ _ _ H r' q a Hq) as (k & ?). exists k.
    rewrite lookup_insert_ne; [done|]. congruence.
  - intros r' q a [[<- [=]]|[Hne Hq]]%lookup_insert_Some.
    destruct (tab_rec_unconf _ _ _ _ H r' q a Hq) as (k & ? & ?). exists k.
    rewrite lookup_insert_ne by congruence. rewrite lookup_delete_ne; [done|]. congruence.
  - intros q k st r' Hq. destruct (decide (r' = r)) as [->|?]; [by rewrite lookup_insert_eq|].
    rewrite lookup_insert_ne by done.
    apply lookup_insert_Some in Hq as [[_ [= _ _ <-]]|[_ ?]]; [done|].
    by eapply (tab_link _ _ _ _ H).
Qed.

(** The world after a client id was confirmed. *)
Definition confirmed_world (p r : positive) (i : nfs_client_id_t) (c : nfs_client_record_t)
    (w : client_world) : client_world :=
  set_ht_confirmed_client_id (<[cid_clientid i := p]> (ht_confirmed_client_id w))
    (set_ht_unconfirmed_client_id (delete (cid_clientid i) (ht_unconfirmed_client_id w))
       (set_w_ids (<[p := set_cid_confirmed CONFIRMED_CLIENT_ID i]> (w_ids w))
          (set_w_recs (<[r := set_cr_confirmed_rec (Some p) (set_cr_unconfirmed_rec None c)]>
             (w_recs w)) w))).

Lemma confirmed_inv hi hr hs w p i r c :
  inv hi hr hs None w -> w_ids w !! p = Some i ->
  cid_confirmed i = UNCONFIRMED_CLIENT_ID -> cid_client_record i = Some r ->
  ht_unconfirmed_client_id w !! cid_clientid i = Some p ->
  w_recs w !! r = Some c -> cr_confirmed_rec c = None -> cr_unconfirmed_rec c = Some p ->
  ht_confirmed_client_id w !! cid_clientid i = None ->
  inv hi hr hs None (confirmed_world p r i c w).
Proof.
  intros H Hp Est Er Hu Hr Hcc Hcu Hc.
  assert ((ident <$> w_ids w) !! p = Some (cid_clientid i, UNCONFIRMED_CLIENT_ID, Some r)) as Hv.
  { rewrite (ids_view w p i Hp). unfold ident. by rewrite Est, Er. }
  eapply (inv_change hi hi hr hr hs None w _ p i (set_cid_confirmed CONFIRMED_CLIENT_ID i)); try done; cbn.
  - unfold ident at 1. cbn. rewrite Er, fmap_insert. unfold ptrs at 1. cbn.
    apply tab_ok_confirm; [apply H|done| |done|done]. rewrite (recs_view w r c Hr).
    unfold ptrs. by rewrite Hcc, Hcu.
  - eapply recs_ok_upd; [eapply recs_ok_ids; [done|done|apply H]|done|done|done|cbn; lia|done].
  - intros q. destruct (decide (q = r)) as [->|?]; [eauto|by rewrite lookup_insert_ne].
  - by destruct (inv_own _ _ _ _ _ H p i Hp).
  - intros q j Hne Hj. unfold hashed. cbn.
    destruct (decide (cid_clientid j = cid_clientid i)) as [->|?];
      [|by rewrite lookup_insert_ne, lookup_delete_ne].
    rewrite lookup_insert_eq, lookup_delete_eq, Hc, Hu. rewrite !bool_decide_false; congruence.
  - unfold id_refs, hashed. cbn. rewrite lookup_insert_eq, lookup_delete_eq, Hc, Hu.
    rewrite (bool_decide_false (None = Some p)), (bool_decide_true (Some p = Some p)) by done.
    unfold session_list. cbn. lia.
  - right. left. unfold hashed. cbn. rewrite lookup_insert_eq.
    rewrite (bool_decide_true (Some p = Some p)) by done. unfold b2z. destruct (bool_decide _); lia.
Qed.

Lemma detach_unconf p c :
  cr_confirmed_rec c <> Some p -> cr_unconfirmed_rec c = Some p ->
  set_cr_unconfirmed_rec None c = detach_record p c.
Proof.
  intros Hc Hu. unfold detach_record. destruct (decide (cr_confirmed_rec c = Some p)); [done|].
  by destruct (decide (cr_unconfirmed_rec c = Some p)).
Qed.

Lemma detach_conf p c :
  cr_confirmed_rec c = Some p -> cr_unconfirmed_rec c <> Some p ->
  set_cr_confirmed_rec None c = detach_record p c.
Proof.
  intros Hc Hu. unfold detach_record. destruct (decide (cr_confirmed_rec c = Some p)); [|done].
  by destruct (decide (cr_unconfirmed_rec (set_cr_confirmed_rec None c) = Some p)).
Qed.

Lemma nfs_client_id_confirm_ok hi hr hs w p i r c (Q : clientid_status_t -> client_world -> Prop) :
  inv hi hr hs None w -> w_ids w !! p = Some i -> 0 < hashed w p i ->
  cid_confirmed i = UNCONFIRMED_CLIENT_ID -> cid_client_record i = Some r ->
  w_recs w !! r = Some c -> cr_confirmed_rec c = None ->
  (inv hi hr hs None (confirmed_world p r i c w) -> Q CLIENT_ID_SUCCESS (confirmed_world p r i c w)) ->
  (forall w', inv hi hr hs None w' ->
     shrinks (drop_key unconfirmed_table (cid_clientid i)
       (set_w_ids (<[p := set_cid_confirmed EXPIRED_CLIENT_ID i]> (w_ids w))
          (set_w_recs (<[r := detach_record p c]> (w_recs w)) w))) w' ->
     Q CLIENT_ID_INSERT_MALLOC_ERROR w') ->
  wp (nfs_client_id_confirm p) Q w.
Proof.
  intros H Hp Hh Est Er Hr Hcc HQ1 HQ2.
  destruct (hashed_in _ _ _ _ _ _ _ H Hp Hh) as (_ & _ & Ht). rewrite Est in Ht. cbn in Ht.
  assert (cr_unconfirmed_rec c = Some p) as Hcu.
  { destruct (tab_unconf _ _ _ _ (inv_tab _ _ _ _ _ H) _ _ Ht) as (r' & a & Hv & Hr').
    rewrite (ids_view w p i Hp) in Hv. unfold ident in Hv. assert (r' = r) as -> by congruence.
    rewrite (recs_view w r c Hr) in Hr'. unfold ptrs in Hr'. congruence. }
  unfold nfs_client_id_confirm. wp_step. rewrite Er. apply wp_bind.
  eapply wp_upd_rec; [done|]. apply wp_bind, wp_HashTable_Del. cbn [table_of set_w_recs ht_unconfirmed_client_id].
  rewrite Ht. apply wp_bind. eapply wp_upd_id; [done|]. unfold hashtable_test_and_set.
  apply wp_bind, wp_bind, wp_gets. cbn.
  destruct (ht_confirmed_client_id w !! cid_clientid i) as [q|] eqn:Ec.
  - apply wp_ret, wp_bind. eapply wp_upd_id; [cbn; apply lookup_insert_eq|]. apply wp_bind.
    cbn. rewrite insert_insert_eq.
    apply (dec_client_id_ref_ok hi hr hs None).
    + destruct (detach_record_key p c c) as (_ & _ & Erc).
      assert (set_cid_client_record (cid_client_record i) i = i) as Eid by (by destruct i).
      assert (cr_confirmed_rec c <> Some p) as Hcn by congruence.
      pose proof (detach_unconf p c Hcn Hcu) as Edr.
      eapply (inv_unhash _ hr _ _ w _ p i (cid_client_record i)); try done; [by right|..];
        rewrite ?Eid, ?Est; try done; cbn.
      * rewrite Er. cbn [recv_without]. rewrite <- ptrs_alter, (alter_some _ _ _ _ Hr). by rewrite Edr.
      * eapply recs_ok_upd; [eapply recs_ok_ids; [done|done|apply H]|done|done|done|cbn; lia|done].
    + intros w' Hw' Hsh. apply wp_ret, HQ2; [done|]. rewrite <- (detach_unconf p c); [done|congruence|done].
  - apply wp_bind, wp_modify, wp_ret, wp_bind.
    eapply wp_upd_rec; [cbn; apply lookup_insert_eq|]. apply wp_ret. cbn. rewrite insert_insert_eq.
    apply HQ1. by apply confirmed_inv.
Qed.
End life.
