(* ===== verification/SessionKeep.v ===== *)
(** * Sessions of NFSv4: what the operations leave alone

    No operation on client ids or sessions writes to the slots of a session
    that exists: a session keeps all but its reference count, and one that is
    new has empty slots.  This is shown once for each function of ClientData.v
    and ClientOps.v, as a relation between the worlds before and after it,
    and composes along the monad. *)
From S2P Require Import Prelude Status Owners ClientData ClientOps ClientInv ClientLife.

(** A function that succeeds relates the worlds before and after it. *)
Definition moves {A} (R : relation client_world) (m : CM A) : Prop :=
  forall w a w', m w = Some (a, w') -> R w w'.

Section moves.
Context (R : relation client_world) `{!PreOrder R}.

Lemma moves_ret {A} (a : A) : moves R (mret a).
Proof. intros w b w' [= <- <-]. reflexivity. Qed.

Lemma moves_crash {A} : moves R (crash : CM A).
Proof. by intros w b w'. Qed.

Lemma moves_gets {A} (f : client_world -> A) : moves R (gets f).
Proof. intros w b w' [= <- <-]. reflexivity. Qed.

Lemma moves_bind {A B} (m : CM A) (f : A -> CM B) :
  moves R m -> (forall a, moves R (f a)) -> moves R (mbind f m).
Proof.
  intros Hm Hf w b w2 E. unfold mbind, CM_bind in E. destruct (m w) as [[a w1]|] eqn:E1; [|done].
  etrans; [by eapply Hm|by eapply Hf].
Qed.

Lemma moves_modify f : (forall w, R w (f w)) -> moves R (modify f).
Proof. intros H w b w' [= <- <-]. apply H. Qed.

Lemma moves_get_id p : moves R (get_id p).
Proof. intros w b w'. unfold get_id. destruct (_ !! _); [|done]. intros [= <- <-]. reflexivity. Qed.

Lemma moves_get_rec r : moves R (get_rec r).
Proof. intros w b w'. unfold get_rec. destruct (_ !! _); [|done]. intros [= <- <-]. reflexivity. Qed.

Lemma moves_get_session s : moves R (get_session s).
Proof. intros w b w'. unfold get_session. destruct (_ !! _); [|done]. intros [= <- <-]. reflexivity. Qed.

Lemma moves_assert b : moves R (assert_that b).
Proof. unfold assert_that. destruct b; [apply moves_ret|apply moves_crash]. Qed.

Lemma moves_for_each {A} (f : A -> CM unit) l : (forall x, moves R (f x)) -> moves R (for_each f l).
Proof. intros Hf. induction l; cbn; [apply moves_ret|]. apply moves_bind; auto. Qed.
End moves.

Create HintDb moves discriminated.
#[export] Hint Constants Opaque : moves.
#[export] Hint Transparent exchange_res sessionid4 : moves.
Lemma wp_moves {A} (R : relation client_world) (m : CM A) Q w :
  moves R m -> wp m Q w -> wp m (fun a w' => Q a w' /\ R w w') w.
Proof. intros Hm. unfold wp. destruct (m w) as [[a w']|] eqn:E; [|done]. split; [done|by eapply Hm]. Qed.

#[export] Hint Resolve moves_ret moves_crash moves_gets moves_get_id moves_get_rec
  moves_get_session moves_assert moves_for_each : moves.

(** ** Sessions *)

Definition empty_slots (x : nfs41_session_t) : Prop :=
  slots x = replicate NFS41_NB_SLOTS zero_slot /\ ca_maxrequests x = Z.of_nat NFS41_NB_SLOTS.

(** A session is as it was but for its reference count. *)
Definition recounted (x x' : nfs41_session_t) : Prop :=
  x' = set_session_refcount (session_refcount x') x.

Record sessions_keep (w w' : client_world) : Prop := {
  k_next : (w_next w <= w_next w')%positive;
  k_session s x' : w_sessions w' !! s = Some x' ->
    (exists x, w_sessions w !! s = Some x /\ recounted x x')
    \/ (w_next w <= s < w_next w')%positive /\ empty_slots x'
}.

Lemma recounted_refl x : recounted x x.
Proof. by destruct x. Qed.

Lemma recounted_trans x1 x2 x3 : recounted x1 x2 -> recounted x2 x3 -> recounted x1 x3.
Proof. unfold recounted. intros E2 E3. rewrite E2 in E3. by rewrite E3. Qed.

Lemma recounted_empty x x' : recounted x x' -> empty_slots x -> empty_slots x'.
Proof. intros -> [Es Em]. by split. Qed.

Lemma keep_same w w' :
  (w_next w <= w_next w')%positive -> w_sessions w' = w_sessions w -> sessions_keep w w'.
Proof.
  intros Hn Es. split; [done|]. intros s x' E. left. exists x'.
  rewrite Es in E. split; [done|apply recounted_refl].
Qed.

#[export] Instance sessions_keep_preorder : PreOrder sessions_keep.
Proof.
  split.
  - intros w. by apply keep_same.
  - intros w1 w2 w3 [N1 K1] [N2 K2]. split; [lia|]. intros s x' E.
    destruct (K2 s x' E) as [(x & Ex & Hx)|[Hs Hf]]; [|right; split; [lia|done]].
    destruct (K1 s x Ex) as [(y & Ey & Hy)|[Hs Hf]].
    + left. exists y. split; [done|]. by eapply recounted_trans.
    + right. split; [lia|]. by eapply recounted_empty.
Qed.

Lemma keep_recount w s x v :
  w_sessions w !! s = Some x ->
  sessions_keep w (set_w_sessions (<[s := set_session_refcount v x]> (w_sessions w)) w).
Proof.
  intros Ex. split; [cbn; lia|]. cbn. intros t x' [(<- & <-)|(_ & E)]%lookup_insert_Some; left.
  - by exists x.
  - exists x'. split; [done|apply recounted_refl].
Qed.

Lemma keep_delete w s : sessions_keep w (set_w_sessions (delete s (w_sessions w)) w).
Proof.
  split; [cbn; lia|]. cbn. intros t x' [_ E]%lookup_delete_Some. left. exists x'.
  split; [done|apply recounted_refl].
Qed.

Lemma keep_new w w1 s x :
  (w_next w <= s < w_next w1)%positive -> empty_slots x ->
  sessions_keep w (set_w_sessions (<[s := x]> (w_sessions w)) w1).
Proof.
  intros Hs Hf. split; [cbn; lia|]. cbn.
  intros t x' [(<- & <-)|(_ & E)]%lookup_insert_Some; [by right|left].
  exists x'. split; [done|apply recounted_refl].
Qed.

Abbreviation keeps m := (moves sessions_keep m).

Lemma keeps_modify f :
  (forall w, w_next (f w) = w_next w) -> (forall w, w_sessions (f w) = w_sessions w) ->
  keeps (modify f).
Proof. intros En Es. apply moves_modify. intros w. apply keep_same; [rewrite En; lia|apply Es]. Qed.

Lemma keeps_alloc : keeps alloc.
Proof. intros w a w' [= <- <-]. apply keep_same; [cbn; lia|done]. Qed.

Lemma keeps_put_id p i : keeps (put_id p i).
Proof. by apply keeps_modify. Qed.

Lemma keeps_put_rec r c : keeps (put_rec r c).
Proof. by apply keeps_modify. Qed.

#[export] Hint Resolve keeps_alloc keeps_put_id keeps_put_rec : moves.

(** Follow the structure of a program: binds, and the cases it
    distinguishes. *)
Ltac moves_step :=
  first
    [ assumption
    | solve [eauto with moves nocore typeclass_instances]
    | apply moves_bind; [typeclasses eauto| |intros ?]
    | apply moves_for_each; [typeclasses eauto|intros ?]
    | apply keeps_modify; by intros
    | progress (cbv beta zeta)
    | match goal with
      | |- moves _ (match ?x with _ => _ end) => destruct x
      | |- moves _ (if ?x then _ else _) => destruct x
      end ].
Ltac moves_auto := intros; repeat moves_step.


Section keeps.
Context `{Env : ClientEnv}.

Lemma keeps_upd_id p f : keeps (upd_id p f).
Proof. unfold upd_id. moves_auto. Qed.

Lemma keeps_upd_rec r f : keeps (upd_rec r f).
Proof. unfold upd_rec. moves_auto. Qed.

Lemma keeps_recount {A} s v (k : nfs41_session_t -> CM A) :
  (forall x, keeps (k x)) ->
  keeps (x ← get_session s; put_session s (set_session_refcount (v x) x);; k x).
Proof.
  intros Hk w a w' E. unfold mbind, CM_bind, get_session in E.
  destruct (w_sessions w !! s) as [x|] eqn:Ex; [|done].
  etrans; [by apply (keep_recount w s x (v x))|]. exact (Hk x _ _ _ E).
Qed.

Lemma keeps_inc_session_ref s : keeps (inc_session_ref s).
Proof.
  intros w a w' E. unfold inc_session_ref, upd_session, mbind, CM_bind, get_session in E.
  destruct (w_sessions w !! s) as [x|] eqn:Ex; [|done].
  injection E as <- <-. by apply keep_recount.
Qed.

Lemma keeps_free_session s : keeps (modify (fun w => set_w_sessions (delete s (w_sessions w)) w)).
Proof. apply (moves_modify _). intros w. apply keep_delete. Qed.

Hint Resolve keeps_upd_id keeps_upd_rec keeps_inc_session_ref keeps_free_session : moves.

Lemma keeps_time : keeps time.
Proof. apply moves_gets, _. Qed.

Lemma keeps_record_ref r : keeps (dec_client_record_ref r).
Proof. unfold dec_client_record_ref. moves_auto. Qed.

Hint Resolve keeps_time keeps_record_ref : moves.

Section dec_id.
Context (dec_id : positive -> CM unit) (Hdec : forall p, keeps (dec_id p)).
Hint Resolve Hdec : moves.

Lemma keeps_dec_session_ref_ s : keeps (dec_session_ref_ dec_id s).
Proof. unfold dec_session_ref_. apply keeps_recount. moves_auto. Qed.

Hint Resolve keeps_dec_session_ref_ : moves.

Lemma keeps_Session_Del_ sid : keeps (nfs41_Session_Del_ dec_id sid).
Proof. unfold nfs41_Session_Del_. moves_auto. Qed.

Hint Resolve keeps_Session_Del_ : moves.

Lemma keeps_del_sessions_ p : keeps (del_sessions_ dec_id p).
Proof. unfold del_sessions_. moves_auto. Qed.

Hint Resolve keeps_del_sessions_ : moves.

Lemma keeps_free_client_id_ p : keeps (free_client_id_ dec_id p).
Proof. unfold free_client_id_. moves_auto. Qed.
End dec_id.

Hint Resolve keeps_dec_session_ref_ keeps_Session_Del_ keeps_del_sessions_
  keeps_free_client_id_ : moves.

Lemma keeps_dec_client_id_ref_ n p : keeps (dec_client_id_ref_ n p).
Proof. revert p. induction n; intros p; cbn [dec_client_id_ref_]; moves_auto. Qed.

Lemma keeps_dec_client_id_ref p : keeps (dec_client_id_ref p).
Proof. apply keeps_dec_client_id_ref_. Qed.

Hint Resolve keeps_dec_client_id_ref : moves.

Lemma keeps_dec_session_ref s : keeps (dec_session_ref s).
Proof. unfold dec_session_ref. moves_auto. Qed.

Lemma keeps_Session_Del sid : keeps (nfs41_Session_Del sid).
Proof. unfold nfs41_Session_Del. moves_auto. Qed.

Lemma keeps_Session_Set s : keeps (nfs41_Session_Set s).
Proof. unfold nfs41_Session_Set. moves_auto. Qed.

Lemma keeps_Session_Get_Pointer sid : keeps (nfs41_Session_Get_Pointer sid).
Proof. unfold nfs41_Session_Get_Pointer. moves_auto. Qed.

Lemma keeps_free_client_id p : keeps (free_client_id p).
Proof. unfold free_client_id. moves_auto. Qed.

Lemma keeps_inc_client_id_ref p : keeps (inc_client_id_ref p).
Proof. unfold inc_client_id_ref. moves_auto. Qed.

Lemma keeps_inc_client_record_ref p : keeps (inc_client_record_ref p).
Proof. unfold inc_client_record_ref. moves_auto. Qed.

Hint Resolve keeps_dec_session_ref keeps_Session_Del keeps_Session_Set
  keeps_Session_Get_Pointer keeps_free_client_id keeps_inc_client_id_ref
  keeps_inc_client_record_ref : moves.

Lemma keeps_HashTable_Del ht key : keeps (HashTable_Del ht key).
Proof. unfold HashTable_Del. destruct ht; moves_auto. Qed.

Lemma keeps_test_and_set ht key val : keeps (hashtable_test_and_set ht key val).
Proof. unfold hashtable_test_and_set. destruct ht; moves_auto. Qed.

Lemma keeps_get_client_record v fl addr : keeps (get_client_record v fl addr).
Proof. unfold get_client_record. moves_auto. Qed.

Lemma keeps_new_clientid : keeps new_clientid.
Proof. unfold new_clientid. moves_auto. Qed.

Lemma keeps_new_clientid_verifier : keeps new_clientid_verifier.
Proof. unfold new_clientid_verifier. moves_auto. Qed.

Lemma keeps_Build_sessionid clientid : keeps (nfs41_Build_sessionid clientid).
Proof. unfold nfs41_Build_sessionid. moves_auto. Qed.

Hint Resolve keeps_HashTable_Del keeps_test_and_set keeps_get_client_record keeps_new_clientid
  keeps_new_clientid_verifier keeps_Build_sessionid : moves.

Lemma keeps_create_client_id clientid r cred minor client :
  keeps (create_client_id clientid r cred minor client).
Proof. unfold create_client_id. moves_auto. Qed.

Lemma keeps_client_id_insert p : keeps (nfs_client_id_insert p).
Proof. unfold nfs_client_id_insert. moves_auto. Qed.

Lemma keeps_remove_client_id ht detach p : keeps (remove_client_id ht detach p).
Proof. unfold remove_client_id. moves_auto. Qed.

Hint Resolve keeps_remove_client_id : moves.

Lemma keeps_remove_confirmed p : keeps (remove_confirmed_client_id p).
Proof. unfold remove_confirmed_client_id. moves_auto. Qed.

Lemma keeps_remove_unconfirmed p : keeps (remove_unconfirmed_client_id p).
Proof. unfold remove_unconfirmed_client_id. moves_auto. Qed.

Lemma keeps_client_id_confirm p : keeps (nfs_client_id_confirm p).
Proof. unfold nfs_client_id_confirm. moves_auto. Qed.

Lemma keeps_client_id_get ht clientid : keeps (nfs_client_id_get ht clientid).
Proof. unfold nfs_client_id_get. moves_auto. Qed.

Lemma keeps_reserve_lease p : keeps (reserve_lease p).
Proof. unfold reserve_lease. moves_auto. Qed.

Lemma keeps_update_lease p : keeps (update_lease p).
Proof. unfold update_lease. moves_auto. Qed.

Hint Resolve keeps_create_client_id keeps_client_id_insert keeps_remove_confirmed
  keeps_remove_unconfirmed keeps_client_id_confirm keeps_client_id_get keeps_reserve_lease
  keeps_update_lease : moves.

(** *** Owners and expiry *)

Lemma keeps_upd_owner k p so f : keeps (upd_owner k p so f).
Proof. unfold upd_owner. moves_auto. Qed.

Hint Resolve keeps_upd_owner : moves.

Lemma keeps_inc_owner k p so : keeps (inc_state_owner_ref k p so).
Proof. unfold inc_state_owner_ref. moves_auto. Qed.

Lemma keeps_dec_owner_ dec k p so :
  (forall q, keeps (dec q)) -> keeps (dec_state_owner_ref_ dec k p so).
Proof. unfold dec_state_owner_ref_. moves_auto. Qed.

Lemma keeps_dec_owner k p so : keeps (dec_state_owner_ref k p so).
Proof.
  unfold dec_state_owner_ref.
  destruct k; repeat (apply keeps_dec_owner_; intros); apply moves_crash.
Qed.

Hint Resolve keeps_inc_owner keeps_dec_owner : moves.

Lemma keeps_create_owner k p so related : keeps (create_nfs4_owner k p so related).
Proof. unfold create_nfs4_owner. moves_auto. Qed.

Lemma keeps_state_add k p so st : keeps (state_add k p so st).
Proof. unfold state_add. moves_auto. Qed.

Lemma keeps_state_del k p so st : keeps (state_del k p so st).
Proof. unfold state_del. moves_auto. Qed.

Lemma keeps_expire_owners k release n p : keeps (expire_owners k release n p).
Proof. induction n; cbn [expire_owners]; moves_auto. Qed.

Hint Resolve keeps_create_owner keeps_state_add keeps_state_del keeps_expire_owners : moves.

Lemma keeps_expire p b : keeps (nfs_client_id_expire p b).
Proof. unfold nfs_client_id_expire. moves_auto. Qed.

Hint Resolve keeps_expire : moves.

(** *** The operations *)

Lemma keeps_setclientid_case rq v conf : keeps (setclientid_case rq v conf).
Proof. unfold setclientid_case. moves_auto. Qed.

Lemma keeps_remove_unconf r : keeps (remove_unconf r).
Proof. unfold remove_unconf. moves_auto. Qed.

Lemma keeps_find_client_id clientid : keeps (find_client_id clientid).
Proof. unfold find_client_id. moves_auto. Qed.

Lemma keeps_expire_old_conf r clientid : keeps (expire_old_conf r clientid).
Proof. unfold expire_old_conf. moves_auto. Qed.

Lemma keeps_test_cb_chan up p : keeps (test_cb_chan up p).
Proof. unfold test_cb_chan. moves_auto. Qed.

Lemma keeps_record_of p : keeps (record_of p).
Proof. unfold record_of. moves_auto. Qed.

Lemma keeps_exchange_conf_case rq v b conf : keeps (exchange_conf_case rq v b conf).
Proof. unfold exchange_conf_case. moves_auto. Qed.

Lemma keeps_exchange_reply r p fl : keeps (exchange_reply r p fl).
Proof. unfold exchange_reply. moves_auto. Qed.

Hint Resolve keeps_setclientid_case keeps_remove_unconf keeps_find_client_id keeps_expire_old_conf keeps_test_cb_chan keeps_record_of keeps_exchange_conf_case keeps_exchange_reply : moves.

Lemma keeps_setclientid_locked rq v addr r : keeps (setclientid_locked rq v addr r).
Proof. unfold setclientid_locked. moves_auto. Qed.

Lemma keeps_confirm_unconf rq up n r u : keeps (confirm_unconf rq up n r u).
Proof. unfold confirm_unconf. moves_auto. Qed.

Lemma keeps_exchange_id_locked rq v b h r : keeps (exchange_id_locked rq v b h r).
Proof. unfold exchange_id_locked. moves_auto. Qed.

Lemma keeps_create_session_confirm n r u conf sid : keeps (create_session_confirm n r u conf sid).
Proof. unfold create_session_confirm. moves_auto. Qed.

Hint Resolve keeps_setclientid_locked keeps_confirm_unconf keeps_exchange_id_locked keeps_create_session_confirm : moves.

Lemma keeps_setclientid rq v n addr : keeps (nfs4_op_setclientid rq v n addr).
Proof. unfold nfs4_op_setclientid. moves_auto. Qed.

Lemma keeps_setclientid_confirm_locked rq up n v r u conf : keeps (setclientid_confirm_locked rq up n v r u conf).
Proof. unfold setclientid_confirm_locked. moves_auto. Qed.

Hint Resolve keeps_setclientid_confirm_locked : moves.

Lemma keeps_setclientid_confirm rq up n v : keeps (nfs4_op_setclientid_confirm rq up n v).
Proof. unfold nfs4_op_setclientid_confirm. moves_auto. Qed.

Lemma keeps_exchange_id rq n v fl addr h : keeps (nfs4_op_exchange_id rq n v fl addr h).
Proof. unfold nfs4_op_exchange_id. moves_auto. Qed.

Lemma keeps_new_session rq n mx p : keeps (new_session rq n mx p).
Proof.
  intros w [s sid] w' E.
  unfold new_session, inc_client_id_ref, upd_id, get_id, mbind, CM_bind in E.
  cbn -[lookup insert] in E.
  destruct (w_ids w !! p) as [i|] eqn:Ei; [|done]. cbn -[lookup insert] in E.
  rewrite lookup_insert_eq in E. cbn -[lookup insert] in E.
  destruct (cb_session_list i) as [l|]; [|done].
  injection E as <- <- <-. by apply keep_new; [cbn; lia|].
Qed.

Hint Resolve keeps_new_session : moves.

Lemma keeps_create_session_locked rq n sq fl mx b r p u conf : keeps (create_session_locked rq n sq fl mx b r p u conf).
Proof. unfold create_session_locked. moves_auto. Qed.

Lemma keeps_destroy_find n : keeps (destroy_find n).
Proof. unfold destroy_find. moves_auto. Qed.

Lemma keeps_destroy_clientid_locked r : keeps (destroy_clientid_locked r).
Proof. unfold destroy_clientid_locked. moves_auto. Qed.

Hint Resolve keeps_create_session_locked keeps_destroy_find keeps_destroy_clientid_locked : moves.

Lemma keeps_create_session rq n sq fl mx b : keeps (nfs4_op_create_session rq n sq fl mx b).
Proof. unfold nfs4_op_create_session. moves_auto. Qed.

Lemma keeps_destroy_clientid n : keeps (nfs4_op_destroy_clientid n).
Proof. unfold nfs4_op_destroy_clientid. moves_auto. Qed.

Lemma keeps_destroy_session rq sid : keeps (nfs4_op_destroy_session rq sid).
Proof. unfold nfs4_op_destroy_session. moves_auto. Qed.

Lemma keeps_renew rq n : keeps (nfs4_op_renew rq n).
Proof. unfold nfs4_op_renew. moves_auto. Qed.

Lemma keeps_with_lease minor n body :
  (forall p, keeps (body p)) -> keeps (with_lease minor n body).
Proof. unfold with_lease. moves_auto. Qed.

Lemma keeps_client_open minor n so st : keeps (client_open minor n so st).
Proof. unfold client_open. apply keeps_with_lease; moves_auto. Qed.

Lemma keeps_client_lock minor n so o st : keeps (client_lock minor n so o st).
Proof. unfold client_lock. apply keeps_with_lease; moves_auto. Qed.

Lemma keeps_client_close minor n k so st : keeps (client_close minor n k so st).
Proof. unfold client_close. apply keeps_with_lease; moves_auto. Qed.

Lemma keeps_reap_pin p : keeps (reap_pin p).
Proof. unfold reap_pin. moves_auto. Qed.

Lemma keeps_reap_expire p r : keeps (reap_expire p r).
Proof. unfold reap_expire. moves_auto. Qed.

Hint Resolve keeps_reap_pin keeps_reap_expire : moves.

Lemma keeps_reap_scan l : keeps (reap_scan l).
Proof. induction l; cbn [reap_scan]; moves_auto. Qed.

Hint Resolve keeps_reap_scan : moves.

Lemma keeps_reap_bucket ht ix n count : keeps (reap_bucket ht ix n count).
Proof. revert count. induction n; intros count; cbn [reap_bucket]; moves_auto. Qed.

Hint Resolve keeps_reap_bucket : moves.

Lemma keeps_reap_buckets ht n ix count : keeps (reap_buckets ht n ix count).
Proof. revert ix count. induction n; intros ix count; cbn [reap_buckets]; moves_auto. Qed.

Hint Resolve keeps_reap_buckets : moves.

Lemma keeps_reap_client_ids : keeps reap_client_ids.
Proof. unfold reap_client_ids, reap_hash_table. moves_auto. Qed.

Lemma keeps_release_v4_client f : keeps (nfs_release_v4_client f).
Proof. unfold nfs_release_v4_client. moves_auto. Qed.

End keeps.

#[export] Hint Resolve keeps_upd_id keeps_put_id keeps_dec_client_id_ref keeps_dec_session_ref
  keeps_Session_Get_Pointer keeps_reserve_lease keeps_update_lease keeps_setclientid
  keeps_setclientid_confirm keeps_exchange_id keeps_create_session keeps_create_session_confirm
  keeps_destroy_clientid keeps_destroy_session keeps_renew keeps_client_open keeps_client_lock
  keeps_client_close keeps_client_id_get keeps_reap_pin keeps_reap_expire keeps_reap_client_ids
  keeps_release_v4_client keeps_time : moves.
