(* ===== verification/ClientFrame.v ===== *)
(** * Client identities of NFSv4: what a running operation may change

    The state of a running operation: the invariant of ClientInv.v with the
    references the operation holds, the kinds of the client records, the
    leases with their reservations, and how the world developed since the
    operation began.  The primitives of ClientData.v are given as steps of
    this state. *)
From S2P Require Import Prelude Status Owners ClientData ClientInv ClientLife.

(** A client record serves client ids of one minor version: the records of
    v4.1 clients have pNFS roles. *)
Definition kinds (w : client_world) : Prop :=
  forall p i r c, w_ids w !! p = Some i -> cid_client_record i = Some r ->
    w_recs w !! r = Some c -> cr_pnfs_flags c = 0 <-> cid_minorversion i = 0.

(** No lease was renewed in the future, and [res] are the reservations. *)
Definition leases (res : list positive) (w : client_world) : Prop :=
  forall p i, w_ids w !! p = Some i ->
    cid_last_renew i <= w_time w /\ cid_lease_reservations i = cnt p res.

(** Steps that leave the leases alone. *)
Record mild_id (j j' : nfs_client_id_t) : Prop := {
  mild_clientid : cid_clientid j' = cid_clientid j;
  mild_minor : cid_minorversion j' = cid_minorversion j;
  mild_renew : cid_last_renew j' = cid_last_renew j;
  mild_res : cid_lease_reservations j' = cid_lease_reservations j;
  mild_expired : cid_confirmed j = EXPIRED_CLIENT_ID -> cid_confirmed j' = EXPIRED_CLIENT_ID;
  mild_record : cid_client_record j' = cid_client_record j \/ cid_client_record j' = None
}.

Definition tabled (w : client_world) (k : Z) (q : positive) : Prop :=
  ht_confirmed_client_id w !! k = Some q \/ ht_unconfirmed_client_id w !! k = Some q.

Record mild (w w' : client_world) : Prop := {
  mild_ids q j' : w_ids w' !! q = Some j' -> exists j, w_ids w !! q = Some j /\ mild_id j j';
  mild_recs r c' : w_recs w' !! r = Some c' -> (w_next w <= r)%positive \/ exists c,
    w_recs w !! r = Some c /\ cr_pnfs_flags c' = cr_pnfs_flags c;
  mild_time : w_time w' = w_time w;
  mild_seq : global_sequence w' = global_sequence w;
  mild_next : (w_next w <= w_next w')%positive;
  mild_tabled k q : tabled w' k q -> tabled w k q
}.

Lemma mild_id_refl j : mild_id j j.
Proof. split; auto. Qed.

Lemma mild_refl w : mild w w.
Proof. split; try done; [|by right; eauto]. eauto using mild_id_refl. Qed.

Lemma calm_mild_id j j' : calm_id j j' -> mild_id j j'.
Proof. unfold calm_id. intros ->. split; auto. Qed.

Lemma mild_calm w1 w2 w3 : mild w1 w2 -> calm w2 w3 -> mild w1 w3.
Proof.
  intros H1 H2. split.
  - intros q j3 (j2 & Hj2 & E)%(calm_ids _ _ H2).
    destruct (mild_ids _ _ H1 q j2 Hj2) as (j1 & Hj1 & []). exists j1. split; [done|].
    destruct (calm_mild_id _ _ E) as [? ? ? ? Hex Hre]. split; try congruence; [by auto|].
    destruct Hre as [->| ->]; auto.
  - intros r c3 (c2 & Hc2 & ->)%(calm_recs _ _ H2). cbn. by apply (mild_recs _ _ H1).
  - rewrite (calm_time _ _ H2). apply H1.
  - rewrite (calm_seq _ _ H2). apply H1.
  - rewrite (calm_next _ _ H2). apply H1.
  - unfold tabled. rewrite (calm_conf _ _ H2), (calm_unconf _ _ H2). apply H1.
Qed.

Lemma mild_trans w1 w2 w3 : mild w1 w2 -> mild w2 w3 -> mild w1 w3.
Proof.
  intros H1 H2. pose proof (mild_next _ _ H1). pose proof (mild_next _ _ H2). split; [| | | |lia|].
  - intros q j3 (j2 & Hj2 & [? ? ? ? Hex Hre])%(mild_ids _ _ H2).
    destruct (mild_ids _ _ H1 q j2 Hj2) as (j1 & Hj1 & []). exists j1. split; [done|].
    split; try congruence; [by auto|]. destruct Hre as [->| ->]; auto.
  - intros r c3 [?|(c2 & Hc2 & E2)]%(mild_recs _ _ H2); [left; lia|].
    destruct (mild_recs _ _ H1 r c2 Hc2) as [?|(c1 & Hc1 & E1)]; [by left|]. right. exists c1.
    split; [done|congruence].
  - by rewrite (mild_time _ _ H2), (mild_time _ _ H1).
  - by rewrite (mild_seq _ _ H2), (mild_seq _ _ H1).
  - intros k q Hq. by apply (mild_tabled _ _ H1), (mild_tabled _ _ H2).
Qed.

Lemma calm_mild w w' : calm w w' -> mild w w'.
Proof. apply mild_calm, mild_refl. Qed.

Lemma shrinks_mild w w' : shrinks w w' -> mild w w'.
Proof. intros H. by apply calm_mild, shrinks_calm. Qed.

Lemma mild_upd_id w w' p i i' :
  w_ids w !! p = Some i -> mild_id i i' -> w_ids w' = <[p := i']> (w_ids w) ->
  (forall r c', w_recs w' !! r = Some c' -> exists c,
     w_recs w !! r = Some c /\ cr_pnfs_flags c' = cr_pnfs_flags c) ->
  w_time w' = w_time w -> global_sequence w' = global_sequence w -> w_next w' = w_next w ->
  (forall k q, tabled w' k q -> tabled w k q) -> mild w w'.
Proof.
  intros Hp Hi Ei Hr Et Es En Ht. split; [| |done|done|by rewrite En|done].
  - rewrite Ei. intros q j [[<- <-]|[_ Hj]]%lookup_insert_Some; eauto using mild_id_refl.
  - intros r c' Hc. right. auto.
Qed.

Lemma tabled_drop ht k0 w k q : tabled (drop_key ht k0 w) k q -> tabled w k q.
Proof.
  unfold tabled. destruct ht; cbn; (intros [Hq|Hq]; [|]);
    try (apply lookup_delete_Some in Hq as [_ Hq]); auto.
Qed.

Lemma same_flags (recs : gmap positive nfs_client_record_t) r c c' q y :
  recs !! r = Some c -> cr_pnfs_flags c' = cr_pnfs_flags c -> <[r := c']> recs !! q = Some y ->
  exists x, recs !! q = Some x /\ cr_pnfs_flags y = cr_pnfs_flags x.
Proof. intros Hr E [[<- <-]|[_ Hy]]%lookup_insert_Some; eauto. Qed.

Lemma mild_upd_rec w r c c' :
  w_recs w !! r = Some c -> cr_pnfs_flags c' = cr_pnfs_flags c ->
  mild w (set_w_recs (<[r := c']> (w_recs w)) w).
Proof.
  intros Hr E. split; try done; cbn; [eauto using mild_id_refl|].
  intros q y Hy. right. by eapply same_flags.
Qed.

Definition same_sessions (w w' : client_world) : Prop :=
  w_sessions w' = w_sessions w /\ ht_session_id w' = ht_session_id w.

Lemma shrinks_sessions w w' : shrinks w w' -> same_sessions w w'.
Proof. intros H. rewrite (shrinks_rest _ _ H). done. Qed.

Section frame.
Context `{Env : ClientEnv}.

(** How a client id develops while an operation runs at time [t]: only the
    operations of the client ids [c] touch its lease, and unless [rv] a lapsed
    lease stays lapsed. *)
Record evolve_id (c : list Z) (rv : bool) (t : Z) (j j' : nfs_client_id_t) : Prop := {
  ev_clientid : cid_clientid j' = cid_clientid j;
  ev_minor : cid_minorversion j' = cid_minorversion j;
  ev_expired : cid_confirmed j = EXPIRED_CLIENT_ID -> cid_confirmed j' = EXPIRED_CLIENT_ID;
  ev_lease : cid_clientid j ∉ c ->
    cid_last_renew j' = cid_last_renew j /\
    cid_lease_reservations j' = cid_lease_reservations j;
  ev_lapsed : rv = false -> valid_lease t j = false -> valid_lease t j' = false
}.

Record evolves (c : list Z) (rv : bool) (w w' : client_world) : Prop := {
  ev_ids q j' : w_ids w' !! q = Some j' -> (w_next w <= q)%positive \/ exists j,
    w_ids w !! q = Some j /\ evolve_id c rv (w_time w) j j';
  ev_time : w_time w' = w_time w;
  ev_next : (w_next w <= w_next w')%positive;
  ev_tabled k q : tabled w' k q -> (w_next w <= q)%positive \/ tabled w k q
}.

Lemma evolve_id_refl c rv t j : evolve_id c rv t j j.
Proof. split; auto. Qed.

Lemma evolve_id_trans c rv t j1 j2 j3 :
  evolve_id c rv t j1 j2 -> evolve_id c rv t j2 j3 -> evolve_id c rv t j1 j3.
Proof.
  intros [E1 E2 E3 E4 E5] [F1 F2 F3 F4 F5]. split; try congruence; auto.
  intros Hc. rewrite E1 in F4. destruct (E4 Hc), (F4 Hc). split; congruence.
Qed.

Lemma clients_evolve_refl c rv w : evolves c rv w w.
Proof. split; [|done|lia|by right]. intros q j Hj. right. eauto using evolve_id_refl. Qed.

Lemma clients_evolve_trans c rv w1 w2 w3 : evolves c rv w1 w2 -> evolves c rv w2 w3 -> evolves c rv w1 w3.
Proof.
  intros H1 H2. pose proof (ev_next _ _ _ _ H1). pose proof (ev_next _ _ _ _ H2). split; [| |lia|].
  - intros q j3 [?|(j2 & Hj2 & E)]%(ev_ids _ _ _ _ H2); [left; lia|].
    destruct (ev_ids _ _ _ _ H1 q j2 Hj2) as [?|(j1 & Hj1 & E')]; [by left|]. right.
    exists j1. split; [done|]. eapply evolve_id_trans; [done|]. by rewrite <- (ev_time _ _ _ _ H1).
  - by rewrite (ev_time _ _ _ _ H2), (ev_time _ _ _ _ H1).
  - intros k q [?|Hq]%(ev_tabled _ _ _ _ H2); [left; lia|]. by apply (ev_tabled _ _ _ _ H1).
Qed.

Lemma valid_lease_mild t j j' : mild_id j j' -> valid_lease t j = false -> valid_lease t j' = false.
Proof.
  intros [_ _ E1 E2 E3 _]. unfold valid_lease, lease_left. rewrite E1, E2.
  destruct (decide (cid_confirmed j = EXPIRED_CLIENT_ID)) as [Ej|?];
    [by rewrite (decide_True (P := cid_confirmed j' = EXPIRED_CLIENT_ID)) by auto|].
  by destruct (decide (cid_confirmed j' = EXPIRED_CLIENT_ID)).
Qed.

Lemma mild_evolves c rv w w' : mild w w' -> evolves c rv w w'.
Proof.
  intros H. split; [|apply H|apply H|intros k q Hq; right; by apply (mild_tabled _ _ H)].
  intros q j' (j & Hj & E)%(mild_ids _ _ H). right.
  exists j. split; [done|]. split; try apply E; [by intros _; split; apply E|].
  intros _. by apply valid_lease_mild.
Qed.

(** The state of an operation that began in [w0]: it holds [hi], [hr] and
    [hs], reserved the leases [res] and made [sq] sessions. *)
Record st (c : list Z) (rv : bool) (w0 : client_world) (sq : Z)
    (res hi hr hs : list positive) (w : client_world) : Prop := {
  st_inv : inv hi hr hs None w;
  st_kinds : kinds w;
  st_leases : leases res w;
  st_res : forall p, p ∈ res -> (p < w_next w)%positive;
  st_evolves : evolves c rv w0 w;
  st_seq : global_sequence w = global_sequence w0 + sq
}.

Lemma mild_kinds hi hr hs w w' : inv hi hr hs None w -> kinds w -> mild w w' -> kinds w'.
Proof.
  intros Hi Hk Hm p i' r c' Hp Er Hc. destruct (mild_ids _ _ Hm p i' Hp) as (i & Hpi & Hid).
  destruct (mild_record _ _ Hid) as [E|E]; [|congruence]. rewrite E in Er.
  destruct (inv_link_some _ _ _ _ _ _ _ _ Hi Hpi Er) as [x Hx].
  destruct (mild_recs _ _ Hm r c' Hc) as [?|(y & Hy & ->)].
  { assert (r < w_next w)%positive by (eapply (inv_fresh_rec _ _ _ _ _ Hi); eauto). lia. }
  rewrite (mild_minor _ _ Hid). by eapply Hk.
Qed.

Lemma mild_leases res w w' : leases res w -> mild w w' -> leases res w'.
Proof.
  intros Hl Hm p i' Hp. destruct (mild_ids _ _ Hm p i' Hp) as (i & Hpi & Hid).
  rewrite (mild_renew _ _ Hid), (mild_res _ _ Hid), (mild_time _ _ Hm). by apply Hl.
Qed.

Lemma st_mild c rv w0 sq res hi hr hs hi' hr' hs' w w' :
  st c rv w0 sq res hi hr hs w -> mild w w' -> inv hi' hr' hs' None w' ->
  st c rv w0 sq res hi' hr' hs' w'.
Proof.
  intros [Hi Hk Hl Hr He Hs] Hm Hi'. split; [done|..].
  - exact (mild_kinds _ _ _ _ _ Hi Hk Hm).
  - exact (mild_leases _ _ _ Hl Hm).
  - intros p Hp%Hr. pose proof (mild_next _ _ Hm). lia.
  - eapply clients_evolve_trans; [done|by apply mild_evolves].
  - by rewrite (mild_seq _ _ Hm).
Qed.

(** The same for a step that also puts new client ids in the tables. *)
Lemma st_mild_new c rv w0 sq res hi hr hs hi' hr' hs' w w1 w' :
  st c rv w0 sq res hi hr hs w -> mild w w1 -> inv hi' hr' hs' None w' ->
  w_ids w' = w_ids w1 -> w_recs w' = w_recs w1 -> w_time w' = w_time w1 ->
  global_sequence w' = global_sequence w1 -> w_next w' = w_next w1 ->
  (forall k q, tabled w' k q -> (w_next w0 <= q)%positive \/ tabled w k q) ->
  st c rv w0 sq res hi' hr' hs' w'.
Proof.
  intros H Hm Hi' Ei Er Et Es En Ht.
  pose proof (mild_kinds _ _ _ _ _ (st_inv _ _ _ _ _ _ _ _ _ H) (st_kinds _ _ _ _ _ _ _ _ _ H) Hm) as Hk.
  pose proof (mild_leases _ _ _ (st_leases _ _ _ _ _ _ _ _ _ H) Hm) as Hl.
  pose proof (st_evolves _ _ _ _ _ _ _ _ _ H) as He.
  pose proof (clients_evolve_trans _ _ _ _ _ He (mild_evolves c rv _ _ Hm)) as [Hv1 Hv2 Hv3 _].
  split; [done| | | | |by rewrite Es, (mild_seq _ _ Hm); apply H].
  - intros p i r x. rewrite Ei, Er. apply Hk.
  - intros p i. rewrite Ei, Et. apply Hl.
  - intros p Hp%(st_res _ _ _ _ _ _ _ _ _ H). pose proof (mild_next _ _ Hm). rewrite En. lia.
  - split; [by rewrite Ei|by rewrite Et|by rewrite En|].
    intros k q [?|Hq]%Ht; [by left|]. by apply (ev_tabled _ _ _ _ He).
Qed.

Lemma st_start c rv res hi hr hs w :
  inv hi hr hs None w -> kinds w -> leases res w -> (forall p, p ∈ res -> (p < w_next w)%positive) ->
  st c rv w 0 res hi hr hs w.
Proof. intros. split; try done; [apply clients_evolve_refl|lia]. Qed.

(** ** The primitives as steps *)

Section prims.
Variables (c : list Z) (rv : bool) (w0 : client_world).

Lemma inc_id_st sq res hi hr hs w p (Q : unit -> client_world -> Prop) :
  st c rv w0 sq res hi hr hs w -> usable w p ->
  (forall i, w_ids w !! p = Some i ->
     let w' := set_w_ids (<[p := set_cid_refcount (cid_refcount i + 1) i]> (w_ids w)) w in
     st c rv w0 sq res (p :: hi) hr hs w' -> Q tt w') ->
  wp (inc_client_id_ref p) Q w.
Proof.
  intros H Hu HQ. apply (inc_client_id_ref_ok hi hr hs None); [apply H|done|].
  intros i Hi w' Hw'. apply (HQ i Hi). eapply st_mild; [exact H| |exact Hw'].
  eapply mild_upd_id; try done; [by split; auto|eauto].
Qed.

Lemma dec_id_st sq res hi hr hs w p (Q : unit -> client_world -> Prop) :
  st c rv w0 sq res (p :: hi) hr hs w ->
  (forall w', st c rv w0 sq res hi hr hs w' -> shrinks w w' -> Q tt w') ->
  wp (dec_client_id_ref p) Q w.
Proof.
  intros H HQ. apply (dec_client_id_ref_ok hi hr hs None); [apply H|].
  intros w' Hw' Hs. apply HQ; [|done]. eapply st_mild; [done|by apply shrinks_mild|done].
Qed.

Lemma inc_rec_st sq res hi hr hs w r (Q : unit -> client_world -> Prop) :
  st c rv w0 sq res hi hr hs w -> is_Some (w_recs w !! r) ->
  (forall x, w_recs w !! r = Some x ->
     let w' := set_w_recs (<[r := set_cr_refcount (cr_refcount x + 1) x]> (w_recs w)) w in
     st c rv w0 sq res hi (r :: hr) hs w' -> Q tt w') ->
  wp (inc_client_record_ref r) Q w.
Proof.
  intros H Hr HQ. apply (inc_client_record_ref_ok hi hr hs None); [apply H|done|].
  intros x Hx w' Hw'. apply (HQ x Hx). eapply st_mild; [exact H|by eapply mild_upd_rec|exact Hw'].
Qed.

Lemma dec_rec_st sq res hi hr hs w r (Q : unit -> client_world -> Prop) :
  st c rv w0 sq res hi (r :: hr) hs w ->
  (forall w', st c rv w0 sq res hi hr hs w' -> shrinks w w' /\ w_ids w' = w_ids w -> Q tt w') ->
  wp (dec_client_record_ref r) Q w.
Proof.
  intros H HQ. destruct (rec_decr_ok _ _ _ _ _ _ (st_inv _ _ _ _ _ _ _ _ _ H)) as (recs' & l' & E & Hi).
  pose proof (rec_decr_shrinks _ _ _ _ E) as Hs.
  unfold wp. rewrite dec_client_record_ref_eq, E. apply HQ; [|done].
  eapply st_mild; [done|by apply shrinks_mild|done].
Qed.

Lemma dec_session_st sq res hi hr hs w s (Q : unit -> client_world -> Prop) :
  st c rv w0 sq res hi hr (s :: hs) w ->
  (forall w', st c rv w0 sq res hi hr hs w' ->
     calm w w' /\ ht_session_id w' = ht_session_id w -> Q tt w') ->
  wp (dec_session_ref s) Q w.
Proof.
  intros H HQ. apply (dec_session_ref_ok hi hr hs); [apply H|]. intros w' Hw' Hc _ Eh.
  apply HQ; [|done]. eapply st_mild; [done|by apply calm_mild|done].
Qed.

Lemma session_del_st sq res hi hr hs w sid (Q : bool -> client_world -> Prop) :
  st c rv w0 sq res hi hr hs w ->
  (forall ok w', st c rv w0 sq res hi hr hs w' -> calm w w' -> Q ok w') ->
  wp (nfs41_Session_Del sid) Q w.
Proof.
  intros H HQ. apply (nfs41_Session_Del_ok hi hr hs); [apply H|]. intros ok w' Hw' Hc _.
  apply HQ; [|done]. eapply st_mild; [done|by apply calm_mild|done].
Qed.

Lemma get_record_st sq res hi hr hs w value pnfs_flags server_addr
    (Q : option positive -> client_world -> Prop) :
  st c rv w0 sq res hi hr hs w -> Q None w ->
  (forall r x w', st c rv w0 sq res hi (r :: hr) hs w' -> w_recs w' !! r = Some x ->
     cr_pnfs_flags x = pnfs_flags -> Q (Some r) w') ->
  wp (get_client_record value pnfs_flags server_addr) Q w.
Proof.
  intros H HQ0 HQ. apply (get_client_record_ok hi hr hs); [apply H|done|].
  intros r x w' Hw' Hs Hr Hf. eapply HQ; [|done|done]. eapply st_mild; [exact H| |done].
  destruct Hs as [Ei Ec Eu Et Es En Hrec]. split; try done.
  - rewrite Ei. eauto using mild_id_refl.
  - intros q c' [?|(y & Hy & ->)]%Hrec; [by left|right; eauto].
  - unfold tabled. by rewrite Ec, Eu.
Qed.

Lemma expire_mark_mild p stale i w :
  w_ids w !! p = Some i -> cid_confirmed i <> EXPIRED_CLIENT_ID -> mild w (expire_mark p stale i w).
Proof.
  intros Hp Hst. unfold expire_mark. set (i' := set_cid_confirmed _ _).
  assert (mild_id i i') as Hi by (split; auto; done).
  set (recs := match cid_client_record i with Some r => _ | None => _ end).
  assert (forall r c', recs !! r = Some c' -> exists x,
    w_recs w !! r = Some x /\ cr_pnfs_flags c' = cr_pnfs_flags x) as Hr.
  { intros r c'. unfold recs. destruct (cid_client_record i) as [r'|]; [|eauto].
    destruct (decide (r = r')) as [->|?]; [|rewrite lookup_alter_ne by done; eauto].
    rewrite lookup_alter_eq, fmap_Some. intros (x & Hx & ->). exists x. split; [done|].
    unfold detach_record. destruct (decide _); destruct (decide _); done. }
  destruct stale; [eapply mild_upd_id; [done|exact Hi|done..]|].
  eapply (mild_upd_id _ _ p i i'); [done|exact Hi|..]; try (by destruct (table_for (cid_confirmed i))).
  intros k q Hq%tabled_drop. done.
Qed.

Context {Laws : OwnerLaws}.

Lemma expire_st (stale : bool) sq res hi hr hs w p i (Q : bool -> client_world -> Prop) :
  st c rv w0 sq res hi hr hs w -> p ∈ hi -> w_ids w !! p = Some i ->
  (stale = true -> cid_confirmed i = CONFIRMED_CLIENT_ID) ->
  (cid_confirmed i = EXPIRED_CLIENT_ID -> Q false w) ->
  (forall w', cid_confirmed i <> EXPIRED_CLIENT_ID -> st c rv w0 sq res hi hr hs w' ->
     calm (expire_mark p stale i w) w' -> Q true w') ->
  wp (nfs_client_id_expire p stale) Q w.
Proof.
  intros H Hh Hp Hst HQ1 HQ2. apply (nfs_client_id_expire_ok stale hi hr hs w p i); try done; [apply H|].
  intros w' Hex Hw' Hc. apply HQ2; [done| |done]. eapply st_mild; [done| |done].
  eapply mild_calm; [by apply expire_mark_mild|done].
Qed.

(** *** The pointers of a record *)

Lemma held_rec sq res hi hr hs w r :
  st c rv w0 sq res hi hr hs w -> r ∈ hr -> is_Some (w_recs w !! r).
Proof. intros H. apply (recs_held _ _ _ _ (inv_recs _ _ _ _ _ (st_inv _ _ _ _ _ _ _ _ _ H))). Qed.

Lemma unconf_ptr hi hr hs w r x u :
  inv hi hr hs None w -> w_recs w !! r = Some x -> cr_unconfirmed_rec x = Some u ->
  exists i, w_ids w !! u = Some i /\ cid_confirmed i = UNCONFIRMED_CLIENT_ID /\
    cid_client_record i = Some r /\ 0 < hashed w u i /\ cr_confirmed_rec x <> Some u.
Proof.
  intros H Hr Hu. pose proof (recs_view w r x Hr) as Hv. unfold ptrs in Hv. rewrite Hu in Hv.
  destruct (tab_rec_unconf _ _ _ _ (inv_tab _ _ _ _ _ H) r u _ Hv) as (k & Hi & Ht).
  rewrite lookup_fmap, fmap_Some in Hi. destruct Hi as (i & Hi & E). unfold ident in E.
  injection E as -> Est Er. exists i. repeat split; try done.
  - unfold hashed. rewrite Ht, (bool_decide_true (Some u = Some u)) by done.
    unfold b2z. destruct (bool_decide _); lia.
  - intros Ec. rewrite Ec in Hv.
    destruct (tab_rec_conf _ _ _ _ (inv_tab _ _ _ _ _ H) r u _ Hv) as (k & Hk).
    rewrite (ids_view w u i Hi) in Hk. unfold ident in Hk. congruence.
Qed.

Lemma conf_ptr hi hr hs w r x p :
  inv hi hr hs None w -> w_recs w !! r = Some x -> cr_confirmed_rec x = Some p ->
  exists i, w_ids w !! p = Some i /\ cid_confirmed i = CONFIRMED_CLIENT_ID /\
    cid_client_record i = Some r /\ 0 < hashed w p i /\ cr_unconfirmed_rec x <> Some p.
Proof.
  intros H Hr Hp. pose proof (recs_view w r x Hr) as Hv. unfold ptrs in Hv. rewrite Hp in Hv.
  destruct (tab_rec_conf _ _ _ _ (inv_tab _ _ _ _ _ H) r p _ Hv) as (k & Hi).
  destruct (tab_confirmed _ _ _ _ (inv_tab _ _ _ _ _ H) p k _ Hi) as (Ht & _).
  rewrite lookup_fmap, fmap_Some in Hi. destruct Hi as (i & Hi & E). unfold ident in E.
  injection E as -> Est Er. exists i. repeat split; try done.
  - unfold hashed. rewrite Ht, (bool_decide_true (Some p = Some p)) by done.
    unfold b2z. destruct (bool_decide (ht_unconfirmed_client_id w !! _ = _)); lia.
  - intros Eu. destruct (unconf_ptr _ _ _ _ _ _ _ H Hr Eu) as (i' & Hi' & Est' & _). congruence.
Qed.

Lemma remove_st sq res hi hr hs w p i r x detach (Q : bool -> client_world -> Prop) :
  st c rv w0 sq res hi hr hs w -> w_ids w !! p = Some i -> 0 < hashed w p i ->
  cid_client_record i = Some r -> w_recs w !! r = Some x -> r ∈ hr ->
  detach x = detach_record p x ->
  (forall w' x', st c rv w0 sq res hi hr hs w' -> w_recs w' !! r = Some x' ->
     x' = set_cr_refcount (cr_refcount x') (detach_record p x) ->
     mild w w' /\ same_sessions w w' -> Q true w') ->
  wp (remove_client_id (table_for (cid_confirmed i)) detach p) Q w.
Proof.
  intros H Hp Hh Er Hr Hin Ed HQ.
  apply (remove_client_id_ok hi hr hs w p i r x); try done; [apply H|]. intros w' Hw' Hs.
  destruct (recs_held _ _ _ _ (inv_recs _ _ _ _ _ Hw') r Hin) as [x' Hx'].
  destruct (shrinks_recs _ _ Hs r x' Hx') as (y & Hy & E).
  assert (y = detach_record p x) as ->.
  { destruct (table_for (cid_confirmed i)); cbn in Hy; rewrite lookup_insert_eq in Hy; congruence. }
  assert (same_sessions w w') as Hss.
  { unfold same_sessions. pose proof (shrinks_sessions _ _ Hs) as [-> ->]. by destruct (table_for (cid_confirmed i)). }
  enough (mild w w') as Hm by (eapply HQ; [|done|done|done]; eapply st_mild; [done|done|done]).
  eapply mild_calm; [|by apply shrinks_calm].
  assert (cr_pnfs_flags (detach_record p x) = cr_pnfs_flags x) as Ef.
  { unfold detach_record. destruct (decide _); destruct (decide _); done. }
  eapply (mild_upd_id _ _ p i (set_cid_confirmed EXPIRED_CLIENT_ID i)); try done;
    [by split; auto|by destruct (table_for _)|..|by intros k q Hq%tabled_drop]; try by destruct (table_for _).
  intros q z Hz. eapply same_flags; [exact Hr|exact Ef|]. by destruct (table_for _).
Qed.

Lemma remove_unconfirmed_st sq res hi hr hs w r x u (Q : bool -> client_world -> Prop) :
  st c rv w0 sq res hi hr hs w -> w_recs w !! r = Some x -> r ∈ hr ->
  cr_unconfirmed_rec x = Some u ->
  (forall w' x', st c rv w0 sq res hi hr hs w' -> w_recs w' !! r = Some x' ->
     x' = set_cr_refcount (cr_refcount x') (set_cr_unconfirmed_rec None x) ->
     mild w w' /\ same_sessions w w' -> Q true w') ->
  wp (remove_unconfirmed_client_id u) Q w.
Proof.
  intros H Hr Hin Hu HQ.
  destruct (unconf_ptr hi hr hs w r x u) as (i & Hi & Est & Er & Hh & Hne); [apply H|done|done|].
  unfold remove_unconfirmed_client_id.
  replace unconfirmed_table with (table_for (cid_confirmed i)) by (by rewrite Est).
  pose proof (detach_unconf u x Hne Hu) as Ed.
  eapply remove_st; try done. rewrite <- Ed. exact HQ.
Qed.

Lemma remove_confirmed_st sq res hi hr hs w r x p (Q : bool -> client_world -> Prop) :
  st c rv w0 sq res hi hr hs w -> w_recs w !! r = Some x -> r ∈ hr ->
  cr_confirmed_rec x = Some p ->
  (forall w' x', st c rv w0 sq res hi hr hs w' -> w_recs w' !! r = Some x' ->
     x' = set_cr_refcount (cr_refcount x') (set_cr_confirmed_rec None x) ->
     mild w w' /\ same_sessions w w' -> Q true w') ->
  wp (remove_confirmed_client_id p) Q w.
Proof.
  intros H Hr Hin Hu HQ.
  destruct (conf_ptr hi hr hs w r x p) as (i & Hi & Est & Er & Hh & Hne); [apply H|done|done|].
  unfold remove_confirmed_client_id.
  replace confirmed_table with (table_for (cid_confirmed i)) by (by rewrite Est).
  pose proof (detach_conf p x Hu Hne) as Ed.
  eapply remove_st; try done. rewrite <- Ed. exact HQ.
Qed.

Lemma confirm_st sq res hi hr hs w p i r x (Q : clientid_status_t -> client_world -> Prop) :
  st c rv w0 sq res hi hr hs w -> w_ids w !! p = Some i -> 0 < hashed w p i ->
  cid_confirmed i = UNCONFIRMED_CLIENT_ID -> cid_client_record i = Some r ->
  w_recs w !! r = Some x -> cr_confirmed_rec x = None ->
  (forall rc w', st c rv w0 sq res hi hr hs w' ->
     mild w w' /\ (rc = CLIENT_ID_SUCCESS -> ht_confirmed_client_id w' !! cid_clientid i = Some p) ->
     Q rc w') ->
  wp (nfs_client_id_confirm p) Q w.
Proof.
  intros H Hp Hh Est Er Hr Hcc HQ.
  assert (forall rc w', inv hi hr hs None w' -> mild w w' ->
    (rc = CLIENT_ID_SUCCESS -> ht_confirmed_client_id w' !! cid_clientid i = Some p) -> Q rc w') as HQ'.
  { intros rc w' Hi Hm Ht. apply HQ; [|done]. eapply st_mild; [exact H|done|exact Hi]. }
  eapply (nfs_client_id_confirm_ok hi hr hs w p i r x); try done; [apply H|..].
  - intros Hi. apply HQ'; [done| |intros _; apply lookup_insert_eq].
    eapply (mild_upd_id _ _ p i (set_cid_confirmed CONFIRMED_CLIENT_ID i)); try done;
      [by split; auto; rewrite Est| |].
    + intros q y Hy. eapply same_flags; [exact Hr| |exact Hy]. done.
    + unfold tabled. cbn. intros k q [[[<- <-]|[_ Hq]]%lookup_insert_Some|[_ Hq]%lookup_delete_Some]; [|by left|by right].
      right. destruct (hashed_in _ _ _ _ _ _ _ (st_inv _ _ _ _ _ _ _ _ _ H) Hp Hh) as (_ & _ & Ht).
      by rewrite Est in Ht.
  - intros w' Hw' Hs. apply HQ'; [done| |done].
    eapply mild_calm; [|by apply shrinks_calm].
    eapply (mild_upd_id _ _ p i (set_cid_confirmed EXPIRED_CLIENT_ID i)); try done;
      [by split; auto| |by intros k q Hq%tabled_drop].
    intros q y Hy. eapply same_flags; [exact Hr| |exact Hy].
    unfold detach_record. destruct (decide _); destruct (decide _); done.
Qed.

(** *** New client ids *)

Lemma st_counters sq res hi hr hs w n v :
  st c rv w0 sq res hi hr hs w ->
  st c rv w0 sq res hi hr hs (set_clientid_counter n w) /\
  st c rv w0 sq res hi hr hs (set_clientid_verifier v w).
Proof.
  intros H. split; (eapply st_mild; [exact H| |]);
    try (destruct (st_inv _ _ _ _ _ _ _ _ _ H); split; done);
    (split; try done; cbn; eauto using mild_id_refl).
Qed.

Lemma new_clientid_st sq res hi hr hs w (Q : Z -> client_world -> Prop) :
  st c rv w0 sq res hi hr hs w ->
  (forall n w', st c rv w0 sq res hi hr hs w' -> w_recs w' = w_recs w -> Q n w') ->
  wp new_clientid Q w.
Proof.
  intros H HQ. unfold new_clientid. wp_step. wp_step. wp_step. apply HQ; [|done].
  by eapply (st_counters _ _ _ _ _ _ _ 0).
Qed.

Lemma new_clientid_verifier_st sq res hi hr hs w (Q : Z -> client_world -> Prop) :
  st c rv w0 sq res hi hr hs w ->
  (forall n w', st c rv w0 sq res hi hr hs w' -> w_recs w' = w_recs w -> Q n w') ->
  wp new_clientid_verifier Q w.
Proof.
  intros H HQ. unfold new_clientid_verifier. wp_step. wp_step. wp_step. apply HQ; [|done].
  by eapply (st_counters _ _ _ _ _ _ 0 _).
Qed.

Lemma created_upd w w' r i f :
  created w w' r i ->
  created w (set_w_ids (<[w_next w := f i]> (w_ids w')) w') r (f i) /\
  w_ids w' !! w_next w = Some i.
Proof.
  intros (x & Hx & Ei & Hc). split; [|by rewrite Ei, lookup_insert_eq].
  exists x. split; [done|]. split; [cbn; rewrite Ei; apply insert_insert_eq|done].
Qed.

Lemma st_created sq res hi hr hs w w' r x i :
  st c rv w0 sq res hi hr hs w -> created w w' r i -> new_id r i -> w_recs w !! r = Some x ->
  (cr_pnfs_flags x = 0 <-> cid_minorversion i = 0) ->
  cid_last_renew i = w_time w -> cid_lease_reservations i = 0 ->
  st c rv w0 sq res hi hr hs w'.
Proof.
  intros H Hc Hn Hx Hk Hl Hr. pose proof (created_inv _ _ _ _ _ _ _ (st_inv _ _ _ _ _ _ _ _ _ H) Hc Hn).
  destruct Hc as (x' & Hx' & Ei & Er & _ & _ & Ehc & Ehu & _ & Es & En & Et).
  rewrite Hx in Hx'. injection Hx' as <-.
  destruct H as [Hi Hki Hle Hre He Hs].
  split; [done| | |intros q Hq%Hre; rewrite En; lia| |by rewrite Es].
  - intros q j r' y. rewrite Ei, Er.
    assert (forall y, <[r := set_cr_refcount (cr_refcount x + 1) x]> (w_recs w) !! r' = Some y ->
      exists z, w_recs w !! r' = Some z /\ cr_pnfs_flags y = cr_pnfs_flags z) as Hf
      by (intros ?; by eapply same_flags).
    intros [[<- <-]|[_ Hj]]%lookup_insert_Some Erj (z & Hz & ->)%Hf; [|by eapply Hki].
    destruct Hn as (_ & E & _). assert (r' = r) as -> by congruence. by rewrite Hz in Hx; injection Hx as ->.
  - intros q j. rewrite Ei, Et. intros [[<- <-]|[_ Hj]]%lookup_insert_Some; [|by apply Hle].
    rewrite cnt_zero; [lia|]. intros Hq%Hre. lia.
  - eapply clients_evolve_trans; [done|]. split; [|done|rewrite En; lia|unfold tabled; rewrite Ehc, Ehu; by right].
    intros q j. rewrite Ei. intros [[<- _]|[_ Hj]]%lookup_insert_Some; [left; lia|].
    right. eauto using evolve_id_refl.
Qed.

Lemma insert_st sq res hi hr hs w p i r x (Q : clientid_status_t -> client_world -> Prop) :
  st c rv w0 sq res hi hr hs w -> w_ids w !! p = Some i -> new_id r i ->
  w_recs w !! r = Some x -> cr_unconfirmed_rec x = None ->
  (w_next w0 <= p)%positive ->
  (forall w', st c rv w0 sq res hi hr hs w' -> is_Some (w_ids w' !! p) -> Q CLIENT_ID_SUCCESS w') ->
  (forall w', st c rv w0 sq res hi hr hs w' -> Q CLIENT_ID_INSERT_MALLOC_ERROR w') ->
  wp (nfs_client_id_insert p) Q w.
Proof.
  intros H Hp Hn Hr Hu Hnew HQ1 HQ2.
  eapply (nfs_client_id_insert_ok hi hr hs w p i r x); try done; [apply H|..].
  - intros w' Hw' ->. apply HQ1; [|cbn; rewrite lookup_insert_eq; eauto].
    eapply (st_mild_new _ _ _ _ _ _ _ _ _ _ _ w (set_w_recs (<[r := set_cr_unconfirmed_rec (Some p) x]> (w_recs w))
      (set_w_ids (<[p := set_cid_refcount 1 i]> (w_ids w)) w))); try done.
    + eapply (mild_upd_id _ _ p i (set_cid_refcount 1 i)); try done; [by split; auto|].
      intros q y Hy. eapply same_flags; [exact Hr| |exact Hy]. done.
    + unfold tabled. cbn. intros k q [Hq|[[_ <-]|[_ Hq]]%lookup_insert_Some]; [by right; left|by left|by right; right].
  - intros w' Hw' Hs. apply HQ2. eapply st_mild; [exact H|by apply shrinks_mild|exact Hw'].
Qed.

(** *** Lookups *)

Lemma table_entry hi hr hs w ht k p :
  inv hi hr hs None w -> table_of ht w !! k = Some p ->
  exists i, w_ids w !! p = Some i /\ cid_clientid i = k /\ 0 < hashed w p i /\
    match ht with
    | confirmed_table => cid_confirmed i = CONFIRMED_CLIENT_ID \/ cid_confirmed i = STALE_CLIENT_ID
    | unconfirmed_table => cid_confirmed i = UNCONFIRMED_CLIENT_ID /\ exists r x,
        cid_client_record i = Some r /\ w_recs w !! r = Some x /\ cr_unconfirmed_rec x = Some p
    end.
Proof.
  intros H Hk. unfold hashed. destruct ht; cbn in Hk.
  - destruct (tab_conf _ _ _ _ (inv_tab _ _ _ _ _ H) k p Hk) as (s & ro & Hi & Hs).
    rewrite lookup_fmap, fmap_Some in Hi. destruct Hi as (i & Hi & [= E1 E2 E3]). subst.
    exists i. repeat split; try done. rewrite Hk, (bool_decide_true (Some p = Some p)) by done.
    unfold b2z. destruct (bool_decide (ht_unconfirmed_client_id w !! _ = _)); lia.
  - destruct (tab_unconf _ _ _ _ (inv_tab _ _ _ _ _ H) k p Hk) as (r & a & Hi & Hr).
    rewrite lookup_fmap, fmap_Some in Hi. destruct Hi as (i & Hi & [= E1 E2 E3]).
    rewrite lookup_fmap, fmap_Some in Hr. destruct Hr as (x & Hx & [= E4 E5]). subst.
    exists i. repeat split; try done; [|by eauto].
    rewrite Hk, (bool_decide_true (Some p = Some p)) by done.
    unfold b2z. destruct (bool_decide (ht_confirmed_client_id w !! _ = _)); lia.
Qed.

Lemma table_usable hi hr hs w ht k p :
  inv hi hr hs None w -> table_of ht w !! k = Some p -> usable w p.
Proof.
  intros H Hk. destruct (table_entry _ _ _ _ _ _ _ H Hk) as (i & Hi & _ & Hh & _).
  exists i. auto.
Qed.

Lemma lookup_st ht clientid sq res hi hr hs w
    (Q : clientid_status_t * option positive -> client_world -> Prop) :
  st c rv w0 sq res hi hr hs w ->
  (forall rc w', st c rv w0 sq res hi hr hs w' -> rc <> CLIENT_ID_SUCCESS -> shrinks w w' ->
     Q (rc, None) w') ->
  (forall p i, w_ids w !! p = Some i -> table_of ht w !! clientid = Some p ->
     cid_clientid i = clientid -> cid_confirmed i <> STALE_CLIENT_ID ->
     let w' := set_w_ids (<[p := set_cid_refcount (cid_refcount i + 1) i]> (w_ids w)) w in
     st c rv w0 sq res (p :: hi) hr hs w' -> Q (CLIENT_ID_SUCCESS, Some p) w') ->
  wp (nfs_client_id_get ht clientid) Q w.
Proof.
  intros H HQ1 HQ2. unfold nfs_client_id_get.
  destruct (negb _); [wp_step; apply HQ1; [done|done|apply shrinks_refl]|].
  wp_step. destruct (table_of ht w !! clientid) as [p|] eqn:Et;
    [|wp_step; apply HQ1; [done|done|apply shrinks_refl]].
  pose proof (st_inv _ _ _ _ _ _ _ _ _ H) as Hi.
  destruct (table_entry _ _ _ _ _ _ _ Hi Et) as (i & Hp & Ek & _).
  apply wp_bind, (inc_id_st sq res hi hr hs); [done|by eapply table_usable|].
  intros i' Hp' w' Hw'. rewrite Hp in Hp'. injection Hp' as <-.
  apply wp_bind. eapply wp_get_id; [apply lookup_insert_eq|].
  destruct (decide _) as [Est|Est]; [|wp_step; eapply HQ2; done].
  apply wp_bind, (dec_id_st sq res hi hr hs); [done|]. intros w2 Hw2 Hs. wp_step.
  apply HQ1; [done|done|]. eapply shrinks_trans; [|exact Hs].
  split; cbn; [|apply (shrinks_recs w w), shrinks_refl|by destruct w].
  intros q j [[<- <-]|[_ Hj]]%lookup_insert_Some; [by exists i|].
  exists j. by rewrite set_cid_refcount_id.
Qed.

(** *** Leases *)

Lemma st_lease sq res res' hi hr hs w p i i' :
  st c rv w0 sq res hi hr hs w -> w_ids w !! p = Some i ->
  same_shape i i' -> cid_refcount i' = cid_refcount i ->
  evolve_id c rv (w_time w) i i' -> cid_last_renew i' <= w_time w ->
  cid_lease_reservations i' = cnt p res' -> (forall q, q <> p -> cnt q res' = cnt q res) ->
  (forall q, q ∈ res' -> q = p \/ q ∈ res) ->
  st c rv w0 sq res' hi hr hs (set_w_ids (<[p := i']> (w_ids w)) w).
Proof.
  intros [Hi Hk Hl Hr He Hs] Hp Hsh Erc Hev Ht Hn Hq Hr'. split; [| | | | |done].
  - by eapply inv_upd_id.
  - unfold kinds. cbn. intros q j r x [[<- <-]|[_ Hj]]%lookup_insert_Some Er Hx; [|by eapply Hk].
    destruct Hsh as (Eid & _ & _ & _ & ->). unfold ident in Eid. injection Eid as _ _ E3.
    eapply Hk; [done| |done]. congruence.
  - unfold leases. cbn. intros q j [[<- <-]|[Hne Hj]]%lookup_insert_Some; [done|]. rewrite Hq by done. by apply Hl.
  - intros q [->|Hq']%Hr'; [|by apply Hr]. apply (inv_fresh_id _ _ _ _ _ Hi). eauto.
  - eapply clients_evolve_trans; [done|]. split; [|done|cbn; lia|by right].
    cbn. intros q j [[<- <-]|[_ Hj]]%lookup_insert_Some; right; eauto using evolve_id_refl.
Qed.

Lemma st_cnt_res sq res hi hr hs w p i :
  st c rv w0 sq res hi hr hs w -> w_ids w !! p = Some i ->
  cid_last_renew i <= w_time w /\ cid_lease_reservations i = cnt p res.
Proof. intros H. apply (st_leases _ _ _ _ _ _ _ _ _ H). Qed.

Lemma reserve_st sq res hi hr hs w p i (Q : bool -> client_world -> Prop) :
  st c rv w0 sq res hi hr hs w -> w_ids w !! p = Some i -> cid_clientid i ∈ c ->
  (valid_lease (w_time w) i = false -> Q false w) ->
  (let i' := set_cid_lease_reservations (cid_lease_reservations i + 1) i in
   let w' := set_w_ids (<[p := i']> (w_ids w)) w in
   valid_lease (w_time w) i = true -> st c rv w0 sq (p :: res) hi hr hs w' -> Q true w') ->
  wp (reserve_lease p) Q w.
Proof.
  intros H Hp Ec HQ1 HQ2. unfold reserve_lease. wp_step. wp_step.
  destruct (st_cnt_res _ _ _ _ _ _ _ _ H Hp) as [Hl Hn].
  destruct (valid_lease (w_time w) i) eqn:Ev; [|wp_step; auto].
  wp_step. wp_step. apply HQ2; [done|]. eapply st_lease; [done|done|by repeat split|done| |done|..].
  - split; try done. congruence.
  - rewrite cnt_push_eq. cbn. lia.
  - apply cnt_push.
  - intros q [->|?]%elem_of_cons; auto.
Qed.

Lemma update_st sq res hi hr hs w p i (Q : unit -> client_world -> Prop) :
  st c rv w0 sq (p :: res) hi hr hs w -> w_ids w !! p = Some i ->
  cid_clientid i ∈ c ->
  (forall w', st c rv w0 sq res hi hr hs w' -> Q tt w') ->
  wp (update_lease p) Q w.
Proof.
  intros H Hp Ec HQ. unfold update_lease. wp_step. wp_step. wp_step. apply HQ.
  destruct (st_cnt_res _ _ _ _ _ _ _ _ H Hp) as [Hl Hn]. rewrite cnt_push_eq in Hn.
  pose proof (cnt_nonneg p res).
  set (i2 := if _ =? 0 then _ else _).
  assert (cid_confirmed i2 = cid_confirmed i) as Est by (unfold i2; by destruct (_ =? _)).
  assert (cid_last_renew i2 <= w_time w) as Hl2 by (unfold i2; destruct (_ =? _); cbn; lia).
  assert (same_shape i i2 /\ cid_refcount i2 = cid_refcount i) as [Hsh Erc]
    by (unfold i2; destruct (_ =? _); by repeat split).
  eapply (st_lease _ (p :: res)); [done|done|done|done| |done|..].
  - split; try (unfold i2; by destruct (_ =? _)). intros _. unfold valid_lease, lease_left.
    rewrite Est. destruct (decide (cid_confirmed i = EXPIRED_CLIENT_ID)); [done|].
    destruct (Z.eqb_spec (cid_lease_reservations i) 0); [lia|]. cbn [negb].
    destruct (Z.eqb_spec lease_lifetime 0) as [->|?]; [|done]. intros _.
    destruct (negb (cid_lease_reservations i2 =? 0)); [done|].
    by destruct (Z.ltb_spec (w_time w) (cid_last_renew i2 + 0)); [lia|].
  - unfold i2. destruct (_ =? _); cbn; lia.
  - intros q Hq. by rewrite cnt_push.
  - intros q Hq. right. by right.
Qed.
End prims.
End frame.
