(* ===== verification/ClientSafe.v ===== *)
(** * Client identities of NFSv4: every operation keeps the invariant

    Each operation of ClientOps.v has an outcome in a world with the
    invariant, and its outcome has the invariant again: no operation uses a
    client id, a record or a session after it was freed, or fails one of the
    assertions on the reference counts. *)
From S2P Require Import Prelude Status Owners ClientData ClientOps ClientInv ClientLife ClientFrame.

Section safe.
Context `{Env : ClientEnv} {Laws : OwnerLaws}.
Variables (c : list Z) (rv : bool) (w0 : client_world).

(** The record [r] keeps its pointers and roles. *)
Definition same_rec (r : positive) (w w' : client_world) : Prop :=
  forall x', w_recs w' !! r = Some x' -> exists x,
    w_recs w !! r = Some x /\ x' = set_cr_refcount (cr_refcount x') x.

Lemma same_rec_refl r w w' : w_recs w' = w_recs w -> same_rec r w w'.
Proof. intros E x. rewrite E. exists x. by rewrite set_cr_refcount_id. Qed.

Lemma same_rec_trans r w1 w2 w3 : same_rec r w1 w2 -> same_rec r w2 w3 -> same_rec r w1 w3.
Proof.
  intros H1 H2 x3 (x2 & (x1 & Hx1 & E1)%H1 & E2)%H2. exists x1. split; [done|].
  rewrite E2, E1. done.
Qed.

Lemma shrinks_same_rec r w w' : shrinks w w' -> same_rec r w w'.
Proof. intros H x'. apply (shrinks_recs _ _ H). Qed.

Lemma calm_same_rec r w w' : calm w w' -> same_rec r w w'.
Proof. intros H x'. apply (calm_recs _ _ H). Qed.

(** Benign updates of a client id that is in use. *)
Lemma upd_id_st sq res hi hr hs w p f i (Q : unit -> client_world -> Prop) :
  st c rv w0 sq res hi hr hs w -> w_ids w !! p = Some i ->
  same_shape i (f i) -> cid_refcount (f i) = cid_refcount i -> mild_id i (f i) ->
  (let w' := set_w_ids (<[p := f i]> (w_ids w)) w in st c rv w0 sq res hi hr hs w' -> Q tt w') ->
  wp (upd_id p f) Q w.
Proof.
  intros H Hp Hs Er Hm HQ. eapply wp_upd_id; [done|]. apply HQ.
  eapply st_mild; [exact H| |].
  - eapply mild_upd_id; try done. eauto.
  - eapply inv_upd_id; [apply H|done|done|done].
Qed.

(** ** SETCLIENTID *)

Lemma setclientid_case_st rq verifier r x sq res hi hr hs w
    (Q : option (Z * Z) -> client_world -> Prop) :
  st c rv w0 sq res hi hr hs w -> w_recs w !! r = Some x ->
  (forall o w', st c rv w0 sq res hi hr hs w' -> same_rec r w w' -> Q o w') ->
  wp (setclientid_case rq verifier (cr_confirmed_rec x)) Q w.
Proof.
  intros H Hr HQ. unfold setclientid_case.
  destruct (cr_confirmed_rec x) as [p|] eqn:Ec.
  2:{ apply wp_bind. eapply new_clientid_st; [done|]. intros n w1 H1 E1.
      apply wp_bind. eapply new_clientid_verifier_st; [done|]. intros v w2 H2 E2.
      apply wp_ret, HQ; [done|]. apply same_rec_refl. by rewrite E2. }
  destruct (conf_ptr hi hr hs w r x p) as (i & Hi & _ & _ & Hh & _); [apply H|done|done|].
  apply wp_bind, (inc_id_st c rv w0 sq res hi hr hs); [done|by exists i; auto|].
  intros i' Hi' w1 H1. apply wp_bind. eapply wp_get_id; [apply lookup_insert_eq|].
  destruct (negb _ && _).
  { apply wp_bind, (dec_id_st c rv w0 sq res hi hr hs); [done|]. intros w2 H2 Hs.
    apply wp_ret, HQ; [done|]. exact (shrinks_same_rec r _ _ Hs). }
  apply wp_bind.
  assert (forall n w2, st c rv w0 sq res (p :: hi) hr hs w2 -> w_recs w2 = w_recs w1 ->
    wp (v ← new_clientid_verifier; dec_client_id_ref p;; mret (Some (n, v))) Q w2) as Hrest.
  { intros n w2 H2 E2. apply wp_bind. eapply new_clientid_verifier_st; [done|].
    intros v w3 H3 E3. apply wp_bind, (dec_id_st c rv w0 sq res hi hr hs); [done|].
    intros w4 H4 Hs. apply wp_ret, HQ; [done|]. eapply same_rec_trans; [|by apply shrinks_same_rec].
    apply same_rec_refl. by rewrite E3, E2. }
  destruct (_ && _); [by apply wp_ret, Hrest|]. eapply new_clientid_st; [done|]. auto.
Qed.

Lemma remove_unconf_st r x sq res hi hr hs w (Q : unit -> client_world -> Prop) :
  st c rv w0 sq res hi hr hs w -> w_recs w !! r = Some x -> r ∈ hr ->
  (forall w' x', st c rv w0 sq res hi hr hs w' -> w_recs w' !! r = Some x' ->
     cr_unconfirmed_rec x' = None -> cr_pnfs_flags x' = cr_pnfs_flags x -> Q tt w') ->
  wp (remove_unconf r) Q w.
Proof.
  intros H Hr Hin HQ. unfold remove_unconf. wp_step.
  destruct (cr_unconfirmed_rec x) as [u|] eqn:Eu; [|wp_step; by eapply HQ].
  apply wp_bind. eapply remove_unconfirmed_st; [done|done|done|done|].
  intros w' x' Hw' Hx' E _. apply wp_ret. eapply HQ; [done|done|by rewrite E|by rewrite E].
Qed.

Lemma setclientid_locked_st rq verifier r_addr r x sq res hi hr hs w
    (Q : nfsstat4 * option (Z * Z) -> client_world -> Prop) :
  st c rv w0 sq res hi hr hs w -> w_recs w !! r = Some x -> r ∈ hr -> cr_pnfs_flags x = 0 ->
  (forall o w', st c rv w0 sq res hi hr hs w' -> Q o w') ->
  wp (setclientid_locked rq verifier r_addr r) Q w.
Proof.
  intros H Hr Hin Hf HQ. unfold setclientid_locked. wp_step. apply wp_bind.
  eapply setclientid_case_st; [done|done|]. intros o w1 H1 Hs1.
  destruct o as [[clientid v]|]; [|wp_step; by apply HQ].
  destruct (held_rec _ _ _ _ _ _ _ _ _ _ H1 Hin) as [x1 Hx1].
  apply wp_bind. eapply (remove_unconf_st r x1); [done|done|done|]. intros w2 x2 H2 Hx2 Hu2 Hf2.
  assert (cr_pnfs_flags x2 = 0) as Hf2'.
  { rewrite Hf2. destruct (Hs1 x1 Hx1) as (y & Hy & E). rewrite E. cbn. congruence. }
  apply wp_bind, create_client_id_ok; [eauto|]. intros c' w3 Hc _.
  assert (new_id r (mk_client_id c' 0 0 (w_time w2) UNCONFIRMED_CLIENT_ID (rq_credential rq)
    (Some r) [] [] [] None (0 =? 0) 0 zero_slot 0 0 0 0 0 (rq_client rq))) as Hn
    by (repeat split; try done; intros [? ?]; done).
  destruct (_ <=? _)%nat.
  { apply wp_ret, HQ. by eapply (st_created c rv w0 _ _ _ _ _ w2 w3 r x2). }
  destruct (created_upd _ _ _ _
    (fun i => set_cid_verifier v (set_cid_incoming_verifier verifier i)) Hc) as [Hc' Hp].
  apply wp_bind. eapply wp_upd_id; [exact Hp|].
  assert (exists x3, w_recs w3 !! r = Some x3 /\ cr_unconfirmed_rec x3 = None) as (x3 & Hx3 & Hu3).
  { destruct Hc as (y & Hy & _ & -> & _). rewrite lookup_insert_eq. eexists. split; [done|].
    cbn. congruence. }
  assert (st c rv w0 sq res hi hr hs (set_w_ids (<[w_next w2 := _]> (w_ids w3)) w3)) as H3
    by (by eapply (st_created c rv w0 _ _ _ _ _ w2 _ r x2)).
  apply wp_bind. eapply (insert_st c rv w0); [exact H3|apply lookup_insert_eq|done|exact Hx3|done| |..];
    [apply (ev_next _ _ _ _ (st_evolves _ _ _ _ _ _ _ _ _ H2))|..].
  - intros w4 H4 _. by apply wp_ret, HQ.
  - intros w4 H4. by apply wp_ret, HQ.
Qed.

Lemma nfs4_op_setclientid_st rq id_val verifier r_addr sq res hi hr hs w
    (Q : nfsstat4 * option (Z * Z) -> client_world -> Prop) :
  st c rv w0 sq res hi hr hs w ->
  (forall o w', st c rv w0 sq res hi hr hs w' -> Q o w') ->
  wp (nfs4_op_setclientid rq id_val verifier r_addr) Q w.
Proof.
  intros H HQ. unfold nfs4_op_setclientid. destruct (_ <? _); [by apply wp_ret, HQ|].
  apply wp_bind. eapply get_record_st; [done|by apply wp_ret, HQ|]. intros r x w1 H1 Hx Hf.
  apply wp_bind. eapply (setclientid_locked_st _ _ _ r x); [done|done|by left|done|].
  intros o w2 H2. apply wp_bind. eapply dec_rec_st; [done|]. intros w3 H3 _. by apply wp_ret, HQ.
Qed.

(** ** SETCLIENTID_CONFIRM *)

(** An unconfirmed client id of the record [r]. *)
Definition pending (w : client_world) (u r : positive) (m k : Z) : Prop :=
  exists i, w_ids w !! u = Some i /\ cid_confirmed i = UNCONFIRMED_CLIENT_ID /\
    cid_client_record i = Some r /\ cid_minorversion i = m /\ cid_clientid i = k.

Lemma pending_calm hi hr hs w w' u r m k :
  inv hi hr hs None w' -> u ∈ hi -> calm w w' -> pending w u r m k -> pending w' u r m k.
Proof.
  intros H Hu Hc (i & Hi & Est & Er & Em & Ek). destruct (inv_held _ _ _ _ _ H u Hu) as [i' Hi'].
  exists i'. split; [done|]. destruct (calm_ids _ _ Hc u i' Hi') as (j & Hj & E).
  rewrite E. cbn. by replace j with i by congruence.
Qed.

Lemma pending_ptr hi hr hs w u r m k :
  inv hi hr hs None w -> u ∈ hi -> pending w u r m k ->
  exists i x, w_ids w !! u = Some i /\ 0 < hashed w u i /\
    cid_confirmed i = UNCONFIRMED_CLIENT_ID /\ cid_client_record i = Some r /\
    w_recs w !! r = Some x /\ cr_unconfirmed_rec x = Some u.
Proof.
  intros H Hu (i & Hi & Est & Er & Em & Ek). destruct (held_usable _ _ _ _ _ _ H Hu) as (i' & Hi' & Hus).
  rewrite Hi in Hi'. injection Hi' as <-. destruct Hus as [?|Hh]; [congruence|].
  destruct (hashed_in _ _ _ _ _ _ _ H Hi Hh) as (_ & _ & Ht). rewrite Est in Ht.
  destruct (table_entry _ _ _ _ unconfirmed_table _ _ H Ht) as (i' & Hi' & _ & _ & _ & r' & x & Er' & Hx & Hp).
  exists i, x. assert (r' = r) as -> by congruence. done.
Qed.

(** What a lookup finds: an entry of the table [ht] that is not stale. *)
Definition found (ht : cid_table) (clientid : Z) (w : client_world) (p : positive) : Prop :=
  table_of ht w !! clientid = Some p /\
  exists i, w_ids w !! p = Some i /\ cid_confirmed i <> STALE_CLIENT_ID.

Lemma found_record hi hr hs w ht clientid p :
  inv hi hr hs None w -> found ht clientid w p ->
  exists i r x, w_ids w !! p = Some i /\ cid_clientid i = clientid /\
    cid_client_record i = Some r /\ w_recs w !! r = Some x /\
    match ht with
    | confirmed_table => cid_confirmed i = CONFIRMED_CLIENT_ID /\ cr_confirmed_rec x = Some p
    | unconfirmed_table => cid_confirmed i = UNCONFIRMED_CLIENT_ID /\ cr_unconfirmed_rec x = Some p
    end.
Proof.
  intros H (Ht & j & Hj & Hst).
  destruct (table_entry _ _ _ _ _ _ _ H Ht) as (i & Hi & Ek & _ & Hm).
  rewrite Hi in Hj. injection Hj as <-. destruct ht.
  - assert (cid_confirmed i = CONFIRMED_CLIENT_ID) as Ec by (by destruct Hm).
    pose proof (ids_view w p i Hi) as Hv. unfold ident in Hv. rewrite Ec in Hv.
    destruct (tab_confirmed _ _ _ _ (inv_tab _ _ _ _ _ H) _ _ _ Hv) as (_ & r & a & Er & Hr).
    rewrite lookup_fmap, fmap_Some in Hr. destruct Hr as (x & Hx & [= E _]). exists i, r, x. done.
  - destruct Hm as (Est & r & x & Er & Hx & Hp). exists i, r, x. done.
Qed.

(** The client ids of the number [clientid] have a minor version with [P]. *)
Definition named_minor (P : Z -> Prop) (clientid : Z) (w : client_world) : Prop :=
  forall ht p i, table_of ht w !! clientid = Some p -> w_ids w !! p = Some i ->
    P (cid_minorversion i).

Lemma named_minor_shrinks P clientid w w' :
  shrinks w w' -> named_minor P clientid w -> named_minor P clientid w'.
Proof.
  intros Hs HP ht p i Ht Hi. destruct (shrinks_ids _ _ Hs p i Hi) as (j & Hj & ->). cbn.
  eapply (HP ht); [|done]. rewrite (shrinks_rest _ _ Hs) in Ht. by destruct ht.
Qed.

(** What [find_client_id] found in [w] and left in [w']. *)
Definition found_named (ht : cid_table) (clientid : Z) (w w' : client_world) (p : positive) : Prop :=
  found ht clientid w' p /\
  forall P i, named_minor P clientid w -> w_ids w' !! p = Some i -> P (cid_minorversion i).

Lemma find_client_id_st clientid sq res hi hr hs w
    (Q : clientid_status_t * option positive * option positive -> client_world -> Prop) :
  st c rv w0 sq res hi hr hs w ->
  (forall rc w', st c rv w0 sq res hi hr hs w' -> Q (rc, None, None) w') ->
  (forall rc u w', st c rv w0 sq res (u :: hi) hr hs w' ->
     found_named unconfirmed_table clientid w w' u -> Q (rc, Some u, None) w') ->
  (forall rc p w', st c rv w0 sq res (p :: hi) hr hs w' ->
     found_named confirmed_table clientid w w' p -> Q (rc, None, Some p) w') ->
  wp (find_client_id clientid) Q w.
Proof.
  intros H HQ1 HQ2 HQ3. unfold find_client_id. apply wp_bind.
  assert (forall ht w1 p i, w_ids w1 !! p = Some i -> table_of ht w1 !! clientid = Some p ->
    cid_confirmed i <> STALE_CLIENT_ID -> shrinks w w1 ->
    found_named ht clientid w
      (set_w_ids (<[p := set_cid_refcount (cid_refcount i + 1) i]> (w_ids w1)) w1) p) as Hf.
  { intros ht w1 p i Hi Ht Hst Hs. split.
    - split; [by destruct ht|]. eexists. split; [apply lookup_insert_eq|done].
    - intros P j HP. cbn. rewrite lookup_insert_eq. intros [= <-].
      exact (named_minor_shrinks _ _ _ _ Hs HP ht p i Ht Hi). }
  eapply (lookup_st c rv w0 unconfirmed_table clientid sq res hi hr hs); [done|..].
  - intros rc w1 H1 Hrc Hs1. rewrite decide_False by done. apply wp_bind.
    eapply (lookup_st c rv w0 confirmed_table clientid sq res hi hr hs); [done|..].
    + intros rc' w2 H2 _ _. by apply wp_ret, HQ1.
    + intros p i Hi Ht _ Hst w2 H2. apply wp_ret, HQ3; [done|]. by apply Hf.
  - intros p i Hi Ht _ Hst w2 H2. rewrite decide_True by done. apply wp_ret, HQ2; [done|].
    apply Hf; [done|done|done|apply shrinks_refl].
Qed.

Lemma expire_mark_rec p stale i w :
  w_recs (expire_mark p stale i w) = match cid_client_record i with
    | Some r => alter (detach_record p) r (w_recs w)
    | None => w_recs w
    end.
Proof. unfold expire_mark. destruct stale; [done|]. by destruct (table_for (cid_confirmed i)). Qed.

Lemma expire_mark_ids p (stale : bool) i w :
  w_ids (expire_mark p stale i w) =
    <[p := set_cid_confirmed (if stale then STALE_CLIENT_ID else EXPIRED_CLIENT_ID)
             (set_cid_client_record None i)]> (w_ids w).
Proof. unfold expire_mark. destruct stale; [done|]. by destruct (table_for (cid_confirmed i)). Qed.

Lemma expire_old_conf_st r u m k clientid sq res hi hr hs w
    (Q : option positive -> client_world -> Prop) :
  st c rv w0 sq res hi hr hs w -> r ∈ hr -> u ∈ hi -> pending w u r m k ->
  (forall p x i w', st c rv w0 sq res (p :: hi) hr hs w' -> pending w' u r m k ->
     w_recs w' !! r = Some x -> cr_confirmed_rec x = Some p ->
     w_ids w' !! p = Some i -> cid_clientid i = clientid -> same_sessions w w' -> Q (Some p) w') ->
  (forall x w', st c rv w0 sq res hi hr hs w' -> pending w' u r m k ->
     w_recs w' !! r = Some x -> cr_confirmed_rec x = None -> Q None w') ->
  wp (expire_old_conf r clientid) Q w.
Proof.
  intros H Hr Hu Hpend HQ1 HQ2. destruct (held_rec _ _ _ _ _ _ _ _ _ _ H Hr) as [x Hx].
  unfold expire_old_conf. wp_step.
  destruct (cr_confirmed_rec x) as [p|] eqn:Ec; [|wp_step; by eapply HQ2].
  destruct (conf_ptr hi hr hs w r x p) as (i & Hi & Est & Er & Hh & _); [apply H|done|done|].
  assert (u <> p) as Hne by (intros ->; destruct Hpend as (j & Hj & Ej & _); congruence).
  apply wp_bind, (inc_id_st c rv w0 sq res hi hr hs); [done|by exists i; auto|].
  intros i' Hi' w1 H1. rewrite Hi in Hi'. injection Hi' as <-.
  assert (pending w1 u r m k) as Hp1.
  { destruct Hpend as (j & Hj & ?). exists j. split; [|done]. cbn. by rewrite lookup_insert_ne. }
  apply wp_bind. eapply wp_get_id; [apply lookup_insert_eq|].
  destruct (Z.eqb_spec (cid_clientid (set_cid_refcount (cid_refcount i + 1) i)) clientid);
    [by eapply wp_ret, HQ1; try done; apply lookup_insert_eq|].
  set (j := set_cid_refcount (cid_refcount i + 1) i) in *.
  apply wp_bind, (expire_st c rv w0 false sq res (p :: hi) hr hs w1 p j); try done;
    [by left|apply lookup_insert_eq|cbn; congruence|].
  intros w2 _ H2 Hc2.
  assert (exists x2, w_recs w2 !! r = Some x2 /\ cr_confirmed_rec x2 = None) as (x2 & Hx2 & Ec2).
  { destruct (held_rec _ _ _ _ _ _ _ _ _ _ H2 Hr) as [x2 Hx2]. exists x2. split; [done|].
    destruct (calm_recs _ _ Hc2 r x2 Hx2) as (y & Hy & E). rewrite E. cbn.
    rewrite expire_mark_rec in Hy. cbn in Hy. rewrite Er, (alter_some _ _ _ x) in Hy by done.
    rewrite lookup_insert_eq in Hy. injection Hy as <-. unfold detach_record.
    destruct (decide (cr_confirmed_rec x = Some p)); [|done]. by destruct (decide _). }
  assert (pending w2 u r m k) as Hp2.
  { eapply (pending_calm (p :: hi) hr hs); [apply H2|by right|exact Hc2|].
    destruct Hp1 as (y & Hy & ?). exists y. split; [|done].
    by rewrite expire_mark_ids, lookup_insert_ne. }
  apply wp_bind, (dec_id_st c rv w0 sq res hi hr hs); [done|]. intros w3 H3 Hs3.
  destruct (held_rec _ _ _ _ _ _ _ _ _ _ H3 Hr) as [x3 Hx3].
  apply wp_ret. eapply HQ2; [done| |done|].
  - eapply (pending_calm hi hr hs); [apply H3|done|by apply shrinks_calm|done].
  - destruct (shrinks_recs _ _ Hs3 r x3 Hx3) as (y & Hy & E). rewrite E. cbn. congruence.
Qed.

Lemma test_cb_chan_st cb_up p sq res hi hr hs w (Q : unit -> client_world -> Prop) :
  st c rv w0 sq res hi hr hs w -> p ∈ hi ->
  (forall w', st c rv w0 sq res hi hr hs w' -> Q tt w') ->
  wp (test_cb_chan cb_up p) Q w.
Proof.
  intros H Hp HQ. destruct (inv_held _ _ _ _ _ (st_inv _ _ _ _ _ _ _ _ _ H) p Hp) as [i Hi].
  eapply upd_id_st; [done|done|by repeat split|done|by split; auto|]. intros w' H'. by apply HQ.
Qed.

Lemma confirm_unconf_st rq cb_up clientid r u sq res hi hr hs w
    (Q : nfsstat4 -> client_world -> Prop) :
  st c rv w0 sq res (u :: hi) hr hs w -> r ∈ hr -> pending w u r 0 clientid ->
  (forall status w', st c rv w0 sq res hi hr hs w' -> Q status w') ->
  wp (confirm_unconf rq cb_up clientid r u) Q w.
Proof.
  intros H Hr Hpend HQ. unfold confirm_unconf. apply wp_bind.
  eapply (expire_old_conf_st r u 0 clientid); [done|done|by left|done|..].
  - intros p x k w1 H1 Hp1 Hx Ec _ _ _. pose proof (st_inv _ _ _ _ _ _ _ _ _ H1) as I1.
    destruct (pending_ptr _ _ _ _ _ _ _ _ I1 ltac:(by right; left) Hp1)
      as (i & x' & Hi & _ & _ & _ & Hx' & Eu).
    rewrite Hx in Hx'. injection Hx' as <-.
    destruct (conf_ptr _ _ _ _ _ _ _ I1 Hx Ec) as (j & Hj & _ & Erj & _ & _).
    assert (cb_session_list j = None) as Ecb.
    { destruct Hp1 as (i' & Hi' & _ & Eri & Em & _).
      pose proof (st_kinds _ _ _ _ _ _ _ _ _ H1 _ _ _ _ Hi' Eri Hx) as K1.
      pose proof (st_kinds _ _ _ _ _ _ _ _ _ H1 _ _ _ _ Hj Erj Hx) as K2.
      pose proof (inv_minor _ _ _ _ _ I1 p j Hj) as Hm.
      destruct (cb_session_list j) as [l|]; [|done].
      assert (0 < cid_minorversion j) by (apply Hm; eauto). lia. }
    wp_step. apply wp_bind. eapply wp_get_id; [exact Hj|]. rewrite Ecb. apply wp_bind, wp_ret.
    apply wp_bind. eapply upd_id_st; [exact H1|done|by repeat split|done|by split; auto|].
    intros w2 H2.
    apply wp_bind, (remove_unconfirmed_st c rv w0 sq res (p :: u :: hi) hr hs w2 r x u); [done..|].
    intros w3 x3 H3 _ _ _.
    apply wp_bind.
    assert (st c rv w0 sq res (u :: p :: hi) hr hs w3) as H3'.
    { eapply st_mild; [done|apply mild_refl|]. eapply inv_perm; [|done|done|apply H3]; apply Permutation_swap. }
    eapply dec_id_st; [exact H3'|]. intros w4 H4 _.
    apply wp_bind, (test_cb_chan_st cb_up p sq res (p :: hi) hr hs); [done|by left|]. intros w5 H5.
    apply wp_bind. eapply dec_id_st; [done|]. intros w6 H6 _. by apply wp_ret, HQ.
  - intros x w1 H1 Hp1 Hx Ec. pose proof (st_inv _ _ _ _ _ _ _ _ _ H1) as I1.
    destruct (pending_ptr _ _ _ _ _ _ _ _ I1 ltac:(by left) Hp1)
      as (i & x' & Hi & Hh & Est & Er & _).
    apply wp_bind, (confirm_st c rv w0 sq res (u :: hi) hr hs w1 u i r x); [done..|]. intros rc w2 H2 _.
    destruct (decide _).
    + apply wp_bind, (test_cb_chan_st cb_up u sq res (u :: hi) hr hs); [done|by left|]. intros w3 H3.
      apply wp_bind. eapply dec_id_st; [done|]. intros w4 H4 _. by apply wp_ret, HQ.
    + apply wp_bind. eapply dec_id_st; [done|]. intros w4 H4 _. by apply wp_ret, HQ.
Qed.

Lemma setclientid_confirm_locked_st rq cb_up clientid verifier r unconf conf sq res hi hr hs w p
    (Q : nfsstat4 -> client_world -> Prop) :
  st c rv w0 sq res (p :: hi) hr hs w -> r ∈ hr ->
  (unconf = Some p /\ pending w p r 0 clientid) \/ (unconf = None /\ conf = Some p) ->
  (forall status w', st c rv w0 sq res hi hr hs w' -> Q status w') ->
  wp (setclientid_confirm_locked rq cb_up clientid verifier r unconf conf) Q w.
Proof.
  intros H Hr Hcase HQ. unfold setclientid_confirm_locked.
  destruct (inv_held _ _ _ _ _ (st_inv _ _ _ _ _ _ _ _ _ H) p ltac:(by left)) as [i Hi].
  assert (forall status, wp (dec_client_id_ref p;; mret status) Q w) as Hend.
  { intros status. apply wp_bind. eapply dec_id_st; [done|]. intros w' H' _. by apply wp_ret, HQ. }
  destruct Hcase as [[-> Hpend]|[-> ->]].
  - wp_step. destruct (negb _); [apply Hend|]. destruct (decide _); [apply Hend|].
    destruct (negb _); [apply Hend|]. by eapply confirm_unconf_st.
  - wp_step. apply Hend.
Qed.

Lemma nfs4_op_setclientid_confirm_st rq cb_up clientid verifier sq res hi hr hs w
    (Q : nfsstat4 -> client_world -> Prop) :
  st c rv w0 sq res hi hr hs w ->
  (rq_minorversion rq <= 0 -> named_minor (fun m => m = 0) clientid w) ->
  (forall status w', st c rv w0 sq res hi hr hs w' -> Q status w') ->
  wp (nfs4_op_setclientid_confirm rq cb_up clientid verifier) Q w.
Proof.
  intros H Hn HQ. unfold nfs4_op_setclientid_confirm.
  destruct (Z.ltb_spec 0 (rq_minorversion rq)) as [|Hmv]; [by apply wp_ret, HQ|]. specialize (Hn Hmv).
  apply wp_bind.
  assert (forall ht w1 p unconf conf, st c rv w0 sq res (p :: hi) hr hs w1 ->
    found_named ht clientid w w1 p ->
    (ht = unconfirmed_table /\ unconf = Some p /\ conf = None) \/
    (ht = confirmed_table /\ unconf = None /\ conf = Some p) ->
    wp (r ← record_of p; inc_client_record_ref r;;
        status ← setclientid_confirm_locked rq cb_up clientid verifier r unconf conf;
        dec_client_record_ref r;; mret status) Q w1) as Hrest.
  { intros ht w1 p unconf conf H1 [Hf Hm] Hcase.
    destruct (found_record _ _ _ _ _ _ _ (st_inv _ _ _ _ _ _ _ _ _ H1) Hf)
      as (i & r & x & Hi & Ek & Er & Hx & Hst).
    apply wp_bind. unfold record_of. wp_step. rewrite Er. wp_step.
    apply wp_bind. eapply inc_rec_st; [done|eauto|]. intros x' Hx' w2 H2.
    apply wp_bind. eapply (setclientid_confirm_locked_st _ _ _ _ r _ _ _ _ hi _ _ _ p);
      [done|by left| |].
    - destruct Hcase as [(-> & -> & ->)|(-> & -> & ->)]; [left|by right].
      split; [done|]. exists i. repeat split; try done; [apply Hst|by apply (Hm _ _ Hn)].
    - intros status w3 H3. apply wp_bind. eapply dec_rec_st; [done|]. intros w4 H4 _.
      by apply wp_ret, HQ. }
  eapply find_client_id_st; [done|..].
  - intros rc w1 H1. by apply wp_ret, HQ.
  - intros rc u w1 H1 Hf. eapply Hrest; [done|done|by left].
  - intros rc p w1 H1 Hf. eapply Hrest; [done|done|by right].
Qed.

(** ** EXCHANGE_ID *)

(** A reference that is forgotten keeps its object alive. *)
Lemma st_forget p sq res hi hr hs w :
  st c rv w0 sq res (p :: hi) hr hs w ->
  st c rv w0 sq res hi hr hs w.
Proof.
  intros H. eapply st_mild; [done|apply mild_refl|].
  destruct (st_inv _ _ _ _ _ _ _ _ _ H) as [? ? Hrefs Hheld Hlive ? ? ? ? ? ? ? ? ? ? ?].
  split; try done.
  - intros q j Hj. specialize (Hrefs q j Hj). rewrite cnt_cons in Hrefs.
    unfold b2z in Hrefs. destruct (bool_decide _); lia.
  - intros q Hq. apply Hheld. by right.
  - intros q j Hj. destruct (Hlive q j Hj) as [?|[?|(? & ? & ? & Hq)]]; auto.
    right. right. repeat split; try done. intros ?. apply Hq. by right.
Qed.

Lemma exchange_pnfs_flags_nonzero f : exchange_pnfs_flags f <> 0.
Proof.
  unfold exchange_pnfs_flags.
  assert (forall g, (if g =? 0 then Z.lor g EXCHGID4_FLAG_USE_NON_PNFS else g) <> 0) as Hg.
  { intros g. destruct (Z.eqb_spec g 0) as [->|?]; done. }
  destruct (_ =? 0); apply Hg.
Qed.

Lemma exchange_conf_case_st rq co_verifier update r x sq res hi hr hs w
    (Q : exchange_case -> client_world -> Prop) :
  st c rv w0 sq res hi hr hs w -> w_recs w !! r = Some x -> r ∈ hr ->
  (forall status w', st c rv w0 sq res hi hr hs w' -> Q (exchange_fails status) w') ->
  (forall p w', st c rv w0 sq res hi hr hs w' -> is_Some (w_ids w' !! p) ->
     Q (exchange_again p) w') ->
  (forall x' w', st c rv w0 sq res hi hr hs w' -> w_recs w' !! r = Some x' ->
     cr_pnfs_flags x' = cr_pnfs_flags x -> Q exchange_new w') ->
  wp (exchange_conf_case rq co_verifier update (cr_confirmed_rec x)) Q w.
Proof.
  intros H Hx Hr HQ1 HQ2 HQ3. unfold exchange_conf_case.
  destruct (cr_confirmed_rec x) as [p|] eqn:Ec; [|wp_step; destruct update; [auto|eauto]].
  destruct (conf_ptr hi hr hs w r x p) as (i & Hi & Est & Er & Hh & _); [apply H|done|done|].
  apply wp_bind, (inc_id_st c rv w0 sq res hi hr hs); [done|by exists i; auto|].
  intros i' Hi' w1 H1. rewrite Hi in Hi'. injection Hi' as <-.
  set (j := set_cid_refcount (cid_refcount i + 1) i) in *.
  assert (w_ids w1 !! p = Some j) as Hj by apply lookup_insert_eq.
  wp_step. wp_step.
  assert (forall status, wp (dec_client_id_ref p;; mret (exchange_fails status)) Q w1) as Hfail.
  { intros status. apply wp_bind. eapply dec_id_st; [done|]. intros w2 H2 _.
    by apply wp_ret, HQ1. }
  destruct (negb update); [|apply Hfail].
  destruct (negb (nfs_compare_clientcred _ _)).
  - destruct (_ || _); [|apply Hfail].
    apply wp_bind, (expire_st c rv w0 false sq res (p :: hi) hr hs w1 p j); try done;
      [by left|cbn; congruence|].
    intros w2 _ H2 Hc2. destruct (held_rec _ _ _ _ _ _ _ _ _ _ H2 Hr) as [x2 Hx2].
    apply wp_bind. eapply dec_id_st; [done|]. intros w3 H3 Hs3.
    destruct (held_rec _ _ _ _ _ _ _ _ _ _ H3 Hr) as [x3 Hx3]. apply wp_ret.
    eapply HQ3; [done|done|].
    destruct (shrinks_recs _ _ Hs3 r x3 Hx3) as (y & Hy & ->). cbn.
    destruct (calm_recs _ _ Hc2 r y Hy) as (y' & Hy' & ->). cbn.
    destruct (mild_recs _ _ (expire_mark_mild p false j w1 Hj ltac:(cbn; congruence)) r y' Hy')
      as [Hf|(z & Hz & ->)].
    { assert (r < w_next w)%positive by (eapply (inv_fresh_rec _ _ _ _ _ (st_inv _ _ _ _ _ _ _ _ _ H)); eauto).
      cbn in Hf. lia. }
    change (w_recs w1) with (w_recs w) in Hz. congruence.
  - apply st_forget in H1.
    destruct (_ =? _); [wp_step; apply HQ2; [done|eauto]|wp_step; by eapply HQ3].
Qed.

Lemma exchange_reply_st r p flags sq res hi hr hs w
    (Q : nfsstat4 * option exchange_res -> client_world -> Prop) :
  st c rv w0 sq res hi hr hs w -> r ∈ hr -> is_Some (w_ids w !! p) ->
  (forall o, Q o w) -> wp (exchange_reply r p flags) Q w.
Proof.
  intros H Hr [i Hi] HQ. destruct (held_rec _ _ _ _ _ _ _ _ _ _ H Hr) as [x Hx].
  unfold exchange_reply. wp_step. wp_step. wp_step. apply HQ.
Qed.

Lemma exchange_id_locked_st rq co_verifier update hostname r x sq res hi hr hs w
    (Q : nfsstat4 * option exchange_res -> client_world -> Prop) :
  st c rv w0 sq res hi hr hs w -> w_recs w !! r = Some x -> r ∈ hr -> cr_pnfs_flags x <> 0 ->
  0 < rq_minorversion rq ->
  (forall o w', st c rv w0 sq res hi hr hs w' -> Q o w') ->
  wp (exchange_id_locked rq co_verifier update hostname r) Q w.
Proof.
  intros H Hx Hr Hf Hm HQ. unfold exchange_id_locked. wp_step. apply wp_bind.
  eapply exchange_conf_case_st; [done|done|done|..].
  { intros status w1 H1. by apply wp_ret, HQ. }
  { intros p w1 H1 Hp. eapply exchange_reply_st; [done|done|done|auto]. }
  intros x1 w1 H1 Hx1 Hf1.
  apply wp_bind. eapply (remove_unconf_st r x1); [done|done|done|]. intros w2 x2 H2 Hx2 Hu2 Hf2.
  apply wp_bind, create_client_id_ok; [eauto|]. intros c' w3 Hc _.
  destruct (created_upd _ _ _ _ (fun i => set_cid_create_session_sequence 1
    (set_cb_session_list (Some []) (set_cid_incoming_verifier co_verifier i))) Hc) as [Hc' Hp].
  apply wp_bind. eapply wp_upd_id; [exact Hp|]. cbv beta in Hc' |- *.
  set (i3 := set_cid_create_session_sequence 1 _) in *.
  assert (new_id r i3) as Hn by (repeat split; try done; eauto).
  assert (exists x3, w_recs w3 !! r = Some x3 /\ cr_unconfirmed_rec x3 = None) as (x3 & Hx3 & Hu3).
  { destruct Hc as (y & Hy & _ & -> & _). rewrite lookup_insert_eq. eexists. split; [done|].
    cbn. congruence. }
  set (w4 := set_w_ids _ w3) in *.
  assert (st c rv w0 sq res hi hr hs w4) as H4.
  { eapply (st_created c rv w0 _ _ _ _ _ w2 _ r x2); try done. cbn. split; [congruence|lia]. }
  destruct (negb hostname).
  - apply wp_bind. eapply (free_client_id_ok dec_client_id_ref hi hr hs None);
      [apply H4|apply lookup_insert_eq|done|].
    intros w5 H5 Hs. apply wp_ret, HQ. eapply st_mild; [done|by apply shrinks_mild|done].
  - apply wp_bind. eapply (insert_st c rv w0); [exact H4|apply lookup_insert_eq|done|exact Hx3|done| |..];
    [apply (ev_next _ _ _ _ (st_evolves _ _ _ _ _ _ _ _ _ H2))|..].
    + intros w5 H5 Hp5. rewrite decide_True by done. eapply exchange_reply_st; [done|done|done|auto].
    + intros w5 H5. by apply wp_ret, HQ.
Qed.

Lemma nfs4_op_exchange_id_st rq co_ownerid co_verifier eia_flags server_addr hostname
    sq res hi hr hs w (Q : nfsstat4 * option exchange_res -> client_world -> Prop) :
  st c rv w0 sq res hi hr hs w -> 0 <= rq_minorversion rq ->
  (forall o w', st c rv w0 sq res hi hr hs w' -> Q o w') ->
  wp (nfs4_op_exchange_id rq co_ownerid co_verifier eia_flags server_addr hostname) Q w.
Proof.
  intros H Hm HQ. unfold nfs4_op_exchange_id.
  destruct (Z.eqb_spec (rq_minorversion rq) 0); [by apply wp_ret, HQ|].
  destruct (negb _); [by apply wp_ret, HQ|].
  apply wp_bind. eapply get_record_st; [done|by apply wp_ret, HQ|]. intros r x w1 H1 Hx Hf.
  apply wp_bind. eapply (exchange_id_locked_st _ _ _ _ r x); [done|done|by left| |lia|].
  { rewrite Hf. apply exchange_pnfs_flags_nonzero. }
  intros o w2 H2. apply wp_bind. eapply dec_rec_st; [done|]. intros w3 H3 _. by apply wp_ret, HQ.
Qed.
End safe.
