(* ===== verification/ClientSessions.v ===== *)
(** * Client identities of NFSv4: sessions and the end of client ids

    CREATE_SESSION, DESTROY_SESSION and DESTROY_CLIENTID keep the invariant.
    CREATE_SESSION does so for the client ids of v4.1 clients; a session of a
    v4.0 client id is a separate result. *)
From S2P Require Import Prelude Status Owners ClientData ClientOps ClientInv ClientLife SessionKeep ClientFrame ClientSafe.

Section sessions.
Context `{Env : ClientEnv} {Laws : OwnerLaws}.

(** The world with a new session of the client id [p]. *)
Definition session_world (p : positive) (i : nfs_client_id_t) (l : list positive)
    (x : nfs41_session_t) (w : client_world) : client_world :=
  set_w_sessions (<[w_next w := x]> (w_sessions w))
    (set_global_sequence (global_sequence w + 1)
       (set_w_ids (<[p := set_cb_session_list (Some (w_next w :: l))
                            (set_cid_refcount (cid_refcount i + 1) i)]> (w_ids w))
          (set_w_next (Pos.succ (w_next w)) w))).

Lemma inv_new_session hi hr hs w p i l x :
  inv hi hr hs None w -> p ∈ hi -> w_ids w !! p = Some i -> cb_session_list i = Some l ->
  clientid_record x = p -> session_refcount x = 2 ->
  snd (session_id x) = global_sequence w + 1 ->
  inv hi hr (w_next w :: w_next w :: hs) None (session_world p i l x w).
Proof.
  intros H Hin Hp Hl Ep Erc Esq. set (s := w_next w).
  pose proof (fresh_session _ _ _ _ _ H) as Hf. fold s in Hf.
  pose proof (held_usable _ _ _ _ _ _ H Hin) as (i' & Hi' & Hu). rewrite Hp in Hi'. injection Hi' as <-.
  destruct H as [Htab Hrecs Hrefs Hheld Hlive Hown Hmin Hlist Hses Hsh Htabs Hids Hseq Hf1 Hf2 Hf3].
  unfold session_world. fold s.
  set (j := set_cb_session_list (Some (s :: l)) (set_cid_refcount (cid_refcount i + 1) i)).
  assert (s ∉ l) as Hsl.
  { intros Hs. destruct (Hlist p i Hp) as [_ Hm]. unfold session_list in Hm. rewrite Hl in Hm.
    destruct (Hm s Hs) as (y & Hy & _). congruence. }
  assert (s ∉ hs) as Hshs by (intros [? ?]%Hsh; congruence).
  assert (ht_session_id w !! session_id x <> Some s) as Hns.
  { intros (y & Hy & _)%Htabs. congruence. }
  split; cbn; try done.
  - by rewrite (same_shape_ident _ p i j).
  - by eapply recs_ok_ids.
  - intros q k [[<- <-]|[? Hk]]%lookup_insert_Some; [|by apply Hrefs].
    specialize (Hrefs p i Hp). unfold id_refs in *. change (hashed _ p j) with (hashed w p i).
    unfold session_list in *. rewrite Hl in Hrefs. cbn in *. lia.
  - intros q Hq. destruct (decide (q = p)) as [->|?]; [by rewrite lookup_insert_eq|].
    rewrite lookup_insert_ne by done. auto.
  - intros q k [[<- <-]|[? Hk]]%lookup_insert_Some; [|by apply Hlive].
    destruct Hu as [?|?]; [by left|by right; left].
  - intros q k [[<- <-]|[? Hk]]%lookup_insert_Some; [|by eapply Hown].
    by destruct (Hown p i Hp).
  - intros q k [[<- <-]|[? Hk]]%lookup_insert_Some; [|by eapply Hmin]. cbn.
    rewrite (Hmin p i Hp), Hl. split; eauto.
  - intros q k [[<- <-]|[Hne Hk]]%lookup_insert_Some.
    + destruct (Hlist p i Hp) as [Hnd Hm]. unfold session_list in *. rewrite Hl in Hnd, Hm. cbn in *.
      split; [by apply NoDup_cons|]. intros s' [->|Hs']%elem_of_cons; [exists x; by rewrite lookup_insert_eq|].
      destruct (Hm s' Hs') as (y & ? & ?). exists y. rewrite lookup_insert_ne; [done|]. congruence.
    + destruct (Hlist q k Hk) as [Hnd Hm]. split; [done|]. intros s' Hs'.
      destruct (Hm s' Hs') as (y & ? & ?). exists y. rewrite lookup_insert_ne; [done|]. congruence.
  - intros s' y [[<- <-]|[Hne Hy]]%lookup_insert_Some _.
    + rewrite Ep, Erc. split; [exists j; rewrite lookup_insert_eq; split; [done|left]|].
      rewrite bool_decide_false by done. rewrite !cnt_push_eq, (cnt_zero s hs) by done. done.
    + destruct (Hses s' y Hy) as ((k & Hk & Hin') & H1 & H2); [done|].
      rewrite !cnt_push by done. split; [|done].
      destruct (decide (clientid_record y = p)) as [E|?]; [|exists k; by rewrite lookup_insert_ne].
      exists j. rewrite E, lookup_insert_eq. split; [done|]. rewrite E in Hk.
      assert (k = i) as -> by congruence. unfold session_list in *. rewrite Hl in Hin'. by right.
  - intros s' [->|[->|Hs']%elem_of_cons]%elem_of_cons; [by rewrite lookup_insert_eq..|].
    rewrite lookup_insert_ne; [auto|]. congruence.
  - intros sid s' (y & Hy & Ey)%Htabs. exists y. rewrite lookup_insert_ne; [done|]. congruence.
  - assert (forall s' y, w_sessions w !! s' = Some y -> session_id y <> session_id x) as Hdiff.
    { intros s' y Hy E. apply Hseq in Hy. rewrite E in Hy. lia. }
    intros s1 s2 y1 y2 [[<- <-]|[? H1]]%lookup_insert_Some [[<- <-]|[? H2]]%lookup_insert_Some E;
      [done|by apply Hdiff in H2|by apply Hdiff in H1|by eapply Hids].
  - intros s' y [[<- <-]|[_ Hy]]%lookup_insert_Some; [lia|]. apply Hseq in Hy. lia.
  - intros q Hq. assert (is_Some (w_ids w !! q)) as Hq'%Hf1; [|lia].
    destruct (decide (q = p)) as [->|?]; [eauto|]. by rewrite lookup_insert_ne in Hq.
  - intros q Hq%Hf2. lia.
  - intros q Hq. destruct (decide (q = s)) as [->|?]; [lia|].
    rewrite lookup_insert_ne in Hq by done. apply Hf3 in Hq. lia.
Qed.

Lemma inv_hash_session hi hr hs w s x :
  inv hi hr (s :: hs) None w -> w_sessions w !! s = Some x -> ht_session_id w !! session_id x = None ->
  inv hi hr hs None (set_ht_session_id (<[session_id x := s]> (ht_session_id w)) w).
Proof.
  intros H Hs Hn.
  destruct H as [Htab Hrecs Hrefs Hheld Hlive Hown Hmin Hlist Hses Hsh Htabs Hids Hseq Hf1 Hf2 Hf3].
  split; try done; cbn.
  - intros s' y Hy Hz. destruct (Hses s' y Hy Hz) as (? & ? & Hc). split; [done|]. split; [done|].
    rewrite cnt_cons in Hc. destruct (decide (s = s')) as [<-|Hne].
    + rewrite (bool_decide_true (s = s)) in Hc by done. assert (y = x) as -> by congruence.
      rewrite lookup_insert_eq, (bool_decide_true (Some s = Some s)) by done.
      rewrite Hn, (bool_decide_false (None = Some s)) in Hc by done. cbn in *. lia.
    + rewrite (bool_decide_false (s = s')) in Hc by done. cbn in Hc.
      destruct (decide (session_id y = session_id x)) as [E|?]; [|by rewrite lookup_insert_ne].
      by destruct (Hne (Hids _ _ _ _ Hs Hy (eq_sym E))).
  - intros s' Hs'. apply Hsh. by right.
  - intros sid s' [[<- <-]|[_ Ht]]%lookup_insert_Some; eauto.
Qed.

Variables (c : list Z) (rv : bool) (w0 : client_world).

Lemma st_new_session sq res hi hr hs w p i l x :
  st c rv w0 sq res hi hr hs w -> p ∈ hi -> w_ids w !! p = Some i -> cb_session_list i = Some l ->
  clientid_record x = p -> session_refcount x = 2 ->
  snd (session_id x) = global_sequence w + 1 ->
  st c rv w0 (sq + 1) res hi hr (w_next w :: w_next w :: hs) (session_world p i l x w).
Proof.
  intros [Hi Hk Hl Hr He Hs] Hin Hp Hcb Ep Erc Esq. split.
  - by apply inv_new_session.
  - unfold kinds. cbn. intros q j r y [[<- <-]|[_ Hj]]%lookup_insert_Some Er Hy; [exact (Hk p i r y Hp Er Hy)|by eapply Hk].
  - unfold leases. cbn. intros q j [[<- <-]|[_ Hj]]%lookup_insert_Some; [exact (Hl p i Hp)|by apply Hl].
  - intros q Hq%Hr. cbn. lia.
  - eapply clients_evolve_trans; [done|]. split; [|done|cbn; lia|by right].
    cbn. intros q j [[<- <-]|[_ Hj]]%lookup_insert_Some; right; [|eauto using evolve_id_refl].
    exists i. split; [done|]. split; auto.
  - cbn. rewrite Hs. lia.
Qed.

Lemma new_session_st rq clientid maxops p i l sq res hi hr hs w
    (Q : positive * sessionid4 -> client_world -> Prop) :
  st c rv w0 sq res hi hr hs w -> p ∈ hi -> w_ids w !! p = Some i -> cb_session_list i = Some l ->
  0 <= global_sequence w < 18446744073709551615 ->
  (forall s x w', st c rv w0 (sq + 1) res hi hr (s :: s :: hs) w' -> w' = session_world p i l x w ->
     w_sessions w' !! s = Some x -> ht_session_id w' !! session_id x = None ->
     clientid_record x = p -> Q (s, session_id x) w') ->
  wp (new_session rq clientid maxops p) Q w.
Proof.
  intros H Hin Hp Hl Hg HQ. pose proof (st_inv _ _ _ _ _ _ _ _ _ H) as Hi.
  unfold new_session. apply wp_bind. unfold wp at 1, alloc.
  apply wp_bind. unfold inc_client_id_ref. eapply wp_upd_id; [exact Hp|].
  apply wp_bind. eapply wp_get_id; [apply lookup_insert_eq|].
  change (cb_session_list (set_cid_refcount _ i)) with (cb_session_list i). rewrite Hl.
  apply wp_bind, wp_modify. unfold nfs41_Build_sessionid.
  apply wp_bind, wp_bind, wp_gets, wp_bind, wp_modify, wp_ret, wp_bind, wp_modify, wp_ret.
  assert (u64 (global_sequence w + 1) = global_sequence w + 1) as Eu
    by (apply u64_small; unfold is_u64, UINT64_MAX; lia).
  cbn [global_sequence set_w_ids set_w_next w_ids]. rewrite Eu.
  set (x := mk_session _ _ _ _ _ _ _ _). rewrite insert_insert_eq.
  change (clientid, global_sequence w + 1) with (session_id x).
  apply (HQ (w_next w) x (session_world p i l x w)).
  - by apply st_new_session.
  - done.
  - apply lookup_insert_eq.
  - cbn. destruct (ht_session_id w !! (clientid, global_sequence w + 1)) as [s'|] eqn:E; [|done].
    destruct (inv_session_tab _ _ _ _ _ Hi _ _ E) as (y & Hy & Ey).
    apply (inv_session_seq _ _ _ _ _ Hi) in Hy. rewrite Ey in Hy. cbn in Hy. lia.
  - done.
Qed.

Lemma session_set_st s x sq res hi hr hs w (Q : bool -> client_world -> Prop) :
  st c rv w0 sq res hi hr (s :: hs) w -> w_sessions w !! s = Some x ->
  ht_session_id w !! session_id x = None ->
  (forall w', st c rv w0 sq res hi hr hs w' -> w_ids w' = w_ids w -> w_sessions w' = w_sessions w ->
     ht_session_id w' !! session_id x = Some s -> Q true w') ->
  wp (nfs41_Session_Set s) Q w.
Proof.
  intros H Hs Hn HQ. unfold nfs41_Session_Set. wp_step. wp_step. rewrite Hn.
  wp_step. wp_step. apply HQ; [|done|done|apply lookup_insert_eq].
  eapply st_mild; [exact H| |]; [split; try done; cbn; eauto using mild_id_refl|].
  apply inv_hash_session; [apply H|done|done].
Qed.

(** What keeps a client id allocated: an entry of a table, or a session. *)
Definition anchored (w : client_world) (p : positive) : Prop :=
  (exists ht k, table_of ht w !! k = Some p) \/
  (exists sid s x, ht_session_id w !! sid = Some s /\ w_sessions w !! s = Some x /\
     clientid_record x = p).

Lemma anchored_alive hi hr hs w p : inv hi hr hs None w -> anchored w p -> is_Some (w_ids w !! p).
Proof.
  intros H [(ht & k & Hk)|(sid & s & x & _ & Hx & <-)].
  - destruct (table_entry _ _ _ _ _ _ _ H Hk) as (i & Hi & _). eauto.
  - destruct (inv_session _ _ _ _ _ H s x Hx) as ((i & Hi & _) & _); [done|eauto].
Qed.

Lemma anchored_same w w' p :
  (forall ht, table_of ht w' = table_of ht w) -> same_sessions w w' -> anchored w p -> anchored w' p.
Proof.
  intros Ht [E1 E2] [(ht & k & Hk)|Hs]; [left; exists ht, k; by rewrite Ht|right].
  by rewrite E1, E2.
Qed.

Lemma anchored_shrinks w w' p : shrinks w w' -> anchored w p -> anchored w' p.
Proof.
  intros H. apply anchored_same; [|by apply shrinks_sessions].
  rewrite (shrinks_rest _ _ H). by intros [].
Qed.

Lemma anchored_dec_session hi hr hs w w' p :
  inv hi hr hs None w' -> calm w w' /\ ht_session_id w' = ht_session_id w -> sessions_keep w w' ->
  (forall s, is_Some (w_sessions w !! s) -> (s < w_next w)%positive) ->
  anchored w p -> anchored w' p.
Proof.
  intros H [Hc Eh] Hk Hf [(ht & k & Ht)|(sid & s & x & Hs & Hx & <-)].
  - left. exists ht, k. destruct ht; cbn in *; [by rewrite (calm_conf _ _ Hc)|by rewrite (calm_unconf _ _ Hc)].
  - right. rewrite <- Eh in Hs. destruct (inv_session_tab _ _ _ _ _ H sid s Hs) as (x' & Hx' & _).
    exists sid, s, x'. split; [done|]. split; [done|].
    destruct (k_session _ _ Hk s x' Hx') as [(y & Hy & ->)|[Hn _]]; [by replace y with x by congruence|].
    assert (s < w_next w)%positive by (apply Hf; eauto). lia.
Qed.

(** The number of a client id that is in use. *)
Definition numbered (w : client_world) (p : positive) (clientid : Z) : Prop :=
  exists i, w_ids w !! p = Some i /\ cid_clientid i = clientid.

Lemma numbered_mild hi hr hs w w' p clientid :
  inv hi hr hs None w' -> p ∈ hi -> mild w w' -> numbered w p clientid -> numbered w' p clientid.
Proof.
  intros H Hp Hm (i & Hi & E). destruct (inv_held _ _ _ _ _ H p Hp) as [i' Hi'].
  destruct (mild_ids _ _ Hm p i' Hi') as (j & Hj & [Ec _ _ _ _ _]). exists i'. split; [done|].
  congruence.
Qed.

Lemma create_session_confirm_st clientid r m unconf conf sid s y p sq res hi hr hs w
    (Q : nfsstat4 + positive -> client_world -> Prop) :
  st c rv w0 sq res (p :: hi) hr hs w -> r ∈ hr ->
  numbered w p clientid ->
  (unconf = Some p /\ conf = None /\ pending w p r m clientid) \/ (unconf = None /\ conf = Some p) ->
  (forall status w', st c rv w0 sq res hi hr hs w' -> Q (inl status) w') ->
  (forall q w', st c rv w0 sq res (q :: hi) hr hs w' -> numbered w' q clientid -> anchored w' p ->
     Q (inr q) w') ->
  ht_session_id w !! sid = Some s -> w_sessions w !! s = Some y -> clientid_record y = p ->
  wp (create_session_confirm clientid r unconf conf sid) Q w.
Proof.
  intros H Hr Hnum Hcase HQ1 HQ2 Hsid Hy Ey. unfold create_session_confirm.
  destruct Hcase as [(-> & -> & Hpend)|[-> ->]].
  2:{ apply wp_bind, wp_ret, wp_bind, wp_ret, wp_ret. apply HQ2; [done|done|].
      right. by exists sid, s, y. }
  apply wp_bind. eapply (expire_old_conf_st c rv w0 r p m clientid); [done|done|by left|done|..].
  - intros q x i w1 H1 Hp1 Hx Ec Hi Ei [Es1 Eh1]. pose proof (st_inv _ _ _ _ _ _ _ _ _ H1) as I1.
    destruct (pending_ptr _ _ _ _ _ _ _ _ I1 ltac:(by right; left) Hp1)
      as (j & x' & _ & _ & _ & _ & Hx' & Eu).
    rewrite Hx in Hx'. injection Hx' as <-.
    apply wp_bind, wp_bind, (remove_unconfirmed_st c rv w0 sq res (q :: p :: hi) hr hs w1 r x p); [done..|].
    intros w2 x2 H2 _ _ [Hm2 [Es2 Eh2]].
    assert (st c rv w0 sq res (p :: q :: hi) hr hs w2) as H2'.
    { eapply st_mild; [done|apply mild_refl|]. eapply inv_perm; [|done|done|apply H2]. apply Permutation_swap. }
    eapply dec_id_st; [exact H2'|]. intros w3 H3 Hs3.
    apply wp_ret, HQ2; [done| |].
    + eapply numbered_mild; [apply H3|by left|by apply shrinks_mild|].
      eapply numbered_mild; [apply H2|by left|done|]. by exists i.
    + eapply anchored_shrinks; [done|]. right. exists sid, s, y. by rewrite Eh2, Es2, Eh1, Es1.
  - intros x w1 H1 Hp1 Hx Ec. pose proof (st_inv _ _ _ _ _ _ _ _ _ H1) as I1.
    destruct (pending_ptr _ _ _ _ _ _ _ _ I1 ltac:(by left) Hp1)
      as (i & x' & Hi & Hh & Est & Er & _).
    apply wp_bind, (confirm_st c rv w0 sq res (p :: hi) hr hs w1 p i r x); [done..|].
    intros rc w2 H2 [Hm2 Ht2]. destruct (decide _).
    + apply wp_ret, HQ2; [done| |left; exists confirmed_table; eauto].
      eapply numbered_mild; [apply H2|by left|done|].
      destruct Hp1 as (j & Hj & _ & _ & _ & Ej). by exists j.
    + apply wp_bind, (session_del_st c rv w0 sq res (p :: hi) hr hs); [done|]. intros ok w3 H3 _.
      apply wp_bind. eapply dec_id_st; [done|]. intros w4 H4 _. by apply wp_ret, HQ1.
Qed.

Lemma st_forget_session s sq res hi hr hs w :
  st c rv w0 sq res hi hr (s :: hs) w -> st c rv w0 sq res hi hr hs w.
Proof.
  intros H. eapply st_mild; [done|apply mild_refl|].
  destruct (st_inv _ _ _ _ _ _ _ _ _ H) as [? ? ? ? ? ? ? ? Hses Hsh ? ? ? ? ? ?].
  split; try done.
  - intros q y Hy Hz. destruct (Hses q y Hy Hz) as (? & ? & Hc). rewrite cnt_cons in Hc.
    repeat split; try done. unfold b2z in *. destruct (bool_decide (s = q)); lia.
  - intros q Hq. apply Hsh. by right.
Qed.

(** The renewal at the end of CREATE_SESSION is not conditional on a valid
    lease. *)
Lemma session_renew_st clientid f p i t sq res hi hr hs w (Q : unit -> client_world -> Prop) :
  st c rv w0 sq res hi hr hs w -> w_ids w !! p = Some i -> cid_clientid i = clientid ->
  clientid ∈ c -> rv = true -> t = w_time w ->
  (forall j, f j = set_cid_last_renew t
    (set_cid_create_session_sequence (u32 (cid_create_session_sequence j + 1)) j)) ->
  (forall w', st c rv w0 sq res hi hr hs w' -> w' = set_w_ids (w_ids w') w -> Q tt w') ->
  wp (upd_id p f) Q w.
Proof.
  intros H Hp Ek Ec Erv -> Hf HQ. eapply wp_upd_id; [done|]. apply HQ; [|done]. rewrite Hf.
  destruct (st_cnt_res _ _ _ _ _ _ _ _ _ _ _ H Hp) as [Hl Hn].
  eapply st_lease; [done|done|by repeat split|done| |cbn; lia|done|done|by right].
  split; try done; [|congruence]. intros Hc. by rewrite Ek in Hc.
Qed.

(** The reply of CREATE_SESSION is saved in a client id that exists. *)
Definition cache_alive (o : create_session_res) (w : client_world) : Prop :=
  forall loc, cs_cached o = Some loc -> exists p, loc = create_session_cache p /\ is_Some (w_ids w !! p).

Lemma cache_error status w : cache_alive (cs_error status) w.
Proof. by intros loc. Qed.

(** The session is made and the client id confirmed. *)
Lemma create_session_end_st clientid sid s y r m p unconf conf flags back_chan sequence
    sq res hi hr hs w (Q : create_session_res -> client_world -> Prop) :
  st c rv w0 sq res (p :: hi) hr (s :: hs) w -> r ∈ hr -> numbered w p clientid ->
  (unconf = Some p /\ conf = None /\ pending w p r m clientid) \/ (unconf = None /\ conf = Some p) ->
  ht_session_id w !! sid = Some s -> w_sessions w !! s = Some y -> clientid_record y = p ->
  clientid ∈ c -> rv = true ->
  (forall o w', st c rv w0 sq res hi hr hs w' -> cache_alive o w' -> Q o w') ->
  wp (res ← create_session_confirm clientid r unconf conf sid;
      match res with
      | inl status => mret (mk_cs_res status None false (Some (create_session_cache p)))
      | inr conf =>
          t ← time;
          upd_id conf (fun i => set_cid_last_renew t
            (set_cid_create_session_sequence (u32 (cid_create_session_sequence i + 1)) i));;
          dec_client_id_ref conf;;
          dec_session_ref s;;
          let csr_flags :=
            if negb (Z.land flags CREATE_SESSION4_FLAG_CONN_BACK_CHAN =? 0) && back_chan
            then CREATE_SESSION4_FLAG_CONN_BACK_CHAN else 0 in
          mret (mk_cs_res NFS4_OK (Some (sid, sequence, csr_flags)) false
                  (Some (create_session_cache p)))
      end) Q w.
Proof.
  intros H Hr Hnum Hcase Hsid Hy Ey Ec Erv HQ. apply wp_bind.
  assert (forall status sid b w', is_Some (w_ids w' !! p) ->
    cache_alive (mk_cs_res status sid b (Some (create_session_cache p))) w') as Halive.
  { intros status sid' b w' Hp loc [= <-]. eauto. }
  eapply wp_mono; [apply wp_moves, (create_session_confirm_st clientid r m unconf conf sid s y p
    sq res hi hr (s :: hs) w (fun o w' => match o with
      | inl _ => st c rv w0 sq res hi hr (s :: hs) w'
      | inr q => st c rv w0 sq res (q :: hi) hr (s :: hs) w' /\ numbered w' q clientid /\ anchored w' p
      end)); auto with moves|].
  intros [status|q] w1 [H1 Hk].
  - apply wp_ret, HQ; [by eapply st_forget_session|]. apply Halive.
    destruct (inv_session_held _ _ _ _ _ (st_inv _ _ _ _ _ _ _ _ _ H1) s) as [x Hx]; [by left|].
    destruct (inv_session _ _ _ _ _ (st_inv _ _ _ _ _ _ _ _ _ H1) s x Hx) as ((i & Hi & _) & _); [done|].
    destruct (k_session _ _ Hk s x Hx) as [(z & Hz & Hrc)|[Hn _]].
    + rewrite Hrc in Hi. cbn in Hi. replace z with y in Hi by congruence. rewrite Ey in Hi. eauto.
    + assert (s < w_next w)%positive; [|lia].
      eapply (inv_fresh_session _ _ _ _ _ (st_inv _ _ _ _ _ _ _ _ _ H)). eauto.
  - destruct H1 as (H1 & (j & Hj & Ej) & Ha). wp_step. apply wp_bind.
    eapply (session_renew_st clientid); [done|done|done|done|done|done|done|]. intros w2 H2 E2.
    apply wp_bind. eapply dec_id_st; [done|]. intros w3 H3 Hs3.
    apply wp_bind. eapply wp_mono; [apply wp_moves; [apply keeps_dec_session_ref|];
      apply (dec_session_st c rv w0 sq res hi hr hs w3 s (fun _ w' => st c rv w0 sq res hi hr hs w' /\
        calm w3 w' /\ ht_session_id w' = ht_session_id w3)); [done|auto]|].
    intros _ w4 [[H4 Hc4] Hk4]. apply wp_ret, HQ; [done|]. apply Halive.
    eapply anchored_alive; [apply H4|]. eapply anchored_dec_session; [apply H4|done|done| |].
    + intros q'. apply (inv_fresh_session _ _ _ _ _ (st_inv _ _ _ _ _ _ _ _ _ H3)).
    + eapply anchored_shrinks; [done|]. rewrite E2.
      by apply (anchored_same w1).
Qed.

Lemma create_session_new_st rq clientid sequence flags maxops back_chan r m p i unconf conf
    sq res hi hr hs w (Q : create_session_res -> client_world -> Prop) :
  st c rv w0 sq res (p :: hi) hr hs w -> r ∈ hr ->
  w_ids w !! p = Some i -> cid_clientid i = clientid -> is_Some (cb_session_list i) ->
  anchored w p ->
  (unconf = Some p /\ conf = None /\ pending w p r m clientid) \/ (unconf = None /\ conf = Some p) ->
  0 <= global_sequence w < 18446744073709551615 -> clientid ∈ c -> rv = true ->
  (forall o w' sq', st c rv w0 sq' res hi hr hs w' -> sq <= sq' <= sq + 1 -> cache_alive o w' ->
     Q o w') ->
  wp (create_session_locked rq clientid sequence flags maxops back_chan r p unconf conf) Q w.
Proof.
  intros H Hr Hi Ek [l Hl] Ha Hcase Hg Ec Erv HQ. unfold create_session_locked. wp_step.
  assert (forall o, cs_cached o = None \/ cs_cached o = Some (create_session_cache p) ->
    wp (dec_client_id_ref p;; mret o) Q w) as Hend.
  { intros o Ho. apply wp_bind. eapply dec_id_st; [done|]. intros w' H' Hs.
    eapply wp_ret, HQ; [done|lia|]. intros loc El. exists p. split; [destruct Ho; congruence|].
    eapply anchored_alive; [apply H'|by eapply anchored_shrinks]. }
  destruct (_ && _ && _); [apply Hend; by right|].
  do 3 (match goal with |- wp (if ?b then _ else _) _ _ => destruct b end; [apply Hend; by left|]).
  apply wp_bind. eapply (new_session_st rq clientid maxops p i l); [done|by left|done|done|done|].
  intros s x w1 H1 -> Hs1 Hn1 Ex. apply wp_bind.
  set (w1 := session_world p i l x w) in *.
  eapply (upd_id_st c rv w0 _ _ _ _ _ w1 p); [done|apply lookup_insert_eq|by repeat split|done|by split; auto|].
  intros w2 H2. apply wp_bind, (session_set_st s x (sq + 1) res (p :: hi) hr (s :: hs)); [done..|].
  intros w3 H3 Ei3 Es3 Eh3. cbn [negb].
  eapply (create_session_end_st clientid (session_id x) s x r m p); try done.
  - eexists. rewrite Ei3. split; [apply lookup_insert_eq|]. done.
  - destruct Hcase as [(-> & -> & j & Hj & Hst & Er & Em & _)|[-> ->]]; [left|by right].
    repeat split; try done. rewrite Hi in Hj. injection Hj as <-.
    eexists. rewrite Ei3. split; [apply lookup_insert_eq|]. by repeat split.
  - by rewrite Es3.
  - intros o w' H' Ho. eapply HQ; [done|lia|done].
Qed.

Lemma nfs4_op_create_session_st rq clientid sequence flags maxops back_chan sq res hi hr hs w
    (Q : create_session_res -> client_world -> Prop) :
  st c rv w0 sq res hi hr hs w ->
  (rq_minorversion rq <> 0 -> named_minor (fun m => 0 < m) clientid w) ->
  0 <= global_sequence w < 18446744073709551615 -> clientid ∈ c -> rv = true ->
  (forall o w' sq', st c rv w0 sq' res hi hr hs w' -> sq <= sq' <= sq + 1 -> cache_alive o w' ->
     Q o w') ->
  wp (nfs4_op_create_session rq clientid sequence flags maxops back_chan) Q w.
Proof.
  intros H Hn Hg Ec Erv HQ. unfold nfs4_op_create_session.
  destruct (Z.eqb_spec (rq_minorversion rq) 0) as [|Hmv];
    [eapply wp_ret, HQ; [done|lia|apply cache_error]|]. specialize (Hn Hmv). apply wp_bind.
  assert (forall ht w1 p unconf conf, st c rv w0 sq res (p :: hi) hr hs w1 ->
    found_named ht clientid w w1 p ->
    (ht = unconfirmed_table /\ unconf = Some p /\ conf = None) \/
    (ht = confirmed_table /\ unconf = None /\ conf = Some p) ->
    wp (r ← record_of p; inc_client_record_ref r;;
        res ← create_session_locked rq clientid sequence flags maxops back_chan r p unconf conf;
        dec_client_record_ref r;; mret res) Q w1) as Hrest.
  { intros ht w1 p unconf conf H1 [Hf Hm] Hcase. pose proof (st_inv _ _ _ _ _ _ _ _ _ H1) as I1.
    destruct (found_record _ _ _ _ _ _ _ I1 Hf) as (i & r & x & Hi & Ek & Er & Hx & Hst).
    apply wp_bind. unfold record_of. wp_step. rewrite Er. wp_step.
    apply wp_bind. eapply inc_rec_st; [done|eauto|]. intros x' Hx' w2 H2.
    apply wp_bind. eapply (create_session_new_st _ _ _ _ _ _ r (cid_minorversion i) p i _ _ _ _ hi);
      [done|by left|done|done| | | | |done|done|].
    - apply (inv_minor _ _ _ _ _ I1 p i Hi). by apply (Hm _ _ Hn).
    - left. exists ht, clientid. destruct Hf as [Hf _]. by destruct ht.
    - destruct Hcase as [(-> & -> & ->)|(-> & -> & ->)]; [left|by right].
      split; [done|]. split; [done|]. exists i. repeat split; try done. apply Hst.
    - cbn. rewrite (st_seq _ _ _ _ _ _ _ _ _ H1), <- (st_seq _ _ _ _ _ _ _ _ _ H). done.
    - intros o w3 sq' H3 Hsq Ho. apply wp_bind. eapply dec_rec_st; [done|]. intros w4 H4 [_ E4].
      eapply wp_ret, HQ; [done|done|]. unfold cache_alive. by rewrite E4. }
  eapply find_client_id_st; [done|..].
  - intros rc w1 H1. eapply wp_ret, HQ; [done|lia|apply cache_error].
  - intros rc u w1 H1 Hf. eapply Hrest; [done|done|by left].
  - intros rc p w1 H1 Hf. eapply Hrest; [done|done|by right].
Qed.

(** ** DESTROY_CLIENTID and DESTROY_SESSION *)

Lemma st_swap p q sq res hi hr hs w :
  st c rv w0 sq res (p :: q :: hi) hr hs w -> st c rv w0 sq res (q :: p :: hi) hr hs w.
Proof.
  intros H. eapply st_mild; [done|apply mild_refl|].
  eapply inv_perm; [|done|done|apply H]. apply Permutation_swap.
Qed.

Lemma destroy_find_st clientid sq res hi hr hs w (Q : option positive -> client_world -> Prop) :
  st c rv w0 sq res hi hr hs w ->
  (forall w', st c rv w0 sq res hi hr hs w' -> Q None w') ->
  (forall p w', st c rv w0 sq res (p :: hi) hr hs w' -> Q (Some p) w') ->
  wp (destroy_find clientid) Q w.
Proof.
  intros H HQ1 HQ2. unfold destroy_find. apply wp_bind. eapply lookup_st; [done|..].
  2:{ intros p i _ _ _ _ w1 H1. by apply wp_ret, HQ2. }
  intros _ w1 H1 _ _. apply wp_bind. eapply lookup_st; [done|..].
  - intros _ w2 H2 _ _. apply wp_bind. eapply lookup_st; [done|..].
    + intros _ w3 H3 _ _. by apply wp_ret, HQ1.
    + intros p i _ _ _ _ w3 H3. by apply wp_ret, HQ2.
  - intros u i _ _ _ _ w2 H2. apply wp_bind. eapply lookup_st; [done|..].
    + intros _ w3 H3 _ _. by apply wp_ret, HQ2.
    + intros p j _ _ _ _ w3 H3%st_swap. apply wp_bind. eapply dec_id_st; [exact H3|].
      intros w4 H4 _. by apply wp_ret, HQ2.
Qed.

Lemma destroy_clientid_locked_st r sq res hi hr hs w (Q : nfsstat4 -> client_world -> Prop) :
  st c rv w0 sq res hi hr hs w -> r ∈ hr ->
  (forall status w', st c rv w0 sq res hi hr hs w' -> Q status w') ->
  wp (destroy_clientid_locked r) Q w.
Proof.
  intros H Hr HQ. destruct (held_rec _ _ _ _ _ _ _ _ _ _ H Hr) as [x Hx].
  unfold destroy_clientid_locked. wp_step.
  assert (forall w1 x1, st c rv w0 sq res hi hr hs w1 -> w_recs w1 !! r = Some x1 ->
    cr_unconfirmed_rec x1 = cr_unconfirmed_rec x ->
    wp (match cr_unconfirmed_rec x with
        | Some u => remove_unconfirmed_client_id u;; mret tt
        | None => mret tt
        end;; mret NFS4_OK) Q w1) as Hrest.
  { intros w1 x1 H1 Hx1 Eu. destruct (cr_unconfirmed_rec x) as [u|]; [|by apply wp_bind, wp_ret, wp_ret, HQ].
    apply wp_bind, wp_bind, (remove_unconfirmed_st c rv w0 sq res hi hr hs w1 r x1 u); [done..|].
    intros w2 x2 H2 _ _ _. by apply wp_ret, wp_ret, HQ. }
  destruct (cr_confirmed_rec x) as [p|] eqn:Ec.
  - destruct (conf_ptr hi hr hs w r x p) as (i & Hi & _); [apply H|done|done|].
    apply wp_bind. wp_step. wp_step. destruct (negb _); [by apply wp_ret, HQ|].
    apply wp_bind, wp_bind, (remove_confirmed_st c rv w0 sq res hi hr hs w r x p); [done..|].
    intros w1 x1 H1 Hx1 E1 _. apply wp_ret. eapply Hrest; [done|done|by rewrite E1].
  - apply wp_bind, wp_ret, wp_bind, wp_ret. by eapply Hrest.
Qed.

Lemma nfs4_op_destroy_clientid_st clientid sq res hi hr hs w (Q : nfsstat4 -> client_world -> Prop) :
  st c rv w0 sq res hi hr hs w ->
  (forall status w', st c rv w0 sq res hi hr hs w' -> Q status w') ->
  wp (nfs4_op_destroy_clientid clientid) Q w.
Proof.
  intros H HQ. unfold nfs4_op_destroy_clientid. apply wp_bind. eapply destroy_find_st; [done|..].
  { intros w1 H1. by apply wp_ret, HQ. }
  intros p w1 H1. pose proof (st_inv _ _ _ _ _ _ _ _ _ H1) as I1.
  destruct (inv_held _ _ _ _ _ I1 p ltac:(by left)) as [i Hi]. wp_step.
  destruct (cid_client_record i) as [r|] eqn:Er.
  - pose proof (inv_link_some _ _ _ _ _ _ _ _ I1 Hi Er) as Hr.
    apply wp_bind. eapply inc_rec_st; [done|done|]. intros x Hx w2 H2.
    apply wp_bind. eapply (destroy_clientid_locked_st r); [done|by left|]. intros status w3 H3.
    apply wp_bind. eapply dec_rec_st; [done|]. intros w4 H4 _.
    apply wp_bind. eapply dec_id_st; [done|]. intros w5 H5 _. by apply wp_ret, HQ.
  - apply wp_ret, HQ. by eapply (st_forget c rv w0 p).
Qed.

(** A session that is looked up. *)
Lemma session_get_st sid sq res hi hr hs w (Q : option positive -> client_world -> Prop) :
  st c rv w0 sq res hi hr hs w ->
  (ht_session_id w !! sid = None -> Q None w) ->
  (forall s x, ht_session_id w !! sid = Some s -> w_sessions w !! s = Some x ->
     let w' := set_w_sessions
       (<[s := set_session_refcount (session_refcount x + 1) x]> (w_sessions w)) w in
     st c rv w0 sq res hi hr (s :: hs) w' -> Q (Some s) w') ->
  wp (nfs41_Session_Get_Pointer sid) Q w.
Proof.
  intros H HQ1 HQ2. pose proof (st_inv _ _ _ _ _ _ _ _ _ H) as Hi.
  unfold nfs41_Session_Get_Pointer. wp_step.
  destruct (ht_session_id w !! sid) as [s|] eqn:Es; [|by apply wp_ret, HQ1].
  destruct (inv_session_tab _ _ _ _ _ Hi sid s Es) as (x & Hx & Ex).
  apply wp_bind. unfold inc_session_ref. wp_step. wp_step. apply HQ2; [done|done|].
  eapply st_mild; [exact H| |]; [split; try done; cbn; eauto using mild_id_refl|].
  destruct (inv_session _ _ _ _ _ Hi s x Hx) as (_ & ? & _); [done|].
  eapply inv_set_session; [done|exact Hx|done|done|cbn; lia| |].
  - rewrite cnt_push_eq. cbn. lia.
  - apply cnt_push.
Qed.

Lemma nfs4_op_destroy_session_st rq sid sq res hi hr hs w (Q : nfsstat4 -> client_world -> Prop) :
  st c rv w0 sq res hi hr hs w ->
  (forall status w', st c rv w0 sq res hi hr hs w' -> Q status w') ->
  wp (nfs4_op_destroy_session rq sid) Q w.
Proof.
  intros H HQ. unfold nfs4_op_destroy_session.
  destruct (_ =? _); [by apply wp_ret, HQ|]. apply wp_bind, (session_get_st sid sq res hi hr hs); [done|..].
  { intros _. by apply wp_ret, HQ. }
  intros s x _ _ w1 H1.
  apply wp_bind. eapply wp_get_session; [apply lookup_insert_eq|]. destruct (negb _).
  - apply wp_bind, (dec_session_st c rv w0 sq res hi hr hs); [done|]. intros w2 H2 _.
    by apply wp_ret, HQ.
  - apply wp_bind, (session_del_st c rv w0 sq res hi hr (s :: hs)); [done|]. intros ok w2 H2 _.
    apply wp_bind, (dec_session_st c rv w0 sq res hi hr hs); [done|]. intros w3 H3 _.
    by apply wp_ret, HQ.
Qed.
End sessions.
