(* ===== verification/ClientState.v ===== *)
(** * Client identities of NFSv4: opens, locks and leases

    RENEW and what OPEN, LOCK and CLOSE do to a client id keep the invariant:
    the reference counts of the owners are the numbers of their states, of
    the lock owners of an open owner and of its place in the cache. *)
From S2P Require Import Prelude Status Owners ClientData ClientOps ClientInv ClientLife ClientFrame ClientSafe.

(** ** Lists of owners *)

Lemma on_owner_comp so f g l :
  (forall o, so_ptr (f o) = so_ptr o) ->
  on_owner so g (on_owner so f l) = on_owner so (fun o => g (f o)) l.
Proof.
  intros Hf. unfold on_owner. rewrite map_map. apply map_ext. intros o.
  destruct (decide (so_ptr o = so)) as [E|E]; [|by rewrite decide_False].
  by rewrite decide_True by (by rewrite Hf).
Qed.

Lemma find_owner_on so f l :
  (forall o, so_ptr (f o) = so_ptr o) ->
  find_owner so (on_owner so f l) = f <$> find_owner so l.
Proof.
  intros Hf. induction l as [|o l IH]; [done|]. unfold find_owner, on_owner in *. cbn.
  destruct (decide (so_ptr o = so)) as [E|E].
  - by rewrite (bool_decide_true (so_ptr (f o) = so)), (bool_decide_true (so_ptr o = so)) by (rewrite ?Hf; done).
  - by rewrite (bool_decide_false (so_ptr o = so)) by done.
Qed.

Lemma on_owner_id so f l :
  (forall o, o ∈ l -> so_ptr o = so -> f o = o) -> on_owner so f l = l.
Proof.
  intros Hf. unfold on_owner. rewrite <- (map_id l) at 2. apply map_ext_in. intros o Ho.
  apply list_elem_of_In in Ho. destruct (decide (so_ptr o = so)); auto.
Qed.

Lemma on_owner_app so f l1 l2 : on_owner so f (l1 ++ l2) = on_owner so f l1 ++ on_owner so f l2.
Proof. apply map_app. Qed.

Lemma on_owner_length so f l : length (on_owner so f l) = length l.
Proof. apply length_map. Qed.

Lemma filter_on_owner so f l :
  (forall o, so_ptr (f o) = so_ptr o) ->
  filter (fun o => so_ptr o <> so) (on_owner so f l) = filter (fun o => so_ptr o <> so) l.
Proof.
  intros Hf. induction l as [|o l IH]; [done|]. unfold on_owner in *. cbn [map].
  rewrite !filter_cons, IH. destruct (decide (so_ptr o = so)) as [E|E]; [|done].
  rewrite (decide_False (P := so_ptr (f o) <> so)), (decide_False (P := so_ptr o <> so));
    [done|by intros Hn|by rewrite Hf; intros Hn].
Qed.

(** The lock owners that are related to an open owner. *)
Definition related_count (so : positive) (l : list owner_t) : Z :=
  Z.of_nat (length (filter (fun o => related_to so o = true) l)).

Lemma related_count_on so so' f l :
  (forall o, so_related_owner (f o) = so_related_owner o) ->
  related_count so (on_owner so' f l) = related_count so l.
Proof.
  intros Hf. unfold related_count, on_owner. f_equal. induction l as [|o l IH]; [done|]. cbn [map].
  assert (related_to so (if decide (so_ptr o = so') then f o else o) = related_to so o) as E.
  { destruct (decide (so_ptr o = so')); [|done]. unfold related_to. by rewrite Hf. }
  rewrite !filter_cons, E. destruct (decide (related_to so o = true)); cbn [length]; by rewrite IH.
Qed.

Lemma related_count_last so l o :
  related_count so (l ++ [o]) = related_count so l + b2z (related_to so o).
Proof.
  unfold related_count. rewrite filter_app, length_app, filter_cons.
  destruct (related_to so o) eqn:E; [rewrite decide_True by done|rewrite decide_False by done]; cbn; lia.
Qed.

Lemma related_count_none so i :
  own_ok i -> so ∉ so_ptr <$> cid_openowners i -> related_count so (cid_lockowners i) = 0.
Proof.
  intros H Hn. unfold related_count.
  destruct (filter _ (cid_lockowners i)) as [|o l] eqn:E; [done|].
  assert (o ∈ filter (fun o => related_to so o = true) (cid_lockowners i)) as Ho by (rewrite E; left).
  apply list_elem_of_filter in Ho as [Er Ho]. apply bool_decide_eq_true in Er.
  destruct (own_lock i H o Ho) as (_ & _ & o' & Ho' & Er'). destruct Hn.
  apply list_elem_of_fmap. exists o'. split; [congruence|done].
Qed.

(** An open owner, or a lock owner, changes with its states. *)
Definition open_change (o o' : owner_t) : Prop :=
  so_ptr o' = so_ptr o /\ so_related_owner o' = so_related_owner o /\
  1 <= Z.of_nat (length (so_state_list o')) + b2z (so_cached o') /\
  so_refcount o' - (Z.of_nat (length (so_state_list o')) + b2z (so_cached o'))
  = so_refcount o - (Z.of_nat (length (so_state_list o)) + b2z (so_cached o)) /\
  (so_cached o' = true -> so_state_list o' = []).

Lemma own_ok_on_open so f i :
  own_ok i -> (forall o, so_ptr (f o) = so_ptr o) ->
  (forall o, o ∈ cid_openowners i -> so_ptr o = so -> open_change o (f o)) ->
  own_ok (set_cid_openowners (on_owner so f (cid_openowners i)) i).
Proof.
  intros H Hptr Hf. split; cbn; try apply H.
  - rewrite on_owner_ptrs by done. apply H.
  - intros o1 [(o' & Ho' & E & ->)|[Ho1 _]]%on_owner_elem; [|by apply (own_open i H)].
    destruct (own_open i H o' Ho') as (? & ? & Hc).
    destruct (Hf o' Ho' E) as (-> & -> & ? & ? & ?). split; [done|]. split; [done|]. lia.
  - intros o1 Ho1. destruct (own_lock i H o1 Ho1) as (? & ? & o' & Ho' & Er).
    split; [done|]. split; [done|]. destruct (decide (so_ptr o' = so)).
    + exists (f o'). rewrite Hptr. split; [|done]. apply on_owner_elem. left. eauto.
    + exists o'. split; [|done]. apply on_owner_elem. by right.
  - intros o1 [(o' & Ho' & E & ->)|[Ho1 _]]%on_owner_elem; [|by apply (own_cached i H)].
    apply (Hf o' Ho' E).
Qed.

Definition lock_change (o o' : owner_t) : Prop :=
  so_ptr o' = so_ptr o /\ so_related_owner o' = so_related_owner o /\ so_cached o' = false /\
  so_refcount o' = Z.of_nat (length (so_state_list o')) /\ so_state_list o' <> [].

Lemma own_ok_on_lock so f i :
  own_ok i -> (forall o, so_ptr (f o) = so_ptr o) ->
  (forall o, so_related_owner (f o) = so_related_owner o) ->
  (forall o, o ∈ cid_lockowners i -> so_ptr o = so -> lock_change o (f o)) ->
  own_ok (set_cid_lockowners (on_owner so f (cid_lockowners i)) i).
Proof.
  intros H Hptr Hrel Hf. split; cbn; try apply H.
  - rewrite on_owner_ptrs by done. apply H.
  - intros o1 Ho1. destruct (own_open i H o1 Ho1) as (? & ? & Hc). split; [done|]. split; [done|].
    rewrite Hc. f_equal. symmetry. by apply (related_count_on (so_ptr o1) so f).
  - intros o1 [(o' & Ho' & E & ->)|[Ho1 _]]%on_owner_elem; [|by apply (own_lock i H)].
    destruct (own_lock i H o' Ho') as (_ & _ & Hex). destruct (Hf o' Ho' E) as (_ & -> & -> & -> & _).
    done.
  - intros o1 [(o' & Ho' & E & ->)|[Ho1 _]]%on_owner_elem; [|by apply (own_lock_states i H)].
    apply (Hf o' Ho' E).
Qed.

(** ** The owners after an operation *)

(** An open that adds the state [sid] to an owner that exists. *)
Definition add_open (sid : Z) (o : owner_t) : owner_t :=
  mk_owner (so_ptr o) (so_refcount o + 1 - b2z (so_cached o)) (so_state_list o ++ [sid]) false
    (so_related_owner o).

Definition opened (so : positive) (sid : Z) (i : nfs_client_id_t) : nfs_client_id_t :=
  match find_owner so (cid_openowners i) with
  | Some _ => set_cid_openowners (on_owner so (add_open sid) (cid_openowners i)) i
  | None => set_cid_openowners (cid_openowners i ++ [mk_owner so 1 [sid] false None])
              (set_cid_refcount (cid_refcount i + 1) i)
  end.

Lemma own_ok_opened so sid i : own_ok i -> own_ok (opened so sid i).
Proof.
  intros H. unfold opened. destruct (find_owner so (cid_openowners i)) as [o|] eqn:Ef.
  - apply own_ok_on_open; [done|done|]. intros o' Ho' _. repeat split; try done; cbn; rewrite length_app; cbn; lia.
  - apply find_owner_none in Ef. pose proof (related_count_none so i H Ef) as Hz. unfold related_count in Hz.
    split; cbn; try apply H.
    + rewrite fmap_app. apply NoDup_app. split; [apply H|]. split; [|apply NoDup_singleton].
      intros q Hq ->%list_elem_of_singleton. done.
    + intros o1 [Ho1| ->%list_elem_of_singleton]%elem_of_app; [by apply (own_open i H)|].
      split; [done|]. split; [done|]. cbn [so_ptr so_refcount so_state_list so_cached]. by rewrite Hz.
    + intros o1 Ho1. destruct (own_lock i H o1 Ho1) as (? & ? & o' & Ho' & Er).
      split; [done|]. split; [done|]. exists o'. split; [|done]. apply elem_of_app. by left.
    + intros o1 [Ho1| ->%list_elem_of_singleton]%elem_of_app; [by apply (own_cached i H)|done].
Qed.

(** A lock of the lock owner [so] under the open owner [related]. *)
Definition add_lock (sid : Z) (o : owner_t) : owner_t :=
  mk_owner (so_ptr o) (so_refcount o + 1) (so_state_list o ++ [sid]) false (so_related_owner o).
Definition add_ref (o : owner_t) : owner_t := set_so_refcount (so_refcount o + 1) o.

Definition locked (so related : positive) (sid : Z) (i : nfs_client_id_t) : nfs_client_id_t :=
  match find_owner so (cid_lockowners i) with
  | Some _ => set_cid_lockowners (on_owner so (add_lock sid) (cid_lockowners i)) i
  | None => set_cid_lockowners (cid_lockowners i ++ [mk_owner so 1 [sid] false (Some related)])
              (set_cid_openowners (on_owner related add_ref (cid_openowners i))
                 (set_cid_refcount (cid_refcount i + 1) i))
  end.

Lemma own_ok_locked so related sid i :
  own_ok i -> related ∈ so_ptr <$> cid_openowners i -> own_ok (locked so related sid i).
Proof.
  intros H Hrel. unfold locked. destruct (find_owner so (cid_lockowners i)) as [o|] eqn:Ef.
  - apply own_ok_on_lock; [done|done|done|]. intros o' Ho' _.
    destruct (own_lock i H o' Ho') as (? & Hc & _). repeat split; try done; cbn.
    + rewrite length_app, Hc. cbn. lia.
    + by destruct (so_state_list o').
  - apply find_owner_none in Ef. split; cbn.
    + rewrite on_owner_ptrs by done. apply H.
    + rewrite fmap_app. apply NoDup_app. split; [apply H|]. split; [|apply NoDup_singleton].
      intros q Hq ->%list_elem_of_singleton. done.
    + set (new := mk_owner so 1 [sid] false (Some related)).
      assert (forall q, Z.of_nat (length (filter (fun l => related_to q l = true) (cid_lockowners i ++ [new])))
        = Z.of_nat (length (filter (fun l => related_to q l = true) (cid_lockowners i)))
          + b2z (bool_decide (Some related = Some q))) as Hl
        by (intros q; exact (related_count_last q (cid_lockowners i) new)).
      intros o1 [(o' & Ho' & E & ->)|[Ho1 Hne]]%on_owner_elem.
      * destruct (own_open i H o' Ho') as (? & ? & Hc). cbn [add_ref set_so_refcount so_ptr so_refcount so_state_list so_cached so_related_owner].
        rewrite Hl, Hc, bool_decide_true by congruence. split; [done|]. split; [done|]. cbn [b2z]. lia.
      * destruct (own_open i H o1 Ho1) as (? & ? & Hc).
        rewrite Hl, Hc, bool_decide_false by congruence. split; [done|]. split; [done|]. cbn [b2z]. lia.
    + intros o1 [Ho1| ->%list_elem_of_singleton]%elem_of_app.
      * destruct (own_lock i H o1 Ho1) as (? & ? & o' & Ho' & Er). split; [done|]. split; [done|].
        destruct (decide (so_ptr o' = related)).
        -- exists (add_ref o'). split; [|done]. apply on_owner_elem. left. eauto.
        -- exists o'. split; [|done]. apply on_owner_elem. by right.
      * split; [done|]. split; [done|]. apply list_elem_of_fmap in Hrel as (o' & -> & Ho').
        exists (add_ref o'). split; [|done]. apply on_owner_elem. left. eauto.
    + intros o1 [(o' & Ho' & E & ->)|[Ho1 _]]%on_owner_elem;
        [exact (own_cached i H o' Ho')|exact (own_cached i H o1 Ho1)].
    + intros o1 [Ho1| ->%list_elem_of_singleton]%elem_of_app; [by apply (own_lock_states i H)|done].
Qed.

(** The removal of the state [sid] from an owner. *)
Lemma glist_del_state_length sid l :
  sid ∈ l -> length l = S (length (glist_del_state sid l)).
Proof.
  induction l as [|x l IH]; [by intros ?%elem_of_nil|]. cbn.
  destruct (Z.eqb_spec x sid) as [->|?]; [done|]. intros [->|Hin]%elem_of_cons; [done|].
  cbn. by rewrite IH at 1.
Qed.

Definition retained (o : owner_t) : owner_t :=
  mk_owner (so_ptr o) (so_refcount o) [] true (so_related_owner o).
Definition closed (states : list Z) (o : owner_t) : owner_t :=
  mk_owner (so_ptr o) (so_refcount o - 1) states false (so_related_owner o).

Lemma own_ok_retained so sid o i :
  own_ok i -> find_owner so (cid_openowners i) = Some o -> sid ∈ so_state_list o ->
  glist_del_state sid (so_state_list o) = [] ->
  own_ok (set_cid_openowners (on_owner so retained (cid_openowners i)) i).
Proof.
  intros H Hf Hs E. apply own_ok_on_open; [done|done|]. intros o' Ho' Eo'.
  pose proof (find_owner_elem (cid_openowners i) o' ltac:(apply H) Ho') as Hf'.
  rewrite Eo', Hf in Hf'. injection Hf' as <-.
  assert (so_cached o = false) as Ec.
  { destruct (so_cached o) eqn:Ec; [|done]. rewrite (own_cached i H o Ho' Ec) in Hs. by apply elem_of_nil in Hs. }
  apply glist_del_state_length in Hs. rewrite E in Hs.
  repeat split; try done. cbn. rewrite Hs, Ec. cbn. lia.
Qed.

Lemma own_ok_closed_open so sid o i :
  own_ok i -> find_owner so (cid_openowners i) = Some o -> sid ∈ so_state_list o ->
  glist_del_state sid (so_state_list o) <> [] ->
  own_ok (set_cid_openowners
    (on_owner so (closed (glist_del_state sid (so_state_list o))) (cid_openowners i)) i).
Proof.
  intros H Hf Hs Hne. apply own_ok_on_open; [done|done|]. intros o' Ho' Eo'.
  pose proof (find_owner_elem (cid_openowners i) o' ltac:(apply H) Ho') as Hf'.
  rewrite Eo', Hf in Hf'. injection Hf' as <-.
  assert (so_cached o = false) as Ec.
  { destruct (so_cached o) eqn:Ec; [|done]. rewrite (own_cached i H o Ho' Ec) in Hs. by apply elem_of_nil in Hs. }
  apply glist_del_state_length in Hs. destruct (glist_del_state _ _) as [|s l]; [done|].
  repeat split; try done; cbn; [lia|]. rewrite Hs, Ec. cbn. lia.
Qed.

Lemma own_ok_closed_lock so sid o i :
  own_ok i -> find_owner so (cid_lockowners i) = Some o -> sid ∈ so_state_list o ->
  glist_del_state sid (so_state_list o) <> [] ->
  own_ok (set_cid_lockowners
    (on_owner so (closed (glist_del_state sid (so_state_list o))) (cid_lockowners i)) i).
Proof.
  intros H Hf Hs Hne. apply own_ok_on_lock; [done|done|done|]. intros o' Ho' Eo'.
  pose proof (find_owner_elem (cid_lockowners i) o' ltac:(apply H) Ho') as Hf'.
  rewrite Eo', Hf in Hf'. injection Hf' as <-.
  destruct (own_lock i H o Ho') as (_ & Hc & _). apply glist_del_state_length in Hs.
  repeat split; try done. cbn. rewrite Hc, Hs. lia.
Qed.

Lemma own_ok_perm l i : own_ok i -> l ≡ₚ cid_lockowners i -> own_ok (set_cid_lockowners l i).
Proof.
  intros H Hp. split; cbn; try apply H.
  - rewrite Hp. apply H.
  - intros o Ho. rewrite Hp. by apply (own_open i H).
  - intros o. rewrite Hp. apply H.
  - intros o. rewrite Hp. apply H.
Qed.

(** A lock owner that loses its last state goes, with its reference to the
    open owner. *)
Lemma own_ok_gone_lock so o i :
  own_ok i -> find_owner so (cid_lockowners i) = Some o ->
  let rest := filter (fun o => so_ptr o <> so) (cid_lockowners i) in
  own_ok (drop_lock_owner o rest i) /\ length (cid_lockowners i) = S (length rest).
Proof.
  intros H Hf rest. apply find_owner_some in Hf as [Ho E].
  pose proof (own_lock_nodup i H) as Hnd.
  apply list_elem_of_split in Ho as (l1 & l2 & El). unfold rest. clear rest. rewrite El in *.
  assert (filter (fun o => so_ptr o <> so) (l1 ++ o :: l2) = l1 ++ l2) as Ef.
  { rewrite fmap_app, fmap_cons in Hnd. apply NoDup_app in Hnd as (_ & Hn1 & Hn2).
    apply NoDup_cons in Hn2 as [Hn2 _].
    assert (forall l : list owner_t, so ∉ so_ptr <$> l -> filter (fun o => so_ptr o <> so) l = l) as Hid.
    { induction l as [|x l IH]; intros Hl; [done|]. rewrite fmap_cons, not_elem_of_cons in Hl.
      destruct Hl as [Hx Hl]. rewrite filter_cons, decide_True by congruence. by rewrite IH. }
    rewrite filter_app, filter_cons, decide_False by (intros Hx; by apply Hx).
    rewrite !Hid; [done|by rewrite <- E|]. intros Hin. apply (Hn1 so Hin). rewrite <- E. left. }
  rewrite Ef. split; [|rewrite !length_app; cbn; lia].
  assert (own_ok (set_cid_lockowners (o :: l1 ++ l2) i)) as H'.
  { apply own_ok_perm; [done|]. rewrite El. by rewrite Permutation_middle. }
  apply (own_ok_drop_lock _ o (l1 ++ l2)) in H'; [|done].
  unfold drop_lock_owner in *. destruct (so_related_owner o); destruct i; done.
Qed.

Lemma on_owner_ext so f g l :
  (forall o, o ∈ l -> so_ptr o = so -> f o = g o) -> on_owner so f l = on_owner so g l.
Proof.
  intros H. apply map_ext_in. intros o Ho. apply list_elem_of_In in Ho.
  destruct (decide (so_ptr o = so)); auto.
Qed.

Section state.
Context `{Env : ClientEnv}.

(** ** The bodies of the operations *)

Lemma wp_get_with p i Q w : wp (get_id p) Q (with_id p i w) <-> Q i (with_id p i w).
Proof. unfold wp, get_id. by rewrite with_id_lookup. Qed.

(** A reference to an owner that is not the last. *)
Lemma dec_owner_live k p so i o (Q : unit -> client_world -> Prop) w :
  find_owner so (owners_of k i) = Some o -> 1 < so_refcount o ->
  Q tt (with_id p (set_owners k (on_owner so drop_ref (owners_of k i)) i) w) ->
  wp (dec_state_owner_ref k p so) Q (with_id p i w).
Proof.
  intros Hf Hr HQ.
  assert (forall dec, wp (dec_state_owner_ref_ dec k p so) Q (with_id p i w)) as Hd.
  { intros dec. unfold dec_state_owner_ref_. apply wp_bind, wp_get_with. rewrite Hf.
    apply wp_bind, wp_upd_owner_with.
    replace (so_refcount o - 1 =? 0) with false by (symmetry; apply Z.eqb_neq; lia).
    cbn [negb]. unfold assert_that. rewrite (proj2 (Z.ltb_lt _ _)) by lia. by apply wp_ret. }
  destruct k; apply Hd.
Qed.

Lemma set_owners_twice k l l' i : set_owners k l (set_owners k l' i) = set_owners k l i.
Proof. by destruct k. Qed.

Lemma owners_of_set k l i : owners_of k (set_owners k l i) = l.
Proof. by destruct k. Qed.

Lemma open_body p so sid i (Q : nfsstat4 -> client_world -> Prop) w :
  own_ok i -> Q NFS4_OK (with_id p (opened so sid i) w) ->
  wp (create_nfs4_owner open_owner p so None;; state_add open_owner p so sid;;
      dec_state_owner_ref open_owner p so;; mret NFS4_OK) Q (with_id p i w).
Proof.
  intros H HQ. unfold create_nfs4_owner, opened in *. cbn [owners_of].
  apply wp_bind, wp_bind, wp_get_with. cbn [owners_of].
  destruct (find_owner so (cid_openowners i)) as [o|] eqn:Ef.
  - apply wp_bind, wp_upd_owner_with, wp_ret, wp_bind. unfold state_add. apply wp_upd_owner_with.
    rewrite set_owners_twice, owners_of_set. cbn [owners_of]. rewrite on_owner_comp by done.
    destruct (find_owner_some _ _ _ Ef) as [Ho _]. destruct (own_open i H o Ho) as (_ & Hp & Hc).
    apply wp_bind. eapply dec_owner_live.
    + rewrite owners_of_set, find_owner_on, Ef by done. done.
    + cbn. unfold b2z in *. destruct (so_cached o); lia.
    + rewrite set_owners_twice, owners_of_set, on_owner_comp by done. apply wp_ret.
      cbn [set_owners]. erewrite on_owner_ext; [exact HQ|]. intros o' _ _.
      unfold drop_ref, add_open, set_so_refcount. cbn. f_equal. unfold b2z. destruct (so_cached o'); lia.
  - apply find_owner_none in Ef. apply wp_bind, wp_ret, wp_bind. unfold inc_client_id_ref.
    apply wp_upd_with, wp_bind, wp_upd_with, wp_ret. cbn [owners_of set_owners cid_openowners set_cid_refcount].
    apply wp_bind. unfold state_add. apply wp_upd_owner_with.
    cbn [owners_of set_owners cid_openowners set_cid_openowners].
    rewrite on_owner_last by done. cbn [so_ptr so_refcount so_state_list so_cached so_related_owner app].
    apply wp_bind. eapply dec_owner_live.
    + cbn [owners_of set_owners cid_openowners set_cid_openowners]. by apply find_owner_last.
    + done.
    + cbn [owners_of set_owners cid_openowners set_cid_openowners]. rewrite on_owner_last by done.
      apply wp_ret, HQ.
Qed.

Lemma set_lockowners_id i : set_cid_lockowners (cid_lockowners i) i = i.
Proof. by destruct i. Qed.

Lemma lock_body p so related sid i (Q : nfsstat4 -> client_world -> Prop) w :
  own_ok i -> Q NFS4ERR_RESOURCE (with_id p i w) ->
  Q NFS4_OK (with_id p (locked so related sid i) w) ->
  wp (ok ← create_nfs4_owner lock_owner p so (Some related);
      if negb ok then mret NFS4ERR_RESOURCE else
      state_add lock_owner p so sid;; dec_state_owner_ref lock_owner p so;; mret NFS4_OK)
    Q (with_id p i w).
Proof.
  intros H HQ1 HQ2. unfold create_nfs4_owner, locked in *.
  apply wp_bind, wp_bind, wp_get_with. cbn [owners_of].
  destruct (find_owner so (cid_lockowners i)) as [o|] eqn:Ef.
  - destruct (find_owner_some _ _ _ Ef) as [Ho _].
    destruct (own_lock i H o Ho) as (_ & Hc & oo & _ & Er).
    assert (1 <= so_refcount o) as H1.
    { pose proof (own_lock_states i H o Ho). destruct (so_state_list o); [done|]. rewrite Hc. cbn. lia. }
    apply wp_bind, wp_upd_owner_with. rewrite Er.
    destruct (decide (so_ptr oo = related)).
    + apply wp_ret. cbn [negb]. apply wp_bind. unfold state_add. apply wp_upd_owner_with.
      rewrite set_owners_twice, owners_of_set. cbn [owners_of]. rewrite on_owner_comp by done.
      apply wp_bind. eapply dec_owner_live.
      * rewrite owners_of_set, find_owner_on, Ef by done. done.
      * cbn. destruct (so_cached o); lia.
      * rewrite set_owners_twice, owners_of_set, on_owner_comp by done. apply wp_ret.
        cbn [set_owners]. erewrite on_owner_ext; [exact HQ2|]. intros o' Ho' _.
        destruct (own_lock i H o' Ho') as (Ec & _). unfold drop_ref, add_lock, set_so_refcount. cbn.
        rewrite Ec. f_equal. lia.
    + apply wp_bind. eapply dec_owner_live.
      * rewrite owners_of_set, find_owner_on by done. cbn [owners_of]. by rewrite Ef.
      * cbn. destruct (own_lock i H o Ho) as (-> & _). lia.
      * rewrite set_owners_twice, owners_of_set, on_owner_comp by done. apply wp_ret, wp_ret.
        cbn [set_owners owners_of]. rewrite on_owner_id; [by rewrite set_lockowners_id|].
        intros o' Ho' _. destruct (own_lock i H o' Ho') as (Ec & _).
        unfold drop_ref, set_so_refcount. destruct o'. cbn in *. rewrite Ec. f_equal. lia.
  - apply find_owner_none in Ef. apply wp_bind. unfold inc_state_owner_ref. apply wp_upd_owner_with.
    apply wp_bind. unfold inc_client_id_ref. apply wp_upd_with, wp_bind, wp_upd_with, wp_ret.
    cbn [owners_of set_owners cid_openowners cid_lockowners set_cid_openowners set_cid_refcount negb].
    apply wp_bind. unfold state_add. apply wp_upd_owner_with.
    cbn [owners_of set_owners cid_lockowners set_cid_lockowners].
    rewrite on_owner_last by done. cbn [so_ptr so_refcount so_state_list so_cached so_related_owner app].
    apply wp_bind. eapply dec_owner_live.
    + cbn [owners_of set_owners cid_lockowners set_cid_lockowners]. by apply find_owner_last.
    + done.
    + cbn [owners_of set_owners cid_lockowners set_cid_lockowners]. rewrite on_owner_last by done.
      apply wp_ret, HQ2.
Qed.

(** A close that leaves the owner, or the client id, in place. *)
Lemma close_kept k p so sid i o (Q : unit -> client_world -> Prop) w :
  own_ok i -> find_owner so (owners_of k i) = Some o -> sid ∈ so_state_list o ->
  k = open_owner \/ glist_del_state sid (so_state_list o) <> [] ->
  (forall i2, own_ok i2 -> calm_id i i2 -> cb_session_list i2 = cb_session_list i ->
     cid_refcount i2 = cid_refcount i -> length (cid_openowners i2) = length (cid_openowners i) ->
     length (cid_lockowners i2) = length (cid_lockowners i) -> Q tt (with_id p i2 w)) ->
  wp (state_del k p so sid) Q (with_id p i w).
Proof.
  intros H Hf Hs Hk HQ. unfold state_del. apply wp_bind, wp_get_with. rewrite Hf.
  destruct (find_owner_some _ _ _ Hf) as [Ho _].
  pose proof (glist_del_state_length sid _ Hs) as Hlen.
  destruct (glist_del_state sid (so_state_list o)) as [|s l] eqn:Eg.
  - destruct k; [|by destruct Hk]. cbn [owners_of] in *.
    apply wp_bind, wp_upd_owner_with, wp_ret. cbn [set_owners owners_of]. erewrite on_owner_ext.
    + apply HQ; [by eapply own_ok_retained|by destruct i|done|done| |done]. cbn. apply on_owner_length.
    + intros o' Ho' Eo'. done.
  - apply wp_bind. rewrite <- Eg in *.
    assert (match k with open_owner => false | lock_owner => false end = false) as -> by (by destruct k).
    apply wp_upd_owner_with. eapply dec_owner_live.
    + by rewrite owners_of_set, find_owner_on, Hf by done.
    + cbn. rewrite Eg in Hlen. cbn in Hlen. destruct k; cbn [owners_of] in Ho.
      * destruct (own_open i H o Ho) as (_ & _ & ->). unfold b2z. destruct (so_cached o); lia.
      * destruct (own_lock i H o Ho) as (_ & -> & _). lia.
    + rewrite set_owners_twice, owners_of_set, on_owner_comp by done.
      erewrite (on_owner_ext _ _ (closed (glist_del_state sid (so_state_list o)))) by done.
      assert (glist_del_state sid (so_state_list o) <> []) as Hne by (by rewrite Eg).
      destruct k; cbn [set_owners owners_of] in *; apply HQ; try done; try (by destruct i);
        try (cbn; apply on_owner_length); [by eapply own_ok_closed_open|by eapply own_ok_closed_lock].
Qed.

(** The last state of a lock owner takes the owner with it. *)
Lemma close_gone p so sid i o hi hr hs (Q : unit -> client_world -> Prop) w :
  inv hi hr hs None w -> w_ids w !! p = Some i ->
  find_owner so (cid_lockowners i) = Some o -> sid ∈ so_state_list o ->
  glist_del_state sid (so_state_list o) = [] ->
  (forall w', inv hi hr hs None w' ->
     shrinks (with_id p (drop_lock_owner o (filter (fun o => so_ptr o <> so) (cid_lockowners i)) i) w) w' ->
     Q tt w') ->
  wp (state_del lock_owner p so sid) Q (with_id p i w).
Proof.
  intros Hi Hp Hf Hs Eg HQ. pose proof (inv_own _ _ _ _ _ Hi p i Hp) as H.
  destruct (find_owner_some _ _ _ Hf) as [Ho _].
  destruct (own_lock i H o Ho) as (_ & Hc & oo & Hoo & Er).
  pose proof (glist_del_state_length sid _ Hs) as Hlen. rewrite Eg in Hlen.
  destruct (own_ok_gone_lock so o i H Hf) as [Hok Hl].
  set (rest := filter _ _) in *.
  assert (inv (p :: hi) hr hs None (with_id p (drop_lock_owner o rest i) w)) as Hd.
  { apply (inv_drop_owner _ _ _ _ _ i); try done; unfold drop_lock_owner; rewrite Er; try done.
    cbn. rewrite on_owner_length, Hl. lia. }
  unfold drop_lock_owner in Hd, HQ. rewrite Er in Hd, HQ.
  unfold state_del. apply wp_bind, wp_get_with. cbn [owners_of]. rewrite Hf, Eg.
  apply wp_bind, wp_upd_owner_with. unfold dec_state_owner_ref, dec_state_owner_ref_ at 1.
  apply wp_bind, wp_get_with. cbn [owners_of set_owners cid_lockowners set_cid_lockowners].
  rewrite find_owner_on, Hf by done. apply wp_bind, wp_upd_owner_with.
  cbn [fmap option_fmap option_map so_refcount so_related_owner]. rewrite Hc, Hlen, Er.
  change (Z.of_nat (length (@nil Z) + 1)%nat) with 1. cbn [Z.of_nat length Z.sub Z.eqb negb Z.add Z.opp Z.pos_sub Pos.of_succ_nat].
  apply wp_bind. cbn [set_owners owners_of cid_lockowners set_cid_lockowners]. rewrite on_owner_comp by done.
  eapply (dec_open_owner_live _ _ _ _ oo); [apply with_id_lookup| |..].
  - cbn. apply find_owner_elem; [apply H|done].
  - destruct (own_open i H oo Hoo) as (_ & ? & ->).
    assert (o ∈ filter (fun l => related_to (so_ptr oo) l = true) (cid_lockowners i)) as Hin.
    { apply list_elem_of_filter. split; [by apply bool_decide_eq_true|done]. }
    destruct (filter (fun l => related_to (so_ptr oo) l = true) (cid_lockowners i)); [by apply elem_of_nil in Hin|].
    cbn [length]. lia.
  - set (i1 := set_cid_lockowners _ _).
    change (wp (upd_id p (fun i => set_owners lock_owner (filter (fun o => so_ptr o <> so)
      (owners_of lock_owner i)) i);; dec_client_id_ref p) Q
      (with_id p (set_cid_openowners (on_owner (so_ptr oo) drop_ref (cid_openowners i)) i1) (with_id p i1 w))).
    rewrite with_id_twice. apply wp_bind, wp_upd_with.
    cbn [owners_of set_owners cid_lockowners set_cid_lockowners set_cid_openowners cid_openowners i1].
    rewrite filter_on_owner by done. apply (dec_client_id_ref_ok hi hr hs None); [exact Hd|exact HQ].
Qed.

(** ** The operations *)

Variables (c : list Z) (rv : bool) (w0 : client_world).

Lemma with_id_self p i w : w_ids w !! p = Some i -> with_id p i w = w.
Proof. intros Hp. unfold with_id. rewrite insert_id by done. by destruct w. Qed.

Lemma wp_self {A} (m : CM A) p i w Q : w_ids w !! p = Some i -> wp m Q (with_id p i w) -> wp m Q w.
Proof. intros Hp. by rewrite with_id_self. Qed.

Lemma calm_id_ident i i2 : calm_id i i2 ->
  ident i2 = ident i /\ cid_minorversion i2 = cid_minorversion i.
Proof. unfold calm_id. by intros ->. Qed.

Lemma st_owners sq res hi hr hs w p i i2 :
  st c rv w0 sq res hi hr hs w -> p ∈ hi -> w_ids w !! p = Some i -> own_ok i2 -> calm_id i i2 ->
  cb_session_list i2 = cb_session_list i ->
  cid_refcount i2 - Z.of_nat (length (cid_openowners i2)) - Z.of_nat (length (cid_lockowners i2))
  = cid_refcount i - Z.of_nat (length (cid_openowners i)) - Z.of_nat (length (cid_lockowners i)) ->
  st c rv w0 sq res hi hr hs (with_id p i2 w) /\ mild w (with_id p i2 w).
Proof.
  intros H Hin Hp Hown Hc Es Hrc. pose proof (st_inv _ _ _ _ _ _ _ _ _ H) as Hi.
  destruct (calm_id_ident _ _ Hc) as [Eid Em].
  assert (mild w (with_id p i2 w)) as Hm.
  { eapply mild_upd_id; try done; [by apply calm_mild_id|eauto]. }
  split; [|done]. eapply st_mild; [done|done|].
  assert (hashed (with_id p i2 w) p i2 = hashed w p i) as Eh.
  { injection Eid as Ec _ _. unfold hashed. by rewrite Ec. }
  eapply (inv_change _ _ _ _ _ _ _ _ p i i2); try done.
  - cbn. rewrite <- fmap_insert, (same_shape_ident _ _ i) by done. apply Hi.
  - cbn. eapply recs_ok_ids; [done| |apply Hi]. by injection Eid.
  - unfold id_refs, session_list. rewrite Eh, Es. lia.
  - destruct (held_usable _ _ _ _ _ _ Hi Hin) as (j & Hj & Hu). rewrite Hp in Hj. injection Hj as <-.
    rewrite Eh. injection Eid as _ -> _. tauto.
Qed.

Lemma open_body_st p so sid sq res hi hr hs w :
  st c rv w0 sq res hi hr hs w -> p ∈ hi ->
  wp (create_nfs4_owner open_owner p so None;; state_add open_owner p so sid;;
      dec_state_owner_ref open_owner p so;; mret NFS4_OK)
    (fun _ w' => st c rv w0 sq res hi hr hs w' /\ mild w w') w.
Proof.
  intros H Hin. pose proof (st_inv _ _ _ _ _ _ _ _ _ H) as Hi.
  destruct (inv_held _ _ _ _ _ Hi p Hin) as [i Hp]. pose proof (inv_own _ _ _ _ _ Hi p i Hp) as Ho.
  apply (wp_self _ p i w _ Hp), open_body; [done|].
  apply (st_owners sq res hi hr hs w p i); try done; [by apply own_ok_opened|..];
    unfold opened, calm_id; destruct (find_owner _ _); try (by destruct i); cbn.
  - rewrite on_owner_length. lia.
  - rewrite length_app. cbn. lia.
Qed.

Lemma lock_body_st p so related sid sq res hi hr hs w :
  st c rv w0 sq res hi hr hs w -> p ∈ hi ->
  wp (i ← get_id p;
      match find_owner related (cid_openowners i) with
      | None => mret NFS4ERR_BAD_STATEID
      | Some _ =>
          ok ← create_nfs4_owner lock_owner p so (Some related);
          if negb ok then mret NFS4ERR_RESOURCE else
          state_add lock_owner p so sid;;
          dec_state_owner_ref lock_owner p so;;
          mret NFS4_OK
      end)
    (fun _ w' => st c rv w0 sq res hi hr hs w' /\ mild w w') w.
Proof.
  intros H Hin. pose proof (st_inv _ _ _ _ _ _ _ _ _ H) as Hi.
  destruct (inv_held _ _ _ _ _ Hi p Hin) as [i Hp]. pose proof (inv_own _ _ _ _ _ Hi p i Hp) as Ho.
  wp_step. destruct (find_owner related _) as [oo|] eqn:Ef; [|apply wp_ret; split; [done|apply mild_refl]].
  destruct (find_owner_some _ _ _ Ef) as [Hoo Eoo].
  apply (wp_self _ p i w _ Hp), lock_body; [done| |].
  - rewrite (with_id_self p i w Hp). split; [done|apply mild_refl].
  - apply (st_owners sq res hi hr hs w p i); try done.
    + apply own_ok_locked; [done|]. apply list_elem_of_fmap. eauto.
    + unfold locked, calm_id. destruct (find_owner so (cid_lockowners i)); by destruct i.
    + unfold locked. by destruct (find_owner so (cid_lockowners i)).
    + unfold locked. destruct (find_owner so (cid_lockowners i)); cbn; rewrite ?on_owner_length, ?length_app; cbn; lia.
Qed.

Lemma close_body_st k p so sid sq res hi hr hs w :
  st c rv w0 sq res hi hr hs w -> p ∈ hi ->
  wp (i ← get_id p;
      match find_owner so (owners_of k i) with
      | Some o =>
          if bool_decide (sid ∈ so_state_list o)
          then state_del k p so sid;; mret NFS4_OK
          else mret NFS4ERR_BAD_STATEID
      | None => mret NFS4ERR_BAD_STATEID
      end)
    (fun _ w' => st c rv w0 sq res hi hr hs w' /\ mild w w') w.
Proof.
  intros H Hin. pose proof (st_inv _ _ _ _ _ _ _ _ _ H) as Hi.
  destruct (inv_held _ _ _ _ _ Hi p Hin) as [i Hp]. pose proof (inv_own _ _ _ _ _ Hi p i Hp) as Ho.
  assert (st c rv w0 sq res hi hr hs w /\ mild w w) as Hsame by (split; [done|apply mild_refl]).
  wp_step. destruct (find_owner so _) as [o|] eqn:Ef; [|by apply wp_ret].
  destruct (bool_decide (sid ∈ so_state_list o)) eqn:Es; [|by apply wp_ret].
  apply bool_decide_eq_true in Es. apply wp_bind, (wp_self _ p i w _ Hp).
  assert (k = open_owner \/ glist_del_state sid (so_state_list o) <> [] \/
          (k = lock_owner /\ glist_del_state sid (so_state_list o) = [])) as Hcase
    by (destruct k; [by left|]; destruct (glist_del_state _ _); auto).
  destruct Hcase as [Hk|[Hk|[-> Hg]]].
  1,2: eapply close_kept; [done|done|done|tauto|]; intros i2 Hok Hc Ecb Er E1 E2; apply wp_ret;
    apply (st_owners sq res hi hr hs w p i); try done; lia.
  eapply close_gone; [done|done|done|done|done|]. intros w' Hw' Hs. apply wp_ret.
  assert (mild w w') as Hm.
  { eapply mild_calm; [|by apply shrinks_calm].
    eapply mild_upd_id; try done; [apply calm_mild_id, calm_drop_lock|eauto]. }
  split; [|done]. eapply st_mild; [done|done|done].
Qed.

(** The number of a client id that an operation holds stays. *)
Lemma held_number hi hr hs w w' p i :
  inv hi hr hs None w' -> p ∈ hi -> mild w w' -> w_ids w !! p = Some i ->
  exists i', w_ids w' !! p = Some i' /\ cid_clientid i' = cid_clientid i.
Proof.
  intros H Hp Hm Hi. destruct (inv_held _ _ _ _ _ H p Hp) as [i' Hi'].
  destruct (mild_ids _ _ Hm p i' Hi') as (j & Hj & [E _ _ _ _ _]). exists i'. split; [done|]. congruence.
Qed.

Lemma with_lease_st minorversion clientid body sq res hi hr hs w
    (Q : nfsstat4 -> client_world -> Prop) :
  st c rv w0 sq res hi hr hs w -> clientid ∈ c ->
  (forall p res' w1, st c rv w0 sq res' (p :: hi) hr hs w1 ->
     wp (body p) (fun _ w2 => st c rv w0 sq res' (p :: hi) hr hs w2 /\ mild w1 w2) w1) ->
  (forall status w', st c rv w0 sq res hi hr hs w' -> Q status w') ->
  wp (with_lease minorversion clientid body) Q w.
Proof.
  intros H Ec Hbody HQ. unfold with_lease. apply wp_bind. eapply lookup_st; [done|..].
  { intros rc w1 H1 _ _. by apply wp_ret, HQ. }
  intros p i Hp _ Ek _ w1 H1. set (j := set_cid_refcount (cid_refcount i + 1) i) in *.
  assert (w_ids w1 !! p = Some j) as Hj by apply lookup_insert_eq.
  destruct (minorversion =? 0).
  - apply wp_bind. eapply reserve_st; [done|done|cbn; by rewrite Ek|..].
    { intros _. cbn [negb]. apply wp_bind. eapply dec_id_st; [done|]. intros w2 H2 _.
      by apply wp_ret, HQ. }
    intros j' w2 _ H2. cbn [negb]. apply wp_bind. eapply wp_mono; [by apply Hbody|].
    intros status w3 [H3 Hm3]. cbn beta.
    assert (w_ids w2 !! p = Some j') as Hj' by apply lookup_insert_eq.
    destruct (held_number (p :: hi) hr hs w2 w3 p j') as (k & Hk & Ekk); [apply H3|by left|done|done|].
    apply wp_bind. eapply update_st; [done|done|rewrite Ekk; cbn; by rewrite Ek|]. intros w4 H4.
    apply wp_bind. eapply dec_id_st; [done|]. intros w5 H5 _. by apply wp_ret, HQ.
  - apply wp_bind, wp_ret. cbn [negb]. apply wp_bind. eapply wp_mono; [by apply Hbody|].
    intros status w3 [H3 Hm3]. cbn beta. apply wp_bind, wp_ret, wp_bind.
    eapply dec_id_st; [done|]. intros w5 H5 _. by apply wp_ret, HQ.
Qed.

Lemma client_open_st minorversion clientid so sid sq res hi hr hs w
    (Q : nfsstat4 -> client_world -> Prop) :
  st c rv w0 sq res hi hr hs w -> clientid ∈ c ->
  (forall status w', st c rv w0 sq res hi hr hs w' -> Q status w') ->
  wp (client_open minorversion clientid so sid) Q w.
Proof.
  intros H Ec HQ. eapply with_lease_st; [done|done| |done].
  intros p res' w1 H1. apply open_body_st; [done|by left].
Qed.

Lemma client_lock_st minorversion clientid so related sid sq res hi hr hs w
    (Q : nfsstat4 -> client_world -> Prop) :
  st c rv w0 sq res hi hr hs w -> clientid ∈ c ->
  (forall status w', st c rv w0 sq res hi hr hs w' -> Q status w') ->
  wp (client_lock minorversion clientid so related sid) Q w.
Proof.
  intros H Ec HQ. eapply with_lease_st; [done|done| |done].
  intros p res' w1 H1. apply lock_body_st; [done|by left].
Qed.

Lemma client_close_st minorversion clientid k so sid sq res hi hr hs w
    (Q : nfsstat4 -> client_world -> Prop) :
  st c rv w0 sq res hi hr hs w -> clientid ∈ c ->
  (forall status w', st c rv w0 sq res hi hr hs w' -> Q status w') ->
  wp (client_close minorversion clientid k so sid) Q w.
Proof.
  intros H Ec HQ. eapply with_lease_st; [done|done| |done].
  intros p res' w1 H1. apply close_body_st; [done|by left].
Qed.

Lemma nfs4_op_renew_st rq clientid sq res hi hr hs w (Q : nfsstat4 -> client_world -> Prop) :
  st c rv w0 sq res hi hr hs w -> clientid ∈ c ->
  (forall status w', st c rv w0 sq res hi hr hs w' -> Q status w') ->
  wp (nfs4_op_renew rq clientid) Q w.
Proof.
  intros H Ec HQ. unfold nfs4_op_renew. destruct (_ <? _); [by apply wp_ret, HQ|].
  apply wp_bind. eapply lookup_st; [done|..].
  { intros rc w1 H1 _ _. by apply wp_ret, HQ. }
  intros p i Hp _ Ek _ w1 H1. set (j := set_cid_refcount (cid_refcount i + 1) i) in *.
  assert (w_ids w1 !! p = Some j) as Hj by apply lookup_insert_eq.
  assert (forall status w2, st c rv w0 sq res (p :: hi) hr hs w2 ->
    wp (dec_client_id_ref p;; mret status) Q w2) as Hend.
  { intros status w2 H2. apply wp_bind. eapply dec_id_st; [done|]. intros w3 H3 _.
    by apply wp_ret, HQ. }
  apply wp_bind. eapply reserve_st; [done|done|cbn; by rewrite Ek|..].
  { intros _. cbn [negb]. apply wp_bind, wp_ret. by apply Hend. }
  intros j' w2 _ H2. cbn [negb]. apply wp_bind, wp_bind.
  assert (w_ids w2 !! p = Some j') as Hj' by apply lookup_insert_eq.
  eapply update_st; [done|done|cbn; by rewrite Ek|]. intros w3 H3.
  destruct (inv_held _ _ _ _ _ (st_inv _ _ _ _ _ _ _ _ _ H3) p ltac:(by left)) as [k Hk].
  wp_step. wp_step.
  assert (forall t, st c rv w0 sq res (p :: hi) hr hs
    (set_w_ids (<[p := set_first_path_down_resp_time t k]> (w_ids w3)) w3)) as Hput.
  { intros t. eapply st_mild; [exact H3| |].
    - eapply mild_upd_id; try done; [by split; auto|eauto].
    - eapply inv_upd_id; [apply H3|done|by repeat split|done]. }
  destruct (_ && _); apply wp_bind, wp_modify, wp_ret, Hend, Hput.
Qed.
End state.
