(* ===== verification/ClientReaper.v ===== *)
(** * Client identities of NFSv4: expiry by the server

    The reaper and the release of an address keep the invariant.  The reaper
    ends, and of a table of client ids it removes exactly those whose lease
    has lapsed. *)
From S2P Require Import Prelude Status Owners ClientData ClientOps ClientInv ClientLife ClientFrame ClientSafe.

Section reaper.
Context `{Env : ClientEnv} {Laws : OwnerLaws}.
Variables (c : list Z) (rv : bool) (w0 : client_world).

(** The references to records with that of a client id, if it has one. *)
Definition with_rec (ro : option positive) (hr : list positive) : list positive :=
  match ro with Some r => r :: hr | None => hr end.

Lemma reap_pin_st p i sq res hi hr hs w (Q : option positive -> client_world -> Prop) :
  st c rv w0 sq res hi hr hs w -> w_ids w !! p = Some i -> usable w p ->
  (forall w', st c rv w0 sq res (p :: hi) (with_rec (cid_client_record i) hr) hs w' ->
     mild w w' -> w_ids w' = <[p := set_cid_refcount (cid_refcount i + 1) i]> (w_ids w) ->
     (forall ht, table_of ht w' = table_of ht w) ->
     Q (cid_client_record i) w') ->
  wp (reap_pin p) Q w.
Proof.
  intros H Hp Hu HQ. unfold reap_pin. wp_step. apply wp_bind.
  eapply inc_id_st; [done|done|]. intros j Hj w1 H1. rewrite Hp in Hj. injection Hj as <-.
  assert (mild w w1) as Hm1 by (eapply mild_upd_id; try done; [by split; auto|eauto]).
  destruct (cid_client_record i) as [r|] eqn:Er.
  - apply wp_bind. eapply inc_rec_st; [done| |].
    { eapply (inv_link_some _ _ _ _ w); [apply H|done|done]. }
    intros x Hx w2 H2. apply wp_ret, HQ; [done| |done|by intros []].
    split; try done; [apply (mild_ids _ _ Hm1)|].
    cbn. intros q y Hy. right. eapply same_flags; [exact Hx| |exact Hy]. done.
  - apply wp_bind, wp_ret, wp_ret, HQ; [done|done|done|by intros []].
Qed.

#[local] Instance cid_table_eq_dec : EqDecision cid_table.
Proof. solve_decision. Defined.

(** What the expiry of a client id does to the tables. *)
Definition expired_table (ht : cid_table) (i : nfs_client_id_t) (w : client_world) : gmap Z positive :=
  if decide (cid_confirmed i <> EXPIRED_CLIENT_ID /\ ht = table_for (cid_confirmed i))
  then delete (cid_clientid i) (table_of ht w)
  else table_of ht w.

Lemma expire_mark_table ht p i w :
  cid_confirmed i <> EXPIRED_CLIENT_ID ->
  table_of ht (expire_mark p false i w) = expired_table ht i w.
Proof.
  intros Hne. unfold expired_table, expire_mark.
  destruct ht, (table_for (cid_confirmed i)) eqn:E; cbn;
    (destruct (decide _) as [[_ Ht]|Hn]; [|try (destruct Hn; done)]); done.
Qed.

Lemma calm_table ht w w' : calm w w' -> table_of ht w' = table_of ht w.
Proof. intros H. destruct ht; apply H. Qed.

Lemma reap_expire_st p i ro sq res hi hr hs w (Q : unit -> client_world -> Prop) :
  st c rv w0 sq res (p :: hi) (with_rec ro hr) hs w -> w_ids w !! p = Some i ->
  (forall w', st c rv w0 sq res hi hr hs w' -> mild w w' ->
     (forall ht, table_of ht w' = expired_table ht i w) -> Q tt w') ->
  wp (reap_expire p ro) Q w.
Proof.
  intros H Hp HQ. unfold reap_expire.
  assert (forall w1, st c rv w0 sq res (p :: hi) (with_rec ro hr) hs w1 -> mild w w1 ->
    (forall ht, table_of ht w1 = expired_table ht i w) ->
    wp (match ro with Some r => dec_client_record_ref r | None => mret tt end;;
        dec_client_id_ref p) Q w1) as Hrest.
  { intros w1 H1 Hm1 Ht1. apply wp_bind. destruct ro as [r|].
    - eapply dec_rec_st; [done|]. intros w2 H2 [Hs2 _]. eapply dec_id_st; [done|]. intros w3 H3 Hs3.
      apply HQ; [done| |].
      + eapply mild_calm; [|by apply shrinks_calm]. eapply mild_calm; [done|by apply shrinks_calm].
      + intros ht. rewrite (calm_table ht w2), (calm_table ht w1) by (by apply shrinks_calm). apply Ht1.
    - apply wp_ret. eapply dec_id_st; [done|]. intros w3 H3 Hs3. apply HQ; [done| |].
      + eapply mild_calm; [done|by apply shrinks_calm].
      + intros ht. rewrite (calm_table ht w1) by (by apply shrinks_calm). apply Ht1. }
  apply wp_bind. eapply (expire_st c rv w0 false); [done|by left|done|done|..].
  - intros Ex. apply Hrest; [done|apply mild_refl|]. intros ht. unfold expired_table.
    by rewrite decide_False by (intros [? _]; done).
  - intros w1 Hne H1 Hc1. apply Hrest; [done| |].
    + eapply mild_calm; [by apply expire_mark_mild|done].
    + intros ht. rewrite (calm_table _ _ _ Hc1). by apply expire_mark_table.
Qed.

(** ** One bucket *)

Definition lease_ok (w : client_world) (p : positive) : Prop :=
  forall i, w_ids w !! p = Some i -> valid_lease (w_time w) i = true.

(** The entries of the table [ht] with [P] whose lease has lapsed are gone,
    and nothing else is. *)
Definition reaped (P : Z -> Prop) (ht : cid_table) (w w' : client_world) : Prop :=
  (forall k p, table_of ht w' !! k = Some p <->
     table_of ht w !! k = Some p /\ (P k -> lease_ok w p)) /\
  forall ht', ht' <> ht -> table_of ht' w' = table_of ht' w.

Lemma lease_ok_mild hi hr hs w w' ht k p :
  inv hi hr hs None w' -> mild w w' -> table_of ht w' !! k = Some p ->
  lease_ok w p <-> lease_ok w' p.
Proof.
  intros H Hm Ht. destruct (table_entry _ _ _ _ _ _ _ H Ht) as (i' & Hi' & _ & Hh & _).
  destruct (mild_ids _ _ Hm p i' Hi') as (i & Hi & Hid).
  destruct (hashed_in _ _ _ _ _ _ _ H Hi' Hh) as (Hne & _).
  assert (valid_lease (w_time w') i' = valid_lease (w_time w) i) as E.
  { rewrite (mild_time _ _ Hm). destruct Hid as [_ _ E1 E2 E3 _].
    unfold valid_lease, lease_left. rewrite E1, E2.
    rewrite (decide_False (P := cid_confirmed i' = EXPIRED_CLIENT_ID)) by done.
    rewrite (decide_False (P := cid_confirmed i = EXPIRED_CLIENT_ID)) by auto. done. }
  unfold lease_ok. rewrite Hi, Hi'. split; intros HL j [= <-]; [rewrite E|rewrite <- E]; auto.
Qed.

Lemma reaped_trans P1 P2 ht hi hr hs w1 w2 w3 :
  inv hi hr hs None w2 -> mild w1 w2 ->
  reaped P1 ht w1 w2 -> reaped P2 ht w2 w3 -> reaped (fun k => P1 k \/ P2 k) ht w1 w3.
Proof.
  intros H Hm [H1 H1'] [H2 H2']. split.
  - intros k p. rewrite H2. split.
    + intros [Hk HP2]. pose proof (lease_ok_mild _ _ _ _ _ _ _ _ H Hm Hk) as HL.
      apply H1 in Hk as [Hk HP1]. split; [done|]. intros [?|?]; [auto|]. apply HL. auto.
    + intros [Hk HP]. assert (table_of ht w2 !! k = Some p) as Hk2 by (apply H1; auto).
      pose proof (lease_ok_mild _ _ _ _ _ _ _ _ H Hm Hk2) as HL.
      split; [done|]. intros ?. apply HL. auto.
  - intros ht' Hne. by rewrite H2', H1'.
Qed.

Lemma bucket_elem ht index w p :
  p ∈ bucket ht index w <->
  exists k, table_of ht w !! k = Some p /\ client_id_value_hash_func k = index.
Proof.
  unfold bucket. rewrite list_elem_of_fmap. split.
  - intros ([k q] & -> & [Hk Hin]%list_elem_of_filter). exists k. split; [|done].
    by apply elem_of_map_to_list in Hin.
  - intros (k & Hk & E). exists (k, p). split; [done|]. apply list_elem_of_filter. split; [done|].
    by apply elem_of_map_to_list.
Qed.

Lemma bucket_delete ht index w w' k p :
  table_of ht w !! k = Some p -> client_id_value_hash_func k = index ->
  table_of ht w' = delete k (table_of ht w) ->
  length (bucket ht index w) = S (length (bucket ht index w')).
Proof.
  intros Hk Eh E. unfold bucket. rewrite E.
  rewrite <- (insert_delete_id (table_of ht w) k p Hk) at 1.
  rewrite map_to_list_insert by apply lookup_delete_eq.
  rewrite filter_cons, decide_True by done. rewrite fmap_cons. done.
Qed.

(** The walk finds the first client id whose lease has lapsed. *)
Lemma reap_scan_ok l w (Q : Z * option positive -> client_world -> Prop) :
  (forall p, p ∈ l -> is_Some (w_ids w !! p)) ->
  (forall n, (forall p, p ∈ l -> lease_ok w p) -> Q (n, None) w) ->
  (forall n p, p ∈ l -> ~ lease_ok w p -> Q (n, Some p) w) ->
  wp (reap_scan l) Q w.
Proof.
  intros Hl. revert Q. induction l as [|p l IH]; intros Q HQ1 HQ2; cbn [reap_scan].
  { apply wp_ret, HQ1. by intros p ?%elem_of_nil. }
  destruct (Hl p) as [i Hi]; [by left|]. wp_step. wp_step.
  destruct (valid_lease (w_time w) i) eqn:Ev.
  - apply wp_bind. apply IH; [intros q Hq; apply Hl; by right|..].
    + intros n Hn. apply wp_ret, HQ1. intros q [->|Hq]%elem_of_cons; [|auto].
      intros j Hj. congruence.
    + intros n q Hq Hn. apply wp_ret, HQ2; [by right|done].
  - apply wp_ret, HQ2; [by left|]. intros HL. rewrite (HL i Hi) in Ev. done.
Qed.

Lemma reap_bucket_st ht index n count sq res hi hr hs w :
  st c rv w0 sq res hi hr hs w -> (length (bucket ht index w) <= n)%nat ->
  wp (reap_bucket ht index n count) (fun _ w' => st c rv w0 sq res hi hr hs w' /\ mild w w' /\
    reaped (fun k => client_id_value_hash_func k = index) ht w w') w.
Proof.
  revert count w. induction n as [|n IH]; intros count w H Hn; cbn [reap_bucket]; wp_step;
    pose proof (st_inv _ _ _ _ _ _ _ _ _ H) as Hi.
  all: assert (forall p, p ∈ bucket ht index w -> is_Some (w_ids w !! p)) as Hex
    by (intros p (k & Hk & _)%bucket_elem; destruct (table_entry _ _ _ _ _ _ _ Hi Hk) as (i & ? & _); eauto).
  all: apply wp_bind, reap_scan_ok; [done|intros m Hall; apply wp_ret|].
  1,3: split; [done|]; split; [apply mild_refl|]; split; [|done]; intros k p; split; [|tauto];
    intros Hk; split; [done|]; intros Eh; apply Hall, bucket_elem; eauto.
  - intros m p Hp _. destruct (bucket ht index w); [by apply elem_of_nil in Hp|cbn in Hn; lia].
  - intros m p Hp Hlapsed. apply bucket_elem in Hp as (k & Hk & Eh).
    destruct (table_entry _ _ _ _ _ _ _ Hi Hk) as (i & Hpi & Ek & Hh & Hst).
    apply wp_bind. eapply reap_pin_st; [done|done|by eapply table_usable|].
    intros w1 H1 Hm1 Ei1 Ht1. apply wp_bind.
    eapply reap_expire_st; [done|by rewrite Ei1, lookup_insert_eq|].
    intros w2 H2 Hm2 Ht2.
    assert (ht = table_for (cid_confirmed i) /\ cid_confirmed i <> EXPIRED_CLIENT_ID) as [Eht Hne].
    { destruct ht; [destruct Hst as [-> | ->]|destruct Hst as (-> & _)]; done. }
    assert (forall ht', table_of ht' w2 = if decide (ht' = ht) then delete k (table_of ht' w) else table_of ht' w) as Ht.
    { intros ht'. rewrite Ht2. unfold expired_table. cbn. rewrite Ek, Ht1.
      destruct (decide (ht' = ht)) as [->|?]; [by rewrite decide_True|].
      rewrite decide_False; [done|]. intros [_ E]. congruence. }
    assert (mild w w2) as Hm by (by eapply mild_trans).
    assert (reaped (fun k' => k' = k) ht w w2) as Hr2.
    { split; [|intros ht' Hne'; by rewrite Ht, decide_False].
      intros k' p'. rewrite Ht, decide_True, lookup_delete_Some by done. split.
      - intros [Hk' Hp']. split; [done|]. congruence.
      - intros [Hp' HP]. split; [|done]. intros <-. assert (p' = p) as -> by congruence. auto. }
    eapply wp_mono; [apply IH; [done|]|].
    + rewrite (bucket_delete ht index w w2 k p Hk Eh) in Hn; [lia|]. by rewrite Ht, decide_True.
    + intros m' w3 (H3 & Hm3 & Hr3). split; [done|]. split; [by eapply mild_trans|].
      destruct (reaped_trans _ _ _ _ _ _ _ _ _ (st_inv _ _ _ _ _ _ _ _ _ H2) Hm Hr2 Hr3) as [Hr Hr'].
      split; [|done]. intros k' p'. rewrite Hr. split; intros [? HP]; split; try done; [tauto|].
      intros [->|?]; auto.
Qed.

(** ** The tables *)

Lemma reap_buckets_st ht n index count sq res hi hr hs w :
  st c rv w0 sq res hi hr hs w ->
  wp (reap_buckets ht n index count) (fun _ w' => st c rv w0 sq res hi hr hs w' /\ mild w w' /\
    reaped (fun k => index <= client_id_value_hash_func k < index + Z.of_nat n) ht w w') w.
Proof.
  revert index count w. induction n as [|n IH]; intros index count w H; cbn [reap_buckets].
  { apply wp_ret. split; [done|]. split; [apply mild_refl|]. split; [|done]. intros k p.
    split; [|tauto]. intros ?. split; [done|]. lia. }
  wp_step. apply wp_bind. eapply wp_mono; [by apply reap_bucket_st|].
  intros m w1 (H1 & Hm1 & Hr1). cbn beta. eapply wp_mono; [by apply IH|].
  intros m' w2 (H2 & Hm2 & Hr2). split; [done|]. split; [by eapply mild_trans|].
  destruct (reaped_trans _ _ _ _ _ _ _ _ _ (st_inv _ _ _ _ _ _ _ _ _ H1) Hm1 Hr1 Hr2) as [Hr Hr'].
  split; [|done]. intros k p. rewrite Hr. split; intros [? HP]; (split; [done|]); intros ?; apply HP; lia.
Qed.

Lemma reap_hash_table_st ht sq res hi hr hs w :
  st c rv w0 sq res hi hr hs w ->
  wp (reap_hash_table ht) (fun _ w' => st c rv w0 sq res hi hr hs w' /\ mild w w' /\
    reaped (fun _ => True) ht w w') w.
Proof.
  intros H. unfold reap_hash_table. eapply wp_mono; [by apply reap_buckets_st|].
  intros m w' (H' & Hm & Hr & Hr'). split; [done|]. split; [done|]. split; [|done].
  intros k p. rewrite Hr.
  assert (0 <= client_id_value_hash_func k < 0 + Z.of_nat (Z.to_nat PRIME_STATE)) as Hk
    by (apply Z.mod_pos_bound; done).
  tauto.
Qed.

Lemma reap_client_ids_st sq res hi hr hs w :
  st c rv w0 sq res hi hr hs w ->
  wp reap_client_ids (fun _ w' => st c rv w0 sq res hi hr hs w' /\ mild w w' /\
    forall ht k p, table_of ht w' !! k = Some p <-> table_of ht w !! k = Some p /\ lease_ok w p) w.
Proof.
  intros H. unfold reap_client_ids. apply wp_bind. eapply wp_mono; [by apply reap_hash_table_st|].
  intros n w1 (H1 & Hm1 & Hr1 & Hr1'). cbn beta. apply wp_bind.
  eapply wp_mono; [by apply reap_hash_table_st|]. intros m w2 (H2 & Hm2 & Hr2 & Hr2'). apply wp_ret.
  split; [done|]. split; [by eapply mild_trans|]. intros ht k p. destruct ht.
  - rewrite Hr2', Hr1 by done. tauto.
  - rewrite Hr2. rewrite (Hr1' unconfirmed_table) by done. split.
    + intros [Hk HL]. split; [done|]. rewrite <- (Hr1' unconfirmed_table) in Hk by done.
      apply (lease_ok_mild _ _ _ _ _ _ _ _ (st_inv _ _ _ _ _ _ _ _ _ H1) Hm1 Hk). auto.
    + intros [Hk HL]. split; [done|]. intros _. rewrite <- (Hr1' unconfirmed_table) in Hk by done.
      by apply (lease_ok_mild _ _ _ _ _ _ _ _ (st_inv _ _ _ _ _ _ _ _ _ H1) Hm1 Hk).
Qed.

Lemma nfs_release_v4_client_st ip_match sq res hi hr hs w (Q : unit -> client_world -> Prop) :
  st c rv w0 sq res hi hr hs w ->
  (forall w', st c rv w0 sq res hi hr hs w' -> Q tt w') ->
  wp (nfs_release_v4_client ip_match) Q w.
Proof.
  intros H HQ. unfold nfs_release_v4_client. wp_step. wp_step.
  destruct (List.find _ _) as [p|] eqn:Ef; [|by apply wp_ret, HQ].
  apply List.find_some in Ef as [Hin Hc]. unfold release_candidate in Hc.
  destruct (w_ids w !! p) as [i|] eqn:Hp; [|done].
  apply andb_true_iff in Hc as [Hst%bool_decide_eq_true _].
  apply list_elem_of_In, list_elem_of_fmap in Hin as ([k q] & -> & Hk%elem_of_map_to_list).
  apply wp_bind. eapply reap_pin_st; [done|done|by eapply (table_usable _ _ _ _ confirmed_table); [apply H|]|].
  intros w1 H1 Hm1 Ei1 _. apply wp_bind.
  eapply (expire_st c rv w0 true); [done|by left|by rewrite Ei1, lookup_insert_eq|done|cbn; congruence|].
  intros w2 _ H2 _. apply wp_bind. destruct (cid_client_record i) as [r|].
  - eapply dec_rec_st; [done|]. intros w3 H3 _. eapply dec_id_st; [done|]. intros w4 H4 _. by apply HQ.
  - apply wp_ret. eapply dec_id_st; [done|]. intros w4 H4 _. by apply HQ.
Qed.
End reaper.
