(* ===== verification/CompoundSafe.v ===== *)
(** * Compounds of NFSv4: the state of a compound in progress

    A compound that has passed SEQUENCE holds its session and a reservation
    of the lease of its client id until it ends.  The operations and the end
    of a compound are steps of the state of ClientFrame.v with what the
    compounds in progress hold, and none of them uses what was freed. *)
From S2P Require Import Prelude Status Owners ClientData ClientOps Compound ClientInv ClientLife SessionKeep ClientFrame ClientSafe ClientSessions ClientState.

(** ** Sessions while compounds run *)

(** A session whose reference count and slots may have changed. *)
Record same_session (x x' : nfs41_session_t) : Prop := {
  ss_id : session_id x' = session_id x;
  ss_clientid : session_clientid x' = session_clientid x;
  ss_record : clientid_record x' = clientid_record x;
  ss_maxrequests : ca_maxrequests x' = ca_maxrequests x;
  ss_slots : length (slots x') = length (slots x)
}.

Definition has_slots (x : nfs41_session_t) : Prop :=
  ca_maxrequests x = Z.of_nat NFS41_NB_SLOTS /\ length (slots x) = NFS41_NB_SLOTS.

Record sessions_same (w w' : client_world) : Prop := {
  s_next : (w_next w <= w_next w')%positive;
  s_session s x' : w_sessions w' !! s = Some x' ->
    (exists x, w_sessions w !! s = Some x /\ same_session x x')
    \/ (w_next w <= s < w_next w')%positive /\ has_slots x'
}.

#[export] Instance same_session_preorder : PreOrder same_session.
Proof.
  split; [by intros x; split|]. intros x y z [] []. split; congruence.
Qed.

Lemma recounted_same x x' : recounted x x' -> same_session x x'.
Proof. intros ->. by split. Qed.

Lemma keep_sessions_same w w' : sessions_keep w w' -> sessions_same w w'.
Proof.
  intros [Hn Hk]. split; [done|]. intros s x' [(x & Hx & Hr)|[? [Es Em]]]%Hk; [left|right].
  - exists x. split; [done|by apply recounted_same].
  - split; [done|]. split; [done|]. by rewrite Es.
Qed.

#[export] Instance sessions_same_preorder : PreOrder sessions_same.
Proof.
  split; [by intros w; apply keep_sessions_same|].
  intros w1 w2 w3 [N1 K1] [N2 K2]. split; [lia|]. intros s x' E.
  destruct (K2 s x' E) as [(x & Ex & Hx)|[Hs Hf]]; [|right; split; [lia|done]].
  destruct (K1 s x Ex) as [(y & Ey & Hy)|[Hs [Em El]]].
  - left. exists y. split; [done|by etrans].
  - right. split; [lia|]. destruct Hx as [_ _ _ E1 E2]. split; congruence.
Qed.

(** Every session has its slots. *)
Definition slotted (w : client_world) : Prop :=
  forall s x, w_sessions w !! s = Some x -> has_slots x.

Lemma slotted_same w w' : sessions_same w w' -> slotted w -> slotted w'.
Proof.
  intros [_ Hk] H s x' [(x & Hx & [_ _ _ E1 E2])|[_ Hs]]%Hk; [|done].
  destruct (H s x Hx). split; congruence.
Qed.

Lemma put_slots_same w s x l :
  w_sessions w !! s = Some x -> length l = length (slots x) ->
  sessions_same w (set_w_sessions (<[s := set_slots l x]> (w_sessions w)) w).
Proof.
  intros Hx El. split; [cbn; lia|]. cbn.
  intros t x' [(<- & <-)|(_ & E)]%lookup_insert_Some; left; [by exists x|by exists x'].
Qed.

Lemma same_keeps {A} (m : CM A) : keeps m -> moves sessions_same m.
Proof. intros Hm w a w' E. apply keep_sessions_same. by eapply Hm. Qed.

Ltac same_auto :=
  intros; repeat first [apply same_keeps; solve [moves_auto] | moves_step].

Section same.
Context `{Env : ClientEnv} {Ops : FileOps}.

Lemma same_set_slot s n v : moves sessions_same (upd_session s (set_slot n v)).
Proof.
  intros w a w' E. unfold upd_session, mbind, CM_bind, get_session in E.
  destruct (w_sessions w !! s) as [x|] eqn:Ex; [|done]. injection E as <- <-.
  apply put_slots_same; [done|]. apply length_insert.
Qed.

Lemma same_save_reply loc r : moves sessions_same (save_reply loc r).
Proof.
  destruct loc as [s n|p]; cbn [save_reply]; [|same_auto].
  intros w a w' E. unfold mbind, CM_bind, get_session in E.
  destruct (w_sessions w !! s) as [x|] eqn:Ex; [|done]. destruct (slots x !! n); [|done].
  injection E as <- <-. apply put_slots_same; [done|]. apply length_insert.
Qed.

Hint Resolve same_set_slot same_save_reply : moves.

Lemma same_sequence rq sid sqid sl b d : moves sessions_same (nfs4_op_sequence rq sid sqid sl b d).
Proof. unfold nfs4_op_sequence. same_auto. Qed.

Lemma same_load_reply loc : moves sessions_same (load_reply loc).
Proof. unfold load_reply. destruct loc; same_auto. Qed.

Hint Resolve same_sequence same_load_reply : moves.

Lemma keeps_client_of rq clientid d : keeps (client_of rq clientid d).
Proof. unfold client_of. moves_auto. Qed.

Hint Resolve keeps_client_of : moves.

Lemma same_run_op rq op d fs : moves sessions_same (run_op rq op d fs).
Proof. unfold run_op. destruct op; same_auto. Qed.

Hint Resolve same_run_op : moves.

Lemma same_one_op rq op d results fs : moves sessions_same (one_op rq op d results fs).
Proof. unfold one_op. same_auto. Qed.

Lemma same_finish status d results : moves sessions_same (compound_finish status d results).
Proof. unfold compound_finish. same_auto. Qed.

Hint Resolve same_one_op same_finish : moves.

Lemma same_advance fl fs : moves sessions_same (advance fl fs).
Proof. unfold advance. same_auto. Qed.

Hint Resolve same_advance : moves.

Lemma same_start_compound a fs : moves sessions_same (start_compound a fs).
Proof. unfold start_compound. same_auto. Qed.
End same.

#[export] Hint Resolve keeps_client_of : moves.

(** What a compound keeps from one operation to the next: after SEQUENCE its
    session, with the client id of it and the slot for the reply. *)
Definition held (o : option positive) : list positive :=
  match o with Some p => [p] | None => [] end.

Definition data_inv (w : client_world) (rq : request) (d : compound_data_t) : Prop :=
  match session d with
  | Some s => exists x, w_sessions w !! s = Some x /\
      preserved_clientid d = Some (clientid_record x) /\
      cached_res d = Some (slot_cache s (Z.to_nat (slot d))) /\
      (Z.to_nat (slot d) < NFS41_NB_SLOTS)%nat /\ 0 < oppos d /\ use_drc d = false
  | None => preserved_clientid d = None /\ cached_res d = None /\
      (rq_minorversion rq = 0 \/ oppos d = 0)
  end.

(** A compound that is at its second operation or later. *)
Definition data_bound (w : client_world) (rq : request) (d : compound_data_t) : Prop :=
  data_inv w rq d /\ (session d = None -> rq_minorversion rq = 0).

(** What the end of a compound needs. *)
Definition loc_alive (w : client_world) (loc : cache_loc) : Prop :=
  match loc with
  | slot_cache s n => exists x sl, w_sessions w !! s = Some x /\ slots x !! n = Some sl
  | create_session_cache p => is_Some (w_ids w !! p)
  end.

Record data_ok (c : list Z) (w : client_world) (d : compound_data_t) : Prop := {
  do_preserved p : preserved_clientid d = Some p ->
    exists i, w_ids w !! p = Some i /\ cid_clientid i ∈ c;
  do_cached loc : cached_res d = Some loc -> loc_alive w loc
}.

(** ** What a request may be *)

Definition modelled_ops : list Z :=
  [NFS4_OP_SEQUENCE; NFS4_OP_SETCLIENTID; NFS4_OP_SETCLIENTID_CONFIRM; NFS4_OP_RENEW;
   NFS4_OP_EXCHANGE_ID; NFS4_OP_CREATE_SESSION; NFS4_OP_DESTROY_SESSION; NFS4_OP_DESTROY_CLIENTID;
   NFS4_OP_OPEN; NFS4_OP_LOCK; NFS4_OP_CLOSE].

(** The operations of one minor version name client ids of that minor
    version, and CREATE_SESSION is alone in its compound. *)
Definition op_sane (w : client_world) (rq : request) (pos : Z) (op : nfs_argop4) : Prop :=
  0 <= rq_minorversion rq /\
  match op with
  | OP_SETCLIENTID_CONFIRM _ clientid _ =>
      rq_minorversion rq <= 0 -> named_minor (fun v => v = 0) clientid w
  | OP_CREATE_SESSION clientid _ _ _ _ =>
      rq_minorversion rq <> 0 -> pos = 0 /\ named_minor (fun v => 0 < v) clientid w
  | OP_other opcode _ => opcode ∉ modelled_ops
  | _ => True
  end.

(** The client ids whose lease an operation and the end of its compound may
    renew. *)
Definition number_of (w : client_world) (p : positive) : list Z :=
  match w_ids w !! p with Some i => [cid_clientid i] | None => [] end.

Definition session_number (w : client_world) (s : positive) : list Z :=
  match w_sessions w !! s with
  | Some x => session_clientid x :: number_of w (clientid_record x)
  | None => []
  end.

Definition op_touches (w : client_world) (rq : request) (op : nfs_argop4) (d : compound_data_t)
    : list Z :=
  match op with
  | OP_SEQUENCE sid _ _ _ =>
      match ht_session_id w !! sid with Some s => session_number w s | None => [] end
  | OP_CREATE_SESSION clientid _ _ _ _ | OP_RENEW clientid => [clientid]
  | OP_OPEN clientid _ _ | OP_LOCK clientid _ _ _ | OP_CLOSE clientid _ _ _ =>
      if rq_minorversion rq =? 0 then [clientid] else []
  | _ => []
  end ++ match session d with Some s => session_number w s | None => [] end.

(** CREATE_SESSION renews a lease whether or not it is valid. *)
Definition op_revives (op : nfs_argop4) : bool :=
  match op with OP_CREATE_SESSION _ _ _ _ _ => true | _ => false end.

Section compounds.
Context `{Env : ClientEnv} {Ops : FileOps} {Laws : OwnerLaws}.
Variables (c : list Z) (rv : bool) (w0 : client_world).

Lemma set_slots_st sq res hi hr hs w s x l :
  st c rv w0 sq res hi hr hs w -> w_sessions w !! s = Some x ->
  st c rv w0 sq res hi hr hs (set_w_sessions (<[s := set_slots l x]> (w_sessions w)) w).
Proof.
  intros H Hx. eapply st_mild; [exact H| |]; [split; try done; cbn; eauto using mild_id_refl|].
  destruct (inv_session _ _ _ _ _ (st_inv _ _ _ _ _ _ _ _ _ H) s x Hx) as (_ & ? & _); [done|].
  eapply inv_set_session; [apply H|exact Hx|done|done|done|cbn; lia|done].
Qed.

Lemma save_reply_st loc r sq res hi hr hs w (Q : unit -> client_world -> Prop) :
  st c rv w0 sq res hi hr hs w -> loc_alive w loc ->
  (forall w', st c rv w0 sq res hi hr hs w' ->
     (forall p i, w_ids w !! p = Some i -> exists i', w_ids w' !! p = Some i' /\
        cid_clientid i' = cid_clientid i) -> Q tt w') ->
  wp (save_reply loc r) Q w.
Proof.
  intros H Hl HQ. destruct loc as [s n|p]; cbn [save_reply].
  - destruct Hl as (x & sl & Hx & Hsl). wp_step. rewrite Hsl. apply wp_modify, HQ; [|eauto].
    by apply set_slots_st.
  - destruct Hl as [i Hi]. eapply upd_id_st; [done|done|by repeat split|done|by split; auto|].
    intros w' H'. apply HQ; [done|]. intros q j Hj.
    destruct (decide (q = p)) as [->|?]; cbn; [rewrite lookup_insert_eq|rewrite lookup_insert_ne by done; eauto].
    eexists. split; [done|]. cbn. congruence.
Qed.

(** The end of a compound gives up what it holds. *)
Lemma compound_finish_st status d results sq res hi hr hs w (Q : compound_res -> client_world -> Prop) :
  st c rv w0 sq (held (preserved_clientid d) ++ res) hi hr (held (session d) ++ hs) w ->
  data_ok c w d ->
  (forall r w', st c rv w0 sq res hi hr hs w' -> Q r w') ->
  wp (compound_finish status d results) Q w.
Proof.
  intros H [Hp Hc] HQ. unfold compound_finish. apply wp_bind.
  assert (forall r w1, st c rv w0 sq (held (preserved_clientid d) ++ res) hi hr (held (session d) ++ hs) w1 ->
    (forall p, preserved_clientid d = Some p -> exists i, w_ids w1 !! p = Some i /\ cid_clientid i ∈ c) ->
    wp (match preserved_clientid d with Some p => update_lease p | None => mret tt end;;
        match session d with Some s => dec_session_ref s | None => mret tt end;; mret r) Q w1) as Hend.
  { intros r w1 H1 Hp1. apply wp_bind.
    assert (forall w2, st c rv w0 sq res hi hr (held (session d) ++ hs) w2 ->
      wp (match session d with Some s => dec_session_ref s | None => mret tt end;; mret r) Q w2) as Hend2.
    { intros w2 H2. apply wp_bind. destruct (session d) as [s|]; [|by apply wp_ret, wp_ret, HQ].
      eapply dec_session_st; [exact H2|]. intros w3 H3 _. by apply wp_ret, HQ. }
    destruct (preserved_clientid d) as [p|]; [|by apply wp_ret, Hend2].
    destruct (Hp1 p eq_refl) as (i & Hi & Hin). eapply update_st; [exact H1|done|done|].
    intros w2 H2. by apply Hend2. }
  destruct (cached_res d) as [loc|]; [|by apply wp_ret, Hend].
  specialize (Hc loc eq_refl). destruct (use_drc d).
  - destruct loc as [s n|p]; cbn [load_reply].
    + destruct Hc as (x & sl & Hx & Hsl). wp_step. rewrite Hsl. by apply wp_ret, Hend.
    + destruct Hc as [i Hi]. wp_step. by apply wp_ret, Hend.
  - apply wp_bind. eapply save_reply_st; [done|done|]. intros w1 H1 Hids. apply wp_ret, Hend; [done|].
    intros p Ep. destruct (Hp p Ep) as (i & Hi & Hin). destruct (Hids p i Hi) as (i' & Hi' & E).
    exists i'. by rewrite E.
Qed.

(** A session that is given back stays, since it is in the table. *)
Lemma give_back_st sid s x sq res hi hr hs w (Q : unit -> client_world -> Prop) :
  st c rv w0 sq res hi hr (s :: hs) w -> ht_session_id w !! sid = Some s -> w_sessions w !! s = Some x ->
  (forall x' w', st c rv w0 sq res hi hr hs w' -> w_sessions w' !! s = Some x' -> recounted x x' ->
     (exists i, w_ids w' !! clientid_record x = Some i) -> mild w w' -> Q tt w') ->
  wp (dec_session_ref s) Q w.
Proof.
  intros H Hsid Hx HQ. pose proof (st_inv _ _ _ _ _ _ _ _ _ H) as Hi.
  eapply wp_mono; [apply wp_moves; [apply keeps_dec_session_ref|];
    apply (dec_session_st c rv w0 sq res hi hr hs w s (fun _ w' => st c rv w0 sq res hi hr hs w' /\
      calm w w' /\ ht_session_id w' = ht_session_id w)); [done|auto]|].
  intros [] w' [(H' & Hc & Eh) Hk]. pose proof (st_inv _ _ _ _ _ _ _ _ _ H') as Hi'.
  rewrite <- Eh in Hsid. destruct (inv_session_tab _ _ _ _ _ Hi' sid s Hsid) as (x' & Hx' & _).
  destruct (k_session _ _ Hk s x' Hx') as [(y & Hy & Hr)|[Hn _]].
  - replace y with x in Hr by congruence. apply (HQ x' w'); [done|done|done| |by apply calm_mild].
    destruct (inv_session _ _ _ _ _ Hi' s x' Hx') as ((i & Hii & _) & _); [done|].
    exists i. rewrite Hr in Hii. done.
  - assert (s < w_next w)%positive by (apply (inv_fresh_session _ _ _ _ _ Hi); eauto). lia.
Qed.

Lemma nfs4_op_sequence_st rq sid sqid sl back_chan d sq res hi hr hs w
    (Q : nfsstat4 * list Z * compound_data_t -> client_world -> Prop) :
  st c rv w0 sq res hi hr hs w -> slotted w ->
  session d = None -> preserved_clientid d = None -> cached_res d = None ->
  (forall s x i, ht_session_id w !! sid = Some s -> w_sessions w !! s = Some x ->
     w_ids w !! clientid_record x = Some i -> cid_clientid i ∈ c) ->
  (forall status body d' w',
     st c rv w0 sq (held (preserved_clientid d') ++ res) hi hr (held (session d') ++ hs) w' ->
     data_ok c w' d' ->
     (stops status d' = false -> data_bound w' rq (set_oppos (oppos d' + 1) d')) ->
     Q (status, body, d') w') ->
  wp (nfs4_op_sequence rq sid sqid sl back_chan d) Q w.
Proof.
  intros H Hsl Es Ep Ec Hc HQ. unfold nfs4_op_sequence.
  assert (forall status body w', status <> NFS4_OK -> st c rv w0 sq res hi hr hs w' -> Q (status, body, d) w') as Herr.
  { intros status body w' Hne H'. apply HQ.
    - by rewrite Es, Ep.
    - split; [by rewrite Ep|by rewrite Ec].
    - unfold stops. by rewrite bool_decide_false. }
  destruct (rq_minorversion rq =? 0); [by apply wp_ret, Herr|].
  destruct (Z.eqb_spec (oppos d) 0) as [Eo|_]; cbn [negb]; [|by apply wp_ret, Herr].
  apply wp_bind, (session_get_st c rv w0 sid sq res hi hr hs); [done|by intros _; apply wp_ret, Herr|].
  intros s x Hsid Hx w1 H1. pose proof (st_inv _ _ _ _ _ _ _ _ _ H) as Hi.
  destruct (inv_session _ _ _ _ _ Hi s x Hx) as ((i & Hii & _) & _); [done|].
  set (x1 := set_session_refcount (session_refcount x + 1) x) in *.
  assert (w_sessions w1 !! s = Some x1) as Hx1 by apply lookup_insert_eq.
  specialize (Hc s x i Hsid Hx Hii).
  apply wp_bind. eapply wp_get_session; [exact Hx1|]. apply wp_bind.
  eapply (reserve_st c rv w0 _ _ _ _ _ w1 (clientid_record x) i); [done|done|done|..].
  { intros _. cbn [negb]. apply wp_bind, (dec_session_st c rv w0 sq res hi hr hs); [done|].
    intros w2 H2 _. by apply wp_ret, Herr. }
  intros i1 w2 _ H2. cbn [negb]. set (p := clientid_record x) in *.
  assert (forall status body d', preserved_clientid d' = Some p -> session d' = None ->
    (cached_res d' = None \/ cached_res d' = Some (slot_cache s (Z.to_nat sl)) /\
       (Z.to_nat sl < length (slots x))%nat) ->
    stops status d' = true ->
    wp (dec_session_ref s;; mret (status, body, d')) Q w2) as Hback.
  { intros status body d' Ep' Es' Ec' Hst. apply wp_bind.
    eapply (give_back_st sid s x1); [exact H2|exact Hsid|exact Hx1|]. intros x3 w3 H3 Hx3 Hr3 (i3 & Hi3) Hm3.
    apply wp_ret, HQ; [by rewrite Ep', Es'| |by rewrite Hst]. split.
    - rewrite Ep'. intros q [= <-]. exists i3. split; [done|].
      destruct (mild_ids _ _ Hm3 p i3 Hi3) as (j & Hj & [E _ _ _ _ _]). rewrite E.
      cbn in Hj. rewrite lookup_insert_eq in Hj. by injection Hj as <-.
    - intros loc El. destruct Ec' as [E|[E Hlt]]; [congruence|]. rewrite E in El. injection El as <-.
      destruct (lookup_lt_is_Some_2 (slots x) (Z.to_nat sl) Hlt) as [y Hy].
      exists x3, y. split; [done|]. by rewrite Hr3. }
  destruct (Hsl s x Hx) as [Em El]. change (ca_maxrequests x1) with (ca_maxrequests x).
  destruct (Z.leb_spec (ca_maxrequests x) sl) as [_|Hlt].
  { by apply Hback; [..|left|]. }
  change (slots x1) with (slots x).
  assert (Z.to_nat sl < length (slots x))%nat as Hln by (rewrite El; unfold NFS41_NB_SLOTS in *; lia).
  destruct (lookup_lt_is_Some_2 (slots x) (Z.to_nat sl) Hln) as [y Hy]. rewrite Hy.
  destruct (negb (u32 (slot_sequence y + 1) =? sqid)).
  { destruct (slot_sequence y =? sqid); apply Hback; try done; [by right|by left]. }
  apply wp_bind. unfold upd_session. apply wp_bind. eapply wp_get_session; [exact Hx1|].
  apply wp_modify, wp_ret, HQ.
  - eapply (set_slots_st sq _ _ _ _ w2); [exact H2|exact Hx1].
  - split.
    + intros q [= <-]. exists i1. split; [apply lookup_insert_eq|done].
    + intros loc [= <-]. eexists _, _. split; [apply lookup_insert_eq|].
      cbn. apply list_lookup_insert_eq. done.
  - intros _. split; [|done]. unfold data_inv. cbn. eexists. split; [apply lookup_insert_eq|].
    repeat split; try done; [by rewrite <- El|lia].
Qed.

(** *** The data of a compound *)

Lemma data_inv_keep hi hr hs hi' hr' hs' w w' rq d :
  inv hi hr hs None w -> inv hi' hr' hs' None w' -> (forall s, session d = Some s -> s ∈ hs') ->
  sessions_same w w' -> data_inv w rq d -> data_inv w' rq d.
Proof.
  unfold data_inv. intros Hi Hi' Hin Hk. destruct (session d) as [s|]; [|done]. intros (x & Hx & Hd).
  destruct (inv_session_held _ _ _ _ _ Hi' s) as [x' Hx']; [by apply Hin|]. exists x'. split; [done|].
  destruct (s_session _ _ Hk s x' Hx') as [(y & Hy & [_ _ Er _ _])|[? _]].
  - rewrite Er. by replace y with x by congruence.
  - assert (s < w_next w)%positive by (apply (inv_fresh_session _ _ _ _ _ Hi); eauto). lia.
Qed.

Lemma data_inv_ok hi hr hs w rq d :
  inv hi hr hs None w -> slotted w -> data_inv w rq d ->
  (forall p i, preserved_clientid d = Some p -> w_ids w !! p = Some i -> cid_clientid i ∈ c) ->
  data_ok c w d.
Proof.
  unfold data_inv. intros Hi Hsl Hd Hc. destruct (session d) as [s|].
  - destruct Hd as (x & Hx & Ep & Ec & Hlt & _). split.
    + intros p. rewrite Ep. intros [= <-].
      destruct (inv_session _ _ _ _ _ Hi s x Hx) as ((i & Hii & _) & _); [done|]. exists i. split; [done|].
      by apply (Hc (clientid_record x)).
    + intros loc. rewrite Ec. intros [= <-]. destruct (Hsl s x Hx) as [_ El].
      destruct (lookup_lt_is_Some_2 (slots x) (Z.to_nat (slot d))) as [y Hy]; [by rewrite El|].
      by exists x, y.
  - destruct Hd as (Ep & Ec & _). split; congruence.
Qed.

(** The next operation of a compound that goes on. *)
Lemma data_inv_next w rq d :
  0 <= rq_minorversion rq -> data_inv w rq d ->
  data_bound w rq (set_oppos (oppos d + 1) d) \/ (oppos d = 0 /\ 0 < rq_minorversion rq).
Proof.
  unfold data_bound, data_inv. cbn. intros Hm. destruct (session d) as [s|].
  - intros (x & Hx & Ep & Ec & Hlt & Ho & Hu). left. split; [|done]. exists x. repeat split; try done. lia.
  - intros (Ep & Ec & Ho). destruct (decide (rq_minorversion rq = 0)) as [E|?]; [by left; auto|].
    right. destruct Ho; [done|]. split; [done|lia].
Qed.

(** *** One operation *)

Section operation.
Variables (rq : request) (op : nfs_argop4) (d : compound_data_t) (res hi hr hs : list positive).

Definition op_post (status : nfsstat4) (d' : compound_data_t) (w' : client_world) : Prop :=
  exists sq, 0 <= sq <= 1 /\
    st c rv w0 sq (held (preserved_clientid d') ++ res) hi hr (held (session d') ++ hs) w' /\
    data_ok c w' d' /\
    (stops status d' = false ->
       data_bound w' rq (set_oppos (oppos d' + 1) d') \/
       oppos d = 0 /\ 0 < rq_minorversion rq /\ argop op <> NFS4_OP_SEQUENCE).

Hypothesis Hst :
  st c rv w0 0 (held (preserved_clientid d) ++ res) hi hr (held (session d) ++ hs) w0.
Hypothesis Hdata : data_inv w0 rq d.
Hypothesis Hslots : slotted w0.
Hypothesis Hsane : op_sane w0 rq (oppos d) op.
Hypothesis Htouch : forall n, n ∈ op_touches w0 rq op d -> n ∈ c.
Hypothesis Hrev : op_revives op = true -> rv = true.
Hypothesis Hroom : 0 <= global_sequence w0 < 18446744073709551615.
Hypothesis Hfirst : oppos d = 0 -> 0 < rq_minorversion rq -> starts_compound (argop op) = true.

Let state w' := st c rv w0 0 (held (preserved_clientid d) ++ res) hi hr (held (session d) ++ hs) w'.

Lemma preserved_touched w' p i :
  state w' -> preserved_clientid d = Some p -> w_ids w' !! p = Some i -> cid_clientid i ∈ c.
Proof.
  intros H Ep Hi. unfold data_inv in Hdata. destruct (session d) as [s|] eqn:Es.
  2:{ destruct Hdata as [E _]. congruence. }
  destruct Hdata as (x & Hx & Ep' & _). rewrite Ep in Ep'. injection Ep' as ->.
  destruct (inv_session _ _ _ _ _ (st_inv _ _ _ _ _ _ _ _ _ Hst) s x Hx) as ((j & Hj & _) & _); [done|].
  assert (clientid_record x < w_next w0)%positive as Hlt.
  { apply (inv_fresh_id _ _ _ _ _ (st_inv _ _ _ _ _ _ _ _ _ Hst)). eauto. }
  destruct (ev_ids _ _ _ _ (st_evolves _ _ _ _ _ _ _ _ _ H) _ _ Hi) as [?|(j' & Hj' & E)]; [lia|].
  rewrite (ev_clientid _ _ _ _ _ E). apply Htouch. unfold op_touches. apply elem_of_app. right.
  rewrite Es. unfold session_number, number_of. rewrite Hx, Hj'. right. by left.
Qed.

(** An operation that leaves the data of the compound alone. *)
Lemma plain_op {A} (P : A -> Prop) (m : CM A) (Q : A -> client_world -> Prop) :
  keeps m -> argop op <> NFS4_OP_SEQUENCE ->
  wp m (fun a w' => state w' /\ P a) w0 ->
  (forall a w', P a -> (forall status, op_post status d w') -> Q a w') -> wp m Q w0.
Proof.
  intros Hk Hop Hm HQ. eapply wp_mono; [by apply wp_moves|]. intros a w' [[H' Ha] Hk'%keep_sessions_same].
  apply HQ; [done|]. intros status. exists 0. split; [lia|]. split; [done|].
  assert (data_inv w' rq d) as Hd'.
  { eapply data_inv_keep; [apply Hst|apply H'| |done|done]. intros s ->. by left. }
  split.
  - eapply data_inv_ok; [apply H'|by eapply slotted_same|done|]. intros p i. by apply preserved_touched.
  - intros _. destruct (data_inv_next w' rq d) as [?|[? ?]]; [apply Hsane|done|by left|by right].
Qed.

Lemma client_of_ok clientid (Q : Z -> client_world -> Prop) :
  (rq_minorversion rq = 0 -> clientid ∈ c) -> starts_compound (argop op) = false ->
  (forall n, n ∈ c -> Q n w0) -> wp (client_of rq clientid d) Q w0.
Proof.
  intros H0 Hnot HQ. unfold client_of.
  destruct (Z.eqb_spec (rq_minorversion rq) 0) as [E|E]; [by apply wp_ret, HQ, H0|].
  destruct Hsane as [Hm _]. unfold data_inv in Hdata. destruct (session d) as [s|] eqn:Es.
  - destruct Hdata as (x & Hx & _). wp_step. apply wp_ret, HQ, Htouch. apply elem_of_app. right.
    rewrite Es. unfold session_number. rewrite Hx. left.
  - destruct Hdata as (_ & _ & [?|Ho]); [done|]. rewrite Hfirst in Hnot; [done|done|lia].
Qed.

Lemma run_op_plain fs (Q : nfsstat4 * list Z * compound_data_t * files -> client_world -> Prop) :
  match op with OP_SEQUENCE _ _ _ _ | OP_CREATE_SESSION _ _ _ _ _ => False | _ => True end ->
  (forall status body d' fs' w', op_post status d' w' -> Q (status, body, d', fs') w') ->
  wp (run_op rq op d fs) Q w0.
Proof.
  intros Hop HQ.
  apply (plain_op (fun a => a.1.2 = d)); [| | |intros [[[status body] d'] fs'] w' E H'; cbn in E; subst d'; by apply HQ].
  - unfold run_op. destruct op; try contradiction; moves_auto.
  - destruct op; try done. destruct Hsane as [_ Hn]. cbn in Hn |- *. set_solver.
  - pose proof client_of_ok as Hco. unfold run_op. destruct Hsane as [Hm Hs]. unfold state in *.
    destruct op; try contradiction; cbn [op_sane] in *.
    + apply wp_bind. eapply nfs4_op_setclientid_st; [done|]. intros [status o] w' H'. by apply wp_ret.
    + apply wp_bind. eapply nfs4_op_setclientid_confirm_st; [done|done|]. intros status w' H'. by apply wp_ret.
    + apply wp_bind. eapply nfs4_op_renew_st; [done|apply Htouch; by left|]. intros status w' H'. by apply wp_ret.
    + apply wp_bind. eapply nfs4_op_exchange_id_st; [done|done|]. intros [status o] w' H'. by apply wp_ret.
    + apply wp_bind. eapply nfs4_op_destroy_session_st; [done|]. intros status w' H'. by apply wp_ret.
    + apply wp_bind. eapply nfs4_op_destroy_clientid_st; [done|]. intros status w' H'. by apply wp_ret.
    + apply wp_bind, Hco; [intros E; apply Htouch; cbn; rewrite E; by left|done|]. intros n Hn.
      apply wp_bind. eapply client_open_st; [done|done|]. intros status w' H'. by apply wp_ret.
    + apply wp_bind, Hco; [intros E; apply Htouch; cbn; rewrite E; by left|done|]. intros n Hn.
      apply wp_bind. eapply client_lock_st; [done|done|]. intros status w' H'. by apply wp_ret.
    + apply wp_bind, Hco; [intros E; apply Htouch; cbn; rewrite E; by left|done|]. intros n Hn.
      apply wp_bind. eapply client_close_st; [done|done|]. intros status w' H'. by apply wp_ret.
    + destruct (other_op opcode args fs) as [[status body] fs']. by apply wp_ret.
Qed.

(** An operation that changes nothing and ends the compound. *)
Lemma op_refused status d' :
  status <> NFS4_OK -> session d' = session d -> preserved_clientid d' = preserved_clientid d ->
  cached_res d' = cached_res d -> op_post status d' w0.
Proof.
  intros Hne Es Ep Ec. exists 0. rewrite Es, Ep. split; [lia|]. split; [done|].
  assert (data_ok c w0 d) as [H1 H2].
  { eapply data_inv_ok; [apply Hst|done|done|]. intros p i. by apply preserved_touched. }
  split; [split; [by rewrite Ep|by rewrite Ec]|]. unfold stops. by rewrite bool_decide_false.
Qed.

Lemma first_unbound : oppos d = 0 ->
  session d = None /\ preserved_clientid d = None /\ cached_res d = None.
Proof.
  intros Ho. unfold data_inv in Hdata. destruct (session d) as [s|].
  - destruct Hdata as (x & _ & _ & _ & _ & ? & _). lia.
  - by destruct Hdata as (? & ? & _).
Qed.

Lemma run_op_sequence sid sqid sl back_chan fs
    (Q : nfsstat4 * list Z * compound_data_t * files -> client_world -> Prop) :
  op = OP_SEQUENCE sid sqid sl back_chan ->
  (forall status body d' fs' w', op_post status d' w' -> Q (status, body, d', fs') w') ->
  wp (run_op rq op d fs) Q w0.
Proof.
  intros Eop HQ. rewrite Eop. cbn [run_op]. apply wp_bind.
  destruct (decide (oppos d = 0)) as [Eo|Eo].
  2:{ unfold nfs4_op_sequence. destruct (_ =? 0); [by apply wp_ret, wp_ret, HQ, op_refused|].
      destruct (Z.eqb_spec (oppos d) 0); [done|]. by apply wp_ret, wp_ret, HQ, op_refused. }
  destruct (first_unbound Eo) as (Es & Ep & Ec). pose proof Hst as H. rewrite Es, Ep in H. cbn in H.
  eapply (nfs4_op_sequence_st (at_position (oppos d) rq)); [exact H|done|done|done|done|..].
  - intros s x i Hs Hx Hi. apply Htouch. rewrite Eop. unfold op_touches. rewrite Hs.
    apply elem_of_app. left. unfold session_number, number_of. rewrite Hx, Hi. right. by left.
  - intros status body d' w' H' Hok Hnext. apply wp_ret, HQ. exists 0. split; [lia|].
    split; [done|]. split; [done|]. intros Hs. left. apply (Hnext Hs).
Qed.

Lemma run_op_create_session clientid sq flags maxops back_chan fs
    (Q : nfsstat4 * list Z * compound_data_t * files -> client_world -> Prop) :
  op = OP_CREATE_SESSION clientid sq flags maxops back_chan ->
  (forall status body d' fs' w', op_post status d' w' -> Q (status, body, d', fs') w') ->
  wp (run_op rq op d fs) Q w0.
Proof.
  intros Eop HQ. rewrite Eop. cbn [run_op].
  destruct (Z.eq_dec (rq_minorversion rq) 0) as [E0|E0].
  { apply wp_bind. unfold nfs4_op_create_session. cbn [rq_minorversion at_position].
    rewrite E0, Z.eqb_refl. by apply wp_ret, wp_ret, HQ, op_refused. }
  destruct Hsane as [Hm Hs]. rewrite Eop in Hs. destruct (Hs E0) as [Eo Hn].
  destruct (first_unbound Eo) as (Es & Ep & Ec). pose proof Hst as H. rewrite Es, Ep in H. cbn in H.
  apply wp_bind. eapply nfs4_op_create_session_st; [exact H|by intros _|done|..].
  - apply Htouch. rewrite Eop. by left.
  - apply Hrev. by rewrite Eop.
  - intros o w' sq' H' Hsq Ho. apply wp_ret, HQ. exists sq'. split; [lia|]. split.
    { destruct (cs_cached o); cbn; by rewrite Es, Ep. }
    split.
    + split; [intros p; destruct (cs_cached o); cbn; by rewrite Ep|].
      intros loc. destruct (cs_cached o) as [l|] eqn:El; cbn; [|by rewrite Ec].
      intros [= <-]. destruct (Ho l El) as (p & -> & Hp). done.
    + intros _. right. split; [done|]. split; [lia|]. by rewrite Eop.
Qed.

Lemma run_op_st fs (Q : nfsstat4 * list Z * compound_data_t * files -> client_world -> Prop) :
  (forall status body d' fs' w', op_post status d' w' -> Q (status, body, d', fs') w') ->
  wp (run_op rq op d fs) Q w0.
Proof.
  pose proof run_op_sequence as Hseq. pose proof run_op_create_session as Hcs.
  pose proof run_op_plain as Hpl. intros HQ.
  destruct op; try (by apply Hpl); [by eapply Hseq|by eapply Hcs].
Qed.

Lemma one_op_st results fs
    (Q : nfsstat4 * compound_data_t * list (Z * nfsstat4 * list Z) * files -> client_world -> Prop) :
  (forall status d' results' fs' w', op_post status d' w' -> 
     (stops status d' = false -> argop op <= LastOpcode (rq_minorversion rq) /\
        argop op <> NFS4_OP_BIND_CONN_TO_SESSION) ->
     Q (status, d', results', fs') w') ->
  wp (one_op rq op d results fs) Q w0.
Proof.
  intros HQ.
  assert (forall status results', status <> NFS4_OK -> Q (status, d, results', fs) w0) as Hbad.
  { intros status results' Hne. apply HQ; [by apply op_refused|]. unfold stops.
    by rewrite bool_decide_false. }
  unfold one_op. destruct (_ && _); [by apply wp_ret, Hbad|].
  apply wp_bind. eapply (wp_mono _ (fun _ w' => w' = w0)).
  { pose proof Hdata as Hd. unfold data_inv in Hd. destruct (session d) as [s|]; [|by apply wp_ret].
    destruct Hd as (x & Hx & _). apply wp_bind. eapply wp_get_session; [exact Hx|]. by apply wp_ret. }
  intros too_many w' ->. destruct too_many; [by apply wp_ret, Hbad|].
  destruct (Z.ltb_spec (LastOpcode (rq_minorversion rq)) (argop op)) as [_|Hle]; [by apply wp_ret, Hbad|].
  destruct (Z.eqb_spec (argop op) NFS4_OP_BIND_CONN_TO_SESSION) as [_|Hnb]; [by apply wp_ret, Hbad|].
  cbn [orb]. cbv zeta.
  destruct (bool_decide_reflect ((if needs_permission op then op_permitted (argop op) fs else NFS4_OK) = NFS4_OK))
    as [_|Hne]; [|by apply wp_ret, Hbad].
  cbn [negb]. apply wp_bind, run_op_st. intros status body d' fs' w' Hp. by apply wp_ret, HQ.
Qed.
End operation.

(** *** Steps of a compound *)

Lemma answered_first a op rest :
  compound_answered a = None -> argarray a = op :: rest -> 0 < rq_minorversion (c_rq a) ->
  starts_compound (argop op) = true /\ (rest = [] \/ only_op (argop op) = false).
Proof.
  unfold compound_answered, session_check. intros Ha Eop Hm. rewrite Eop in Ha.
  destruct (compound_check a); [done|]. destruct (negb (c_cred a)); [done|].
  destruct (Z.leb_spec (rq_minorversion (c_rq a)) 0); [lia|].
  destruct (starts_compound (argop op)); [|done]. split; [done|].
  destruct rest as [|op2 rest]; [by left|right]. by destruct (only_op (argop op)).
Qed.

Lemma starts_alone opcode minorversion :
  starts_compound opcode = true -> opcode <> NFS4_OP_SEQUENCE -> opcode <= LastOpcode minorversion ->
  opcode <> NFS4_OP_BIND_CONN_TO_SESSION -> only_op opcode = true.
Proof.
  unfold starts_compound, only_op, LastOpcode. cbn [existsb]. intros H H1 H2 H3.
  rewrite !orb_true_iff, !Z.eqb_eq in H. rewrite !orb_true_iff, !Z.eqb_eq. destruct H as [->|H]; [|tauto].
  exfalso. revert H2. destruct (minorversion =? 0), (minorversion =? 1); cbv; congruence.
Qed.

Section steps.
Variables (res hi hr hs : list positive).

Definition outcome_post (o : outcome) (w' : client_world) : Prop :=
  exists sq, 0 <= sq <= 1 /\
  match o with
  | finished _ => st c rv w0 sq res hi hr hs w'
  | running fl =>
      st c rv w0 sq (held (preserved_clientid (fl_data fl)) ++ res) hi hr
        (held (session (fl_data fl)) ++ hs) w' /\
      data_bound w' (fl_rq fl) (fl_data fl)
  end.

Hypothesis Hslots : slotted w0.
Hypothesis Hroom : 0 <= global_sequence w0 < 18446744073709551615.

Lemma advance_op_st fl fs (Q : outcome * files -> client_world -> Prop) :
  let rq := fl_rq fl in let op := fl_op fl in let d := fl_data fl in
  st c rv w0 0 (held (preserved_clientid d) ++ res) hi hr (held (session d) ++ hs) w0 ->
  data_inv w0 rq d -> op_sane w0 rq (oppos d) op ->
  (forall n, n ∈ op_touches w0 rq op d -> n ∈ c) -> (op_revives op = true -> rv = true) ->
  (oppos d = 0 -> 0 < rq_minorversion rq ->
     starts_compound (argop op) = true /\ (fl_rest fl = [] \/ only_op (argop op) = false)) ->
  (forall o fs' w', outcome_post o w' -> Q (o, fs') w') ->
  wp (advance fl fs) Q w0.
Proof.
  cbv zeta. intros H Hd Hs Ht Hrv Hfirst HQ. unfold advance. apply wp_bind.
  eapply (one_op_st (fl_rq fl) (fl_op fl) (fl_data fl) res hi hr hs); try done.
  { intros Ho Hm. apply (Hfirst Ho Hm). }
  intros status d' results fs' w' (sq & Hsq & H' & Hok & Hnext) Hleg.
  assert (forall status, wp (reply ← compound_finish status d' results;
    mret (finished (NFS_REQ_OK reply), fs')) Q w') as Hend.
  { intros status'. apply wp_bind. eapply compound_finish_st; [exact H'|done|].
    intros r w2 H2. apply wp_ret, HQ. by exists sq. }
  destruct (stops status d') eqn:Est; [apply Hend|].
  destruct (fl_rest fl) as [|op rest] eqn:Er; [apply Hend|].
  apply wp_ret, HQ. exists sq. split; [done|]. split; [done|].
  destruct (Hnext eq_refl) as [Hb|(Ho & Hm & Hne)]; [done|]. exfalso.
  destruct (Hfirst Ho Hm) as [Hst [?|Honly]]; [done|]. destruct (Hleg eq_refl) as [Hl Hnb].
  rewrite (starts_alone _ _ Hst Hne Hl Hnb) in Honly. done.
Qed.

(** The next operation of a compound in progress. *)
Lemma advance_st fl fs (Q : outcome * files -> client_world -> Prop) :
  let rq := fl_rq fl in let op := fl_op fl in let d := fl_data fl in
  st c rv w0 0 (held (preserved_clientid d) ++ res) hi hr (held (session d) ++ hs) w0 ->
  data_bound w0 rq d -> op_sane w0 rq (oppos d) op ->
  (forall n, n ∈ op_touches w0 rq op d -> n ∈ c) -> (op_revives op = true -> rv = true) ->
  (forall o fs' w', outcome_post o w' -> Q (o, fs') w') ->
  wp (advance fl fs) Q w0.
Proof.
  cbv zeta. intros H [Hd Hb] Hs Ht Hrv HQ. apply advance_op_st; try done. intros Ho Hm. exfalso.
  destruct (session (fl_data fl)) as [s|] eqn:Es; [|rewrite Hb in Hm; [lia|done]].
  unfold data_inv in Hd. rewrite Es in Hd. destruct Hd as (x & _ & _ & _ & _ & ? & _). lia.
Qed.

Lemma start_compound_st a fs (Q : outcome * files -> client_world -> Prop) :
  st c rv w0 0 res hi hr hs w0 ->
  (forall op rest, argarray a = op :: rest -> op_sane w0 (c_rq a) 0 op /\
     (forall n, n ∈ op_touches w0 (c_rq a) op zero_data -> n ∈ c) /\ (op_revives op = true -> rv = true)) ->
  (forall o fs' w', outcome_post o w' -> Q (o, fs') w') ->
  wp (start_compound a fs) Q w0.
Proof.
  intros H Hop HQ. unfold start_compound.
  assert (forall ans, wp (mret (finished ans, fs)) Q w0) as Hend.
  { intros ans. apply wp_ret, HQ. exists 0. split; [lia|done]. }
  destruct (compound_answered a) as [ans|] eqn:Ea; [apply Hend|].
  destruct (argarray a) as [|op rest] eqn:Eop; [apply Hend|].
  destruct (Hop op rest eq_refl) as (Hs & Ht & Hrv). apply advance_op_st; try done.
  - by repeat split; try right.
  - intros _ Hm. by apply (answered_first a).
Qed.
End steps.
End compounds.
