(* ===== verification/ClientRuns.v ===== *)
(** * Client identities of NFSv4: executions

    The server as a machine: requests arrive, compounds in progress take their
    next operation, time passes, the reaper runs and addresses are released.
    Threads interleave between the operations of compounds and at two other
    places: an operation of a v4.0 client may hold its lease while others run,
    and the reaper, which has found a lapsed lease, may be overtaken before it
    has the mutex of the client record.  The reaper holds the lock of its part
    of the table while it waits, which excludes some of these interleavings;
    the machine has them all.  Every reachable state has the invariant. *)
From S2P Require Import Prelude Status Owners ClientData ClientOps Compound ClientInv ClientLife SessionKeep ClientFrame ClientSafe ClientSessions ClientState ClientReaper CompoundSafe.

Inductive event :=
| ev_tick (d : Z)
| ev_compound (a : COMPOUND4args)
| ev_advance (n : nat)
| ev_begin (clientid : Z)
| ev_end (n : nat)
| ev_reap
| ev_reap_check (ht : cid_table) (clientid : Z)
| ev_reap_expire
| ev_release (ip_match : nfs_client_id_t -> bool).

(** [m_flights]: the compounds in progress; [m_reserved]: the client ids of
    the v4.0 operations in progress that hold a lease; [m_reaping]: the client
    id that the reaper is about to expire, with its record. *)
Record machine `{Ops : FileOps} := mk_machine {
  m_world : client_world;
  m_files : files;
  m_flights : list flight;
  m_reserved : list positive;
  m_reaping : option (positive * option positive)
}.
Arguments mk_machine {Ops}.

Section runs.
Context `{Env : ClientEnv} {Ops : FileOps}.

Definition set_m_world w (m : machine) : machine :=
  mk_machine w (m_files m) (m_flights m) (m_reserved m) (m_reaping m).

Definition start (t : Z) (fs : files) : machine := mk_machine (initial_world t) fs [] [] None.

(** An operation of a v4.0 client up to where its work begins. *)
Definition begin_operation (clientid : Z) : CM (option positive) :=
  '(_, found) ← nfs_client_id_get confirmed_table clientid;
  match found with
  | None => mret None
  | Some p =>
      valid ← reserve_lease p;
      if valid : bool then mret (Some p) else dec_client_id_ref p;; mret None
  end.

(** The reaper at an entry of a table: the client id and the record it
    pinned, if the lease is not valid. *)
Definition reap_check (ht : cid_table) (clientid : Z) : CM (option (positive * option positive)) :=
  found ← gets (fun w => table_of ht w !! clientid);
  match found with
  | None => mret None
  | Some p =>
      i ← get_id p;
      t ← time;
      if valid_lease t i then mret None else ro ← reap_pin p; mret (Some (p, ro))
  end.

(** A compound that took a step: it is answered or goes on. *)
Definition settle (o : outcome) (fs : files) (w : client_world) (fls : list flight) (m : machine)
    : option compound_answer * machine :=
  match o with
  | finished answer => (Some answer, mk_machine w fs fls (m_reserved m) (m_reaping m))
  | running fl => (None, mk_machine w fs (fls ++ [fl]) (m_reserved m) (m_reaping m))
  end.

(** An event, with the answer that it sends. *)
Definition exec (e : event) (m : machine) : option (option compound_answer * machine) :=
  match e with
  | ev_tick d => Some (None, set_m_world (set_w_time (w_time (m_world m) + d) (m_world m)) m)
  | ev_compound a =>
      match start_compound a (m_files m) (m_world m) with
      | Some (o, fs, w) => Some (settle o fs w (m_flights m) m)
      | None => None
      end
  | ev_advance n =>
      match m_flights m !! n with
      | Some fl =>
          match advance fl (m_files m) (m_world m) with
          | Some (o, fs, w) => Some (settle o fs w (delete n (m_flights m)) m)
          | None => None
          end
      | None => Some (None, m)
      end
  | ev_begin clientid =>
      match begin_operation clientid (m_world m) with
      | Some (Some p, w) =>
          Some (None, mk_machine w (m_files m) (m_flights m) (p :: m_reserved m) (m_reaping m))
      | Some (None, w) => Some (None, set_m_world w m)
      | None => None
      end
  | ev_end n =>
      match m_reserved m !! n with
      | Some p =>
          match (update_lease p;; dec_client_id_ref p) (m_world m) with
          | Some (_, w) =>
              Some (None, mk_machine w (m_files m) (m_flights m) (delete n (m_reserved m)) (m_reaping m))
          | None => None
          end
      | None => Some (None, m)
      end
  | ev_reap =>
      match reap_client_ids (m_world m) with
      | Some (_, w) => Some (None, set_m_world w m)
      | None => None
      end
  | ev_reap_check ht clientid =>
      match m_reaping m with
      | Some _ => Some (None, m)
      | None =>
          match reap_check ht clientid (m_world m) with
          | Some (r, w) => Some (None, mk_machine w (m_files m) (m_flights m) (m_reserved m) r)
          | None => None
          end
      end
  | ev_reap_expire =>
      match m_reaping m with
      | Some (p, ro) =>
          match reap_expire p ro (m_world m) with
          | Some (_, w) => Some (None, mk_machine w (m_files m) (m_flights m) (m_reserved m) None)
          | None => None
          end
      | None => Some (None, m)
      end
  | ev_release ip_match =>
      match nfs_release_v4_client ip_match (m_world m) with
      | Some (_, w) => Some (None, set_m_world w m)
      | None => None
      end
  end.

Definition step (e : event) (m : machine) : option machine := snd <$> exec e m.

Fixpoint run (es : list event) (m : machine) : option machine :=
  match es with
  | [] => Some m
  | e :: es => match step e m with Some m' => run es m' | None => None end
  end.

(** [P] holds at each event of a run. *)
Fixpoint along (P : event -> machine -> Prop) (es : list event) (m : machine) : Prop :=
  match es with
  | [] => True
  | e :: es => P e m /\ match step e m with Some m' => along P es m' | None => True end
  end.

(** The operation that an event runs, with the data of its compound. *)
Definition next_op (e : event) (m : machine) : option (request * nfs_argop4 * compound_data_t) :=
  match e with
  | ev_compound a =>
      match argarray a with op :: _ => Some (c_rq a, op, zero_data) | [] => None end
  | ev_advance n =>
      match m_flights m !! n with
      | Some fl => Some (fl_rq fl, fl_op fl, fl_data fl)
      | None => None
      end
  | _ => None
  end.

(** The requests are sane, and time does not go back. *)
Definition sane (e : event) (m : machine) : Prop :=
  match e with
  | ev_tick d => 0 <= d
  | _ =>
      match next_op e m with
      | Some (rq, op, d) => op_sane (m_world m) rq (oppos d) op
      | None => True
      end
  end.

Definition all_sane (es : list event) (m : machine) : Prop := along sane es m.

(** The client ids whose lease an event may renew. *)
Definition touches (e : event) (m : machine) : list Z :=
  match e with
  | ev_begin clientid => [clientid]
  | ev_end n =>
      match m_reserved m !! n with
      | Some p => number_of (m_world m) p
      | None => []
      end
  | _ =>
      match next_op e m with
      | Some (rq, op, d) => op_touches (m_world m) rq op d
      | None => []
      end
  end.

Definition revives (e : event) (m : machine) : bool :=
  match next_op e m with Some (_, op, _) => op_revives op | None => false end.

(** ** The invariant of the machine *)

Definition m_held (m : machine) : list positive :=
  match m_reaping m with Some (p, _) => p :: m_reserved m | None => m_reserved m end.
Definition m_recs (m : machine) : list positive :=
  match m_reaping m with Some (_, ro) => with_rec ro [] | None => [] end.

(** What the compounds in progress hold. *)
Definition flights_sessions (fls : list flight) : list positive :=
  fls ≫= fun fl => held (session (fl_data fl)).
Definition flights_clients (fls : list flight) : list positive :=
  fls ≫= fun fl => held (preserved_clientid (fl_data fl)).
Definition m_leases (m : machine) : list positive :=
  flights_clients (m_flights m) ++ m_reserved m.

Definition flight_ok (w : client_world) (fl : flight) : Prop :=
  data_bound w (fl_rq fl) (fl_data fl).

Record machine_inv (m : machine) : Prop := {
  mi_inv : inv (m_held m) (m_recs m) (flights_sessions (m_flights m)) None (m_world m);
  mi_kinds : kinds (m_world m);
  mi_leases : leases (m_leases m) (m_world m);
  mi_slots : slotted (m_world m);
  mi_flights fl : fl ∈ m_flights m -> flight_ok (m_world m) fl
}.

Lemma m_reserved_held m p : p ∈ m_reserved m -> p ∈ m_held m.
Proof. unfold m_held. destruct (m_reaping m) as [[q ro]|]; [by right|done]. Qed.

Lemma flight_session fl fls s :
  fl ∈ fls -> session (fl_data fl) = Some s -> s ∈ flights_sessions fls.
Proof.
  intros Hin Es. unfold flights_sessions. apply list_elem_of_bind. exists fl. rewrite Es.
  split; [by left|done].
Qed.

Lemma flights_sessions_perm fls fls' : fls ≡ₚ fls' -> flights_sessions fls ≡ₚ flights_sessions fls'.
Proof. intros H. unfold flights_sessions. by rewrite H. Qed.

Lemma flights_clients_perm fls fls' : fls ≡ₚ fls' -> flights_clients fls ≡ₚ flights_clients fls'.
Proof. intros H. unfold flights_clients. by rewrite H. Qed.

Lemma machine_inv_start t fs : machine_inv (start t fs).
Proof.
  split; [apply inv_initial|..].
  - intros p i r c Hp. cbn in Hp. by rewrite lookup_empty in Hp.
  - intros p i Hp. cbn in Hp. by rewrite lookup_empty in Hp.
  - intros s x Hs. cbn in Hs. by rewrite lookup_empty in Hs.
  - intros fl []%elem_of_nil.
Qed.

(** A client id that a compound in progress keeps is allocated. *)
Lemma flight_client m fl p :
  machine_inv m -> fl ∈ m_flights m -> preserved_clientid (fl_data fl) = Some p ->
  is_Some (w_ids (m_world m) !! p).
Proof.
  intros H Hin Ep. destruct (mi_flights _ H fl Hin) as [Hd _]. unfold data_inv in Hd.
  destruct (session (fl_data fl)) as [s|]; [|destruct Hd as [E _]; congruence].
  destruct Hd as (x & Hx & Ep' & _). assert (p = clientid_record x) as -> by congruence.
  destruct (inv_session _ _ _ _ _ (mi_inv _ H) s x Hx) as ((i & Hi & _) & _); [done|eauto].
Qed.

Lemma m_leases_old m p : machine_inv m -> p ∈ m_leases m -> (p < w_next (m_world m))%positive.
Proof.
  intros H Hp. apply (inv_fresh_id _ _ _ _ _ (mi_inv _ H)). unfold m_leases in Hp.
  apply elem_of_app in Hp as [Hp|Hp].
  - apply list_elem_of_bind in Hp as (fl & Hp & Hin).
    destruct (preserved_clientid (fl_data fl)) as [q|] eqn:Eq; cbn in Hp; [|by apply elem_of_nil in Hp].
    apply list_elem_of_singleton in Hp as ->. by eapply flight_client.
  - eapply (inv_held _ _ _ _ _ (mi_inv _ H)). by apply m_reserved_held.
Qed.

(** The state at the beginning of an event. *)
Lemma machine_st c rv m :
  machine_inv m ->
  st c rv (m_world m) 0 (m_leases m) (m_held m) (m_recs m) (flights_sessions (m_flights m)) (m_world m).
Proof. intros H. apply st_start; [apply H..|]. intros p. by apply m_leases_old. Qed.

Lemma st_perm c rv w0 sq res res' hi hi' hr hs hs' w :
  res ≡ₚ res' -> hi ≡ₚ hi' -> hs ≡ₚ hs' ->
  st c rv w0 sq res hi hr hs w -> st c rv w0 sq res' hi' hr hs' w.
Proof.
  intros Hr Hh Hhs [Hi Hk Hl Hs He Hq]. split; try done.
  - by eapply inv_perm.
  - intros p i Hp. rewrite <- (cnt_perm p res res') by done. by apply Hl.
  - intros p. rewrite <- Hr. apply Hs.
Qed.

(** The state at the end of an event. *)
Lemma st_machine c rv sq m m' :
  machine_inv m ->
  st c rv (m_world m) sq (m_leases m') (m_held m') (m_recs m') (flights_sessions (m_flights m')) (m_world m') ->
  sessions_same (m_world m) (m_world m') ->
  (forall fl, fl ∈ m_flights m' -> fl ∈ m_flights m \/ flight_ok (m_world m') fl) ->
  machine_inv m'.
Proof.
  intros H [Hi Hk Hl _ _ _] Hs Hf. split; try done; [eapply slotted_same; [done|apply H]|].
  intros fl Hin. destruct (Hf fl Hin) as [Hin0|?]; [|done].
  destruct (mi_flights _ H fl Hin0) as [Hd Hb]. split; [|done].
  eapply data_inv_keep; [apply H|apply Hi| |done|done]. intros s. by apply flight_session.
Qed.

Context {Laws : OwnerLaws}.

Definition sequence_room (w : client_world) : Prop :=
  0 <= global_sequence w < 18446744073709551615.

(** What one event does. *)
Record stepped (e : event) (m m' : machine) : Prop := {
  sp_inv : machine_inv m';
  sp_seq : global_sequence (m_world m) <= global_sequence (m_world m') <= global_sequence (m_world m) + 1;
  sp_same : sessions_same (m_world m) (m_world m');
  sp_world : match e with
    | ev_tick d => m_world m' = set_w_time (w_time (m_world m) + d) (m_world m)
    | _ => evolves (touches e m) (revives e m) (m_world m) (m_world m')
    end
}.

Lemma stepped_idle e m :
  machine_inv m -> (forall d, e <> ev_tick d) -> stepped e m m.
Proof.
  intros H He. split; [done|lia|done|]. destruct e; try apply clients_evolve_refl. by destruct (He d).
Qed.

(** The end of an event that is not the passing of time. *)
Lemma stepped_st e m m' sq :
  machine_inv m -> (forall d, e <> ev_tick d) -> 0 <= sq <= 1 ->
  st (touches e m) (revives e m) (m_world m) sq (m_leases m') (m_held m') (m_recs m')
    (flights_sessions (m_flights m')) (m_world m') ->
  sessions_same (m_world m) (m_world m') ->
  (forall fl, fl ∈ m_flights m' -> fl ∈ m_flights m \/ flight_ok (m_world m') fl) ->
  stepped e m m'.
Proof.
  intros H He Hsq Hst Hs Hf. split; [by eapply st_machine| |done|].
  - rewrite (st_seq _ _ _ _ _ _ _ _ _ Hst). lia.
  - pose proof (st_evolves _ _ _ _ _ _ _ _ _ Hst). destruct e; try done. by destruct (He d).
Qed.

(** *** Compounds *)

Lemma settle_ok e m o fs fls w' :
  machine_inv m -> (forall d, e <> ev_tick d) -> (forall fl, fl ∈ fls -> fl ∈ m_flights m) ->
  outcome_post (touches e m) (revives e m) (m_world m) (flights_clients fls ++ m_reserved m)
    (m_held m) (m_recs m) (flights_sessions fls) o w' ->
  sessions_same (m_world m) w' ->
  stepped e m (snd (settle o fs w' fls m)).
Proof.
  intros H He Hin (sq & Hsq & Ho) Hs. destruct o as [ans|fl]; cbn [settle snd].
  - eapply (stepped_st e m _ sq); try done. intros fl Hfl. left. by apply Hin.
  - destruct Ho as [Ho Hb]. eapply (stepped_st e m _ sq); try done.
    + eapply st_perm; [| | |exact Ho]; [|done|]; cbn; unfold m_leases, flights_clients, flights_sessions; cbn.
      * rewrite bind_app. cbn. rewrite app_nil_r, <- app_assoc.
        rewrite (Permutation_app_comm (fls ≫= _) (held _ ++ _)), <- app_assoc.
        by rewrite (Permutation_app_comm (m_reserved m)).
      * rewrite bind_app. cbn. rewrite app_nil_r. apply Permutation_app_comm.
    + cbn. intros fl' [Hfl|Hfl]%elem_of_app; [left; by apply Hin|right].
      by apply list_elem_of_singleton in Hfl as ->.
Qed.

Lemma wp_some {A} (f : CM A) Q w : wp f Q w -> exists a w', f w = Some (a, w') /\ Q a w'.
Proof. unfold wp. destruct (f w) as [[a w']|]; [eauto|done]. Qed.

Lemma compound_ok a m :
  machine_inv m -> sane (ev_compound a) m -> sequence_room (m_world m) ->
  exists o m', exec (ev_compound a) m = Some (o, m') /\ stepped (ev_compound a) m m'.
Proof.
  intros H Hs Hg. set (e := ev_compound a).
  destruct (wp_some (start_compound a (m_files m)) (fun r w' =>
    outcome_post (touches e m) (revives e m) (m_world m) (m_leases m) (m_held m) (m_recs m)
      (flights_sessions (m_flights m)) r.1 w' /\ sessions_same (m_world m) w') (m_world m))
    as ([o fs] & w' & E & Ho & Hsame).
  - apply wp_moves; [apply same_start_compound|].
    eapply start_compound_st; [apply H|done|by apply machine_st| |done].
    intros op rest Eop. unfold e, touches, revives, sane, next_op in *. rewrite Eop in *.
    split; [exact Hs|]. split; [done|]. by destruct op.
  - cbn [exec e]. rewrite E. eexists _, _. split; [apply f_equal, surjective_pairing|].
    by apply settle_ok.
Qed.

Lemma advance_ok n m :
  machine_inv m -> sane (ev_advance n) m -> sequence_room (m_world m) ->
  exists o m', exec (ev_advance n) m = Some (o, m') /\ stepped (ev_advance n) m m'.
Proof.
  intros H Hs Hg. set (e := ev_advance n). cbn [exec e].
  unfold sane, next_op in Hs. destruct (m_flights m !! n) as [fl|] eqn:En.
  2:{ eexists _, _. split; [done|]. by apply stepped_idle. }
  pose proof (delete_Permutation _ _ _ En) as Hperm.
  destruct (wp_some (advance fl (m_files m)) (fun r w' =>
    outcome_post (touches e m) (revives e m) (m_world m)
      (flights_clients (delete n (m_flights m)) ++ m_reserved m) (m_held m) (m_recs m)
      (flights_sessions (delete n (m_flights m))) r.1 w' /\ sessions_same (m_world m) w') (m_world m))
    as ([o fs] & w' & E & Ho & Hsame).
  - apply wp_moves; [apply same_advance|]. eapply advance_st; [apply H|done| | |exact Hs| | |done].
    + eapply st_perm; [| | |apply machine_st, H]; [|done|].
      * unfold m_leases. rewrite (flights_clients_perm _ _ Hperm). cbn. by rewrite app_assoc.
      * by rewrite (flights_sessions_perm _ _ Hperm).
    + apply (mi_flights _ H). by eapply list_elem_of_lookup_2.
    + unfold e, touches, next_op. by rewrite En.
    + unfold e, revives, next_op. by rewrite En.
  - rewrite E. eexists _, _. split; [apply f_equal, surjective_pairing|].
    apply settle_ok; try done. intros fl' Hfl. rewrite Hperm. by right.
Qed.

(** *** The other events *)

Lemma begin_operation_ok clientid m :
  machine_inv m ->
  wp (begin_operation clientid) (fun o w' =>
    st [clientid] false (m_world m) 0 (held o ++ m_leases m) (held o ++ m_held m) (m_recs m)
      (flights_sessions (m_flights m)) w') (m_world m).
Proof.
  intros H. pose proof (machine_st [clientid] false m H) as Hst.
  unfold begin_operation. apply wp_bind. eapply lookup_st; [done|..].
  { intros rc w1 H1 _ _. by apply wp_ret. }
  intros p i Hp _ Ek _ w1 H1. apply wp_bind.
  eapply reserve_st; [done|apply lookup_insert_eq|rewrite <- Ek; by left|..].
  - intros _. apply wp_bind. eapply dec_id_st; [done|]. intros w2 H2 _. by apply wp_ret.
  - intros j w2 _ H2. by apply wp_ret.
Qed.

Lemma keeps_begin clientid : keeps (begin_operation clientid).
Proof. unfold begin_operation. moves_auto. Qed.

Lemma m_held_perm w fs fls p res res' reaping :
  res ≡ₚ p :: res' ->
  m_held (mk_machine w fs fls res reaping) ≡ₚ p :: m_held (mk_machine w fs fls res' reaping).
Proof.
  intros Hp. unfold m_held. cbn. destruct reaping as [[q ro]|]; [|done].
  rewrite Hp. apply Permutation_swap.
Qed.

Lemma begin_ok clientid m :
  machine_inv m ->
  exists o m', exec (ev_begin clientid) m = Some (o, m') /\ stepped (ev_begin clientid) m m'.
Proof.
  intros H. cbn [exec].
  destruct (wp_some _ _ _ (wp_moves _ _ _ _ (keeps_begin clientid) (begin_operation_ok clientid m H)))
    as (o & w' & -> & Hw & Hk%keep_sessions_same).
  destruct o as [p|]; (eexists _, _; split; [done|]); apply (stepped_st _ _ _ 0); try done; try (by left).
  eapply st_perm; [| |done|exact Hw].
  - unfold m_leases. cbn. apply Permutation_middle.
  - pose proof (m_held_perm w' (m_files m) (m_flights m) p (p :: m_reserved m) (m_reserved m) (m_reaping m)) as Hp.
    rewrite Hp by done. by destruct m.
Qed.

Lemma end_ok n m :
  machine_inv m ->
  exists o m', exec (ev_end n) m = Some (o, m') /\ stepped (ev_end n) m m'.
Proof.
  intros H. cbn [exec]. destruct (m_reserved m !! n) as [p|] eqn:En.
  2:{ eexists _, _. split; [done|]. by apply stepped_idle. }
  set (res' := delete n (m_reserved m)).
  set (m' w := mk_machine w (m_files m) (m_flights m) res' (m_reaping m)).
  pose proof (delete_Permutation _ _ _ En) as Hperm. fold res' in Hperm.
  assert (wp (update_lease p;; dec_client_id_ref p) (fun _ w' =>
    st (touches (ev_end n) m) false (m_world m) 0 (m_leases (m' w')) (m_held (m' w')) (m_recs (m' w'))
      (flights_sessions (m_flights m)) w') (m_world m)) as Hwp.
  { pose proof (machine_st (touches (ev_end n) m) false m H) as Hst.
    pose proof (m_held_perm (m_world m) (m_files m) (m_flights m) p (m_reserved m) res' (m_reaping m) Hperm) as Hheld.
    assert (m_leases m ≡ₚ p :: m_leases (m' (m_world m))) as Hl.
    { unfold m_leases. cbn. rewrite Hperm. symmetry. apply Permutation_middle. }
    eapply st_perm in Hst; [|exact Hl|destruct m; exact Hheld|done].
    destruct (inv_held _ _ _ _ _ (st_inv _ _ _ _ _ _ _ _ _ Hst) p ltac:(by left)) as [i Hi].
    apply wp_bind. eapply update_st; [done|done| |].
    { cbn. rewrite En. unfold number_of. rewrite Hi. by left. }
    intros w1 H1. eapply dec_id_st; [done|]. by intros w2 H2 _. }
  assert (keeps (update_lease p;; dec_client_id_ref p)) as Hk by moves_auto.
  destruct (wp_some _ _ _ (wp_moves _ _ _ _ Hk Hwp)) as (u & w' & -> & Hw & Hk'%keep_sessions_same).
  eexists _, _. split; [done|]. apply (stepped_st _ _ _ 0); try done; by left.
Qed.

Lemma reap_check_ok ht clientid m :
  machine_inv m -> m_reaping m = None ->
  wp (reap_check ht clientid) (fun r w' =>
    let m' := mk_machine w' (m_files m) (m_flights m) (m_reserved m) r in
    st [] false (m_world m) 0 (m_leases m') (m_held m') (m_recs m') (flights_sessions (m_flights m)) w' /\
    forall p ro, r = Some (p, ro) -> exists i, w_ids w' !! p = Some i /\
      valid_lease (w_time w') i = false) (m_world m).
Proof.
  intros H Er. pose proof (machine_st [] false m H) as Hst. unfold m_held, m_recs in Hst.
  rewrite Er in Hst. unfold reap_check. wp_step.
  destruct (table_of ht (m_world m) !! clientid) as [p|] eqn:Et; [|by apply wp_ret].
  destruct (table_entry _ _ _ _ _ _ _ (mi_inv _ H) Et) as (i & Hp & _).
  wp_step. wp_step. destruct (valid_lease (w_time (m_world m)) i) eqn:Ev; [by apply wp_ret|].
  apply wp_bind. eapply reap_pin_st; [done|done|by eapply table_usable; [apply H|]|].
  intros w1 H1 Hm1 Ei1 _. apply wp_ret. split; [exact H1|]. intros q ro [= <- <-]. eexists.
  rewrite Ei1, lookup_insert_eq. split; [done|]. rewrite (mild_time _ _ Hm1).
  rewrite <- Ev. unfold valid_lease, lease_left. cbn. done.
Qed.

Lemma keeps_reap_check ht clientid : keeps (reap_check ht clientid).
Proof. unfold reap_check. moves_auto. Qed.

Lemma reap_expire_ok p ro m :
  machine_inv m -> m_reaping m = Some (p, ro) ->
  wp (reap_expire p ro) (fun _ w' =>
    st [] false (m_world m) 0 (m_leases m) (m_reserved m) [] (flights_sessions (m_flights m)) w' /\
    forall i, w_ids (m_world m) !! p = Some i -> forall ht, table_of ht w' = expired_table ht i (m_world m))
    (m_world m).
Proof.
  intros H Er. pose proof (machine_st [] false m H) as Hst.
  unfold m_held, m_recs in Hst. rewrite Er in Hst.
  destruct (inv_held _ _ _ _ _ (st_inv _ _ _ _ _ _ _ _ _ Hst) p ltac:(by left)) as [i Hi].
  eapply reap_expire_st; [done|done|]. intros w' H' Hm Ht. split; [done|].
  intros j Hj ht. rewrite Hi in Hj. injection Hj as <-. apply Ht.
Qed.

Lemma machine_tick d m :
  machine_inv m -> 0 <= d ->
  machine_inv (set_m_world (set_w_time (w_time (m_world m) + d) (m_world m)) m).
Proof.
  intros [Hi Hk Hl Hs Hf] Hd. split; [by destruct Hi|exact Hk| |exact Hs|exact Hf].
  intros p i Hp. destruct (Hl p i Hp) as [? ?]. cbn. split; [lia|done].
Qed.

Lemma exec_ok e m :
  machine_inv m -> sane e m -> sequence_room (m_world m) ->
  exists o m', exec e m = Some (o, m') /\ stepped e m m'.
Proof.
  intros H Hs Hg. destruct e.
  - eexists _, _. split; [done|]. split; [by apply machine_tick|cbn; lia|by apply keep_sessions_same, keep_same|done].
  - by apply compound_ok.
  - by apply advance_ok.
  - by apply begin_ok.
  - by apply end_ok.
  - cbn [exec]. destruct (wp_some _ _ _ (wp_moves _ _ _ _ keeps_reap_client_ids
      (reap_client_ids_st [] false _ _ _ _ _ _ _ (machine_st [] false m H))))
      as (n & w' & -> & (Hw & _) & Hk%keep_sessions_same).
    eexists _, _. split; [done|]. apply (stepped_st _ _ _ 0); try done; by left.
  - cbn [exec]. destruct (m_reaping m) as [x|] eqn:Er; [eexists _, _; split; [done|]; by apply stepped_idle|].
    destruct (wp_some _ _ _ (wp_moves _ _ _ _ (keeps_reap_check ht clientid) (reap_check_ok ht clientid m H Er)))
      as (r & w' & -> & [Hw _] & Hk%keep_sessions_same).
    eexists _, _. split; [done|]. apply (stepped_st _ _ _ 0); try done; by left.
  - cbn [exec]. destruct (m_reaping m) as [[p ro]|] eqn:Er; [|eexists _, _; split; [done|]; by apply stepped_idle].
    destruct (wp_some _ _ _ (wp_moves _ _ _ _ (keeps_reap_expire p ro) (reap_expire_ok p ro m H Er)))
      as (u & w' & -> & [Hw _] & Hk%keep_sessions_same).
    eexists _, _. split; [done|]. apply (stepped_st _ _ _ 0); try done; by left.
  - cbn [exec]. destruct (wp_some (nfs_release_v4_client ip_match) (fun _ w' =>
      st [] false (m_world m) 0 (m_leases m) (m_held m) (m_recs m) (flights_sessions (m_flights m)) w' /\
      sessions_keep (m_world m) w') (m_world m)) as (u & w' & -> & Hw & Hk%keep_sessions_same).
    { apply wp_moves; [apply keeps_release_v4_client|].
      eapply nfs_release_v4_client_st; [by apply machine_st|done]. }
    eexists _, _. split; [done|]. apply (stepped_st _ _ _ 0); try done; by left.
Qed.

Lemma step_ok e m :
  machine_inv m -> sane e m -> sequence_room (m_world m) ->
  exists m', step e m = Some m' /\ stepped e m m'.
Proof.
  intros H Hs Hg. destruct (exec_ok e m H Hs Hg) as (o & m' & E & Hst). exists m'.
  unfold step. by rewrite E.
Qed.

(** ** Executions *)

Lemma run_ok es m :
  machine_inv m -> all_sane es m -> 0 <= global_sequence (m_world m) ->
  global_sequence (m_world m) + Z.of_nat (length es) < 18446744073709551616 ->
  exists m', run es m = Some m' /\ machine_inv m' /\
    0 <= global_sequence (m_world m') <= global_sequence (m_world m) + Z.of_nat (length es).
Proof.
  revert m. induction es as [|e es IH]; intros m H Hs H0 Hg; cbn [run].
  { exists m. split; [done|]. split; [done|]. cbn. lia. }
  destruct Hs as [He Hs]. cbn [length] in Hg.
  destruct (step_ok e m H He) as (m' & Em & [Hm' Hsq _ _]); [unfold sequence_room; lia|].
  rewrite Em in Hs |- *. destruct (IH m' Hm' Hs) as (m2 & -> & ? & ?); [lia|lia|].
  exists m2. split; [done|]. split; [done|]. cbn [length]. lia.
Qed.

(** The states that a run reaches. *)
Record reached (m : machine) : Prop := {
  reached_inv : machine_inv m;
  reached_room : sequence_room (m_world m)
}.

Lemma run_reached t fs es m :
  all_sane es (start t fs) -> Z.of_nat (length es) < 18446744073709551615 ->
  run es (start t fs) = Some m -> reached m.
Proof.
  intros Hs Hl Hr. destruct (run_ok es (start t fs)) as (m' & E & ? & ?);
    [apply machine_inv_start|done|cbn; lia|cbn; lia|].
  rewrite Hr in E. injection E as <-. split; [done|]. cbn in *. unfold sequence_room. lia.
Qed.

(** A property that the events [ok] keep holds at the end of a run. *)
Lemma run_invariant (P : machine -> Prop) (ok : event -> machine -> Prop) t fs es m :
  P (start t fs) ->
  (forall e m1 m2, reached m1 -> sane e m1 -> ok e m1 -> step e m1 = Some m2 -> P m1 -> P m2) ->
  all_sane es (start t fs) -> Z.of_nat (length es) < 18446744073709551615 ->
  along ok es (start t fs) -> run es (start t fs) = Some m -> P m.
Proof.
  intros H0 Hstep Hs Hl Hf Hr.
  assert (0 <= global_sequence (m_world (start t fs)) /\
    global_sequence (m_world (start t fs)) + Z.of_nat (length es) < 18446744073709551615) as Hg by (cbn; lia).
  pose proof (machine_inv_start t fs) as Hi. clear Hl. revert Hr Hs Hf H0 Hg Hi. generalize (start t fs).
  induction es as [|e es IH]; intros m0 Hr Hs Hf H0 Hg Hi; cbn in Hr; [congruence|].
  destruct Hs as [He Hs]. destruct Hf as [Hok Hf]. cbn [length] in Hg.
  assert (reached m0) as Hr0 by (split; [done|unfold sequence_room; lia]).
  destruct (step_ok e m0 Hi He) as (m1 & E & [Hi1 Hsq _ _]); [apply Hr0|]. rewrite E in Hr, Hs, Hf.
  eapply (IH m1); try done; [|lia]. by eapply Hstep.
Qed.

(** *** A lease that lapsed *)

Definition lease_range : Prop := 0 <= lease_lifetime <= 120.

Lemma valid_lease_spec t i :
  lease_range -> cid_last_renew i <= t ->
  valid_lease t i = true <->
  cid_confirmed i <> EXPIRED_CLIENT_ID /\
  (cid_lease_reservations i <> 0 /\ 0 < lease_lifetime \/ t < cid_last_renew i + lease_lifetime).
Proof.
  intros [H1 H2] Ht. unfold valid_lease, lease_left.
  destruct (decide (cid_confirmed i = EXPIRED_CLIENT_ID)) as [E|E]; [naive_solver|].
  rewrite negb_true_iff, Z.eqb_neq.
  destruct (Z.eqb_spec (cid_lease_reservations i) 0) as [Er|Er]; cbn [negb].
  - destruct (Z.ltb_spec t (cid_last_renew i + lease_lifetime)) as [Hlt|Hge]; [|split; [done|lia]].
    unfold u32. rewrite Z.mod_small by lia. split; [|lia]. intros _. split; [done|by right].
  - split; [|lia]. intros ?. split; [done|]. left. lia.
Qed.

Lemma lapsed_tick t d i :
  lease_range -> cid_last_renew i <= t -> 0 <= d ->
  valid_lease t i = false -> valid_lease (t + d) i = false.
Proof.
  intros Hr Ht Hd Hv. destruct (valid_lease (t + d) i) eqn:E; [|done].
  apply valid_lease_spec in E as [Hex Hc]; [|done|lia].
  assert (valid_lease t i = true); [|congruence]. apply valid_lease_spec; [done|done|].
  split; [done|]. destruct Hc; [by left|right; lia].
Qed.

(** The reaper holds a client id whose lease has lapsed. *)
Definition reaping_lapsed (m : machine) : Prop :=
  forall p ro i, m_reaping m = Some (p, ro) -> w_ids (m_world m) !! p = Some i ->
    valid_lease (w_time (m_world m)) i = false.

Lemma lapsed_step e m m' p i i' :
  lease_range -> machine_inv m -> sane e m -> revives e m = false -> stepped e m m' ->
  w_ids (m_world m) !! p = Some i -> w_ids (m_world m') !! p = Some i' ->
  valid_lease (w_time (m_world m)) i = false -> valid_lease (w_time (m_world m')) i' = false.
Proof.
  intros Hl H Hs Hrv [_ _ _ Hw] Hp Hp' Hv.
  assert (evolves (touches e m) (revives e m) (m_world m) (m_world m') ->
    valid_lease (w_time (m_world m')) i' = false) as Hev.
  { intros He. rewrite (ev_time _ _ _ _ He).
    destruct (ev_ids _ _ _ _ He p i' Hp') as [Hf|(j & Hj & E)].
    - assert (p < w_next (m_world m))%positive by (eapply (inv_fresh_id _ _ _ _ _ (mi_inv _ H)); eauto). lia.
    - apply (ev_lapsed _ _ _ _ _ E Hrv). by replace j with i by congruence. }
  destruct e; try by apply Hev. cbn in Hs, Hw. rewrite Hw in *. cbn in *.
  replace i' with i by congruence. apply lapsed_tick; [done| |done|done].
  apply (mi_leases _ H p i Hp).
Qed.

Lemma step_reaping e m m' :
  step e m = Some m' -> (forall ht k, e <> ev_reap_check ht k) ->
  m_reaping m' = m_reaping m \/ m_reaping m' = None.
Proof.
  unfold step. intros E Hne. destruct (exec e m) as [[o m1]|] eqn:Ee; [|done]. injection E as <-.
  assert (forall o fs w fls, m_reaping (settle o fs w fls m).2 = m_reaping m) as Hset by (by intros []).
  destruct e; cbn [exec] in Ee.
  - injection Ee as <- <-. by left.
  - destruct (start_compound _ _ _) as [[[o' fs] w]|]; [|done]. injection Ee as E. left.
    by rewrite <- (Hset o' fs w (m_flights m)), E.
  - destruct (m_flights m !! n); [|injection Ee as <- <-; by left].
    destruct (advance _ _ _) as [[[o' fs] w]|]; [|done]. injection Ee as E. left.
    by rewrite <- (Hset o' fs w (delete n (m_flights m))), E.
  - destruct (begin_operation _ _) as [[[p|] w]|]; [| |done]; injection Ee as <- <-; by left.
  - destruct (m_reserved m !! n); [|injection Ee as <- <-; by left].
    match type of Ee with match ?f with _ => _ end = _ => destruct f as [[u w]|] end; [|done].
    injection Ee as <- <-. by left.
  - destruct (reap_client_ids _) as [[u w]|]; [|done]. injection Ee as <- <-. by left.
  - by destruct (Hne ht clientid).
  - destruct (m_reaping m) as [[p ro]|] eqn:Er; [|injection Ee as <- <-; by right].
    destruct (reap_expire _ _ _) as [[u w]|]; [|done]. injection Ee as <- <-. by right.
  - destruct (nfs_release_v4_client _ _) as [[u w]|]; [|done]. injection Ee as <- <-. by left.
Qed.

Lemma reaping_step e m m' :
  lease_range -> machine_inv m -> sane e m -> sequence_room (m_world m) -> revives e m = false ->
  step e m = Some m' -> reaping_lapsed m -> reaping_lapsed m'.
Proof.
  intros Hl H Hs Hg Hrv Est HR. destruct (step_ok e m H Hs Hg) as (m2 & E & Hst).
  rewrite Est in E. injection E as <-.
  assert (m_reaping m' = m_reaping m \/ m_reaping m' = None -> reaping_lapsed m') as Hsame.
  { intros Em p ro i' Hr Hp'. destruct Em as [Em|Em]; [|congruence]. rewrite Em in Hr.
    assert (p ∈ m_held m) as Hin by (unfold m_held; rewrite Hr; left).
    destruct (inv_held _ _ _ _ _ (mi_inv _ H) p Hin) as [i Hi].
    eapply (lapsed_step e m m' p i i'); try done. by eapply HR. }
  destruct e; try (apply Hsame; by eapply step_reaping).
  unfold step in Est. cbn [exec] in Est.
  destruct (m_reaping m) eqn:Er; [injection Est as <-; apply Hsame; left; done|].
  destruct (wp_some _ _ _ (reap_check_ok ht clientid m H Er)) as (r & w' & E & _ & Hr).
  rewrite E in Est. injection Est as <-. intros p ro i Hrp Hi. cbn in Hrp, Hi |- *.
  destruct (Hr p ro Hrp) as (j & Hj & Hv). by replace i with j by congruence.
Qed.

Lemma run_reaping t fs es m :
  lease_range -> all_sane es (start t fs) -> Z.of_nat (length es) < 18446744073709551615 ->
  along (fun e m => revives e m = false) es (start t fs) -> run es (start t fs) = Some m ->
  reaping_lapsed m.
Proof.
  intros Hl. apply (run_invariant reaping_lapsed); [done|].
  intros e m1 m2 [Hi Hg] Hs Hrv Est HR. by eapply (reaping_step e m1).
Qed.
End runs.
