(* ===== verification/ClientProps.v ===== *)
(** * Client identities of NFSv4: the properties

    What the executions of ClientRuns.v satisfy: no operation crashes, the
    tables and the client records agree, the reaper removes exactly the
    client ids whose lease has lapsed, a client id with a valid lease is not
    removed by it, and one that is no longer used goes at last. *)
From S2P Require Import Prelude Status Owners ClientData ClientOps Compound ClientInv ClientLife SessionKeep ClientFrame ClientSafe ClientSessions ClientState ClientReaper CompoundSafe ClientRuns.

Section props.
Context `{Env : ClientEnv} {Ops : FileOps} {Laws : OwnerLaws}.

(** ** The reaper *)

Lemma reap_step m :
  reached m -> exists m', step ev_reap m = Some m' /\
    forall ht k p, table_of ht (m_world m') !! k = Some p <->
      table_of ht (m_world m) !! k = Some p /\ lease_ok (m_world m) p.
Proof.
  intros [H _]. unfold step. cbn [exec].
  destruct (wp_some _ _ _ (reap_client_ids_st [] false _ _ _ _ _ _ _ (machine_st [] false m H)))
    as (n & w' & -> & _ & _ & Ht).
  eexists. split; [done|exact Ht].
Qed.

Lemma reap_expire_step m m' ht k q i :
  reached m -> reaping_lapsed m -> step ev_reap_expire m = Some m' ->
  table_of ht (m_world m) !! k = Some q -> w_ids (m_world m) !! q = Some i ->
  valid_lease (w_time (m_world m)) i = true -> table_of ht (m_world m') !! k = Some q.
Proof.
  intros [H _] HR Est Hk Hq Hv. unfold step in Est. cbn [exec] in Est.
  destruct (m_reaping m) as [[p ro]|] eqn:Er; [|by injection Est as <-].
  destruct (wp_some _ _ _ (reap_expire_ok p ro m H Er)) as (u & w' & E & _ & Ht).
  rewrite E in Est. injection Est as <-. cbn.
  assert (p ∈ m_held m) as Hin by (unfold m_held; rewrite Er; left).
  destruct (held_usable _ _ _ _ _ _ (mi_inv _ H) Hin) as (j & Hj & Hu).
  rewrite (Ht j Hj ht). unfold expired_table. destruct (decide _) as [[Hne Eht]|?]; [|done].
  destruct Hu as [?|Hh]; [done|].
  destruct (hashed_in _ _ _ _ _ _ _ (mi_inv _ H) Hj Hh) as (_ & _ & Htp). rewrite <- Eht in Htp.
  rewrite lookup_delete_ne; [done|]. intros <-. assert (q = p) as -> by congruence.
  assert (j = i) as -> by congruence. rewrite (HR p ro i Er Hq) in Hv. done.
Qed.

(** ** A client that sends nothing *)

(** An endless execution: time passes, and the reaper runs again and again. *)
Record execution (tr : nat -> machine) (lab : nat -> event) : Prop := {
  ex_start : exists t fs, tr 0%nat = start t fs;
  ex_step n : step (lab n) (tr n) = Some (tr (S n));
  ex_sane n : sane (lab n) (tr n);
  ex_room n : sequence_room (m_world (tr n));
  ex_time t : exists n, t <= w_time (m_world (tr n));
  ex_reaper n : exists k, (n <= k)%nat /\ lab k = ev_reap
}.

Section liveness.
Variables (tr : nat -> machine) (lab : nat -> event).
Hypothesis Hex : execution tr lab.

Lemma ex_inv n : machine_inv (tr n) /\ (forall k, (k < n)%nat -> stepped (lab k) (tr k) (tr (S k))).
Proof.
  induction n as [|n [IH1 IH2]].
  - destruct (ex_start _ _ Hex) as (t & fs & ->). split; [apply machine_inv_start|lia].
  - destruct (step_ok (lab n) (tr n) IH1 (ex_sane _ _ Hex n) (ex_room _ _ Hex n)) as (m' & E & Hs).
    rewrite (ex_step _ _ Hex n) in E. injection E as <-. split; [apply Hs|].
    intros k Hk. destruct (decide (k = n)) as [->|?]; [done|]. apply IH2. lia.
Qed.

Lemma ex_stepped n : stepped (lab n) (tr n) (tr (S n)).
Proof. apply (proj2 (ex_inv (S n))). lia. Qed.

Lemma ex_time_mono n k : (n <= k)%nat -> w_time (m_world (tr n)) <= w_time (m_world (tr k)).
Proof.
  induction 1 as [|k _ IH]; [lia|]. etrans; [exact IH|].
  pose proof (sp_world _ _ _ (ex_stepped k)) as Hw. pose proof (ex_sane _ _ Hex k) as Hs.
  destruct (lab k); try (rewrite (ev_time _ _ _ _ Hw); lia). cbn in Hw, Hs. rewrite Hw. cbn. lia.
Qed.

(** An allocation is never used again for another client id. *)
Lemma ex_next_mono n k : (n <= k)%nat -> (w_next (m_world (tr n)) <= w_next (m_world (tr k)))%positive.
Proof.
  induction 1 as [|k _ IH]; [lia|]. etrans; [exact IH|].
  pose proof (sp_world _ _ _ (ex_stepped k)) as Hw.
  destruct (lab k); try (exact (ev_next _ _ _ _ Hw)). cbn in Hw. rewrite Hw. cbn. lia.
Qed.

(** A client id stays out of the tables. *)
Lemma ex_untabled n k p :
  (p < w_next (m_world (tr n)))%positive -> (n <= k)%nat ->
  (forall c, ~ tabled (m_world (tr n)) c p) -> forall c, ~ tabled (m_world (tr k)) c p.
Proof.
  intros Hp Hk Hn. induction Hk as [|k Hk IH]; [done|]. intros c Hc.
  pose proof (sp_world _ _ _ (ex_stepped k)) as Hw. pose proof (ex_next_mono n k Hk).
  assert (tabled (m_world (tr k)) c p) as Hc'; [|by apply (IH c)].
  destruct (lab k); try (destruct (ev_tabled _ _ _ _ Hw c p Hc); [lia|done]).
  cbn in Hw. by rewrite Hw in Hc.
Qed.

(** The lease of a client id that sends nothing does not change. *)
Lemma ex_silent n0 k p i :
  w_ids (m_world (tr n0)) !! p = Some i ->
  (forall n, (n0 <= n)%nat -> cid_clientid i ∉ touches (lab n) (tr n)) ->
  (n0 <= k)%nat -> forall j, w_ids (m_world (tr k)) !! p = Some j ->
  cid_clientid j = cid_clientid i /\ cid_last_renew j = cid_last_renew i /\
  cid_lease_reservations j = cid_lease_reservations i.
Proof.
  intros Hi Hs Hk. assert (p < w_next (m_world (tr n0)))%positive as Hp.
  { eapply (inv_fresh_id _ _ _ _ _ (mi_inv _ (proj1 (ex_inv n0)))). eauto. }
  induction Hk as [|k Hk IH]; intros j Hj; [naive_solver|].
  pose proof (sp_world _ _ _ (ex_stepped k)) as Hw. pose proof (ex_next_mono n0 k Hk).
  pose proof (Hs k Hk) as Hsk.
  destruct (lab k); try (destruct (ev_ids _ _ _ _ Hw p j Hj) as [?|(j' & Hj' & E)]; [lia|];
    destruct (IH j' Hj') as (E1 & E2 & E3); rewrite (ev_clientid _ _ _ _ _ E);
    destruct (ev_lease _ _ _ _ _ E) as [-> ->]; [by rewrite E1|done]).
  cbn in Hw. rewrite Hw in Hj. by apply IH.
Qed.

Lemma silent_gone n0 p i :
  lease_range -> w_ids (m_world (tr n0)) !! p = Some i -> p ∉ m_leases (tr n0) ->
  (forall n, (n0 <= n)%nat -> cid_clientid i ∉ touches (lab n) (tr n)) ->
  exists m, (n0 <= m)%nat /\ forall n, (m <= n)%nat -> forall c, ~ tabled (m_world (tr n)) c p.
Proof.
  intros Hl Hi Hres Hs.
  destruct (ex_time _ _ Hex (cid_last_renew i + lease_lifetime)) as [n1 Hn1].
  destruct (ex_reaper _ _ Hex (n0 + n1)%nat) as (k & Hk & Ek).
  assert (p < w_next (m_world (tr (S k))))%positive as Hp.
  { assert (p < w_next (m_world (tr n0)))%positive.
    { eapply (inv_fresh_id _ _ _ _ _ (mi_inv _ (proj1 (ex_inv n0)))). eauto. }
    pose proof (ex_next_mono n0 (S k) ltac:(lia)). lia. }
  exists (S k). split; [lia|]. intros n Hn. apply (ex_untabled (S k) n p Hp Hn). intros c Hc.
  pose proof (ex_step _ _ Hex k) as Est. rewrite Ek in Est.
  destruct (reap_step (tr k)) as (m' & Est' & Ht); [split; [apply ex_inv|apply (ex_room _ _ Hex)]|].
  rewrite Est in Est'. injection Est' as <-.
  assert (exists ht, table_of ht (m_world (tr (S k))) !! c = Some p) as [ht Htp]
    by (destruct Hc; [by exists confirmed_table|by exists unconfirmed_table]).
  apply Ht in Htp as [Htp Hok].
  destruct (table_entry _ _ _ _ _ _ _ (mi_inv _ (proj1 (ex_inv k))) Htp) as (j & Hj & _).
  specialize (Hok j Hj). destruct (ex_silent n0 k p i Hi Hs ltac:(lia) j Hj) as (_ & E1 & E2).
  apply valid_lease_spec in Hok as [_ Hv]; [|done|apply (mi_leases _ (proj1 (ex_inv k)) p j Hj)].
  rewrite E1, E2 in Hv. pose proof (ex_time_mono n1 k ltac:(lia)).
  destruct (mi_leases _ (proj1 (ex_inv n0)) p i Hi) as [_ E]. rewrite (cnt_zero p) in E by done.
  destruct Hv as [[? _]|?]; [done|lia].
Qed.
End liveness.

(** ** Every execution *)

(** The pointers of the tables, of the client ids, of the records and of the
    sessions lead to objects that are allocated. *)
Record no_dangling (w : client_world) : Prop := {
  nd_table ht k p : table_of ht w !! k = Some p -> is_Some (w_ids w !! p);
  nd_record p i r : w_ids w !! p = Some i -> cid_client_record i = Some r -> is_Some (w_recs w !! r);
  nd_confirmed r c p : w_recs w !! r = Some c ->
    cr_confirmed_rec c = Some p \/ cr_unconfirmed_rec c = Some p -> is_Some (w_ids w !! p);
  nd_session_table sid s : ht_session_id w !! sid = Some s -> is_Some (w_sessions w !! s);
  nd_session s x : w_sessions w !! s = Some x -> is_Some (w_ids w !! clientid_record x);
  nd_session_list p i s : w_ids w !! p = Some i -> s ∈ session_list i -> is_Some (w_sessions w !! s)
}.

Lemma inv_no_dangling hi hr hs w : inv hi hr hs None w -> no_dangling w.
Proof.
  intros H. split.
  - intros ht k p Hk. destruct (table_entry _ _ _ _ _ _ _ H Hk) as (i & Hi & _). eauto.
  - intros p i r Hp Er. by eapply inv_link_some.
  - intros r c p Hr [Hc|Hc]; [destruct (conf_ptr _ _ _ _ _ _ _ H Hr Hc) as (i & Hi & _)|
      destruct (unconf_ptr _ _ _ _ _ _ _ H Hr Hc) as (i & Hi & _)]; eauto.
  - intros sid s Hs. destruct (inv_session_tab _ _ _ _ _ H sid s Hs) as (x & Hx & _). eauto.
  - intros s x Hx. destruct (inv_session _ _ _ _ _ H s x Hx) as ((i & Hi & _) & _); [done|eauto].
  - intros p i s Hp Hs. destruct (inv_list _ _ _ _ _ H p i Hp) as [_ Hl].
    destruct (Hl s Hs) as (x & Hx & _). eauto.
Qed.

(** C2: Every sequence of requests, with the operations of their compounds
    interleaved with each other, with operations in progress, with the two
    halves of the reaper, with its whole runs and with released addresses,
    runs to its end: no client id, record or session is used after it was
    freed and no assertion on a reference count fails.  The state at the end
    has no dangling pointer, and the sessions of the compounds in progress are
    allocated.  [all_sane] asks that SETCLIENTID_CONFIRM and CREATE_SESSION
    name client ids of their own minor version (ClientFindings.v has the crash
    that follows otherwise) and that CREATE_SESSION does not follow SEQUENCE;
    an operation is one step, so that the lookup of a client id is not
    separated from the lock of its record. *)
Theorem client_runs_safe t fs es :
  all_sane es (start t fs) -> Z.of_nat (length es) < 18446744073709551615 ->
  exists m, run es (start t fs) = Some m /\ no_dangling (m_world m) /\
    forall fl s, fl ∈ m_flights m -> session (fl_data fl) = Some s ->
      is_Some (w_sessions (m_world m) !! s).
Proof.
  intros Hs Hl. destruct (run_ok es (start t fs)) as (m & E & H & _);
    [apply machine_inv_start|done|cbn; lia|cbn; lia|].
  exists m. split; [done|]. split; [eapply inv_no_dangling, H|]. intros fl s Hin Es.
  eapply (inv_session_held _ _ _ _ _ (mi_inv _ H)). by eapply flight_session.
Qed.

(** C14: After every execution a client owner has at most one confirmed
    client id, and that one is found under its number in the table of
    confirmed client ids and from the record of the owner. *)
Theorem one_confirmed_per_owner t fs es m p1 p2 i1 i2 r1 r2 c1 c2 :
  all_sane es (start t fs) -> Z.of_nat (length es) < 18446744073709551615 ->
  run es (start t fs) = Some m ->
  w_ids (m_world m) !! p1 = Some i1 -> cid_confirmed i1 = CONFIRMED_CLIENT_ID ->
  cid_client_record i1 = Some r1 -> w_recs (m_world m) !! r1 = Some c1 ->
  w_ids (m_world m) !! p2 = Some i2 -> cid_confirmed i2 = CONFIRMED_CLIENT_ID ->
  cid_client_record i2 = Some r2 -> w_recs (m_world m) !! r2 = Some c2 ->
  same_client_record c1 c2 = true ->
  p1 = p2 /\ cr_confirmed_rec c1 = Some p1 /\
  ht_confirmed_client_id (m_world m) !! cid_clientid i1 = Some p1.
Proof.
  intros Hs Hl Hr Hp1 E1 Er1 Hr1 Hp2 E2 Er2 Hr2 Hsame.
  destruct (run_reached t fs es m Hs Hl Hr) as [[H _ _ _ _] _].
  assert (forall p i r c, w_ids (m_world m) !! p = Some i -> cid_confirmed i = CONFIRMED_CLIENT_ID ->
    cid_client_record i = Some r -> w_recs (m_world m) !! r = Some c ->
    cr_confirmed_rec c = Some p /\ ht_confirmed_client_id (m_world m) !! cid_clientid i = Some p) as Hc.
  { intros p i r c Hp E Er Hc. pose proof (ids_view _ _ _ Hp) as Hv. unfold ident in Hv. rewrite E, Er in Hv.
    destruct (tab_confirmed _ _ _ _ (inv_tab _ _ _ _ _ H) p _ _ Hv) as (Ht & r' & a & [= <-] & Hr').
    split; [|done]. rewrite (recs_view _ _ _ Hc) in Hr'. unfold ptrs in Hr'. congruence. }
  assert (r1 = r2) as -> by (by eapply (recs_keys _ _ _ _ (inv_recs _ _ _ _ _ H))).
  destruct (Hc p1 i1 r2 c1) as [Ep1 Ht]; try done. destruct (Hc p2 i2 r2 c2) as [Ep2 _]; try done.
  assert (c1 = c2) as -> by congruence. split; [congruence|done].
Qed.

(** C13: After every execution a run of the reaper ends, and it leaves in
    each table exactly the client ids whose lease is valid. *)
Theorem reaper_exact t fs es m :
  all_sane es (start t fs) -> Z.of_nat (length es) < 18446744073709551615 ->
  run es (start t fs) = Some m ->
  exists m', step ev_reap m = Some m' /\
    forall ht k p, table_of ht (m_world m') !! k = Some p <->
      table_of ht (m_world m) !! k = Some p /\ lease_ok (m_world m) p.
Proof. intros Hs Hl Hr. apply reap_step. by eapply run_reached. Qed.

(** C12: In executions without CREATE_SESSION the reaper never removes a
    client id whose lease is valid at that moment, also when the lease was
    judged before and the client ran on while the reaper waited. *)
Theorem lease_protects t fs es m e m' ht k p i :
  lease_range -> all_sane es (start t fs) -> Z.of_nat (length es) < 18446744073709551615 ->
  along (fun e m => revives e m = false) es (start t fs) -> run es (start t fs) = Some m ->
  e = ev_reap \/ e = ev_reap_expire -> step e m = Some m' ->
  table_of ht (m_world m) !! k = Some p -> w_ids (m_world m) !! p = Some i ->
  valid_lease (w_time (m_world m)) i = true ->
  table_of ht (m_world m') !! k = Some p.
Proof.
  intros Hl Hs Hlen Hf Hr He Est Hk Hp Hv. pose proof (run_reached t fs es m Hs Hlen Hr) as Hm.
  destruct He as [-> | ->].
  - destruct (reap_step m Hm) as (m2 & E & Ht). rewrite Est in E. injection E as <-.
    apply Ht. split; [done|]. intros j Hj. congruence.
  - eapply reap_expire_step; try done. by eapply run_reaping.
Qed.

(** C11: In every endless execution in which time passes and the reaper runs
    again and again, a client id for which no operation or compound is in
    progress and none arrives any more is out of the tables from some moment
    on. *)
Theorem silent_client_expires tr lab n0 p i :
  lease_range -> execution tr lab ->
  w_ids (m_world (tr n0)) !! p = Some i -> p ∉ m_leases (tr n0) ->
  (forall n, (n0 <= n)%nat -> cid_clientid i ∉ touches (lab n) (tr n)) ->
  exists m, (n0 <= m)%nat /\ forall n, (m <= n)%nat -> forall c, ~ tabled (m_world (tr n)) c p.
Proof. intros Hl Hex Hi Hr Hs. by eapply (silent_gone tr lab Hex). Qed.
End props.

(** ** A configuration *)

#[local] Instance demo_env : ClientEnv := {|
  lease_lifetime := 60;
  ServerEpoch := 7;
  allow_delegations := false;
  pnfs_mds := false;
  pnfs_ds := false;
  CityHash64WithSeed := fun val seed => seed;
  gss_same_name := Z.eqb;
  state_nfs4_owner_unlock_all := fun o =>
    mk_owner (so_ptr o) (so_refcount o - Z.of_nat (length (so_state_list o))) [] (so_cached o)
      (so_related_owner o);
  release_openstate := fun o =>
    mk_owner (so_ptr o) (so_refcount o - Z.of_nat (length (so_state_list o)) - b2z (so_cached o)) []
      false (so_related_owner o);
  revoke_owner_layouts := fun l => l;
  revoke_owner_delegs := fun _ => []
|}.

#[local] Instance demo_laws : OwnerLaws.
Proof. by split. Qed.

(** Files that keep a log of what was done to them. *)
#[local] Instance demo_ops : FileOps := {|
  files := list (Z * list Z);
  op_permitted := fun _ _ => NFS4_OK;
  other_op := fun opcode args fs => (NFS4_OK, [Z.of_nat (length fs)], fs ++ [(opcode, args)])
|}.

Definition no_files : files := [].

Definition demo_rq (minorversion uid : Z) : request :=
  mk_request minorversion (AUTH_UNIX uid uid) (Some 1) 0 (AF_INET 16909060 700).

(** A request with its operations. *)
Definition send (minorversion uid : Z) (ops : list nfs_argop4) : event :=
  ev_compound (mk_args (demo_rq minorversion uid) true true ops).

(** Checks for concrete executions. *)
Definition named_minorb (f : Z -> bool) (clientid : Z) (w : client_world) : bool :=
  forallb (fun ht =>
    match table_of ht w !! clientid with
    | Some p => match w_ids w !! p with Some i => f (cid_minorversion i) | None => true end
    | None => true
    end) [confirmed_table; unconfirmed_table].

Definition op_saneb (w : client_world) (rq : request) (pos : Z) (op : nfs_argop4) : bool :=
  (0 <=? rq_minorversion rq) &&
  match op with
  | OP_SETCLIENTID_CONFIRM _ clientid _ =>
      (0 <? rq_minorversion rq) || named_minorb (fun v => v =? 0) clientid w
  | OP_CREATE_SESSION clientid _ _ _ _ =>
      (rq_minorversion rq =? 0) || (pos =? 0) && named_minorb (fun v => 0 <? v) clientid w
  | OP_other opcode _ => bool_decide (opcode ∉ modelled_ops)
  | _ => true
  end.

Definition saneb (e : event) (m : machine) : bool :=
  match e with
  | ev_tick d => 0 <=? d
  | _ =>
      match next_op e m with
      | Some (rq, op, d) => op_saneb (m_world m) rq (oppos d) op
      | None => true
      end
  end.

(** [P] at each event, as a boolean. *)
Fixpoint alongb (P : event -> machine -> bool) (es : list event) (m : machine) : bool :=
  match es with
  | [] => true
  | e :: es => P e m && match step e m with Some m' => alongb P es m' | None => true end
  end.

Lemma named_minorb_ok f (P : Z -> Prop) clientid w :
  (forall v, f v = true -> P v) -> named_minorb f clientid w = true -> named_minor P clientid w.
Proof.
  intros Hf H ht p i Ht Hi. apply Hf. unfold named_minorb in H. cbn in H.
  apply andb_true_iff in H as [H1 [H2 _]%andb_true_iff].
  destruct ht; cbn in Ht; rewrite Ht in *; by rewrite Hi in *.
Qed.

Lemma op_saneb_ok w rq pos op : op_saneb w rq pos op = true -> op_sane w rq pos op.
Proof.
  unfold op_saneb. intros [Hm%Z.leb_le Hop]%andb_true_iff. split; [done|]. destruct op; try done.
  - intros Hle. apply orb_true_iff in Hop as [?%Z.ltb_lt|Hn]; [lia|].
    revert Hn. apply named_minorb_ok. by intros v ?%Z.eqb_eq.
  - intros Hne. apply orb_true_iff in Hop as [?%Z.eqb_eq|[Hp%Z.eqb_eq Hn]%andb_true_iff]; [done|].
    split; [done|]. revert Hn. apply named_minorb_ok. by intros v ?%Z.ltb_lt.
  - by apply bool_decide_eq_true in Hop.
Qed.

Lemma saneb_ok e m : saneb e m = true -> sane e m.
Proof.
  assert (match next_op e m with Some (rq, op, d) => op_saneb (m_world m) rq (oppos d) op | None => true end = true ->
    match next_op e m with Some (rq, op, d) => op_sane (m_world m) rq (oppos d) op | None => True end) as Hop.
  { destruct (next_op e m) as [[[rq op] d]|]; [apply op_saneb_ok|done]. }
  destruct e; try exact Hop. apply Z.leb_le.
Qed.

Lemma alongb_ok (P : event -> machine -> Prop) Pb es m :
  (forall e m, Pb e m = true -> P e m) -> alongb Pb es m = true -> along P es m.
Proof.
  intros HP. revert m. induction es as [|e es IH]; intros m; [done|]. cbn.
  intros [He Hs]%andb_true_iff. split; [by apply HP|]. destruct (step e m); [by apply IH|done].
Qed.

Lemma all_saneb_ok es m : alongb saneb es m = true -> all_sane es m.
Proof. apply alongb_ok, saneb_ok. Qed.

(** A v4.0 client and a v4.1 client with opens, locks and sessions; the first
    client id the server hands out. *)
Definition demo_id (n : Z) : Z := 7 * 4294967296 + n.

Definition demo_events : list event :=
  [send 0 100 [OP_SETCLIENTID [1; 2] 55 []];
   send 0 100 [OP_SETCLIENTID_CONFIRM true (demo_id 1) 1];
   send 1 200 [OP_EXCHANGE_ID [3; 4] 66 0 0 true];
   send 1 200 [OP_CREATE_SESSION (demo_id 2) 1 0 8 true];
   send 0 100 [OP_OPEN (demo_id 1) 10 1; OP_LOCK (demo_id 1) 11 10 2];
   send 1 200 [OP_SEQUENCE (demo_id 2, 1) 1 0 true; OP_other 22 [5]; OP_OPEN 0 20 3; OP_other 38 [6]];
   ev_advance 1; ev_advance 0; ev_begin (demo_id 1);
   ev_tick 50; ev_end 0; ev_tick 20; ev_reap_check confirmed_table (demo_id 1);
   send 0 100 [OP_RENEW (demo_id 1)]].

Definition demo_machine : machine := default (start 0 no_files) (run demo_events (start 1000 no_files)).

Lemma demo_run : run demo_events (start 1000 no_files) = Some demo_machine.
Proof. vm_compute. reflexivity. Qed.

Lemma demo_sane : all_sane demo_events (start 1000 no_files).
Proof. apply all_saneb_ok. vm_compute. reflexivity. Qed.

Lemma client_runs_safe_witness :
  exists m, run demo_events (start 1000 no_files) = Some m /\ no_dangling (m_world m) /\
    forall fl s, fl ∈ m_flights m -> session (fl_data fl) = Some s ->
      is_Some (w_sessions (m_world m) !! s).
Proof. apply (client_runs_safe 1000 no_files demo_events); [apply demo_sane|vm_compute; reflexivity]. Defined.

Lemma reaper_exact_witness :
  exists m', step ev_reap demo_machine = Some m' /\
    forall ht k p, table_of ht (m_world m') !! k = Some p <->
      table_of ht (m_world demo_machine) !! k = Some p /\ lease_ok (m_world demo_machine) p.
Proof.
  apply (reaper_exact 1000 no_files demo_events); [apply demo_sane|vm_compute; reflexivity|apply demo_run].
Defined.

Lemma one_confirmed_per_owner_witness :
  exists p i, w_ids (m_world demo_machine) !! p = Some i /\
    ht_confirmed_client_id (m_world demo_machine) !! cid_clientid i = Some p.
Proof.
  destruct (w_ids (m_world demo_machine) !! 2%positive) as [i|] eqn:Ei; [|vm_compute in Ei; discriminate].
  destruct (w_recs (m_world demo_machine) !! 1%positive) as [c|] eqn:Ec; [|vm_compute in Ec; discriminate].
  exists 2%positive, i. split; [done|].
  eapply (one_confirmed_per_owner 1000 no_files demo_events demo_machine 2 2 i i 1 1 c c);
    [apply demo_sane|vm_compute; reflexivity|apply demo_run|exact Ei| | |exact Ec|exact Ei| | |exact Ec|];
    vm_compute in Ei, Ec; injection Ei as <-; injection Ec as <-; reflexivity.
Defined.

(** A client whose lease has lapsed, one that was renewed, and the reaper
    about to expire the first. *)
Definition demo_events40 : list event :=
  [send 0 100 [OP_SETCLIENTID [1; 2] 55 []]; send 0 100 [OP_SETCLIENTID_CONFIRM true (demo_id 1) 1];
   send 0 200 [OP_SETCLIENTID [3; 4] 66 []]; send 0 200 [OP_SETCLIENTID_CONFIRM true (demo_id 2) 2];
   ev_tick 50; send 0 200 [OP_RENEW (demo_id 2); OP_other 22 []]; ev_tick 20;
   ev_reap_check confirmed_table (demo_id 1); send 0 200 [OP_OPEN (demo_id 2) 20 3]; ev_advance 0].

Definition demo_machine40 : machine := default (start 0 no_files) (run demo_events40 (start 1000 no_files)).

Lemma lease_protects_witness :
  exists m', step ev_reap_expire demo_machine40 = Some m' /\
    table_of confirmed_table (m_world m') !! demo_id 1 = None /\
    table_of confirmed_table (m_world m') !! demo_id 2 = Some 4%positive.
Proof.
  destruct (step ev_reap_expire demo_machine40) as [m'|] eqn:Es; [|vm_compute in Es; discriminate].
  exists m'. split; [done|]. split; [vm_compute in Es; injection Es as <-; vm_compute; reflexivity|].
  destruct (w_ids (m_world demo_machine40) !! 4%positive) as [i|] eqn:Ei; [|vm_compute in Ei; discriminate].
  apply (lease_protects 1000 no_files demo_events40 demo_machine40 ev_reap_expire m' confirmed_table (demo_id 2) 4 i).
  - split; vm_compute; discriminate.
  - apply all_saneb_ok. vm_compute. reflexivity.
  - vm_compute. reflexivity.
  - apply (alongb_ok _ (fun e m => negb (revives e m))); [by intros e m ?%negb_true_iff|]. vm_compute. reflexivity.
  - vm_compute. reflexivity.
  - by right.
  - exact Es.
  - vm_compute. reflexivity.
  - exact Ei.
  - vm_compute in Ei. injection Ei as <-. vm_compute. reflexivity.
Defined.

(** A client that confirms its client id and is not heard of again. *)
Definition quiet_lab (n : nat) : event :=
  match n with
  | 0%nat => send 0 100 [OP_SETCLIENTID [1; 2] 55 []]
  | 1%nat => send 0 100 [OP_SETCLIENTID_CONFIRM true (demo_id 1) 1]
  | S (S k) => if Nat.even k then ev_tick 60 else ev_reap
  end.

Definition quiet_machine (n : nat) : machine :=
  default (start 0 no_files) (run (quiet_lab <$> seq 0 n) (start 1000 no_files)).

Definition quiet_tr (n : nat) : machine :=
  match n with
  | S (S (S (S k))) =>
      mk_machine (set_w_time (1060 + 60 * Z.of_nat (Nat.div2 (S k))) (m_world (quiet_machine 4))) no_files [] [] None
  | _ => quiet_machine n
  end.

Lemma quiet_idle t :
  step ev_reap (mk_machine (set_w_time t (m_world (quiet_machine 4))) no_files [] [] None)
  = Some (mk_machine (set_w_time t (m_world (quiet_machine 4))) no_files [] [] None).
Proof. vm_compute. reflexivity. Qed.

Lemma quiet_half k :
  Z.of_nat (Nat.div2 (S (S k))) = Z.of_nat (Nat.div2 (S k)) + (if Nat.even k then 1 else 0).
Proof.
  destruct (Nat.even k) eqn:Ek.
  - apply Nat.even_spec in Ek as [j ->]. replace (S (S (2 * j))) with (2 * S j)%nat by lia.
    rewrite Nat.div2_double. replace (S (2 * j)) with (2 * j + 1)%nat by lia.
    rewrite Nat.div2_odd'. lia.
  - assert (Nat.odd k = true) as Hk by (unfold Nat.odd; by rewrite Ek).
    apply Nat.odd_spec in Hk as [j ->]. replace (S (2 * j + 1)) with (2 * S j)%nat by lia.
    rewrite Nat.div2_double. replace (S (2 * S j)) with (2 * S j + 1)%nat by lia.
    rewrite Nat.div2_odd'. lia.
Qed.

Lemma quiet_step n : step (quiet_lab n) (quiet_tr n) = Some (quiet_tr (S n)).
Proof.
  destruct n as [|[|[|[|k]]]]; [vm_compute; reflexivity..|]. cbn [quiet_lab quiet_tr].
  change (Nat.even (S (S k))) with (Nat.even k). rewrite quiet_half.
  pose proof quiet_idle as Hidle. revert Hidle. generalize (m_world (quiet_machine 4)). intros w Hidle.
  destruct (Nat.even k); [|by rewrite Hidle, Z.add_0_r].
  unfold step. cbn [exec fmap option_fmap option_map snd set_m_world m_world m_files m_flights m_reserved m_reaping set_w_time w_time].
  by replace (1060 + 60 * (Z.of_nat (Nat.div2 (S k)) + 1))
    with (1060 + 60 * Z.of_nat (Nat.div2 (S k)) + 60) by lia.
Qed.

Lemma quiet_execution : execution quiet_tr quiet_lab.
Proof.
  split.
  - exists 1000, no_files. vm_compute. reflexivity.
  - apply quiet_step.
  - intros [|[|n]]; [apply saneb_ok; vm_compute; reflexivity| |].
    + apply saneb_ok. vm_compute. reflexivity.
    + cbn [quiet_lab]. destruct (Nat.even n); cbn; [lia|done].
  - intros [|[|[|[|n]]]]; (split; [vm_compute; discriminate|vm_compute; reflexivity]).
  - intros t. exists (4 + 2 * Z.to_nat t)%nat. cbn [quiet_tr Nat.add].
    replace (S (2 * Z.to_nat t)) with (2 * Z.to_nat t + 1)%nat by lia. rewrite Nat.div2_odd'.
    cbn [m_world set_w_time w_time]. lia.
  - intros n. exists (2 * n + 3)%nat. split; [lia|].
    replace (2 * n + 3)%nat with (S (S (2 * n + 1))) by lia. cbn [quiet_lab].
    by rewrite Nat.even_add, Nat.even_mul.
Qed.

Lemma silent_client_expires_witness :
  exists m, (2 <= m)%nat /\ forall n, (m <= n)%nat -> forall c, ~ tabled (m_world (quiet_tr n)) c 2%positive.
Proof.
  destruct (w_ids (m_world (quiet_tr 2)) !! 2%positive) as [i|] eqn:Ei; [|vm_compute in Ei; discriminate].
  apply (silent_client_expires quiet_tr quiet_lab 2 2 i).
  - split; vm_compute; discriminate.
  - apply quiet_execution.
  - exact Ei.
  - intros H. vm_compute in H. by apply elem_of_nil in H.
  - intros [|[|n]] Hn; [lia|lia|]. cbn [quiet_lab]. destruct (Nat.even n); apply not_elem_of_nil.
Defined.
