(* ===== verification/CompoundOnce.v ===== *)
(** * Sessions of NFSv4.1: exactly once

    What a slot of a session is for: the requests that run on it have the
    sequence numbers 1, 2, 3, ..., each one once, and a request that is sent
    again after its reply gets that reply, without another effect.  A compound
    that takes its steps with nothing in between does what [nfs4_Compound]
    does. *)
From S2P Require Import Prelude Status Owners ClientData ClientOps Compound ClientInv ClientLife SessionKeep ClientFrame ClientSafe ClientSessions ClientState ClientReaper CompoundSafe ClientRuns ClientProps.

(** ** A slot of a session *)

Definition slot_view (w : client_world) (s : positive) (k : nat) : option nfs41_session_slot_t :=
  x ← w_sessions w !! s; slots x !! k.

(** What [f] sees of a slot stays, or the session is new. *)
Record obs_keep {A} (f : nfs41_session_slot_t -> A) (s : positive) (k : nat)
    (w w' : client_world) : Prop := {
  ok_next : (w_next w <= w_next w')%positive;
  ok_view sl' : slot_view w' s k = Some sl' ->
    (exists sl, slot_view w s k = Some sl /\ f sl' = f sl)
    \/ (w_next w <= s < w_next w')%positive /\ f sl' = f zero_slot
}.

#[export] Instance obs_keep_preorder {A} (f : nfs41_session_slot_t -> A) s k : PreOrder (obs_keep f s k).
Proof.
  split.
  - intros w. split; [lia|eauto].
  - intros w1 w2 w3 [N1 K1] [N2 K2]. split; [lia|]. intros sl3 H3.
    destruct (K2 sl3 H3) as [(sl2 & H2 & E2)|[? ?]]; [|right; split; [lia|done]].
    destruct (K1 sl2 H2) as [(sl1 & H1 & E1)|[? E1]]; [left|right].
    + exists sl1. split; [done|congruence].
    + split; [lia|congruence].
Qed.

Lemma slot_view_some w s k x sl :
  w_sessions w !! s = Some x -> slots x !! k = Some sl -> slot_view w s k = Some sl.
Proof. intros Hx Hs. unfold slot_view. rewrite Hx. exact Hs. Qed.

Lemma slot_view_inv w s k sl :
  slot_view w s k = Some sl -> exists x, w_sessions w !! s = Some x /\ slots x !! k = Some sl.
Proof. unfold slot_view. destruct (w_sessions w !! s) as [x|]; [|done]. cbn. eauto. Qed.

Section once.
Context `{Env : ClientEnv} {Ops : FileOps}.

Section slot.
Context {A : Type} (f : nfs41_session_slot_t -> A) (s : positive) (k : nat).

Lemma obs_keep_sessions w w' : sessions_keep w w' -> obs_keep f s k w w'.
Proof.
  intros [Hn Hk]. split; [done|]. intros sl' (x' & Hx' & Hs')%slot_view_inv.
  destruct (Hk s x' Hx') as [(x & Hx & Hr)|[? [E _]]].
  - left. exists sl'. split; [|done]. rewrite Hr in Hs'. by eapply slot_view_some.
  - right. split; [done|]. rewrite E in Hs'. apply lookup_replicate_1 in Hs' as [-> _]. done.
Qed.

Lemma obs_keeps {B} (m : CM B) : keeps m -> moves (obs_keep f s k) m.
Proof. intros Hm w a w' E. apply obs_keep_sessions. by eapply Hm. Qed.

(** A write to a slot that [f] does not see. *)
Lemma obs_put w s' x n v sl :
  w_sessions w !! s' = Some x -> slots x !! n = Some sl ->
  s' <> s \/ n <> k \/ f v = f sl ->
  obs_keep f s k w (set_w_sessions (<[s' := set_slot n v x]> (w_sessions w)) w).
Proof.
  intros Hx Hsl Hne. split; [cbn; lia|]. intros sl' (x' & Hx' & Hs')%slot_view_inv. left.
  cbn in Hx'. apply lookup_insert_Some in Hx' as [[<- <-]|[_ Hx']].
  - cbn in Hs'. destruct (decide (n = k)) as [->|Hnk].
    + rewrite list_lookup_insert_eq in Hs' by (by eapply lookup_lt_Some).
      injection Hs' as <-. exists sl. split; [by eapply slot_view_some|]. by destruct Hne as [?|[?|?]].
    + rewrite list_lookup_insert_ne in Hs' by done. exists sl'. split; [by eapply slot_view_some|done].
  - exists sl'. split; [by eapply slot_view_some|done].
Qed.

Lemma obs_save_reply loc r :
  loc <> slot_cache s k \/ (forall sl, f (set_cached_result r sl) = f sl) ->
  moves (obs_keep f s k) (save_reply loc r).
Proof.
  intros Hne. destruct loc as [s' n|p]; cbn [save_reply]; [|apply obs_keeps; moves_auto].
  intros w a w' E. unfold mbind, CM_bind, get_session in E.
  destruct (w_sessions w !! s') as [x|] eqn:Ex; [|done].
  destruct (slots x !! n) as [sl|] eqn:Es; [|done]. injection E as <- <-.
  eapply obs_put; [done|done|]. destruct Hne as [Hne|Hf]; [|by right; right].
  destruct (decide (s' = s)) as [->|]; [|by left]. right. left. congruence.
Qed.

Lemma obs_finish status d results :
  use_drc d = true \/ cached_res d <> Some (slot_cache s k) \/
  (forall r sl, f (set_cached_result r sl) = f sl) ->
  moves (obs_keep f s k) (compound_finish status d results).
Proof.
  intros Hne. unfold compound_finish. apply moves_bind; [apply _| |].
  - destruct (cached_res d) as [loc|]; [|apply moves_ret, _].
    destruct (use_drc d); [apply obs_keeps; unfold load_reply; destruct loc; moves_auto|].
    apply moves_bind; [apply _| |intros []; apply moves_ret, _].
    apply obs_save_reply. destruct Hne as [?|[Hne|Hf]]; [done|left; congruence|by right].
  - intros r. apply obs_keeps. moves_auto.
Qed.
End slot.

Lemma bind_inv {A B} (m : CM A) (g : A -> CM B) w b w2 :
  (m ≫= g) w = Some (b, w2) -> exists a w1, m w = Some (a, w1) /\ g a w1 = Some (b, w2).
Proof. unfold mbind, CM_bind. destruct (m w) as [[a w1]|]; [eauto|done]. Qed.

(** What every result of a function satisfies. *)
Definition returns {A} (P : A -> Prop) (m : CM A) : Prop :=
  forall w a w', m w = Some (a, w') -> P a.

Lemma returns_ret {A} (P : A -> Prop) a : P a -> returns P (mret a).
Proof. by intros Ha w b w' [= <- <-]. Qed.

Lemma returns_crash {A} (P : A -> Prop) : returns P crash.
Proof. by intros w a w'. Qed.

Lemma returns_bind {A B} (P : B -> Prop) (m : CM A) (g : A -> CM B) :
  (forall a, returns P (g a)) -> returns P (m ≫= g).
Proof. intros Hg w b w2 (a & w1 & _ & E)%bind_inv. by eapply Hg. Qed.

(** CREATE_SESSION does not point [cached_res] at a slot. *)
Definition not_slot (o : create_session_res) : Prop :=
  match cs_cached o with Some (slot_cache _ _) => False | _ => True end.

Lemma create_session_not_slot rq n sq fl mx b : returns not_slot (nfs4_op_create_session rq n sq fl mx b).
Proof.
  assert (forall r p u conf, returns not_slot (create_session_locked rq n sq fl mx b r p u conf)) as Hl.
  { intros r p u conf. unfold create_session_locked. apply returns_bind. intros i.
    repeat first
      [ match goal with |- returns _ (if ?c then _ else _) => destruct c end
      | match goal with |- returns _ (match ?c with _ => _ end) => destruct c end
      | apply returns_bind; intros ?
      | by apply returns_ret ]. }
  unfold nfs4_op_create_session. destruct (_ =? _); [by apply returns_ret|].
  apply returns_bind. intros [[rc u] conf]. destruct (match u with Some _ => _ | None => _ end) as [p|]; [|by apply returns_ret].
  apply returns_bind. intros r. apply returns_bind. intros _. intros w o w2 (o' & w1 & E1 & E)%bind_inv.
  apply bind_inv in E as (u' & w3 & _ & E). injection E as <- <-. by eapply Hl.
Qed.

(** An operation that is not SEQUENCE. *)
Lemma keeps_run_op rq op d fs :
  match op with OP_SEQUENCE _ _ _ _ => False | _ => True end -> keeps (run_op rq op d fs).
Proof. intros Hop. unfold run_op. destruct op; try contradiction; moves_auto. Qed.

(** ** What SEQUENCE does to the slots *)

(** The request was accepted: the slot has its sequence number. *)
Definition accepted_world (s : positive) (k : nat) (sl : nfs41_session_slot_t) (q : Z)
    (w w' : client_world) : Prop :=
  exists w1 x1, sessions_keep w w1 /\ w_sessions w1 !! s = Some x1 /\ slots x1 !! k = Some sl /\
    slot_view w s k = Some sl /\ q = u32 (slot_sequence sl + 1) /\
    w' = set_w_sessions (<[s := set_slot k (mk_slot q (cached_result sl) true) x1]> (w_sessions w1)) w1.

(** What the data of a compound say about its slot. *)
Definition same_binding (d d' : compound_data_t) : Prop :=
  session d' = session d /\ slot d' = slot d /\ sequence d' = sequence d.

(** A reply would be saved where it was to be saved before. *)
Definition same_cache (d d' : compound_data_t) : Prop :=
  use_drc d' = true \/
  forall s k, cached_res d' = Some (slot_cache s k) -> cached_res d = Some (slot_cache s k).

Definition binds (d' : compound_data_t) (s : positive) (k : nat) (q : Z) : Prop :=
  session d' = Some s /\ Z.to_nat (slot d') = k /\ sequence d' = q /\
  cached_res d' = Some (slot_cache s k) /\ use_drc d' = false.

Lemma keeps_eq {A} (m : CM A) w a w' : keeps m -> m w = Some (a, w') -> sessions_keep w w'.
Proof. intros Hm E. by eapply Hm. Qed.

Lemma session_get_next sid o w w' :
  nfs41_Session_Get_Pointer sid w = Some (o, w') -> w_next w' = w_next w.
Proof.
  unfold nfs41_Session_Get_Pointer. intros (a & w1 & E1 & E)%bind_inv. injection E1 as <- <-.
  destruct (ht_session_id w !! sid) as [s|]; [|by injection E as <- <-].
  apply bind_inv in E as (u & w2 & E2 & E). injection E as <- <-.
  unfold inc_session_ref, upd_session in E2. apply bind_inv in E2 as (x & w3 & E3 & E2).
  unfold get_session in E3. destruct (w_sessions w !! s); [|done]. injection E3 as <- <-.
  by injection E2 as _ <-.
Qed.

Lemma sequence_slots rq sid sqid sl bc d w status body d' w' :
  nfs4_op_sequence rq sid sqid sl bc d w = Some (status, body, d', w') ->
  (same_binding d d' /\ sessions_keep w w' /\ same_cache d d' /\ stops status d' = true) \/
  (exists s v, status = NFS4_OK /\ binds d' s (Z.to_nat sl) sqid /\
     accepted_world s (Z.to_nat sl) v sqid w w').
Proof.
  unfold nfs4_op_sequence. intros E.
  destruct (rq_minorversion rq =? 0); [injection E as <- <- <- <-; left; split; [by repeat split|]; split; [done|]; by split; [right|]|].
  destruct (negb (oppos d =? 0)); [injection E as <- <- <- <-; left; split; [by repeat split|]; split; [done|]; by split; [right|]|].
  apply bind_inv in E as (o & w1 & E1 & E). apply keeps_eq in E1 as K1; [|moves_auto].
  destruct o as [s|]; [|injection E as <- <- <- <-; left; split; [by repeat split|]; split; [done|]; by split; [right|]].
  apply bind_inv in E as (x & w2 & E2 & E). unfold get_session in E2.
  destruct (w_sessions w1 !! s) as [x0|] eqn:Ex; [|done]. injection E2 as -> <-.
  apply bind_inv in E as (valid & w2 & E2 & E). apply keeps_eq in E2 as K2; [|moves_auto].
  assert (forall st b dd, (dec_session_ref s;; mret (st, b, dd)) w2 = Some (status, body, d', w') ->
    same_binding d dd -> same_cache d dd -> stops st dd = true ->
    (same_binding d d' /\ sessions_keep w w' /\ same_cache d d' /\ stops status d' = true)) as Hback.
  { intros st b dd Eb Hsame Hca Hsto. apply bind_inv in Eb as (u & w3 & E3 & Eb).
    apply keeps_eq in E3; [|moves_auto]. injection Eb as <- <- <- <-. split; [done|]. split; [|done].
    etrans; [done|]. etrans; [done|done]. }
  destruct valid; cbn [negb] in E; [|left; eapply Hback; [exact E|by repeat split|by right|done]].
  destruct (ca_maxrequests x <=? sl); [left; eapply Hback; [exact E|by repeat split|by right|done]|].
  destruct (slots x !! Z.to_nat sl) as [v|] eqn:Ev; [|done].
  destruct (Z.eqb_spec (u32 (slot_sequence v + 1)) sqid) as [Eq|Hq]; cbn [negb] in E.
  2:{ destruct (slot_sequence v =? sqid); left;
      (eapply Hback; [exact E|by repeat split| |done]); [by left|by right]. }
  right. exists s, v. apply bind_inv in E as (u & w3 & E3 & E). injection E as <- <- <- <-.
  unfold upd_session in E3. apply bind_inv in E3 as (x2 & w4 & E4 & E3). unfold get_session in E4.
  destruct (w_sessions w2 !! s) as [x3|] eqn:Ex2; [|done]. injection E4 as -> <-. injection E3 as _ <-.
  assert (x2 = x) as ->.
  { unfold reserve_lease in E2. apply bind_inv in E2 as (i & w5 & E5 & E2). unfold get_id in E5.
    destruct (w_ids w1 !! clientid_record x); [|done]. injection E5 as -> <-.
    apply bind_inv in E2 as (t & w5 & E5 & E2). injection E5 as <- <-.
    destruct (valid_lease _ _); [|done]. apply bind_inv in E2 as (u' & w5 & E5 & E2).
    injection E5 as _ <-. injection E2 as <-. cbn in Ex2. congruence. }
  split; [done|]. split; [by repeat split|]. exists w2, x. rewrite Eq.
  split; [by etrans|]. repeat split; try done.
  destruct (k_session _ _ K1 s x Ex) as [(y & Hy & Hr)|[Hs _]].
  - rewrite Hr in Ev. by eapply slot_view_some.
  - rewrite (session_get_next _ _ _ _ E1) in Hs. lia.
Qed.

(** Only SEQUENCE binds a compound to a slot. *)
Lemma run_op_data rq op d fs :
  returns (fun a => match op with OP_SEQUENCE _ _ _ _ => True
                    | _ => same_binding d a.1.2 /\ same_cache d a.1.2 end) (run_op rq op d fs).
Proof.
  assert (same_binding d d /\ same_cache d d) as Hd by (split; [by repeat split|by right]).
  unfold run_op. destruct op; try (repeat first
    [ apply returns_bind; intros ? | by apply returns_ret
    | match goal with |- returns _ (let '(_, _) := ?x in _) => destruct x end
    | match goal with |- returns _ (match ?c with _ => _ end) => destruct c end ]; fail).
  intros w a w' (o & w1 & E1 & E)%bind_inv. apply create_session_not_slot in E1. injection E as <- <-.
  unfold not_slot in E1. cbn. destruct (cs_cached o) as [[s k|p]|]; [done| |].
  - split; [by repeat split|]. right. by intros s k.
  - split; [by repeat split|]. by right.
Qed.

(** What an operation does to the slots. *)
Lemma one_op_slots rq op d results fs w status d' results' fs' w' :
  one_op rq op d results fs w = Some (status, d', results', fs', w') ->
  (same_binding d d' /\ sessions_keep w w' /\ same_cache d d') \/
  (exists s v, status = NFS4_OK /\ oppos d = 0 /\ rq_minorversion rq <> 0 /\
     binds d' s (Z.to_nat (slot d')) (sequence d') /\
     accepted_world s (Z.to_nat (slot d')) v (sequence d') w w').
Proof.
  unfold one_op. intros E.
  assert (forall st rs, (mret (st, d, rs, fs) : CM _) w = Some (status, d', results', fs', w') ->
    same_binding d d' /\ sessions_keep w w' /\ same_cache d d') as Hbad.
  { intros st rs Eb. injection Eb as <- <- <- <- <-. split; [by repeat split|]. split; [done|by right]. }
  destruct (_ && _); [left; by eapply Hbad|]. apply bind_inv in E as (b & w1 & Eb & E).
  assert (w1 = w) as ->.
  { destruct (session d) as [s|]; [|by injection Eb as _ <-]. unfold get_session, mbind, CM_bind in Eb.
    destruct (w_sessions w !! s); [|done]. by injection Eb as _ <-. }
  destruct b; [left; by eapply Hbad|]. destruct (_ || _); [left; by eapply Hbad|].
  destruct (negb _); [left; by eapply Hbad|].
  apply bind_inv in E as ([[[st body] dd] fs2] & w1 & E1 & E). injection E as <- <- _ <- <-.
  assert (forall o, op = o -> match o with OP_SEQUENCE _ _ _ _ => False | _ => True end ->
    (same_binding d dd /\ same_cache d dd) -> same_binding d dd /\ sessions_keep w w1 /\ same_cache d dd) as Hkeep.
  { intros o <- Ho [? ?]. split; [done|]. split; [|done]. eapply keeps_eq; [|exact E1]. by apply keeps_run_op. }
  pose proof (run_op_data rq op d fs w _ _ E1) as Hd. cbn in Hd.
  destruct op as [sid sqid sl bc| | | | |n sq fl mx bc| | | | | |];
    try (left; by eapply Hkeep).
  cbn [run_op] in E1. apply bind_inv in E1 as ([[st2 body2] d2] & w2 & E2 & E1).
  injection E1 as <- <- <- <- <-. destruct (sequence_slots _ _ _ _ _ _ _ _ _ _ _ E2) as [(? & ? & ? & _)|(s & v & -> & Hb & Ha)];
    [by left|right]. exists s, v.
  split; [done|]. assert (oppos d = 0 /\ rq_minorversion rq <> 0) as [? ?].
  { unfold nfs4_op_sequence in E2. cbn [rq_minorversion at_position] in E2.
    destruct (Z.eqb_spec (rq_minorversion rq) 0); [done|].
    by destruct (Z.eqb_spec (oppos d) 0). }
  split; [done|]. split; [done|]. destruct Hb as (? & Esl & Esq & ? & ?). by rewrite Esl, Esq.
Qed.

Lemma accepted_other {A} (f : nfs41_session_slot_t -> A) s k v q w w' s0 k0 :
  accepted_world s k v q w w' -> s <> s0 \/ k <> k0 -> obs_keep f s0 k0 w w'.
Proof.
  intros (w1 & x1 & Hk & Hx & Hv & _ & _ & ->) Hne. etrans; [by apply obs_keep_sessions|].
  eapply obs_put; [done|done|]. destruct Hne; auto.
Qed.

Lemma accepted_self s k v q w w' :
  accepted_world s k v q w w' -> slot_view w' s k = Some (mk_slot q (cached_result v) true).
Proof.
  intros (w1 & x1 & _ & Hx & Hv & _ & _ & ->). eapply slot_view_some; [apply lookup_insert_eq|].
  cbn. apply list_lookup_insert_eq. by eapply lookup_lt_Some.
Qed.

Lemma accepted_view s k v q w w' : accepted_world s k v q w w' ->
  slot_view w s k = Some v /\ q = u32 (slot_sequence v + 1).
Proof. by intros (w1 & x1 & _ & _ & _ & ? & ? & _). Qed.

(** ** The events *)

(** The slot and the sequence number of a request that was accepted. *)
Definition accepts (e : event) (m : machine) : option (positive * nat * Z) :=
  match e with
  | ev_compound a =>
      match compound_answered a, argarray a with
      | None, op :: _ =>
          match one_op (c_rq a) op zero_data [] (m_files m) (m_world m) with
          | Some (_, d, _, _, _) =>
              match session d with
              | Some s => Some (s, Z.to_nat (slot d), sequence d)
              | None => None
              end
          | None => None
          end
      | _, _ => None
      end
  | _ => None
  end.

(** The sequence numbers accepted on a slot, in their order. *)
Fixpoint accepted (s : positive) (k : nat) (es : list event) (m : machine) : list Z :=
  match es with
  | [] => []
  | e :: es =>
      match accepts e m with
      | Some (s', k', q) => if decide ((s', k') = (s, k)) then [q] else []
      | None => []
      end ++ match step e m with Some m' => accepted s k es m' | None => [] end
  end.

Definition on_slot (s : positive) (k : nat) (fl : flight) : Prop :=
  session (fl_data fl) = Some s /\ Z.to_nat (slot (fl_data fl)) = k.

#[export] Instance on_slot_dec s k fl : Decision (on_slot s k fl).
Proof. unfold on_slot. apply _. Defined.

(** How a compound takes a step. *)
Lemma advance_inv fl fs w o fs' w' :
  advance fl fs w = Some (o, fs', w') ->
  exists status d results w1,
    one_op (fl_rq fl) (fl_op fl) (fl_data fl) (fl_results fl) fs w = Some (status, d, results, fs', w1) /\
    ((exists st' r, compound_finish st' d results w1 = Some (r, w') /\ o = finished (NFS_REQ_OK r)) \/
     (exists op rest, w1 = w' /\ stops status d = false /\
        o = running (mk_flight (fl_rq fl) op rest (set_oppos (oppos d + 1) d) results))).
Proof.
  unfold advance. intros ([[[status d] results] fs1] & w1 & E1 & E)%bind_inv.
  destruct (stops status d) eqn:Es.
  - apply bind_inv in E as (r & w2 & E2 & E). injection E as <- <- <-.
    exists status, d, results, w1. split; [done|]. left. by exists status, r.
  - destruct (fl_rest fl) as [|op rest].
    + apply bind_inv in E as (r & w2 & E2 & E). injection E as <- <- <-.
      exists status, d, results, w1. split; [done|]. left. by eexists _, r.
    + injection E as <- <- <-. exists status, d, results, w1. split; [done|]. right. by exists op, rest.
Qed.

Lemma start_inv a fs w o fs' w' :
  start_compound a fs w = Some (o, fs', w') ->
  (exists ans, o = finished ans /\ w' = w /\ fs' = fs /\
     (compound_answered a <> None \/ argarray a = [])) \/
  (exists op rest, compound_answered a = None /\ argarray a = op :: rest /\
     advance (mk_flight (c_rq a) op rest zero_data []) fs w = Some (o, fs', w')).
Proof.
  unfold start_compound. destruct (compound_answered a) as [ans|]; intros E.
  - injection E as <- <- <-. left. exists ans. repeat split. by left.
  - destruct (argarray a) as [|op rest].
    + injection E as <- <- <-. left. eexists. repeat split. by right.
    + right. by exists op, rest.
Qed.

Lemma exec_quiet e m o m' :
  exec e m = Some (o, m') ->
  match e with
  | ev_compound _ | ev_advance _ => True
  | _ => sessions_keep (m_world m) (m_world m') /\ m_flights m' = m_flights m /\ o = None
  end.
Proof.
  intros E. assert (keeps reap_client_ids) as Kr by apply keeps_reap_client_ids.
  destruct e; cbn [exec] in E; try done.
  - injection E as <- <-. by split; [apply keep_same|].
  - destruct (begin_operation clientid (m_world m)) as [[[p|] w]|] eqn:E1; [| |done];
      injection E as <- <-; (split; [|done]); cbn; (eapply keeps_eq; [apply keeps_begin|exact E1]).
  - destruct (m_reserved m !! n); [|by injection E as <- <-].
    destruct ((update_lease p;; dec_client_id_ref p) (m_world m)) as [[u w]|] eqn:E1; [|done].
    injection E as <- <-. split; [|done]. cbn. eapply keeps_eq; [|exact E1]. moves_auto.
  - destruct (reap_client_ids (m_world m)) as [[u w]|] eqn:E1; [|done]. injection E as <- <-.
    split; [|done]. cbn. by eapply Kr.
  - destruct (m_reaping m); [by injection E as <- <-|].
    destruct (reap_check ht clientid (m_world m)) as [[r w]|] eqn:E1; [|done]. injection E as <- <-.
    split; [|done]. cbn. eapply keeps_eq; [apply keeps_reap_check|exact E1].
  - destruct (m_reaping m) as [[p ro]|]; [|by injection E as <- <-].
    destruct (reap_expire p ro (m_world m)) as [[u w]|] eqn:E1; [|done]. injection E as <- <-.
    split; [|done]. cbn. eapply keeps_eq; [apply keeps_reap_expire|exact E1].
  - destruct (nfs_release_v4_client ip_match (m_world m)) as [[u w]|] eqn:E1; [|done]. injection E as <- <-.
    split; [|done]. cbn. eapply keeps_eq; [apply keeps_release_v4_client|exact E1].
Qed.

Lemma settle_world o fs w fls m : m_world (settle o fs w fls m).2 = w.
Proof. by destruct o. Qed.

(** A compound in progress is not accepted again. *)
Lemma flight_slots m fl status d results fs' w1 :
  machine_inv m -> fl ∈ m_flights m ->
  one_op (fl_rq fl) (fl_op fl) (fl_data fl) (fl_results fl) (m_files m) (m_world m)
    = Some (status, d, results, fs', w1) ->
  same_binding (fl_data fl) d /\ sessions_keep (m_world m) w1 /\ same_cache (fl_data fl) d.
Proof.
  intros H Hin E. destruct (one_op_slots _ _ _ _ _ _ _ _ _ _ _ E) as [?|(s & v & _ & Ho & Hm & _)]; [done|].
  exfalso. destruct (mi_flights _ H fl Hin) as [Hd Hb]. unfold data_inv in Hd.
  destruct (session (fl_data fl)) as [s'|]; [|by rewrite Hb in Hm].
  destruct Hd as (x & _ & _ & _ & _ & ? & _). lia.
Qed.

Lemma flight_cache m fl s k :
  machine_inv m -> fl ∈ m_flights m -> cached_res (fl_data fl) = Some (slot_cache s k) -> on_slot s k fl.
Proof.
  intros H Hin Ec. destruct (mi_flights _ H fl Hin) as [Hd _]. unfold data_inv in Hd. unfold on_slot.
  destruct (session (fl_data fl)) as [s'|]; [|destruct Hd as (_ & ? & _); congruence].
  destruct Hd as (x & _ & _ & Ec' & _). rewrite Ec in Ec'. by injection Ec' as <- <-.
Qed.

Section observe.
Context {A : Type} (f : nfs41_session_slot_t -> A) (s : positive) (k : nat).

Lemma compound_obs a m o m' :
  exec (ev_compound a) m = Some (o, m') -> (forall q, accepts (ev_compound a) m <> Some (s, k, q)) ->
  obs_keep f s k (m_world m) (m_world m').
Proof.
  cbn [exec accepts]. intros E Hna.
  destruct (start_compound a (m_files m) (m_world m)) as [[[o' fs'] w']|] eqn:Es; [|done].
  assert (m_world m' = w') as -> by (injection E as E; by rewrite <- (settle_world o' fs' w' (m_flights m) m), E).
  destruct (start_inv _ _ _ _ _ _ Es) as [(ans & _ & -> & _)|(op & rest & Ea & Eop & Ead)]; [done|].
  rewrite Ea, Eop in Hna.
  destruct (advance_inv _ _ _ _ _ _ Ead) as (status & d & results & w1 & E1 & Hend). cbn [fl_rq fl_op fl_data fl_results] in E1.
  rewrite E1 in Hna.
  destruct (one_op_slots _ _ _ _ _ _ _ _ _ _ _ E1) as [(Hb & Hk & Hc)|(s' & v & _ & _ & _ & Hb & Ha)].
  - etrans; [by apply obs_keep_sessions|].
    destruct Hend as [(st' & r & Ef & _)|(op' & rest' & -> & _)]; [|done].
    eapply obs_finish; [|exact Ef]. destruct Hc as [?|Hc]; [by left|right; left].
    intros Ec. by apply Hc in Ec.
  - destruct Hb as (Ebs & _ & _ & Ebc & _). rewrite Ebs in Hna.
    assert (s' <> s \/ Z.to_nat (slot d) <> k) as Hne.
    { destruct (decide (s' = s)) as [->|]; [|by left]. right. intros E'. by apply (Hna (sequence d)); rewrite E'. }
    etrans; [by eapply accepted_other|].
    destruct Hend as [(st' & r & Ef & _)|(op' & rest' & -> & _)]; [|done].
    eapply obs_finish; [|exact Ef]. right. left. rewrite Ebc. intros [= ? ?]. by destruct Hne.
Qed.

Lemma advance_obs n m o m' :
  machine_inv m -> exec (ev_advance n) m = Some (o, m') ->
  (forall r sl, f (set_cached_result r sl) = f sl) \/
  (forall fl, m_flights m !! n = Some fl -> ~ on_slot s k fl) ->
  obs_keep f s k (m_world m) (m_world m').
Proof.
  cbn [exec]. intros H E Hne. destruct (m_flights m !! n) as [fl|] eqn:En; [|by injection E as <- <-].
  destruct (advance fl (m_files m) (m_world m)) as [[[o' fs'] w']|] eqn:Ead; [|done].
  assert (m_world m' = w') as ->
    by (injection E as E; by rewrite <- (settle_world o' fs' w' (delete n (m_flights m)) m), E).
  pose proof (list_elem_of_lookup_2 _ _ _ En) as Hin.
  destruct (advance_inv _ _ _ _ _ _ Ead) as (status & d & results & w1 & E1 & Hend).
  destruct (flight_slots _ _ _ _ _ _ _ H Hin E1) as (Hb & Hk & Hc).
  etrans; [by apply obs_keep_sessions|].
  destruct Hend as [(st' & r & Ef & _)|(op' & rest' & -> & _)]; [|done].
  eapply obs_finish; [|exact Ef]. destruct Hc as [?|Hc]; [by left|right].
  destruct Hne as [?|Hne]; [by right|left]. intros Ec%Hc. eapply Hne; [done|]. by eapply flight_cache.
Qed.

Lemma exec_obs e m o m' :
  machine_inv m -> exec e m = Some (o, m') -> (forall q, accepts e m <> Some (s, k, q)) ->
  (forall r sl, f (set_cached_result r sl) = f sl) \/
  (forall n fl, e = ev_advance n -> m_flights m !! n = Some fl -> ~ on_slot s k fl) ->
  obs_keep f s k (m_world m) (m_world m').
Proof.
  intros H E Hna Hne. pose proof (exec_quiet _ _ _ _ E) as Hq.
  destruct e; try (apply obs_keep_sessions, Hq).
  - by eapply compound_obs.
  - eapply advance_obs; [done|done|]. destruct Hne as [?|Hne]; [by left|right]. intros fl. by apply Hne.
Qed.
End observe.

(** What happens to the slot of a request that is accepted. *)
Lemma slot_old m s k v :
  machine_inv m -> slot_view (m_world m) s k = Some v -> (s < w_next (m_world m))%positive.
Proof.
  intros H (x & Hx & _)%slot_view_inv. apply (inv_fresh_session _ _ _ _ _ (mi_inv _ H)). eauto.
Qed.

Lemma accepts_slot e m o m' s k q :
  machine_inv m -> exec e m = Some (o, m') -> accepts e m = Some (s, k, q) ->
  exists v, slot_view (m_world m) s k = Some v /\ q = u32 (slot_sequence v + 1) /\
    forall v', slot_view (m_world m') s k = Some v' -> slot_sequence v' = q.
Proof.
  intros H. destruct e; try done. cbn [exec accepts]. intros E Hac.
  destruct (start_compound a (m_files m) (m_world m)) as [[[o' fs'] w']|] eqn:Es; [|done].
  assert (m_world m' = w') as -> by (injection E as E; by rewrite <- (settle_world o' fs' w' (m_flights m) m), E).
  destruct (compound_answered a) as [ans|] eqn:Ea; [done|].
  destruct (argarray a) as [|op rest] eqn:Eop; [done|].
  destruct (start_inv _ _ _ _ _ _ Es) as [(ans & _ & _ & _ & [?|?])|(op' & rest' & _ & Eop' & Ead)];
    [done|congruence|]. rewrite Eop in Eop'. injection Eop' as <- <-.
  destruct (advance_inv _ _ _ _ _ _ Ead) as (status & d & results & w1 & E1 & Hend). cbn [fl_rq fl_op fl_data fl_results] in E1.
  rewrite E1 in Hac. destruct (session d) as [s'|] eqn:Esd; [|done]. injection Hac as -> <- <-.
  destruct (one_op_slots _ _ _ _ _ _ _ _ _ _ _ E1) as [((Hb & _) & _)|(s' & v & _ & _ & _ & Hb & Ha)].
  { rewrite Esd in Hb. done. }
  destruct Hb as (Ebs & _). rewrite Esd in Ebs. injection Ebs as <-.
  destruct (accepted_view _ _ _ _ _ _ Ha) as [Hv Hq]. exists v. split; [done|]. split; [done|].
  pose proof (accepted_self _ _ _ _ _ _ Ha) as Hself. intros v' Hv'.
  assert (obs_keep slot_sequence s (Z.to_nat (slot d)) w1 w') as [Hn Hk].
  { destruct Hend as [(st' & r & Ef & _)|(op' & rest' & -> & _)]; [|done].
    eapply obs_finish; [|exact Ef]. by right; right. }
  destruct (Hk v' Hv') as [(v2 & Hv2 & ->)|[? ?]]; [by rewrite Hself in Hv2; injection Hv2 as <-|].
  pose proof (slot_old _ _ _ _ H Hv).
  assert (w_next (m_world m) <= w_next w1)%positive; [|lia].
  destruct Ha as (w2 & x1 & [? _] & _ & _ & _ & _ & ->). done.
Qed.

(** ** Each sequence number once *)

Context {Laws : OwnerLaws}.

Lemma u32_succ n : u32 (u32 (Z.of_nat n) + 1) = u32 (Z.of_nat (S n)).
Proof. unfold u32. rewrite Zplus_mod_idemp_l. f_equal. lia. Qed.

Lemma accepted_in_order s k es m n :
  machine_inv m -> all_sane es m -> 0 <= global_sequence (m_world m) ->
  global_sequence (m_world m) + Z.of_nat (length es) < 18446744073709551616 ->
  (forall v, slot_view (m_world m) s k = Some v -> slot_sequence v = u32 (Z.of_nat n)) ->
  ((w_next (m_world m) <= s)%positive -> n = 0%nat) ->
  accepted s k es m = (fun i => u32 (Z.of_nat i)) <$> seq (S n) (length (accepted s k es m)).
Proof.
  revert m n. induction es as [|e es IH]; intros m n H Hs H0 Hg Hv Hf; [done|].
  destruct Hs as [He Hs]. cbn [length] in Hg. cbn [accepted].
  destruct (exec_ok e m H He) as (o & m' & E & Hst); [unfold sequence_room; lia|].
  unfold step in *. rewrite E in *. cbn [fmap option_fmap option_map snd] in *.
  destruct Hst as [H' Hsq Hsame _].
  assert (forall l, (forall q, accepts e m <> Some (s, k, q)) -> l = [] ->
    l ++ accepted s k es m' = (fun i => u32 (Z.of_nat i)) <$> seq (S n) (length (l ++ accepted s k es m'))) as Hno.
  { intros l Hna ->. cbn [app]. pose proof (exec_obs slot_sequence s k e m o m' H E Hna) as [Hn Hk]; [by left|].
    apply (IH m' n); try done; try lia. intros v' Hv'.
    destruct (Hk v' Hv') as [(v & Hv1 & ->)|[? ->]]; [by apply Hv|]. by rewrite Hf by lia. }
  destruct (accepts e m) as [[[s' k'] q]|] eqn:Ea; [|by apply Hno].
  destruct (decide _) as [[= -> ->]|Hne]; [|apply Hno; congruence]. clear Hno.
  destruct (accepts_slot _ _ _ _ _ _ _ H E Ea) as (v & Hv1 & -> & Hv').
  rewrite (Hv v Hv1), u32_succ in *. cbn [app length seq fmap list_fmap]. f_equal.
  apply (IH m' (S n)); try done; try lia. intros ?.
  pose proof (slot_old _ _ _ _ H Hv1). pose proof (s_next _ _ Hsame). lia.
Qed.

(** C3: Exactly the requests with the sequence numbers 1, 2, 3, ... (modulo
    2^32) are accepted on a slot of a session, in that order and each one
    once, in every execution: a request that arrives twice, or out of order,
    is not run. *)
Theorem at_most_once t fs es s k :
  all_sane es (start t fs) -> Z.of_nat (length es) < 18446744073709551615 ->
  accepted s k es (start t fs) =
  (fun n => u32 (Z.of_nat n)) <$> seq 1 (length (accepted s k es (start t fs))).
Proof.
  intros Hs Hl. apply (accepted_in_order s k es (start t fs) 0); [apply machine_inv_start|done|cbn; lia..| |done].
  intros v (x & Hx & _)%slot_view_inv. cbn in Hx. by rewrite lookup_empty in Hx.
Qed.

(** A compound with SEQUENCE at its head. *)
Definition sequenced (a : COMPOUND4args) (sid : sessionid4) (q sl : Z) : Prop :=
  exists bc rest, argarray a = OP_SEQUENCE sid q sl bc :: rest.

(** One operation that is SEQUENCE. *)
Lemma one_op_sequence rq sid q sl bc d results fs w status d' results' fs' w' :
  one_op rq (OP_SEQUENCE sid q sl bc) d results fs w = Some (status, d', results', fs', w') ->
  fs' = fs /\ (stops status d' = true \/ session d' <> None).
Proof.
  unfold one_op. intros E.
  assert (forall st rs, st <> NFS4_OK -> (mret (st, d, rs, fs) : CM _) w = Some (status, d', results', fs', w') ->
    fs' = fs /\ (stops status d' = true \/ session d' <> None)) as Hbad.
  { intros st rs Hne Eb. injection Eb as <- <- <- <- <-. split; [done|]. left. unfold stops.
    by rewrite bool_decide_false. }
  destruct (_ && _); [revert E; by apply Hbad|]. apply bind_inv in E as (b & w1 & Eb & E).
  assert (w1 = w) as ->.
  { destruct (session d) as [s|]; [|by injection Eb as _ <-]. unfold get_session, mbind, CM_bind in Eb.
    destruct (w_sessions w !! s); [|done]. by injection Eb as _ <-. }
  destruct b; [revert E; by apply Hbad|]. destruct (_ || _); [revert E; by apply Hbad|].
  cbn [needs_permission] in E. rewrite bool_decide_true in E by done. cbn [negb run_op] in E.
  apply bind_inv in E as ([[[st body] dd] fs2] & w1 & E1 & E). injection E as <- <- _ <- <-.
  apply bind_inv in E1 as ([[st2 body2] d2] & w2 & E2 & E1). injection E1 as <- <- <- <- <-.
  split; [done|]. destruct (sequence_slots _ _ _ _ _ _ _ _ _ _ _ E2) as [(_ & _ & _ & ?)|(s & v & _ & Hb & _)];
    [by left|right]. destruct Hb as [-> _]. done.
Qed.

(** C18: A request with SEQUENCE at its head that is not accepted has no
    effect on the files and starts no compound: it is answered at once. *)
Theorem unaccepted_without_effect a sid q sl m o m' :
  sequenced a sid q sl -> exec (ev_compound a) m = Some (o, m') -> accepts (ev_compound a) m = None ->
  m_files m' = m_files m /\ m_flights m' = m_flights m /\ o <> None.
Proof.
  intros (bc & rest & Eop) E Hna. cbn [exec accepts] in *.
  destruct (start_compound a (m_files m) (m_world m)) as [[[o' fs'] w']|] eqn:Es; [|done].
  injection E as E. rewrite Eop in Hna.
  destruct (start_inv _ _ _ _ _ _ Es) as [(ans & -> & -> & -> & _)|(op & rest' & Ea & Eop' & Ead)].
  { by injection E as <- <-. }
  rewrite Eop in Eop'. injection Eop' as <- <-. rewrite Ea in Hna.
  destruct (advance_inv _ _ _ _ _ _ Ead) as (status & d & results & w1 & E1 & Hend).
  cbn [fl_rq fl_op fl_data fl_results] in E1. rewrite E1 in Hna.
  destruct (one_op_sequence _ _ _ _ _ _ _ _ _ _ _ _ _ _ E1) as [-> Hs].
  destruct (session d); [done|]. destruct Hs as [Hs|?]; [|done].
  destruct Hend as [(st' & r & _ & ->)|(op' & rest' & _ & ? & _)]; [|congruence].
  by injection E as <- <-.
Qed.

(** ** The same reply again *)

(** How many compounds in progress are on a slot. *)
Definition busy (s : positive) (k : nat) (fls : list flight) : nat :=
  length (filter (on_slot s k) fls).

(** The reply that an event sends to the request of a slot. *)
Definition slot_answer (s : positive) (k : nat) (e : event) (m : machine) : option compound_res :=
  match exec e m with
  | Some (Some (NFS_REQ_OK r), _) =>
      match e with
      | ev_advance n =>
          match m_flights m !! n with
          | Some fl => if decide (on_slot s k fl) then Some r else None
          | None => None
          end
      | ev_compound _ =>
          match accepts e m with
          | Some (s', k', _) => if decide ((s', k') = (s, k)) then Some r else None
          | None => None
          end
      | _ => None
      end
  | _ => None
  end.

Fixpoint slot_replies (s : positive) (k : nat) (es : list event) (m : machine) : list compound_res :=
  match es with
  | [] => []
  | e :: es =>
      match slot_answer s k e m with Some r => [r] | None => [] end ++
      match step e m with Some m' => slot_replies s k es m' | None => [] end
  end.

Lemma busy_cons s k fl fls :
  busy s k (fl :: fls) = ((if decide (on_slot s k fl) then 1 else 0) + busy s k fls)%nat.
Proof. unfold busy. rewrite filter_cons. by destruct (decide (on_slot s k fl)). Qed.

Lemma busy_perm s k fls fls' : fls ≡ₚ fls' -> busy s k fls = busy s k fls'.
Proof. intros H. unfold busy. by rewrite H. Qed.

Lemma busy_snoc s k fl fls :
  busy s k (fls ++ [fl]) = ((if decide (on_slot s k fl) then 1 else 0) + busy s k fls)%nat.
Proof.
  rewrite (busy_perm s k _ (fl :: fls)); [apply busy_cons|]. symmetry. apply Permutation_cons_append.
Qed.

Lemma busy_delete s k n fl fls :
  fls !! n = Some fl ->
  busy s k fls = ((if decide (on_slot s k fl) then 1 else 0) + busy s k (delete n fls))%nat.
Proof. intros Hn. rewrite (busy_perm _ _ _ _ (delete_Permutation _ _ _ Hn)). apply busy_cons. Qed.

(** The request of the sequence number [q] is in progress, or answered. *)
Record pending_at (s : positive) (k : nat) (q : Z) (m : machine) : Prop := {
  pa_busy : busy s k (m_flights m) = 1%nat;
  pa_old : (s < w_next (m_world m))%positive;
  pa_slot v : slot_view (m_world m) s k = Some v -> slot_sequence v = q
}.

Record answered_at (s : positive) (k : nat) (q : Z) (r : compound_res) (m : machine) : Prop := {
  aa_busy : busy s k (m_flights m) = 0%nat;
  aa_old : (s < w_next (m_world m))%positive;
  aa_slot v : slot_view (m_world m) s k = Some v -> slot_sequence v = q /\ cached_result v = r
}.

(** What a slot has for a request with its sequence number. *)
Definition saved_at (s : positive) (k : nat) (q : Z) (r : compound_res) (m : machine) : Prop :=
  (s < w_next (m_world m))%positive /\
  forall v, slot_view (m_world m) s k = Some v -> slot_sequence v = q /\ cached_result v = r.

Lemma answered_saved s k q r m : answered_at s k q r m -> saved_at s k q r m.
Proof. intros [_ Hold Hv]. by split. Qed.

(** The end of a compound saves its reply. *)
Lemma finish_saves status d results r w w' s k :
  compound_finish status d results w = Some (r, w') ->
  cached_res d = Some (slot_cache s k) -> use_drc d = false -> (s < w_next w)%positive ->
  (w_next w <= w_next w')%positive /\
  forall v', slot_view w' s k = Some v' -> exists v, slot_view w s k = Some v /\ v' = set_cached_result r v.
Proof.
  unfold compound_finish. intros E Ec Eu Hs. rewrite Ec, Eu in E. apply bind_inv in E as (r' & w1 & E1 & E).
  apply bind_inv in E1 as (u & w2 & E2 & E1). injection E1 as <- <-. cbn [save_reply] in E2.
  unfold get_session, mbind, CM_bind in E2. destruct (w_sessions w !! s) as [x|] eqn:Ex; [|done].
  destruct (slots x !! k) as [v|] eqn:Ev; [|done]. injection E2 as _ <-.
  set (rep := mk_res status results true) in *. set (w2 := set_w_sessions _ w) in *.
  assert (r = rep /\ sessions_keep w2 w') as [-> Hk].
  { split; [|eapply keeps_eq; [|exact E]; moves_auto].
    apply bind_inv in E as (? & ? & _ & E). apply bind_inv in E as (? & ? & _ & E). by injection E as <- _. }
  split; [exact (k_next _ _ Hk)|]. intros v' Hv'. exists v. split; [by eapply slot_view_some|].
  destruct (ok_view _ _ _ _ _ (obs_keep_sessions (fun v => v) s k w2 w' Hk) v' Hv') as [(v2 & Hv2 & ->)|[? _]];
    [|cbn in *; lia].
  unfold slot_view, w2 in Hv2. cbn in Hv2. rewrite lookup_insert_eq in Hv2. cbn in Hv2.
  rewrite list_lookup_insert_eq in Hv2 by (by eapply lookup_lt_Some). by injection Hv2 as <-.
Qed.

(** A compound in progress saves its reply in its slot. *)
Definition reply_kept (d d' : compound_data_t) : Prop :=
  cached_res d' = cached_res d /\ use_drc d' = false.

Lemma run_op_kept rq op d fs :
  0 < oppos d -> use_drc d = false ->
  match op with OP_CREATE_SESSION _ _ _ _ _ => rq_minorversion rq = 0 | _ => True end ->
  returns (fun a => reply_kept d a.1.2) (run_op rq op d fs).
Proof.
  intros Ho Hu Hop. assert (reply_kept d d) as Hd by done.
  unfold run_op. destruct op; try (repeat first
    [ apply returns_bind; intros ? | by apply returns_ret
    | match goal with |- returns _ (let '(_, _) := ?x in _) => destruct x end
    | match goal with |- returns _ (match ?c with _ => _ end) => destruct c end ]; fail).
  - unfold nfs4_op_sequence. destruct (_ =? 0); [intros w a w' [= <- <-]; done|].
    destruct (Z.eqb_spec (oppos d) 0); [lia|]. intros w a w' [= <- <-]. done.
  - unfold nfs4_op_create_session. cbn [rq_minorversion at_position]. rewrite Hop, Z.eqb_refl.
    intros w a w' [= <- <-]. done.
Qed.

Lemma one_op_kept rq op d results fs :
  0 < oppos d -> use_drc d = false ->
  match op with OP_CREATE_SESSION _ _ _ _ _ => rq_minorversion rq = 0 | _ => True end ->
  returns (fun a => reply_kept d a.1.1.2) (one_op rq op d results fs).
Proof.
  intros Ho Hu Hop. assert (reply_kept d d) as Hd by done. unfold one_op.
  destruct (_ && _); [by apply returns_ret|]. apply returns_bind. intros b.
  destruct b; [by apply returns_ret|]. destruct (_ || _); [by apply returns_ret|].
  cbv zeta. destruct (negb _); [by apply returns_ret|].
  intros w a w' ([[[st body] dd] fs2] & w1 & E1 & E)%bind_inv. injection E as <- <-. cbn.
  by apply (run_op_kept rq op d fs Ho Hu Hop) in E1.
Qed.

Lemma flight_kept m fl s status d results fs' w1 :
  machine_inv m -> fl ∈ m_flights m -> session (fl_data fl) = Some s ->
  op_sane (m_world m) (fl_rq fl) (oppos (fl_data fl)) (fl_op fl) ->
  one_op (fl_rq fl) (fl_op fl) (fl_data fl) (fl_results fl) (m_files m) (m_world m)
    = Some (status, d, results, fs', w1) ->
  cached_res d = Some (slot_cache s (Z.to_nat (slot (fl_data fl)))) /\ use_drc d = false.
Proof.
  intros H Hin Es [Hm Hs] E. destruct (mi_flights _ H fl Hin) as [Hd _]. unfold data_inv in Hd.
  rewrite Es in Hd. destruct Hd as (x & _ & _ & Ec & _ & Ho & Hu). rewrite <- Ec.
  refine (one_op_kept _ _ _ _ _ Ho Hu _ _ _ _ E).
  destruct (fl_op fl); try done. destruct (decide (rq_minorversion (fl_rq fl) = 0)) as [?|Hne]; [done|].
  destruct (Hs Hne) as [? _]. lia.
Qed.

(** A compound on another slot, or on none, stays there. *)
Lemma not_on_slot s k fl d rq op rest results pos :
  ~ on_slot s k fl -> same_binding (fl_data fl) d ->
  ~ on_slot s k (mk_flight rq op rest (set_oppos pos d) results).
Proof. unfold on_slot. cbn [fl_data session slot set_oppos]. by intros Hn (-> & -> & _). Qed.

(** *** While the request is in progress *)

Lemma advance_other n fl s k m o m' :
  machine_inv m -> m_flights m !! n = Some fl -> ~ on_slot s k fl ->
  exec (ev_advance n) m = Some (o, m') -> busy s k (m_flights m') = busy s k (m_flights m).
Proof.
  intros H En Hno E. cbn [exec] in E. rewrite En in E.
  destruct (advance fl (m_files m) (m_world m)) as [[[o' fs'] w']|] eqn:Ead; [|done].
  pose proof (list_elem_of_lookup_2 _ _ _ En) as Hin. injection E as E.
  destruct (advance_inv _ _ _ _ _ _ Ead) as (status & d & results & w1 & E1 & Hend).
  destruct (flight_slots _ _ _ _ _ _ _ H Hin E1) as (Hb & _).
  rewrite (busy_delete s k n fl (m_flights m) En), (decide_False (P := on_slot s k fl)) by done.
  destruct Hend as [(st' & r & _ & ->)|(op' & rest' & _ & _ & ->)]; injection E as <- <-; cbn [m_flights]; [done|].
  rewrite busy_snoc, decide_False; [done|]. by eapply not_on_slot.
Qed.

Lemma compound_other s k a m o m' :
  exec (ev_compound a) m = Some (o, m') -> (forall q, accepts (ev_compound a) m <> Some (s, k, q)) ->
  busy s k (m_flights m') = busy s k (m_flights m).
Proof.
  cbn [exec accepts]. intros E Hna.
  destruct (start_compound a (m_files m) (m_world m)) as [[[o' fs'] w']|] eqn:Es; [|done].
  injection E as E.
  destruct (start_inv _ _ _ _ _ _ Es) as [(ans & -> & _)|(op & rest & Ea & Eop & Ead)];
    [by injection E as <- <-|].
  rewrite Ea, Eop in Hna.
  destruct (advance_inv _ _ _ _ _ _ Ead) as (status & d & results & w1 & E1 & Hend).
  cbn [fl_rq fl_op fl_data fl_results] in E1. rewrite E1 in Hna.
  destruct Hend as [(st' & r & _ & ->)|(op' & rest' & _ & _ & ->)]; injection E as <- <-; cbn [m_flights]; [done|].
  rewrite busy_snoc, decide_False; [done|]. unfold on_slot. cbn [fl_data session slot set_oppos]. intros [Es' Ek]. rewrite Es', Ek in Hna.
  by destruct (Hna (sequence d)).
Qed.

(** The step of the request itself. *)
Lemma advance_own n fl s k q m o m' :
  machine_inv m -> sane (ev_advance n) m -> m_flights m !! n = Some fl -> on_slot s k fl ->
  exec (ev_advance n) m = Some (o, m') -> pending_at s k q m ->
  match o with
  | Some (NFS_REQ_OK r) => answered_at s k q r m'
  | _ => pending_at s k q m'
  end.
Proof.
  intros H Hs En Hon E [Hbusy Hold Hv]. destruct Hon as [Es Ek].
  unfold sane, next_op in Hs. rewrite En in Hs. cbn [exec] in E. rewrite En in E.
  destruct (advance fl (m_files m) (m_world m)) as [[[o' fs'] w']|] eqn:Ead; [|done]. injection E as E.
  pose proof (list_elem_of_lookup_2 _ _ _ En) as Hin.
  destruct (advance_inv _ _ _ _ _ _ Ead) as (status & d & results & w1 & E1 & Hend).
  destruct (flight_slots _ _ _ _ _ _ _ H Hin E1) as ((Hb1 & Hb2 & _) & Hk & _).
  destruct (flight_kept _ _ _ _ _ _ _ _ H Hin Es Hs E1) as [Ec Hu]. rewrite Ek in Ec.
  rewrite (busy_delete s k n fl (m_flights m) En), (decide_True (P := on_slot s k fl)) in Hbusy by done.
  pose proof (k_next _ _ Hk) as Hn1.
  assert (forall v, slot_view w1 s k = Some v -> slot_sequence v = q) as Hv1.
  { intros v1 Hv1. destruct (ok_view _ _ _ _ _ (obs_keep_sessions slot_sequence s k _ _ Hk) v1 Hv1)
      as [(v & Hv2 & ->)|[? _]]; [by apply Hv|lia]. }
  destruct Hend as [(st' & r & Ef & ->)|(op' & rest' & -> & _ & ->)]; injection E as <- <-.
  - destruct (finish_saves _ _ _ _ _ _ _ _ Ef Ec Hu) as [Hn2 Hsave]; [lia|].
    split; cbn [m_flights m_world]; [lia|lia|]. intros v' (v & Hvv & ->)%Hsave. split; [exact (Hv1 v Hvv)|done].
  - split; cbn [m_flights m_world]; [|lia|done]. rewrite busy_snoc, decide_True; [lia|]. unfold on_slot.
    cbn [fl_data session slot set_oppos]. by rewrite Hb1, Hb2.
Qed.

Lemma pending_step e m o m' s k q :
  machine_inv m -> sane e m -> exec e m = Some (o, m') -> pending_at s k q m ->
  (forall q', accepts e m <> Some (s, k, q')) ->
  match slot_answer s k e m with
  | None => pending_at s k q m'
  | Some r => answered_at s k q r m'
  end.
Proof.
  intros H Hs E [Hbusy Hold Hv] Hna.
  assert (obs_keep slot_sequence s k (m_world m) (m_world m')) as [Hn Hk].
  { eapply exec_obs; [done|done|done|]. by left. }
  assert (busy s k (m_flights m') = busy s k (m_flights m) -> pending_at s k q m') as Hstay.
  { intros Eb. split; [congruence|lia|]. intros v' Hv'.
    destruct (Hk v' Hv') as [(v & Hv1 & ->)|[? _]]; [by apply Hv|lia]. }
  unfold slot_answer. rewrite E.
  pose proof (exec_quiet _ _ _ _ E) as Hq.
  destruct e; try (destruct Hq as (_ & Efl & ->); apply Hstay; by rewrite Efl).
  - assert (busy s k (m_flights m') = busy s k (m_flights m)) as Eb by (by eapply compound_other).
    destruct o as [[|r]|]; try by apply Hstay.
    destruct (accepts (ev_compound a) m) as [[[s' k'] q']|] eqn:Ea; [|by apply Hstay].
    destruct (decide _) as [[= -> ->]|]; [by destruct (Hna q')|by apply Hstay].
  - destruct (m_flights m !! n) as [fl|] eqn:En.
    2:{ cbn [exec] in E. rewrite En in E. injection E as <- <-. by apply Hstay. }
    destruct (decide (on_slot s k fl)) as [Hon|Hno].
    2:{ assert (busy s k (m_flights m') = busy s k (m_flights m)) as Eb by (by eapply advance_other).
        destruct o as [[|r]|]; by apply Hstay. }
    pose proof (advance_own n fl s k q m o m' H Hs En Hon E ltac:(by split)) as Ho.
    by destruct o as [[|r]|].
Qed.

(** *** After its reply *)

Lemma answered_step e m o m' s k q r :
  machine_inv m -> exec e m = Some (o, m') -> answered_at s k q r m ->
  (forall q', accepts e m <> Some (s, k, q')) ->
  slot_answer s k e m = None /\ answered_at s k q r m'.
Proof.
  intros H E [Hbusy Hold Hv] Hna.
  assert (forall n fl, m_flights m !! n = Some fl -> ~ on_slot s k fl) as Hno.
  { intros n fl En Hon. rewrite (busy_delete s k n fl (m_flights m) En), decide_True in Hbusy by done. lia. }
  assert (obs_keep (fun v => v) s k (m_world m) (m_world m')) as [Hn Hk].
  { eapply exec_obs; [done|done|done|]. right. intros n fl _. apply Hno. }
  assert (busy s k (m_flights m') = 0%nat -> answered_at s k q r m') as Hstay.
  { intros Eb. split; [done|lia|]. intros v' Hv'.
    destruct (Hk v' Hv') as [(v & Hv1 & ->)|[? _]]; [by apply Hv|lia]. }
  unfold slot_answer. rewrite E. pose proof (exec_quiet _ _ _ _ E) as Hq.
  destruct e; try (destruct Hq as (_ & Efl & ->); split; [done|]; apply Hstay; by rewrite Efl).
  - split.
    + destruct o as [[|r']|]; try done. destruct (accepts (ev_compound a) m) as [[[s' k'] q']|] eqn:Ea; [|done].
      destruct (decide _) as [[= -> ->]|]; [by destruct (Hna q')|done].
    + apply Hstay. rewrite <- Hbusy. by eapply compound_other.
  - destruct (m_flights m !! n) as [fl|] eqn:En.
    + split; [destruct o as [[|r']|]; try done; rewrite decide_False; [done|by eapply Hno]|].
      apply Hstay. rewrite <- Hbusy. eapply advance_other; [done|exact En|by eapply Hno|done].
    + cbn [exec] in E. rewrite En in E. injection E as <- <-. split; [done|]. by apply Hstay.
Qed.

(** *** When it is accepted *)

Lemma accept_step e m o m' s k q :
  machine_inv m -> exec e m = Some (o, m') -> accepts e m = Some (s, k, q) ->
  busy s k (m_flights m) = 0%nat ->
  match slot_answer s k e m with
  | None => pending_at s k q m'
  | Some r => answered_at s k q r m'
  end.
Proof.
  intros H E Ha Hbusy. unfold slot_answer. rewrite E, Ha. destruct e; try done.
  enough (match o with
    | Some (NFS_REQ_OK r) => answered_at s k q r m'
    | _ => pending_at s k q m'
    end) by (destruct o as [[|r]|]; [done| |done]; by rewrite decide_True).
  cbn [exec accepts] in *.
  destruct (start_compound a (m_files m) (m_world m)) as [[[o' fs'] w']|] eqn:Es; [|done]. injection E as E.
  destruct (compound_answered a) as [ans|] eqn:Ea; [done|].
  destruct (argarray a) as [|op rest] eqn:Eop; [done|].
  destruct (start_inv _ _ _ _ _ _ Es) as [(ans & _ & _ & _ & [?|?])|(op' & rest' & _ & Eop' & Ead)];
    [done|congruence|]. rewrite Eop in Eop'. injection Eop' as <- <-.
  destruct (advance_inv _ _ _ _ _ _ Ead) as (status & d & results & w1 & E1 & Hend).
  cbn [fl_rq fl_op fl_data fl_results] in E1. rewrite E1 in Ha.
  destruct (session d) as [s'|] eqn:Esd; [|done]. injection Ha as -> <- <-.
  destruct (one_op_slots _ _ _ _ _ _ _ _ _ _ _ E1) as [((Hb & _) & _)|(s' & v & _ & _ & _ & Hb & Hac)].
  { by rewrite Esd in Hb. }
  destruct Hb as (Ebs & _ & _ & Ec & Hu). rewrite Esd in Ebs. injection Ebs as <-.
  pose proof (accepted_self _ _ _ _ _ _ Hac) as Hself.
  pose proof (slot_old _ _ _ _ H (proj1 (accepted_view _ _ _ _ _ _ Hac))) as Hold.
  assert (w_next (m_world m) <= w_next w1)%positive as Hn1
    by (destruct Hac as (w2 & x1 & [? _] & _ & _ & _ & _ & ->); done).
  destruct Hend as [(st' & r & Ef & ->)|(op' & rest' & -> & _ & ->)]; injection E as <- <-.
  - destruct (finish_saves _ _ _ _ _ _ _ _ Ef Ec Hu) as [Hn2 Hsave]; [lia|].
    split; cbn [m_flights m_world]; [done|lia|]. intros v' (v2 & Hv2 & ->)%Hsave.
    rewrite Hself in Hv2. by injection Hv2 as <-.
  - split; cbn [m_flights m_world]; [|lia|].
    + rewrite busy_snoc, decide_True; [lia|]. by split.
    + intros v' Hv'. rewrite Hself in Hv'. by injection Hv' as <-.
Qed.

(** *** To the end of a run *)

Lemma answered_run s k q r es m m2 :
  machine_inv m -> all_sane es m -> 0 <= global_sequence (m_world m) ->
  global_sequence (m_world m) + Z.of_nat (length es) < 18446744073709551616 ->
  along (fun e m => forall q', accepts e m <> Some (s, k, q')) es m -> run es m = Some m2 ->
  answered_at s k q r m -> slot_replies s k es m = [] /\ answered_at s k q r m2.
Proof.
  revert m. induction es as [|e es IH]; intros m H Hs H0 Hg Hna Hr Ha; cbn in Hr.
  { by injection Hr as <-. }
  destruct Hs as [He Hs]. destruct Hna as [Hn Hna]. cbn [length] in Hg. cbn [slot_replies].
  destruct (exec_ok e m H He) as (o & m' & E & Hst); [unfold sequence_room; lia|].
  destruct (answered_step _ _ _ _ _ _ _ _ H E Ha Hn) as [-> Ha'].
  unfold step in *. rewrite E in *. cbn in *. destruct Hst as [H' Hsq _ _]. apply (IH m'); try done; lia.
Qed.

Lemma pending_run s k q es m m2 r :
  machine_inv m -> all_sane es m -> 0 <= global_sequence (m_world m) ->
  global_sequence (m_world m) + Z.of_nat (length es) < 18446744073709551616 ->
  along (fun e m => forall q', accepts e m <> Some (s, k, q')) es m -> run es m = Some m2 ->
  pending_at s k q m -> r ∈ slot_replies s k es m -> answered_at s k q r m2.
Proof.
  revert m. induction es as [|e es IH]; intros m H Hs H0 Hg Hna Hr Hp Hin; cbn in Hr.
  { by apply elem_of_nil in Hin. }
  destruct Hs as [He Hs]. destruct Hna as [Hn Hna]. cbn [length] in Hg. cbn [slot_replies] in Hin.
  destruct (exec_ok e m H He) as (o & m' & E & Hst); [unfold sequence_room; lia|].
  pose proof (pending_step _ _ _ _ _ _ _ H He E Hp Hn) as Hstep.
  unfold step in *. rewrite E in *. cbn in *. destruct Hst as [H' Hsq _ _].
  destruct (slot_answer s k e m) as [r'|]; [|apply (IH m'); try done; lia].
  destruct (answered_run s k q r' es m' m2) as [Er Ha]; try done; try lia.
  rewrite Er in Hin. apply list_elem_of_singleton in Hin as ->. done.
Qed.

(** *** When it is sent again *)

(** The session can be used: its client id has a valid lease. *)
Definition session_usable (sid : sessionid4) (s : positive) (w : client_world) : Prop :=
  exists x i, ht_session_id w !! sid = Some s /\ w_sessions w !! s = Some x /\
    w_ids w !! clientid_record x = Some i /\ valid_lease (w_time w) i = true.

Lemma session_get_usable sid s w o w' :
  nfs41_Session_Get_Pointer sid w = Some (o, w') -> session_usable sid s w ->
  o = Some s /\ exists x i, w_sessions w !! s = Some x /\ w_ids w' !! clientid_record x = Some i /\
    w_sessions w' !! s = Some (set_session_refcount (session_refcount x + 1) x) /\
    valid_lease (w_time w') i = true.
Proof.
  intros E (x & i & Hs & Hx & Hi & Hv). unfold nfs41_Session_Get_Pointer in E.
  apply bind_inv in E as (f & w1 & E1 & E). injection E1 as <- <-. rewrite Hs in E.
  apply bind_inv in E as (u & w2 & E2 & E). injection E as <- <-.
  unfold inc_session_ref, upd_session in E2. apply bind_inv in E2 as (y & w3 & E3 & E2).
  unfold get_session in E3. rewrite Hx in E3. injection E3 as <- <-. injection E2 as _ <-.
  split; [done|]. exists x, i. repeat split; try done. apply lookup_insert_eq.
Qed.

Lemma reserve_valid p i w b w' :
  reserve_lease p w = Some (b, w') -> w_ids w !! p = Some i -> valid_lease (w_time w) i = true -> b = true.
Proof.
  unfold reserve_lease. intros (j & w1 & E1 & E)%bind_inv Hi Hv. unfold get_id in E1. rewrite Hi in E1.
  injection E1 as <- <-. apply bind_inv in E as (t & w2 & E2 & E). injection E2 as <- <-. rewrite Hv in E.
  apply bind_inv in E as (u & w3 & _ & E). by injection E as <- _.
Qed.

Lemma u32_next q : u32 (q + 1) <> q.
Proof.
  unfold u32. intros E. pose proof (Z.mod_pos_bound (q + 1) 4294967296 ltac:(lia)).
  pose proof (Z_div_mod_eq_full (q + 1) 4294967296). lia.
Qed.

(** SEQUENCE with the number of the last request of the slot. *)
Lemma sequence_again rq sid q k bc s v w status body d' w' :
  nfs4_op_sequence rq sid q (Z.of_nat k) bc zero_data w = Some (status, body, d', w') ->
  rq_minorversion rq <> 0 -> slotted w -> session_usable sid s w ->
  slot_view w s k = Some v -> slot_sequence v = q ->
  use_drc d' = true /\ cached_res d' = Some (slot_cache s k) /\ session d' = None.
Proof.
  unfold nfs4_op_sequence. intros E Hm Hsl Hu (x & Hx & Hv)%slot_view_inv Hq.
  apply Z.eqb_neq in Hm. rewrite Hm in E. cbn [oppos zero_data] in E. rewrite Z.eqb_refl in E. cbn [negb] in E.
  apply bind_inv in E as (o & w1 & E1 & E). destruct (session_get_usable _ _ _ _ _ E1 Hu)
    as (-> & x' & i & Hx' & Hi & Hx1 & Hval).
  assert (x' = x) as -> by congruence. apply bind_inv in E as (y & w2 & E2 & E).
  unfold get_session in E2. rewrite Hx1 in E2. injection E2 as <- <-.
  apply bind_inv in E as (b & w2 & E2 & E).
  rewrite (reserve_valid _ _ _ _ _ E2 Hi Hval) in E. cbn [negb] in E.
  destruct (Hsl s x Hx) as [Em El]. pose proof (lookup_lt_Some _ _ _ Hv) as Hlt.
  cbn [ca_maxrequests slots set_session_refcount] in E.
  destruct (Z.leb_spec (ca_maxrequests x) (Z.of_nat k)) as [Hle|_]; [lia|].
  rewrite Nat2Z.id, Hv in E. rewrite <- Hq in E.
  destruct (Z.eqb_spec (u32 (slot_sequence v + 1)) (slot_sequence v)) as [Eq|_]; [by destruct (u32_next _ Eq)|].
  rewrite Z.eqb_refl in E. cbn [negb] in E. apply bind_inv in E as (u & w3 & _ & E).
  by injection E as <- <- <- <-.
Qed.

Lemma finish_replays status d results s k r w w' :
  compound_finish status d results w = Some (r, w') ->
  cached_res d = Some (slot_cache s k) -> use_drc d = true ->
  exists v, slot_view w s k = Some v /\ r = cached_result v.
Proof.
  unfold compound_finish. intros E Ec Eu. rewrite Ec, Eu in E. apply bind_inv in E as (r' & w1 & E1 & E).
  cbn [load_reply] in E1. apply bind_inv in E1 as (x & w2 & E2 & E1). unfold get_session in E2.
  destruct (w_sessions w !! s) as [y|] eqn:Ey; [|done]. injection E2 as -> <-.
  destruct (slots x !! k) as [v|] eqn:Ev; [|done]. injection E1 as <- <-.
  exists v. split; [by eapply slot_view_some|].
  apply bind_inv in E as (? & ? & _ & E). apply bind_inv in E as (? & ? & _ & E). by injection E as <- _.
Qed.

Lemma one_op_again rq sid q k bc s v results fs w status d' results' fs' w' :
  one_op rq (OP_SEQUENCE sid q (Z.of_nat k) bc) zero_data results fs w = Some (status, d', results', fs', w') ->
  0 < rq_minorversion rq -> slotted w -> session_usable sid s w ->
  slot_view w s k = Some v -> slot_sequence v = q ->
  use_drc d' = true /\ cached_res d' = Some (slot_cache s k) /\ session d' = None.
Proof.
  intros E Hm Hsl Hu Hv Hq. unfold one_op in E. cbn [oppos zero_data session argop needs_permission] in E.
  apply bind_inv in E as (b & w1 & Eb & E). injection Eb as <- <-.
  assert ((LastOpcode (rq_minorversion rq) <? NFS4_OP_SEQUENCE) = false) as El.
  { unfold LastOpcode. destruct (Z.eqb_spec (rq_minorversion rq) 0); [lia|]. by destruct (_ =? 1). }
  rewrite El in E. cbn in E. apply bind_inv in E as ([[[st body] dd] fs2] & w2 & E2 & E).
  injection E as <- <- _ _ _. apply bind_inv in E2 as ([[st2 body2] d2] & w3 & E3 & E2).
  injection E2 as _ _ <- _ _. eapply (sequence_again (at_position 0 rq)); [exact E3|cbn; lia|done..].
Qed.

Lemma exec_again a sid q k s r m o m' :
  exec (ev_compound a) m = Some (o, m') -> sequenced a sid q (Z.of_nat k) -> compound_answered a = None ->
  0 < rq_minorversion (c_rq a) -> machine_inv m -> session_usable sid s (m_world m) -> saved_at s k q r m ->
  (exists v, slot_view (m_world m) s k = Some v) ->
  o = Some (NFS_REQ_OK r) /\ m_files m' = m_files m /\ m_flights m' = m_flights m.
Proof.
  intros E (bc & rest & Eop) Ea Hm H Hu [Hold Haa] (v & Hv). destruct (Haa v Hv) as [Hq Hr]. cbn [exec] in E.
  destruct (start_compound a (m_files m) (m_world m)) as [[[o' fs'] w']|] eqn:Es; [|done]. injection E as E.
  destruct (start_inv _ _ _ _ _ _ Es) as [(ans & _ & _ & _ & [?|?])|(op & rest' & _ & Eop' & Ead)];
    [done|congruence|]. rewrite Eop in Eop'. injection Eop' as <- <-.
  destruct (advance_inv _ _ _ _ _ _ Ead) as (status & d & results & w1 & E1 & Hend).
  cbn [fl_rq fl_op fl_data fl_results] in E1.
  destruct (one_op_sequence _ _ _ _ _ _ _ _ _ _ _ _ _ _ E1) as [-> _].
  destruct (one_op_again _ _ _ _ _ _ _ _ _ _ _ _ _ _ _ E1 Hm (mi_slots _ H) Hu Hv Hq) as (Hdrc & Hc & Hs).
  destruct Hend as [(st' & r' & Ef & ->)|(op' & rest' & _ & Hst & _)].
  2:{ unfold stops in Hst. rewrite Hdrc, orb_true_r in Hst. done. }
  injection E as <- <-. cbn [m_files m_flights]. split; [|done].
  destruct (finish_replays _ _ _ _ _ _ _ _ Ef Hc Hdrc) as (v1 & Hv1 & ->).
  destruct (one_op_slots _ _ _ _ _ _ _ _ _ _ _ E1) as [(_ & Hk & _)|(s' & ? & _ & _ & _ & (? & _) & _)];
    [|congruence].
  destruct (ok_view _ _ _ _ _ (obs_keep_sessions (fun v => v) s k _ _ Hk) v1 Hv1) as [(v2 & Hv2 & ->)|[? _]]; [|lia].
  do 2 f_equal. by destruct (Haa v2 Hv2).
Qed.

Lemma slot_exists w w' s k v x :
  slotted w -> slotted w' -> slot_view w s k = Some v -> w_sessions w' !! s = Some x ->
  exists v', slot_view w' s k = Some v'.
Proof.
  intros H H' (y & Hy & Hv)%slot_view_inv Hx. destruct (H s y Hy) as [_ El], (H' s x Hx) as [_ El'].
  apply lookup_lt_Some in Hv. rewrite El, <- El' in Hv. destruct (lookup_lt_is_Some_2 _ _ Hv) as [v' Hv'].
  exists v'. by eapply slot_view_some.
Qed.

Lemma all_sane_app es1 es2 m m1 :
  run es1 m = Some m1 -> all_sane (es1 ++ es2) m -> all_sane es1 m /\ all_sane es2 m1.
Proof.
  revert m. induction es1 as [|e es1 IH]; intros m; cbn; [by intros [= <-]|].
  intros Hr [He Hs]. destruct (step e m) as [m'|]; [|done]. destruct (IH m' Hr Hs). done.
Qed.

(** C4: Exactly-once semantics, the second half, for runs in which
    operations name client ids of their own minor version and CREATE_SESSION
    does not follow SEQUENCE: once the request that was accepted on a slot
    without another one in progress has been answered, sending it again gives
    the answer it got, whatever else the server did in between, as long as no
    other request was accepted on the slot and the session is there and its
    client's lease valid; and it leaves the files and the compounds in progress
    as they are. *)
Theorem replay_same_reply t fs es1 e1 es2 a sid s k q r m1 m2 :
  all_sane (es1 ++ e1 :: es2 ++ [ev_compound a]) (start t fs) ->
  Z.of_nat (length (es1 ++ e1 :: es2 ++ [ev_compound a])) < 18446744073709551615 ->
  run es1 (start t fs) = Some m1 -> accepts e1 m1 = Some (s, k, q) -> busy s k (m_flights m1) = 0%nat ->
  run (e1 :: es2) m1 = Some m2 -> r ∈ slot_replies s k (e1 :: es2) m1 ->
  (forall m1', step e1 m1 = Some m1' ->
     along (fun e m => forall q', accepts e m <> Some (s, k, q')) es2 m1') ->
  sequenced a sid q (Z.of_nat k) -> compound_answered a = None -> 0 < rq_minorversion (c_rq a) ->
  session_usable sid s (m_world m2) ->
  exists m3, exec (ev_compound a) m2 = Some (Some (NFS_REQ_OK r), m3) /\
    m_files m3 = m_files m2 /\ m_flights m3 = m_flights m2.
Proof.
  intros Hs Hl Hr1 Hac Hb Hr2 Hin Hna Hseq Hca Hm Hu. rewrite !length_app in Hl. cbn in Hl. rewrite length_app in Hl.
  cbn in Hl. destruct (all_sane_app _ _ _ _ Hr1 Hs) as [Hs1 [He1 Hs2]].
  destruct (run_ok es1 (start t fs)) as (m & E & H1 & Hg1); [apply machine_inv_start|done|cbn; lia..|].
  rewrite Hr1 in E. injection E as <-. cbn [global_sequence start m_world initial_world] in Hg1.
  destruct (exec_ok e1 m1 H1 He1) as (o & m1' & E1 & [H1' Hg1' _ _]); [unfold sequence_room; lia|].
  assert (step e1 m1 = Some m1') as Es1 by (unfold step; by rewrite E1).
  cbn [run slot_replies] in Hr2, Hin. rewrite Es1 in Hr2, Hin, Hs2. specialize (Hna m1' Es1).
  destruct (all_sane_app _ _ _ _ Hr2 Hs2) as [Hs2' [Ha _]].
  destruct (run_ok es2 m1') as (m & E & H2 & Hg2); [done|done|lia|lia|]. rewrite Hr2 in E. injection E as <-.
  pose proof (accept_step _ _ _ _ _ _ _ H1 E1 Hac Hb) as Hst.
  assert (answered_at s k q r m2) as Haa.
  { destruct (slot_answer s k e1 m1) as [r'|].
    - destruct (answered_run s k q r' es2 m1' m2) as [Er Haa]; try done; try lia.
      rewrite Er in Hin. by apply list_elem_of_singleton in Hin as ->.
    - eapply (pending_run s k q es2 m1' m2 r); try done; lia. }
  destruct (exec_ok (ev_compound a) m2 H2 Ha) as (o3 & m3 & E3 & _); [unfold sequence_room; lia|].
  exists m3. destruct (exec_again _ _ _ _ _ _ _ _ _ E3 Hseq Hca Hm H2 Hu (answered_saved _ _ _ _ _ Haa)) as (-> & ? & ?); [|done].
  destruct Hu as (x & _ & _ & Hx & _). destruct (accepts_slot _ _ _ _ _ _ _ H1 E1 Hac) as (v & Hv & _).
  eapply slot_exists; [exact (mi_slots _ H1)|exact (mi_slots _ H2)|done|done].
Qed.

(** ** A compound by its steps *)

(** The answers that a run sends. *)
Fixpoint answers (es : list event) (m : machine) : list compound_answer :=
  match es with
  | [] => []
  | e :: es =>
      match exec e m with
      | Some (o, m') => option_list o ++ answers es m'
      | None => []
      end
  end.

(** [f] is what a run does: its end and its answers, or that it stops. *)
Definition runs_as (es : list event) (m : machine) (f : option (compound_answer * machine)) : Prop :=
  match f with
  | Some (answer, m') => run es m = Some m' /\ answers es m = [answer]
  | None => run es m = None
  end.

Lemma runs_as_step e es m m' f :
  exec e m = Some (None, m') -> runs_as es m' f -> runs_as (e :: es) m f.
Proof.
  intros E. unfold runs_as. cbn [run answers]. unfold step. rewrite E. by destruct f as [[? ?]|].
Qed.

(** A compound that is answered is not there to take another step. *)
Lemma idle_run n fls w fs rs rp :
  run (replicate n (ev_advance (length fls))) (mk_machine w fs fls rs rp) = Some (mk_machine w fs fls rs rp) /\
  answers (replicate n (ev_advance (length fls))) (mk_machine w fs fls rs rp) = [].
Proof.
  assert (exec (ev_advance (length fls)) (mk_machine w fs fls rs rp) = Some (None, mk_machine w fs fls rs rp)) as E.
  { cbn [exec m_flights]. by rewrite lookup_ge_None_2. }
  induction n as [|n [IH1 IH2]]; [done|]. cbn [replicate run answers]. unfold step. by rewrite E.
Qed.

Lemma runs_as_end e n fls w fs rs rp m answer :
  exec e m = Some (Some answer, mk_machine w fs fls rs rp) ->
  runs_as (e :: replicate n (ev_advance (length fls))) m (Some (answer, mk_machine w fs fls rs rp)).
Proof.
  intros E. destruct (idle_run n fls w fs rs rp) as [E1 E2]. unfold runs_as. cbn [run answers].
  unfold step. rewrite E. cbn [fmap option_fmap option_map snd]. by rewrite E1, E2.
Qed.

(** The rest of a compound, as [compound_loop] gives it. *)
Definition loop_end (fls : list flight) (rs : list positive) (rp : option (positive * option positive))
    (f : option (compound_res * files * client_world)) : option (compound_answer * machine) :=
  (fun '(reply, fs, w) => (NFS_REQ_OK reply, mk_machine w fs fls rs rp)) <$> f.

(** A compound takes a step [e] and then the others, [IH] being about those. *)
Lemma runs_as_advance fl fls rs rp fs w e n m :
  exec e m = match advance fl fs w with
             | Some (o, fs, w) => Some (settle o fs w fls (mk_machine w fs fls rs rp))
             | None => None
             end ->
  (forall fl' fs' w', fl_rest fl = fl_op fl' :: fl_rest fl' -> 
     runs_as (replicate n (ev_advance (length fls))) (mk_machine w' fs' (fls ++ [fl']) rs rp)
       (loop_end fls rs rp
          (compound_loop (fl_rq fl') (fl_op fl' :: fl_rest fl') (fl_data fl') (fl_results fl') fs' w'))) ->
  runs_as (e :: replicate n (ev_advance (length fls))) m
    (loop_end fls rs rp
       (compound_loop (fl_rq fl) (fl_op fl :: fl_rest fl) (fl_data fl) (fl_results fl) fs w)).
Proof.
  intros E IH. cbn [compound_loop]. unfold advance in E. unfold mbind, CM_bind in *.
  destruct (one_op _ _ _ _ _ _) as [[[[[status d] results] fs1] w1]|]; [|by cbn; unfold step; rewrite E].
  destruct (stops status d).
  - destruct (compound_finish _ _ _ _) as [[reply w2]|]; [|by cbn; unfold step; rewrite E].
    apply runs_as_end. by rewrite E.
  - destruct (fl_rest fl) as [|op rest] eqn:Er.
    + cbn [compound_loop]. unfold mbind, CM_bind.
      destruct (compound_finish _ _ _ _) as [[reply w2]|]; [|by cbn; unfold step; rewrite E].
      apply runs_as_end. by rewrite E.
    + eapply runs_as_step; [exact E|].
      by apply (IH (mk_flight (fl_rq fl) op rest (set_oppos (oppos d + 1) d) results)).
Qed.

Lemma flight_run n fl fls rs rp fs w :
  (length (fl_rest fl) < n)%nat ->
  runs_as (replicate n (ev_advance (length fls))) (mk_machine w fs (fls ++ [fl]) rs rp)
    (loop_end fls rs rp
       (compound_loop (fl_rq fl) (fl_op fl :: fl_rest fl) (fl_data fl) (fl_results fl) fs w)).
Proof.
  revert fl fs w. induction n as [|n IH]; intros fl fs w Hn; [lia|]. cbn [replicate].
  apply runs_as_advance.
  - cbn [exec m_flights m_files m_world]. rewrite list_lookup_middle by done.
    rewrite delete_middle, app_nil_r. by destruct (advance fl fs w) as [[[o fs'] w']|].
  - intros fl' fs' w' Er. apply IH. rewrite Er in Hn. cbn in Hn. lia.
Qed.

(** [nfs4_Compound] is what its steps do: when the steps of a compound
    follow each other with no event in between, the answer, the client state
    and the files are those of [nfs4_Compound], and nothing else changes. *)
Theorem compound_by_steps a m :
  runs_as (ev_compound a :: replicate (length (argarray a)) (ev_advance (length (m_flights m)))) m
    ((fun '(answer, fs, w) => (answer, mk_machine w fs (m_flights m) (m_reserved m) (m_reaping m)))
       <$> nfs4_Compound a (m_files m) (m_world m)).
Proof.
  unfold nfs4_Compound. destruct (compound_answered a) as [answer|] eqn:Ea.
  { apply runs_as_end. cbn [exec]. unfold start_compound. rewrite Ea. done. }
  destruct (argarray a) as [|op rest] eqn:Eop.
  { unfold compound_answered, compound_check in Ea. rewrite Eop in Ea.
    destruct (2 <? _); [done|]. by destruct (negb _). }
  pose proof (runs_as_advance (mk_flight (c_rq a) op rest zero_data []) (m_flights m) (m_reserved m) (m_reaping m)
    (m_files m) (m_world m) (ev_compound a) (length (op :: rest)) m) as H.
  cbn [fl_rq fl_op fl_rest fl_data fl_results] in H. unfold loop_end in H.
  unfold mbind at 1, CM_bind at 1.
  destruct (compound_loop _ _ _ _ _ _) as [[[reply fs] w]|]; apply H.
  1,3: cbn [exec]; unfold start_compound; rewrite Ea, Eop; by destruct (advance _ _ _) as [[[o fs'] w']|].
  all: intros fl' fs' w' Er; apply flight_run; rewrite Er; cbn; lia.
Qed.
End once.

(** ** A client with a session *)

#[local] Existing Instances demo_env demo_laws demo_ops.

(** It sends a request on its first slot, while another client works. *)
Definition once_rq : COMPOUND4args :=
  mk_args (demo_rq 1 200) true true
    [OP_SEQUENCE (demo_id 2, 1) 1 0 true; OP_other 22 [5]; OP_OPEN 0 20 3; OP_other 38 [6]].
Definition once_before : list event := take 5 demo_events.
Definition once_after : list event := [ev_advance 1; ev_advance 0; ev_advance 0; ev_tick 5; ev_advance 0].

Definition once_machine : machine :=
  default (start 0 no_files) (run (once_before ++ ev_compound once_rq :: once_after) (start 1000 no_files)).

Definition other_slotb (s : positive) (k : nat) (e : event) (m : machine) : bool :=
  match accepts e m with
  | Some (s', k', _) => negb (bool_decide ((s', k') = (s, k)))
  | None => true
  end.

Lemma other_slotb_ok s k e m : other_slotb s k e m = true -> forall q, accepts e m <> Some (s, k, q).
Proof.
  unfold other_slotb. intros H q E. rewrite E in H. by rewrite bool_decide_true in H.
Qed.


(** The reply of [once_rq]. *)
Definition once_reply : compound_res :=
  mk_res NFS4_OK
    [(53, NFS4_OK, [demo_id 2; 1; 1; 0; 2; 2; 0]); (22, NFS4_OK, [0]); (18, NFS4_OK, []); (38, NFS4_OK, [1])] true.

Definition once_next (q : Z) : COMPOUND4args :=
  mk_args (demo_rq 1 200) true true [OP_SEQUENCE (demo_id 2, 1) q 0 true].

Definition session_usableb (sid : sessionid4) (s : positive) (w : client_world) : bool :=
  bool_decide (ht_session_id w !! sid = Some s) &&
  match w_sessions w !! s with
  | Some x =>
      match w_ids w !! clientid_record x with
      | Some i => valid_lease (w_time w) i
      | None => false
      end
  | None => false
  end.

Lemma session_usableb_ok sid s w : session_usableb sid s w = true -> session_usable sid s w.
Proof.
  unfold session_usableb, session_usable. intros [Hs%bool_decide_eq_true H]%andb_true_iff.
  destruct (w_sessions w !! s) as [x|]; [|done]. destruct (w_ids w !! clientid_record x) as [i|] eqn:Ei; [|done].
  by exists x, i.
Qed.

(** The request twice, its successor and one that skips a number. *)
Lemma at_most_once_witness :
  accepted 5 0 (once_before ++ ev_compound once_rq :: once_after ++
    [ev_compound once_rq; ev_compound (once_next 2); ev_compound (once_next 4); ev_compound (once_next 2)]) (start 1000 no_files) = [1; 2].
Proof.
  etrans; [apply (at_most_once 1000 no_files _ 5 0)|vm_compute; reflexivity].
  - apply all_saneb_ok. vm_compute. reflexivity.
  - vm_compute. reflexivity.
Defined.

Lemma unaccepted_without_effect_witness :
  exists o m', exec (ev_compound (once_next 4)) once_machine = Some (Some o, m') /\ m_files m' = [(22, [5]); (38, [6])].
Proof.
  destruct (exec (ev_compound (once_next 4)) once_machine) as [[o m']|] eqn:E; [|vm_compute in E; discriminate].
  destruct (unaccepted_without_effect (once_next 4) (demo_id 2, 1) 4 0 once_machine o m' ltac:(eexists _, _; reflexivity) E)
    as (Hf & _ & Ho); [vm_compute; reflexivity|].
  destruct o as [o|]; [|destruct Ho; reflexivity]. exists o, m'. split; [reflexivity|].
  etrans; [exact Hf|vm_compute; reflexivity].
Defined.

Lemma replay_same_reply_witness :
  exists m3, exec (ev_compound once_rq) once_machine = Some (Some (NFS_REQ_OK once_reply), m3) /\
    m_files m3 = [(22, [5]); (38, [6])].
Proof.
  destruct (run once_before (start 1000 no_files)) as [m1|] eqn:E1; [|vm_compute in E1; discriminate].
  destruct (replay_same_reply 1000 no_files once_before (ev_compound once_rq) once_after once_rq
    (demo_id 2, 1) 5 0 1 once_reply m1 once_machine) as (m3 & E3 & Hf & _).
  - apply all_saneb_ok. vm_compute. reflexivity.
  - vm_compute. reflexivity.
  - exact E1.
  - vm_compute in E1. injection E1 as <-. vm_compute. reflexivity.
  - vm_compute in E1. injection E1 as <-. vm_compute. reflexivity.
  - vm_compute in E1. injection E1 as <-. vm_compute. reflexivity.
  - vm_compute in E1. injection E1 as <-. vm_compute. left.
  - intros m Hm. apply (alongb_ok _ (other_slotb 5 0)); [apply other_slotb_ok|].
    vm_compute in E1. injection E1 as <-. vm_compute in Hm. injection Hm as <-. vm_compute. reflexivity.
  - eexists _, _. reflexivity.
  - vm_compute. reflexivity.
  - vm_compute. reflexivity.
  - apply session_usableb_ok. vm_compute. reflexivity.
  - exists m3. split; [exact E3|]. etrans; [exact Hf|vm_compute; reflexivity].
Defined.
