(* ===== verification/CompoundFindings.v ===== *)
(** * Sessions of NFSv4.1: where the code falls short

    Requests on a slot that get a reply that is not theirs, and a comparison
    of session ids that finds different ones equal. *)
From S2P Require Import Prelude Status Owners ClientData ClientOps Compound ClientInv ClientLife SessionKeep ClientFrame ClientSafe ClientSessions ClientState ClientReaper CompoundSafe ClientRuns ClientProps CompoundOnce.

Section retry.
Context `{Env : ClientEnv} {Ops : FileOps} {Laws : OwnerLaws}.

(** Nothing happens on a slot: no request is accepted and the one in progress
    takes no step. *)
Definition idle_slot (s : positive) (k : nat) (e : event) (m : machine) : Prop :=
  (forall q, accepts e m <> Some (s, k, q)) /\
  forall n fl, e = ev_advance n -> m_flights m !! n = Some fl -> ~ on_slot s k fl.

Lemma idle_tick s k d m : along (idle_slot s k) [ev_tick d] m.
Proof. split; [by split|]. by destruct (step (ev_tick d) m). Qed.

Lemma idle_step e m o m' s k q r :
  machine_inv m -> exec e m = Some (o, m') -> idle_slot s k e m -> saved_at s k q r m -> saved_at s k q r m'.
Proof.
  intros H E [Hna Hno] [Hold Hv].
  assert (obs_keep (fun v => v) s k (m_world m) (m_world m')) as [Hn Hk] by (eapply exec_obs; [exact H|exact E|exact Hna|right; exact Hno]).
  split; [lia|]. intros v' Hv'. destruct (Hk v' Hv') as [(v & Hv1 & ->)|[? _]]; [by apply Hv|lia].
Qed.

Lemma idle_run_saved s k q r es m m2 :
  machine_inv m -> all_sane es m -> 0 <= global_sequence (m_world m) ->
  global_sequence (m_world m) + Z.of_nat (length es) < 18446744073709551616 ->
  along (idle_slot s k) es m -> run es m = Some m2 -> saved_at s k q r m -> saved_at s k q r m2.
Proof.
  revert m. induction es as [|e es IH]; intros m H Hs H0 Hg Hna Hr Ha; cbn in Hr; [by injection Hr as <-|].
  destruct Hs as [He Hs]. destruct Hna as [Hn Hna]. cbn [length] in Hg.
  destruct (exec_ok e m H He) as (o & m' & E & Hst); [unfold sequence_room; lia|].
  pose proof (idle_step _ _ _ _ _ _ _ _ H E Hn Ha). unfold step in *. rewrite E in *. cbn in *.
  destruct Hst as [H' Hsq _ _]. apply (IH m'); try done; lia.
Qed.

(** A request that is accepted and goes on leaves the reply of the one before
    it in the slot. *)
Lemma accepted_saved a m m' s k q v :
  machine_inv m -> exec (ev_compound a) m = Some (None, m') -> accepts (ev_compound a) m = Some (s, k, q) ->
  slot_view (m_world m) s k = Some v -> saved_at s k q (cached_result v) m'.
Proof.
  intros H E Ha Hv. pose proof (slot_old _ _ _ _ H Hv) as Hold. cbn [exec accepts] in *.
  destruct (start_compound a (m_files m) (m_world m)) as [[[o' fs'] w']|] eqn:Es; [|done]. injection E as E.
  destruct (compound_answered a) as [ans|] eqn:Ea; [done|]. destruct (argarray a) as [|op rest] eqn:Eop; [done|].
  destruct (start_inv _ _ _ _ _ _ Es) as [(ans & _ & _ & _ & [?|?])|(op' & rest' & _ & Eop' & Ead)]; [done|congruence|].
  rewrite Eop in Eop'. injection Eop' as <- <-.
  destruct (advance_inv _ _ _ _ _ _ Ead) as (status & d & results & w1 & E1 & Hend).
  cbn [fl_rq fl_op fl_data fl_results] in E1. rewrite E1 in Ha.
  destruct (session d) as [s'|] eqn:Esd; [|done]. injection Ha as -> <- <-.
  destruct (one_op_slots _ _ _ _ _ _ _ _ _ _ _ E1) as [((Hb & _) & _)|(s' & v' & _ & _ & _ & Hb & Hac)].
  { by rewrite Esd in Hb. }
  destruct Hb as (Ebs & _). rewrite Esd in Ebs. injection Ebs as <-.
  pose proof (accepted_self _ _ _ _ _ _ Hac) as Hself. pose proof (proj1 (accepted_view _ _ _ _ _ _ Hac)) as Hv'.
  assert (v' = v) as -> by congruence.
  assert (w_next (m_world m) <= w_next w1)%positive as Hn1
    by (destruct Hac as (w2 & x1 & [? _] & _ & _ & _ & _ & ->); done).
  destruct Hend as [(st' & r & Ef & ->)|(op' & rest' & -> & _ & ->)]; [done|]. injection E as <-.
  split; cbn [m_world]; [lia|]. intros v2 Hv2. rewrite Hself in Hv2. by injection Hv2 as <-.
Qed.

(** C38: A request that is sent again while it is in progress is answered
    with the reply of the request before it on the slot: SEQUENCE moves the
    sequence number of the slot when the request arrives, and the reply is
    saved at its end.  This holds of every request that is accepted and not
    answered at once, whatever else the server does, until the compound in
    progress takes its next step. *)
Theorem retry_in_progress_gets_old_reply t fs es1 a es2 sid q k s v m0 m1 m2 :
  all_sane (es1 ++ ev_compound a :: es2 ++ [ev_compound a]) (start t fs) ->
  Z.of_nat (length (es1 ++ ev_compound a :: es2 ++ [ev_compound a])) < 18446744073709551615 ->
  run es1 (start t fs) = Some m0 ->
  sequenced a sid q (Z.of_nat k) -> compound_answered a = None -> 0 < rq_minorversion (c_rq a) ->
  accepts (ev_compound a) m0 = Some (s, k, q) -> slot_view (m_world m0) s k = Some v ->
  exec (ev_compound a) m0 = Some (None, m1) ->
  run es2 m1 = Some m2 -> along (idle_slot s k) es2 m1 -> session_usable sid s (m_world m2) ->
  exists m3, exec (ev_compound a) m2 = Some (Some (NFS_REQ_OK (cached_result v)), m3) /\
    m_files m3 = m_files m2 /\ m_flights m3 = m_flights m2.
Proof.
  intros Hs Hl Hr1 Hseq Hca Hm Hac Hv E1 Hr2 Hidle Hu. rewrite !length_app in Hl. cbn in Hl. rewrite length_app in Hl.
  cbn in Hl. destruct (all_sane_app _ _ _ _ Hr1 Hs) as [Hs1 [He1 Hs2]].
  destruct (run_ok es1 (start t fs)) as (m & E & H0 & Hg0); [apply machine_inv_start|done|cbn; lia..|].
  rewrite Hr1 in E. injection E as <-. cbn [global_sequence start m_world initial_world] in Hg0.
  destruct (exec_ok _ m0 H0 He1) as (o & m1' & E & [H1 Hg1 _ _]); [unfold sequence_room; lia|].
  rewrite E1 in E. injection E as <- <-. unfold step in Hs2. rewrite E1 in Hs2. cbn in Hs2.
  destruct (all_sane_app _ _ _ _ Hr2 Hs2) as [Hs2' [Ha _]].
  destruct (run_ok es2 m1) as (m & E & H2 & Hg2); [done|done|lia|lia|]. rewrite Hr2 in E. injection E as <-.
  assert (saved_at s k q (cached_result v) m2) as Hsv.
  { eapply (idle_run_saved s k q _ es2 m1); try done; try lia. exact (accepted_saved a m0 m1 s k q v H0 E1 Hac Hv). }
  destruct (exec_ok (ev_compound a) m2 H2 Ha) as (o3 & m3 & E3 & _); [unfold sequence_room; lia|].
  exists m3. destruct (exec_again _ _ _ _ _ _ _ _ _ E3 Hseq Hca Hm H2 Hu Hsv) as (-> & ? & ?); [|done].
  destruct Hu as (x & _ & _ & Hx & _). eapply slot_exists; [exact (mi_slots _ H0)|exact (mi_slots _ H2)|done|done].
Qed.
End retry.

#[local] Existing Instances demo_env demo_laws demo_ops.

(** The next request of the client of [once_rq], which reads a directory and
    then removes an entry. *)
Definition next_rq (q : Z) : COMPOUND4args :=
  mk_args (demo_rq 1 200) true true
    [OP_SEQUENCE (demo_id 2, 1) q 0 true; OP_other 26 [7]; OP_other 28 [8]].

(** In progress, while the clock ticks. *)
Definition retry_machine : machine := default (start 0 no_files) (step (ev_compound (next_rq 2)) once_machine).

Definition retry_before : list event := once_before ++ ev_compound once_rq :: once_after.

Lemma retry_in_progress_gets_old_reply_witness :
  exists m2 m3, run [ev_tick 1] retry_machine = Some m2 /\
    exec (ev_compound (next_rq 2)) m2 = Some (Some (NFS_REQ_OK once_reply), m3) /\ m_files m3 = [(22, [5]); (38, [6])].
Proof.
  destruct (run [ev_tick 1] retry_machine) as [m2|] eqn:E2; [|vm_compute in E2; discriminate].
  destruct (slot_view (m_world once_machine) 5 0) as [v|] eqn:Ev; [|vm_compute in Ev; discriminate].
  assert (cached_result v = once_reply) as Er by (vm_compute in Ev; injection Ev as <-; reflexivity).
  destruct (retry_in_progress_gets_old_reply 1000 no_files retry_before (next_rq 2) [ev_tick 1] (demo_id 2, 1) 2 0 5 v
    once_machine retry_machine m2) as (m3 & E3 & Hf & _).
  - apply all_saneb_ok. vm_compute. reflexivity.
  - vm_compute. reflexivity.
  - vm_compute. reflexivity.
  - eexists _, _. reflexivity.
  - vm_compute. reflexivity.
  - vm_compute. reflexivity.
  - vm_compute. reflexivity.
  - exact Ev.
  - vm_compute. reflexivity.
  - exact E2.
  - apply idle_tick.
  - apply session_usableb_ok. vm_compute in E2. injection E2 as <-. vm_compute. reflexivity.
  - exists m2, m3. rewrite Er in E3. split; [reflexivity|]. split; [exact E3|].
    etrans; [exact Hf|]. vm_compute in E2. injection E2 as <-. reflexivity.
Defined.

(** The sequence number 0 on a slot that was never used is taken for a
    request that is sent again: the answer is an empty success. *)
Lemma unused_slot_replays :
  exists m, exec (ev_compound (mk_args (demo_rq 1 200) true true
      [OP_SEQUENCE (demo_id 2, 1) 0 1 true; OP_other 26 [7]])) once_machine
    = Some (Some (NFS_REQ_OK (mk_res NFS4_OK [] false)), m).
Proof. eexists. vm_compute. reflexivity. Qed.

(** Strings that agree up to a zero in the first are equal for [strncmp]. *)
Lemma strncmp_prefix l a b : 0 ∈ l -> strncmp_equal (l ++ a) (l ++ b) = true.
Proof.
  induction l as [|x l IH]; [by intros ?%elem_of_nil|]. intros H. cbn. rewrite Z.eqb_refl. cbn.
  apply elem_of_cons in H as [<-|H]; [done|]. rewrite IH by done. apply orb_true_r.
Qed.

(** SEQUENCE on one session and DESTROY_SESSION of another one of the same
    client are refused as if the sessions were the same, for each of the first
    2^24 client ids after a start of the server: [strncmp] stops at the first
    zero byte, which the client id has. *)
Lemma destroy_other_session_refused (a : COMPOUND4args) c s1 s2 q sl bc op rest :
  0 < rq_minorversion (c_rq a) ->
  argarray a = OP_SEQUENCE (c, s1) q sl bc :: OP_DESTROY_SESSION (c, s2) :: op :: rest ->
  Z.land (Z.shiftr c 24) 255 = 0 ->
  session_check a = Some NFS4ERR_NOT_ONLY_OP.
Proof.
  intros Hm Ea Hc. unfold session_check. destruct (Z.leb_spec (rq_minorversion (c_rq a)) 0); [lia|].
  rewrite Ea. cbn [starts_compound argop existsb only_op length]. 
  assert (strncmp_equal (sessionid_bytes (c, s1)) (sessionid_bytes (c, s2)) = true) as ->; [|done].
  apply strncmp_prefix, list_elem_of_fmap. exists 3. split; [by rewrite <- Hc|]. do 3 right. left.
Qed.
