(* ===== verification/ClientFindings.v ===== *)
(** * Client identities of NFSv4: where the code falls short

    Executions in which the operations do what they should not: a session of
    a v4.0 client id, a renewal that the reaper does not see, a confirmation
    with the wrong verifier, and live clients that other requests expire. *)
From S2P Require Import Prelude Status Owners ClientData ClientOps Compound ClientInv ClientLife ClientFrame ClientSafe ClientSessions ClientState ClientReaper CompoundSafe ClientRuns ClientProps.

Section findings.
Context `{Env : ClientEnv}.

(** ** Running a step *)

Lemma bind_some {A B} (m : CM A) (k : A -> CM B) w a w' :
  m w = Some (a, w') -> (m ≫= k) w = k a w'.
Proof. intros H. unfold mbind, CM_bind. by rewrite H. Qed.

Lemma get_id_some p i w : w_ids w !! p = Some i -> get_id p w = Some (i, w).
Proof. intros H. unfold get_id. by rewrite H. Qed.

Lemma upd_id_some p f i w :
  w_ids w !! p = Some i -> upd_id p f w = Some (tt, set_w_ids (<[p := f i]> (w_ids w)) w).
Proof. intros H. unfold upd_id. by rewrite (bind_some _ _ _ _ _ (get_id_some _ _ _ H)). Qed.

Lemma upd_rec_some r f c w :
  w_recs w !! r = Some c -> upd_rec r f w = Some (tt, set_w_recs (<[r := f c]> (w_recs w)) w).
Proof. intros H. unfold upd_rec, mbind, CM_bind, get_rec. by rewrite H. Qed.

(** The world after a lookup took a reference. *)
Definition bumped (p : positive) (i : nfs_client_id_t) (w : client_world) : client_world :=
  set_w_ids (<[p := set_cid_refcount (cid_refcount i + 1) i]> (w_ids w)) w.

Lemma bumped_id p i w : w_ids (bumped p i w) !! p = Some (set_cid_refcount (cid_refcount i + 1) i).
Proof. apply lookup_insert_eq. Qed.

Lemma client_id_get_found ht clientid p i w :
  Z.shiftr clientid 32 = epoch_low -> table_of ht w !! clientid = Some p ->
  w_ids w !! p = Some i -> cid_confirmed i <> STALE_CLIENT_ID ->
  nfs_client_id_get ht clientid w = Some ((CLIENT_ID_SUCCESS, Some p), bumped p i w).
Proof.
  intros He Ht Hp Hst. unfold nfs_client_id_get. rewrite He, Z.eqb_refl. cbn [negb].
  rewrite (bind_some _ _ _ _ _ eq_refl), Ht. unfold inc_client_id_ref.
  rewrite (bind_some _ _ _ _ _ (upd_id_some _ _ _ _ Hp)).
  rewrite (bind_some _ _ _ _ _ (get_id_some _ _ _ (bumped_id p i w))). by rewrite decide_False.
Qed.

Lemma find_client_id_unconf clientid p i w :
  Z.shiftr clientid 32 = epoch_low -> ht_unconfirmed_client_id w !! clientid = Some p ->
  w_ids w !! p = Some i -> cid_confirmed i = UNCONFIRMED_CLIENT_ID ->
  find_client_id clientid w = Some ((CLIENT_ID_SUCCESS, Some p, None), bumped p i w).
Proof.
  intros He Ht Hp Hst. unfold find_client_id.
  rewrite (bind_some _ _ _ _ _ (client_id_get_found unconfirmed_table clientid p i w He Ht Hp ltac:(congruence))).
  by rewrite decide_True.
Qed.

Lemma record_of_some p i r w :
  w_ids w !! p = Some i -> cid_client_record i = Some r -> record_of p w = Some (r, w).
Proof.
  intros Hp Er. unfold record_of. rewrite (bind_some _ _ _ _ _ (get_id_some _ _ _ Hp)). by rewrite Er.
Qed.

(** C40: CREATE_SESSION on a client id that SETCLIENTID made, with the first
    sequence number, crashes the server: the session is linked into a list
    head that lies in the v4.0 member of the union. *)
Theorem create_session_v40_crashes rq clientid flags maxops back_chan w p i r c :
  rq_minorversion rq <> 0 -> Z.shiftr clientid 32 = epoch_low ->
  ht_unconfirmed_client_id w !! clientid = Some p -> w_ids w !! p = Some i ->
  cid_confirmed i = UNCONFIRMED_CLIENT_ID -> cid_client_record i = Some r ->
  w_recs w !! r = Some c -> cb_session_list i = None ->
  cid_create_session_sequence i = 0 ->
  nfs_compare_clientcred (cid_credential i) (rq_credential rq) = true ->
  outside flags create_session_flags = 0 ->
  nfs4_op_create_session rq clientid 0 flags maxops back_chan w = None.
Proof.
  intros Hm He Ht Hp Hst Er Hr Hcb Hseq Hcred Hfl. unfold nfs4_op_create_session.
  destruct (Z.eqb_spec (rq_minorversion rq) 0); [done|].
  rewrite (bind_some _ _ _ _ _ (find_client_id_unconf clientid p i w He Ht Hp Hst)).
  rewrite (bind_some _ _ _ _ _ (record_of_some p _ r _ (bumped_id p i w) Er)).
  unfold inc_client_record_ref. rewrite (bind_some _ _ _ _ _ (upd_rec_some r _ c (bumped p i w) Hr)).
  set (w1 := set_w_recs _ _). assert (w_ids w1 !! p = Some (set_cid_refcount (cid_refcount i + 1) i)) as Hp1
    by apply bumped_id.
  unfold mbind at 1, CM_bind at 1. unfold create_session_locked.
  rewrite (bind_some _ _ _ _ _ (get_id_some _ _ _ Hp1)).
  cbn [cid_create_session_sequence set_cid_refcount cid_create_session_slot cid_credential].
  rewrite Hseq, Hcred, Hfl. replace (u32 (0 + 1) =? 0) with false by done.
  rewrite andb_false_r. cbn [andb negb Z.eqb]. rewrite andb_false_r.
  unfold mbind at 1, CM_bind at 1. unfold new_session.
  rewrite (bind_some _ _ _ _ _ eq_refl). unfold inc_client_id_ref.
  set (w2 := set_w_next (Pos.succ (w_next w1)) w1).
  rewrite (bind_some _ _ _ _ _ (upd_id_some p _ _ w2 Hp1)).
  rewrite (bind_some _ _ _ _ _ (get_id_some p _ _ (lookup_insert_eq _ _ _))).
  cbn [cb_session_list set_cid_refcount]. by rewrite Hcb.
Qed.

(** SETCLIENTID_CONFIRM of an unconfirmed client id does not depend on
    the verifier of the request: any client of the principal that knows or
    guesses the number confirms it. *)
Theorem setclientid_confirm_ignores_verifier rq cb_up clientid v1 v2 w p i :
  Z.shiftr clientid 32 = epoch_low ->
  ht_unconfirmed_client_id w !! clientid = Some p -> w_ids w !! p = Some i ->
  cid_confirmed i = UNCONFIRMED_CLIENT_ID ->
  nfs4_op_setclientid_confirm rq cb_up clientid v1 w =
  nfs4_op_setclientid_confirm rq cb_up clientid v2 w.
Proof.
  intros He Ht Hp Hst. unfold nfs4_op_setclientid_confirm. destruct (0 <? rq_minorversion rq); [done|].
  rewrite !(bind_some _ _ _ _ _ (find_client_id_unconf clientid p i w He Ht Hp Hst)).
  destruct (cid_client_record i) as [r|] eqn:Er.
  2:{ unfold record_of, mbind, CM_bind. rewrite (get_id_some _ _ _ (bumped_id p i w)). cbn. by rewrite Er. }
  rewrite !(bind_some _ _ _ _ _ (record_of_some p _ r _ (bumped_id p i w) Er)).
  unfold inc_client_record_ref. destruct (w_recs w !! r) as [c|] eqn:Hr.
  2:{ unfold upd_rec, mbind, CM_bind, get_rec. change (w_recs (bumped p i w)) with (w_recs w). by rewrite Hr. }
  rewrite !(bind_some _ _ _ _ _ (upd_rec_some r _ c (bumped p i w) Hr)).
  set (w1 := set_w_recs _ _). assert (w_ids w1 !! p = Some (set_cid_refcount (cid_refcount i + 1) i)) as Hp1
    by apply bumped_id.
  unfold mbind, CM_bind. unfold setclientid_confirm_locked.
  rewrite !(bind_some _ _ _ _ _ (get_id_some _ _ _ Hp1)). destruct (negb (principal_matches rq _)); [done|].
  by rewrite !(decide_False (P := _ /\ _)) by (cbn; rewrite Hst; naive_solver).
Qed.
End findings.

(** ** Executions *)

#[local] Existing Instances demo_env demo_ops.

Lemma create_session_v40_crashes_witness :
  exists w, (exists m, run [send 0 100 [OP_SETCLIENTID [1; 2] 55 []]] (start 1000 no_files) = Some m /\ w = m_world m) /\
    nfs4_op_create_session (demo_rq 1 100) (demo_id 1) 0 0 8 true w = None.
Proof.
  eexists. split; [eexists; split; [vm_compute; reflexivity|reflexivity]|].
  eapply (create_session_v40_crashes (demo_rq 1 100) (demo_id 1) 0 8 true _ 2); try (vm_compute; reflexivity).
  vm_compute. discriminate.
Defined.

Lemma setclientid_confirm_ignores_verifier_witness :
  exists w, (exists m, run [send 0 100 [OP_SETCLIENTID [1; 2] 55 []]] (start 1000 no_files) = Some m /\ w = m_world m) /\
    nfs4_op_setclientid_confirm (demo_rq 0 100) true (demo_id 1) 999 w =
    nfs4_op_setclientid_confirm (demo_rq 0 100) true (demo_id 1) 1 w.
Proof.
  eexists. split; [eexists; split; [vm_compute; reflexivity|reflexivity]|].
  eapply (setclientid_confirm_ignores_verifier _ _ _ _ _ _ 2); vm_compute; reflexivity.
Defined.

(** A v4.1 client with a session, the first client id of the server. *)
Definition client41 : list event :=
  [send 1 200 [OP_EXCHANGE_ID [3; 4] 66 0 0 true]; send 1 200 [OP_CREATE_SESSION (demo_id 1) 1 0 8 true]].

(** It opens a file, with the sequence number [n] of its first slot. *)
Definition open41 (n : Z) : event :=
  send 1 200 [OP_SEQUENCE (demo_id 1, 1) n 0 true; OP_OPEN 0 20 3].

(** The reaper judged the lease lapsed and waits for the mutex of the
    record, which CREATE_SESSION holds.  CREATE_SESSION succeeds, the lease
    is valid again, and the reaper then expires the client id with the new
    session. *)
Theorem create_session_races_reaper :
  exists m res sid w1 i m2,
    run (client41 ++ [ev_tick 61; ev_reap_check confirmed_table (demo_id 1)]) (start 1000 no_files) = Some m /\
    nfs4_op_create_session (demo_rq 1 200) (demo_id 1) 2 0 8 true (m_world m) = Some (res, w1) /\
    csr_status res = NFS4_OK /\ csr_ok res = Some (sid, 2, 0) /\
    ht_confirmed_client_id w1 !! demo_id 1 = Some 2%positive /\ w_ids w1 !! 2%positive = Some i /\
    valid_lease (w_time w1) i = true /\ is_Some (ht_session_id w1 !! sid) /\
    step ev_reap_expire (set_m_world w1 m) = Some m2 /\
    ht_confirmed_client_id (m_world m2) !! demo_id 1 = None /\ ht_session_id (m_world m2) !! sid = None.
Proof.
  do 6 eexists. split; [vm_compute; reflexivity|]. split; [vm_compute; reflexivity|].
  split; [vm_compute; reflexivity|]. split; [vm_compute; reflexivity|].
  split; [vm_compute; reflexivity|]. split; [vm_compute; reflexivity|].
  split; [vm_compute; reflexivity|]. split; [eexists; vm_compute; reflexivity|].
  split; [vm_compute; reflexivity|]. split; vm_compute; reflexivity.
Qed.

(** EXCHANGE_ID of another principal with the same owner expires a
    client that has a valid lease and open files. *)
Theorem exchange_id_expires_live_client :
  exists m i res w1,
    run (client41 ++ [open41 1; ev_advance 0; ev_tick 5]) (start 1000 no_files) = Some m /\
    ht_confirmed_client_id (m_world m) !! demo_id 1 = Some 2%positive /\
    w_ids (m_world m) !! 2%positive = Some i /\
    valid_lease (w_time (m_world m)) i = true /\ clientid_has_state i = true /\
    nfs4_op_exchange_id (demo_rq 1 999) [3; 4] 77 0 0 true (m_world m) = Some ((NFS4_OK, Some res), w1) /\
    ht_confirmed_client_id w1 !! demo_id 1 = None.
Proof.
  do 4 eexists. split; [vm_compute; reflexivity|]. split; [vm_compute; reflexivity|].
  split; [vm_compute; reflexivity|]. split; [vm_compute; reflexivity|].
  split; [vm_compute; reflexivity|]. split; vm_compute; reflexivity.
Qed.

(** DESTROY_CLIENTID of a client id without sessions but with an open
    file answers success and leaves the open behind: the client id is in no
    table any more, and no run of the reaper releases what it holds. *)
Theorem destroy_clientid_strands_state :
  exists m i w1 i1 m2 i2,
    run (client41 ++ [open41 1; ev_advance 0; send 1 200 [OP_DESTROY_SESSION (demo_id 1, 1)]]) (start 1000 no_files)
      = Some m /\
    w_ids (m_world m) !! 2%positive = Some i /\ clientid_has_state i = true /\
    nfs4_op_destroy_clientid (demo_id 1) (m_world m) = Some (NFS4_OK, w1) /\
    ht_confirmed_client_id w1 = ∅ /\ ht_unconfirmed_client_id w1 = ∅ /\
    w_ids w1 !! 2%positive = Some i1 /\ cid_openowners i1 = cid_openowners i /\
    run [ev_tick 1000; ev_reap; ev_reap] (set_m_world w1 m) = Some m2 /\
    w_ids (m_world m2) !! 2%positive = Some i2 /\ cid_openowners i2 = cid_openowners i.
Proof.
  do 6 eexists. split; [vm_compute; reflexivity|]. split; [vm_compute; reflexivity|].
  split; [vm_compute; reflexivity|]. split; [vm_compute; reflexivity|].
  split; [vm_compute; reflexivity|]. split; [vm_compute; reflexivity|].
  split; [vm_compute; reflexivity|]. split; [vm_compute; reflexivity|].
  split; [vm_compute; reflexivity|]. split; vm_compute; reflexivity.
Qed.

(** EXCHANGE_ID that returns an existing client id again keeps the reference
    it took: the client id is never freed. *)
Lemma exchange_id_leaks_reference :
  exists m m' i,
    run (client41 ++ [ev_tick 1000; ev_reap]) (start 1000 no_files) = Some m /\ w_ids (m_world m) = ∅ /\
    run (client41 ++ [send 1 200 [OP_EXCHANGE_ID [3; 4] 66 0 0 true]; ev_tick 1000; ev_reap]) (start 1000 no_files)
      = Some m' /\
    w_ids (m_world m') !! 2%positive = Some i /\ cid_confirmed i = EXPIRED_CLIENT_ID /\ cid_refcount i = 1 /\
    ht_confirmed_client_id (m_world m') = ∅ /\ w_sessions (m_world m') = ∅ /\ cid_openowners i = [].
Proof.
  do 3 eexists. split; [vm_compute; reflexivity|]. split; [vm_compute; reflexivity|].
  split; [vm_compute; reflexivity|]. split; [vm_compute; reflexivity|]. repeat split; vm_compute; reflexivity.
Qed.

(** SETCLIENTID_CONFIRM of another principal expires a client that got state
    after the SETCLIENTID: the principals are not compared again. *)
Lemma confirm_expires_other_principal :
  exists m i w1,
    run [send 0 100 [OP_SETCLIENTID [1; 2] 55 []]; send 0 100 [OP_SETCLIENTID_CONFIRM true (demo_id 1) 1];
         send 0 999 [OP_SETCLIENTID [1; 2] 77 []]; send 0 100 [OP_OPEN (demo_id 1) 10 1]] (start 1000 no_files) = Some m /\
    w_ids (m_world m) !! 2%positive = Some i /\ clientid_has_state i = true /\
    ht_confirmed_client_id (m_world m) !! demo_id 1 = Some 2%positive /\
    nfs4_op_setclientid_confirm (demo_rq 0 999) true (demo_id 2) 2 (m_world m) = Some (NFS4_OK, w1) /\
    ht_confirmed_client_id w1 !! demo_id 1 = None.
Proof.
  do 3 eexists. split; [vm_compute; reflexivity|]. split; [vm_compute; reflexivity|].
  split; [vm_compute; reflexivity|]. split; [vm_compute; reflexivity|]. split; vm_compute; reflexivity.
Qed.
