(* ===== verification/StateTable.v ===== *)
(** * State identifiers of NFSv4

    The states of clients and the two tables that find them
    (SAL/nfs4_state_id.c), adding and deleting a state (SAL/nfs4_state.c), and
    the sequence numbers of v4.0 owners (SAL/nfs4_owner.c).

    The client ids are an interface, [Clients], and so are the objects of the
    file system, [Objects].  Objects come and go: [w_gone] says which are not
    found at the moment.  The count of an owner's references is not a field
    here: an owner may be freed when no state and no lock owner refers to it
    ([free_owner]). *)
From S2P Require Import Prelude Status Owners ClientData.

(** What client ids do for states: look up one with its reference, reserve
    and renew its lease, give the reference back, and its number.  [None] is
    a use of a freed client id. *)
Class Clients := {
  clients : Type;
  nfs_client_id_get_confirmed : Z -> clients -> option (clientid_status_t * option positive * clients);
  cl_reserve_lease : positive -> clients -> option (bool * clients);
  cl_update_lease : positive -> clients -> option (unit * clients);
  cl_inc_client_id_ref : positive -> clients -> option (unit * clients);
  cl_dec_client_id_ref : positive -> clients -> option (unit * clients);
  cl_clientid : positive -> clients -> option Z
}.

(** Objects are their addresses; [create_handle] makes the object of a digest
    in an export, as long as it is there. *)
Class Objects := {
  handle_digest : Z -> list Z;
  handle_cmp : Z -> Z -> bool;
  create_handle : Z -> list Z -> option Z;
  export_ready : Z -> bool;
  server_epoch : Z
}.

(** ** Data *)

Inductive state_type :=
| STATE_TYPE_NONE
| STATE_TYPE_SHARE
| STATE_TYPE_DELEG
| STATE_TYPE_LOCK
| STATE_TYPE_LAYOUT
| STATE_TYPE_NLM_LOCK
| STATE_TYPE_NLM_SHARE
| STATE_TYPE_9P_FID.

#[export] Instance state_type_eq_dec : EqDecision state_type.
Proof. solve_decision. Defined.

(** [stateid4.other]: the client id, and the counter of the client. *)
Definition stateid_other_t : Type := Z * Z.

Definition all_zero : stateid_other_t := (0, 0).
Definition all_ones : stateid_other_t := (18446744073709551615, 4294967295).
Definition seqid_all_one : Z := 0xFFFFFFFF.

Record stateid4 := mk_stateid { seqid : Z; other : stateid_other_t }.

(** [state_t]; [state_locklist] and [openstate] are of a lock state,
    [share_lockstates] of an open one.  A digest that was cleared is empty. *)
Record state_t := mk_state {
  stateid_other : stateid_other_t;
  state_type_of : state_type;
  state_seqid : Z;
  state_refcount : Z;
  state_obj : list Z;
  state_export : option Z;
  state_owner : option positive;
  state_locklist : list Z;
  openstate : option positive;
  share_lockstates : list positive
}.

(** [nfs_resop4], the part that is saved: the status and the stateid. *)
Record resop4 := mk_resop { r_status : nfsstat4; r_stateid : option stateid4 }.

(** The NFSv4 part of [state_owner_t]; [so_argop] is that of [so_args]. *)
Record nfs4_owner := mk_nfs4_owner {
  so_type : state_owner_type_t;
  so_clientrec : positive;
  so_confirmed : bool;
  so_seqid : Z;
  so_argop : Z;
  so_last_entry : option Z;
  so_resp : resop4;
  so_lock_list : list Z;
  so_related_owner : option positive;
  so_states : list positive
}.

(** [compound_data_t]: what the operations on states read and write;
    [session_clientid] is that of the session. *)
Record op_data := mk_op_data {
  minorversion : Z;
  session_clientid : Z;
  current_obj : Z;
  ctx_export : Z;
  current_stateid : stateid4;
  current_stateid_valid : bool;
  od_preserved : option positive
}.

Definition set_valid v (d : op_data) : op_data :=
  mk_op_data (minorversion d) (session_clientid d) (current_obj d) (ctx_export d) (current_stateid d) v (od_preserved d).
Definition set_current i (d : op_data) : op_data :=
  mk_op_data (minorversion d) (session_clientid d) (current_obj d) (ctx_export d) i true (od_preserved d).
Definition set_current_obj v (d : op_data) : op_data :=
  mk_op_data (minorversion d) (session_clientid d) v (ctx_export d) (current_stateid d) (current_stateid_valid d)
    (od_preserved d).
Definition set_od_preserved v (d : op_data) : op_data :=
  mk_op_data (minorversion d) (session_clientid d) (current_obj d) (ctx_export d) (current_stateid d)
    (current_stateid_valid d) v.

Definition set_state_seqid v (s : state_t) : state_t :=
  mk_state (stateid_other s) (state_type_of s) v (state_refcount s) (state_obj s) (state_export s)
    (state_owner s) (state_locklist s) (openstate s) (share_lockstates s).
Definition set_state_refcount v (s : state_t) : state_t :=
  mk_state (stateid_other s) (state_type_of s) (state_seqid s) v (state_obj s) (state_export s)
    (state_owner s) (state_locklist s) (openstate s) (share_lockstates s).
Definition set_state_locklist v (s : state_t) : state_t :=
  mk_state (stateid_other s) (state_type_of s) (state_seqid s) (state_refcount s) (state_obj s)
    (state_export s) (state_owner s) v (openstate s) (share_lockstates s).
Definition set_share_lockstates v (s : state_t) : state_t :=
  mk_state (stateid_other s) (state_type_of s) (state_seqid s) (state_refcount s) (state_obj s)
    (state_export s) (state_owner s) (state_locklist s) (openstate s) v.
(** What [state_del_locked] leaves of a state. *)
Definition unlinked (s : state_t) : state_t :=
  mk_state (stateid_other s) (state_type_of s) (state_seqid s) (state_refcount s) [] None
    None (state_locklist s) (openstate s) (share_lockstates s).

Definition set_so_states v (o : nfs4_owner) : nfs4_owner :=
  mk_nfs4_owner (so_type o) (so_clientrec o) (so_confirmed o) (so_seqid o) (so_argop o)
    (so_last_entry o) (so_resp o) (so_lock_list o) (so_related_owner o) v.
Definition set_so_confirmed v (o : nfs4_owner) : nfs4_owner :=
  mk_nfs4_owner (so_type o) (so_clientrec o) v (so_seqid o) (so_argop o)
    (so_last_entry o) (so_resp o) (so_lock_list o) (so_related_owner o) (so_states o).
Definition set_so_related v (o : nfs4_owner) : nfs4_owner :=
  mk_nfs4_owner (so_type o) (so_clientrec o) (so_confirmed o) (so_seqid o) (so_argop o)
    (so_last_entry o) (so_resp o) (so_lock_list o) v (so_states o).
Definition set_so_lock_list v (o : nfs4_owner) : nfs4_owner :=
  mk_nfs4_owner (so_type o) (so_clientrec o) (so_confirmed o) (so_seqid o) (so_argop o)
    (so_last_entry o) (so_resp o) v (so_related_owner o) (so_states o).
Definition saved_req seqid argop obj resp (o : nfs4_owner) : nfs4_owner :=
  mk_nfs4_owner (so_type o) (so_clientrec o) (so_confirmed o) seqid argop
    obj resp (so_lock_list o) (so_related_owner o) (so_states o).

(** The name of an owner: whether it is an open owner, the number of the
    client id, and the name the client gave it. *)
Definition owner_name : Type := bool * Z * list Z.

(** The client ids, the states, the owners and the table that finds them, the
    counter of each client id, the tables of states, the lists of states of
    files and exports, and the objects, by export and digest, that the backend
    does not find. *)
Record world `{Clients} := mk_sworld {
  w_clients : clients;
  w_states : gmap positive state_t;
  w_fresh : positive;
  w_owners : gmap positive nfs4_owner;
  ht_nfs4_owner : gmap owner_name positive;
  w_counters : gmap positive Z;
  ht_state_id : gmap stateid_other_t positive;
  ht_state_obj : gmap (list Z * positive) positive;
  list_of_states : gmap (list Z) (list positive);
  exp_state_list : gmap Z (list positive);
  w_gone : gset (Z * list Z)
}.
Arguments mk_sworld {_}.

Section state_id.
Context {Cl : Clients} {Ob : Objects}.

Definition set_clients v (w : world) : world :=
  mk_sworld v (w_states w) (w_fresh w) (w_owners w) (ht_nfs4_owner w) (w_counters w)
    (ht_state_id w) (ht_state_obj w) (list_of_states w) (exp_state_list w) (w_gone w).
Definition set_states v (w : world) : world :=
  mk_sworld (w_clients w) v (w_fresh w) (w_owners w) (ht_nfs4_owner w) (w_counters w)
    (ht_state_id w) (ht_state_obj w) (list_of_states w) (exp_state_list w) (w_gone w).
Definition set_fresh v (w : world) : world :=
  mk_sworld (w_clients w) (w_states w) v (w_owners w) (ht_nfs4_owner w) (w_counters w)
    (ht_state_id w) (ht_state_obj w) (list_of_states w) (exp_state_list w) (w_gone w).
Definition set_w_owners v (w : world) : world :=
  mk_sworld (w_clients w) (w_states w) (w_fresh w) v (ht_nfs4_owner w) (w_counters w)
    (ht_state_id w) (ht_state_obj w) (list_of_states w) (exp_state_list w) (w_gone w).
Definition set_ht_owner v (w : world) : world :=
  mk_sworld (w_clients w) (w_states w) (w_fresh w) (w_owners w) v (w_counters w)
    (ht_state_id w) (ht_state_obj w) (list_of_states w) (exp_state_list w) (w_gone w).
Definition set_counters v (w : world) : world :=
  mk_sworld (w_clients w) (w_states w) (w_fresh w) (w_owners w) (ht_nfs4_owner w) v
    (ht_state_id w) (ht_state_obj w) (list_of_states w) (exp_state_list w) (w_gone w).
Definition set_ht_id v (w : world) : world :=
  mk_sworld (w_clients w) (w_states w) (w_fresh w) (w_owners w) (ht_nfs4_owner w) (w_counters w)
    v (ht_state_obj w) (list_of_states w) (exp_state_list w) (w_gone w).
Definition set_ht_obj v (w : world) : world :=
  mk_sworld (w_clients w) (w_states w) (w_fresh w) (w_owners w) (ht_nfs4_owner w) (w_counters w)
    (ht_state_id w) v (list_of_states w) (exp_state_list w) (w_gone w).
Definition set_file_list v (w : world) : world :=
  mk_sworld (w_clients w) (w_states w) (w_fresh w) (w_owners w) (ht_nfs4_owner w) (w_counters w)
    (ht_state_id w) (ht_state_obj w) v (exp_state_list w) (w_gone w).
Definition set_exp_list v (w : world) : world :=
  mk_sworld (w_clients w) (w_states w) (w_fresh w) (w_owners w) (ht_nfs4_owner w) (w_counters w)
    (ht_state_id w) (ht_state_obj w) (list_of_states w) v (w_gone w).
Definition set_gone v (w : world) : world :=
  mk_sworld (w_clients w) (w_states w) (w_fresh w) (w_owners w) (ht_nfs4_owner w) (w_counters w)
    (ht_state_id w) (ht_state_obj w) (list_of_states w) (exp_state_list w) v.

(** ** Effects *)

Definition SM (A : Type) : Type := world -> option (A * world).

#[export] Instance SM_ret : MRet SM := fun _ a w => Some (a, w).
#[export] Instance SM_bind : MBind SM :=
  fun _ _ k m w => match m w with Some (a, w') => k a w' | None => None end.

(** A use of freed memory or a failed assertion. *)
Definition fault {A} : SM A := fun _ => None.
Definition view {A} (f : world -> A) : SM A := fun w => Some (f w, w).
Definition change (f : world -> world) : SM unit := fun w => Some (tt, f w).

(** A call of the client ids. *)
Definition on_clients {A} (f : clients -> option (A * clients)) : SM A :=
  fun w => match f (w_clients w) with
           | Some (a, c) => Some (a, set_clients c w)
           | None => None
           end.

Definition get_state (p : positive) : SM state_t :=
  fun w => match w_states w !! p with Some s => Some (s, w) | None => None end.
Definition put_state (p : positive) (s : state_t) : SM unit :=
  change (fun w => set_states (<[p := s]> (w_states w)) w).
Definition upd_state (p : positive) (f : state_t -> state_t) : SM unit :=
  s ← get_state p; put_state p (f s).
Definition get_owner (so : positive) : SM nfs4_owner :=
  fun w => match w_owners w !! so with Some o => Some (o, w) | None => None end.
Definition upd_so (so : positive) (f : nfs4_owner -> nfs4_owner) : SM unit :=
  o ← get_owner so; change (fun w => set_w_owners (<[so := f o]> (w_owners w)) w).

(** The states of a file, or of an export, are in a list. *)
Definition list_at {K} `{Countable K} (k : K) (m : gmap K (list positive)) : list positive :=
  default [] (m !! k).
Definition list_add {K} `{Countable K} (k : K) (p : positive) (m : gmap K (list positive)) :=
  <[k := list_at k m ++ [p]]> m.
Definition list_del {K} `{Countable K} (k : K) (p : positive) (m : gmap K (list positive)) :=
  <[k := filter (fun q => q <> p) (list_at k m)]> m.

(** ** References *)

Definition inc_state_t_ref (p : positive) : SM unit :=
  upd_state p (fun s => set_state_refcount (state_refcount s + 1) s).

Definition dec_nfs4_state_ref (p : positive) : SM unit :=
  s ← get_state p;
  let refcount := state_refcount s - 1 in
  if 0 <? refcount then put_state p (set_state_refcount refcount s)
  else change (fun w => set_states (delete p (w_states w)) w).

(** States of NLM are not in these tables. *)
Definition dec_state_t_ref (p : positive) : SM unit :=
  s ← get_state p;
  match state_type_of s with
  | STATE_TYPE_NLM_LOCK | STATE_TYPE_NLM_SHARE => fault
  | _ => dec_nfs4_state_ref p
  end.

(** ** The tables *)

(** Lock and share states are also found by file and owner. *)
Definition by_owner (ty : state_type) : bool :=
  match ty with STATE_TYPE_LOCK | STATE_TYPE_SHARE => true | _ => false end.

(** [atomic_inc_uint32_t] gives the new value. *)
Definition nfs4_BuildStateId_Other (clientid : positive) : SM stateid_other_t :=
  number ← (fun w => match cl_clientid clientid (w_clients w) with
                     | Some n => Some (n, w)
                     | None => None
                     end : option (Z * world));
  my_stateid ← view (fun w => u32 (default 0 (w_counters w !! clientid) + 1));
  change (fun w => set_counters (<[clientid := my_stateid]> (w_counters w)) w);;
  mret (number, my_stateid).

(** Owners with equal names are one object, so that [compare_state_obj]
    compares the digests and the owners' addresses. *)
Definition obj_key (s : state_t) : option (list Z * positive) :=
  so ← state_owner s; Some (state_obj s, so).

Definition nfs4_State_Set (p : positive) : SM bool :=
  s ← get_state p;
  taken ← view (fun w => ht_state_id w !! stateid_other s);
  match taken with
  | Some _ => mret false
  | None =>
      change (fun w => set_ht_id (<[stateid_other s := p]> (ht_state_id w)) w);;
      if negb (by_owner (state_type_of s)) then mret true else
      match obj_key s with
      | None => fault
      | Some key =>
          taken ← view (fun w => ht_state_obj w !! key);
          match taken with
          | Some _ =>
              change (fun w => set_ht_id (delete (stateid_other s) (ht_state_id w)) w);;
              mret false
          | None =>
              change (fun w => set_ht_obj (<[key := p]> (ht_state_obj w)) w);;
              mret true
          end
      end
  end.

Definition nfs4_State_Get_Pointer (o : stateid_other_t) : SM (option positive) :=
  found ← view (fun w => ht_state_id w !! o);
  match found with
  | Some p => inc_state_t_ref p;; mret (Some p)
  | None => mret None
  end.

Definition nfs4_State_Get_Obj (obj : Z) (so : positive) : SM (option positive) :=
  found ← view (fun w => ht_state_obj w !! (handle_digest obj, so));
  match found with
  | Some p => inc_state_t_ref p;; mret (Some p)
  | None => mret None
  end.

Definition nfs4_State_Del (p : positive) : SM bool :=
  s ← get_state p;
  old ← view (fun w => ht_state_id w !! stateid_other s);
  match old with
  | None => mret false
  | Some q =>
      change (fun w => set_ht_id (delete (stateid_other s) (ht_state_id w)) w);;
      if negb (bool_decide (q = p)) then fault else
      if negb (by_owner (state_type_of s)) then mret true else
      match obj_key s with
      | None => fault
      | Some key =>
          old ← view (fun w => ht_state_obj w !! key);
          match old with
          | Some _ =>
              change (fun w => set_ht_obj (delete key (ht_state_obj w)) w);;
              mret true
          | None => mret false
          end
      end
  end.

(** ** Adding and deleting a state *)

Definition state_add_impl (obj : Z) (ty : state_type) (opened : option positive) (so : positive)
    (export : Z) : SM (state_status_t * option positive) :=
  if negb (export_ready export) then mret (STATE_ESTALE, None) else
  p ← view w_fresh;
  change (fun w => set_fresh (Pos.succ p) w);;
  o ← get_owner so;
  id ← nfs4_BuildStateId_Other (so_clientrec o);
  put_state p (mk_state id ty 0 2 (handle_digest obj) (Some export) (Some so) [] opened []);;
  ok ← nfs4_State_Set p;
  if negb ok
  then change (fun w => set_states (delete p (w_states w)) w);; mret (STATE_MALLOC_ERROR, None)
  else
    change (fun w => set_exp_list (list_add export p (exp_state_list w)) w);;
    change (fun w => set_file_list (list_add (handle_digest obj) p (list_of_states w)) w);;
    upd_so so (fun o => set_so_states (so_states o ++ [p]) o);;
    mret (STATE_SUCCESS, Some p).

Definition owner_fits (ty : state_type) (o : state_owner_type_t) : bool :=
  match ty with
  | STATE_TYPE_SHARE => bool_decide (o = STATE_OPEN_OWNER_NFSV4)
  | STATE_TYPE_LOCK => bool_decide (o = STATE_LOCK_OWNER_NFSV4)
  | STATE_TYPE_DELEG | STATE_TYPE_LAYOUT => bool_decide (o = STATE_CLIENTID_OWNER_NFSV4)
  | _ => true
  end.

Definition state_add (obj : Z) (ty : state_type) (opened : option positive) (so : positive)
    (export : Z) : SM (state_status_t * option positive) :=
  o ← get_owner so;
  if negb (owner_fits ty (so_type o)) then mret (STATE_BAD_TYPE, None)
  else state_add_impl obj ty opened so export.

(** [exp_ops.create_handle] now. *)
Definition find_handle (gone : gset (Z * list Z)) (export : Z) (digest : list Z) : option Z :=
  if decide ((export, digest) ∈ gone) then None else create_handle export digest.

Definition get_state_obj_ref (s : state_t) (w : world) : option Z :=
  match state_export s with
  | Some export => find_handle (w_gone w) export (state_obj s)
  | None => None
  end.

(** Takes a lock state from the list of its open state, whose head it
    touches. *)
Definition leave_open (p : positive) (s : state_t) : SM unit :=
  match state_type_of s, openstate s with
  | STATE_TYPE_LOCK, Some q =>
      upd_state q (fun s => set_share_lockstates (filter (fun r => r <> p) (share_lockstates s)) s)
  | _, _ => mret tt
  end.

Definition state_del_locked (p : positive) : SM unit :=
  ok ← nfs4_State_Del p;
  if negb ok then mret tt else
  s ← get_state p;
  obj ← view (get_state_obj_ref s);
  match obj with
  | None => mret tt
  | Some _ =>
      change (fun w => set_file_list (list_del (state_obj s) p (list_of_states w)) w);;
      match state_owner s with
      | Some so => upd_so so (fun o => set_so_states (filter (fun q => q <> p) (so_states o)) o)
      | None => mret tt
      end;;
      leave_open p s;;
      match state_export s with
      | Some export => change (fun w => set_exp_list (list_del export p (exp_state_list w)) w)
      | None => fault
      end;;
      upd_state p unlinked;;
      dec_state_t_ref p
  end.

Definition state_del (p : positive) : SM unit :=
  s ← get_state p;
  obj ← view (get_state_obj_ref s);
  match obj with
  | None => mret tt
  | Some _ => state_del_locked p
  end.

(** ** Freeing an owner *)

(** References to an owner are held by its states, its locks and, for an open
    owner, by lock owners; between operations nobody else has one but the
    cache of open owners, which gives it up some time. *)
Definition owner_unused (so : positive) (o : nfs4_owner) (w : world) : bool :=
  bool_decide (so_states o = []) && bool_decide (so_lock_list o = [])
  && forallb (fun x => negb (bool_decide (so_related_owner (snd x) = Some so))) (map_to_list (w_owners w)).

(** The end of [dec_state_owner_ref] for the last reference, with
    [free_nfs4_owner]. *)
Definition free_owner (so : positive) : SM unit :=
  o ← get_owner so;
  unused ← view (owner_unused so o);
  if negb unused then mret tt else
  change (fun w => set_ht_owner (filter (fun x => snd x <> so) (ht_nfs4_owner w)) w);;
  change (fun w => set_w_owners (delete so (w_owners w)) w);;
  on_clients (cl_dec_client_id_ref (so_clientrec o)).

(** ** Sequence numbers of owners (v4.0) *)

Definition Copy_nfs4_state_req (owner : option positive) (seqid argop : Z) (obj : option Z) (resp : resop4) : SM unit :=
  match owner with
  | None => mret tt
  | Some so => upd_so so (saved_req seqid argop obj resp)
  end.

(** [true]: the caller is to process the operation; else the response is the
    answer. *)
Definition Check_nfs4_seqid (owner : option positive) (seqid argop obj : Z) (resp : resop4)
    : SM (bool * resop4) :=
  match owner with
  | None => mret (true, resp)
  | Some so =>
      o ← get_owner so;
      match so_last_entry o with
      | None => mret (true, resp)
      | Some last =>
          if seqid =? u32 (so_seqid o + 1) then mret (true, resp) else
          let bad := mk_resop NFS4ERR_BAD_SEQID (r_stateid resp) in
          if negb (so_seqid o =? seqid) then mret (false, bad) else
          if negb (argop =? so_argop o) then mret (false, bad) else
          if negb (last =? obj) then mret (false, bad) else
          mret (false, so_resp o)
      end
  end.

(** ** Checking a stateid *)

Definition STATEID_SPECIAL_ALL_0 : Z := 2.
Definition STATEID_SPECIAL_ALL_1 : Z := 4.
Definition STATEID_SPECIAL_CURRENT : Z := 8.
Definition STATEID_SPECIAL_FREE : Z := 0x100.
Definition STATEID_SPECIAL_FOR_FREE : Z := Z.lor STATEID_SPECIAL_CURRENT STATEID_SPECIAL_FREE.
Definition STATEID_SPECIAL_CLOSE_40 : Z := 0x40.
Definition STATEID_SPECIAL_CLOSE_41 : Z := 0x80.
Definition STATEID_SPECIAL_FOR_LOCK : Z := STATEID_SPECIAL_CURRENT.
Definition STATEID_SPECIAL_FOR_CLOSE_40 : Z := STATEID_SPECIAL_CLOSE_40.
Definition STATEID_SPECIAL_FOR_CLOSE_41 : Z := Z.lor STATEID_SPECIAL_CLOSE_41 STATEID_SPECIAL_CURRENT.

Definition has_flag (flags f : Z) : bool := negb (Z.land flags f =? 0).

(** What the sequence number of a stateid says: current, a replay, old or
    from the future. *)
Inductive seq_verdict := seq_current | seq_replay | seq_old | seq_future.

Definition check_seq (s : state_t) (o : nfs4_owner) (seqid owner_seqid : Z) (check_seqid : bool)
    : seq_verdict :=
  if bool_decide (state_type_of s = STATE_TYPE_LAYOUT) || negb (seqid =? 0) then
    let diff := s32 (seqid - state_seqid s) in
    if diff <? 0 then
      if check_seqid
         && ((diff =? -1) || ((state_seqid s =? 1) && (seqid =? seqid_all_one)))
         && (owner_seqid =? so_seqid o)
      then seq_replay else seq_old
    else if (diff =? 0) && check_seqid && (owner_seqid =? so_seqid o) then seq_replay
    else if 0 <? diff then seq_future
    else seq_current
  else seq_current.

(** Whether FREE_STATEID may free the state. *)
Definition may_free (s : state_t) : bool :=
  match state_type_of s, state_locklist s with
  | STATE_TYPE_LOCK, [] => true
  | _, _ => false
  end.

(** [get_state_obj_export_owner_refs] without the export. *)
Definition get_state_obj_owner_refs (state : option positive) : SM (option (Z * positive)) :=
  match state with
  | None => mret None
  | Some p =>
      s ← get_state p;
      found ← view (get_state_obj_ref s);
      mret (obj ← found; so ← state_owner s; Some (obj, so))
  end.

(** Renews and releases the lease that is reserved. *)
Definition release_preserved (data : op_data) : SM op_data :=
  match od_preserved data with
  | Some p => on_clients (cl_update_lease p);; mret (set_od_preserved None data)
  | None => mret data
  end.

(** The ends of [nfs4_Check_Stateid]. *)
Definition check_failure (status : nfsstat4) (state2 : option positive) (data : op_data)
    : SM (nfsstat4 * option positive * op_data) :=
  match state2 with Some p => dec_state_t_ref p | None => mret tt end;;
  mret (status, None, set_valid false data).

(** No state, or one that is being torn down. *)
Definition check_not_found (clientid flags : Z) (state2 : option positive) (data : op_data)
    : SM (nfsstat4 * option positive * op_data) :=
  '(rc, found) ← on_clients (nfs_client_id_get_confirmed clientid);
  match found with
  | None => check_failure (clientid_error_to_nfsstat rc) state2 data
  | Some pclientid =>
      if has_flag flags (Z.lor STATEID_SPECIAL_CLOSE_40 STATEID_SPECIAL_CLOSE_41) then
        data ← release_preserved data;
        valid ← on_clients (cl_reserve_lease pclientid);
        if negb valid then check_failure NFS4ERR_EXPIRED state2 data else
        data ← (if has_flag flags STATEID_SPECIAL_CLOSE_40
                then on_clients (cl_update_lease pclientid);; mret data
                else mret (set_od_preserved (Some pclientid) data));
        mret (NFS4_OK, state2, set_valid false data)
      else
      match state2 with
      | None =>
          on_clients (cl_dec_client_id_ref pclientid);;
          check_failure NFS4ERR_BAD_STATEID state2 data
      | Some _ =>
          valid ← on_clients (cl_reserve_lease pclientid);
          if negb valid
          then on_clients (cl_dec_client_id_ref pclientid);; check_failure NFS4ERR_EXPIRED state2 data
          else
            on_clients (cl_update_lease pclientid);;
            on_clients (cl_dec_client_id_ref pclientid);;
            check_failure NFS4ERR_STALE state2 data
      end
  end.

(** The lease of the owner's client id, if it is not reserved already. *)
Definition check_lease (clientrec : positive) (data : op_data) : SM (bool * op_data) :=
  if bool_decide (od_preserved data = Some clientrec) then mret (true, data) else
  data ← release_preserved data;
  valid ← on_clients (cl_reserve_lease clientrec);
  mret (valid, if valid : bool then set_od_preserved (Some clientrec) data else data).

Definition check_found (id : stateid4) (fsal_obj : option Z) (flags owner_seqid : Z) (check_seqid : bool)
    (p : positive) (obj2 : Z) (owner2 : positive) (data : op_data)
    : SM (nfsstat4 * option positive * op_data) :=
  s ← get_state p;
  o ← get_owner owner2;
  '(valid, data) ← check_lease (so_clientrec o) data;
  if negb valid then check_failure NFS4ERR_EXPIRED (Some p) data else
  if match fsal_obj with Some obj => negb (handle_cmp obj obj2) | None => false end
  then check_failure NFS4ERR_BAD_STATEID (Some p) data else
  match check_seq s o (seqid id) owner_seqid check_seqid with
  | seq_replay => mret (NFS4ERR_REPLAY, Some p, set_valid false data)
  | seq_old => check_failure NFS4ERR_OLD_STATEID (Some p) data
  | seq_future => check_failure NFS4ERR_BAD_STATEID (Some p) data
  | seq_current =>
      if has_flag flags STATEID_SPECIAL_FREE && negb (may_free s)
      then check_failure NFS4ERR_LOCKS_HELD (Some p) data
      else mret (NFS4_OK, Some p, set_current (mk_stateid (state_seqid s) (other id)) data)
  end.

Definition check_it (id : stateid4) (fsal_obj : option Z) (data : op_data) (flags owner_seqid : Z)
    (check_seqid : bool) : SM (nfsstat4 * option positive * op_data) :=
  let clientid := fst (other id) in
  if negb (Z.shiftr clientid 32 =? Z.land server_epoch 0xFFFFFFFF)
  then check_failure NFS4ERR_STALE_STATEID None data else
  state2 ← nfs4_State_Get_Pointer (other id);
  refs ← get_state_obj_owner_refs state2;
  match state2, refs with
  | Some p, Some (obj2, owner2) =>
      check_found id fsal_obj flags owner_seqid check_seqid p obj2 owner2 data
  | _, _ => check_not_found clientid flags state2 data
  end.

Definition nfs4_Check_Stateid (id : stateid4) (fsal_obj : option Z) (data : op_data)
    (flags owner_seqid : Z) (check_seqid : bool) : SM (nfsstat4 * option positive * op_data) :=
  if bool_decide (other id = all_zero) then
    if (seqid id =? 0) && has_flag flags STATEID_SPECIAL_ALL_0
    then mret (NFS4_OK, None, set_valid false data)
    else if (seqid id =? 1) && has_flag flags STATEID_SPECIAL_CURRENT then
      if current_stateid_valid data
      then check_it (current_stateid data) fsal_obj data flags owner_seqid check_seqid
      else check_failure NFS4ERR_BAD_STATEID None data
    else check_failure NFS4ERR_BAD_STATEID None data
  else if bool_decide (other id = all_ones) then
    if (seqid id =? seqid_all_one) && has_flag flags STATEID_SPECIAL_ALL_1
    then mret (NFS4_OK, None, set_valid false data)
    else check_failure NFS4ERR_BAD_STATEID None data
  else check_it id fsal_obj data flags owner_seqid check_seqid.

(** The number that follows a sequence number of a stateid: 0 is left out. *)
Definition next_seqid (n : Z) : Z := if u32 (n + 1) =? 0 then 1 else u32 (n + 1).

Definition update_stateid (p : positive) (data : op_data) : SM (stateid4 * op_data) :=
  s ← get_state p;
  put_state p (set_state_seqid (next_seqid (state_seqid s)) s);;
  let id := mk_stateid (next_seqid (state_seqid s)) (stateid_other s) in
  mret (id, set_current id data).
End state_id.
