(* ===== verification/StateOps.v ===== *)
(** * Operations on the states of NFSv4

    OPEN, OPEN_CONFIRM, LOCK, LOCKU, CLOSE, FREE_STATEID and RELEASE_LOCKOWNER
    (Protocols/NFS): the stateids and sequence numbers they check, the owners
    and states they make and delete, and the responses they save.

    What the share reservations (ShareState.v), the lock manager (LockOps.v)
    and the backend say to an operation is an argument of it. *)
From S2P Require Import Prelude Status Owners ClientData StateTable.

Section operations.
Context {Cl : Clients} {Ob : Objects}.

(** ** Owners *)

Definition OP_ILLEGAL : Z := 10044.

(** [create_nfs4_owner] for an open owner, or for a lock owner with its open
    owner: the owner, if it fits, and whether it is new.  It reads the number
    of the client id, which must not be NULL. *)
Definition create_nfs4_owner (opens : bool) (clientid : option positive) (name : list Z)
    (related : option positive) : SM (option (positive * bool)) :=
  match clientid with
  | None => fault
  | Some c =>
      number ← (fun w => match cl_clientid c (w_clients w) with
                         | Some n => Some (n, w)
                         | None => None
                         end : option (Z * world));
      found ← view (fun w => ht_nfs4_owner w !! (opens, number, name));
      match found with
      | None =>
          so ← view w_fresh;
          change (fun w => set_fresh (Pos.succ so) w);;
          on_clients (cl_inc_client_id_ref c);;
          change (fun w => set_w_owners (<[so := mk_nfs4_owner
            (if opens then STATE_OPEN_OWNER_NFSV4 else STATE_LOCK_OWNER_NFSV4) c false 0 OP_ILLEGAL
            None (mk_resop NFS4_OK None) [] related []]> (w_owners w)) w);;
          change (fun w => set_ht_owner (<[(opens, number, name) := so]> (ht_nfs4_owner w)) w);;
          mret (Some (so, true))
      | Some so =>
          o ← get_owner so;
          match related, so_related_owner o with
          | None, _ => mret (Some (so, false))
          | Some r, None => upd_so so (set_so_related (Some r));; mret (Some (so, false))
          | Some r, Some r' => mret (if bool_decide (r' = r) then Some (so, false) else None)
          end
      end
  end.

(** [get_state_owner_ref]. *)
Definition owner_of (p : positive) : SM (option positive) := s ← get_state p; mret (state_owner s).

Definition drop_state (p : option positive) : SM unit :=
  match p with Some p => dec_state_t_ref p | None => mret tt end.
Definition drop_client (c : option positive) : SM unit :=
  match c with Some c => on_clients (cl_dec_client_id_ref c) | None => mret tt end.

(** ** OPEN and OPEN_CONFIRM *)

Definition OP_CLOSE : Z := 4.
Definition OP_LOCK : Z := 12.
Definition OP_LOCKU : Z := 14.
Definition OP_OPEN : Z := 18.
Definition OP_OPEN_CONFIRM : Z := 20.

Definition v40 (data : op_data) : bool := minorversion data =? 0.

(** The arguments of OPEN and what others say to it: [o_sane] are the checks
    before the client id, [o_replayed] is the file that a replay looks up by
    name, if its claim has one, [o_claim] is [open4_validate_claim],
    [o_create] a creation with another claim than CLAIM_NULL, [o_bits] whether
    the share bits are valid, [o_previous] is CLAIM_PREVIOUS, [o_file] the file
    or the status of the checks before its state is looked up, [o_opened] and
    [o_shared] are [fsal_open] and the share reservation. *)
Record open_args := mk_open_args {
  o_sane : nfsstat4;
  o_seqid : Z;
  o_clientid : Z;
  o_name : list Z;
  o_replayed : option (Z + nfsstat4);
  o_claim : nfsstat4;
  o_create : bool;
  o_bits : bool;
  o_previous : bool;
  o_file : Z + nfsstat4;
  o_opened : nfsstat4;
  o_shared : nfsstat4
}.

(** A replayed OPEN that succeeded makes its file the current one. *)
Definition open_replayed (file : option (Z + nfsstat4)) (resp : resop4) (data : op_data) : resop4 * op_data :=
  if negb (bool_decide (r_status resp = NFS4_OK)) then (resp, data) else
  match file with
  | None => (resp, data)
  | Some (inl obj) => (resp, set_current_obj obj data)
  | Some (inr status) => (mk_resop status (r_stateid resp), data)
  end.

(** The owner, and the answer if there is one. *)
Definition open4_open_owner (a : open_args) (clientid : positive) (data : op_data)
    : SM (option positive * option (resop4 * op_data)) :=
  made ← create_nfs4_owner true (Some clientid) (o_name a) None;
  match made with
  | None => mret (None, Some (mk_resop NFS4ERR_RESOURCE None, data))
  | Some (so, isnew) =>
      if isnew || negb (v40 data) then mret (Some so, None) else
      if o_seqid a =? 0 then upd_so so (set_so_confirmed false);; mret (Some so, None) else
      '(go, resp) ← Check_nfs4_seqid (Some so) (o_seqid a) OP_OPEN (current_obj data) (mk_resop NFS4_OK None);
      mret (Some so, if go : bool then None else Some (open_replayed (o_replayed a) resp data))
  end.

(** The part of [open4_do_open] from the look-up of the state; [opened] and
    [shared] are what [fsal_open] and the share reservation say. *)
Definition open4_do_open (so : positive) (file : Z) (opened shared : nfsstat4) (data : op_data)
    : SM (nfsstat4 * option positive) :=
  found ← nfs4_State_Get_Obj file so;
  match found with
  | None =>
      '(status, found) ← state_add_impl file STATE_TYPE_SHARE None so (ctx_export data);
      match found with
      | None => mret (nfs4_Errno_state status, None)
      | Some p =>
          if negb (bool_decide (opened = NFS4_OK)) then mret (opened, None)
          else if negb (bool_decide (shared = NFS4_OK)) then mret (shared, None)
          else mret (NFS4_OK, Some p)
      end
  | Some p =>
      s ← get_state p;
      if negb (bool_decide (state_export s = Some (ctx_export data)))
      then dec_state_t_ref p;; mret (NFS4ERR_INVAL, None)
      else if negb (bool_decide (opened = NFS4_OK)) then mret (opened, None)
      else if negb (bool_decide (shared = NFS4_OK)) then dec_state_t_ref p;; mret (shared, None)
      else mret (NFS4_OK, Some p)
  end.

(** From the claim to the saved response; [obj_change] is the current object
    before the file is.  A refusal ends the compound, so that the current
    object it leaves is followed only where the file is known. *)
Definition open_claimed (a : open_args) (so : positive) (data : op_data) : SM (resop4 * op_data) :=
  let save obj resp := if v40 data then Copy_nfs4_state_req (Some so) (o_seqid a) OP_OPEN obj resp else mret tt in
  let refuse data' obj status := save obj (mk_resop status None);; mret (mk_resop status None, data') in
  if negb (bool_decide (o_claim a = NFS4_OK)) then refuse data None (o_claim a) else
  if o_create a then mret (mk_resop NFS4ERR_INVAL None, data) else
  let obj_change := Some (current_obj data) in
  if negb (o_bits a) then refuse data obj_change NFS4ERR_INVAL else
  (if o_previous a then upd_so so (set_so_confirmed true) else mret tt);;
  match o_file a with
  | inr status => refuse data obj_change status
  | inl file =>
      '(status, found) ← open4_do_open so file (o_opened a) (o_shared a) data;
      let data := set_current_obj file data in
      match found with
      | None => refuse data obj_change status
      | Some p =>
          '(id, data) ← update_stateid p data;
          let resp := mk_resop NFS4_OK (Some id) in
          save obj_change resp;;
          dec_state_t_ref p;;
          mret (resp, data)
      end
  end.

Definition nfs4_op_open (a : open_args) (data : op_data) : SM (resop4 * op_data) :=
  if negb (bool_decide (o_sane a = NFS4_OK)) then mret (mk_resop (o_sane a) None, data) else
  '(rc, found) ← on_clients (nfs_client_id_get_confirmed
                    (if v40 data then o_clientid a else session_clientid data));
  match found with
  | None => mret (mk_resop (clientid_error_to_nfsstat rc) None, data)
  | Some c =>
      valid ← (if v40 data then on_clients (cl_reserve_lease c) else mret true);
      if negb valid
      then on_clients (cl_dec_client_id_ref c);; mret (mk_resop NFS4ERR_EXPIRED None, data)
      else
        '(owner, answer) ← open4_open_owner a c data;
        '(resp, data) ← match owner, answer with
                        | Some so, None => open_claimed a so data
                        | _, Some answer => mret answer
                        | None, None => fault
                        end;
        (if v40 data then on_clients (cl_update_lease c) else mret tt);;
        on_clients (cl_dec_client_id_ref c);;
        mret (resp, data)
  end.

(** [fh_status] is what [nfs4_sanity_check_FH] says of the current file
    handle. *)
Definition nfs4_op_open_confirm (fh_status : nfsstat4) (id : stateid4) (sq : Z) (data : op_data)
    : SM (resop4 * op_data) :=
  let refuse status data := mret (mk_resop status None, data) in
  if 0 <? minorversion data then refuse NFS4ERR_NOTSUPP data else
  if negb (bool_decide (fh_status = NFS4_OK)) then refuse fh_status data else
  '(rc, found, data) ← nfs4_Check_Stateid id (Some (current_obj data)) data STATEID_SPECIAL_FOR_LOCK
                         sq (v40 data);
  if negb (bool_decide (rc = NFS4_OK)) && negb (bool_decide (rc = NFS4ERR_REPLAY)) then refuse rc data else
  match found with
  | None => fault
  | Some p =>
      owner ← owner_of p;
      match owner with
      | None => dec_state_t_ref p;; refuse NFS4ERR_STALE data
      | Some so =>
          '(go, resp) ← Check_nfs4_seqid (Some so) sq OP_OPEN_CONFIRM (current_obj data) (mk_resop NFS4_OK None);
          if negb go then dec_state_t_ref p;; mret (resp, data) else
          o ← get_owner so;
          if so_confirmed o then dec_state_t_ref p;; refuse NFS4ERR_BAD_STATEID data else
          upd_so so (set_so_confirmed true);;
          '(id, data) ← update_stateid p data;
          let resp := mk_resop NFS4_OK (Some id) in
          Copy_nfs4_state_req (Some so) sq OP_OPEN_CONFIRM (Some (current_obj data)) resp;;
          dec_state_t_ref p;;
          mret (resp, data)
      end
  end.

(** ** LOCK and LOCKU *)

(** [locker4]: a new lock owner with its open stateid, or a lock stateid. *)
Inductive locker4 :=
| new_lock_owner (open_stateid : stateid4) (open_seqid lock_seqid clientid : Z) (name : list Z)
| old_lock_owner (lock_stateid : stateid4) (lock_seqid : Z).

(** What others say to LOCK and LOCKU: the file handle and the type of the
    lock, its range, the mode of the open and the grace period, and the lock
    manager, with the locks of the state and of the owner after it. *)
Record lock_args := mk_lock_args {
  l_sane : nfsstat4;
  l_range : bool;
  l_allowed : nfsstat4;
  l_status : state_status_t;
  l_locks : list Z;
  l_owner_locks : list Z
}.

(** The variables of [nfs4_op_lock] that its end releases, and the owner that
    keeps the response. *)
Record lock_vars := mk_lock_vars {
  lv_open : option positive;
  lv_state : option positive;
  lv_client : option positive;
  lv_resp_owner : positive;
  lv_seqid : Z
}.

Definition lock_out2 (v : lock_vars) (resp : resop4) (data : op_data) : SM (resop4 * op_data) :=
  drop_state (lv_open v);; drop_state (lv_state v);; drop_client (lv_client v);; mret (resp, data).

Definition lock_out (v : lock_vars) (resp : resop4) (data : op_data) : SM (resop4 * op_data) :=
  (if v40 data
   then Copy_nfs4_state_req (Some (lv_resp_owner v)) (lv_seqid v) OP_LOCK (Some (current_obj data)) resp
   else mret tt);;
  lock_out2 v resp data.

(** The lock owner of a request with a new one, and its state: found, or made
    and put on the list of the open state.  [inr] is an answer. *)
Definition lock_new_state (v : lock_vars) (open_owner : positive) (lock_seqid : Z) (name : list Z)
    (data : op_data) : SM ((positive * positive) + resop4) :=
  made ← create_nfs4_owner false (lv_client v) name (Some open_owner);
  match made with
  | None => mret (inr (mk_resop NFS4ERR_RESOURCE None))
  | Some (so, isnew) =>
      o ← get_owner so;
      '(go, resp) ← (if negb isnew && negb (bool_decide (so_lock_list o = [])) && v40 data
                     then Check_nfs4_seqid (Some so) lock_seqid OP_LOCK (current_obj data) (mk_resop NFS4_OK None)
                     else mret (true, mk_resop NFS4_OK None));
      if negb go then mret (inr resp) else
      found ← (if isnew : bool then mret None else nfs4_State_Get_Obj (current_obj data) so);
      match found with
      | Some p => mret (inl (so, p))
      | None =>
          '(_, found) ← state_add (current_obj data) STATE_TYPE_LOCK (lv_open v) so (ctx_export data);
          match found, lv_open v with
          | None, _ => mret (inr (mk_resop NFS4ERR_RESOURCE None))
          | Some p, Some opened =>
              upd_state opened (fun s => set_share_lockstates (share_lockstates s ++ [p]) s);;
              mret (inl (so, p))
          | Some p, None => fault
          end
      end
  end.

(** The lock manager and what follows; [new] is the [lock_seqid] of a request
    with a new lock owner. *)
Definition lock_apply (a : lock_args) (v : lock_vars) (so p : positive) (new : option Z) (data : op_data)
    : SM (resop4 * op_data) :=
  upd_state p (set_state_locklist (l_locks a));;
  upd_so so (set_so_lock_list (l_owner_locks a));;
  let obj := Some (current_obj data) in
  if negb (bool_decide (l_status a = STATE_SUCCESS)) then
    let status := nfs4_Errno_state (l_status a) in
    let resp := mk_resop status None in
    (if negb (bool_decide (status = NFS4ERR_RESOURCE)) && negb (bool_decide (status = NFS4ERR_BAD_STATEID))
        && v40 data
     then Copy_nfs4_state_req (Some (lv_resp_owner v)) (lv_seqid v) OP_LOCK obj resp
     else mret tt);;
    match new with Some _ => state_del p | None => mret tt end;;
    lock_out2 v resp data
  else
    '(id, data) ← update_stateid p data;
    let resp := mk_resop NFS4_OK (Some id) in
    match new with
    | Some lock_seqid => Copy_nfs4_state_req (Some so) lock_seqid OP_LOCK obj resp
    | None => mret tt
    end;;
    lock_out v resp data.

(** From the label [check_seqid]; [old] is the lock owner of a request without
    a new one. *)
Definition lock_check_seqid (a : lock_args) (locker : locker4) (v : lock_vars) (data : op_data)
    : SM (resop4 * op_data) :=
  '(go, resp) ← (if v40 data
                 then Check_nfs4_seqid (Some (lv_resp_owner v)) (lv_seqid v) OP_LOCK (current_obj data)
                        (mk_resop NFS4_OK None)
                 else mret (true, mk_resop NFS4_OK None));
  if negb go then lock_out2 v resp data else
  if negb (l_range a) then lock_out v (mk_resop NFS4ERR_INVAL None) data else
  match lv_open v with
  | None => fault
  | Some opened =>
      get_state opened;;
      if negb (bool_decide (l_allowed a = NFS4_OK)) then lock_out v (mk_resop (l_allowed a) None) data else
      match locker, lv_state v with
      | new_lock_owner _ _ lock_seqid _ name, _ =>
          made ← lock_new_state v (lv_resp_owner v) lock_seqid name data;
          match made with
          | inr resp => lock_out2 v resp data
          | inl (so, p) =>
              lock_apply a (mk_lock_vars (lv_open v) (Some p) (lv_client v) (lv_resp_owner v) (lv_seqid v))
                so p (Some lock_seqid) data
          end
      | old_lock_owner _ _, Some p => lock_apply a v (lv_resp_owner v) p None data
      | old_lock_owner _ _, None => fault
      end
  end.

Definition lock_from_open (a : lock_args) (locker : locker4) (id : stateid4) (open_seqid clientid : Z)
    (data : op_data) : SM (resop4 * op_data) :=
  let refuse status data := mret (mk_resop status None, data) in
  '(rc, found, data) ← nfs4_Check_Stateid id (Some (current_obj data)) data STATEID_SPECIAL_FOR_LOCK
                         open_seqid (v40 data);
  if bool_decide (rc = NFS4ERR_REPLAY) then
    match found with
    | None => fault
    | Some p =>
        owner ← owner_of p;
        match owner with
        | Some so => lock_check_seqid a locker (mk_lock_vars (Some p) None None so open_seqid) data
        | None => refuse rc data
        end
    end
  else if negb (bool_decide (rc = NFS4_OK)) then refuse rc data else
  match found with
  | None => fault
  | Some p =>
      owner ← owner_of p;
      match owner with
      | None => dec_state_t_ref p;; refuse NFS4ERR_STALE data
      | Some so =>
          '(rc, client) ← on_clients (nfs_client_id_get_confirmed
                            (if v40 data then clientid else session_clientid data));
          let v := mk_lock_vars (Some p) None client so open_seqid in
          match client with
          | None => lock_out2 v (mk_resop (clientid_error_to_nfsstat rc) None) data
          | Some _ =>
              s ← get_state p;
              if negb (bool_decide (state_type_of s = STATE_TYPE_SHARE))
              then lock_out2 v (mk_resop NFS4ERR_BAD_STATEID None) data
              else lock_check_seqid a locker v data
          end
      end
  end.

Definition lock_from_lock (a : lock_args) (locker : locker4) (id : stateid4) (lock_seqid : Z)
    (data : op_data) : SM (resop4 * op_data) :=
  let refuse status data := mret (mk_resop status None, data) in
  '(rc, found, data) ← nfs4_Check_Stateid id (Some (current_obj data)) data STATEID_SPECIAL_FOR_LOCK
                         lock_seqid (v40 data);
  match found with
  | None => if bool_decide (rc = NFS4_OK) then fault else refuse rc data
  | Some p =>
      owner ← owner_of p;
      s ← get_state p;
      let v := mk_lock_vars None (Some p) None in
      if bool_decide (rc = NFS4ERR_REPLAY) then
        match owner with
        | Some so =>
            o ← get_owner so;
            match so_related_owner o with
            | Some _ => lock_check_seqid a locker (v so lock_seqid) data
            | None => fault
            end
        | None => refuse rc data
        end
      else
      if negb (bool_decide (state_export s = Some (ctx_export data)))
      then dec_state_t_ref p;; refuse NFS4ERR_INVAL data else
      if negb (bool_decide (state_type_of s = STATE_TYPE_LOCK))
      then dec_state_t_ref p;; refuse NFS4ERR_BAD_STATEID data else
      match owner with
      | None => dec_state_t_ref p;; refuse NFS4ERR_STALE data
      | Some so =>
          o ← get_owner so;
          match so_related_owner o, openstate s with
          | Some related, Some opened =>
              oo ← get_owner related;
              inc_state_t_ref opened;;
              on_clients (cl_inc_client_id_ref (so_clientrec oo));;
              lock_check_seqid a locker
                (mk_lock_vars (Some opened) (Some p) (Some (so_clientrec oo)) so lock_seqid) data
          | _, _ => fault
          end
      end
  end.

Definition nfs4_op_lock (a : lock_args) (locker : locker4) (data : op_data) : SM (resop4 * op_data) :=
  if negb (bool_decide (l_sane a = NFS4_OK)) then mret (mk_resop (l_sane a) None, data) else
  match locker with
  | new_lock_owner id open_seqid _ clientid _ => lock_from_open a locker id open_seqid clientid data
  | old_lock_owner id lock_seqid => lock_from_lock a locker id lock_seqid data
  end.

Definition nfs4_op_locku (a : lock_args) (id : stateid4) (sq : Z) (data : op_data) : SM (resop4 * op_data) :=
  let refuse status data := mret (mk_resop status None, data) in
  if negb (bool_decide (l_sane a = NFS4_OK)) then refuse (l_sane a) data else
  '(rc, found, data) ← nfs4_Check_Stateid id (Some (current_obj data)) data STATEID_SPECIAL_FOR_LOCK
                         sq (v40 data);
  if negb (bool_decide (rc = NFS4_OK)) && negb (bool_decide (rc = NFS4ERR_REPLAY)) then refuse rc data else
  match found with
  | None => fault
  | Some p =>
      owner ← owner_of p;
      match owner with
      | None => dec_state_t_ref p;; refuse NFS4ERR_STALE data
      | Some so =>
          '(go, resp) ← (if v40 data
                         then Check_nfs4_seqid (Some so) sq OP_LOCKU (current_obj data) (mk_resop NFS4_OK None)
                         else mret (true, mk_resop NFS4_OK None));
          if negb go then dec_state_t_ref p;; mret (resp, data) else
          '(resp, data) ←
             (if negb (l_range a) then mret (mk_resop NFS4ERR_INVAL None, data) else
              upd_state p (set_state_locklist (l_locks a));;
              upd_so so (set_so_lock_list (l_owner_locks a));;
              if negb (bool_decide (l_status a = STATE_SUCCESS))
              then mret (mk_resop (nfs4_Errno_state (l_status a)) None, data)
              else '(id, data) ← update_stateid p data; mret (mk_resop NFS4_OK (Some id), data));
          (if v40 data then Copy_nfs4_state_req (Some so) sq OP_LOCKU (Some (current_obj data)) resp else mret tt);;
          dec_state_t_ref p;;
          mret (resp, data)
      end
  end.

(** ** CLOSE, FREE_STATEID and RELEASE_LOCKOWNER *)

(** The walk of CLOSE over [share_lockstates]: whether a lock state has
    locks.  In a lock state these bytes are [state_locklist], whose elements
    are not states; in the other types they are no list. *)
Fixpoint locks_held (l : list positive) : SM bool :=
  match l with
  | [] => mret false
  | q :: l =>
      s ← get_state q;
      match state_locklist s with [] => locks_held l | _ => mret true end
  end.

Definition close_lockstates (s : state_t) : SM (list positive) :=
  match state_type_of s with
  | STATE_TYPE_SHARE => mret (share_lockstates s)
  | STATE_TYPE_LOCK => match state_locklist s with [] => mret [] | _ => fault end
  | _ => fault
  end.

Fixpoint del_lockstates (l : list positive) : SM unit :=
  match l with
  | [] => mret tt
  | q :: l => state_del_locked q;; del_lockstates l
  end.

(** From the sequence check to the deletion; [fsal_close] is what the close of
    the file gives, [NFS4_OK] for a backend that closes with the state. *)
Definition close_state (p : positive) (fsal_close : nfsstat4) (data : op_data) : SM (resop4 * op_data) :=
  s ← get_state p;
  lockstates ← close_lockstates s;
  held ← locks_held lockstates;
  if held : bool then mret (mk_resop NFS4ERR_LOCKS_HELD None, data) else
  '(id, data) ← update_stateid p data;
  del_lockstates lockstates;;
  state_del_locked p;;
  mret (mk_resop fsal_close (Some id), set_valid false data).

(** The check replaces the special stateid for the current one. *)
Definition nfs4_op_close (fh_status fsal_close : nfsstat4) (id : stateid4) (sq : Z) (data : op_data)
    : SM (resop4 * op_data) :=
  let refuse status data := mret (mk_resop status None, data) in
  let looked_up := if bool_decide (other id = all_zero) then current_stateid data else id in
  if negb (bool_decide (fh_status = NFS4_OK)) then refuse fh_status data else
  '(rc, found, data) ← nfs4_Check_Stateid id (Some (current_obj data)) data
                         (if v40 data then STATEID_SPECIAL_FOR_CLOSE_40 else STATEID_SPECIAL_FOR_CLOSE_41)
                         sq (v40 data);
  if negb (bool_decide (rc = NFS4_OK)) && negb (bool_decide (rc = NFS4ERR_REPLAY)) then refuse rc data else
  match found with
  | None => mret (mk_resop NFS4_OK (Some (mk_stateid (next_seqid (seqid looked_up)) (other looked_up))), data)
  | Some p =>
      owner ← owner_of p;
      match owner with
      | None => dec_state_t_ref p;; refuse NFS4ERR_STALE data
      | Some so =>
          '(go, resp) ← (if v40 data
                         then Check_nfs4_seqid (Some so) sq OP_CLOSE (current_obj data) (mk_resop NFS4_OK None)
                         else mret (true, mk_resop NFS4_OK None));
          if negb go then dec_state_t_ref p;; mret (resp, data) else
          '(resp, data) ← close_state p fsal_close data;
          (if v40 data then Copy_nfs4_state_req (Some so) sq OP_CLOSE (Some (current_obj data)) resp else mret tt);;
          dec_state_t_ref p;;
          mret (resp, data)
      end
  end.

Definition nfs4_op_free_stateid (id : stateid4) (data : op_data) : SM (resop4 * op_data) :=
  if v40 data then mret (mk_resop NFS4ERR_INVAL None, data) else
  '(status, found, data) ← nfs4_Check_Stateid id None data STATEID_SPECIAL_FOR_FREE 0 false;
  if negb (bool_decide (status = NFS4_OK)) then mret (mk_resop status None, data) else
  match found with
  | None => fault
  | Some p => state_del p;; dec_state_t_ref p;; mret (mk_resop status None, data)
  end.

(** The loop of [release_lock_owner] takes the first state as long as there is
    one; [n] bounds its turns. *)
Fixpoint release_lock_states (n : nat) (so : positive) : SM unit :=
  o ← get_owner so;
  match so_states o, n with
  | [], _ => mret tt
  | _, O => fault
  | p :: _, S n => inc_state_t_ref p;; state_del p;; dec_state_t_ref p;; release_lock_states n so
  end.

Definition release_lock_owner (so : positive) : SM nfsstat4 :=
  o ← get_owner so;
  match so_lock_list o with
  | [] => release_lock_states (length (so_states o)) so;; mret NFS4_OK
  | _ => mret NFS4ERR_LOCKS_HELD
  end.

Definition nfs4_op_release_lockowner (clientid : Z) (name : list Z) (data : op_data) : SM (resop4 * op_data) :=
  let answer status := mret (mk_resop status None, data) in
  if 0 <? minorversion data then answer NFS4ERR_NOTSUPP else
  '(rc, found) ← on_clients (nfs_client_id_get_confirmed clientid);
  match found with
  | None => answer (clientid_error_to_nfsstat rc)
  | Some c =>
      valid ← on_clients (cl_reserve_lease c);
      if negb valid then on_clients (cl_dec_client_id_ref c);; answer NFS4ERR_EXPIRED else
      number ← (fun w => match cl_clientid c (w_clients w) with
                         | Some n => Some (n, w)
                         | None => None
                         end : option (Z * world));
      owner ← view (fun w => ht_nfs4_owner w !! (false, number, name));
      status ← match owner with Some so => release_lock_owner so | None => mret NFS4_OK end;
      on_clients (cl_update_lease c);;
      on_clients (cl_dec_client_id_ref c);;
      answer status
  end.
End operations.
