(* ===== verification/StateInv.v ===== *)
(** * States of NFSv4: the invariant

    Every reference to a state is accounted for, the two tables, the owners,
    the files, the exports and the open states agree on the states there are,
    but for states that were taken from the tables and not from the lists
    because their object was not found, and the client ids of owners are
    held.  The lemmas say that the functions
    of StateTable.v keep this and use no freed state. *)
From S2P Require Import Prelude Status Owners ClientData ClientInv StateTable.

(** What StateTable.v relies on: a caller that holds the references [L] and
    the reservations [R] can use the client ids of [L]. *)
Class ClientsLaws {Cl : Clients} := {
  cl_holds : list positive -> list positive -> clients -> Prop;
  cl_get_ok L R c n :
    cl_holds L R c ->
    exists rc found c', nfs_client_id_get_confirmed n c = Some (rc, found, c') /\
      (found = None <-> rc <> CLIENT_ID_SUCCESS) /\ cl_holds (option_list found ++ L) R c';
  cl_reserve_ok L R c p :
    cl_holds L R c -> p ∈ L ->
    exists b c', cl_reserve_lease p c = Some (b, c') /\ cl_holds L (if b : bool then p :: R else R) c';
  cl_update_ok L R c p :
    cl_holds L (p :: R) c -> p ∈ L -> exists c', cl_update_lease p c = Some (tt, c') /\ cl_holds L R c';
  cl_inc_ok L R c p :
    cl_holds L R c -> p ∈ L -> exists c', cl_inc_client_id_ref p c = Some (tt, c') /\ cl_holds (p :: L) R c';
  cl_dec_ok L R c p :
    cl_holds (p :: L) R c -> (p ∈ R -> p ∈ L) ->
    exists c', cl_dec_client_id_ref p c = Some (tt, c') /\ cl_holds L R c';
  cl_number_ok L R c p : cl_holds L R c -> p ∈ L -> is_Some (cl_clientid p c);
  cl_perm L L' R R' c : L ≡ₚ L' -> R ≡ₚ R' -> cl_holds L R c -> cl_holds L' R' c
}.

(** Whether objects may go away while they have states. *)
Class MayLose := may_lose : Prop.

(** An object that is not found has gone away. *)
Definition only_lost {Ob : Objects} {Lose : MayLose} (gone : gset (Z * list Z)) : Prop :=
  forall e obj, export_ready e = true -> find_handle gone e (handle_digest obj) = None -> may_lose.

(** ** Weakest preconditions *)

Section calculus.
Context {Cl : Clients}.

Definition swp {A} (m : SM A) (Q : A -> world -> Prop) (w : world) : Prop :=
  match m w with Some (a, w') => Q a w' | None => False end.

Lemma swp_ret {A} (a : A) Q w : Q a w -> swp (mret a) Q w.
Proof. done. Qed.

Lemma swp_bind {A B} (m : SM A) (k : A -> SM B) Q w :
  swp m (fun a => swp (k a) Q) w -> swp (m ≫= k) Q w.
Proof. unfold swp, mbind, SM_bind. by destruct (m w) as [[a w']|]. Qed.

Lemma swp_mono {A} (m : SM A) (Q Q' : A -> world -> Prop) w :
  swp m Q w -> (forall a w', Q a w' -> Q' a w') -> swp m Q' w.
Proof. unfold swp. destruct (m w) as [[a w']|]; auto. Qed.

Lemma swp_view {A} (f : world -> A) Q w : Q (f w) w -> swp (view f) Q w.
Proof. done. Qed.

Lemma swp_change f (Q : unit -> world -> Prop) w : Q tt (f w) -> swp (change f) Q w.
Proof. done. Qed.

Lemma swp_get_state p s Q w : w_states w !! p = Some s -> Q s w -> swp (get_state p) Q w.
Proof. intros H HQ. unfold swp, get_state. by rewrite H. Qed.

Lemma swp_get_owner so o Q w : w_owners w !! so = Some o -> Q o w -> swp (get_owner so) Q w.
Proof. intros H HQ. unfold swp, get_owner. by rewrite H. Qed.

Lemma swp_upd_state p f s (Q : unit -> world -> Prop) w :
  w_states w !! p = Some s -> Q tt (set_states (<[p := f s]> (w_states w)) w) -> swp (upd_state p f) Q w.
Proof. intros H HQ. unfold upd_state. apply swp_bind. by eapply swp_get_state. Qed.

Lemma swp_upd_so so f o (Q : unit -> world -> Prop) w :
  w_owners w !! so = Some o -> Q tt (set_w_owners (<[so := f o]> (w_owners w)) w) -> swp (upd_so so f) Q w.
Proof. intros H HQ. unfold upd_so. apply swp_bind. by eapply swp_get_owner. Qed.

Lemma swp_on_clients {A} (f : clients -> option (A * clients)) a c (Q : A -> world -> Prop) w :
  f (w_clients w) = Some (a, c) -> Q a (set_clients c w) -> swp (on_clients f) Q w.
Proof. intros H HQ. unfold swp, on_clients. by rewrite H. Qed.
End calculus.

(** Runs the next primitive. *)
Ltac swp_step :=
  match goal with
  | |- swp (_ ≫= _) _ _ => apply swp_bind; swp_step
  | |- swp (mret _) _ _ => apply swp_ret
  | |- swp (view _) _ _ => apply swp_view
  | |- swp (change _) _ _ => apply swp_change
  | |- swp (put_state _ _) _ _ => apply swp_change
  | |- swp (get_state _) _ _ => eapply swp_get_state; [eassumption|]
  | |- swp (get_owner _) _ _ => eapply swp_get_owner; [eassumption|]
  | |- swp (upd_state _ _) _ _ => eapply swp_upd_state; [eassumption|]
  | |- swp (upd_so _ _) _ _ => eapply swp_upd_so; [eassumption|]
  end.

(** ** The invariant *)

Definition linked (s : state_t) : bool := match state_owner s with Some _ => true | None => false end.

Definition nfs4_type (ty : state_type) : bool :=
  match ty with STATE_TYPE_SHARE | STATE_TYPE_LOCK => true | _ => false end.

(** A state is found by its identifier. *)
Definition hashed {Cl : Clients} (w : world) (p : positive) (s : state_t) : Prop :=
  ht_state_id w !! stateid_other s = Some p.

(** A lock state is on the list of its open state. *)
Definition under {Cl : Clients} (w : world) (p q : positive) : Prop :=
  exists s, w_states w !! q = Some s /\ hashed w q s /\ state_type_of s = STATE_TYPE_SHARE /\
    p ∈ share_lockstates s.

(** [held] are the references of the callers; a state that is linked has one
    more.  A state that is linked and not in the tables was deleted when its
    object was not found. *)
Record sinv {Cl : Clients} {Ob : Objects} {Lose : MayLose} (held : list positive) (w : world) : Prop := {
  si_count p s : w_states w !! p = Some s -> state_refcount s = b2z (linked s) + cnt p held /\ 0 < state_refcount s;
  si_seq p s : w_states w !! p = Some s -> 0 <= state_seqid s < 4294967296;
  si_held p : p ∈ held -> is_Some (w_states w !! p);
  si_fresh p : is_Some (w_states w !! p) \/ is_Some (w_owners w !! p) -> (p < w_fresh w)%positive;
  si_type p s : w_states w !! p = Some s -> nfs4_type (state_type_of s) = true;
  si_id i p : ht_state_id w !! i = Some p ->
    exists s, w_states w !! p = Some s /\ stateid_other s = i /\ linked s = true;
  si_obj k p : ht_state_obj w !! k = Some p ->
    exists s, w_states w !! p = Some s /\ obj_key s = Some k /\ hashed w p s;
  si_linked p s so : w_states w !! p = Some s -> state_owner s = Some so ->
    (hashed w p s -> ht_state_obj w !! (state_obj s, so) = Some p) /\
    exists o, w_owners w !! so = Some o /\ p ∈ so_states o /\ owner_fits (state_type_of s) (so_type o) = true;
  si_place p s : w_states w !! p = Some s -> linked s = true ->
    exists e obj, state_export s = Some e /\ export_ready e = true /\ state_obj s = handle_digest obj /\
      p ∈ list_at (state_obj s) (list_of_states w) /\ p ∈ list_at e (exp_state_list w);
  si_owner so o p : w_owners w !! so = Some o -> p ∈ so_states o ->
    exists s, w_states w !! p = Some s /\ state_owner s = Some so;
  si_file k p : p ∈ list_at k (list_of_states w) ->
    exists s, w_states w !! p = Some s /\ linked s = true /\ state_obj s = k;
  si_export e p : p ∈ list_at e (exp_state_list w) ->
    exists s, w_states w !! p = Some s /\ linked s = true /\ state_export s = Some e;
  si_open p s : w_states w !! p = Some s -> hashed w p s -> state_type_of s = STATE_TYPE_LOCK ->
    exists q, openstate s = Some q /\ under w p q;
  si_share q s : w_states w !! q = Some s ->
    NoDup (share_lockstates s) /\
    forall p, p ∈ share_lockstates s ->
      state_type_of s = STATE_TYPE_SHARE /\
      exists s', w_states w !! p = Some s' /\ linked s' = true /\ state_type_of s' = STATE_TYPE_LOCK /\
        openstate s' = Some q;
  si_related so o : w_owners w !! so = Some o -> so_type o = STATE_LOCK_OWNER_NFSV4 ->
    exists r, so_related_owner o = Some r /\ is_Some (w_owners w !! r);
  si_name n so : ht_nfs4_owner w !! n = Some so ->
    exists o, w_owners w !! so = Some o /\
      so_type o = if fst (fst n) : bool then STATE_OPEN_OWNER_NFSV4 else STATE_LOCK_OWNER_NFSV4;
  si_lost p s : w_states w !! p = Some s -> linked s = true -> hashed w p s \/ may_lose;
  si_gone : only_lost (w_gone w)
}.

(** The client ids of the owners, each with its reference. *)
Definition owner_recs {Cl : Clients} (w : world) : gmap positive positive := so_clientrec <$> w_owners w.

(** The callers hold the client ids [L], those of the owners among them, and
    the leases [R]. *)
Definition cinv {Cl : Clients} {Laws : ClientsLaws} (L R : list positive) (w : world) : Prop :=
  cl_holds L R (w_clients w) /\ (map_to_list (owner_recs w)).*2 ⊆+ L.

Lemma recs_in {Cl : Clients} (w : world) L so o :
  (map_to_list (owner_recs w)).*2 ⊆+ L -> w_owners w !! so = Some o -> so_clientrec o ∈ L.
Proof.
  intros Hs Ho. eapply elem_of_submseteq; [|exact Hs]. apply list_elem_of_fmap. exists (so, so_clientrec o).
  split; [done|]. apply elem_of_map_to_list. unfold owner_recs. by rewrite lookup_fmap, Ho.
Qed.

(** ** Changes of a state *)

(** All of a state but its sequence number, its references and its locks. *)
Definition same_shape (s s' : state_t) : Prop :=
  stateid_other s' = stateid_other s /\ state_type_of s' = state_type_of s /\ state_obj s' = state_obj s /\
  state_export s' = state_export s /\ state_owner s' = state_owner s /\ openstate s' = openstate s /\
  share_lockstates s' = share_lockstates s.

#[export] Instance same_shape_equiv : Equivalence same_shape.
Proof.
  split.
  - by repeat split.
  - intros s s' (? & ? & ? & ? & ? & ? & ?). by repeat split.
  - intros s1 s2 s3 (? & ? & ? & ? & ? & ? & ?) (? & ? & ? & ? & ? & ? & ?). repeat split; congruence.
Qed.

Lemma same_linked s s' : same_shape s s' -> linked s' = linked s.
Proof. unfold linked. by intros (_ & _ & _ & _ & -> & _). Qed.

Section invariant.
Context {Cl : Clients} {Ob : Objects} {Lose : MayLose}.

(** Nothing but the client ids, the counters and what [same_shape] leaves
    open differs. *)
Record similar (w w' : world) : Prop := {
  sm_states p : option_Forall2 same_shape (w_states w !! p) (w_states w' !! p);
  sm_fresh : w_fresh w' = w_fresh w;
  sm_owners : w_owners w' = w_owners w;
  sm_names : ht_nfs4_owner w' = ht_nfs4_owner w;
  sm_id : ht_state_id w' = ht_state_id w;
  sm_obj : ht_state_obj w' = ht_state_obj w;
  sm_files : list_of_states w' = list_of_states w;
  sm_exports : exp_state_list w' = exp_state_list w;
  sm_gone : w_gone w' = w_gone w
}.

#[export] Instance similar_equiv : Equivalence similar.
Proof.
  split.
  - intros w. by split.
  - intros w w' [Hs]. split; congruence || intros p; by symmetry.
  - intros w1 w2 w3 [Hs1] [Hs2]. split; try congruence. intros p. etrans; [apply Hs1|apply Hs2].
Qed.

Lemma similar_to w w' p s : similar w w' -> w_states w !! p = Some s ->
  exists s', w_states w' !! p = Some s' /\ same_shape s s'.
Proof. intros H Hp. pose proof (sm_states _ _ H p) as Ho. rewrite Hp in Ho. inversion Ho; eauto. Qed.

Lemma similar_from w w' p s' : similar w w' -> w_states w' !! p = Some s' ->
  exists s, w_states w !! p = Some s /\ same_shape s s'.
Proof. intros H Hp. pose proof (sm_states _ _ H p) as Ho. rewrite Hp in Ho. inversion Ho; eauto. Qed.

Definition counts (held : list positive) (w : world) : Prop :=
  forall p s, w_states w !! p = Some s -> state_refcount s = b2z (linked s) + cnt p held /\ 0 < state_refcount s.

Definition in_range (w : world) : Prop :=
  forall p s, w_states w !! p = Some s -> 0 <= state_seqid s < 4294967296.

Lemma sinv_similar held held' w w' :
  sinv held w -> similar w w' -> counts held' w' -> in_range w' -> (forall p, p ∈ held' -> is_Some (w_states w' !! p)) ->
  sinv held' w'.
Proof.
  intros H Hs Hc Hq Hh.
  pose proof (fun p s' => similar_from w w' p s' Hs) as Hfrom.
  pose proof (fun p s => similar_to w w' p s Hs) as Hto. destruct Hs as [_ Ef Eo En Ei Eb El Ee Eg].
  assert (forall p s s', same_shape s s' -> hashed w' p s' <-> hashed w p s) as Hha.
  { intros p s s' (E & _). unfold hashed. by rewrite E, Ei. }
  split; [exact Hc|exact Hq|exact Hh|..]; rewrite ?Ef, ?Eo, ?En, ?Ei, ?Eb, ?El, ?Ee, ?Eg.
  - intros p [[s' Hp]|Hp]; apply (si_fresh _ _ H); [|by right].
    destruct (Hfrom p s' Hp) as (s & -> & _). by left.
  - intros p s' (s & Hp & Hsh)%Hfrom. destruct Hsh as (_ & -> & _). by eapply si_type.
  - intros i p (s & Hp & E & Hl)%(si_id _ _ H). destruct (Hto p s Hp) as (s' & Hp' & Hsh).
    exists s'. rewrite (same_linked _ _ Hsh). destruct Hsh as (E' & _). by rewrite E'.
  - intros k p (s & Hp & E & Hl)%(si_obj _ _ H). destruct (Hto p s Hp) as (s' & Hp' & Hsh).
    exists s'. split; [done|]. rewrite (Hha p s s' Hsh). split; [|done]. unfold obj_key.
    by destruct Hsh as (_ & _ & -> & _ & -> & _).
  - intros p s' so (s & Hp & Hsh)%Hfrom Eso. rewrite (Hha p s s' Hsh). destruct Hsh as (E1 & E2 & E3 & _ & E5 & _).
    rewrite E2, E3. eapply si_linked; [done..|congruence].
  - intros p s' (s & Hp & Hsh)%Hfrom Hl. rewrite (same_linked _ _ Hsh) in Hl.
    destruct Hsh as (_ & _ & E3 & E4 & _). rewrite E3, E4. by eapply si_place.
  - intros so o p Ho Hin. destruct (si_owner _ _ H so o p Ho Hin) as (s & Hp & E).
    destruct (Hto p s Hp) as (s' & Hp' & (_ & _ & _ & _ & E5 & _)). exists s'. split; [done|congruence].
  - intros k p (s & Hp & Hl & E)%(si_file _ _ H). destruct (Hto p s Hp) as (s' & Hp' & Hsh).
    exists s'. rewrite (same_linked _ _ Hsh). destruct Hsh as (_ & _ & E3 & _). by rewrite E3.
  - intros k p (s & Hp & Hl & E)%(si_export _ _ H). destruct (Hto p s Hp) as (s' & Hp' & Hsh).
    exists s'. rewrite (same_linked _ _ Hsh). destruct Hsh as (_ & _ & _ & E4 & _). by rewrite E4.
  - intros p s' (s & Hp & Hsh)%Hfrom Hl Ht. rewrite (Hha p s s' Hsh) in Hl.
    destruct Hsh as (_ & E2 & _ & _ & _ & E6 & _). rewrite E2 in Ht. rewrite E6.
    destruct (si_open _ _ H p s Hp Hl Ht) as (q & Eq & t & Hqt & Hlq & Htq & Hin). exists q. split; [done|].
    destruct (Hto q t Hqt) as (t' & Hq' & Hsh). exists t'. rewrite (Hha q t t' Hsh).
    destruct Hsh as (_ & F2 & _ & _ & _ & _ & F7). by rewrite F2, F7.
  - intros q s' (s & Hqs & Hsh)%Hfrom. destruct Hsh as (_ & E2 & _ & _ & _ & _ & E7).
    rewrite E2, E7. destruct (si_share _ _ H q s Hqs) as [Hnd Hall]. split; [done|]. intros p Hin.
    destruct (Hall p Hin) as (Hl & t & Hp & Hlt & Htt & Eo'). split; [done|].
    destruct (Hto p t Hp) as (t' & Hp' & Hsh). exists t'. rewrite (same_linked _ _ Hsh).
    destruct Hsh as (_ & F2 & _ & _ & _ & F6 & _). by rewrite F2, F6.
  - apply (si_related _ _ H).
  - apply (si_name _ _ H).
  - intros p s' (s & Hp & Hsh)%Hfrom. rewrite (Hha p s s' Hsh), (same_linked _ _ Hsh). by apply (si_lost _ _ H).
  - apply (si_gone _ _ H).
Qed.

Lemma similar_put w p s s' :
  w_states w !! p = Some s -> same_shape s s' -> similar w (set_states (<[p := s']> (w_states w)) w).
Proof.
  intros Hp Hsh. split; try done. intros q. cbn [w_states set_states]. destruct (decide (q = p)) as [->|Hne].
  - rewrite Hp, lookup_insert_eq. by constructor.
  - by rewrite lookup_insert_ne by done.
Qed.

Lemma similar_clients w c : similar w (set_clients c w).
Proof. by split. Qed.

(** A change of the sequence number or the locks. *)
Lemma sinv_put held w p s s' :
  sinv held w -> w_states w !! p = Some s -> same_shape s s' -> state_refcount s' = state_refcount s ->
  (0 <= state_seqid s < 4294967296 -> 0 <= state_seqid s' < 4294967296) ->
  sinv held (set_states (<[p := s']> (w_states w)) w).
Proof.
  intros H Hp Hsh Er Hr. eapply sinv_similar; [exact H|by eapply similar_put|..].
  - intros q t. cbn. destruct (decide (q = p)) as [->|Hne].
    + rewrite lookup_insert_eq. intros [= <-]. rewrite Er, (same_linked _ _ Hsh). by apply (si_count _ _ H).
    + rewrite lookup_insert_ne by done. apply (si_count _ _ H).
  - intros q t. cbn. destruct (decide (q = p)) as [->|Hne].
    + rewrite lookup_insert_eq. intros [= <-]. by apply Hr, (si_seq _ _ H p).
    + rewrite lookup_insert_ne by done. apply (si_seq _ _ H).
  - intros q Hq. cbn. destruct (decide (q = p)) as [->|Hne]; [by rewrite lookup_insert_eq|].
    rewrite lookup_insert_ne by done. by apply (si_held _ _ H).
Qed.

(** A change of references. *)
Lemma sinv_recount held held' w p s n :
  sinv held w -> w_states w !! p = Some s -> (forall q, q <> p -> cnt q held' = cnt q held) ->
  n = b2z (linked s) + cnt p held' -> 0 < n ->
  sinv held' (set_states (<[p := set_state_refcount n s]> (w_states w)) w).
Proof.
  intros H Hp Hc En Hn. eapply sinv_similar; [exact H|eapply similar_put; [exact Hp|by repeat split]|..].
  - intros q t. cbn. destruct (decide (q = p)) as [->|Hne].
    + rewrite lookup_insert_eq. by intros [= <-].
    + rewrite lookup_insert_ne by done. intros Hq. rewrite (Hc q Hne). by apply (si_count _ _ H).
  - intros q t. cbn. destruct (decide (q = p)) as [->|Hne].
    + rewrite lookup_insert_eq. intros [= <-]. by apply (si_seq _ _ H p s).
    + rewrite lookup_insert_ne by done. apply (si_seq _ _ H).
  - intros q Hq. cbn. destruct (decide (q = p)) as [->|Hne]; [by rewrite lookup_insert_eq|].
    rewrite lookup_insert_ne by done. apply (si_held _ _ H). apply cnt_elem. rewrite <- (Hc q Hne). by apply cnt_elem.
Qed.

(** The last reference goes. *)
Lemma sinv_free held w p s :
  sinv (p :: held) w -> w_states w !! p = Some s -> state_refcount s = 1 ->
  sinv held (set_states (delete p (w_states w)) w).
Proof.
  intros H Hp Er. destruct (si_count _ _ H p s Hp) as [Ec _]. rewrite cnt_push_eq in Ec.
  pose proof (cnt_nonneg p held) as Hnn.
  assert (linked s = false /\ cnt p held = 0) as [El Ez] by (destruct (linked s); cbn in Ec; lia).
  assert (forall q t, w_states w !! q = Some t -> linked t = true -> q <> p) as Hne.
  { intros q t Hq Hl ->. rewrite Hp in Hq. injection Hq as <-. congruence. }
  assert (forall q t, w_states w !! q = Some t -> q <> p -> delete p (w_states w) !! q = Some t) as Hkeep.
  { intros q t Hq Hn. by rewrite lookup_delete_ne. }
  assert (forall q t, delete p (w_states w) !! q = Some t -> w_states w !! q = Some t /\ q <> p) as Hback.
  { intros q t Hq. apply lookup_delete_Some in Hq as [Hn Hq]. by split. }
  assert (forall q t, hashed w q t -> w_states w !! q = Some t -> q <> p) as Hha.
  { intros q t Hh Hq. destruct (si_id _ _ H _ _ Hh) as (t' & Hq' & _ & Hl). assert (t' = t) as -> by congruence. eauto. }
  split; cbn [w_states w_owners w_fresh ht_state_id ht_state_obj list_of_states exp_state_list ht_nfs4_owner w_gone set_states].
  - intros q t [Hq Hn]%Hback. destruct (si_count _ _ H q t Hq) as [E Hpos]. by rewrite cnt_push in E.
  - intros q t [Hq _]%Hback. by apply (si_seq _ _ H q).
  - intros q Hin. destruct (si_held _ _ H q) as [t Ht]; [by right|]. exists t. apply Hkeep; [done|].
    intros ->. apply cnt_elem in Hin. lia.
  - intros q [[t [Hq _]%Hback]|Hq]; apply (si_fresh _ _ H); [by left; exists t|by right].
  - intros q t [Hq _]%Hback. by eapply si_type.
  - intros i q (t & Hq & E & Hl)%(si_id _ _ H). exists t. by eauto.
  - intros k q (t & Hq & E & Hh)%(si_obj _ _ H). exists t. split; [|done]. apply Hkeep; [done|]. by eapply Hha.
  - intros q t so [Hq _]%Hback. by apply (si_linked _ _ H).
  - intros q t [Hq _]%Hback. by apply (si_place _ _ H).
  - intros so o q Ho Hin. destruct (si_owner _ _ H so o q Ho Hin) as (t & Hq & E). exists t. split; [|done].
    apply Hkeep; [done|]. eapply Hne; [done|]. unfold linked. by rewrite E.
  - intros k q (t & Hq & Hl & E)%(si_file _ _ H). exists t. by eauto.
  - intros k q (t & Hq & Hl & E)%(si_export _ _ H). exists t. by eauto.
  - intros q t [Hq _]%Hback Hl Ht. destruct (si_open _ _ H q t Hq Hl Ht) as (r & Er' & t' & Hr & Hlr & ?).
    exists r. split; [done|]. exists t'. split; [|done]. apply Hkeep; [done|]. by eapply Hha.
  - intros q t [Hq _]%Hback. destruct (si_share _ _ H q t Hq) as [Hnd Hall]. split; [done|].
    intros r Hin. destruct (Hall r Hin) as (Hl & t' & Hr & Hlr & ?). split; [done|]. exists t'. by eauto.
  - apply (si_related _ _ H).
  - apply (si_name _ _ H).
  - intros q t [Hq _]%Hback. by apply (si_lost _ _ H).
  - apply (si_gone _ _ H).
Qed.

(** ** References *)

Definition same_but_refs (s s' : state_t) : Prop := s' = set_state_refcount (state_refcount s') s.

Lemma same_but_refs_shape s s' : same_but_refs s s' -> same_shape s s'.
Proof. unfold same_but_refs. intros E. rewrite E. by repeat split. Qed.

Lemma same_but_refs_refl s : same_but_refs s s.
Proof. by destruct s. Qed.

Lemma same_but_refs_trans s1 s2 s3 : same_but_refs s1 s2 -> same_but_refs s2 s3 -> same_but_refs s1 s3.
Proof. unfold same_but_refs. intros -> E. by rewrite E. Qed.

(** References changed; a state that is not linked may be gone. *)
Record fewer (w w' : world) : Prop := {
  fw_from p s' : w_states w' !! p = Some s' -> exists s, w_states w !! p = Some s /\ same_but_refs s s';
  fw_to p s : w_states w !! p = Some s -> linked s = true ->
    exists s', w_states w' !! p = Some s' /\ same_but_refs s s';
  fw_fresh : w_fresh w' = w_fresh w;
  fw_owners : w_owners w' = w_owners w;
  fw_names : ht_nfs4_owner w' = ht_nfs4_owner w;
  fw_id : ht_state_id w' = ht_state_id w;
  fw_obj : ht_state_obj w' = ht_state_obj w;
  fw_files : list_of_states w' = list_of_states w;
  fw_exports : exp_state_list w' = exp_state_list w;
  fw_gone : w_gone w' = w_gone w
}.

#[export] Instance fewer_preorder : PreOrder fewer.
Proof.
  split.
  - intros w. split; try done; eauto using same_but_refs_refl.
  - intros w1 w2 w3 [F1 T1] [F2 T2]. split; try congruence.
    + intros p s3 (s2 & H2 & E2)%F2. destruct (F1 p s2 H2) as (s1 & H1 & E1). eauto using same_but_refs_trans.
    + intros p s1 H1 Hl. destruct (T1 p s1 H1 Hl) as (s2 & H2 & E2).
      destruct (T2 p s2 H2) as (s3 & H3 & E3); [by rewrite (same_linked _ _ (same_but_refs_shape _ _ E2))|].
      eauto using same_but_refs_trans.
Qed.

Lemma fewer_clients w c : fewer w (set_clients c w).
Proof. split; try done; cbn; eauto using same_but_refs_refl. Qed.

Lemma fewer_put w p s n : w_states w !! p = Some s ->
  fewer w (set_states (<[p := set_state_refcount n s]> (w_states w)) w).
Proof.
  intros Hp. split; try done; cbn; intros q t; destruct (decide (q = p)) as [->|Hne];
    rewrite ?lookup_insert_eq, ?lookup_insert_ne by done; eauto using same_but_refs_refl.
  - intros [= <-]. by exists s.
  - intros Hq _. rewrite Hp in Hq. injection Hq as <-. by eexists.
Qed.

Lemma inc_state_t_ref_st held w p s (Q : unit -> world -> Prop) :
  sinv held w -> w_states w !! p = Some s ->
  (let w' := set_states (<[p := set_state_refcount (state_refcount s + 1) s]> (w_states w)) w in
   sinv (p :: held) w' -> fewer w w' -> Q tt w') ->
  swp (inc_state_t_ref p) Q w.
Proof.
  intros H Hp HQ. unfold inc_state_t_ref. swp_step. destruct (si_count _ _ H p s Hp) as [Ec Hpos].
  apply HQ; [|by apply fewer_put]. eapply sinv_recount; [exact H|done|..].
  - intros q Hne. by apply cnt_push.
  - rewrite cnt_push_eq. lia.
  - lia.
Qed.

Lemma dec_state_t_ref_st held w p (Q : unit -> world -> Prop) :
  sinv (p :: held) w -> (forall w', sinv held w' -> fewer w w' -> w_clients w' = w_clients w -> Q tt w') ->
  swp (dec_state_t_ref p) Q w.
Proof.
  intros H HQ. destruct (si_held _ _ H p) as [s Hp]; [by left|].
  destruct (si_count _ _ H p s Hp) as [Ec Hpos]. pose proof (si_type _ _ H p s Hp) as Hty.
  unfold dec_state_t_ref. swp_step.
  assert (swp (dec_nfs4_state_ref p) Q w) as Hd; [|by destruct (state_type_of s)].
  unfold dec_nfs4_state_ref. swp_step. destruct (Z.ltb_spec 0 (state_refcount s - 1)) as [Hlt|Hle]; swp_step.
  - apply HQ; [|by apply fewer_put|done]. eapply (sinv_recount (p :: held)); [done|done|..]; [|rewrite cnt_push_eq in Ec; lia..].
    intros q Hne. symmetry. by apply cnt_push.
  - assert (state_refcount s = 1) as E1 by lia. apply HQ; [by eapply sinv_free| |done].
    rewrite cnt_push_eq in Ec. pose proof (cnt_nonneg p held).
    assert (linked s = false) as El by (destruct (linked s); cbn in Ec; [lia|done]).
    split; try done; cbn.
    + intros q t Hq. apply lookup_delete_Some in Hq as [_ Hq]. eauto using same_but_refs_refl.
    + intros q t Hq Hl. exists t. split; [|apply same_but_refs_refl]. rewrite lookup_delete_ne; [done|].
      intros <-. congruence.
Qed.

Lemma drop_state_st held w o (Q : unit -> world -> Prop) :
  sinv (option_list o ++ held) w ->
  (forall w', sinv held w' -> fewer w w' -> w_clients w' = w_clients w -> Q tt w') ->
  swp (match o with Some p => dec_state_t_ref p | None => mret tt end) Q w.
Proof. intros H HQ. destruct o as [p|]; [exact (dec_state_t_ref_st held w p Q H HQ)|]. by apply swp_ret, HQ. Qed.

(** ** Look-ups *)

Lemma get_pointer_st held w i (Q : option positive -> world -> Prop) :
  sinv held w -> (ht_state_id w !! i = None -> Q None w) ->
  (forall p s, ht_state_id w !! i = Some p -> w_states w !! p = Some s ->
     let w' := set_states (<[p := set_state_refcount (state_refcount s + 1) s]> (w_states w)) w in
     sinv (p :: held) w' -> fewer w w' -> Q (Some p) w') ->
  swp (nfs4_State_Get_Pointer i) Q w.
Proof.
  intros H H0 H1. unfold nfs4_State_Get_Pointer. swp_step.
  destruct (ht_state_id w !! i) as [p|] eqn:Ei; [|by apply swp_ret, H0].
  destruct (si_id _ _ H i p Ei) as (s & Hp & _ & _). apply swp_bind. eapply inc_state_t_ref_st; [done|done|].
  intros w' H' Hf. apply swp_ret. by eapply H1.
Qed.

Lemma get_obj_st held w obj so (Q : option positive -> world -> Prop) :
  sinv held w -> (ht_state_obj w !! (handle_digest obj, so) = None -> Q None w) ->
  (forall p s, w_states w !! p = Some s -> hashed w p s ->
     state_owner s = Some so -> state_obj s = handle_digest obj ->
     let w' := set_states (<[p := set_state_refcount (state_refcount s + 1) s]> (w_states w)) w in
     sinv (p :: held) w' -> fewer w w' -> Q (Some p) w') ->
  swp (nfs4_State_Get_Obj obj so) Q w.
Proof.
  intros H H0 H1. unfold nfs4_State_Get_Obj. swp_step.
  destruct (ht_state_obj w !! _) as [p|] eqn:Ei; [|by apply swp_ret, H0].
  destruct (si_obj _ _ H _ p Ei) as (s & Hp & Ek & Hh). apply swp_bind. eapply inc_state_t_ref_st; [done|done|].
  intros w' H' Hf. apply swp_ret. unfold obj_key in Ek. destruct (state_owner s) eqn:Eso; [|done].
  injection Ek as Ek ->. by eapply H1.
Qed.

(** ** Deleting a state *)

(** What the deletion of [p] leaves of another state. *)
Definition cut (p : positive) (s : state_t) : state_t :=
  set_share_lockstates (filter (fun q => q <> p) (share_lockstates s)) s.

Lemma cut_id p s : p ∉ share_lockstates s -> cut p s = s.
Proof. intros Hp. unfold cut. rewrite filter_ne_id by done. by destruct s. Qed.

Lemma cut_self held w p s : sinv held w -> w_states w !! p = Some s -> cut p s = s.
Proof.
  intros H Hp. apply cut_id. intros Hin. destruct (si_share _ _ H p s Hp) as [_ Hall].
  destruct (Hall p Hin) as (Et' & s' & Hp' & _ & Et & _). congruence.
Qed.

(** [w'] is [w] without [p], which is still allocated. *)
Record removed (p : positive) (s : state_t) (so : positive) (w w' : world) : Prop := {
  rm_other q : q <> p -> w_states w' !! q = cut p <$> w_states w !! q;
  rm_self : w_states w' !! p = Some (unlinked s);
  rm_fresh : w_fresh w' = w_fresh w;
  rm_owners : w_owners w' = alter (fun o => set_so_states (filter (fun q => q <> p) (so_states o)) o) so (w_owners w);
  rm_names : ht_nfs4_owner w' = ht_nfs4_owner w;
  rm_id : ht_state_id w' = delete (stateid_other s) (ht_state_id w);
  rm_obj : ht_state_obj w' = delete (state_obj s, so) (ht_state_obj w);
  rm_files k : list_at k (list_of_states w') = filter (fun q => q <> p) (list_at k (list_of_states w));
  rm_exports e : list_at e (exp_state_list w') = filter (fun q => q <> p) (list_at e (exp_state_list w));
  rm_gone : w_gone w' = w_gone w
}.

(** [p] is out of the tables and still on the lists. *)
Definition lost (s : state_t) (so : positive) (w : world) : world :=
  set_ht_obj (delete (state_obj s, so) (ht_state_obj w)) (set_ht_id (delete (stateid_other s) (ht_state_id w)) w).

Section removal.
Context (held : list positive) (p so : positive) (s : state_t) (w : world).
Hypothesis H : sinv held w.
Hypothesis Hp : w_states w !! p = Some s.
Hypothesis Hso : state_owner s = Some so.
Hypothesis Hhash : hashed w p s.
Hypothesis Hempty : forall r t, r ∈ share_lockstates s -> w_states w !! r = Some t -> ~ hashed w r t.

(** The entries of the tables that stay. *)
Lemma unhash_id i q :
  delete (stateid_other s) (ht_state_id w) !! i = Some q <-> ht_state_id w !! i = Some q /\ q <> p.
Proof.
  rewrite lookup_delete_Some. split.
  - intros [Hi Hq]. split; [done|]. intros ->. destruct (si_id _ _ H i p Hq) as (t & Ht & E & _). congruence.
  - intros [Hq Hne]. split; [|done]. intros <-. unfold hashed in Hhash. congruence.
Qed.

Lemma unhash_obj k q :
  delete (state_obj s, so) (ht_state_obj w) !! k = Some q <-> ht_state_obj w !! k = Some q /\ q <> p.
Proof.
  destruct (si_linked _ _ H p s so Hp Hso) as [Hob _]. specialize (Hob Hhash).
  rewrite lookup_delete_Some. split.
  - intros [Hi Hq]. split; [done|]. intros ->. destruct (si_obj _ _ H k p Hq) as (t & Ht & E & _).
    assert (t = s) as -> by congruence. apply Hi. unfold obj_key in E. rewrite Hso in E. by injection E as <-.
  - intros [Hq Hne]. split; [|done]. intros <-. congruence.
Qed.

Lemma hashed_other q t : hashed w q t -> q <> p -> forall r u, openstate t = Some r -> w_states w !! q = Some t ->
  w_states w !! r = Some u -> q ∈ share_lockstates u -> r <> p.
Proof.
  intros Hh Hne r u Er Hq Hu Hin ->. assert (u = s) as -> by congruence. by eapply Hempty.
Qed.

Lemma lost_sinv : may_lose -> sinv held (lost s so w).
Proof.
  intros Hlose. pose proof H as [].
  assert (forall q t, hashed (lost s so w) q t <-> hashed w q t /\ q <> p) as Hha by (intros q t; apply unhash_id).
  split; try done; cbn [w_states w_owners w_fresh ht_nfs4_owner list_of_states exp_state_list w_gone lost set_ht_obj set_ht_id].
  - intros i q. cbn. rewrite unhash_id. intros [Hi _]. by apply si_id0.
  - intros k q. cbn. rewrite unhash_obj. intros [Hk Hne]. destruct (si_obj0 k q Hk) as (t & Ht & E & Hh).
    exists t. by rewrite Hha.
  - intros q t x Hq Hx. destruct (si_linked0 q t x Hq Hx) as [Hob Ho]. split; [|done]. rewrite Hha. cbn.
    intros [Hh Hne]. apply unhash_obj. auto.
  - intros q t Hq [Hh Hne]%Hha Ht. destruct (si_open0 q t Hq Hh Ht) as (r & Er & u & Hu & Hhu & Etu & Hin).
    exists r. split; [done|]. exists u. rewrite Hha. split_and!; try done. exact (hashed_other q t Hh Hne r u Er Hq Hu Hin).
  - intros q t _ _. by right.
Qed.

Context (w' : world).
Hypothesis Hr : removed p s so w w'.

Lemma removed_from q t' : w_states w' !! q = Some t' -> q <> p ->
  exists t, w_states w !! q = Some t /\ t' = cut p t.
Proof.
  clear - Hr. intros Hq Hne. rewrite (rm_other _ _ _ _ _ Hr q Hne) in Hq.
  destruct (w_states w !! q) as [t|]; [|done]. injection Hq as <-. eauto.
Qed.

Lemma removed_to q t : w_states w !! q = Some t -> q <> p -> w_states w' !! q = Some (cut p t).
Proof. clear - Hr. intros Hq Hne. by rewrite (rm_other _ _ _ _ _ Hr q Hne), Hq. Qed.

(** A state that is linked in the new world is another one. *)
Lemma removed_linked q t' : w_states w' !! q = Some t' -> linked t' = true ->
  q <> p /\ exists t, w_states w !! q = Some t /\ t' = cut p t.
Proof.
  clear - Hr. intros Hq Hl. destruct (decide (q = p)) as [->|Hne]; [|split; [done|by apply removed_from]].
  rewrite (rm_self _ _ _ _ _ Hr) in Hq. by injection Hq as <-.
Qed.

Lemma removed_hashed q t : hashed w' q (cut p t) <-> hashed w q t /\ q <> p.
Proof. unfold hashed. rewrite (rm_id _ _ _ _ _ Hr). apply unhash_id. Qed.

Lemma removed_owner x o' : w_owners w' !! x = Some o' ->
  exists o, w_owners w !! x = Some o /\ so_type o' = so_type o /\ so_clientrec o' = so_clientrec o /\
    so_related_owner o' = so_related_owner o /\
    forall q, q ∈ so_states o' <-> q ∈ so_states o /\ (x = so -> q <> p).
Proof.
  clear - Hr. rewrite (rm_owners _ _ _ _ _ Hr). destruct (decide (x = so)) as [->|Hne].
  - rewrite lookup_alter_eq. destruct (w_owners w !! so) as [o|]; [|done]. intros [= <-]. exists o.
    do 4 (split; [done|]). intros q. cbn. rewrite list_elem_of_filter. naive_solver.
  - rewrite lookup_alter_ne by done. intros Hx. exists o'. do 4 (split; [done|]). naive_solver.
Qed.

Lemma removed_owner_to x : is_Some (w_owners w !! x) -> is_Some (w_owners w' !! x).
Proof.
  clear - Hr. rewrite (rm_owners _ _ _ _ _ Hr). intros Hx. destruct (decide (x = so)) as [->|Hne].
  - rewrite lookup_alter_eq. destruct Hx as [o ->]. eauto.
  - by rewrite lookup_alter_ne.
Qed.

Lemma removed_recs : owner_recs w' = owner_recs w.
Proof.
  clear - Hr. apply map_eq. intros x. unfold owner_recs. rewrite !lookup_fmap, (rm_owners _ _ _ _ _ Hr).
  destruct (decide (x = so)) as [->|Hne]; [rewrite lookup_alter_eq|by rewrite lookup_alter_ne].
  by destruct (w_owners w !! so).
Qed.

Lemma removed_counts : counts (p :: held) w'.
Proof.
  intros q t' Hq. destruct (decide (q = p)) as [->|Hne].
  - rewrite (rm_self _ _ _ _ _ Hr) in Hq. injection Hq as <-. destruct (si_count _ _ H p s Hp) as [Ec Hpos].
    rewrite cnt_push_eq. unfold linked in *. rewrite Hso in Ec. cbn in *. lia.
  - destruct (removed_from q t' Hq Hne) as (t & Ht & ->). rewrite cnt_push by done. exact (si_count _ _ H q t Ht).
Qed.

Lemma removed_tables :
  (forall i q, ht_state_id w' !! i = Some q ->
     exists t, w_states w' !! q = Some t /\ stateid_other t = i /\ linked t = true) /\
  (forall k q, ht_state_obj w' !! k = Some q ->
     exists t, w_states w' !! q = Some t /\ obj_key t = Some k /\ hashed w' q t).
Proof.
  rewrite (rm_id _ _ _ _ _ Hr), (rm_obj _ _ _ _ _ Hr). split.
  - intros i q [Hq Hne]%unhash_id. destruct (si_id _ _ H i q Hq) as (t & Ht & E & Hl).
    exists (cut p t). split; [|done]. by apply removed_to.
  - intros k q [Hq Hne]%unhash_obj. destruct (si_obj _ _ H k q Hq) as (t & Ht & E & Hh).
    exists (cut p t). split; [by apply removed_to|]. by rewrite removed_hashed.
Qed.

Lemma removed_place q t x : w_states w' !! q = Some t -> state_owner t = Some x ->
  ((hashed w' q t -> ht_state_obj w' !! (state_obj t, x) = Some q) /\
   exists o, w_owners w' !! x = Some o /\ q ∈ so_states o /\ owner_fits (state_type_of t) (so_type o) = true).
Proof.
  intros Hq Hx. assert (linked t = true) as Hl by (unfold linked; by rewrite Hx).
  destruct (removed_linked q t Hq Hl) as (Hne & t0 & Ht0 & ->).
  destruct (si_linked _ _ H q t0 x Ht0 Hx) as (Hob & o & Ho & Hin & Hfit). split.
  - rewrite removed_hashed, (rm_obj _ _ _ _ _ Hr). intros [Hh _]. apply unhash_obj. split; [by apply Hob|done].
  - rewrite (rm_owners _ _ _ _ _ Hr). destruct (decide (x = so)) as [->|Hxs].
    + rewrite lookup_alter_eq, Ho. eexists. split; [done|]. cbn. rewrite list_elem_of_filter. naive_solver.
    + rewrite lookup_alter_ne by done. naive_solver.
Qed.

Lemma removed_under q t : w_states w' !! q = Some t -> hashed w' q t -> state_type_of t = STATE_TYPE_LOCK ->
  exists r, openstate t = Some r /\ under w' q r.
Proof.
  intros Hq Hh Ht. destruct (proj1 removed_tables _ _ Hh) as (t' & Hq' & _ & Hl). assert (t' = t) as -> by congruence.
  destruct (removed_linked q t Hq Hl) as (Hne & t0 & Ht0 & ->). apply removed_hashed in Hh as [Hh _].
  destruct (si_open _ _ H q t0 Ht0 Hh Ht) as (r & Er & u & Hu & Hhu & Htu & Hin). exists r. split; [done|].
  pose proof (hashed_other q t0 Hh Hne r u Er Ht0 Hu Hin) as Hrp.
  exists (cut p u). split; [by apply removed_to|]. rewrite removed_hashed. split; [done|]. split; [done|]. cbn.
  by rewrite list_elem_of_filter.
Qed.

Lemma removed_share q t : w_states w' !! q = Some t ->
  NoDup (share_lockstates t) /\
  forall r, r ∈ share_lockstates t ->
    state_type_of t = STATE_TYPE_SHARE /\
    exists t', w_states w' !! r = Some t' /\ linked t' = true /\ state_type_of t' = STATE_TYPE_LOCK /\
      openstate t' = Some q.
Proof.
  intros Hq. destruct (decide (q = p)) as [->|Hne].
  - rewrite (rm_self _ _ _ _ _ Hr) in Hq. injection Hq as <-. cbn.
    destruct (si_share _ _ H p s Hp) as [Hnd Hall]. split; [done|]. intros r Hin.
    destruct (Hall r Hin) as (Ety & u & Hu & Hlu & Etu & Eou). split; [done|]. exists (cut p u).
    split; [apply removed_to; [done|congruence]|done].
  - destruct (removed_from q t Hq Hne) as (t0 & Ht0 & ->). destruct (si_share _ _ H q t0 Ht0) as [Hnd Hall].
    cbn. split; [by apply NoDup_filter|]. intros r [Hrp Hin]%list_elem_of_filter.
    destruct (Hall r Hin) as (Hl & u & Hu & Hlu & ?). split; [done|]. exists (cut p u).
    split; [by apply removed_to|done].
Qed.

Lemma removed_sinv : sinv (p :: held) w'.
Proof.
  destruct removed_tables as [Hid Hobj].
  split; [exact removed_counts|..|exact removed_under|exact removed_share| | | |].
  - intros q t Ht. destruct (decide (q = p)) as [->|Hne].
    + rewrite (rm_self _ _ _ _ _ Hr) in Ht. injection Ht as <-. exact (si_seq _ _ H p s Hp).
    + destruct (removed_from q t Ht Hne) as (t0 & Ht0 & ->). exact (si_seq _ _ H q t0 Ht0).
  - intros q Hin. destruct (decide (q = p)) as [->|Hne]; [by rewrite (rm_self _ _ _ _ _ Hr)|].
    apply elem_of_cons in Hin as [?|Hin]; [done|]. destruct (si_held _ _ H q Hin) as [t Ht].
    eexists. by apply removed_to.
  - intros q Hq. rewrite (rm_fresh _ _ _ _ _ Hr). apply (si_fresh _ _ H). destruct Hq as [[t Ht]|[o Ho]].
    + left. destruct (decide (q = p)) as [->|Hne]; [eauto|]. destruct (removed_from q t Ht Hne) as (t0 & ? & _). eauto.
    + right. destruct (removed_owner q o Ho) as (o0 & ? & _). eauto.
  - intros q t Ht. destruct (decide (q = p)) as [->|Hne].
    + rewrite (rm_self _ _ _ _ _ Hr) in Ht. injection Ht as <-. exact (si_type _ _ H p s Hp).
    + destruct (removed_from q t Ht Hne) as (t0 & Ht0 & ->). exact (si_type _ _ H q t0 Ht0).
  - exact Hid.
  - exact Hobj.
  - exact removed_place.
  - intros q t Ht Hl. destruct (removed_linked q t Ht Hl) as (Hne & t0 & Ht0 & ->).
    destruct (si_place _ _ H q t0 Ht0 Hl) as (e & obj & Ee & Hre & Eo & Hf & Hx).
    exists e, obj. rewrite (rm_files _ _ _ _ _ Hr), (rm_exports _ _ _ _ _ Hr), !list_elem_of_filter. done.
  - intros x o' q Hx Hin. destruct (removed_owner x o' Hx) as (o & Ho & _ & _ & _ & Hst).
    destruct (proj1 (Hst q) Hin) as [Hin' Hq]. destruct (si_owner _ _ H x o q Ho Hin') as (t & Ht & E).
    exists (cut p t). split; [|done]. apply removed_to; [done|]. intros ->. apply Hq; congruence.
  - intros k q. rewrite (rm_files _ _ _ _ _ Hr), list_elem_of_filter. intros [Hne Hin].
    destruct (si_file _ _ H k q Hin) as (t & Ht & ?). exists (cut p t). split; [by apply removed_to|done].
  - intros k q. rewrite (rm_exports _ _ _ _ _ Hr), list_elem_of_filter. intros [Hne Hin].
    destruct (si_export _ _ H k q Hin) as (t & Ht & ?). exists (cut p t). split; [by apply removed_to|done].
  - intros x o' Hx Ety. destruct (removed_owner x o' Hx) as (o & Ho & Et & _ & Er & _). rewrite Et in Ety. rewrite Er.
    destruct (si_related _ _ H x o Ho Ety) as (r & ? & Hrr). exists r. split; [done|]. by apply removed_owner_to.
  - intros n x. rewrite (rm_names _ _ _ _ _ Hr). intros (o & Ho & Et)%(si_name _ _ H).
    destruct (removed_owner_to x) as [o' Ho']; [eauto|]. exists o'. split; [done|].
    destruct (removed_owner x o' Ho') as (o0 & Ho0 & -> & _). congruence.
  - intros q t Ht Hl. destruct (removed_linked q t Ht Hl) as (Hne & t0 & Ht0 & ->). rewrite removed_hashed.
    destruct (si_lost _ _ H q t0 Ht0 Hl); [by left|by right].
  - rewrite (rm_gone _ _ _ _ _ Hr). apply (si_gone _ _ H).
Qed.
End removal.

Lemma alter_as_insert {A} (f : A -> A) k x (m : gmap positive A) :
  m !! k = Some x -> alter f k m = <[k := f x]> m.
Proof.
  intros Hk. apply map_eq. intros j. destruct (decide (j = k)) as [->|Hne].
  - by rewrite lookup_alter_eq, lookup_insert_eq, Hk.
  - by rewrite lookup_alter_ne, lookup_insert_ne.
Qed.

Lemma list_at_del {K} `{Countable K} (k k' : K) p (m : gmap K (list positive)) :
  list_at k (list_del k' p m) =
  if decide (k = k') then filter (fun q => q <> p) (list_at k m) else list_at k m.
Proof.
  unfold list_at, list_del. destruct (decide (k = k')) as [->|Hne].
  - by rewrite lookup_insert_eq.
  - by rewrite lookup_insert_ne.
Qed.

(** [list_del] takes a state from the one list it is on. *)
Lemma list_del_all {K} `{Countable K} (k : K) p (m : gmap K (list positive)) :
  (forall k', p ∈ list_at k' m -> k' = k) ->
  forall k', list_at k' (list_del k p m) = filter (fun q => q <> p) (list_at k' m).
Proof.
  intros Hp k'. rewrite list_at_del. destruct (decide (k' = k)) as [->|Hne]; [done|].
  symmetry. apply filter_ne_id. intros Hin. by apply Hne, Hp.
Qed.

Lemma state_del_table_st held w p s so (Q : bool -> world -> Prop) :
  sinv held w -> w_states w !! p = Some s -> state_owner s = Some so -> hashed w p s ->
  Q true (lost s so w) -> swp (nfs4_State_Del p) Q w.
Proof.
  intros H Hp Hso Hi HQ. destruct (si_linked _ _ H p s so Hp Hso) as (Hob & _). specialize (Hob Hi). unfold hashed in Hi.
  unfold nfs4_State_Del. do 2 swp_step. rewrite Hi. swp_step. rewrite bool_decide_true by done. cbn [negb].
  pose proof (si_type _ _ H p s Hp) as Hty.
  assert (by_owner (state_type_of s) = true) as -> by (by destruct (state_type_of s)). cbn [negb].
  assert (obj_key s = Some (state_obj s, so)) as -> by (unfold obj_key; by rewrite Hso).
  swp_step. cbn [ht_state_obj set_ht_id]. rewrite Hob. swp_step. by swp_step.
Qed.

(** The list of the open state. *)
Lemma leave_open_st held w w1 p s (Q : unit -> world -> Prop) :
  sinv held w -> w_states w1 = w_states w -> w_states w !! p = Some s -> hashed w p s ->
  (forall st, (forall q, st !! q = cut p <$> w_states w !! q) -> Q tt (set_states st w1)) ->
  swp (leave_open p s) Q w1.
Proof.
  intros H Es Hp Hl HQ.
  assert (forall q t, w_states w !! q = Some t -> openstate s <> Some q \/ state_type_of s <> STATE_TYPE_LOCK ->
    cut p t = t) as Hcut.
  { intros q t Hq Hne. apply cut_id. intros Hin. destruct (si_share _ _ H q t Hq) as [_ Hall].
    destruct (Hall p Hin) as (_ & s' & Hp' & _ & Et & Eo). rewrite Hp in Hp'. injection Hp' as <-. by destruct Hne. }
  assert (state_type_of s <> STATE_TYPE_LOCK -> Q tt w1) as Hno.
  { intros Hne. replace w1 with (set_states (w_states w) w1) by (rewrite <- Es; by destruct w1). apply HQ.
    intros q. destruct (w_states w !! q) as [t|] eqn:Hq; [|done]. cbn. by rewrite (Hcut q t Hq) by auto. }
  unfold leave_open. destruct (state_type_of s) eqn:Et; try by apply swp_ret, Hno.
  destruct (si_open _ _ H p s Hp Hl Et) as (q & Eq & t & Hq & _ & _ & _). rewrite Eq.
  eapply swp_upd_state; [by rewrite Es|]. apply HQ. intros r. rewrite Es.
  destruct (decide (r = q)) as [->|Hne]; [by rewrite lookup_insert_eq, Hq|].
  rewrite lookup_insert_ne by done. destruct (w_states w !! r) as [u|] eqn:Hr; [|done]. cbn.
  by rewrite (Hcut r u Hr) by (left; congruence).
Qed.

(** What [state_del_locked] does to a state that is in the tables: it is
    removed, or it is lost because its object is not found. *)
Definition deleted (p : positive) (s : state_t) (so : positive) (w w' : world) : Prop :=
  (exists w1, removed p s so w w1 /\ fewer w1 w') \/ (get_state_obj_ref s w = None /\ w' = lost s so w).

Lemma gone_lost held w p s :
  sinv held w -> w_states w !! p = Some s -> linked s = true -> get_state_obj_ref s w = None -> may_lose.
Proof.
  intros H Hp Hl E. destruct (si_place _ _ H p s Hp Hl) as (e & obj & Ee & Hre & Eo & _).
  unfold get_state_obj_ref in E. rewrite Ee, Eo in E. by eapply (si_gone _ _ H).
Qed.

Lemma state_del_locked_st held w p s so (Q : unit -> world -> Prop) :
  sinv held w -> w_states w !! p = Some s -> state_owner s = Some so -> hashed w p s ->
  (forall r t, r ∈ share_lockstates s -> w_states w !! r = Some t -> ~ hashed w r t) ->
  (forall w', deleted p s so w w' ->
     (get_state_obj_ref s w <> None -> exists w1, removed p s so w w1 /\ fewer w1 w') ->
     sinv held w' -> w_clients w' = w_clients w -> Q tt w') ->
  swp (state_del_locked p) Q w.
Proof.
  intros H Hp Hso Hh Hempty HQ. assert (linked s = true) as Hl by (unfold linked; by rewrite Hso).
  destruct (si_place _ _ H p s Hp Hl) as (e & obj & Ee & Hre & Eo & _).
  destruct (si_linked _ _ H p s so Hp Hso) as (_ & o & Ho & _).
  unfold state_del_locked. apply swp_bind. eapply state_del_table_st; [done..|]. cbn [negb]. swp_step. swp_step.
  change (get_state_obj_ref s (lost s so w)) with (get_state_obj_ref s w).
  destruct (get_state_obj_ref s w) as [obj'|] eqn:Eobj.
  2:{ apply swp_ret. apply HQ; [by right|done| |done]. eapply lost_sinv; try done. by eapply gone_lost. }
  rewrite Hso. swp_step.
  apply swp_bind. eapply swp_upd_so; [exact Ho|]. apply swp_bind. eapply (leave_open_st held w); [done..|].
  intros st Hst. rewrite Ee. apply swp_bind, swp_change, swp_bind.
  assert (st !! p = Some s) as Hsp by (rewrite Hst, Hp; cbn; by rewrite (cut_self held w p s)).
  eapply swp_upd_state; [exact Hsp|].
  match goal with |- swp _ _ ?w2 => assert (removed p s so w w2) as Hrm end.
  { split; cbn [w_states w_fresh w_owners ht_nfs4_owner ht_state_id ht_state_obj list_of_states exp_state_list w_gone
      set_states set_exp_list set_w_owners set_file_list set_ht_obj set_ht_id lost]; try done.
    - intros q Hne. rewrite lookup_insert_ne by done. apply Hst.
    - by rewrite lookup_insert_eq.
    - by rewrite (alter_as_insert _ so o) by done.
    - apply list_del_all. intros k (t & Ht & _ & E)%(si_file _ _ H). congruence.
    - apply list_del_all. intros k (t & Ht & _ & E)%(si_export _ _ H). congruence. }
  eapply (dec_state_t_ref_st held); [by eapply removed_sinv|].
  intros w' H' Hf Ec. eapply HQ; [left; by eexists|by eexists|done..].
Qed.

(** A state that is not in the tables is left alone. *)
Lemma state_del_locked_skip w p s (Q : unit -> world -> Prop) :
  w_states w !! p = Some s -> ht_state_id w !! stateid_other s = None -> Q tt w -> swp (state_del_locked p) Q w.
Proof.
  intros Hp Hi HQ. unfold state_del_locked, nfs4_State_Del. apply swp_bind. do 2 swp_step. rewrite Hi. swp_step.
  cbn [negb]. by swp_step.
Qed.

Lemma state_del_st held w p s so (Q : unit -> world -> Prop) :
  sinv held w -> w_states w !! p = Some s -> state_owner s = Some so -> hashed w p s ->
  (forall r t, r ∈ share_lockstates s -> w_states w !! r = Some t -> ~ hashed w r t) ->
  (get_state_obj_ref s w = None -> Q tt w) ->
  (forall w1 w', removed p s so w w1 -> sinv held w' -> fewer w1 w' -> w_clients w' = w_clients w -> Q tt w') ->
  swp (state_del p) Q w.
Proof.
  intros H Hp Hso Hh Hempty H0 HQ. unfold state_del. swp_step. swp_step.
  destruct (get_state_obj_ref s w) as [obj|] eqn:E; [|by apply swp_ret, H0].
  eapply state_del_locked_st; [done..|]. intros w' _ Hrm H' Ec. destruct Hrm as (w1 & Hr & Hf); [congruence|]. by eapply HQ.
Qed.

(** ** Adding a state *)

Definition join (p : positive) (s : state_t) : state_t := set_share_lockstates (share_lockstates s ++ [p]) s.

(** [w'] is [w] with a new state, on the list of the open state [under_]. *)
Record added (p : positive) (s : state_t) (so : positive) (under_ : option positive) (w w' : world) : Prop := {
  ad_other q : q <> p -> w_states w' !! q = (if decide (under_ = Some q) then join p else id) <$> w_states w !! q;
  ad_self : w_states w' !! p = Some s;
  ad_new : p = w_fresh w;
  ad_fresh : w_fresh w' = Pos.succ p;
  ad_owners : w_owners w' = alter (fun o => set_so_states (so_states o ++ [p]) o) so (w_owners w);
  ad_names : ht_nfs4_owner w' = ht_nfs4_owner w;
  ad_id : ht_state_id w !! stateid_other s = None /\ ht_state_id w' = <[stateid_other s := p]> (ht_state_id w);
  ad_obj : ht_state_obj w !! (state_obj s, so) = None /\ ht_state_obj w' = <[(state_obj s, so) := p]> (ht_state_obj w);
  ad_files k : list_at k (list_of_states w') =
    list_at k (list_of_states w) ++ if decide (k = state_obj s) then [p] else [];
  ad_exports e : list_at e (exp_state_list w') =
    list_at e (exp_state_list w) ++ if decide (state_export s = Some e) then [p] else [];
  ad_gone : w_gone w' = w_gone w
}.

(** A new state as [state_add_impl] makes it. *)
Record new_state (s : state_t) (so : positive) (w : world) : Prop := {
  ns_owner : state_owner s = Some so;
  ns_refs : state_refcount s = 2;
  ns_seq : state_seqid s = 0;
  ns_type : nfs4_type (state_type_of s) = true;
  ns_place : exists e obj, state_export s = Some e /\ export_ready e = true /\ state_obj s = handle_digest obj;
  ns_share : share_lockstates s = [];
  ns_fits : exists o, w_owners w !! so = Some o /\ owner_fits (state_type_of s) (so_type o) = true
}.

Section addition.
Context (held : list positive) (p so : positive) (s : state_t) (under_ : option positive) (w w' : world).
Hypothesis H : sinv held w.
Hypothesis Hn : new_state s so w.
Hypothesis Hunder : state_type_of s = STATE_TYPE_LOCK /\
    (exists q t, openstate s = Some q /\ under_ = Some q /\ w_states w !! q = Some t /\ hashed w q t /\
       state_type_of t = STATE_TYPE_SHARE) \/
  state_type_of s = STATE_TYPE_SHARE /\ under_ = None.
Hypothesis Ha : added p s so under_ w w'.

Lemma added_old q : is_Some (w_states w !! q) \/ is_Some (w_owners w !! q) -> q <> p.
Proof. intros Hq%(si_fresh _ _ H) ->. rewrite (ad_new _ _ _ _ _ _ Ha) in Hq. lia. Qed.

Definition grown (q : positive) (t : state_t) : state_t := if decide (under_ = Some q) then join p t else t.

Lemma added_from q t' : w_states w' !! q = Some t' ->
  q = p /\ t' = s \/ q <> p /\ exists t, w_states w !! q = Some t /\ t' = grown q t.
Proof.
  intros Hq. destruct (decide (q = p)) as [->|Hne].
  - left. rewrite (ad_self _ _ _ _ _ _ Ha) in Hq. by injection Hq.
  - right. split; [done|]. rewrite (ad_other _ _ _ _ _ _ Ha q Hne) in Hq. unfold grown.
    destruct (w_states w !! q) as [t|]; [|done]. exists t. split; [done|].
    destruct (decide _); by injection Hq.
Qed.

Lemma added_to q t : w_states w !! q = Some t -> w_states w' !! q = Some (grown q t).
Proof.
  intros Hq. assert (q <> p) as Hne by (apply added_old; eauto).
  rewrite (ad_other _ _ _ _ _ _ Ha q Hne), Hq. unfold grown. by destruct (decide _).
Qed.

Lemma grown_fields q t :
  stateid_other (grown q t) = stateid_other t /\ state_type_of (grown q t) = state_type_of t /\
  state_obj (grown q t) = state_obj t /\ state_export (grown q t) = state_export t /\
  state_owner (grown q t) = state_owner t /\ openstate (grown q t) = openstate t /\
  state_refcount (grown q t) = state_refcount t /\ linked (grown q t) = linked t.
Proof. unfold grown. by destruct (decide _). Qed.

Lemma added_hashed q t : hashed w q t -> hashed w' q (grown q t).
Proof.
  unfold hashed. destruct (grown_fields q t) as (-> & _), (ad_id _ _ _ _ _ _ Ha) as [Hi ->]. intros Hh.
  rewrite lookup_insert_ne; [done|]. intros E. rewrite E in Hi. congruence.
Qed.

Lemma added_hashed_from q t : w_states w !! q = Some t -> hashed w' q (grown q t) -> hashed w q t.
Proof.
  intros Hq. assert (q <> p) as Hne by (apply added_old; eauto).
  unfold hashed. destruct (grown_fields q t) as (-> & _), (ad_id _ _ _ _ _ _ Ha) as [Hi ->].
  intros [[_ E]|[_ Hh]]%lookup_insert_Some; [congruence|done].
Qed.

Lemma new_hashed : hashed w' p s.
Proof. unfold hashed. destruct (ad_id _ _ _ _ _ _ Ha) as [_ ->]. by rewrite lookup_insert_eq. Qed.

Lemma new_linked : linked s = true.
Proof. unfold linked. by rewrite (ns_owner _ _ _ Hn). Qed.

Lemma added_owner x o' : w_owners w' !! x = Some o' ->
  exists o, w_owners w !! x = Some o /\ so_type o' = so_type o /\ so_clientrec o' = so_clientrec o /\
    so_related_owner o' = so_related_owner o /\ forall q, q ∈ so_states o' <-> q ∈ so_states o \/ x = so /\ q = p.
Proof.
  clear H Hn Hunder. rewrite (ad_owners _ _ _ _ _ _ Ha). destruct (decide (x = so)) as [->|Hne].
  - rewrite lookup_alter_eq. destruct (w_owners w !! so) as [o|]; [|done]. intros [= <-]. exists o.
    do 4 (split; [done|]). intros q. cbn. rewrite elem_of_app, list_elem_of_singleton. naive_solver.
  - rewrite lookup_alter_ne by done. intros Hx. exists o'. do 4 (split; [done|]). naive_solver.
Qed.

Lemma added_owner_to x o : w_owners w !! x = Some o ->
  exists o', w_owners w' !! x = Some o' /\ so_type o' = so_type o /\
    forall q, q ∈ so_states o' <-> q ∈ so_states o \/ x = so /\ q = p.
Proof.
  intros Hx. assert (is_Some (w_owners w' !! x)) as [o' Ho'].
  { rewrite (ad_owners _ _ _ _ _ _ Ha). destruct (decide (x = so)) as [->|Hne].
    - rewrite lookup_alter_eq, Hx. eauto.
    - rewrite lookup_alter_ne by done. eauto. }
  exists o'. split; [done|]. destruct (added_owner x o' Ho') as (o0 & Ho0 & Et & _ & _ & Hst).
  rewrite Hx in Ho0. by injection Ho0 as <-.
Qed.

Lemma added_counts : counts (p :: held) w'.
Proof.
  intros q t' [[-> ->]|(Hne & t & Ht & ->)]%added_from.
  - rewrite new_linked, (ns_refs _ _ _ Hn), cnt_push_eq, cnt_zero; [done|]. intros Hin.
    by apply (added_old p); [left; apply (si_held _ _ H)|].
  - destruct (grown_fields q t) as (_ & _ & _ & _ & _ & _ & -> & ->). rewrite cnt_push by done.
    by apply (si_count _ _ H).
Qed.

Lemma added_place q t x : w_states w' !! q = Some t -> state_owner t = Some x ->
  (hashed w' q t -> ht_state_obj w' !! (state_obj t, x) = Some q) /\
  exists o, w_owners w' !! x = Some o /\ q ∈ so_states o /\ owner_fits (state_type_of t) (so_type o) = true.
Proof.
  destruct (ad_obj _ _ _ _ _ _ Ha) as [Ho0 ->].
  intros [[-> ->]|(Hne & t0 & Ht & ->)]%added_from Hx.
  - rewrite (ns_owner _ _ _ Hn) in Hx. injection Hx as <-. rewrite !lookup_insert_eq. split; [done|].
    destruct (ns_fits _ _ _ Hn) as (o & Ho & Hfit). destruct (added_owner_to so o Ho) as (o' & Ho' & Et & Hst).
    exists o'. rewrite Et. split; [done|]. split; [apply Hst; by right|done].
  - destruct (grown_fields q t0) as (_ & E2 & E3 & _ & E5 & _). rewrite E2, E3. rewrite E5 in Hx.
    destruct (si_linked _ _ H q t0 x Ht Hx) as (Hob & o & Ho & Hin & Hfit). split.
    + intros Hh%(added_hashed_from q t0 Ht). specialize (Hob Hh).
      rewrite lookup_insert_ne; [done|]. intros E. rewrite E in Ho0. congruence.
    + destruct (added_owner_to x o Ho) as (o' & Ho' & Et & Hst). exists o'. rewrite Et.
      split; [done|]. split; [apply Hst; by left|done].
Qed.

Lemma added_under q t : w_states w' !! q = Some t -> hashed w' q t -> state_type_of t = STATE_TYPE_LOCK ->
  exists r, openstate t = Some r /\ under w' q r.
Proof.
  intros [[-> ->]|(Hne & t0 & Ht & ->)]%added_from Hl Ety.
  - destruct Hunder as [(_ & r & u & Eo & Eu & Hu & Hlu & Etu)|(E & _)]; [|congruence].
    exists r. split; [done|]. exists (grown r u). split; [by apply added_to|]. split; [by apply added_hashed|].
    destruct (grown_fields r u) as (_ & -> & _). split; [done|]. unfold grown. rewrite decide_True by done.
    cbn. apply elem_of_app. right. by left.
  - destruct (grown_fields q t0) as (_ & E2 & _ & _ & _ & E6 & _). apply (added_hashed_from q t0 Ht) in Hl.
    rewrite E2 in Ety. rewrite E6.
    destruct (si_open _ _ H q t0 Ht Hl Ety) as (r & Er & u & Hu & Hlu & Etu & Hin). exists r. split; [done|].
    exists (grown r u). split; [by apply added_to|]. split; [by apply added_hashed|].
    destruct (grown_fields r u) as (_ & -> & _). split; [done|]. unfold grown.
    destruct (decide _); [|done]. cbn. apply elem_of_app. by left.
Qed.

Lemma added_share q t : w_states w' !! q = Some t ->
  NoDup (share_lockstates t) /\
  forall r, r ∈ share_lockstates t ->
    state_type_of t = STATE_TYPE_SHARE /\
    exists t', w_states w' !! r = Some t' /\ linked t' = true /\ state_type_of t' = STATE_TYPE_LOCK /\
      openstate t' = Some q.
Proof.
  intros [[-> ->]|(Hne & t0 & Ht & ->)]%added_from.
  { rewrite (ns_share _ _ _ Hn). split; [constructor|]. by intros r ?%elem_of_nil. }
  destruct (si_share _ _ H q t0 Ht) as [Hnd Hall].
  assert (forall r, r ∈ share_lockstates t0 -> state_type_of (grown q t0) = STATE_TYPE_SHARE /\
    exists t', w_states w' !! r = Some t' /\ linked t' = true /\ state_type_of t' = STATE_TYPE_LOCK /\
      openstate t' = Some q) as Hold.
  { intros r Hin. destruct (Hall r Hin) as (Hl & u & Hu & Hlu & Etu & Eo).
    destruct (grown_fields q t0) as (_ & -> & _). split; [done|]. exists (grown r u).
    destruct (grown_fields r u) as (_ & -> & _ & _ & _ & -> & _ & ->). split; [by apply added_to|done]. }
  destruct (decide (under_ = Some q)) as [Eu|Hu].
  2:{ assert (grown q t0 = t0) as Eg by (unfold grown; by rewrite decide_False). rewrite Eg in *. done. }
  assert (share_lockstates (grown q t0) = share_lockstates t0 ++ [p]) as -> by (unfold grown; by rewrite decide_True).
  assert (p ∉ share_lockstates t0) as Hnp.
  { intros Hin. destruct (Hall p Hin) as (_ & u & Hu & _). by apply (added_old p); [left|]. }
  split.
  - apply NoDup_app. split; [done|]. split; [|apply NoDup_singleton]. by intros r Hin ->%list_elem_of_singleton.
  - intros r [Hin| ->%list_elem_of_singleton]%elem_of_app; [by apply Hold|].
    destruct Hunder as [(Ety & r & u & Eo & Eu' & Hu & Hlu & Etu)|(_ & ?)]; [|congruence].
    assert (r = q) as -> by congruence. assert (u = t0) as -> by congruence.
    destruct (grown_fields q t0) as (_ & -> & _). split; [done|].
    exists s. split; [exact (ad_self _ _ _ _ _ _ Ha)|]. split; [exact new_linked|done].
Qed.

Lemma added_lists :
  (forall q t, w_states w' !! q = Some t -> linked t = true ->
     exists e obj, state_export t = Some e /\ export_ready e = true /\ state_obj t = handle_digest obj /\
       q ∈ list_at (state_obj t) (list_of_states w') /\ q ∈ list_at e (exp_state_list w')) /\
  (forall k q, q ∈ list_at k (list_of_states w') ->
     exists t, w_states w' !! q = Some t /\ linked t = true /\ state_obj t = k) /\
  (forall e q, q ∈ list_at e (exp_state_list w') ->
     exists t, w_states w' !! q = Some t /\ linked t = true /\ state_export t = Some e).
Proof.
  pose proof (ad_self _ _ _ _ _ _ Ha) as Hself. pose proof new_linked as Hl.
  split; [|split].
  - intros q t [[-> ->]|(Hne & t0 & Ht & ->)]%added_from Hlt.
    + destruct (ns_place _ _ _ Hn) as (e & obj & Ee & Hr & Eo). exists e, obj. do 3 (split; [done|]).
      rewrite (ad_files _ _ _ _ _ _ Ha), (ad_exports _ _ _ _ _ _ Ha), !decide_True by done.
      split; apply elem_of_app; right; by left.
    + destruct (grown_fields q t0) as (_ & _ & -> & -> & _ & _ & _ & El). rewrite El in Hlt.
      destruct (si_place _ _ H q t0 Ht Hlt) as (e & obj & Ee & Hr & Eo & Hf & Hx). exists e, obj. do 3 (split; [done|]).
      rewrite (ad_files _ _ _ _ _ _ Ha), (ad_exports _ _ _ _ _ _ Ha). split; apply elem_of_app; by left.
  - intros k q. rewrite (ad_files _ _ _ _ _ _ Ha). intros [Hin|Hin]%elem_of_app.
    + destruct (si_file _ _ H k q Hin) as (t & Ht & ?). exists (grown q t).
      destruct (grown_fields q t) as (_ & _ & -> & _ & _ & _ & _ & ->). split; [by apply added_to|done].
    + destruct (decide _) as [->|]; [|by apply elem_of_nil in Hin]. apply list_elem_of_singleton in Hin as ->. eauto.
  - intros k q. rewrite (ad_exports _ _ _ _ _ _ Ha). intros [Hin|Hin]%elem_of_app.
    + destruct (si_export _ _ H k q Hin) as (t & Ht & ?). exists (grown q t).
      destruct (grown_fields q t) as (_ & _ & _ & -> & _ & _ & _ & ->). split; [by apply added_to|done].
    + destruct (decide _) as [E|]; [|by apply elem_of_nil in Hin]. apply list_elem_of_singleton in Hin as ->. eauto.
Qed.

Lemma added_sinv : sinv (p :: held) w'.
Proof.
  destruct added_lists as (Hpl & Hfi & Hex). pose proof (ad_self _ _ _ _ _ _ Ha) as Hself.
  split; [exact added_counts|..|exact added_under|exact added_share| | | |].
  - intros q t [[-> ->]|(Hne & t0 & Ht & ->)]%added_from; [rewrite (ns_seq _ _ _ Hn); lia|].
    unfold grown. destruct (decide _); exact (si_seq _ _ H q t0 Ht).
  - intros q [->|Hin]%elem_of_cons; [eauto|]. destruct (si_held _ _ H q Hin) as [t Ht]. eexists. by apply added_to.
  - intros q Hq. rewrite (ad_fresh _ _ _ _ _ _ Ha). pose proof (ad_new _ _ _ _ _ _ Ha) as Ep.
    destruct (decide (q = p)) as [->|Hne]; [lia|]. assert (q < w_fresh w)%positive; [|lia].
    apply (si_fresh _ _ H). destruct Hq as [[t [[-> _]|(_ & t0 & ? & _)]%added_from]|[o Ho]]; [done|by left; eauto|].
    right. destruct (added_owner q o Ho) as (o0 & ? & _). eauto.
  - intros q t [[-> ->]|(Hne & t0 & Ht & ->)]%added_from; [exact (ns_type _ _ _ Hn)|].
    destruct (grown_fields q t0) as (_ & -> & _). by eapply si_type.
  - intros i q. destruct (ad_id _ _ _ _ _ _ Ha) as [_ ->].
    intros [[<- <-]|[Hne Hq]]%lookup_insert_Some; [exists s; split; [done|]; split; [done|exact new_linked]|].
    destruct (si_id _ _ H i q Hq) as (t & Ht & ? & ?). exists (grown q t).
    destruct (grown_fields q t) as (-> & _ & _ & _ & _ & _ & _ & ->). split; [by apply added_to|done].
  - intros k q. destruct (ad_obj _ _ _ _ _ _ Ha) as [_ ->].
    intros [[<- <-]|[Hne Hq]]%lookup_insert_Some.
    + exists s. split; [done|]. split; [|exact new_hashed]. unfold obj_key. by rewrite (ns_owner _ _ _ Hn).
    + destruct (si_obj _ _ H k q Hq) as (t & Ht & E & Hh). exists (grown q t). split; [by apply added_to|].
      split; [|by apply added_hashed].
      destruct (grown_fields q t) as (_ & _ & E3 & _ & E5 & _). unfold obj_key in *. by rewrite E3, E5.
  - exact added_place.
  - exact Hpl.
  - intros x o' q Hx Hin. destruct (added_owner x o' Hx) as (o & Ho & _ & _ & _ & Hst).
    destruct (proj1 (Hst q) Hin) as [Hin'|[-> ->]]; [|exists s; split; [done|exact (ns_owner _ _ _ Hn)]].
    destruct (si_owner _ _ H x o q Ho Hin') as (t & Ht & E). exists (grown q t). split; [by apply added_to|].
    by destruct (grown_fields q t) as (_ & _ & _ & _ & -> & _).
  - exact Hfi.
  - exact Hex.
  - intros x o' Hx Ety. destruct (added_owner x o' Hx) as (o & Ho & Et & _ & Er & _). rewrite Et in Ety. rewrite Er.
    destruct (si_related _ _ H x o Ho Ety) as (r & ? & [o2 Ho2]). exists r. split; [done|].
    destruct (added_owner_to r o2 Ho2) as (o3 & ? & _). eauto.
  - intros n x. rewrite (ad_names _ _ _ _ _ _ Ha). intros (o & Ho & Et)%(si_name _ _ H).
    destruct (added_owner_to x o Ho) as (o' & Ho' & Et' & _). exists o'. split; [done|congruence].
  - intros q t [[-> ->]|(Hne & t0 & Ht & ->)]%added_from Hl; [left; exact new_hashed|].
    destruct (grown_fields q t0) as (_ & _ & _ & _ & _ & _ & _ & El). rewrite El in Hl.
    destruct (si_lost _ _ H q t0 Ht Hl); [left; by apply added_hashed|by right].
  - rewrite (ad_gone _ _ _ _ _ _ Ha). apply (si_gone _ _ H).
Qed.

Lemma added_recs : owner_recs w' = owner_recs w.
Proof.
  clear - Ha. apply map_eq. intros x. unfold owner_recs. rewrite !lookup_fmap, (ad_owners _ _ _ _ _ _ Ha).
  destruct (decide (x = so)) as [->|Hne]; [rewrite lookup_alter_eq|by rewrite lookup_alter_ne].
  by destruct (w_owners w !! so).
Qed.
End addition.

(** Nothing but the supply of addresses and of identifiers differs. *)
Record idle (w w' : world) : Prop := {
  id_clients : w_clients w' = w_clients w;
  id_states : w_states w' = w_states w;
  id_fresh : (w_fresh w <= w_fresh w')%positive;
  id_owners : w_owners w' = w_owners w;
  id_names : ht_nfs4_owner w' = ht_nfs4_owner w;
  id_id : ht_state_id w' = ht_state_id w;
  id_obj : ht_state_obj w' = ht_state_obj w;
  id_files : list_of_states w' = list_of_states w;
  id_exports : exp_state_list w' = exp_state_list w;
  id_gone : w_gone w' = w_gone w
}.

Lemma sinv_idle held w w' : sinv held w -> idle w w' -> sinv held w'.
Proof.
  intros [] [_ E1 Hf E2 E3 E4 E5 E6 E7 E8]. split; unfold under, hashed; rewrite ?E1, ?E2, ?E3, ?E4, ?E5, ?E6, ?E7, ?E8; try done.
  intros p Hp. specialize (si_fresh0 p Hp). lia.
Qed.

Context {CLaws : ClientsLaws}.

Lemma build_other_st L R w so o (Q : stateid_other_t -> world -> Prop) :
  cinv L R w -> w_owners w !! so = Some o ->
  (forall i w', idle w w' -> w_fresh w' = w_fresh w -> Q i w') ->
  swp (nfs4_BuildStateId_Other (so_clientrec o)) Q w.
Proof.
  intros [Hc Hin] Ho HQ. unfold nfs4_BuildStateId_Other. apply swp_bind.
  destruct (cl_number_ok _ _ _ _ Hc (recs_in _ _ _ _ Hin Ho)) as [n En]. unfold swp at 1. rewrite En.
  do 3 swp_step. apply HQ; [|done]. by split.
Qed.

Lemma list_at_add {K} `{Countable K} (k k' : K) p (m : gmap K (list positive)) :
  list_at k (list_add k' p m) = list_at k m ++ if decide (k = k') then [p] else [].
Proof.
  unfold list_at, list_add. destruct (decide (k = k')) as [->|Hne].
  - by rewrite lookup_insert_eq.
  - by rewrite lookup_insert_ne, app_nil_r by done.
Qed.

(** The state of [state_add_impl], in the world before the tables. *)
Lemma state_set_st w p s so (Q : bool -> world -> Prop) :
  w_states w !! p = Some s -> state_owner s = Some so -> by_owner (state_type_of s) = true ->
  Q false w ->
  (ht_state_id w !! stateid_other s = None -> ht_state_obj w !! (state_obj s, so) = None ->
   Q true (set_ht_obj (<[(state_obj s, so) := p]> (ht_state_obj w))
            (set_ht_id (<[stateid_other s := p]> (ht_state_id w)) w))) ->
  swp (nfs4_State_Set p) Q w.
Proof.
  intros Hp Hso Hby H0 H1. unfold nfs4_State_Set. do 2 swp_step.
  destruct (ht_state_id w !! stateid_other s) as [q|] eqn:Ei; [by swp_step|]. swp_step. rewrite Hby. cbn [negb].
  assert (obj_key s = Some (state_obj s, so)) as -> by (unfold obj_key; by rewrite Hso).
  swp_step. cbn [ht_state_obj set_ht_id]. destruct (ht_state_obj w !! _) as [q|] eqn:Eo.
  - do 2 swp_step. cbn [ht_state_id set_ht_id]. rewrite delete_insert_id by done.
    match goal with |- Q false ?w' => replace w' with w; [done|] end. by destruct w.
  - do 2 swp_step. by apply H1.
Qed.

Lemma state_add_impl_st held L R w obj ty opened so o export (Q : state_status_t * option positive -> world -> Prop) :
  sinv held w -> cinv L R w -> w_owners w !! so = Some o -> nfs4_type ty = true -> owner_fits ty (so_type o) = true ->
  (forall status w', status <> STATE_SUCCESS -> idle w w' -> Q (status, None) w') ->
  (forall p i w1, let s := mk_state i ty 0 2 (handle_digest obj) (Some export) (Some so) [] opened [] in
     added p s so None w w1 -> new_state s so w -> w_clients w1 = w_clients w -> Q (STATE_SUCCESS, Some p) w1) ->
  swp (state_add_impl obj ty opened so export) Q w.
Proof.
  intros H Hc Ho Hty Hfit H0 H1. unfold state_add_impl.
  destruct (export_ready export) eqn:Er; cbn [negb]; [|by apply swp_ret, H0].
  do 2 swp_step. set (p := w_fresh w). apply swp_bind. eapply swp_get_owner; [exact Ho|].
  apply swp_bind. eapply (build_other_st L R (set_fresh (Pos.succ p) w) so o); [exact Hc|exact Ho|].
  intros i w2 Hid Hfr. set (s := mk_state i ty 0 2 (handle_digest obj) (Some export) (Some so) [] opened []).
  apply swp_bind, swp_change. pose proof Hid as [E0 E1 _ E2 E3 E4 E5 E6 E7 E8].
  cbn [w_clients w_states w_fresh w_owners ht_nfs4_owner ht_state_id ht_state_obj list_of_states exp_state_list w_gone set_fresh] in *.
  assert (w_states w !! p = None) as Hnew.
  { destruct (w_states w !! p) as [t|] eqn:Et; [|done]. exfalso.
    assert (p < w_fresh w)%positive by (apply (si_fresh _ _ H); eauto). subst p. lia. }
  apply swp_bind. eapply (state_set_st _ p s so); [apply lookup_insert_eq|done|by destruct ty|..].
  - cbn [negb]. swp_step. swp_step. apply H0; [done|]. split; cbn; try congruence.
    + rewrite E1. by rewrite delete_insert_id.
    + rewrite Hfr. subst p. lia.
  - cbn [ht_state_id ht_state_obj set_states]. rewrite E4, E5. intros Hni Hno. cbn [negb].
    do 2 (apply swp_bind, swp_change). apply swp_bind. eapply swp_upd_so; [by rewrite <- E2 in Ho|]. apply swp_ret.
    apply (H1 p i); [|by split; try done; [exists export, obj|exists o]|done].
    split; cbn [w_clients w_states w_fresh w_owners ht_nfs4_owner ht_state_id ht_state_obj list_of_states
      exp_state_list w_gone set_states set_w_owners set_file_list set_exp_list set_ht_obj set_ht_id]; try done; try congruence.
    + intros q Hne. rewrite lookup_insert_ne by done. rewrite decide_False, E1 by done. by destruct (w_states w !! q).
    + by rewrite lookup_insert_eq.
    + rewrite (alter_as_insert _ so o) by done. by rewrite E2.
    + intros k. rewrite list_at_add, E6. done.
    + intros e. rewrite list_at_add, E7. f_equal. cbn. repeat case_decide; congruence.
Qed.

(** ** Owners and client ids *)

(** A change of an owner that the invariant does not see, but for a related
    owner that it gets. *)
Definition owner_kept (w : world) (o o' : nfs4_owner) : Prop :=
  so_type o' = so_type o /\ so_clientrec o' = so_clientrec o /\ so_states o' = so_states o /\
  (so_related_owner o' = so_related_owner o \/ exists r, so_related_owner o' = Some r /\ is_Some (w_owners w !! r)).

Lemma sinv_owner held w so o o' :
  sinv held w -> w_owners w !! so = Some o -> owner_kept w o o' ->
  sinv held (set_w_owners (<[so := o']> (w_owners w)) w).
Proof.
  intros H Ho (Et & Ec & Es & Er).
  assert (forall x, is_Some (<[so := o']> (w_owners w) !! x) <-> is_Some (w_owners w !! x)) as Hdom.
  { intros x. destruct (decide (x = so)) as [->|]; [rewrite lookup_insert_eq|by rewrite lookup_insert_ne].
    rewrite Ho. by split. }
  pose proof H as [].
  split; try done; cbn [w_states w_owners w_fresh set_w_owners].
  - intros p Hp. rewrite Hdom in Hp. by apply si_fresh0.
  - intros p s x Hp Hx. destruct (si_linked0 p s x Hp Hx) as (? & u & Hu & ?). split; [done|].
    destruct (decide (x = so)) as [->|]; [rewrite lookup_insert_eq|rewrite lookup_insert_ne by done; eauto].
    assert (u = o) as -> by congruence. exists o'. by rewrite Et, Es.
  - intros x u p [[<- <-]|[_ Hx]]%lookup_insert_Some; [rewrite Es; by apply si_owner0|by apply si_owner0].
  - intros x u [[<- <-]|[_ Hx]]%lookup_insert_Some Hty.
    + rewrite Et in Hty. destruct Er as [->|(r & -> & Hr)]; [|exists r; by rewrite Hdom].
      destruct (si_related0 so o Ho Hty) as (r & ? & ?). exists r. by rewrite Hdom.
    + destruct (si_related0 x u Hx Hty) as (r & ? & ?). exists r. by rewrite Hdom.
  - intros n x Hx. destruct (si_name0 n x Hx) as (u & Hu & E). destruct (decide (x = so)) as [->|].
    + rewrite lookup_insert_eq. exists o'. split; [done|]. assert (u = o) as -> by congruence. congruence.
    + rewrite lookup_insert_ne by done. eauto.
Qed.

Lemma owner_recs_put w so o o' :
  w_owners w !! so = Some o -> so_clientrec o' = so_clientrec o ->
  owner_recs (set_w_owners (<[so := o']> (w_owners w)) w) = owner_recs w.
Proof.
  intros Ho E. unfold owner_recs. cbn. rewrite fmap_insert, E. apply insert_id. by rewrite lookup_fmap, Ho.
Qed.

Lemma cinv_owner L R w so o o' :
  cinv L R w -> w_owners w !! so = Some o -> so_clientrec o' = so_clientrec o ->
  cinv L R (set_w_owners (<[so := o']> (w_owners w)) w).
Proof. intros [Hc Hin] Ho E. split; [done|]. by rewrite (owner_recs_put w so o o'). Qed.

Lemma fewer_recs w w' : fewer w w' -> owner_recs w' = owner_recs w.
Proof. intros Hf. unfold owner_recs. by rewrite (fw_owners _ _ Hf). Qed.

Lemma cinv_fewer L R w w' : cinv L R w -> fewer w w' -> w_clients w' = w_clients w -> cinv L R w'.
Proof. intros [Hc Hin] Hf E. split; [by rewrite E|]. by rewrite (fewer_recs _ _ Hf). Qed.

Lemma cinv_clients L L' R R' w c :
  cinv L R w -> cl_holds L' R' c -> L ⊆+ L' -> cinv L' R' (set_clients c w).
Proof. intros [_ Hin] Hc HL. split; [done|]. by etrans. Qed.

Lemma sinv_clients held w c : sinv held w -> sinv held (set_clients c w).
Proof. intros []. by split. Qed.

Lemma get_confirmed_st held L R w n (Q : clientid_status_t * option positive -> world -> Prop) :
  sinv held w -> cinv L R w ->
  (forall rc found w', sinv held w' -> cinv (option_list found ++ L) R w' -> fewer w w' ->
     (found = None -> rc <> CLIENT_ID_SUCCESS) -> Q (rc, found) w') ->
  swp (on_clients (nfs_client_id_get_confirmed n)) Q w.
Proof.
  intros H Hc HQ. destruct (cl_get_ok L R (w_clients w) n (proj1 Hc)) as (rc & found & c & E & Hrc & Hc').
  eapply swp_on_clients; [exact E|]. apply HQ; [by apply sinv_clients| |apply fewer_clients|apply Hrc].
  eapply cinv_clients; [done|done|]. by apply submseteq_inserts_l.
Qed.

Lemma cl_reserve_st held L R w p (Q : bool -> world -> Prop) :
  sinv held w -> cinv L R w -> p ∈ L ->
  (forall b w', sinv held w' -> cinv L (if b : bool then p :: R else R) w' -> fewer w w' -> Q b w') ->
  swp (on_clients (cl_reserve_lease p)) Q w.
Proof.
  intros H Hc Hp HQ. destruct (cl_reserve_ok L R (w_clients w) p (proj1 Hc) Hp) as (b & c & E & Hc').
  eapply swp_on_clients; [exact E|]. apply HQ; [by apply sinv_clients|by eapply cinv_clients|apply fewer_clients].
Qed.

Lemma cl_update_st held L R w p (Q : unit -> world -> Prop) :
  sinv held w -> cinv L (p :: R) w -> p ∈ L ->
  (forall w', sinv held w' -> cinv L R w' -> fewer w w' -> Q tt w') ->
  swp (on_clients (cl_update_lease p)) Q w.
Proof.
  intros H Hc Hp HQ. destruct (cl_update_ok L R (w_clients w) p (proj1 Hc) Hp) as (c & E & Hc').
  eapply swp_on_clients; [exact E|]. apply HQ; [by apply sinv_clients|by eapply cinv_clients|apply fewer_clients].
Qed.

Lemma cl_inc_st held L R w p (Q : unit -> world -> Prop) :
  sinv held w -> cinv L R w -> p ∈ L ->
  (forall w', sinv held w' -> cinv (p :: L) R w' -> fewer w w' -> Q tt w') ->
  swp (on_clients (cl_inc_client_id_ref p)) Q w.
Proof.
  intros H Hc Hp HQ. destruct (cl_inc_ok L R (w_clients w) p (proj1 Hc) Hp) as (c & E & Hc').
  eapply swp_on_clients; [exact E|]. apply HQ; [by apply sinv_clients| |apply fewer_clients].
  eapply cinv_clients; [done|done|]. by constructor.
Qed.

(** The reference that is given back is not one of an owner. *)
Lemma cl_dec_st held L R w p (Q : unit -> world -> Prop) :
  sinv held w -> cinv (p :: L) R w -> (p ∈ R -> p ∈ L) ->
  (map_to_list (owner_recs w)).*2 ⊆+ L ->
  (forall w', sinv held w' -> cinv L R w' -> fewer w w' -> Q tt w') ->
  swp (on_clients (cl_dec_client_id_ref p)) Q w.
Proof.
  intros H Hc Hp Hin HQ. destruct (cl_dec_ok L R (w_clients w) p (proj1 Hc) Hp) as (c & E & Hc').
  eapply swp_on_clients; [exact E|]. apply HQ; [by apply sinv_clients|by split|apply fewer_clients].
Qed.

(** ** Freeing an owner *)

Lemma owner_unused_ok so o w : owner_unused so o w = true ->
  so_states o = [] /\ forall x u, w_owners w !! x = Some u -> so_related_owner u <> Some so.
Proof.
  unfold owner_unused. rewrite !andb_true_iff, !bool_decide_eq_true. intros [[Hs _] Hall]. split; [done|].
  intros x u Hx E. rewrite forallb_forall in Hall. specialize (Hall (x, u)).
  rewrite <- list_elem_of_In, elem_of_map_to_list in Hall. specialize (Hall Hx). cbn in Hall.
  by rewrite bool_decide_true in Hall.
Qed.

Lemma sinv_free_owner held w so o :
  sinv held w -> w_owners w !! so = Some o -> owner_unused so o w = true ->
  sinv held (set_w_owners (delete so (w_owners w))
    (set_ht_owner (filter (fun x => snd x <> so) (ht_nfs4_owner w)) w)).
Proof.
  intros H Ho [Hst Hrel]%owner_unused_ok. pose proof H as [].
  assert (forall x u, delete so (w_owners w) !! x = Some u -> w_owners w !! x = Some u) as Hfrom.
  { intros x u [_ Hx]%lookup_delete_Some. done. }
  split; try done; cbn [w_states w_owners w_fresh ht_nfs4_owner set_w_owners set_ht_owner].
  - intros x [Hx|[u Hx%Hfrom]]; apply si_fresh0; [by left|right; eauto].
  - intros p s x Hp Hx. destruct (si_linked0 p s x Hp Hx) as (? & u & Hu & Hin & ?). split; [done|]. exists u.
    split; [|done]. rewrite lookup_delete_ne; [done|]. intros <-. assert (u = o) as -> by congruence.
    rewrite Hst in Hin. by apply elem_of_nil in Hin.
  - intros x u p Hx%Hfrom. by apply si_owner0.
  - intros x u Hx%Hfrom Et. destruct (si_related0 x u Hx Et) as (r & Er & Hr). exists r. split; [done|].
    rewrite lookup_delete_ne; [done|]. intros <-. by apply (Hrel x u).
  - intros n x [Hx Hne]%map_lookup_filter_Some. cbn in Hne. destruct (si_name0 n x Hx) as (u & Hu & Et). exists u.
    by rewrite lookup_delete_ne.
Qed.

Lemma free_owner_st held L R w so o (Q : unit -> world -> Prop) :
  sinv held w -> cinv L R w -> w_owners w !! so = Some o ->
  (so_clientrec o ∈ R -> exists x u, x <> so /\ w_owners w !! x = Some u /\ so_clientrec u = so_clientrec o) ->
  Q tt w ->
  (forall w' L', sinv held w' -> cinv L' R w' -> (forall q, q ∈ L -> q ∈ R \/ q <> so_clientrec o -> q ∈ L') -> Q tt w') ->
  swp (free_owner so) Q w.
Proof.
  intros H [Hc Hin] Ho Hres H0 HQ. unfold free_owner. do 2 swp_step. destruct (owner_unused so o w) eqn:Eu; cbn [negb];
    [|by apply swp_ret]. do 2 (apply swp_bind, swp_change).
  set (w1 := set_w_owners _ _). set (c := so_clientrec o) in *.
  assert (sinv held w1) as H1 by exact (sinv_free_owner held w so o H Ho Eu).
  assert (owner_recs w1 = delete so (owner_recs w)) as Er by (unfold owner_recs; cbn; by rewrite fmap_delete).
  assert ((map_to_list (owner_recs w)).*2 ≡ₚ c :: (map_to_list (owner_recs w1)).*2) as Hperm.
  { rewrite Er, <- (map_to_list_delete (owner_recs w) so c); [done|]. unfold owner_recs. by rewrite lookup_fmap, Ho. }
  rewrite Hperm in Hin. apply submseteq_cons_l in Hin as (L' & HL & Hin).
  assert (forall q, q ∈ L -> q ∈ R \/ q <> c -> q ∈ L') as HL'.
  { intros q Hq Hcase. rewrite HL in Hq. apply elem_of_cons in Hq as [->|Hq]; [|done].
    destruct Hcase as [Hr|?]; [|done]. destruct (Hres Hr) as (x & u & Hne & Hx & <-).
    eapply recs_in; [exact Hin|]. cbn. by rewrite lookup_delete_ne. }
  eapply (cl_dec_st held L' R); [exact H1| | |exact Hin|].
  - split; [|by constructor]. eapply cl_perm; [exact HL|reflexivity|exact Hc].
  - intros Hr. apply HL'; [|by left]. rewrite HL. by left.
  - intros w' H' Hc' _. by eapply HQ.
Qed.
End invariant.
