(* ===== verification/StateSafe.v ===== *)
(** * States of NFSv4: the operations are safe

    Each operation of StateOps.v keeps the invariant of StateInv.v, gives back
    the references it took, and ends: no freed state, owner or client id is
    used. *)
From S2P Require Import Prelude Status Owners ClientData ClientInv StateTable StateOps StateInv.

(** The leases that other compounds have reserved. *)
Class Others := others : list positive.

Section safe.
Context {Cl : Clients} {Ob : Objects} {CLaws : ClientsLaws} {Lose : MayLose} {Oth : Others}.

(** ** The lease that is reserved *)

Definition pres (data : op_data) : list positive := option_list (od_preserved data) ++ others.

Definition data_ok (L : list positive) (data : op_data) : Prop := forall p, p ∈ pres data -> p ∈ L.

Lemma pres_same data data' : od_preserved data' = od_preserved data -> pres data' = pres data.
Proof. unfold pres. by intros ->. Qed.

Lemma data_ok_same L data data' : od_preserved data' = od_preserved data -> data_ok L data -> data_ok L data'.
Proof. intros E. unfold data_ok. by rewrite (pres_same _ _ E). Qed.

Lemma data_ok_more L L' data : (forall q, q ∈ L -> q ∈ L') -> data_ok L data -> data_ok L' data.
Proof. unfold data_ok. auto. Qed.

(** What a check leaves of the data of a compound. *)
Definition same_request (data data' : op_data) : Prop :=
  minorversion data' = minorversion data /\ session_clientid data' = session_clientid data /\
  current_obj data' = current_obj data /\ ctx_export data' = ctx_export data.

#[export] Instance same_request_preorder : PreOrder same_request.
Proof.
  split; [by repeat split|]. intros d1 d2 d3 (? & ? & ? & ?) (? & ? & ? & ?). repeat split; congruence.
Qed.

Lemma release_preserved_st held L w data (Q : op_data -> world -> Prop) :
  sinv held w -> cinv L (pres data) w -> data_ok L data ->
  (forall data' w', sinv held w' -> cinv L (pres data') w' -> data_ok L data' -> od_preserved data' = None -> same_request data data' ->
     fewer w w' -> Q data' w') ->
  swp (release_preserved data) Q w.
Proof.
  intros H Hc Hd HQ. unfold release_preserved.
  destruct (od_preserved data) as [p|] eqn:E; [|by apply swp_ret, HQ].
  unfold data_ok, pres in Hc, Hd. rewrite E in Hc, Hd. apply swp_bind.
  eapply cl_update_st; [done|exact Hc|by apply Hd; left|].
  intros w' H' Hc' Hf. apply swp_ret, HQ; try done. intros q Hq. apply Hd. by right.
Qed.

Lemma check_lease_st held L w c data (Q : bool * op_data -> world -> Prop) :
  sinv held w -> cinv L (pres data) w -> data_ok L data -> c ∈ L ->
  (forall b data' w', sinv held w' -> cinv L (pres data') w' -> data_ok L data' -> same_request data data' ->
     fewer w w' -> Q (b, data') w') ->
  swp (check_lease c data) Q w.
Proof.
  intros H Hc Hd Hin HQ. unfold check_lease. destruct (bool_decide _); [by apply swp_ret, HQ|].
  apply swp_bind. eapply release_preserved_st; [done..|]. intros data1 w1 H1 Hc1 Hd1 Hn Hs1 Hf1.
  apply swp_bind. eapply cl_reserve_st; [done|exact Hc1|done|]. intros b w2 H2 Hc2 Hf2.
  apply swp_ret, HQ; [done| | |by destruct b|by etrans]; destruct b; try done.
  - unfold pres in Hc2. by rewrite Hn in Hc2.
  - intros p [->|Hp]%elem_of_cons; [done|]. apply Hd1. unfold pres. by rewrite Hn.
Qed.

(** ** Checking a stateid *)

Lemma check_failure_st held L w status o data (Q : nfsstat4 * option positive * op_data -> world -> Prop) :
  sinv (option_list o ++ held) w -> cinv L (pres data) w ->
  (forall data' w', sinv held w' -> cinv L (pres data') w' -> od_preserved data' = od_preserved data ->
     same_request data data' -> fewer w w' -> Q (status, None, data') w') ->
  swp (check_failure status o data) Q w.
Proof.
  intros H Hc HQ. unfold check_failure. apply swp_bind. eapply drop_state_st; [exact H|].
  intros w' H' Hf Ec. apply swp_ret, HQ; try done. by eapply cinv_fewer.
Qed.

(** The stateid that is looked up. *)
Definition resolved (id : stateid4) (data : op_data) : stateid4 :=
  if bool_decide (other id = all_zero) then current_stateid data else id.

(** The flags of CLOSE. *)
Definition closing (flags : Z) : bool :=
  has_flag flags (Z.lor STATEID_SPECIAL_CLOSE_40 STATEID_SPECIAL_CLOSE_41).

(** What a check says of the state it finds, in the world before. *)
Definition found_ok (id : stateid4) (data : op_data) (flags owner_seqid : Z) (check_seqid : bool)
    (w : world) (status : nfsstat4) (p : positive) : Prop :=
  (status = NFS4_OK \/ status = NFS4ERR_REPLAY) /\
  exists s so o, w_states w !! p = Some s /\ state_owner s = Some so /\ w_owners w !! so = Some o /\
    ht_state_id w !! other (resolved id data) = Some p /\
    (status = NFS4ERR_REPLAY -> check_seqid = true /\ so_seqid o = owner_seqid) /\
    (status = NFS4_OK -> closing flags = false -> has_flag flags STATEID_SPECIAL_FREE = true -> may_free s = true).

(** The flags that let a check succeed without a state. *)
Definition without_state (flags : Z) : bool :=
  closing flags || has_flag flags STATEID_SPECIAL_ALL_0 || has_flag flags STATEID_SPECIAL_ALL_1.

Lemma check_seq_replay s o sq owner_seqid check_seqid :
  check_seq s o sq owner_seqid check_seqid = seq_replay -> check_seqid = true /\ so_seqid o = owner_seqid.
Proof.
  unfold check_seq. intros E. repeat case_match; try done.
  - apply andb_true_iff in H1 as [[-> _]%andb_true_iff ->%Z.eqb_eq]. done.
  - apply andb_true_iff in H1 as [[_ ->]%andb_true_iff ->%Z.eqb_eq]. done.
Qed.

Section check.
Context (held L : list positive) (id : stateid4) (data : op_data) (flags owner_seqid : Z) (check_seqid : bool).
Context (w : world) (Q : nfsstat4 * option positive * op_data -> world -> Prop).
Hypothesis H : sinv held w.
Hypothesis Hc : cinv L (pres data) w.
Hypothesis Hd : data_ok L data.
Hypothesis HQ : forall status found data' L' w',
  sinv (option_list found ++ held) w' -> cinv L' (pres data') w' -> data_ok L' data' ->
  (forall q, q ∈ L -> q ∈ L') -> same_request data data' -> fewer w w' ->
  match found with
  | Some p => found_ok id data flags owner_seqid check_seqid w status p
  | None => status <> NFS4_OK /\ status <> NFS4ERR_REPLAY \/ status = NFS4_OK /\ without_state flags = true
  end -> Q (status, found, data') w'.

(** An error that gives back what was found. *)
Lemma check_error status o data1 w1 :
  sinv (option_list o ++ held) w1 -> cinv L (pres data1) w1 -> data_ok L data1 -> same_request data data1 ->
  fewer w w1 -> status <> NFS4_OK -> status <> NFS4ERR_REPLAY ->
  swp (check_failure status o data1) Q w1.
Proof.
  intros H1 Hc1 Hd1 Hs1 Hf1 Hne Hnr. eapply check_failure_st; [done|done|].
  intros data2 w2 H2 Hc2 Ed Hs2 Hf2. apply (HQ status None data2 L w2); try done; [|by etrans|by etrans|by left].
  by eapply data_ok_same.
Qed.

(** The state that was found and whose object was not. *)
Definition stale_ok (o : option positive) : Prop :=
  match o with
  | Some p => exists s so ow, w_states w !! p = Some s /\ state_owner s = Some so /\ w_owners w !! so = Some ow /\
                ht_state_id w !! other (resolved id data) = Some p
  | None => True
  end.

Lemma stale_closed o data' L' w' :
  stale_ok o -> closing flags = true -> sinv (option_list o ++ held) w' -> cinv L' (pres data') w' -> data_ok L' data' ->
  (forall q, q ∈ L -> q ∈ L') -> same_request data data' -> fewer w w' -> Q (NFS4_OK, o, data') w'.
Proof.
  intros Hst Ef H' Hc' Hd' HL Hs Hf. apply (HQ NFS4_OK o data' L'); try done. destruct o as [p|].
  - split; [by left|]. destruct Hst as (s & so & ow & Hp & Hso & Ho & Hi). exists s, so, ow. split_and!; try done. congruence.
  - right. split; [done|]. unfold without_state. by rewrite Ef.
Qed.

(** CLOSE succeeds without the object. *)
Lemma check_close_st o c w1 :
  stale_ok o -> closing flags = true -> sinv (option_list o ++ held) w1 -> cinv (c :: L) (pres data) w1 -> fewer w w1 ->
  swp (data ← release_preserved data;
       valid ← on_clients (cl_reserve_lease c);
       if negb valid then check_failure NFS4ERR_EXPIRED o data else
       data ← (if has_flag flags STATEID_SPECIAL_CLOSE_40
               then on_clients (cl_update_lease c);; mret data
               else mret (set_od_preserved (Some c) data));
       mret (NFS4_OK, o, set_valid false data)) Q w1.
Proof.
  intros Hst Ef H1 Hc1 Hf1. assert (forall q, q ∈ L -> q ∈ c :: L) as HL by (intros q Hq; by right).
  apply swp_bind. eapply (release_preserved_st _ (c :: L)); [done|done|by eapply data_ok_more|].
  intros data2 w2 H2 Hc2 Hd2 En Hs2 Hf2. apply swp_bind. eapply cl_reserve_st; [done|exact Hc2|by left|].
  intros b w3 H3 Hc3 Hf3. assert (fewer w w3) as Hf by (etrans; [done|]; by etrans).
  destruct b; cbn [negb].
  - destruct (has_flag flags STATEID_SPECIAL_CLOSE_40).
    + apply swp_bind, swp_bind. eapply cl_update_st; [done|exact Hc3|by left|]. intros w4 H4 Hc4 Hf4.
      apply swp_ret, swp_ret, (stale_closed o _ (c :: L)); try done. by etrans.
    + apply swp_bind, swp_ret, swp_ret, (stale_closed o _ (c :: L)); try done.
      * unfold pres in Hc3. by rewrite En in Hc3.
      * intros p [->|Hp]%elem_of_cons; [by left|]. apply Hd2. unfold pres. by rewrite En.
  - eapply check_failure_st; [exact H3|exact Hc3|].
    intros data4 w4 H4 Hc4 Ed Hs4 Hf4. apply (HQ NFS4ERR_EXPIRED None data4 (c :: L)); try done;
      [|by etrans|by etrans|by left]. by eapply data_ok_same.
Qed.

(** The reference to the client id is given back. *)
Lemma check_drop_client status o c data1 w1 :
  sinv (option_list o ++ held) w1 -> cinv (c :: L) (pres data1) w1 -> data_ok L data1 -> same_request data data1 ->
  fewer w w1 -> status <> NFS4_OK -> status <> NFS4ERR_REPLAY ->
  swp (on_clients (cl_dec_client_id_ref c);; check_failure status o data1) Q w1.
Proof.
  intros H1 Hc1 Hd1 Hs1 Hf1 Hn1 Hn2. apply swp_bind. eapply (cl_dec_st _ L); [done|exact Hc1|apply Hd1| |].
  - rewrite (fewer_recs _ _ Hf1). apply Hc.
  - intros w2 H2 Hc2 Hf2. eapply (check_error _ o); try done. by etrans.
Qed.

Lemma check_not_found_st clientid o w1 :
  stale_ok o -> sinv (option_list o ++ held) w1 -> cinv L (pres data) w1 -> fewer w w1 ->
  swp (check_not_found clientid flags o data) Q w1.
Proof.
  intros Hst H1 Hc1 Hf1. unfold check_not_found. apply swp_bind. eapply get_confirmed_st; [done|exact Hc1|].
  intros rc found w2 H2 Hc2 Hf2 Hrc. assert (fewer w w2) as Hf by by etrans. destruct found as [c|].
  2:{ eapply (check_error _ o); try done; destruct rc; by try specialize (Hrc eq_refl). }
  cbn [option_list app] in Hc2. fold (closing flags). destruct (closing flags) eqn:Ef; [by eapply check_close_st|].
  destruct o as [p|]; [|by eapply check_drop_client].
  apply swp_bind. eapply (cl_reserve_st _ (c :: L)); [done|exact Hc2|by left|]. intros b w3 H3 Hc3 Hf3.
  destruct b; cbn [negb]; [|eapply (check_drop_client _ (Some p)); try done; by etrans].
  apply swp_bind. eapply (cl_update_st _ (c :: L)); [done|exact Hc3|by left|]. intros w4 H4 Hc4 Hf4.
  eapply (check_drop_client _ (Some p)); try done. etrans; [done|]. by etrans.
Qed.

Lemma check_found_st fsal_obj p n s so o obj2 w1 :
  sinv (p :: held) w1 -> cinv L (pres data) w1 -> fewer w w1 ->
  w_states w !! p = Some s -> w_states w1 !! p = Some (set_state_refcount n s) ->
  state_owner s = Some so -> w_owners w !! so = Some o -> ht_state_id w !! other (resolved id data) = Some p ->
  swp (check_found (resolved id data) fsal_obj flags owner_seqid check_seqid p obj2 so data) Q w1.
Proof.
  intros H1 Hc1 Hf1 Hp Hp1 Hso Ho Hi.
  assert (w_owners w1 !! so = Some o) as Ho1 by (by rewrite (fw_owners _ _ Hf1)).
  unfold check_found. do 2 swp_step. apply swp_bind. eapply check_lease_st; [done|done|done|by eapply recs_in; [apply Hc1|]|].
  intros b data2 w2 H2 Hc2 Hd2 Hs2 Hf2. assert (fewer w w2) as Hf by by etrans.
  destruct b; cbn [negb]; [|by eapply (check_error _ (Some p))].
  case_match; [by eapply (check_error _ (Some p))|].
  change (check_seq (set_state_refcount n s)) with (check_seq s). change (may_free (set_state_refcount n s)) with (may_free s).
  destruct (check_seq s o _ _ _) eqn:Es; try by eapply (check_error _ (Some p)).
  - destruct (has_flag flags STATEID_SPECIAL_FREE) eqn:Ef; [destruct (may_free s) eqn:Em|]; cbn [negb andb];
      try by eapply (check_error _ (Some p)).
    all: apply swp_ret, (HQ NFS4_OK (Some p) _ L); try done.
    all: split; [by left|]; exists s, so, o; repeat (split; [done|]); congruence.
  - apply swp_ret, (HQ NFS4ERR_REPLAY (Some p) _ L); try done.
    split; [by right|]. exists s, so, o. repeat (split; [done|]). split; [|done].
    intros _. by eapply check_seq_replay.
Qed.

Lemma check_it_st fsal_obj :
  swp (check_it (resolved id data) fsal_obj data flags owner_seqid check_seqid) Q w.
Proof.
  unfold check_it. case_match; [by eapply (check_error _ None)|]. apply swp_bind.
  eapply get_pointer_st; [done|..].
  - intros _. apply swp_bind, swp_ret. by apply check_not_found_st.
  - intros p s Hi Hp w1 H1 Hf1. destruct (si_id _ _ H _ _ Hi) as (s' & Hp' & _ & Hl).
    assert (s' = s) as -> by congruence. destruct (state_owner s) as [so|] eqn:Hso; [|by unfold linked in Hl; rewrite Hso in Hl].
    destruct (si_linked _ _ H p s so Hp Hso) as (_ & o & Ho & _).
    apply swp_bind. unfold get_state_obj_owner_refs. apply swp_bind.
    assert (w_states w1 !! p = Some (set_state_refcount (state_refcount s + 1) s)) as Hp1
      by (subst w1; cbn; by rewrite lookup_insert_eq).
    assert (cinv L (pres data) w1) as Hc1 by by eapply cinv_fewer.
    eapply swp_get_state; [exact Hp1|]. swp_step. apply swp_ret. cbn [state_owner set_state_refcount]. rewrite Hso.
    destruct (get_state_obj_ref _ w1) as [obj|]; cbn; [by eapply check_found_st|].
    eapply (check_not_found_st _ (Some p)); [|done..]. by exists s, so, o.
Qed.

Lemma check_special f :
  f = STATEID_SPECIAL_ALL_0 \/ f = STATEID_SPECIAL_ALL_1 -> has_flag flags f = true ->
  Q (NFS4_OK, None, set_valid false data) w.
Proof.
  intros Hf Ef. apply (HQ NFS4_OK None _ L); try done. right. split; [done|]. unfold without_state.
  destruct Hf as [-> | ->]; rewrite Ef; by rewrite ?orb_true_r.
Qed.

Lemma nfs4_Check_Stateid_st fsal_obj :
  swp (nfs4_Check_Stateid id fsal_obj data flags owner_seqid check_seqid) Q w.
Proof.
  assert (swp (check_failure NFS4ERR_BAD_STATEID None data) Q w) as Hbad by (by eapply (check_error _ None)).
  pose proof (check_it_st fsal_obj) as Hit. unfold resolved in Hit. unfold nfs4_Check_Stateid.
  destruct (bool_decide (other id = all_zero)) eqn:E0;
    [|destruct (bool_decide (other id = all_ones)) eqn:E1; [|exact Hit]].
  - destruct (_ && has_flag flags STATEID_SPECIAL_ALL_0) eqn:Ef.
    { apply andb_true_iff in Ef as [_ Ef]. apply swp_ret. eapply check_special; [by left|exact Ef]. }
    destruct (_ && has_flag flags STATEID_SPECIAL_CURRENT); [|exact Hbad].
    destruct (current_stateid_valid data); assumption.
  - destruct (_ && has_flag flags STATEID_SPECIAL_ALL_1) eqn:Ef; [|exact Hbad].
    apply andb_true_iff in Ef as [_ Ef]. apply swp_ret. eapply check_special; [by right|exact Ef].
Qed.
End check.

(** ** Steps that operations share *)

(** The state that a check found, with its owner. *)
Record found_at (w : world) (p so : positive) (s : state_t) (o : nfs4_owner) : Prop := {
  fa_state : w_states w !! p = Some s;
  fa_of : state_owner s = Some so;
  fa_owner : w_owners w !! so = Some o;
  fa_hashed : hashed w p s
}.

(** What was found, after the check. *)
Lemma found_now held id data flags sq cs w w1 status p :
  sinv held w -> found_ok id data flags sq cs w status p -> fewer w w1 ->
  (status = NFS4_OK \/ status = NFS4ERR_REPLAY) /\
  exists s so o, found_at w1 p so s o /\ ht_state_id w !! other (resolved id data) = Some p /\
    (status = NFS4ERR_REPLAY -> cs = true /\ so_seqid o = sq) /\
    (status = NFS4_OK -> closing flags = false -> has_flag flags STATEID_SPECIAL_FREE = true -> may_free s = true).
Proof.
  intros H (Hst & s & so & o & Hp & Hso & Ho & Hi & Hr & Hm) Hf. split; [done|].
  destruct (fw_to _ _ Hf p s Hp) as (s1 & Hp1 & E1); [unfold linked; by rewrite Hso|].
  destruct (si_id _ _ H _ _ Hi) as (s' & Hp' & Ei & _). assert (s' = s) as -> by congruence.
  exists s1, so, o. split; [|split_and!; try done; by rewrite E1].
  split; [done|by rewrite E1|by rewrite (fw_owners _ _ Hf)|]. unfold hashed. rewrite E1. cbn. by rewrite (fw_id _ _ Hf), Ei.
Qed.

Lemma no_state_error flags status :
  without_state flags = false ->
  status <> NFS4_OK /\ status <> NFS4ERR_REPLAY \/ status = NFS4_OK /\ without_state flags = true ->
  status <> NFS4_OK /\ status <> NFS4ERR_REPLAY.
Proof. intros Hw [?|[_ Hw']]; [done|congruence]. Qed.

Lemma found_status status : status = NFS4_OK \/ status = NFS4ERR_REPLAY ->
  negb (bool_decide (status = NFS4_OK)) && negb (bool_decide (status = NFS4ERR_REPLAY)) = false.
Proof. by intros [-> | ->]. Qed.

(** Owners and linked states stay what they are. *)
Record keeps (w w' : world) : Prop := {
  kp_states p s : w_states w !! p = Some s -> linked s = true ->
    exists s', w_states w' !! p = Some s' /\ same_shape s s';
  kp_owners so o : w_owners w !! so = Some o ->
    exists o', w_owners w' !! so = Some o' /\ so_type o' = so_type o /\ so_clientrec o' = so_clientrec o;
  kp_ids : ht_state_id w' = ht_state_id w
}.

#[export] Instance keeps_preorder : PreOrder keeps.
Proof.
  split.
  - intros w. split; eauto. by intros p s Hp _; exists s.
  - intros w1 w2 w3 [S1 O1 I1] [S2 O2 I2]. split; [| |congruence].
    + intros p s Hp Hl. destruct (S1 p s Hp Hl) as (s' & Hp' & E'). destruct (S2 p s' Hp') as (s'' & Hp'' & E'').
      { by rewrite (same_linked _ _ E'). }
      exists s''. split; [done|]. by etrans.
    + intros so o Ho. destruct (O1 so o Ho) as (o' & Ho' & E1 & E2). destruct (O2 so o' Ho') as (o'' & Ho'' & E3 & E4).
      exists o''. split; [done|]. split; congruence.
Qed.

Lemma keeps_fewer w w' : fewer w w' -> keeps w w'.
Proof.
  intros Hf. split; [| |apply Hf].
  - intros p s Hp Hl. destruct (fw_to _ _ Hf p s Hp Hl) as (s' & Hp' & E). eauto using same_but_refs_shape.
  - rewrite (fw_owners _ _ Hf). eauto.
Qed.

Lemma keeps_put w p s s' :
  w_states w !! p = Some s -> same_shape s s' -> keeps w (set_states (<[p := s']> (w_states w)) w).
Proof.
  intros Hp Hsh. split; [|cbn; eauto|done]. intros q t Hq _.
  destruct (similar_to _ _ q t (similar_put w p s s' Hp Hsh) Hq) as (t' & Ht & E). eauto.
Qed.

Lemma keeps_owner w so o o' :
  w_owners w !! so = Some o -> so_type o' = so_type o -> so_clientrec o' = so_clientrec o ->
  keeps w (set_w_owners (<[so := o']> (w_owners w)) w).
Proof.
  intros Ho Et Ec. split; cbn; [intros p s Hp _; by exists s| |done]. intros x u Hx.
  destruct (decide (x = so)) as [->|Hne]; [rewrite lookup_insert_eq|rewrite lookup_insert_ne by done; eauto].
  assert (u = o) as -> by congruence. eauto.
Qed.

(** And the client ids are not touched. *)
Record calm (w w' : world) : Prop := {
  cm_keeps : keeps w w';
  cm_clients : w_clients w' = w_clients w;
  cm_recs : owner_recs w' = owner_recs w;
  cm_gone : w_gone w' = w_gone w
}.

#[export] Instance calm_preorder : PreOrder calm.
Proof.
  split; [intros w; split; eauto; reflexivity|]. intros w1 w2 w3 [K1 C1 B1 G1] [K2 C2 B2 G2].
  split; [by etrans|congruence..].
Qed.

Lemma calm_fewer w w' : fewer w w' -> w_clients w' = w_clients w -> calm w w'.
Proof. intros Hf Ec. split; [by apply keeps_fewer|done|by apply fewer_recs|apply Hf]. Qed.

Lemma calm_put w p s s' :
  w_states w !! p = Some s -> same_shape s s' -> calm w (set_states (<[p := s']> (w_states w)) w).
Proof. intros Hp Hsh. split; [by eapply keeps_put|done..]. Qed.

Lemma calm_owner w so o o' :
  w_owners w !! so = Some o -> so_type o' = so_type o -> so_clientrec o' = so_clientrec o ->
  calm w (set_w_owners (<[so := o']> (w_owners w)) w).
Proof. intros Ho Et Ec. split; [by eapply keeps_owner|done|by eapply owner_recs_put|done]. Qed.

(** The references [D] of the caller besides those that owners need. *)
Definition cinv_with (D L R : list positive) (w : world) : Prop :=
  cl_holds (D ++ L) R (w_clients w) /\ (map_to_list (owner_recs w)).*2 ⊆+ L.

Lemma cinv_calm D L R w w' : cinv_with D L R w -> calm w w' -> cinv_with D L R w'.
Proof.
  intros [Hc Ho] Hm. by split; rewrite ?(cm_clients _ _ Hm), ?(cm_recs _ _ Hm).
Qed.

Lemma cinv_forget D L R w : cinv_with D L R w -> cinv (D ++ L) R w.
Proof. intros [Hc Ho]. split; [done|]. by apply submseteq_inserts_l. Qed.

Lemma next_seqid_range n : 0 <= next_seqid n < 4294967296.
Proof. unfold next_seqid, u32. pose proof (Z.mod_pos_bound (n + 1) 4294967296). destruct (_ =? _); lia. Qed.

Section steps.
Context (held : list positive) (w : world).
Hypothesis H : sinv held w.

Lemma upd_state_st p s f (Q : unit -> world -> Prop) :
  w_states w !! p = Some s -> same_shape s (f s) -> state_refcount (f s) = state_refcount s ->
  state_seqid (f s) = state_seqid s ->
  (forall w', sinv held w' -> calm w w' -> w_states w' !! p = Some (f s) -> Q tt w') ->
  swp (upd_state p f) Q w.
Proof.
  intros Hp Hsh Er Eq HQ. swp_step. apply HQ; [|by eapply calm_put|].
  { eapply sinv_put; [exact H|exact Hp|done|done|by rewrite Eq]. }
  cbn. by rewrite lookup_insert_eq.
Qed.

Lemma upd_so_st so o f (Q : unit -> world -> Prop) :
  w_owners w !! so = Some o -> owner_kept w o (f o) ->
  (forall w', sinv held w' -> calm w w' -> Q tt w') ->
  swp (upd_so so f) Q w.
Proof.
  intros Ho Hk HQ. swp_step. destruct Hk as (E1 & E2 & Hk).
  apply HQ; [by eapply sinv_owner|by eapply calm_owner].
Qed.

Lemma copy_req_exact (b : bool) so o sq argop obj resp (Q : unit -> world -> Prop) :
  w_owners w !! so = Some o ->
  (forall w', sinv held w' -> calm w w' -> w_states w' = w_states w -> Q tt w') ->
  swp (if b then Copy_nfs4_state_req (Some so) sq argop obj resp else mret tt) Q w.
Proof.
  intros Ho HQ. destruct b; [|by apply swp_ret, HQ]. unfold Copy_nfs4_state_req. swp_step.
  apply HQ; [|by eapply calm_owner|done]. eapply sinv_owner; [done|done|]. by repeat split; left.
Qed.

Lemma copy_req_st (b : bool) so o sq argop obj resp (Q : unit -> world -> Prop) :
  w_owners w !! so = Some o ->
  (forall w', sinv held w' -> calm w w' -> Q tt w') ->
  swp (if b then Copy_nfs4_state_req (Some so) sq argop obj resp else mret tt) Q w.
Proof. intros Ho HQ. eapply copy_req_exact; [exact Ho|]. intros w' H' Hm _. by apply HQ. Qed.

Lemma update_stateid_exact p s data (Q : stateid4 * op_data -> world -> Prop) :
  w_states w !! p = Some s ->
  (forall i w', i = mk_stateid (next_seqid (state_seqid s)) (stateid_other s) -> sinv held w' -> calm w w' ->
     w_states w' !! p = Some (set_state_seqid (seqid i) s) -> Q (i, set_current i data) w') ->
  swp (update_stateid p data) Q w.
Proof.
  intros Hp HQ. unfold update_stateid. do 2 swp_step. swp_step. apply HQ; [done|..].
  - eapply sinv_put; [done|exact Hp|by repeat split|done|]. intros _. apply next_seqid_range.
  - eapply calm_put; [exact Hp|by repeat split].
  - cbn. by rewrite lookup_insert_eq.
Qed.

Lemma update_stateid_st p s data (Q : stateid4 * op_data -> world -> Prop) :
  w_states w !! p = Some s ->
  (forall i w', i = mk_stateid (next_seqid (state_seqid s)) (stateid_other s) -> sinv held w' -> calm w w' ->
     Q (i, set_current i data) w') ->
  swp (update_stateid p data) Q w.
Proof. intros Hp HQ. eapply update_stateid_exact; [exact Hp|]. intros i w' Ei H' Hm _. by apply HQ. Qed.

Lemma check_seqid_st (b : bool) so o sq argop obj resp (Q : bool * resop4 -> world -> Prop) :
  w_owners w !! so = Some o ->
  (forall go resp', (go = true -> b = true -> so_last_entry o <> None -> sq = u32 (so_seqid o + 1)) -> Q (go, resp') w) ->
  swp (if b then Check_nfs4_seqid (Some so) sq argop obj resp else mret (true, resp)) Q w.
Proof.
  intros Ho HQ. destruct b; [|by apply swp_ret, HQ]. unfold Check_nfs4_seqid. swp_step.
  destruct (so_last_entry o) as [last|] eqn:El; [|by apply swp_ret, HQ].
  destruct (Z.eqb_spec sq (u32 (so_seqid o + 1))) as [E|_]; [by apply swp_ret, HQ|].
  repeat case_match; by apply swp_ret, HQ.
Qed.
End steps.

Lemma dec_state_st held w p (Q : unit -> world -> Prop) :
  sinv (p :: held) w -> (forall w', sinv held w' -> calm w w' -> Q tt w') -> swp (dec_state_t_ref p) Q w.
Proof.
  intros H HQ. eapply dec_state_t_ref_st; [exact H|]. intros w' H' Hf E. apply HQ; [done|by apply calm_fewer].
Qed.

Lemma cinv_keep L R w w' : cinv L R w -> calm w w' -> cinv L R w'.
Proof. apply (cinv_calm []). Qed.

Lemma kept_owner w w' so o : keeps w w' -> w_owners w !! so = Some o -> exists o', w_owners w' !! so = Some o'.
Proof. intros Hk Ho. destruct (kp_owners _ _ Hk so o Ho) as (o' & ? & _). eauto. Qed.

Lemma kept_state w w' p s so : keeps w w' -> w_states w !! p = Some s -> state_owner s = Some so ->
  exists s', w_states w' !! p = Some s' /\ state_owner s' = Some so /\ same_shape s s'.
Proof.
  intros Hk Hp Hso. destruct (kp_states _ _ Hk p s Hp) as (s' & Hp' & Hsh); [unfold linked; by rewrite Hso|].
  exists s'. split; [done|]. split; [|done]. destruct Hsh as (_ & _ & _ & _ & -> & _). done.
Qed.

(** ** OPEN_CONFIRM and LOCKU *)

(** The answer to an operation, and the references it leaves. *)
Definition answers (held L : list positive) (Q : resop4 * op_data -> world -> Prop) : Prop :=
  forall resp data' L' w', sinv held w' -> cinv L' (pres data') w' -> data_ok L' data' ->
    (forall q, q ∈ L -> q ∈ L') -> Q (resp, data') w'.

Lemma answers_more held L L' Q : answers held L Q -> (forall q, q ∈ L -> q ∈ L') -> answers held L' Q.
Proof. intros HQ HL resp d L2 w' H Hc Hd HL2. apply (HQ resp d L2); auto. Qed.

Lemma drop_answer held L w p resp data Q :
  sinv (p :: held) w -> cinv L (pres data) w -> data_ok L data -> answers held L Q ->
  swp (dec_state_t_ref p;; mret (resp, data)) Q w.
Proof.
  intros H Hc Hd HQ. apply swp_bind. eapply dec_state_st; [exact H|].
  intros w' H' Hm. apply swp_ret, (HQ _ _ L); try done. by eapply cinv_keep.
Qed.

Lemma check_lock_st held L w id obj sq data (Q : nfsstat4 * option positive * op_data -> world -> Prop) :
  sinv held w -> cinv L (pres data) w -> data_ok L data ->
  (forall status data' L' w', sinv held w' -> cinv L' (pres data') w' -> data_ok L' data' ->
     (forall q, q ∈ L -> q ∈ L') -> status <> NFS4_OK -> status <> NFS4ERR_REPLAY -> Q (status, None, data') w') ->
  (forall status p s so o data' L' w', sinv (p :: held) w' -> cinv L' (pres data') w' -> data_ok L' data' ->
     (forall q, q ∈ L -> q ∈ L') -> same_request data data' -> fewer w w' ->
     status = NFS4_OK \/ status = NFS4ERR_REPLAY -> found_at w' p so s o ->
     (status = NFS4ERR_REPLAY -> v40 data = true /\ so_seqid o = sq) -> ht_state_id w !! other (resolved id data) = Some p ->
     Q (status, Some p, data') w') ->
  swp (nfs4_Check_Stateid id obj data STATEID_SPECIAL_FOR_LOCK sq (v40 data)) Q w.
Proof.
  intros H Hc Hd H0 H1. eapply nfs4_Check_Stateid_st; [done..|].
  intros status found data1 L1 w1 Hi1 Hc1 Hd1 HL1 Hs1 Hf1 Hok. destruct found as [p|].
  - destruct (found_now held _ _ _ _ _ _ w1 _ _ H Hok Hf1) as (Hst & s & so & o & Hat & Hi & Hr & _). by eapply H1.
  - destruct (no_state_error STATEID_SPECIAL_FOR_LOCK _ eq_refl Hok). by eapply H0.
Qed.

Lemma error_status status : status <> NFS4_OK -> status <> NFS4ERR_REPLAY ->
  negb (bool_decide (status = NFS4_OK)) && negb (bool_decide (status = NFS4ERR_REPLAY)) = true.
Proof. intros. by rewrite !bool_decide_false. Qed.

Lemma owner_of_st w p so s o (Q : option positive -> world -> Prop) :
  found_at w p so s o -> Q (Some so) w -> swp (owner_of p) Q w.
Proof. intros [Hp Hso _ _] HQ. unfold owner_of. swp_step. swp_step. by rewrite Hso. Qed.

Lemma keeps_found w w' p so s o : keeps w w' -> found_at w p so s o ->
  exists s' o', found_at w' p so s' o' /\ same_shape s s' /\ so_type o' = so_type o.
Proof.
  intros Hk [Hp Hso Ho Hh]. destruct (kept_state _ _ _ _ _ Hk Hp Hso) as (s' & Hp' & Hso' & Hsh).
  destruct (kp_owners _ _ Hk so o Ho) as (o' & Ho' & E1 & E2). exists s', o'. split; [|done]. split; try done.
  unfold hashed. rewrite (kp_ids _ _ Hk). by destruct Hsh as (-> & _).
Qed.

Lemma calm_found w w' p so s o : calm w w' -> found_at w p so s o ->
  exists s' o', found_at w' p so s' o' /\ same_shape s s' /\ so_type o' = so_type o.
Proof. intros [Hk _ _ _]. by apply keeps_found. Qed.

Lemma nfs4_op_open_confirm_st held L w fh_status id sq data Q :
  sinv held w -> cinv L (pres data) w -> data_ok L data -> answers held L Q ->
  swp (nfs4_op_open_confirm fh_status id sq data) Q w.
Proof.
  intros H Hc Hd HQ. unfold nfs4_op_open_confirm.
  destruct (0 <? minorversion data); [by apply swp_ret, (HQ _ _ L)|].
  destruct (negb _); [by apply swp_ret, (HQ _ _ L)|]. apply swp_bind. eapply check_lock_st; [done..| |].
  - intros status data1 L1 w1 H1 Hc1 Hd1 HL1 Hn1 Hn2. rewrite (error_status status) by done. by apply swp_ret, (HQ _ _ L1).
  - intros status p s so o data1 L1 w1 H1 Hc1 Hd1 HL1 Hs1 Hf1 Hst Hat _ _. rewrite (found_status _ Hst).
    apply swp_bind. eapply owner_of_st; [exact Hat|].
    apply swp_bind. eapply (check_seqid_st w1 true); [apply Hat|]. intros go resp _.
    destruct go; cbn [negb]; [|eapply drop_answer; [eassumption..|by eapply answers_more]].
    apply swp_bind. eapply swp_get_owner; [apply Hat|]. destruct (so_confirmed o).
    { eapply drop_answer; [eassumption..|by eapply answers_more]. }
    apply swp_bind. eapply upd_so_st; [done|apply Hat|by repeat split; left|]. intros w2 H2 Hm2.
    destruct (calm_found _ _ _ _ _ _ Hm2 Hat) as (s2 & o2 & Hat2 & _).
    apply swp_bind. eapply update_stateid_st; [done|apply Hat2|]. intros i w3 _ H3 Hm3.
    destruct (calm_found _ _ _ _ _ _ Hm3 Hat2) as (s3 & o3 & Hat3 & _).
    apply swp_bind. eapply (copy_req_st _ _ H3 true); [apply Hat3|]. intros w4 H4 Hm4.
    eapply (drop_answer _ L1); [done| |done|by eapply answers_more].
    eapply cinv_keep; [exact Hc1|]. etrans; [done|]. by etrans.
Qed.

(** What the lock manager leaves of a state and its owner. *)
Lemma set_locks_st {A} held w p so s o locks owner_locks (k : SM A) (Q : A -> world -> Prop) :
  sinv held w -> found_at w p so s o ->
  (forall s' o' w', sinv held w' -> calm w w' -> found_at w' p so s' o' -> same_shape s s' -> swp k Q w') ->
  swp (upd_state p (set_state_locklist locks);; upd_so so (set_so_lock_list owner_locks);; k) Q w.
Proof.
  intros H Hat HQ. apply swp_bind. eapply upd_state_st; [done|apply Hat|by repeat split|done|done|].
  intros w1 H1 Hm1 _. destruct (calm_found _ _ _ _ _ _ Hm1 Hat) as (s1 & o1 & Hat1 & Hsh & _).
  apply swp_bind. eapply upd_so_st; [done|apply Hat1|by repeat split; left|]. intros w2 H2 Hm2.
  destruct (calm_found _ _ _ _ _ _ Hm2 Hat1) as (s2 & o2 & Hat2 & Hsh2 & _).
  eapply HQ; [done|by etrans|done|by etrans].
Qed.

Lemma nfs4_op_locku_st held L w a id sq data Q :
  sinv held w -> cinv L (pres data) w -> data_ok L data -> answers held L Q ->
  swp (nfs4_op_locku a id sq data) Q w.
Proof.
  intros H Hc Hd HQ. unfold nfs4_op_locku.
  destruct (negb _); [by apply swp_ret, (HQ _ _ L)|]. apply swp_bind. eapply check_lock_st; [done..| |].
  - intros status data1 L1 w1 H1 Hc1 Hd1 HL1 Hn1 Hn2. rewrite (error_status status) by done. by apply swp_ret, (HQ _ _ L1).
  - intros status p s so o data1 L1 w1 H1 Hc1 Hd1 HL1 Hs1 Hf1 Hst Hat _ _. rewrite (found_status _ Hst).
    apply swp_bind. eapply owner_of_st; [exact Hat|].
    apply swp_bind. eapply check_seqid_st; [apply Hat|]. intros go resp _.
    destruct go; cbn [negb]; [|eapply drop_answer; [eassumption..|by eapply answers_more]].
    assert (forall s2 o2 data2 resp2 w2, sinv (p :: held) w2 -> calm w1 w2 ->
      od_preserved data2 = od_preserved data1 -> found_at w2 p so s2 o2 ->
      swp ((if v40 data2 then Copy_nfs4_state_req (Some so) sq OP_LOCKU (Some (current_obj data2)) resp2 else mret tt);;
           dec_state_t_ref p;; mret (resp2, data2)) Q w2) as Hend.
    { intros s2 o2 data2 resp2 w2 H2 Hm2 Ed Hat2. apply swp_bind. eapply copy_req_st; [exact H2|apply Hat2|].
      intros w3 H3 Hm3. eapply (drop_answer _ L1); [done| |by eapply data_ok_same|by eapply answers_more].
      rewrite (pres_same _ _ Ed). eapply cinv_keep; [exact Hc1|]. by etrans. }
    apply swp_bind. destruct (negb (l_range a)); [by eapply swp_ret, Hend|].
    eapply set_locks_st; [done|done|]. intros s2 o2 w2 H2 Hm2 Hat2 _.
    destruct (negb _); [by eapply swp_ret, Hend|].
    apply swp_bind. eapply update_stateid_st; [done|apply Hat2|]. intros i w3 _ H3 Hm3.
    destruct (calm_found _ _ _ _ _ _ Hm3 Hat2) as (s3 & o3 & Hat3 & _). eapply swp_ret, Hend; try done. by etrans.
Qed.

(** ** Owners that are made *)

Definition owner_type (opens : bool) : state_owner_type_t :=
  if opens then STATE_OPEN_OWNER_NFSV4 else STATE_LOCK_OWNER_NFSV4.

Lemma sinv_new_owner held w so o (n : owner_name) :
  sinv held w -> w_owners w !! so = None -> (so < w_fresh w)%positive -> so_states o = [] ->
  so_type o = owner_type (fst (fst n)) ->
  (so_type o = STATE_LOCK_OWNER_NFSV4 -> exists r, so_related_owner o = Some r /\ is_Some (w_owners w !! r)) ->
  sinv held (set_ht_owner (<[n := so]> (ht_nfs4_owner w)) (set_w_owners (<[so := o]> (w_owners w)) w)).
Proof.
  intros H Hnew Hlt Hst Hty Hrel.
  assert (forall x u, w_owners w !! x = Some u -> <[so := o]> (w_owners w) !! x = Some u) as Hold.
  { intros x u Hx. rewrite lookup_insert_ne; [done|]. intros ->. congruence. }
  assert (forall x, is_Some (w_owners w !! x) -> is_Some (<[so := o]> (w_owners w) !! x)) as Hdom.
  { intros x [u Hx]. eauto. }
  pose proof H as []. split; try done;
    cbn [w_states w_owners w_fresh ht_state_id ht_state_obj ht_nfs4_owner list_of_states exp_state_list set_w_owners set_ht_owner].
  - intros x [Hx|[u Hx]]; [by apply si_fresh; left|]. apply lookup_insert_Some in Hx as [[<- _]|[_ Hx]]; [done|].
    apply si_fresh. right. eauto.
  - intros p s x Hp Hx. destruct (si_linked p s x Hp Hx) as (? & u & Hu & ?). split; [done|]. exists u. eauto.
  - intros x u p Hx Hin. apply lookup_insert_Some in Hx as [[<- <-]|[_ Hx]]; [|by eapply si_owner].
    rewrite Hst in Hin. by apply elem_of_nil in Hin.
  - intros x u Hx Et. apply lookup_insert_Some in Hx as [[<- <-]|[_ Hx]].
    + destruct (Hrel Et) as (r & Er & Hr). eauto.
    + destruct (si_related x u Hx Et) as (r & Er & Hr). eauto.
  - intros m x Hx. apply lookup_insert_Some in Hx as [[<- <-]|[_ Hx]].
    + exists o. split; [by rewrite lookup_insert_eq|done].
    + destruct (si_name m x Hx) as (u & Hu & Et). eauto.
Qed.

Lemma keeps_new w w' so o :
  w_owners w !! so = None -> w_states w' = w_states w -> w_owners w' = <[so := o]> (w_owners w) ->
  ht_state_id w' = ht_state_id w -> keeps w w'.
Proof.
  intros Hnew Es Eo Ei. split; rewrite ?Es, ?Eo; [intros p s Hp _; by exists s| |done]. intros x u Hx. exists u.
  rewrite lookup_insert_ne; [done|]. intros ->. congruence.
Qed.

(** The owner was there, with the same sequence number. *)
Definition known_owner (w : world) (opens : bool) (name : list Z) (so : positive) (o : nfs4_owner) : Prop :=
  exists n o0, ht_nfs4_owner w !! (opens, n, name) = Some so /\ w_owners w !! so = Some o0 /\ so_seqid o = so_seqid o0.

Lemma create_owner_st held L R w (opens : bool) c name related (Q : option (positive * bool) -> world -> Prop) :
  sinv held w -> cinv_with [c] L R w ->
  (if opens then related = None else exists r, related = Some r /\ is_Some (w_owners w !! r)) ->
  Q None w ->
  (forall so isnew o L' w', sinv held w' -> cinv_with [c] L' R w' -> keeps w w' -> (forall q, q ∈ L -> q ∈ L') ->
     w_owners w' !! so = Some o -> so_type o = owner_type opens ->
     (isnew = false -> known_owner w opens name so o) -> Q (Some (so, isnew)) w') ->
  swp (create_nfs4_owner opens (Some c) name related) Q w.
Proof.
  intros H Hc Hrel H0 H1. unfold create_nfs4_owner. apply swp_bind. pose proof (cinv_forget _ _ _ _ Hc) as Hcl.
  assert (c ∈ [c] ++ L) as Hin by (by left).
  destruct (cl_number_ok _ R _ c (proj1 Hcl) Hin) as [number En]. unfold swp at 1. rewrite En. swp_step.
  destruct (ht_nfs4_owner w !! (opens, number, name)) as [so|] eqn:Ef.
  - destruct (si_name _ _ H _ so Ef) as (o & Ho & Et). swp_step.
    destruct related as [r|]; [destruct (so_related_owner o) as [r'|] eqn:Er|].
    + apply swp_ret. destruct (bool_decide (r' = r)); [|done]. eapply (H1 so false o L); try done. by exists number, o.
    + destruct opens; [done|]. destruct Hrel as (r0 & [= <-] & Hr).
      apply swp_bind. eapply swp_upd_so; [exact Ho|].
      assert (calm w (set_w_owners (<[so := set_so_related (Some r) o]> (w_owners w)) w)) as Hm by by eapply calm_owner.
      apply swp_ret. eapply (H1 so false (set_so_related (Some r) o) L); try done.
      * eapply sinv_owner; [exact H|exact Ho|]. do 3 (split; [reflexivity|]). right. by exists r.
      * by eapply cinv_calm.
      * apply Hm.
      * cbn. by rewrite lookup_insert_eq.
      * by exists number, o.
    + apply swp_ret. eapply (H1 so false o L); try done. by exists number, o.
  - swp_step. swp_step. assert (sinv held (set_fresh (Pos.succ (w_fresh w)) w)) as Hf.
    { eapply sinv_idle; [exact H|]. split; try done. cbn. lia. }
    apply swp_bind. eapply cl_inc_st; [exact Hf|exact Hcl|exact Hin|]. intros w1 Hs1 Hc1 Hf1.
    assert (w_owners w1 !! w_fresh w = None) as Hnew.
    { rewrite (fw_owners _ _ Hf1). cbn. destruct (w_owners w !! w_fresh w) as [u|] eqn:Eu; [|done].
      assert (w_fresh w < w_fresh w)%positive by (apply (si_fresh _ _ H); eauto). lia. }
    assert (w_fresh w < w_fresh w1)%positive as Hlt by (rewrite (fw_fresh _ _ Hf1); cbn; lia).
    do 2 swp_step. swp_step.
    match goal with |- context [<[w_fresh w := ?o]> _] => set (made := o) end.
    eapply (H1 (w_fresh w) true made (c :: L)).
    + refine (sinv_new_owner held w1 (w_fresh w) made (opens, number, name) Hs1 Hnew Hlt _ _ _); [done..|]. cbn. intros Et.
      destruct opens; [done|]. destruct Hrel as (r & -> & Hr). exists r. split; [done|]. by rewrite (fw_owners _ _ Hf1).
    + split; [apply Hc1|]. unfold owner_recs. cbn. rewrite fmap_insert, map_to_list_insert by (by rewrite lookup_fmap, Hnew).
      cbn. constructor. fold (owner_recs w1). rewrite (fewer_recs _ _ Hf1). apply Hc.
    + etrans; [|by eapply (keeps_new w1 _ (w_fresh w) made Hnew)].
      etrans; [|by apply keeps_fewer]. split; cbn; [intros p s Hp _; by exists s|eauto|done].
    + intros q Hq. by right.
    + cbn. by rewrite lookup_insert_eq.
    + by destruct opens.
    + done.
Qed.

(** ** LOCK *)

Lemma cinv_removed D L R p s so w w1 w' :
  cinv_with D L R w -> removed p s so w w1 -> fewer w1 w' -> w_clients w' = w_clients w -> cinv_with D L R w'.
Proof.
  intros [Hc Ho] Hr Hf Ec. split; [by rewrite Ec|]. by rewrite (fewer_recs _ _ Hf), (removed_recs _ _ _ _ _ Hr).
Qed.

Lemma drop_client_st held L R w c (Q : unit -> world -> Prop) :
  sinv held w -> cinv_with (option_list c) L R w -> (forall p, p ∈ R -> p ∈ L) ->
  (forall w', sinv held w' -> cinv L R w' -> fewer w w' -> Q tt w') ->
  swp (drop_client c) Q w.
Proof.
  intros H Hc HR HQ. destruct c as [c|]; cbn [drop_client]; [|by apply swp_ret, HQ].
  eapply (cl_dec_st held L R); [exact H|exact (cinv_forget [c] _ _ _ Hc)|apply HR|apply Hc|]. by auto.
Qed.

Lemma lock_out2_st held L w v resp data Q :
  sinv (option_list (lv_open v) ++ option_list (lv_state v) ++ held) w ->
  cinv_with (option_list (lv_client v)) L (pres data) w -> data_ok L data -> answers held L Q ->
  swp (lock_out2 v resp data) Q w.
Proof.
  intros H Hc Hd HQ. unfold lock_out2, drop_state. apply swp_bind. eapply drop_state_st; [exact H|].
  intros w1 H1 Hf1 E1. apply swp_bind. eapply drop_state_st; [exact H1|]. intros w2 H2 Hf2 E2.
  assert (cinv_with (option_list (lv_client v)) L (pres data) w2) as Hc2.
  { eapply cinv_calm; [exact Hc|]. etrans; by apply calm_fewer. }
  apply swp_bind. eapply drop_client_st; [exact H2|exact Hc2|exact Hd|].
  intros w3 H3 Hc3 _. by apply swp_ret, (HQ _ _ L).
Qed.

Lemma lock_out_st held L w v o resp data Q :
  sinv (option_list (lv_open v) ++ option_list (lv_state v) ++ held) w ->
  cinv_with (option_list (lv_client v)) L (pres data) w -> data_ok L data -> answers held L Q ->
  w_owners w !! lv_resp_owner v = Some o ->
  swp (lock_out v resp data) Q w.
Proof.
  intros H Hc Hd HQ Ho. unfold lock_out. apply swp_bind. eapply copy_req_st; [exact H|exact Ho|].
  intros w1 H1 Hm1. eapply lock_out2_st; [exact H1|by eapply cinv_calm|done..].
Qed.

(** A lock state has no lock states. *)
Lemma lock_state_alone held w p s :
  sinv held w -> w_states w !! p = Some s -> state_type_of s = STATE_TYPE_LOCK ->
  forall r t, r ∈ share_lockstates s -> w_states w !! r = Some t -> ~ hashed w r t.
Proof. intros H Hp Et r t Hin. destruct (si_share _ _ H p s Hp) as [_ Hall]. destruct (Hall r Hin). congruence. Qed.

Lemma lock_apply_st held L w a v so p s o ro new data Q :
  sinv (option_list (lv_open v) ++ p :: held) w -> lv_state v = Some p ->
  cinv_with (option_list (lv_client v)) L (pres data) w -> data_ok L data -> answers held L Q ->
  found_at w p so s o -> state_type_of s = STATE_TYPE_LOCK -> w_owners w !! lv_resp_owner v = Some ro ->
  swp (lock_apply a v so p new data) Q w.
Proof.
  intros H Ev Hc Hd HQ Hat Ht Hro. unfold lock_apply. eapply set_locks_st; [exact H|exact Hat|].
  intros s1 o1 w1 H1 Hm1 Hat1 Hsh1. pose proof (cinv_calm _ _ _ _ _ Hc Hm1) as Hc1.
  destruct (kp_owners _ _ (cm_keeps _ _ Hm1) _ _ Hro) as (ro1 & Hro1 & _).
  assert (state_type_of s1 = STATE_TYPE_LOCK) as Ht1 by (destruct Hsh1 as (_ & -> & _); done).
  destruct (negb _).
  - apply swp_bind. eapply copy_req_st; [exact H1|exact Hro1|]. intros w2 H2 Hm2.
    destruct (calm_found _ _ _ _ _ _ Hm2 Hat1) as (s2 & o2 & Hat2 & Hsh2 & _).
    pose proof (cinv_calm _ _ _ _ _ Hc1 Hm2) as Hc2. apply swp_bind. destruct new as [n|].
    + eapply state_del_st; [exact H2|apply Hat2|apply Hat2|apply Hat2|..].
      * eapply lock_state_alone; [exact H2|apply Hat2|]. destruct Hsh2 as (_ & -> & _). done.
      * intros _. eapply (lock_out2_st held L); [by rewrite Ev|done..].
      * intros w3 w4 Hr H4 Hf4 E4. eapply (lock_out2_st held L); [by rewrite Ev|by eapply cinv_removed|done..].
    + apply swp_ret. eapply (lock_out2_st held L); [by rewrite Ev|done..].
  - apply swp_bind. eapply update_stateid_st; [exact H1|apply Hat1|]. intros i w2 _ H2 Hm2.
    destruct (calm_found _ _ _ _ _ _ Hm2 Hat1) as (s2 & o2 & Hat2 & _).
    destruct (kp_owners _ _ (cm_keeps _ _ Hm2) _ _ Hro1) as (ro2 & Hro2 & _).
    pose proof (cinv_calm _ _ _ _ _ Hc1 Hm2) as Hc2. apply swp_bind. destruct new as [n|].
    + eapply (copy_req_st _ _ H2 true); [apply Hat2|]. intros w3 H3 Hm3.
      destruct (kp_owners _ _ (cm_keeps _ _ Hm3) _ _ Hro2) as (ro3 & Hro3 & _).
      eapply (lock_out_st held L); [by rewrite Ev|by eapply cinv_calm|done..].
    + apply swp_ret. eapply (lock_out_st held L); [by rewrite Ev|done..].
Qed.

Lemma sinv_swap p q held w : sinv (p :: q :: held) w -> sinv (q :: p :: held) w.
Proof.
  intros H. eapply sinv_similar; [exact H|done|..].
  - intros r s Hr. destruct (si_count _ _ H r s Hr) as [E Hpos]. rewrite !cnt_cons in *. split; lia.
  - exact (si_seq _ _ H).
  - intros r Hr. apply (si_held _ _ H). set_solver.
Qed.

Lemma lock_owner_state held w p so s o :
  sinv held w -> found_at w p so s o -> so_type o = STATE_LOCK_OWNER_NFSV4 -> state_type_of s = STATE_TYPE_LOCK.
Proof.
  intros H [Hp Hso Ho _] Et. destruct (si_linked _ _ H p s so Hp Hso) as (_ & o' & Ho' & _ & Hfit).
  assert (o' = o) as -> by congruence. rewrite Et in Hfit. pose proof (si_type _ _ H p s Hp) as Hty.
  by destruct (state_type_of s).
Qed.

(** A lock state goes on the list of its open state. *)
Lemma added_open p s so w w1 q t :
  added p s so None w w1 -> w_states w !! q = Some t -> q <> p ->
  w_states w1 !! q = Some t /\ added p s so (Some q) w (set_states (<[q := join p t]> (w_states w1)) w1).
Proof.
  intros Ha Hq Hne. assert (w_states w1 !! q = Some t) as Hq1 by (rewrite (ad_other _ _ _ _ _ _ Ha q Hne), Hq; done).
  split; [done|]. destruct Ha. split; try done; cbn [w_states set_states].
  - intros r Hr. destruct (decide (r = q)) as [->|Hrq].
    + rewrite lookup_insert_eq, decide_True, Hq by done. done.
    + rewrite lookup_insert_ne, decide_False by congruence. rewrite (ad_other r Hr). done.
  - by rewrite lookup_insert_ne.
Qed.

Lemma cinv_added D L R p s so u w w' :
  cinv_with D L R w -> added p s so u w w' -> w_clients w' = w_clients w -> cinv_with D L R w'.
Proof.
  intros [Hc Ho] Ha Ec. split; [by rewrite Ec|]. by rewrite (added_recs _ _ _ _ _ _ Ha).
Qed.

(** A lock state that is made, under an open state. *)
Lemma lock_state_add_st {A} held L R w c obj q t so o export oo (k0 : SM A) (k1 : positive -> SM A) Q :
  sinv (q :: held) w -> cinv_with [c] L R w -> w_owners w !! so = Some o -> so_type o = STATE_LOCK_OWNER_NFSV4 ->
  w_states w !! q = Some t -> hashed w q t -> state_type_of t = STATE_TYPE_SHARE -> is_Some (w_owners w !! oo) ->
  (forall w', sinv (q :: held) w' -> cinv_with [c] L R w' -> swp k0 Q w') ->
  (forall p s' o' w', sinv (q :: p :: held) w' -> cinv_with [c] L R w' -> found_at w' p so s' o' ->
     so_type o' = so_type o -> is_Some (w_owners w' !! oo) -> swp (k1 p) Q w') ->
  swp ('(_, found) ← state_add obj STATE_TYPE_LOCK (Some q) so export;
       match found, Some q with
       | None, _ => k0
       | Some p, Some opened => upd_state opened (fun s => set_share_lockstates (share_lockstates s ++ [p]) s);; k1 p
       | Some p, None => fault
       end) Q w.
Proof.
  intros H Hc Ho Et Hq Hl Htq Hoo H0 H1. apply swp_bind. unfold state_add. swp_step.
  rewrite Et. cbn [owner_fits]. rewrite bool_decide_true by done. cbn [negb].
  eapply state_add_impl_st; [exact H|exact (cinv_forget _ _ _ _ Hc)|exact Ho|done|by rewrite Et| |].
  - intros status w' _ Hi. apply H0; [by eapply sinv_idle|].
    destruct Hc as [Hc Hin]. split; [by rewrite (id_clients _ _ Hi)|]. unfold owner_recs. by rewrite (id_owners _ _ Hi).
  - intros p i w1 s Ha Hn Ec.
    assert (q <> p) as Hne by (eapply added_old; [exact H|exact Ha|left; eauto]).
    destruct (added_open _ _ _ _ _ q t Ha Hq Hne) as [Hq1 Ha2].
    apply swp_bind. eapply swp_upd_state; [exact Hq1|].
    assert (w_states (set_states (<[q := join p t]> (w_states w1)) w1) !! p = Some s) as Hp by apply Ha2.
    destruct (added_owner_to _ _ _ _ _ _ Ha2 so o Ho) as (o' & Ho' & Et' & _).
    eapply (H1 p s o').
    + apply sinv_swap. eapply added_sinv; [exact H|exact Hn| |exact Ha2]. left. split; [done|]. by exists q, t.
    + by eapply cinv_added.
    + split; try done. by eapply new_hashed.
    + done.
    + destruct Hoo as [u Hu]. destruct (added_owner_to _ _ _ _ _ _ Ha2 oo u Hu) as (u' & Hu' & _). by eexists.
Qed.

Lemma lock_new_state_st held L R w v c q t oo lock_seqid name data (Q : (positive * positive) + resop4 -> world -> Prop) :
  sinv (q :: held) w -> lv_open v = Some q -> lv_client v = Some c -> cinv_with [c] L R w ->
  w_states w !! q = Some t -> hashed w q t -> state_type_of t = STATE_TYPE_SHARE -> is_Some (w_owners w !! oo) ->
  (forall resp L' w', sinv (q :: held) w' -> cinv_with [c] L' R w' -> (forall r, r ∈ L -> r ∈ L') -> Q (inr resp) w') ->
  (forall so p s o L' w', sinv (q :: p :: held) w' -> cinv_with [c] L' R w' -> (forall r, r ∈ L -> r ∈ L') ->
     found_at w' p so s o -> so_type o = STATE_LOCK_OWNER_NFSV4 -> is_Some (w_owners w' !! oo) -> Q (inl (so, p)) w') ->
  swp (lock_new_state v oo lock_seqid name data) Q w.
Proof.
  intros H Ev Ecl Hc Hq Hl Ht Hoo H0 H1. unfold lock_new_state. rewrite Ev, Ecl. apply swp_bind.
  eapply create_owner_st; [exact H|exact Hc|by exists oo|by apply swp_ret, (H0 _ L)|].
  intros so isnew o L1 w1 Hi1 Hc1 Hk1 HL1 Ho1 Et1 _. swp_step.
  destruct (si_id _ _ H _ _ Hl) as (t' & Hq' & _ & Hlt). assert (t' = t) as -> by congruence.
  destruct (kp_states _ _ Hk1 q t Hq Hlt) as (t1 & Hq1 & Hsh1).
  assert (is_Some (w_owners w1 !! oo)) as Hoo1.
  { destruct Hoo as [u Hu]. destruct (kp_owners _ _ Hk1 oo u Hu) as (u' & -> & _). eauto. }
  apply swp_bind. eapply check_seqid_st; [exact Ho1|]. intros go resp _.
  destruct go; cbn [negb]; [|by apply swp_ret, (H0 _ L1)].
  assert (swp ('(_, found) ← state_add (current_obj data) STATE_TYPE_LOCK (Some q) so (ctx_export data);
       match found, Some q with
       | None, _ => mret (inr (mk_resop NFS4ERR_RESOURCE None))
       | Some p, Some opened => upd_state opened (fun s => set_share_lockstates (share_lockstates s ++ [p]) s);; mret (inl (so, p))
       | Some p, None => fault
       end) Q w1) as Hadd.
  { eapply lock_state_add_st; [exact Hi1|exact Hc1|exact Ho1|exact Et1|exact Hq1|..].
    - unfold hashed. rewrite (kp_ids _ _ Hk1). by destruct Hsh1 as (-> & _).
    - by destruct Hsh1 as (_ & -> & _).
    - exact Hoo1.
    - intros w' H' Hc'. by apply swp_ret, (H0 _ L1).
    - intros p s' o' w' H' Hc' Hat Et Hoo'. apply swp_ret. eapply (H1 so p s' o' L1); try done. by rewrite Et. }
  apply swp_bind. destruct isnew; [by apply swp_ret|]. eapply get_obj_st; [exact Hi1|by intros _|].
  intros p s Hp Hh Hso _ w2 Hi2 Hf2. destruct (fw_to _ _ Hf2 p s Hp) as (s2 & Hp2 & E2).
  { unfold linked. by rewrite Hso. }
  apply swp_ret. eapply (H1 so p s2 o L1); [by apply sinv_swap| |done|..].
  - eapply cinv_calm; [exact Hc1|]. by apply calm_fewer.
  - split; [done|by rewrite E2|by rewrite (fw_owners _ _ Hf2)|]. unfold hashed. rewrite E2, (fw_id _ _ Hf2). exact Hh.
  - done.
  - by rewrite (fw_owners _ _ Hf2).
Qed.

(** A replay of the last request of the owner that keeps the response. *)
Definition replays (data : op_data) (sq : Z) (o : nfs4_owner) : Prop :=
  v40 data = true /\ so_last_entry o <> None /\ so_seqid o = sq.

(** What [lock_check_seqid] needs of its variables. *)
Definition lock_ready (locker : locker4) (v : lock_vars) (w : world) : Prop :=
  exists q t c, lv_open v = Some q /\ w_states w !! q = Some t /\ hashed w q t /\
    state_type_of t = STATE_TYPE_SHARE /\ lv_client v = Some c /\
    match locker with
    | new_lock_owner _ _ _ _ _ => lv_state v = None
    | old_lock_owner _ _ => exists p s o, lv_state v = Some p /\ found_at w p (lv_resp_owner v) s o /\
        state_type_of s = STATE_TYPE_LOCK
    end.

Lemma not_next n : n <> u32 (n + 1).
Proof. unfold u32. pose proof (Z.mod_pos_bound (n + 1) 4294967296). Z.div_mod_to_equations. lia. Qed.

Lemma lock_check_seqid_st held L w a locker v ro data Q :
  sinv (option_list (lv_open v) ++ option_list (lv_state v) ++ held) w ->
  cinv_with (option_list (lv_client v)) L (pres data) w -> data_ok L data -> answers held L Q ->
  w_owners w !! lv_resp_owner v = Some ro -> replays data (lv_seqid v) ro \/ lock_ready locker v w ->
  swp (lock_check_seqid a locker v data) Q w.
Proof.
  intros H Hc Hd HQ Ho Hcase. unfold lock_check_seqid. apply swp_bind.
  eapply check_seqid_st; [exact Ho|]. intros go resp Hgo. destruct go; cbn [negb]; [|by eapply lock_out2_st].
  destruct Hcase as [(Hv & Hl & Hs)|(q & t & c & Eq & Hq & Hl & Ht & Ec & Hlk)].
  { exfalso. apply (not_next (so_seqid ro)). rewrite <- Hgo by done. exact Hs. }
  destruct (negb (l_range a)); [by eapply lock_out_st|]. rewrite Eq. apply swp_bind. eapply swp_get_state; [exact Hq|].
  destruct (negb _); [by eapply lock_out_st|]. destruct locker as [i osq lsq cl name|i lsq].
  - rewrite Eq, Hlk in H. rewrite Ec in Hc. rewrite Ec. apply swp_bind.
    eapply lock_new_state_st; [exact H|done|exact Ec|exact Hc|exact Hq|exact Hl|exact Ht|by eexists|..].
    + intros resp' L1 w1 H1 Hc1 HL1. eapply (lock_out2_st held L1); [by rewrite Eq, Hlk|by rewrite Ec|by eapply data_ok_more|by eapply answers_more].
    + intros so p s o L1 w1 H1 Hc1 HL1 Hat Et [ro1 Hro1].
      eapply (lock_apply_st held L1); [exact H1|done|exact Hc1|by eapply data_ok_more|by eapply answers_more|exact Hat| |exact Hro1].
      by eapply lock_owner_state.
  - destruct Hlk as (p & s & o & Es & Hat & Htp). rewrite Es. eapply (lock_apply_st held L); try done. by rewrite Es in H.
Qed.

(** The owner of the state that a stateid names. *)
Definition owner_at (w : world) (i : stateid_other_t) : option nfs4_owner :=
  p ← ht_state_id w !! i; s ← w_states w !! p; so ← state_owner s; w_owners w !! so.

(** What a request of v4.0 with the last sequence number of its owner needs of
    the owner. *)
Definition on_replay (f : nfs4_owner -> bool) (id : stateid4) (sq : Z) (data : op_data) (w : world) : bool :=
  match owner_at w (other (resolved id data)) with
  | Some o => negb (v40 data) || negb (so_seqid o =? sq) || f o
  | None => true
  end.

(** It finds a saved response; the owner is a lock owner. *)
Definition answer_saved : stateid4 -> Z -> op_data -> world -> bool :=
  on_replay (fun o => bool_decide (is_Some (so_last_entry o))).
Definition lock_owner_replay : stateid4 -> Z -> op_data -> world -> bool :=
  on_replay (fun o => bool_decide (is_Some (so_related_owner o))).

Lemma on_replay_ok f id sq data w w' p so s o :
  on_replay f id sq data w = true -> fewer w w' -> found_at w' p so s o ->
  ht_state_id w !! other (resolved id data) = Some p -> v40 data = true -> so_seqid o = sq -> f o = true.
Proof.
  intros Hsane Hf [Hp Hso Ho _] Hi Hv Es. destruct (fw_from _ _ Hf p s Hp) as (s0 & Hp0 & E0).
  rewrite E0 in Hso. rewrite (fw_owners _ _ Hf) in Ho. unfold on_replay, owner_at in Hsane.
  rewrite Hi in Hsane. cbn in Hsane. rewrite Hp0 in Hsane. cbn in Hsane. cbn in Hso. rewrite Hso in Hsane. cbn in Hsane.
  by rewrite Ho, Hv, Es, Z.eqb_refl in Hsane.
Qed.

Lemma answer_saved_replays id sq data data' w w' p so s o :
  answer_saved id sq data w = true -> fewer w w' -> same_request data data' -> found_at w' p so s o ->
  ht_state_id w !! other (resolved id data) = Some p -> v40 data = true -> so_seqid o = sq -> replays data' sq o.
Proof.
  intros Hsane Hf (Em & _) Hat Hi Hv Es. pose proof (on_replay_ok _ _ _ _ _ _ _ _ _ _ Hsane Hf Hat Hi Hv Es) as Hl.
  apply bool_decide_eq_true_1 in Hl as [l El]. unfold replays, v40 in *. by rewrite Em, El.
Qed.

Lemma get_client_st held L R w n (Q : clientid_status_t * option positive -> world -> Prop) :
  sinv held w -> cinv L R w ->
  (forall rc found w', sinv held w' -> cinv_with (option_list found) L R w' -> fewer w w' ->
     (found = None -> clientid_error_to_nfsstat rc <> NFS4_OK) -> Q (rc, found) w') ->
  swp (on_clients (nfs_client_id_get_confirmed n)) Q w.
Proof.
  intros H Hc HQ. eapply get_confirmed_st; [exact H|exact Hc|]. intros rc found w' H' Hc' Hf Hrc.
  apply HQ; [done| |done|intros E; specialize (Hrc E); by destruct rc]. split; [apply Hc'|]. rewrite (fewer_recs _ _ Hf). apply Hc.
Qed.

Lemma fewer_found w w' p so s o : fewer w w' -> found_at w p so s o -> exists s', found_at w' p so s' o /\ same_but_refs s s'.
Proof.
  intros Hf [Hp Hso Ho Hh]. destruct (fw_to _ _ Hf p s Hp) as (s' & Hp' & E); [unfold linked; by rewrite Hso|].
  exists s'. split; [|done]. split; [done|by rewrite E|by rewrite (fw_owners _ _ Hf)|].
  unfold hashed. rewrite E, (fw_id _ _ Hf). exact Hh.
Qed.

Lemma lock_from_open_st held L w a id open_seqid lock_seqid clientid name data Q :
  sinv held w -> cinv L (pres data) w -> data_ok L data -> answers held L Q ->
  answer_saved id open_seqid data w = true ->
  swp (lock_from_open a (new_lock_owner id open_seqid lock_seqid clientid name) id open_seqid clientid data) Q w.
Proof.
  intros H Hc Hd HQ Hsane. unfold lock_from_open. apply swp_bind. eapply check_lock_st; [done..| |].
  - intros status data1 L1 w1 H1 Hc1 Hd1 HL1 Hn1 Hn2. rewrite !bool_decide_false by done. by apply swp_ret, (HQ _ _ L1).
  - intros status p s so o data1 L1 w1 H1 Hc1 Hd1 HL1 Hs1 Hf1 Hst Hat Hrep Hi.
    destruct Hst as [-> | ->]; cbn [bool_decide]; rewrite ?bool_decide_true, ?bool_decide_false by done; cbn [negb].
    + apply swp_bind. eapply owner_of_st; [exact Hat|]. apply swp_bind. eapply get_client_st; [exact H1|exact Hc1|].
      intros rc client w2 H2 Hc2 Hf2 _. destruct (fewer_found _ _ _ _ _ _ Hf2 Hat) as (s2 & Hat2 & _).
      destruct client as [c|]; [|eapply (lock_out2_st held L1); [done..|by eapply answers_more]].
      apply swp_bind. eapply swp_get_state; [apply Hat2|].
      destruct (bool_decide (state_type_of s2 = STATE_TYPE_SHARE)) eqn:Et; cbn [negb];
        [|eapply (lock_out2_st held L1); [done..|by eapply answers_more]].
      apply bool_decide_eq_true_1 in Et. eapply (lock_check_seqid_st held L1); [done..|by eapply answers_more|apply Hat2|].
      right. exists p, s2, c. split; [done|]. split; [apply Hat2|]. split; [apply Hat2|done].
    + apply swp_bind. eapply owner_of_st; [exact Hat|]. destruct (Hrep eq_refl) as [Hv Es].
      eapply (lock_check_seqid_st held L1); [done| |done|by eapply answers_more|apply Hat|]; [done|]. left.
      by eapply answer_saved_replays.
Qed.

(** The open owner and the open state of a lock state. *)
Lemma lock_state_open held w p so s o :
  sinv held w -> found_at w p so s o -> state_type_of s = STATE_TYPE_LOCK ->
  exists r oo q t, so_related_owner o = Some r /\ w_owners w !! r = Some oo /\ openstate s = Some q /\
    w_states w !! q = Some t /\ hashed w q t /\ state_type_of t = STATE_TYPE_SHARE.
Proof.
  intros H [Hp Hso Ho Hh] Et. destruct (si_linked _ _ H p s so Hp Hso) as (_ & o' & Ho' & _ & Hfit).
  assert (o' = o) as -> by congruence. rewrite Et in Hfit. apply bool_decide_eq_true_1 in Hfit.
  destruct (si_related _ _ H so o Ho Hfit) as (r & Er & oo & Hoo).
  destruct (si_open _ _ H p s Hp Hh Et) as (q & Eq & t & Hq & Hl & Ht & _).
  by exists r, oo, q, t.
Qed.

Lemma lock_from_lock_st held L w a id lock_seqid data Q :
  sinv held w -> cinv L (pres data) w -> data_ok L data -> answers held L Q ->
  answer_saved id lock_seqid data w = true -> lock_owner_replay id lock_seqid data w = true ->
  swp (lock_from_lock a (old_lock_owner id lock_seqid) id lock_seqid data) Q w.
Proof.
  intros H Hc Hd HQ Hsane Hlo. unfold lock_from_lock. apply swp_bind. eapply check_lock_st; [done..| |].
  - intros status data1 L1 w1 H1 Hc1 Hd1 HL1 Hn1 Hn2. rewrite bool_decide_false by done. by apply swp_ret, (HQ _ _ L1).
  - intros status p s so o data1 L1 w1 H1 Hc1 Hd1 HL1 Hs1 Hf1 Hst Hat Hrep Hi. apply (answers_more _ _ L1) in HQ; [|done].
    apply swp_bind. eapply owner_of_st; [exact Hat|]. apply swp_bind. eapply swp_get_state; [apply Hat|].
    destruct (bool_decide (status = NFS4ERR_REPLAY)) eqn:Er.
    { apply bool_decide_eq_true_1 in Er. destruct (Hrep Er) as [Hv Es].
      pose proof (on_replay_ok _ _ _ _ _ _ _ _ _ _ Hlo Hf1 Hat Hi Hv Es) as Hl. apply bool_decide_eq_true_1 in Hl as [r Hrel].
      apply swp_bind. eapply swp_get_owner; [apply Hat|]. rewrite Hrel.
      eapply (lock_check_seqid_st held L1); [done|done|done|done|apply Hat|]. left. by eapply answer_saved_replays. }
    destruct (negb _); [by eapply drop_answer|].
    destruct (bool_decide (state_type_of s = STATE_TYPE_LOCK)) eqn:Et; cbn [negb]; [|by eapply drop_answer].
    apply bool_decide_eq_true_1 in Et.
    destruct (lock_state_open _ _ _ _ _ _ H1 Hat Et) as (r & oo & q & t & Erel & Hoo & Eq & Hq & Hl & Ht).
    apply swp_bind. eapply swp_get_owner; [apply Hat|]. rewrite Erel, Eq.
    apply swp_bind. eapply swp_get_owner; [exact Hoo|]. apply swp_bind. eapply inc_state_t_ref_st; [exact H1|exact Hq|].
    intros w2 H2 Hf2. apply swp_bind. eapply cl_inc_st; [exact H2|by eapply cinv_fewer|by eapply recs_in; [apply Hc1|]|].
    intros w3 H3 Hc3 Hf3. assert (fewer w1 w3) as Hf13 by by etrans.
    destruct (fewer_found _ _ _ _ _ _ Hf13 Hat) as (s3 & Hat3 & E3).
    destruct (si_id _ _ H1 _ _ Hl) as (t' & Hq' & _ & Hlt). assert (t' = t) as -> by congruence.
    destruct (fw_to _ _ Hf13 q t Hq Hlt) as (t3 & Hq3 & E4). pose proof (same_but_refs_shape _ _ E4) as Hsh4.
    eapply (lock_check_seqid_st held L1); [exact H3| |done|done|apply Hat3|].
    + split; [apply Hc3|]. rewrite (fewer_recs _ _ Hf13). apply Hc1.
    + right. exists q, t3, (so_clientrec oo). split; [done|]. split; [done|]. split; [unfold hashed; by rewrite E4, (fw_id _ _ Hf13)|].
      split; [by destruct Hsh4 as (_ & -> & _)|]. split; [done|]. exists p, s3, o. split; [done|]. split; [done|]. by rewrite E3.
Qed.
End safe.
