(* ===== verification/StateClose.v ===== *)
(** * States of NFSv4: OPEN, CLOSE, FREE_STATEID and RELEASE_LOCKOWNER are safe

    The operations that make open states and delete states keep the invariant
    of StateInv.v and use no freed state. *)
From S2P Require Import Prelude Status Owners ClientData ClientInv StateTable StateOps StateInv StateSafe.

Section close.
Context {Cl : Clients} {Ob : Objects} {CLaws : ClientsLaws} {Lose : MayLose} {Oth : Others}.

(** ** CLOSE *)

Lemma locks_held_st l w (Q : bool -> world -> Prop) :
  (forall q, q ∈ l -> is_Some (w_states w !! q)) -> (forall b, Q b w) -> swp (locks_held l) Q w.
Proof.
  intros Hl HQ. induction l as [|q l IH]; cbn [locks_held]; [by apply swp_ret, HQ|].
  destruct (Hl q) as [s Hs]; [by left|]. swp_step. destruct (state_locklist s); [|by apply swp_ret, HQ].
  apply IH. intros r Hr. apply Hl. by right.
Qed.

(** The states [dead] are out of the table, and no others. *)
Definition without (dead : list positive) (w w' : world) : Prop :=
  forall i q, ht_state_id w' !! i = Some q <-> ht_state_id w !! i = Some q /\ q ∉ dead.

Lemma without_trans l l' w1 w2 w3 : without l w1 w2 -> without l' w2 w3 -> without (l ++ l') w1 w3.
Proof. intros H1 H2 i q. rewrite (H2 i q), (H1 i q), elem_of_app. naive_solver. Qed.

(** What the deletion of other states leaves of a state. *)
Definition trimmed (u u' : state_t) : Prop :=
  stateid_other u' = stateid_other u /\ state_type_of u' = state_type_of u /\ state_obj u' = state_obj u /\
  state_export u' = state_export u /\ state_owner u' = state_owner u /\
  forall r, r ∈ share_lockstates u' -> r ∈ share_lockstates u.

#[export] Instance trimmed_preorder : PreOrder trimmed.
Proof.
  split; [by repeat split|]. intros u1 u2 u3 (? & ? & ? & ? & ? & ?) (? & ? & ? & ? & ? & ?).
  split_and!; try congruence. auto.
Qed.

Lemma trimmed_linked u u' : trimmed u u' -> linked u' = linked u.
Proof. unfold linked. by intros (_ & _ & _ & _ & -> & _). Qed.

(** Linked states other than [q], and all owners, are still there. *)
Record spares (q : positive) (w w' : world) : Prop := {
  sp_states r u : r <> q -> w_states w !! r = Some u -> linked u = true ->
    exists u', w_states w' !! r = Some u' /\ trimmed u u';
  sp_owners so o : w_owners w !! so = Some o -> exists o', w_owners w' !! so = Some o' /\ so_type o' = so_type o;
  sp_recs : owner_recs w' = owner_recs w;
  sp_ids : without [q] w w';
  sp_gone : w_gone w' = w_gone w
}.

Lemma spares_removed held q t so w w1 w' :
  sinv held w -> w_states w !! q = Some t -> hashed w q t -> removed q t so w w1 -> fewer w1 w' -> spares q w w'.
Proof.
  intros H Hq Hh Hr Hf. split.
  - intros r u Hne Hu Hl. pose proof (removed_to _ _ _ _ _ Hr r u Hu Hne) as Hr1.
    destruct (fw_to _ _ Hf r _ Hr1 Hl) as (u' & Hu' & E). exists u'. split; [done|]. rewrite E. split_and!; try done.
    cbn. by intros x [_ ?]%list_elem_of_filter.
  - intros x o Ho. destruct (removed_owner_to _ _ _ _ _ Hr x) as [o1 Ho1]; [by eexists|].
    destruct (removed_owner _ _ _ _ _ Hr x o1 Ho1) as (o0 & Ho0 & Et & _). exists o1.
    split; [by rewrite (fw_owners _ _ Hf)|congruence].
  - by rewrite (fewer_recs _ _ Hf), (removed_recs _ _ _ _ _ Hr).
  - intros i x. rewrite (fw_id _ _ Hf), (rm_id _ _ _ _ _ Hr), list_elem_of_singleton. by eapply unhash_id.
  - by rewrite (fw_gone _ _ Hf), (rm_gone _ _ _ _ _ Hr).
Qed.

Lemma spares_deleted held q t so w w' :
  sinv held w -> w_states w !! q = Some t -> hashed w q t -> deleted q t so w w' -> spares q w w'.
Proof.
  intros H Hq Hh [(w1 & Hr & Hf)|[_ ->]]; [by eapply spares_removed|]. split; try done.
  - intros r u _ Hu _. by exists u.
  - intros x o Ho. by exists o.
  - intros i x. cbn. rewrite list_elem_of_singleton. by eapply unhash_id.
Qed.

(** The identifier of a state names it or nothing. *)
Definition own_id (w : world) (q : positive) : Prop :=
  forall t, w_states w !! q = Some t -> hashed w q t \/ ht_state_id w !! stateid_other t = None.

Lemma spares_none held q t w : sinv held w -> w_states w !! q = Some t -> ht_state_id w !! stateid_other t = None -> spares q w w.
Proof.
  intros H Hq Hn. split; try done.
  - intros r u _ Hu _. by exists u.
  - intros x o Ho. by exists o.
  - intros i x. rewrite list_elem_of_singleton. split; [|by intros []]. intros Hi. split; [done|]. intros ->.
    destruct (si_id _ _ H i q Hi) as (t' & Ht & <- & _). congruence.
Qed.

Lemma spares_found q w w' p so s o :
  spares q w w' -> p <> q -> found_at w p so s o ->
  exists s' o', found_at w' p so s' o' /\ trimmed s s' /\ so_type o' = so_type o.
Proof.
  intros [Hst Hown _ Hid _] Hne [Hp Hso Ho Hh].
  destruct (Hst p s Hne Hp) as (s' & Hp' & Htr); [unfold linked; by rewrite Hso|].
  destruct (Hown so o Ho) as (o' & Ho' & Et). exists s', o'. split; [|done]. pose proof Htr as (E1 & _ & _ & _ & E5 & _).
  split; [done|congruence|done|]. unfold hashed. rewrite E1. apply Hid. by rewrite list_elem_of_singleton.
Qed.

Lemma cinv_spares D L R q w w' : cinv_with D L R w -> spares q w w' -> w_clients w' = w_clients w -> cinv_with D L R w'.
Proof. intros [Hc Ho] Hs Ec. split; [by rewrite Ec|]. by rewrite (sp_recs _ _ _ Hs). Qed.

Lemma own_spares q r w w' : spares q w w' -> r <> q -> own_id w r ->
  (forall u, w_states w !! r = Some u -> linked u = true) -> is_Some (w_states w !! r) -> own_id w' r.
Proof.
  intros Hs Hne Hown Hl [u Hu] t Ht. destruct (sp_states _ _ _ Hs r u Hne Hu (Hl u Hu)) as (u' & Hu' & (E & _)).
  assert (t = u') as -> by congruence. unfold hashed. rewrite E. destruct (Hown u Hu) as [Hh|Hn].
  - left. apply (sp_ids _ _ _ Hs). by rewrite list_elem_of_singleton.
  - right. destruct (ht_state_id w' !! stateid_other u) as [x|] eqn:Ex; [|done].
    apply (sp_ids _ _ _ Hs) in Ex as [Ex _]. congruence.
Qed.

(** An operation that gives [Q], and ends if [total]. *)
Definition gwp (total : Prop) {A} (m : SM A) (Q : A -> world -> Prop) (w : world) : Prop :=
  match m w with Some (a, w') => Q a w' | None => ~ total end.

Lemma swp_gwp {A} total (m : SM A) Q w : swp m Q w -> gwp total m Q w.
Proof. unfold swp, gwp. by destruct (m w). Qed.

Lemma gwp_swp {A} (m : SM A) Q w : gwp True m Q w -> swp m Q w.
Proof. unfold swp, gwp. destruct (m w) as [[a w']|]; [done|]. intros Hn. by apply Hn. Qed.

Lemma gwp_bind {A B} total (m : SM A) (k : A -> SM B) Q w :
  gwp total m (fun a => gwp total (k a) Q) w -> gwp total (m ≫= k) Q w.
Proof. unfold gwp, mbind, SM_bind. by destruct (m w) as [[a w']|]. Qed.

Lemma swp_gwp_bind {A B} total (m : SM A) (k : A -> SM B) Q w :
  swp m (fun a => gwp total (k a) Q) w -> gwp total (m ≫= k) Q w.
Proof. intros H. by apply gwp_bind, swp_gwp. Qed.

(** Lock states of a list, deleted one by one. *)
Definition lock_states (total : Prop) (w : world) (l : list positive) : Prop :=
  forall q, q ∈ l ->
    (total -> own_id w q) /\ exists t, w_states w !! q = Some t /\ linked t = true /\ state_type_of t = STATE_TYPE_LOCK.

(** The identifier of a lost state names another state. *)
Lemma del_taken q t r w :
  w_states w !! q = Some t -> ht_state_id w !! stateid_other t = Some r -> r <> q -> state_del_locked q w = None.
Proof.
  intros Hq Hr Hne. unfold state_del_locked, nfs4_State_Del, mbind, SM_bind, get_state, view, change. rewrite Hq, Hr. cbn.
  by rewrite bool_decide_false.
Qed.

Lemma del_lock_state_st total held D L R w q (Q : unit -> world -> Prop) :
  sinv held w -> cinv_with D L R w -> lock_states total w [q] ->
  (forall w', sinv held w' -> cinv_with D L R w' -> spares q w w' -> Q tt w') ->
  gwp total (state_del_locked q) Q w.
Proof.
  intros H Hc Hl HQ. destruct (Hl q) as (Hown & t & Hq & Hlq & Et); [by left|].
  destruct (ht_state_id w !! stateid_other t) as [r|] eqn:Hr; [destruct (decide (r = q)) as [->|Hne]|].
  - destruct (state_owner t) as [so|] eqn:Eso; [|unfold linked in Hlq; by rewrite Eso in Hlq].
    eapply swp_gwp, state_del_locked_st; [exact H|exact Hq|exact Eso|exact Hr|by eapply lock_state_alone|].
    intros w' Hdel _ H' Ec. pose proof (spares_deleted _ _ _ _ _ _ H Hq Hr Hdel). apply HQ; [done| |done]. by eapply cinv_spares.
  - unfold gwp. rewrite (del_taken q t r w Hq Hr Hne). intros Ht. destruct (Hown Ht t Hq) as [Hh|Hn]; [|congruence].
    unfold hashed in Hh. congruence.
  - eapply swp_gwp, state_del_locked_skip; [exact Hq|exact Hr|]. pose proof (spares_none _ _ _ _ H Hq Hr). by apply HQ.
Qed.

Lemma lock_states_spares total q l w w' : q ∉ l -> lock_states total w l -> spares q w w' -> lock_states total w' l.
Proof.
  intros Hni Hl Hs r Hr. assert (r <> q) as Hne by (intros ->; done). destruct (Hl r Hr) as (Hown & t & Ht & Hlt & Et).
  destruct (sp_states _ _ _ Hs r t Hne Ht Hlt) as (t' & Ht' & Htr). split.
  - intros Htot. eapply own_spares; [done|done|by apply Hown|by intros u Hu; assert (u = t) as -> by congruence|eauto].
  - exists t'. split; [done|]. rewrite (trimmed_linked _ _ Htr). split; [done|]. by destruct Htr as (_ & -> & _).
Qed.

Lemma del_lockstates_st total held D L R p so l : forall w s o (Q : unit -> world -> Prop),
  sinv held w -> cinv_with D L R w -> found_at w p so s o -> NoDup l -> p ∉ l -> lock_states total w l ->
  (forall s' o' w', sinv held w' -> cinv_with D L R w' -> found_at w' p so s' o' -> trimmed s s' -> without l w w' -> Q tt w') ->
  gwp total (del_lockstates l) Q w.
Proof.
  induction l as [|q l IH]; intros w s o Q H Hc Hat Hnd Hp Hl HQ; cbn [del_lockstates].
  { apply swp_gwp, swp_ret. eapply HQ; try done. intros i q. rewrite elem_of_nil. naive_solver. }
  apply NoDup_cons in Hnd as [Hni Hnd]. apply not_elem_of_cons in Hp as [Hpq Hp].
  apply gwp_bind. eapply del_lock_state_st; [exact H|exact Hc|..].
  { intros r ->%list_elem_of_singleton. apply Hl. by left. }
  intros w1 H1 Hc1 Hs1. destruct (spares_found _ _ _ _ _ _ _ Hs1 Hpq Hat) as (s1 & o1 & Hat1 & Htr1 & _).
  eapply IH; [exact H1|exact Hc1|exact Hat1|done|done|..].
  - eapply (lock_states_spares _ q); [done| |done]. intros r Hr. apply Hl. by right.
  - intros s2 o2 w2 H2 Hc2 Hat2 Htr2 Hw2. eapply HQ; [done|done|exact Hat2|by etrans|].
    change (q :: l) with ([q] ++ l). eapply without_trans; [apply Hs1|done].
Qed.

(** The states that CLOSE can walk: what it takes for [share_lockstates] is a
    list of states. *)
Definition closable (s : state_t) : bool :=
  match state_type_of s, state_locklist s with
  | STATE_TYPE_SHARE, _ => true
  | STATE_TYPE_LOCK, [] => true
  | _, _ => false
  end.

(** And the identifiers of lock states that were lost before are not in use
    again. *)
Definition own_idb (w : world) (q : positive) : bool :=
  match w_states w !! q with
  | Some t => match ht_state_id w !! stateid_other t with Some r => bool_decide (r = q) | None => true end
  | None => true
  end.

Definition close_sane (id : stateid4) (data : op_data) (w : world) : bool :=
  match ht_state_id w !! other (resolved id data) ≫= (fun p => w_states w !! p) with
  | Some s => closable s && forallb (own_idb w) (share_lockstates s)
  | None => true
  end.

Lemma own_idb_ok w q : own_idb w q = true -> own_id w q.
Proof.
  unfold own_idb. intros E t Ht. rewrite Ht in E. unfold hashed.
  destruct (ht_state_id w !! stateid_other t) as [r|]; [|by right]. apply bool_decide_eq_true_1 in E as ->. by left.
Qed.

Lemma own_keeps w w' q : keeps w w' -> own_id w q ->
  (exists t, w_states w !! q = Some t /\ linked t = true) -> own_id w' q.
Proof.
  intros Hk Hown (t & Ht & Hl) t' Ht'. destruct (kp_states _ _ Hk q t Ht Hl) as (t2 & Ht2 & (E & _)).
  assert (t' = t2) as -> by congruence. unfold hashed. rewrite E, (kp_ids _ _ Hk). by apply Hown.
Qed.

Lemma close_lockstates_ok total held w p so s o :
  sinv held w -> found_at w p so s o -> closable s = true -> (total -> forall q, q ∈ share_lockstates s -> own_id w q) ->
  exists l, close_lockstates s = mret l /\ lock_states total w l /\ NoDup l /\ p ∉ l /\ share_lockstates s = l.
Proof.
  intros H Hat Hcl Hown. unfold close_lockstates, closable in *.
  destruct (si_share _ _ H p s (fa_state _ _ _ _ _ Hat)) as [Hnd Hall].
  destruct (state_type_of s) eqn:Et; try done.
  - exists (share_lockstates s). split; [done|]. split; [|split_and!; try done].
    + intros q Hq. split; [intros Htot; by apply Hown|]. destruct (Hall q Hq) as (_ & t & Ht & Hl & Ety & _). by exists t.
    + intros Hin. destruct (Hall p Hin) as (_ & t & Ht & _ & Ety & _). pose proof (fa_state _ _ _ _ _ Hat). congruence.
  - destruct (state_locklist s); [|done]. assert (share_lockstates s = []) as E.
    { destruct (share_lockstates s) as [|q l]; [done|]. by destruct (Hall q) as [? _]; [left|]. }
    exists []. split_and!; try done; [by intros q ?%elem_of_nil|constructor|by intros ?%elem_of_nil].
Qed.

(** CLOSE refuses if there are locks, or deletes the state with its lock
    states. *)
Definition close_result (s : state_t) (p : positive) (fsal_close : nfsstat4) (w : world) (resp : resop4) (w' : world) : Prop :=
  resp = mk_resop NFS4ERR_LOCKS_HELD None \/
  resp = mk_resop fsal_close (Some (mk_stateid (next_seqid (state_seqid s)) (stateid_other s))) /\
  without (share_lockstates s ++ [p]) w w'.

(** No lock state of the open state is left in the tables. *)
Lemma closed_alone held w w' l s s' :
  sinv held w' -> share_lockstates s = l -> trimmed s s' -> without l w w' ->
  forall r t, r ∈ share_lockstates s' -> w_states w' !! r = Some t -> ~ hashed w' r t.
Proof. intros H El Htr Hw r t Hin _ [_ Hn]%Hw. apply Hn. rewrite <- El. by apply Htr. Qed.

Lemma close_state_st total held L R w p so s o fsal_close data (Q : resop4 * op_data -> world -> Prop) :
  sinv (p :: held) w -> cinv L R w -> found_at w p so s o -> closable s = true ->
  (total -> forall q, q ∈ share_lockstates s -> own_id w q) ->
  (forall resp data' o' w', sinv (p :: held) w' -> cinv L R w' -> w_owners w' !! so = Some o' ->
     od_preserved data' = od_preserved data -> same_request data data' -> close_result s p fsal_close w resp w' ->
     Q (resp, data') w') ->
  gwp total (close_state p fsal_close data) Q w.
Proof.
  intros H Hc Hat Hcl Hown HQ. unfold close_state. apply swp_gwp_bind. eapply swp_get_state; [apply Hat|]. apply swp_gwp_bind.
  destruct (close_lockstates_ok total _ _ _ _ _ _ H Hat Hcl Hown) as (l & El & Hl & Hnd & Hp & Esh). rewrite El. apply swp_ret.
  apply swp_gwp_bind. apply locks_held_st.
  { intros q Hq. destruct (Hl q Hq) as (_ & t & Ht & _). eauto. }
  intros b. destruct b.
  { apply swp_gwp, swp_ret. eapply HQ; [done|done|apply Hat|done..|by left]. }
  apply swp_gwp_bind. eapply update_stateid_st; [done|apply Hat|]. intros i w1 Ei H1 Hm1.
  destruct (calm_found _ _ _ _ _ _ Hm1 Hat) as (s1 & o1 & Hat1 & Hsh1 & _).
  assert (lock_states total w1 l) as Hl1.
  { intros q Hq. destruct (Hl q Hq) as (Ho & t & Ht & Hlt & Et). split; [intros Htot; eapply own_keeps; [apply Hm1|by apply Ho|eauto]|].
    destruct (kp_states _ _ (cm_keeps _ _ Hm1) q t Ht Hlt) as (t' & Ht' & Hsh). exists t'. split; [done|].
    rewrite (same_linked _ _ Hsh). split; [done|]. by destruct Hsh as (_ & -> & _). }
  apply gwp_bind. eapply (del_lockstates_st _ _ [] L R p so l w1 s1 o1);
    [done|exact (cinv_calm [] _ _ _ _ Hc Hm1)|exact Hat1|done|done|done|].
  intros s2 o2 w2 H2 Hc2 Hat2 Htr2 Hw2.
  apply swp_gwp, swp_bind. eapply state_del_locked_st; [exact H2|apply Hat2|apply Hat2|apply Hat2|..].
  { eapply (closed_alone _ w1 _ l s1); [exact H2| |done|done]. by destruct Hsh1 as (_ & _ & _ & _ & _ & _ & ->). }
  intros w4 Hdel _ H4 E4. pose proof (spares_deleted _ _ _ _ _ _ H2 (fa_state _ _ _ _ _ Hat2) (fa_hashed _ _ _ _ _ Hat2) Hdel) as Hs4.
  destruct (sp_owners _ _ _ Hs4 so o2 (fa_owner _ _ _ _ _ Hat2)) as (o4 & Ho4 & _).
  apply swp_ret. eapply HQ; [done|exact (cinv_spares [] _ _ _ _ _ Hc2 Hs4 E4)|done|done|done|].
  right. split; [by rewrite Ei|]. rewrite Esh. intros j q.
  rewrite (without_trans _ _ _ _ _ Hw2 (sp_ids _ _ _ Hs4) j q), (kp_ids _ _ (cm_keeps _ _ Hm1)). done.
Qed.

Lemma nfs4_op_close_st held L w fh_status fsal_close id sq data Q :
  sinv held w -> cinv L (pres data) w -> data_ok L data -> answers held L Q -> close_sane id data w = true ->
  swp (nfs4_op_close fh_status fsal_close id sq data) Q w.
Proof.
  intros H Hc Hd HQ Hsane. unfold nfs4_op_close.
  destruct (negb _); [by apply swp_ret, (HQ _ _ L)|]. apply swp_bind. eapply nfs4_Check_Stateid_st; [done..|].
  intros status found data1 L1 w1 H1 Hc1 Hd1 HL1 Hs1 Hf1 Hok. apply (answers_more _ _ L1) in HQ; [|done].
  destruct found as [p|]; [|destruct (negb _ && _); by apply swp_ret, (HQ _ _ L1)].
  change (sinv (p :: held) w1) in H1. destruct Hok as (Hst & s0 & so & o & Hp0 & Hso0 & Ho0 & Hi & _ & _).
  destruct (si_id _ _ H _ _ Hi) as (s' & Hp' & Ei & _). assert (s' = s0) as -> by congruence.
  destruct (fewer_found w w1 p so s0 o Hf1) as (s & Hat & Es); [split; try done; by rewrite <- Ei in Hi|].
  assert (closable s = true /\ forall q, q ∈ share_lockstates s -> own_id w1 q) as [Hcl Hown].
  { unfold close_sane in Hsane. rewrite Hi in Hsane. cbn in Hsane. rewrite Hp0 in Hsane.
    apply andb_true_iff in Hsane as [Hcl Hall]. rewrite Es. split; [done|]. cbn. intros q Hq.
    rewrite forallb_forall in Hall. eapply (own_keeps w); [by apply keeps_fewer|by apply own_idb_ok, Hall, list_elem_of_In|].
    destruct (si_share _ _ H p s0 Hp0) as [_ Hsh]. destruct (Hsh q Hq) as (_ & t & ? & ? & _). eauto. }
  rewrite (found_status _ Hst). apply swp_bind. eapply owner_of_st; [exact Hat|].
  apply swp_bind. eapply check_seqid_st; [apply Hat|]. intros go resp _.
  destruct go; cbn [negb]; [|by eapply drop_answer].
  apply swp_bind, gwp_swp. eapply close_state_st; [exact H1|exact Hc1|exact Hat|done|done|].
  intros resp2 data2 o2 w2 H2 Hc2 Ho2 Ed2 Hs2 _. apply swp_bind. eapply copy_req_st; [exact H2|exact Ho2|].
  intros w3 H3 Hm3. eapply (drop_answer held L1); [done| |by eapply data_ok_same|done].
  rewrite (pres_same _ _ Ed2). by eapply cinv_keep.
Qed.

(** ** FREE_STATEID *)

Lemma nfs4_op_free_stateid_st held L w id data Q :
  sinv held w -> cinv L (pres data) w -> data_ok L data -> answers held L Q ->
  swp (nfs4_op_free_stateid id data) Q w.
Proof.
  intros H Hc Hd HQ. unfold nfs4_op_free_stateid.
  destruct (v40 data); [by apply swp_ret, (HQ _ _ L)|]. apply swp_bind. eapply nfs4_Check_Stateid_st; [done..|].
  intros status found data1 L1 w1 H1 Hc1 Hd1 HL1 Hs1 Hf1 Hok. apply (answers_more _ _ L1) in HQ; [|done].
  destruct found as [p|].
  2:{ destruct (no_state_error STATEID_SPECIAL_FOR_FREE _ eq_refl Hok) as [Hn _].
      rewrite bool_decide_false by done. by apply swp_ret, (HQ _ _ L1). }
  change (sinv (p :: held) w1) in H1.
  destruct (found_now held _ _ _ _ _ _ w1 _ _ H Hok Hf1) as (Hst & s & so & o & Hat & Hi & Hr & Hm).
  assert (status = NFS4_OK) as -> by (destruct Hst as [?|E]; [done|]; destruct (Hr E); done).
  rewrite bool_decide_true by done. cbn [negb]. specialize (Hm eq_refl eq_refl eq_refl).
  apply swp_bind. eapply state_del_st; [exact H1|apply Hat|apply Hat|apply Hat|..].
  { eapply lock_state_alone; [exact H1|apply Hat|]. unfold may_free in Hm. by destruct (state_type_of s). }
  { intros _. by eapply (drop_answer held L1). }
  intros w2 w3 Hrm H3 Hf3 E3. eapply (drop_answer held L1); [done| |done..].
  exact (cinv_removed [] _ _ _ _ _ _ _ _ Hc1 Hrm Hf3 E3).
Qed.

(** ** RELEASE_LOCKOWNER *)

Lemma reserve_with_st held D L R w p (Q : bool -> world -> Prop) :
  sinv held w -> cinv_with D L R w -> p ∈ D ++ L ->
  (forall b w', sinv held w' -> cinv_with D L (if b : bool then p :: R else R) w' -> fewer w w' -> Q b w') ->
  swp (on_clients (cl_reserve_lease p)) Q w.
Proof.
  intros H Hc Hp HQ. eapply cl_reserve_st; [exact H|exact (cinv_forget _ _ _ _ Hc)|exact Hp|].
  intros b w' H' Hc' Hf. apply HQ; [done| |done]. split; [apply Hc'|]. rewrite (fewer_recs _ _ Hf). apply Hc.
Qed.

Lemma update_with_st held D L R w p (Q : unit -> world -> Prop) :
  sinv held w -> cinv_with D L (p :: R) w -> p ∈ D ++ L ->
  (forall w', sinv held w' -> cinv_with D L R w' -> fewer w w' -> Q tt w') ->
  swp (on_clients (cl_update_lease p)) Q w.
Proof.
  intros H Hc Hp HQ. eapply cl_update_st; [exact H|exact (cinv_forget _ _ _ _ Hc)|exact Hp|].
  intros w' H' Hc' Hf. apply HQ; [done| |done]. split; [apply Hc'|]. rewrite (fewer_recs _ _ Hf). apply Hc.
Qed.

(** A state that [state_del] deletes: it is in the tables, and its object is
    found. *)
Definition deletable (w : world) (p : positive) : bool :=
  match w_states w !! p with
  | Some s => bool_decide (ht_state_id w !! stateid_other s = Some p) && bool_decide (get_state_obj_ref s w <> None)
  | None => true
  end.

Lemma deletable_ok w p s : deletable w p = true -> w_states w !! p = Some s -> hashed w p s /\ get_state_obj_ref s w <> None.
Proof. unfold deletable. intros E Hp. rewrite Hp in E. by apply andb_true_iff in E as [?%bool_decide_eq_true_1 ?%bool_decide_eq_true_1]. Qed.

Lemma trimmed_obj s s' w w' : trimmed s s' -> w_gone w' = w_gone w -> get_state_obj_ref s' w' = get_state_obj_ref s w.
Proof. intros (_ & _ & E1 & E2 & _) Eg. unfold get_state_obj_ref. by rewrite E1, E2, Eg. Qed.

Lemma deletable_spares q w w' p s :
  spares q w w' -> p <> q -> w_states w !! p = Some s -> linked s = true -> deletable w p = true -> deletable w' p = true.
Proof.
  intros Hs Hne Hp Hl Hd. destruct (sp_states _ _ _ Hs p s Hne Hp Hl) as (s' & Hp' & Htr).
  destruct (deletable_ok _ _ _ Hd Hp) as [Hh Hobj]. unfold deletable. rewrite Hp'. apply andb_true_iff.
  rewrite !bool_decide_eq_true, (trimmed_obj _ _ _ _ Htr (sp_gone _ _ _ Hs)). split; [|done].
  destruct Htr as (-> & _). apply (sp_ids _ _ _ Hs). by rewrite list_elem_of_singleton.
Qed.

Lemma deletable_fewer w w' p s :
  fewer w w' -> w_states w !! p = Some s -> linked s = true -> deletable w p = true -> deletable w' p = true.
Proof.
  intros Hf Hp Hl Hd. destruct (fw_to _ _ Hf p s Hp Hl) as (s' & Hp' & E). destruct (deletable_ok _ _ _ Hd Hp) as [Hh Hobj].
  unfold deletable. rewrite Hp', E, (fw_id _ _ Hf). apply andb_true_iff. rewrite !bool_decide_eq_true. split; [done|].
  unfold get_state_obj_ref in *. by rewrite (fw_gone _ _ Hf).
Qed.

(** One turn: the first state goes. *)
Lemma release_lock_state_st held D L R so w o p (Q : unit -> world -> Prop) :
  sinv held w -> cinv_with D L R w -> w_owners w !! so = Some o -> so_type o = STATE_LOCK_OWNER_NFSV4 ->
  p ∈ so_states o -> deletable w p = true ->
  (forall w', sinv held w' -> cinv_with D L R w' -> spares p w w' ->
     w_owners w' !! so = Some (set_so_states (filter (fun q => q <> p) (so_states o)) o) -> Q tt w') ->
  swp (inc_state_t_ref p;; state_del p;; dec_state_t_ref p) Q w.
Proof.
  intros H Hc Ho Et Hin Hd HQ. destruct (si_owner _ _ H so o p Ho Hin) as (s & Hp & Hso).
  destruct (deletable_ok _ _ _ Hd Hp) as [Hh Hobj]. assert (found_at w p so s o) as Hat by by split.
  pose proof (lock_owner_state _ _ _ _ _ _ H Hat Et) as Hty.
  apply swp_bind. eapply inc_state_t_ref_st; [exact H|exact Hp|]. intros w1 H1 Hf1.
  destruct (fewer_found _ _ _ _ _ _ Hf1 Hat) as (s1 & Hat1 & E1).
  assert (state_type_of s1 = STATE_TYPE_LOCK) as Hty1 by (by rewrite E1).
  apply swp_bind. eapply state_del_st; [exact H1|apply Hat1|apply Hat1|apply Hat1|eapply lock_state_alone; [done|apply Hat1|done]|..].
  { intros En. exfalso. apply Hobj. rewrite E1 in En. unfold get_state_obj_ref in *. by rewrite (fw_gone _ _ Hf1) in En. }
  intros w2 w3 Hr H3 Hf3 E3. eapply dec_state_t_ref_st; [exact H3|]. intros w4 H4 Hf4 E4.
  assert (fewer w2 w4) as Hf24 by by etrans.
  pose proof (spares_removed _ _ _ _ _ _ _ H1 (fa_state _ _ _ _ _ Hat1) (fa_hashed _ _ _ _ _ Hat1) Hr Hf24) as Hs.
  apply HQ; [done| | |].
  - eapply cinv_spares; [eapply cinv_calm; [exact Hc|by apply calm_fewer]|exact Hs|congruence].
  - split.
    + intros r u Hne Hu Hl. destruct (fw_to _ _ Hf1 r u Hu Hl) as (u1 & Hu1 & Eu1).
      destruct (sp_states _ _ _ Hs r u1 Hne Hu1) as (u2 & Hu2 & Htr); [by rewrite Eu1|]. exists u2. split; [done|].
      rewrite Eu1 in Htr. exact Htr.
    + rewrite <- (fw_owners _ _ Hf1). apply Hs.
    + by rewrite (sp_recs _ _ _ Hs), (fewer_recs _ _ Hf1).
    + intros i r. rewrite <- (fw_id _ _ Hf1). apply Hs.
    + by rewrite (sp_gone _ _ _ Hs), (fw_gone _ _ Hf1).
  - rewrite (fw_owners _ _ Hf24), (rm_owners _ _ _ _ _ Hr), lookup_alter_eq, (fa_owner _ _ _ _ _ Hat1). done.
Qed.

Lemma release_lock_states_st held D L R so n : forall w o (Q : unit -> world -> Prop),
  sinv held w -> cinv_with D L R w -> w_owners w !! so = Some o -> so_type o = STATE_LOCK_OWNER_NFSV4 ->
  (length (so_states o) <= n)%nat -> (forall p, p ∈ so_states o -> deletable w p = true) ->
  (forall w', sinv held w' -> cinv_with D L R w' -> Q tt w') ->
  swp (release_lock_states n so) Q w.
Proof.
  induction n as [|n IH]; intros w o Q H Hc Ho Et Hn Hd HQ; cbn [release_lock_states]; swp_step;
    destruct (so_states o) as [|p rest] eqn:El; try by apply swp_ret, HQ.
  { cbn in Hn. lia. }
  assert (p ∈ so_states o) as Hin by (rewrite El; by left).
  enough (swp ((inc_state_t_ref p;; state_del p;; dec_state_t_ref p) ≫= fun _ => release_lock_states n so) Q w) as Hs.
  { unfold swp, mbind, SM_bind in *. destruct (inc_state_t_ref p w) as [[[] w1]|]; [|done].
    destruct (state_del p w1) as [[[] w2]|]; [|done]. done. }
  apply swp_bind. eapply release_lock_state_st; [exact H|exact Hc|exact Ho|exact Et|exact Hin|apply Hd; by left|].
  intros w1 H1 Hc1 Hs1 Ho1. eapply (IH w1 _ _ H1 Hc1 Ho1); [done| | |done].
  - cbn. rewrite El, filter_cons_False by (by intros Hx). cbn in Hn.
    pose proof (length_filter (fun q => q <> p) rest). lia.
  - cbn. intros q [Hne Hq]%list_elem_of_filter. destruct (si_owner _ _ H so o q Ho Hq) as (t & Ht & Eso).
    eapply (deletable_spares p w); [done|done|exact Ht|unfold linked; by rewrite Eso|apply Hd; by rewrite <- El].
Qed.

Lemma release_lock_owner_st held D L R w so o (Q : nfsstat4 -> world -> Prop) :
  sinv held w -> cinv_with D L R w -> w_owners w !! so = Some o -> so_type o = STATE_LOCK_OWNER_NFSV4 ->
  (forall p, p ∈ so_states o -> deletable w p = true) ->
  (forall status w', sinv held w' -> cinv_with D L R w' -> Q status w') ->
  swp (release_lock_owner so) Q w.
Proof.
  intros H Hc Ho Et Hd HQ. unfold release_lock_owner. swp_step. destruct (so_lock_list o); [|by apply swp_ret, HQ].
  apply swp_bind. eapply release_lock_states_st; [exact H|exact Hc|exact Ho|exact Et|done|done|].
  intros w' H' Hc'. by apply swp_ret, HQ.
Qed.

(** RELEASE_LOCKOWNER needs that the states of the lock owners with this name
    can be deleted. *)
Definition release_sane (name : list Z) (w : world) : bool :=
  forallb (fun x : owner_name * positive =>
    let '(opens, _, n, so) := x in
    opens || negb (bool_decide (n = name)) ||
    match w_owners w !! so with Some o => forallb (deletable w) (so_states o) | None => true end)
    (map_to_list (ht_nfs4_owner w)).

Lemma release_sane_ok name w n so o p :
  release_sane name w = true -> ht_nfs4_owner w !! (false, n, name) = Some so -> w_owners w !! so = Some o ->
  p ∈ so_states o -> deletable w p = true.
Proof.
  intros Hs Hn Ho Hp. unfold release_sane in Hs. rewrite forallb_forall in Hs. specialize (Hs ((false, n, name), so)).
  rewrite <- list_elem_of_In, elem_of_map_to_list in Hs. specialize (Hs Hn). cbn in Hs.
  rewrite bool_decide_true, Ho in Hs by done. cbn in Hs. rewrite forallb_forall in Hs. by apply Hs, list_elem_of_In.
Qed.

Lemma client_answer held L w c data data' resp (Q : resop4 * op_data -> world -> Prop) :
  sinv held w -> cinv_with [c] L (pres data) w -> data_ok L data -> od_preserved data' = od_preserved data ->
  (forall w', sinv held w' -> cinv L (pres data') w' -> data_ok L data' -> fewer w w' -> Q (resp, data') w') ->
  swp (on_clients (cl_dec_client_id_ref c);; mret (resp, data')) Q w.
Proof.
  intros H Hc Hd Ed HQ. apply swp_bind.
  eapply (drop_client_st held L (pres data) w (Some c)); [done|done|exact Hd|].
  intros w1 H1 Hc1 Hf1. apply swp_ret, HQ; [done|by rewrite (pres_same _ _ Ed)|by eapply data_ok_same|done].
Qed.

Lemma nfs4_op_release_lockowner_st held L w clientid name data Q :
  sinv held w -> cinv L (pres data) w -> data_ok L data -> answers held L Q -> release_sane name w = true ->
  swp (nfs4_op_release_lockowner clientid name data) Q w.
Proof.
  intros H Hc Hd HQ Hsane. unfold nfs4_op_release_lockowner.
  destruct (0 <? minorversion data); [by apply swp_ret, (HQ _ _ L)|].
  apply swp_bind. eapply get_client_st; [exact H|exact Hc|]. intros rc found w1 H1 Hc1 Hf1 _.
  destruct found as [c|]; [|by apply swp_ret, (HQ _ _ L)].
  assert (c ∈ [c] ++ L) as Hin by (by left).
  apply swp_bind. eapply reserve_with_st; [exact H1|exact Hc1|exact Hin|]. intros b w2 H2 Hc2 Hf2.
  destruct b; cbn [negb]; [|eapply client_answer; try done; intros w' H' Hc' Hd' _; by apply (HQ _ _ L)].
  apply swp_bind. destruct (cl_number_ok _ _ _ c (proj1 Hc2) Hin) as [number En]. unfold swp at 1. rewrite En. swp_step.
  assert (forall status w', sinv held w' -> cinv_with [c] L (c :: pres data) w' ->
    swp (on_clients (cl_update_lease c);; on_clients (cl_dec_client_id_ref c);; mret (mk_resop status None, data)) Q w') as Hup.
  { intros status w' H' Hc'. apply swp_bind. eapply update_with_st; [exact H'|exact Hc'|exact Hin|].
    intros w3 H3 Hc3 Hf3. eapply client_answer; try done. intros w4 H4 Hc4 Hd4 _. by apply (HQ _ _ L). }
  apply swp_bind. destruct (ht_nfs4_owner w2 !! (false, number, name)) as [so|] eqn:En2; [|by apply swp_ret, Hup].
  destruct (si_name _ _ H2 _ so En2) as (o & Ho & Et). assert (fewer w w2) as Hf by by etrans.
  eapply release_lock_owner_st; [exact H2|exact Hc2|exact Ho|exact Et| |exact Hup].
  rewrite (fw_names _ _ Hf) in En2. rewrite (fw_owners _ _ Hf) in Ho. intros p Hp.
  destruct (si_owner _ _ H so o p Ho Hp) as (s & Hps & Hso).
  eapply (deletable_fewer w); [exact Hf|exact Hps|unfold linked; by rewrite Hso|]. by eapply release_sane_ok.
Qed.

(** ** OPEN *)

Lemma open_owner_state held w p so s o :
  sinv held w -> found_at w p so s o -> so_type o = STATE_OPEN_OWNER_NFSV4 -> state_type_of s = STATE_TYPE_SHARE.
Proof.
  intros H [Hp Hso Ho _] Et. destruct (si_linked _ _ H p s so Hp Hso) as (_ & o' & Ho' & _ & Hfit).
  assert (o' = o) as -> by congruence. rewrite Et in Hfit. pose proof (si_type _ _ H p s Hp) as Hty.
  by destruct (state_type_of s).
Qed.

Lemma errno_error status : status <> STATE_SUCCESS -> nfs4_Errno_state status <> NFS4_OK.
Proof. by destruct status. Qed.

(** An OPEN whose file the backend does not open leaves a reference. *)
Lemma open4_do_open_st held L R w c so o file opened shared data (Q : nfsstat4 * option positive -> world -> Prop) :
  sinv held w -> cinv_with [c] L R w -> w_owners w !! so = Some o -> so_type o = STATE_OPEN_OWNER_NFSV4 ->
  (forall status held' o' w', held' = held \/ (exists p, held' = p :: held) -> sinv held' w' -> cinv_with [c] L R w' ->
     w_owners w' !! so = Some o' -> status <> NFS4_OK -> Q (status, None) w') ->
  (forall p s o' w', sinv (p :: held) w' -> cinv_with [c] L R w' -> found_at w' p so s o' ->
     state_type_of s = STATE_TYPE_SHARE -> state_obj s = handle_digest file ->
     state_export s = Some (ctx_export data) -> Q (NFS4_OK, Some p) w') ->
  swp (open4_do_open so file opened shared data) Q w.
Proof.
  intros H Hc Ho Et H0 H1. unfold open4_do_open. apply swp_bind. eapply get_obj_st; [exact H|..].
  - intros _. apply swp_bind. eapply state_add_impl_st; [exact H|exact (cinv_forget _ _ _ _ Hc)|exact Ho|done|by rewrite Et|..].
    + intros status w' Hne Hi. apply swp_ret.
      eapply (H0 _ held); [by left|by eapply sinv_idle| |by rewrite (id_owners _ _ Hi)|by apply errno_error].
      destruct Hc as [Hc Hin]. split; [by rewrite (id_clients _ _ Hi)|]. unfold owner_recs. by rewrite (id_owners _ _ Hi).
    + intros p i w1 s Ha Hn Ec. pose proof (cinv_added _ _ _ _ _ _ _ _ _ Hc Ha Ec) as Hc1.
      destruct (added_owner_to _ _ _ _ _ _ Ha so o Ho) as (o' & Ho' & _).
      assert (sinv (p :: held) w1) as Hs1 by (eapply added_sinv; [exact H|exact Hn|by right|exact Ha]).
      destruct (bool_decide (opened = NFS4_OK)) eqn:E1; cbn [negb];
        [|apply swp_ret; eapply (H0 _ (p :: held)); [by right; exists p|done..|by apply bool_decide_eq_false_1 in E1]].
      destruct (bool_decide (shared = NFS4_OK)) eqn:E2; cbn [negb];
        [|apply swp_ret; eapply (H0 _ (p :: held)); [by right; exists p|done..|by apply bool_decide_eq_false_1 in E2]].
      apply swp_ret. eapply (H1 p s); [done|done| |done..]. split; [apply Ha|done|done|by eapply new_hashed].
  - intros p s Hp Hh Hso Hobj w1 Hs1 Hf1. assert (found_at w p so s o) as Hat by by split.
    destruct (fewer_found _ _ _ _ _ _ Hf1 Hat) as (s1 & Hat1 & E1).
    assert (calm w w1) as Hm1 by by apply calm_fewer. pose proof (cinv_calm _ _ _ _ _ Hc Hm1) as Hc1.
    assert (forall status, status <> NFS4_OK -> swp (dec_state_t_ref p;; mret (status, None)) Q w1) as Hdec.
    { intros status Hne. apply swp_bind. eapply dec_state_st; [exact Hs1|]. intros w2 H2 Hm2.
      destruct (kp_owners _ _ (cm_keeps _ _ Hm2) so o (fa_owner _ _ _ _ _ Hat1)) as (o2 & Ho2 & _).
      apply swp_ret. eapply (H0 _ held); [by left|done|by eapply cinv_calm|done|done]. }
    apply swp_bind. eapply swp_get_state; [apply Hat1|].
    destruct (bool_decide (state_export s1 = _)) eqn:Ex; cbn [negb]; [|by apply Hdec]. apply bool_decide_eq_true_1 in Ex.
    destruct (bool_decide (opened = NFS4_OK)) eqn:Eop; cbn [negb];
      [|apply swp_ret; eapply (H0 _ (p :: held)); [by right; exists p|done|done|apply Hat1|by apply bool_decide_eq_false_1 in Eop]].
    destruct (bool_decide (shared = NFS4_OK)) eqn:Esh; cbn [negb]; [|apply Hdec; by apply bool_decide_eq_false_1 in Esh].
    apply swp_ret. eapply H1; try done; [|by rewrite E1]. exact (open_owner_state _ _ _ _ _ _ Hs1 Hat1 Et).
Qed.

(** The stateid [i] of a response names an open state of [file]. *)
Definition opens_file (file export : Z) (so : positive) (i : stateid4) (w : world) : Prop :=
  exists p s o, ht_state_id w !! other i = Some p /\ found_at w p so s o /\ state_type_of s = STATE_TYPE_SHARE /\
    stateid_other s = other i /\ state_seqid s = seqid i /\ state_obj s = handle_digest file /\ state_export s = Some export.

Lemma opens_file_fewer file export so i w w' : opens_file file export so i w -> fewer w w' -> opens_file file export so i w'.
Proof.
  intros (p & s & o & Hi & Hat & Ht & Eo & Es & Eobj & Ex) Hf. destruct (fewer_found _ _ _ _ _ _ Hf Hat) as (s' & Hat' & E).
  exists p, s', o. split; [by rewrite (fw_id _ _ Hf)|]. split; [done|]. by rewrite E.
Qed.

(** The answer to an OPEN that was not answered before the claim. *)
Definition open_result (a : open_args) (data : op_data) (so : positive) (resp : resop4) (data' : op_data) (w : world) : Prop :=
  r_status resp = NFS4_OK -> o_file a <> inr NFS4_OK ->
  exists file i, o_file a = inl file /\ resp = mk_resop NFS4_OK (Some i) /\ current_stateid data' = i /\
    current_obj data' = file /\ opens_file file (ctx_export data) so i w.

(** What a client gets from OPEN after the claim was looked at. *)
Definition open_answers (a : open_args) (data : op_data) (so c : positive) (held L R : list positive)
    (Q : resop4 * op_data -> world -> Prop) : Prop :=
  forall resp data' held' w', held' = held \/ (exists p, held' = p :: held) -> sinv held' w' ->
    cinv_with [c] L R w' -> minorversion data' = minorversion data -> od_preserved data' = od_preserved data ->
    open_result a data so resp data' w' -> Q (resp, data') w'.

Lemma open_refuse_st held held' L R w c so o a data data' obj status Q :
  sinv held' w -> cinv_with [c] L R w -> w_owners w !! so = Some o -> open_answers a data so c held L R Q ->
  held' = held \/ (exists p, held' = p :: held) -> status <> NFS4_OK \/ o_file a = inr status ->
  minorversion data' = minorversion data -> od_preserved data' = od_preserved data ->
  swp ((if v40 data then Copy_nfs4_state_req (Some so) (o_seqid a) OP_OPEN obj (mk_resop status None) else mret tt);;
       mret (mk_resop status None, data')) Q w.
Proof.
  intros H Hc Ho HQ Hh Hst Em Ep. apply swp_bind. eapply copy_req_st; [exact H|exact Ho|].
  intros w2 H2 Hm2. apply swp_ret. eapply (HQ _ _ held'); try done; [by eapply cinv_calm|].
  intros E Hf. exfalso. cbn in E. destruct Hst as [?|Hst]; [done|]. rewrite E in Hst. done.
Qed.

Lemma open_grant_st held L R w c p so s o a file data Q :
  sinv (p :: held) w -> cinv_with [c] L R w -> found_at w p so s o -> open_answers a data so c held L R Q ->
  o_file a = inl file -> state_type_of s = STATE_TYPE_SHARE -> state_obj s = handle_digest file ->
  state_export s = Some (ctx_export data) ->
  swp ('(id, data') ← update_stateid p (set_current_obj file data);
       (if v40 data then Copy_nfs4_state_req (Some so) (o_seqid a) OP_OPEN (Some (current_obj data)) (mk_resop NFS4_OK (Some id))
        else mret tt);;
       dec_state_t_ref p;; mret (mk_resop NFS4_OK (Some id), data')) Q w.
Proof.
  intros H Hc Hat HQ Ef Et Eobj Ex. apply swp_bind. eapply update_stateid_exact; [exact H|apply Hat|].
  intros i w2 Ei H2 Hm2 Es2. destruct (calm_found _ _ _ _ _ _ Hm2 Hat) as (s2 & o2 & [Hp2 Hso2 Ho2] & _).
  apply swp_bind. eapply copy_req_exact; [exact H2|exact Ho2|]. intros w3 H3 Hm3 Es3.
  destruct (kp_owners _ _ (cm_keeps _ _ Hm3) so o2 Ho2) as (o3 & Ho3 & _).
  apply swp_bind. eapply dec_state_t_ref_st; [exact H3|]. intros w4 H4 Hf4 Ec4. apply swp_ret.
  eapply (HQ _ _ held); [by left|done| |done|done|].
  - eapply cinv_calm; [exact Hc|]. etrans; [done|]. etrans; [done|]. by apply calm_fewer.
  - intros _ _. exists file, i. do 4 (split; [done|]).
    eapply opens_file_fewer; [|exact Hf4]. exists p, (set_state_seqid (seqid i) s), o3.
    assert (found_at w3 p so (set_state_seqid (seqid i) s) o3) as Hat3.
    { split; [by rewrite Es3|apply Hat|done|]. unfold hashed. rewrite (kp_ids _ _ (cm_keeps _ _ Hm3)), (kp_ids _ _ (cm_keeps _ _ Hm2)).
      apply Hat. }
    split; [|by subst i]. subst i. apply Hat3.
Qed.

Lemma open_claimed_st held L R w c so o a data Q :
  sinv held w -> cinv_with [c] L R w -> w_owners w !! so = Some o -> so_type o = STATE_OPEN_OWNER_NFSV4 ->
  open_answers a data so c held L R Q -> swp (open_claimed a so data) Q w.
Proof.
  intros H Hc Ho Et HQ. unfold open_claimed.
  destruct (bool_decide (o_claim a = NFS4_OK)) eqn:Ecl; cbn [negb].
  2:{ apply bool_decide_eq_false_1 in Ecl. eapply (open_refuse_st held held); by auto. }
  destruct (o_create a); [apply swp_ret; eapply (HQ _ _ held); by auto|].
  destruct (negb _); [by eapply (open_refuse_st held held); [..|left|left| |]|].
  apply swp_bind. eapply (swp_mono _ (fun _ w' => sinv held w' /\ calm w w')).
  { destruct (o_previous a); [|by apply swp_ret]. eapply upd_so_st; [exact H|exact Ho|by repeat split; left|done]. }
  intros [] w0 [H0 Hm0]. pose proof (cinv_calm _ _ _ _ _ Hc Hm0) as Hc0.
  destruct (kp_owners _ _ (cm_keeps _ _ Hm0) so o Ho) as (o0 & Ho0 & Et0 & _). rewrite Et in Et0.
  destruct (o_file a) as [file|status] eqn:Ef; [|by eapply (open_refuse_st held held); [..|left|right| |]].
  apply swp_bind. eapply open4_do_open_st; [exact H0|exact Hc0|exact Ho0|exact Et0|..].
  - intros status held' o' w' Hh H' Hc' Ho' Hne. eapply open_refuse_st; by eauto.
  - intros p s o1 w1 H1 Hc1 Hat Ety Eobj Ex. by eapply open_grant_st.
Qed.

Lemma open_replayed_data file resp data :
  minorversion (open_replayed file resp data).2 = minorversion data /\
  od_preserved (open_replayed file resp data).2 = od_preserved data.
Proof. unfold open_replayed. repeat case_match; done. Qed.

Lemma check_seqid_bad_st w (b : bool) so o sq argop obj (Q : bool * resop4 -> world -> Prop) :
  w_owners w !! so = Some o -> (b = true -> so_seqid o <> sq) -> Q (true, mk_resop NFS4_OK None) w ->
  Q (false, mk_resop NFS4ERR_BAD_SEQID None) w ->
  swp (if b then Check_nfs4_seqid (Some so) sq argop obj (mk_resop NFS4_OK None) else mret (true, mk_resop NFS4_OK None)) Q w.
Proof.
  intros Ho Hne H1 H2. destruct b; [|by apply swp_ret]. unfold Check_nfs4_seqid. swp_step.
  destruct (so_last_entry o); [|by apply swp_ret]. destruct (sq =? _); [by apply swp_ret|].
  rewrite (proj2 (Z.eqb_neq (so_seqid o) sq)) by auto. by apply swp_ret.
Qed.

Lemma open4_open_owner_st held L R w c a data (Q : option positive * option (resop4 * op_data) -> world -> Prop) :
  sinv held w -> cinv_with [c] L R w ->
  (forall answer owner L' w', sinv held w' -> cinv_with [c] L' R w' -> (forall q, q ∈ L -> q ∈ L') ->
     minorversion answer.2 = minorversion data -> od_preserved answer.2 = od_preserved data ->
     (r_status answer.1 = NFS4_OK -> exists so o, known_owner w true (o_name a) so o /\ v40 data = true /\ so_seqid o = o_seqid a) ->
     Q (owner, Some answer) w') ->
  (forall so o L' w', sinv held w' -> cinv_with [c] L' R w' -> (forall q, q ∈ L -> q ∈ L') ->
     w_owners w' !! so = Some o -> so_type o = STATE_OPEN_OWNER_NFSV4 -> Q (Some so, None) w') ->
  swp (open4_open_owner a c data) Q w.
Proof.
  intros H Hc H0 H1. unfold open4_open_owner. apply swp_bind.
  eapply create_owner_st; [exact H|exact Hc|done|by apply swp_ret, (H0 _ _ L)|].
  intros so isnew o L1 w1 Hi1 Hc1 _ HL1 Ho1 Et1 Hkn.
  destruct (isnew || negb (v40 data)) eqn:Enew; [by apply swp_ret, (H1 so o L1)|].
  apply orb_false_iff in Enew as [Enew Ev%negb_false_iff].
  destruct (o_seqid a =? 0).
  - apply swp_bind. eapply upd_so_st; [exact Hi1|exact Ho1|by repeat split; left|]. intros w2 H2 Hm2.
    destruct (kp_owners _ _ (cm_keeps _ _ Hm2) so o Ho1) as (o2 & Ho2 & Et2 & _).
    apply swp_ret, (H1 so o2 L1); [done|by eapply cinv_calm|done|done|by rewrite Et2].
  - destruct (Z.eq_dec (so_seqid o) (o_seqid a)) as [Eq|Hne].
    + apply swp_bind. eapply (check_seqid_st w1 true); [exact Ho1|]. intros go resp _. apply swp_ret.
      destruct go; [by apply (H1 so o L1)|]. destruct (open_replayed_data (o_replayed a) resp data).
      apply (H0 _ _ L1); try done. intros _. exists so, o. auto.
    + apply swp_bind. eapply (check_seqid_bad_st w1 true); [exact Ho1|done|by apply swp_ret, (H1 so o L1)|].
      apply swp_ret. by apply (H0 _ _ L1).
Qed.

(** The leases while OPEN runs. *)
Definition open_leases (c : positive) (data : op_data) : list positive :=
  if v40 data then c :: pres data else pres data.

Lemma open_end_st held L w c data data' resp (Q : resop4 * op_data -> world -> Prop) :
  sinv held w -> cinv_with [c] L (open_leases c data) w -> data_ok L data ->
  minorversion data' = minorversion data -> od_preserved data' = od_preserved data ->
  (forall w', sinv held w' -> cinv L (pres data') w' -> data_ok L data' -> fewer w w' -> Q (resp, data') w') ->
  swp ((if v40 data' then on_clients (cl_update_lease c) else mret tt);;
       on_clients (cl_dec_client_id_ref c);; mret (resp, data')) Q w.
Proof.
  intros H Hc Hd Em Ed HQ. apply swp_bind. unfold open_leases in Hc.
  assert (v40 data' = v40 data) as -> by (unfold v40; by rewrite Em).
  destruct (v40 data); [|apply swp_ret; by eapply client_answer].
  eapply update_with_st; [exact H|exact Hc|by left|]. intros w1 H1 Hc1 Hf1. eapply client_answer; try done.
  intros w2 H2 Hc2 Hd2 Hf2. apply HQ; try done. by etrans.
Qed.

(** An OPEN that succeeds, other than a replay, names an open state of its
    file. *)
Definition open_fact (a : open_args) (data : op_data) (w : world) (r : resop4 * op_data) (w' : world) : Prop :=
  (v40 data = true -> forall so o, known_owner w true (o_name a) so o -> so_seqid o <> o_seqid a) ->
  r_status r.1 = NFS4_OK -> o_file a <> inr NFS4_OK ->
  exists so file i, o_file a = inl file /\ r.1 = mk_resop NFS4_OK (Some i) /\ current_stateid r.2 = i /\
    current_obj r.2 = file /\ opens_file file (ctx_export data) so i w'.

Lemma known_fewer w w' opens name so o : fewer w w' -> known_owner w' opens name so o -> known_owner w opens name so o.
Proof. intros Hf (n & o0 & Hn & Ho & E). exists n, o0. rewrite (fw_names _ _ Hf) in Hn. rewrite (fw_owners _ _ Hf) in Ho. done. Qed.

Lemma nfs4_op_open_st held L w a data (Q : resop4 * op_data -> world -> Prop) :
  sinv held w -> cinv L (pres data) w -> data_ok L data ->
  (forall held', held' = held \/ (exists p, held' = p :: held) ->
     answers held' L (fun r w' => open_fact a data w r w' -> Q r w')) ->
  swp (nfs4_op_open a data) Q w.
Proof.
  intros H Hc Hd HQ. pose proof (HQ held (or_introl eq_refl)) as HQ0. unfold nfs4_op_open.
  destruct (bool_decide (o_sane a = NFS4_OK)) eqn:Esane; cbn [negb];
    [|apply bool_decide_eq_false_1 in Esane; apply swp_ret, (HQ0 _ _ L); try done; intros _ E; by destruct (Esane E)].
  apply swp_bind. eapply get_client_st; [exact H|exact Hc|]. intros rc found w1 H1 Hc1 Hf1 Hrc.
  destruct found as [c|]; [|apply swp_ret, (HQ0 _ _ L); try done; intros _ E; by destruct (Hrc eq_refl E)].
  apply swp_bind. eapply (swp_mono _ (fun valid w2 => sinv held w2 /\ fewer w w2 /\
    cinv_with [c] L (if valid : bool then open_leases c data else pres data) w2)).
  { unfold open_leases. destruct (v40 data); [|by apply swp_ret].
    eapply reserve_with_st; [exact H1|exact Hc1|by left|]. intros b w2 H2 Hc2 Hf2. split; [done|]. split; [by etrans|by destruct b]. }
  intros valid w2 (H2 & Hf2 & Hc2). destruct valid; cbn [negb].
  2:{ eapply client_answer; try done. intros w3 H3 Hc3 Hd3 _. by apply (HQ0 _ _ L). }
  apply swp_bind. eapply open4_open_owner_st; [exact H2|exact Hc2|..].
  - intros [resp data3] owner L3 w3 H3 Hc3 HL3 Em Ed Hrep. apply swp_bind.
    assert (swp ((if v40 data3 then on_clients (cl_update_lease c) else mret tt);;
      on_clients (cl_dec_client_id_ref c);; mret (resp, data3)) Q w3) as Hend.
    { eapply open_end_st; [done|done|by eapply data_ok_more|done|done|]. intros w4 H4 Hc4 Hd4 Hf4.
      apply (HQ0 _ _ L3); try done. intros Hnew E _. exfalso. destruct (Hrep E) as (so & o & Hkn & Hv & Eq).
      eapply (Hnew Hv so o); [|done]. by eapply known_fewer. }
    by destruct owner as [so|]; apply swp_ret.
  - intros so o L3 w3 H3 Hc3 HL3 Ho3 Et3. apply swp_bind. eapply open_claimed_st; [exact H3|exact Hc3|exact Ho3|exact Et3|].
    intros resp data' held' w4 Hh H4 Hc4 Em Ed Hres. eapply open_end_st; [done|done|by eapply data_ok_more|done|done|].
    intros w5 H5 Hc5 Hd5 Hf5. apply (HQ held' Hh _ _ L3); try done. intros _ E Hfile.
    destruct (Hres E Hfile) as (file & i & ? & ? & ? & ? & Hop). exists so, file, i.
    do 4 (split; [done|]). by eapply opens_file_fewer.
Qed.
End close.
