(* ===== verification/StateRuns.v ===== *)
(** * States of NFSv4: runs of interleaved compounds

    The operations of StateOps.v as the steps of a server: several compounds
    are in progress, each runs its operations one after the other, and
    between the steps the client ids change, objects go away and come back,
    and owners without states are freed.  The client ids are those of
    ClientData.v, whose lemmas discharge the laws of the interface. *)
From S2P Require Import Prelude Status Owners ClientData ClientInv ClientLife ClientFrame.
From S2P Require Import StateTable StateOps StateInv StateSafe StateClose.

(** ** The client ids of ClientData.v *)

Section client_ids.
Context `{Env : ClientEnv}.

#[export] Instance client_ids : Clients := {|
  clients := client_world;
  nfs_client_id_get_confirmed := nfs_client_id_get confirmed_table;
  cl_reserve_lease := reserve_lease;
  cl_update_lease := update_lease;
  cl_inc_client_id_ref := inc_client_id_ref;
  cl_dec_client_id_ref := dec_client_id_ref;
  cl_clientid p w := cid_clientid <$> w_ids w !! p
|}.

(** The invariant of the client ids, with the references and the
    reservations of the callers. *)
Definition ids_hold (L R : list positive) (w : client_world) : Prop :=
  inv L [] [] None w /\ kinds w /\ leases R w /\ forall p, p ∈ R -> (p < w_next w)%positive.

Lemma ids_hold_st c L R w : ids_hold L R w -> st c false w 0 R L [] [] w.
Proof. intros (Hi & Hk & Hl & Hr). by apply st_start. Qed.

Lemma st_ids_hold c w0 sq L R w : st c false w0 sq R L [] [] w -> ids_hold L R w.
Proof. intros [Hi Hk Hl Hr _ _]. done. Qed.

(** A step of a client id, as the interface has it. *)
Lemma wp_step_of {A} (m : CM A) (P : A -> client_world -> Prop) w :
  wp m P w -> exists a w', m w = Some (a, w') /\ P a w'.
Proof. unfold wp. destruct (m w) as [[a w']|]; [eauto|done]. Qed.

Lemma ids_get_ok L R w n : ids_hold L R w ->
  exists rc found w', nfs_client_id_get confirmed_table n w = Some (rc, found, w') /\
    (found = None <-> rc <> CLIENT_ID_SUCCESS) /\ ids_hold (option_list found ++ L) R w'.
Proof.
  intros H. destruct (wp_step_of (nfs_client_id_get confirmed_table n)
    (fun a w' => (a.2 = None <-> a.1 <> CLIENT_ID_SUCCESS) /\ ids_hold (option_list a.2 ++ L) R w') w)
    as ([rc found] & w' & E & H').
  - eapply (lookup_st [] false w); [by apply ids_hold_st|..].
    + intros rc w' Hw' Hrc _. split; [done|by eapply st_ids_hold].
    + intros p i _ _ _ _ w' Hw'. split; [|by eapply st_ids_hold]. by split.
  - by exists rc, found, w'.
Qed.

Lemma ids_live L R w p : ids_hold L R w -> p ∈ L -> exists i, w_ids w !! p = Some i.
Proof. intros (Hi & _) Hp. by destruct (inv_held _ _ _ _ _ Hi p Hp) as [i ?]; exists i. Qed.

Lemma ids_reserve_ok L R w p : ids_hold L R w -> p ∈ L ->
  exists b w', reserve_lease p w = Some (b, w') /\ ids_hold L (if b : bool then p :: R else R) w'.
Proof.
  intros H Hp. destruct (ids_live _ _ _ _ H Hp) as [i Hi]. apply wp_step_of.
  eapply (reserve_st [cid_clientid i] false w); [by apply ids_hold_st|exact Hi|by left|by intros _|].
  intros i' w' _ Hw'. by eapply st_ids_hold.
Qed.

Lemma ids_update_ok L R w p : ids_hold L (p :: R) w -> p ∈ L ->
  exists w', update_lease p w = Some (tt, w') /\ ids_hold L R w'.
Proof.
  intros H Hp. destruct (ids_live _ _ _ _ H Hp) as [i Hi].
  destruct (wp_step_of (update_lease p) (fun _ w' => ids_hold L R w') w) as ([] & w' & E & H'); [|by exists w'].
  eapply (update_st [cid_clientid i] false w); [by apply ids_hold_st|exact Hi|by left|].
  intros w' Hw'. by eapply st_ids_hold.
Qed.

Lemma ids_inc_ok L R w p : ids_hold L R w -> p ∈ L ->
  exists w', inc_client_id_ref p w = Some (tt, w') /\ ids_hold (p :: L) R w'.
Proof.
  intros H Hp. destruct (wp_step_of (inc_client_id_ref p) (fun _ w' => ids_hold (p :: L) R w') w)
    as ([] & w' & E & H'); [|by exists w'].
  eapply (inc_id_st [] false w); [by apply ids_hold_st|by eapply held_usable; [apply H|]|].
  intros i _ w' Hw'. by eapply st_ids_hold.
Qed.

Lemma ids_dec_ok L R w p : ids_hold (p :: L) R w ->
  exists w', dec_client_id_ref p w = Some (tt, w') /\ ids_hold L R w'.
Proof.
  intros H. destruct (wp_step_of (dec_client_id_ref p) (fun _ w' => ids_hold L R w') w)
    as ([] & w' & E & H'); [|by exists w'].
  eapply (dec_id_st [] false w); [by apply ids_hold_st|]. intros w' Hw' _. by eapply st_ids_hold.
Qed.

Lemma ids_perm L L' R R' w : L ≡ₚ L' -> R ≡ₚ R' -> ids_hold L R w -> ids_hold L' R' w.
Proof.
  intros HL HR (Hi & Hk & Hl & Hr). split; [by eapply inv_perm|]. split; [done|]. split.
  - intros p i Hp. rewrite <- (cnt_perm p R R' HR). by apply Hl.
  - intros p. rewrite <- HR. apply Hr.
Qed.

Lemma ids_number_ok L R w p : ids_hold L R w -> p ∈ L -> is_Some (cl_clientid p w).
Proof. intros H Hp. destruct (ids_live _ _ _ _ H Hp) as [i Hi]. cbn. rewrite Hi. eauto. Qed.

#[export] Instance client_ids_laws : ClientsLaws := {|
  cl_holds := ids_hold;
  cl_get_ok := ids_get_ok;
  cl_reserve_ok := ids_reserve_ok;
  cl_update_ok := ids_update_ok;
  cl_inc_ok := ids_inc_ok;
  cl_dec_ok L R c p H _ := ids_dec_ok L R c p H;
  cl_number_ok := ids_number_ok;
  cl_perm := ids_perm
|}.
End client_ids.

(** ** Runs *)

Inductive state_op :=
| st_open (a : open_args)
| st_open_confirm (fh_status : nfsstat4) (id : stateid4) (sq : Z)
| st_lock (a : lock_args) (locker : locker4)
| st_locku (a : lock_args) (id : stateid4) (sq : Z)
| st_close (fh_status fsal_close : nfsstat4) (id : stateid4) (sq : Z)
| st_free_stateid (id : stateid4)
| st_release_lockowner (clientid : Z) (name : list Z).

Section runs.
Context {Cl : Clients} {Ob : Objects} {CLaws : ClientsLaws} {Lose : MayLose}.

Definition exec_op (op : state_op) (data : op_data) : SM (resop4 * op_data) :=
  match op with
  | st_open a => nfs4_op_open a data
  | st_open_confirm fh_status id sq => nfs4_op_open_confirm fh_status id sq data
  | st_lock a locker => nfs4_op_lock a locker data
  | st_locku a id sq => nfs4_op_locku a id sq data
  | st_close fh_status fsal_close id sq => nfs4_op_close fh_status fsal_close id sq data
  | st_free_stateid id => nfs4_op_free_stateid id data
  | st_release_lockowner clientid name => nfs4_op_release_lockowner clientid name data
  end.

(** What the operations need of a request: a replayed LOCK finds the response
    that was saved, and the stateid of a lock owner where it gives one; CLOSE
    names an open state whose lock states are in the tables, or a lock state
    without locks; RELEASE_LOCKOWNER names lock owners whose states can be
    deleted.  StateFindings.v shows what happens otherwise. *)
Definition well_used (op : state_op) (data : op_data) (w : world) : bool :=
  match op with
  | st_lock _ (new_lock_owner id sq _ _ _) => answer_saved id sq data w
  | st_lock _ (old_lock_owner id sq) => answer_saved id sq data w && lock_owner_replay id sq data w
  | st_close _ _ id _ => close_sane id data w
  | st_release_lockowner _ name => release_sane name w
  | _ => true
  end.

Definition world_start (c : clients) : world := mk_sworld c ∅ 1 ∅ ∅ ∅ ∅ ∅ ∅ ∅ ∅.

(** The leases that compounds have reserved. *)
Definition reserved (ds : list op_data) : list positive := concat (map (fun d => option_list (od_preserved d)) ds).

(** The client id of an owner stays held without the owner: no compound has
    its lease, or another owner has it too. *)
Definition released (so : positive) (ds : list op_data) (w : world) : Prop :=
  forall o, w_owners w !! so = Some o -> so_clientrec o ∈ reserved ds ->
    exists x u, x <> so /\ w_owners w !! x = Some u /\ so_clientrec u = so_clientrec o.

(** A world and the compounds in progress.  SEQUENCE gives a compound the
    lease of a client id that its session holds; other work on the client ids
    leaves what is held; the objects that are found change; an owner is freed
    when nothing refers to it. *)
Inductive state_reached : world -> list op_data -> Prop :=
| sr_start c : cl_holds [] [] c -> only_lost ∅ -> state_reached (world_start c) []
| sr_begin w ds data : state_reached w ds -> od_preserved data = None -> state_reached w (data :: ds)
| sr_sequence w l1 data l2 p c :
    state_reached w (l1 ++ data :: l2) -> od_preserved data = None ->
    (forall L R, cl_holds L R (w_clients w) -> cl_holds (p :: L) (p :: R) c) ->
    state_reached (set_clients c w) (l1 ++ set_od_preserved (Some p) data :: l2)
| sr_op w l1 data l2 op resp data' w' :
    state_reached w (l1 ++ data :: l2) -> well_used op data w = true -> exec_op op data w = Some (resp, data', w') ->
    state_reached w' (l1 ++ data' :: l2)
| sr_end w l1 data l2 data' w' :
    state_reached w (l1 ++ data :: l2) -> release_preserved data w = Some (data', w') -> state_reached w' (l1 ++ l2)
| sr_clients w ds c :
    state_reached w ds -> (forall L R, cl_holds L R (w_clients w) -> cl_holds L R c) -> state_reached (set_clients c w) ds
| sr_objects w ds gone : state_reached w ds -> only_lost gone -> state_reached (set_gone gone w) ds
| sr_free_owner w ds so w' :
    state_reached w ds -> released so ds w -> free_owner so w = Some (tt, w') -> state_reached w' ds.

Lemma reserved_middle l1 data l2 :
  reserved (l1 ++ data :: l2) ≡ₚ option_list (od_preserved data) ++ reserved (l1 ++ l2).
Proof.
  unfold reserved. rewrite !map_app, !concat_app. cbn [map concat]. rewrite !app_assoc. f_equiv. apply Permutation_app_comm.
Qed.

Definition states_ok (w : world) (ds : list op_data) : Prop :=
  exists held L, sinv held w /\ cinv L (reserved ds) w /\ forall p, p ∈ reserved ds -> p ∈ L.

(** The view of one of the compounds. *)
Lemma states_ok_at w l1 data l2 (Oth : Others := reserved (l1 ++ l2)) :
  states_ok w (l1 ++ data :: l2) <-> exists held L, sinv held w /\ cinv L (pres data) w /\ data_ok L data.
Proof.
  split; intros (held & L & H & [Hc Ho] & Hd); exists held, L; (split; [done|]); split.
  - split; [|done]. by eapply cl_perm; [reflexivity|apply reserved_middle|].
  - intros p Hp. apply Hd. by rewrite reserved_middle.
  - split; [|done]. by eapply cl_perm; [reflexivity|symmetry; apply reserved_middle|].
  - intros p Hp. apply Hd. by rewrite reserved_middle in Hp.
Qed.

Lemma states_ok_begin w ds data : states_ok w ds -> od_preserved data = None -> states_ok w (data :: ds).
Proof. intros (held & L & H & Hc & Hd) En. exists held, L. unfold reserved in *. cbn. by rewrite En. Qed.

Lemma exec_op_st (Oth : Others) held L w op data Q :
  sinv held w -> cinv L (pres data) w -> data_ok L data -> well_used op data w = true ->
  (forall held', answers held' L Q) -> swp (exec_op op data) Q w.
Proof.
  intros H Hc Hd Hs HQ. destruct op; cbn [exec_op well_used] in *.
  - eapply nfs4_op_open_st; [done..|]. intros held' _ r d L' w' H' Hc' Hd' HL' _. by eapply (HQ held' r d L').
  - by eapply nfs4_op_open_confirm_st.
  - unfold nfs4_op_lock. destruct (negb _); [by apply swp_ret, (HQ held _ _ L)|]. destruct locker.
    + by eapply lock_from_open_st.
    + apply andb_true_iff in Hs as [Hs1 Hs2]. by eapply lock_from_lock_st.
  - by eapply nfs4_op_locku_st.
  - by eapply nfs4_op_close_st.
  - by eapply nfs4_op_free_stateid_st.
  - by eapply nfs4_op_release_lockowner_st.
Qed.

Lemma swp_result {A} (m : SM A) (P : A -> world -> Prop) w :
  swp m P w -> exists a w', m w = Some (a, w') /\ P a w'.
Proof. unfold swp. destruct (m w) as [[a w']|]; [eauto|done]. Qed.

Lemma exec_op_ends w l1 data l2 op :
  states_ok w (l1 ++ data :: l2) -> well_used op data w = true ->
  exists resp data' w', exec_op op data w = Some (resp, data', w') /\ states_ok w' (l1 ++ data' :: l2).
Proof.
  intros (held & L & H & Hc & Hd)%states_ok_at Hs.
  destruct (swp_result (exec_op op data) (fun a w' => states_ok w' (l1 ++ a.2 :: l2)) w) as ([resp data'] & w' & E & H');
    [|by exists resp, data', w'].
  eapply exec_op_st; [done..|]. intros held' resp data' L' w' H' Hc' Hd' _. apply states_ok_at. by exists held', L'.
Qed.

Lemma compound_end_ends w l1 data l2 :
  states_ok w (l1 ++ data :: l2) -> exists data' w', release_preserved data w = Some (data', w') /\ states_ok w' (l1 ++ l2).
Proof.
  intros (held & L & H & Hc & Hd)%states_ok_at.
  destruct (swp_result (release_preserved data) (fun _ w' => states_ok w' (l1 ++ l2)) w) as (data' & w' & E & H'); [|by exists data', w'].
  eapply release_preserved_st; [exact H|exact Hc|exact Hd|]. intros data' w' H' Hc' Hd' En _ _.
  exists held, L. unfold pres, data_ok, pres in Hc', Hd'. rewrite En in Hc', Hd'. done.
Qed.

Lemma free_owner_ends w ds so o :
  states_ok w ds -> w_owners w !! so = Some o -> released so ds w ->
  exists w', free_owner so w = Some (tt, w') /\ states_ok w' ds.
Proof.
  intros (held & L & H & Hc & Hd) Ho Hr.
  destruct (swp_result (free_owner so) (fun _ w' => states_ok w' ds) w) as ([] & w' & E & H'); [|by exists w'].
  eapply (free_owner_st held L (reserved ds)); [exact H|exact Hc|exact Ho|by apply Hr|by exists held, L|].
  intros w' L' H' Hc' HL. exists held, L'. split; [done|]. split; [done|]. intros p Hp. apply HL; [by apply Hd|by left].
Qed.

Lemma sinv_start c : only_lost ∅ -> sinv [] (world_start c).
Proof.
  intros Hg. split; cbn; try (intros *; rewrite ?lookup_empty; done).
  - by intros p ?%elem_of_nil.
  - intros p [[s Hs]|[o Ho]]; by rewrite lookup_empty in *.
  - intros k p. unfold list_at. rewrite lookup_empty. by intros ?%elem_of_nil.
  - intros k p. unfold list_at. rewrite lookup_empty. by intros ?%elem_of_nil.
Qed.

Lemma sinv_objects held w gone : sinv held w -> only_lost gone -> sinv held (set_gone gone w).
Proof. intros [] Hg. by split. Qed.

Lemma states_ok_reached w ds : state_reached w ds -> states_ok w ds.
Proof.
  induction 1 as [c Hc|w ds data _ IH En|w l1 data l2 p c _ IH En Hp|w l1 data l2 op resp data' w' _ IH Hs E
    |w l1 data l2 data' w' _ IH E|w ds c _ IH Hp|w ds gone _ IH Hg|w ds so w' _ IH Hr E].
  - exists [], []. split; [by apply sinv_start|]. split; [|by intros p]. split; [done|]. unfold owner_recs. cbn.
    by rewrite fmap_empty, map_to_list_empty.
  - by apply states_ok_begin.
  - apply states_ok_at in IH as (held & L & H & [Hc Ho] & Hd). apply states_ok_at. exists held, (p :: L).
    unfold data_ok, pres in *. rewrite En in Hc, Hd. cbn in *. split; [by apply sinv_clients|]. split.
    + split; [by apply Hp|]. by apply submseteq_cons.
    + intros q [->|Hq]%elem_of_cons; [by left|]. right. by apply Hd.
  - destruct (exec_op_ends _ _ _ _ _ IH Hs) as (resp2 & data2 & w2 & E2 & H2). congruence.
  - destruct (compound_end_ends _ _ _ _ IH) as (data2 & w2 & E2 & H2). congruence.
  - destruct IH as (held & L & H & [Hc Ho] & Hd). exists held, L. split; [by apply sinv_clients|]. split; [|done].
    split; [by apply Hp|done].
  - destruct IH as (held & L & H & Hc & Hd). exists held, L. split; [by apply sinv_objects|]. done.
  - destruct (w_owners w !! so) as [o|] eqn:Ho.
    + destruct (free_owner_ends _ _ _ _ IH Ho Hr) as (w2 & E2 & H2). congruence.
    + unfold free_owner, mbind, SM_bind, get_owner in E. by rewrite Ho in E.
Qed.

(** The tables, the owners, the files, the exports and the open states agree
    on the states there are: a state of the tables is on every list, a state
    of a list is in the tables unless it was deleted while its object was not
    found. *)
Record tables_agree (w : world) : Prop := {
  ta_id i p : ht_state_id w !! i = Some p ->
    exists s, w_states w !! p = Some s /\ linked s = true /\ stateid_other s = i;
  ta_linked p s : w_states w !! p = Some s -> linked s = true -> ht_state_id w !! stateid_other s = Some p \/ may_lose;
  ta_obj k so p : ht_state_obj w !! (k, so) = Some p <->
    exists s, w_states w !! p = Some s /\ state_owner s = Some so /\ state_obj s = k /\
      ht_state_id w !! stateid_other s = Some p;
  ta_owner so o p : w_owners w !! so = Some o ->
    (p ∈ so_states o <-> exists s, w_states w !! p = Some s /\ state_owner s = Some so);
  ta_owned p s so : w_states w !! p = Some s -> state_owner s = Some so -> is_Some (w_owners w !! so);
  ta_file k p : p ∈ list_at k (list_of_states w) <->
    exists s, w_states w !! p = Some s /\ linked s = true /\ state_obj s = k;
  ta_export e p : p ∈ list_at e (exp_state_list w) <->
    exists s, w_states w !! p = Some s /\ linked s = true /\ state_export s = Some e;
  ta_open q t p : w_states w !! q = Some t -> p ∈ share_lockstates t ->
    exists s, w_states w !! p = Some s /\ linked s = true /\ state_type_of s = STATE_TYPE_LOCK /\ openstate s = Some q;
  ta_lock p s : w_states w !! p = Some s -> ht_state_id w !! stateid_other s = Some p -> state_type_of s = STATE_TYPE_LOCK ->
    exists q t, openstate s = Some q /\ w_states w !! q = Some t /\ ht_state_id w !! stateid_other t = Some q /\
      p ∈ share_lockstates t
}.

Lemma sinv_tables held w : sinv held w -> tables_agree w.
Proof.
  intros H. split.
  - intros i p (s & ? & ? & ?)%(si_id _ _ H). eauto.
  - intros p s Hp Hl. by apply (si_lost _ _ H).
  - intros k so p. split.
    + intros (s & Hp & E & Hh)%(si_obj _ _ H). exists s. split; [done|]. unfold obj_key in E.
      destruct (state_owner s); [|done]. by injection E as -> ->.
    + intros (s & Hp & Hso & <- & Hh). by apply (si_linked _ _ H p s so Hp Hso).
  - intros so o p Ho. split; [by apply (si_owner _ _ H)|]. intros (s & Hp & Hso).
    destruct (si_linked _ _ H p s so Hp Hso) as (_ & o' & Ho' & Hin & _). congruence.
  - intros p s so Hp Hso. destruct (si_linked _ _ H p s so Hp Hso) as (_ & o & Ho & _). eauto.
  - intros k p. split; [apply (si_file _ _ H)|]. intros (s & Hp & Hs & <-).
    destruct (si_place _ _ H p s Hp Hs) as (e & obj & _ & _ & _ & Hin & _). done.
  - intros e p. split; [apply (si_export _ _ H)|]. intros (s & Hp & Hs & E).
    destruct (si_place _ _ H p s Hp Hs) as (e' & obj & E' & _ & _ & _ & Hin). congruence.
  - intros q t p Hq Hin. by apply (si_share _ _ H q t Hq).
  - intros p s Hp Hh Ht. destruct (si_open _ _ H p s Hp Hh Ht) as (q & Eq & t & Hq & Hqh & _ & Hin). by exists q, t.
Qed.
End runs.
