(* ===== verification/StateReplies.v ===== *)
(** * States of NFSv4: what a stateid gets, and replays of v4.0

    The status that [nfs4_Check_Stateid] gives to a stateid of a state there
    is, and what an owner's saved response does for LOCKU and CLOSE. *)
From S2P Require Import Prelude Status Owners ClientData ClientInv.
From S2P Require Import StateTable StateOps StateInv StateSafe StateClose.

Section replies.
Context {Cl : Clients} {Ob : Objects} {CLaws : ClientsLaws} {Lose : MayLose} {Oth : Others}.

(** ** The status of a check *)

(** A stateid that is not special, of this server's epoch. *)
Definition regular (id : stateid4) : Prop :=
  other id <> all_zero /\ other id <> all_ones /\
  Z.shiftr (fst (other id)) 32 = Z.land server_epoch 0xFFFFFFFF.

(** The state that a stateid names, its owner and its file. *)
Record names (w : world) (i : stateid_other_t) (p so : positive) (s : state_t) (o : nfs4_owner) (obj : Z) : Prop := {
  nm_id : ht_state_id w !! i = Some p;
  nm_state : w_states w !! p = Some s;
  nm_of : state_owner s = Some so;
  nm_owner : w_owners w !! so = Some o;
  nm_obj : get_state_obj_ref s w = Some obj
}.

Lemma id_at held w i p so s o :
  sinv held w -> ht_state_id w !! i = Some p -> w_states w !! p = Some s -> state_owner s = Some so ->
  w_owners w !! so = Some o -> found_at w p so s o.
Proof.
  intros H Hi Hp Hso Ho. split; [done..|]. destruct (si_id _ _ H i p Hi) as (s' & Hp' & E & _).
  assert (s' = s) as -> by congruence. unfold hashed. by rewrite E.
Qed.

Lemma nm_at held w i p so s o obj : sinv held w -> names w i p so s o obj -> found_at w p so s o.
Proof. intros H []. by eapply id_at. Qed.

Lemma linked_owner held w i p : sinv held w -> ht_state_id w !! i = Some p ->
  exists s so o, found_at w p so s o /\ stateid_other s = i.
Proof.
  intros H Hi. destruct (si_id _ _ H i p Hi) as (s & Hp & E & Hl). unfold linked in Hl.
  destruct (state_owner s) as [so|] eqn:Eso; [|done].
  destruct (si_linked _ _ H p s so Hp Eso) as (_ & o & Ho & _). exists s, so, o. split; [|done]. by eapply id_at.
Qed.

(** The client ids once the compound has given up the lease it reserved, and
    whether another lease can be reserved then. *)
Definition given_up (data : op_data) (c : clients) : option clients :=
  match od_preserved data with Some q => snd <$> cl_update_lease q c | None => Some c end.

Definition lease_there (clientrec : positive) (c : option clients) : bool :=
  match c ≫= cl_reserve_lease clientrec with Some (valid, _) => valid | None => false end.

(** The lease of a client id is not to be had. *)
Definition lease_refused (clientrec : positive) (data : op_data) (c : clients) : bool :=
  negb (bool_decide (od_preserved data = Some clientrec)) && negb (lease_there clientrec (given_up data c)).

Lemma release_clients data w data' w' :
  release_preserved data w = Some (data', w') -> given_up data (w_clients w) = Some (w_clients w').
Proof.
  unfold release_preserved, given_up, mbind, SM_bind, on_clients. destruct (od_preserved data) as [q|]; [|by intros [= _ <-]].
  destruct (cl_update_lease q (w_clients w)) as [[[] c]|]; [|done]. by intros [= _ <-].
Qed.

Lemma reserve_there c w b w' :
  on_clients (cl_reserve_lease c) w = Some (b, w') -> lease_there c (Some (w_clients w)) = b.
Proof. unfold on_clients, lease_there. cbn. destruct (cl_reserve_lease c (w_clients w)) as [[b' c']|]; [|done]. by intros [= <- _]. Qed.

Lemma check_lease_valid c data w valid data' w' :
  check_lease c data w = Some (valid, data', w') -> valid = negb (lease_refused c data (w_clients w)).
Proof.
  unfold check_lease, lease_refused. destruct (bool_decide _); [by intros [= <- _ _]|]. cbn [negb andb].
  unfold mbind, SM_bind. destruct (release_preserved data w) as [[d1 w1]|] eqn:E1; [|done].
  rewrite (release_clients _ _ _ _ E1). destruct (on_clients (cl_reserve_lease c) w1) as [[b w2]|] eqn:E2; [|done].
  rewrite (reserve_there _ _ _ _ E2). intros [= <- _ _]. by rewrite negb_involutive.
Qed.

Lemma swp_run {A} (m : SM A) (Q : A -> world -> Prop) w :
  swp m (fun a w' => m w = Some (a, w') -> Q a w') w -> swp m Q w.
Proof. unfold swp. destruct (m w) as [[a w']|]; auto. Qed.

(** What the check says if the lease is valid. *)
Definition stateid_status (s : state_t) (o : nfs4_owner) (obj2 : Z) (fsal_obj : option Z) (sq flags owner_seqid : Z)
    (check_seqid : bool) : nfsstat4 :=
  if match fsal_obj with Some obj => negb (handle_cmp obj obj2) | None => false end then NFS4ERR_BAD_STATEID else
  match check_seq s o sq owner_seqid check_seqid with
  | seq_replay => NFS4ERR_REPLAY
  | seq_old => NFS4ERR_OLD_STATEID
  | seq_future => NFS4ERR_BAD_STATEID
  | seq_current =>
      if has_flag flags STATEID_SPECIAL_FREE && negb (may_free s) then NFS4ERR_LOCKS_HELD else NFS4_OK
  end.

Section known.
Context (held L : list positive) (w : world) (id : stateid4) (data : op_data) (flags owner_seqid : Z) (check_seqid : bool).
Context (p so : positive) (s : state_t) (o : nfs4_owner) (obj2 : Z).
Hypothesis H : sinv held w.
Hypothesis Hc : cinv L (pres data) w.
Hypothesis Hd : data_ok L data.
Hypothesis Hreg : regular id.
Hypothesis Hn : names w (other id) p so s o obj2.

Lemma check_known_st fsal_obj (Q : nfsstat4 * option positive * op_data -> world -> Prop) :
  let status := stateid_status s o obj2 fsal_obj (seqid id) flags owner_seqid check_seqid in
  let refused := lease_refused (so_clientrec o) data (w_clients w) in
  (forall data' w', refused = true -> sinv held w' -> cinv L (pres data') w' -> data_ok L data' -> fewer w w' ->
     same_request data data' -> Q (NFS4ERR_EXPIRED, None, data') w') ->
  (forall data' w', refused = false -> status <> NFS4_OK -> status <> NFS4ERR_REPLAY -> sinv held w' -> cinv L (pres data') w' ->
     data_ok L data' -> fewer w w' -> same_request data data' -> Q (status, None, data') w') ->
  (forall data' w', refused = false -> status = NFS4_OK \/ status = NFS4ERR_REPLAY -> sinv (p :: held) w' -> cinv L (pres data') w' ->
     data_ok L data' -> fewer w w' -> same_request data data' ->
     (status = NFS4_OK -> current_stateid data' = mk_stateid (state_seqid s) (other id)) -> Q (status, Some p, data') w') ->
  swp (nfs4_Check_Stateid id fsal_obj data flags owner_seqid check_seqid) Q w.
Proof.
  intros status refused Hex Hno Hyes. destruct Hreg as (Hz & Ho & Hep). destruct Hn as [Hi Hp Hso Hown Hobj].
  unfold nfs4_Check_Stateid. rewrite !bool_decide_false by done. unfold check_it.
  rewrite Hep, Z.eqb_refl. cbn [negb]. apply swp_bind. eapply get_pointer_st; [exact H|congruence|].
  intros p' s' Hi' Hp' w1 H1 Hf1. assert (p' = p) as -> by congruence. assert (s' = s) as -> by congruence.
  assert (w_states w1 !! p = Some (set_state_refcount (state_refcount s + 1) s)) as Hp1
    by (subst w1; cbn; by rewrite lookup_insert_eq).
  apply swp_bind. unfold get_state_obj_owner_refs. apply swp_bind. eapply swp_get_state; [exact Hp1|].
  swp_step. apply swp_ret.
  change (get_state_obj_ref (set_state_refcount (state_refcount s + 1) s) w1) with (get_state_obj_ref s w).
  rewrite Hobj. cbn. rewrite Hso. cbn. unfold check_found. swp_step.
  apply swp_bind. eapply swp_get_owner; [by rewrite (fw_owners _ _ Hf1)|].
  assert (cinv L (pres data) w1) as Hc1 by (by eapply cinv_fewer).
  apply swp_bind, swp_run. eapply check_lease_st; [exact H1|exact Hc1|exact Hd|by eapply recs_in; [apply Hc|]|].
  intros b data2 w2 H2 Hc2 Hd2 Hs2 Hf2 El%check_lease_valid. assert (fewer w w2) as Hf by by etrans.
  change (w_clients w1) with (w_clients w) in El. fold refused in El.
  assert (forall st, st <> NFS4_OK -> st <> NFS4ERR_REPLAY ->
    (forall data' w', sinv held w' -> cinv L (pres data') w' -> data_ok L data' -> fewer w w' -> same_request data data' ->
       Q (st, None, data') w') -> swp (check_failure st (Some p) data2) Q w2) as Hfail.
  { intros st _ _ HQ. eapply check_failure_st; [exact H2|exact Hc2|]. intros data3 w3 H3 Hc3 Ed Hs3 Hf3.
    apply HQ; [done|done|by eapply data_ok_same|by etrans|by etrans]. }
  assert (refused = negb b) as Er by (rewrite El; by destruct refused). clear El.
  destruct b; cbn [negb] in *; [|by apply Hfail; auto]. unfold stateid_status in status.
  change (check_seq (set_state_refcount _ s)) with (check_seq s). change (may_free (set_state_refcount _ s)) with (may_free s).
  destruct (match fsal_obj with Some obj => _ | None => _ end) eqn:Ecmp; [by apply Hfail; auto|].
  destruct (check_seq s o (seqid id) owner_seqid check_seqid); try (by apply Hfail; auto).
  - destruct (_ && negb (may_free s)); [by apply Hfail; auto|]. by apply swp_ret, Hyes; auto.
  - apply swp_ret, Hyes; auto. by intros.
Qed.
End known.

(** ** Sequence numbers of stateids *)

(** The order of sequence numbers: a number is old if the state's is at most
    half the range ahead of it. *)
Definition seq_order (n current : Z) : seq_verdict :=
  if n =? current then seq_current else if u32 (current - n) <=? 2147483648 then seq_old else seq_future.

(** The stateid is the one that the last request of the owner had or got. *)
Definition repeats (s : state_t) (o : nfs4_owner) (n owner_seqid : Z) (check_seqid : bool) : bool :=
  check_seqid && (owner_seqid =? so_seqid o) &&
  ((n =? state_seqid s) || (u32 (n + 1) =? state_seqid s) || (next_seqid n =? state_seqid s)).

(** The comparisons of [check_seq], in terms of the order. *)
Lemma seq_diff n cur : 0 < n < 4294967296 -> 0 <= cur < 4294967296 ->
  let d := s32 (n - cur) in
  (d = 0 <-> n = cur) /\ (d < 0 <-> n <> cur /\ u32 (cur - n) <= 2147483648) /\
  (d = -1 \/ cur = 1 /\ n = 4294967295 <-> u32 (n + 1) = cur \/ next_seqid n = cur).
Proof.
  intros Hn Hc d. subst d. unfold next_seqid. destruct (Z.eqb_spec (u32 (n + 1)) 0); unfold s32, u32 in *;
    Z.div_mod_to_equations; lia.
Qed.

Lemma check_seq_order s o n owner_seqid check_seqid :
  0 < n < 4294967296 -> 0 <= state_seqid s < 4294967296 ->
  check_seq s o n owner_seqid check_seqid =
    if repeats s o n owner_seqid check_seqid then seq_replay else seq_order n (state_seqid s).
Proof.
  intros Hn Hs. destruct (seq_diff n (state_seqid s) Hn Hs) as (H0 & Hneg & H1). unfold check_seq, seq_order, repeats, seqid_all_one.
  destruct (Z.eqb_spec n 0); [lia|]. cbn [negb]. rewrite orb_true_r.
  set (d := s32 (n - state_seqid s)) in *. set (u := u32 (state_seqid s - n)) in *.
  destruct (Z.eqb_spec n (state_seqid s)) as [E|E].
  - assert (d = 0) as -> by by apply H0. cbn. rewrite andb_true_r. by destruct check_seqid, (owner_seqid =? so_seqid o).
  - assert (d <> 0) as Hd0 by by rewrite H0. cbn [orb]. destruct (Z.ltb_spec d 0) as [Hd|Hd].
    + destruct (Z.leb_spec u 2147483648); [|lia].
      assert ((d =? -1) || ((state_seqid s =? 1) && (n =? 4294967295)) =
        (u32 (n + 1) =? state_seqid s) || (next_seqid n =? state_seqid s)) as ->.
      { apply eq_true_iff_eq. rewrite !orb_true_iff, andb_true_iff, !Z.eqb_eq. exact H1. }
      by destruct check_seqid, (owner_seqid =? so_seqid o), ((u32 (n + 1) =? state_seqid s) || (next_seqid n =? state_seqid s)).
    + destruct (Z.leb_spec u 2147483648); [lia|]. destruct (Z.eqb_spec d 0); [done|]. cbn [andb].
      destruct (Z.ltb_spec 0 d); [|lia].
      assert ((u32 (n + 1) =? state_seqid s) || (next_seqid n =? state_seqid s) = false) as ->; [|by rewrite andb_false_r].
      apply not_true_iff_false. rewrite orb_true_iff, !Z.eqb_eq, <- H1. intros [?|[Ec En]]; [lia|].
      subst d. rewrite Ec, En in Hd. by cbn in Hd.
Qed.

Lemma check_seq_current s o q owner_seqid check_seqid :
  check_seq s o q owner_seqid check_seqid = seq_current -> state_type_of s <> STATE_TYPE_LAYOUT -> 0 <= q < 4294967296 ->
  q = 0 \/ q = u32 (state_seqid s).
Proof.
  intros E Ht Hq. unfold check_seq in E. rewrite bool_decide_false in E by done. cbn [orb] in E.
  destruct (Z.eqb_spec q 0) as [->|Hne]; [by left|]. right. cbn [negb] in E.
  destruct (Z.ltb_spec (s32 (q - state_seqid s)) 0); [by destruct (_ && _) in E|].
  destruct (_ && _); [done|]. destruct (Z.ltb_spec 0 (s32 (q - state_seqid s))); [done|].
  unfold s32, u32 in *. Z.div_mod_to_equations. lia.
Qed.

(** The next sequence number of the state does not make a replay look old. *)
Lemma check_seq_replayed s s' o o' q sq :
  check_seq s o q sq true = seq_current -> 0 <= q < 4294967296 ->
  nfs4_type (state_type_of s) = true -> state_type_of s' = state_type_of s ->
  state_seqid s' = state_seqid s \/ state_seqid s' = next_seqid (state_seqid s) -> so_seqid o' = sq ->
  check_seq s' o' q sq true = seq_current \/ check_seq s' o' q sq true = seq_replay.
Proof.
  intros E Hq Hty Ety Hs Ho. assert (state_type_of s <> STATE_TYPE_LAYOUT) as Hl by (by intros Et; rewrite Et in Hty).
  pose proof (check_seq_current _ _ _ _ _ E Hl Hq) as Hcur. unfold check_seq. rewrite Ety, bool_decide_false by done.
  cbn [orb]. destruct (Z.eqb_spec q 0) as [->|Hne]; [by left|]. right. cbn [negb]. rewrite Ho, Z.eqb_refl, !andb_true_r.
  destruct Hcur as [?|Hcur]; [done|].
  assert (s32 (q - state_seqid s') = 0 \/ s32 (q - state_seqid s') = -1 \/
    s32 (q - state_seqid s') = -2 /\ state_seqid s' = 1 /\ q = seqid_all_one) as Hd.
  { destruct Hs as [-> | ->].
    - left. subst q. unfold s32, u32. Z.div_mod_to_equations. lia.
    - unfold next_seqid, seqid_all_one. destruct (Z.eqb_spec (u32 (state_seqid s + 1)) 0) as [E0|E0].
      + right. right. subst q. unfold u32 in *. split; [|split]; [|done|]; unfold s32; Z.div_mod_to_equations; lia.
      + right. left. subst q. unfold u32, s32 in *. Z.div_mod_to_equations. lia. }
  destruct Hd as [-> |[-> |(-> & -> & ->)]]; done.
Qed.

(** ** LOCKU *)

Lemma status_ok s o obj2 obj sq flags owner_seqid check_seqid :
  stateid_status s o obj2 (Some obj) sq flags owner_seqid check_seqid = NFS4_OK ->
  handle_cmp obj obj2 = true /\ check_seq s o sq owner_seqid check_seqid = seq_current.
Proof. unfold stateid_status. destruct (handle_cmp obj obj2); cbn [negb]; repeat case_match; done. Qed.

Lemma status_replay s o obj2 obj sq flags owner_seqid check_seqid :
  stateid_status s o obj2 obj sq flags owner_seqid check_seqid = NFS4ERR_REPLAY -> so_seqid o = owner_seqid.
Proof.
  unfold stateid_status. destruct (match obj with Some _ => _ | None => _ end); [done|].
  destruct (check_seq s o sq owner_seqid check_seqid) eqn:E; try done; [by destruct (_ && _)|].
  intros _. by eapply check_seq_replay.
Qed.

(** A state, changed but for what it is, with its next sequence number at
    most. *)
Definition later (s s' : state_t) : Prop :=
  same_shape s s' /\ (state_seqid s' = state_seqid s \/ state_seqid s' = next_seqid (state_seqid s)).

Lemma later_refs s s1 s2 : same_but_refs s s1 -> later s1 s2 -> later s s2.
Proof.
  intros E [Hsh Hs]. split; [etrans; [by apply same_but_refs_shape|done]|]. unfold same_but_refs in E. by rewrite E in Hs.
Qed.

(** The response [resp] to the request [sq] is saved in the owner. *)
Record saved (w : world) (i : stateid_other_t) (p so : positive) (s : state_t) (obj2 sq argop obj : Z) (resp : resop4) : Prop := {
  sv_state : exists s' o', names w i p so s' o' obj2 /\ later s s' /\ so_seqid o' = sq /\ so_argop o' = argop /\
    so_last_entry o' = Some obj /\ so_resp o' = resp
}.

Lemma names_fewer w w' i p so s o obj : names w i p so s o obj -> fewer w w' ->
  exists s', names w' i p so s' o obj /\ same_but_refs s s'.
Proof.
  intros [Hi Hp Hso Ho Hobj] Hf. destruct (fw_to _ _ Hf p s Hp) as (s' & Hp' & E); [unfold linked; by rewrite Hso|].
  exists s'. split; [|done]. split; [by rewrite (fw_id _ _ Hf)|done|by rewrite E|by rewrite (fw_owners _ _ Hf)|].
  rewrite E. unfold get_state_obj_ref in *. cbn. by rewrite (fw_gone _ _ Hf).
Qed.

(** Saves a response and gives the state back. *)
Lemma save_drop_st {A} held w i p so s s1 o1 obj2 sq argop obj resp (a : A) (Q : A -> world -> Prop) :
  sinv (p :: held) w -> names w i p so s1 o1 obj2 -> later s s1 ->
  (forall w', saved w' i p so s obj2 sq argop obj resp -> Q a w') ->
  swp (Copy_nfs4_state_req (Some so) sq argop (Some obj) resp;; dec_state_t_ref p;; mret a) Q w.
Proof.
  intros H [Hi Hp Hso Ho Hobj] Hl HQ. apply swp_bind. unfold Copy_nfs4_state_req. eapply swp_upd_so; [exact Ho|].
  assert (owner_kept w o1 (saved_req sq argop (Some obj) resp o1)) as Hk by (by repeat split; left).
  apply swp_bind. eapply dec_state_t_ref_st; [eapply sinv_owner; [exact H|exact Ho|exact Hk]|].
  intros w' H' Hf _. apply swp_ret, HQ. set (o' := saved_req sq argop (Some obj) resp o1) in *.
  set (w1 := set_w_owners _ w) in Hf.
  assert (names w1 i p so s1 o' obj2) as Hn1 by (split; try done; cbn; by rewrite lookup_insert_eq).
  destruct (names_fewer _ _ _ _ _ _ _ _ Hn1 Hf) as (s' & Hn' & E).
  assert (later s s') as Hl' by (destruct Hl as [Hsh Hs]; split; [etrans; [done|by apply same_but_refs_shape]|by rewrite E]).
  split. by exists s', o'.
Qed.

Lemma set_locks_later {A} held w i p so s o obj locks owner_locks (k : SM A) (Q : A -> world -> Prop) :
  sinv held w -> names w i p so s o obj ->
  (forall o' w', let s' := set_state_locklist locks s in sinv held w' -> names w' i p so s' o' obj -> swp k Q w') ->
  swp (upd_state p (set_state_locklist locks);; upd_so so (set_so_lock_list owner_locks);; k) Q w.
Proof.
  intros H [Hi Hp Hso Ho Hobj] HQ. apply swp_bind. swp_step. apply swp_bind. eapply swp_upd_so; [exact Ho|]. eapply HQ.
  - eapply sinv_owner; [eapply sinv_put; [exact H|exact Hp|by repeat split|done|done]|exact Ho|by repeat split; left].
  - split; [done|cbn; by rewrite lookup_insert_eq|done|cbn; by rewrite lookup_insert_eq|exact Hobj].
Qed.

Lemma update_stateid_later held w i p so s o obj data (Q : stateid4 * op_data -> world -> Prop) :
  sinv held w -> names w i p so s o obj ->
  (forall w', let s' := set_state_seqid (next_seqid (state_seqid s)) s in
     let id := mk_stateid (next_seqid (state_seqid s)) (stateid_other s) in
     sinv held w' -> names w' i p so s' o obj -> Q (id, set_current id data) w') ->
  swp (update_stateid p data) Q w.
Proof.
  intros H [Hi Hp Hso Ho Hobj] HQ. unfold update_stateid. swp_step. swp_step. apply swp_ret, HQ.
  - eapply sinv_put; [exact H|exact Hp|by repeat split|done|]. intros _. apply next_seqid_range.
  - split; [done|cbn; by rewrite lookup_insert_eq|done|done|exact Hobj].
Qed.

(** What the check says if the object of the state is not found: the client
    id is not there, its lease has expired, the file handle is stale; CLOSE
    goes on with the state. *)
Inductive lost_status (n flags : Z) (p : positive) (data : op_data) (c : clients) : nfsstat4 -> option positive -> Prop :=
| lost_client rc c1 :
    nfs_client_id_get_confirmed n c = Some (rc, None, c1) -> rc <> CLIENT_ID_SUCCESS ->
    lost_status n flags p data c (clientid_error_to_nfsstat rc) None
| lost_expired rc r c1 :
    nfs_client_id_get_confirmed n c = Some (rc, Some r, c1) ->
    lease_there r (if closing flags then given_up data c1 else Some c1) = false ->
    lost_status n flags p data c NFS4ERR_EXPIRED None
| lost_stale rc r c1 :
    nfs_client_id_get_confirmed n c = Some (rc, Some r, c1) -> closing flags = false -> lease_there r (Some c1) = true ->
    lost_status n flags p data c NFS4ERR_STALE None
| lost_closed rc r c1 :
    nfs_client_id_get_confirmed n c = Some (rc, Some r, c1) -> closing flags = true ->
    lease_there r (given_up data c1) = true ->
    lost_status n flags p data c NFS4_OK (Some p).

Lemma check_failure_result status o data w r w' : check_failure status o data w = Some (r, w') -> r.1 = (status, None).
Proof.
  unfold check_failure, mbind, SM_bind. destruct o as [p|]; [destruct (dec_state_t_ref p w) as [[[] w1]|]; [|done]|];
    by intros [= <- <-].
Qed.

Lemma not_found_result L R n flags p data w status found d w' :
  cl_holds L R (w_clients w) -> check_not_found n flags (Some p) data w = Some (status, found, d, w') ->
  lost_status n flags p data (w_clients w) status found.
Proof.
  intros Hc. unfold check_not_found. unfold mbind at 1, SM_bind at 1, on_clients at 1.
  destruct (cl_get_ok L R (w_clients w) n Hc) as (rc & o & c1 & E1 & Hrc & _). rewrite E1. cbn [fst snd].
  destruct o as [c|].
  2:{ intros [= -> ->]%check_failure_result. eapply lost_client; [exact E1|]. by apply Hrc. }
  set (w0 := set_clients c1 w). fold (closing flags). destruct (closing flags) eqn:Ef; unfold mbind, SM_bind.
  - destruct (release_preserved data w0) as [[d1 w1]|] eqn:Er; [|done]. apply release_clients in Er. cbn in Er.
    destruct (on_clients (cl_reserve_lease c) w1) as [[b w2]|] eqn:Eb; [|done]. apply reserve_there in Eb. rewrite <- Er in Eb.
    destruct b; cbn [negb].
    + destruct (has_flag flags STATEID_SPECIAL_CLOSE_40).
      * destruct (on_clients (cl_update_lease c) w2) as [[[] w3]|]; [|done]. intros [= <- <- _ _]. by eapply lost_closed.
      * intros [= <- <- _ _]. by eapply lost_closed.
    + intros [= -> ->]%check_failure_result. eapply lost_expired; [exact E1|]. by rewrite Ef.
  - destruct (on_clients (cl_reserve_lease c) w0) as [[b w2]|] eqn:Eb; [|done]. apply reserve_there in Eb. destruct b; cbn [negb].
    + destruct (on_clients (cl_update_lease c) w2) as [[[] w3]|]; [|done].
      destruct (on_clients (cl_dec_client_id_ref c) w3) as [[[] w4]|]; [|done].
      intros [= -> ->]%check_failure_result. by eapply lost_stale.
    + destruct (on_clients (cl_dec_client_id_ref c) w2) as [[[] w4]|]; [|done].
      intros [= -> ->]%check_failure_result. eapply lost_expired; [exact E1|]. by rewrite Ef.
Qed.

Lemma check_lost_st held L w id fsal_obj data flags owner_seqid check_seqid p s
    (Q : nfsstat4 * option positive * op_data -> world -> Prop) :
  sinv held w -> cinv L (pres data) w -> data_ok L data -> regular id ->
  ht_state_id w !! other id = Some p -> w_states w !! p = Some s -> get_state_obj_ref s w = None ->
  (forall status found data' w', fewer w w' -> lost_status (fst (other id)) flags p data (w_clients w) status found ->
     Q (status, found, data') w') ->
  swp (nfs4_Check_Stateid id fsal_obj data flags owner_seqid check_seqid) Q w.
Proof.
  intros H Hc Hd (Hz & Ho & Hep) Hi Hp Hobj HQ. destruct (linked_owner _ _ _ _ H Hi) as (s' & so & o & [Hp' Hso Hown _] & _).
  assert (s' = s) as -> by congruence.
  unfold nfs4_Check_Stateid. rewrite !bool_decide_false by done. unfold check_it. rewrite Hep, Z.eqb_refl. cbn [negb].
  apply swp_bind. eapply get_pointer_st; [exact H|congruence|].
  intros p' s' Hi' Hps w1 H1 Hf1. assert (p' = p) as -> by congruence. assert (s' = s) as -> by congruence.
  assert (w_states w1 !! p = Some (set_state_refcount (state_refcount s + 1) s)) as Hp1
    by (subst w1; cbn; by rewrite lookup_insert_eq).
  apply swp_bind. unfold get_state_obj_owner_refs. apply swp_bind. eapply swp_get_state; [exact Hp1|].
  swp_step. apply swp_ret. change (get_state_obj_ref (set_state_refcount (state_refcount s + 1) s) w1) with (get_state_obj_ref s w).
  rewrite Hobj. cbn [mbind option_bind]. apply swp_run.
  eapply (check_not_found_st held L id data flags owner_seqid check_seqid w);
    [exact Hc|exact Hd| | |exact H1|by eapply cinv_fewer|exact Hf1].
  - intros status found data' L' w' _ _ _ _ _ Hf _ E. apply HQ; [done|].
    eapply (not_found_result L (pres data)) in E; [exact E|apply Hc].
  - exists s, so, o. unfold resolved. by rewrite bool_decide_false.
Qed.

Lemma lost_error n flags p data c status found :
  lost_status n flags p data c status found -> closing flags = false ->
  found = None /\ status <> NFS4_OK /\ status <> NFS4ERR_REPLAY.
Proof. intros [rc c1 _ Hrc|rc r c1 _ _|rc r c1 _ _ _|rc r c1 _ Hcl _] Hn; [|done..|congruence]. split; [done|]. by destruct rc. Qed.

Section locku.
Context (held L : list positive) (w : world) (id : stateid4) (data : op_data) (sq : Z).
Context (p so : positive) (s : state_t) (obj2 : Z).
Hypothesis H : sinv held w.
Hypothesis Hc : cinv L (pres data) w.
Hypothesis Hd : data_ok L data.
Hypothesis Hv : v40 data = true.
Hypothesis Hreg : regular id.

Lemma locku_effect o a :
  names w (other id) p so s o obj2 -> so_seqid o <> sq ->
  swp (nfs4_op_locku a id sq data)
    (fun r w' => fewer w w' \/
       handle_cmp (current_obj data) obj2 = true /\ check_seq s o (seqid id) sq true = seq_current /\
       saved w' (other id) p so s obj2 sq OP_LOCKU (current_obj data) r.1) w.
Proof.
  intros Hn Hne. unfold nfs4_op_locku. destruct (negb _); [apply swp_ret; left; reflexivity|].
  apply swp_bind. rewrite Hv. eapply check_known_st; [done..| | |].
  - intros data' w' _ _ _ _ Hf _. apply swp_ret. by left.
  - intros data' w' _ H1 H2 _ _ _ Hf _. rewrite error_status by done. apply swp_ret. by left.
  - intros data1 w1 _ Hst H1 _ _ Hf Hs _. rewrite (found_status _ Hst).
    destruct Hst as [Eok|Erep]; [|by apply status_replay in Erep]. apply status_ok in Eok as [Hcmp Hcur].
    destruct (names_fewer _ _ _ _ _ _ _ _ Hn Hf) as (s1 & Hn1 & E1).
    pose proof (nm_at _ _ _ _ _ _ _ _ H1 Hn1) as Hat1.
    assert (v40 data1 = true /\ current_obj data1 = current_obj data) as [Hv1 Eobj].
    { destruct Hs as (Em & _ & E & _). unfold v40 in *. by rewrite Em. }
    apply swp_bind. eapply owner_of_st; [exact Hat1|]. apply swp_bind. rewrite Hv1.
    eapply (check_seqid_st w1 true); [apply Hat1|]. intros go resp _. destruct go; cbn [negb].
    2:{ apply swp_bind. eapply dec_state_t_ref_st; [exact H1|]. intros w2 _ Hf2 _. apply swp_ret. left. by etrans. }
    assert (forall s2 o2 data2 resp2 w2, sinv (p :: held) w2 -> names w2 (other id) p so s2 o2 obj2 -> later s1 s2 -> v40 data2 = true -> current_obj data2 = current_obj data ->
      swp ((if v40 data2 then Copy_nfs4_state_req (Some so) sq OP_LOCKU (Some (current_obj data2)) resp2 else mret tt);;
           dec_state_t_ref p;; mret (resp2, data2))
        (fun r w' => fewer w w' \/
           handle_cmp (current_obj data) obj2 = true /\ check_seq s o (seqid id) sq true = seq_current /\
           saved w' (other id) p so s obj2 sq OP_LOCKU (current_obj data) r.1) w2) as Hend.
    { intros s2 o2 data2 resp2 w2 H2 Hn2 Hl2 Hv2 Eo2. rewrite Hv2, Eo2.
      eapply (save_drop_st held); [done|exact Hn2|by eapply later_refs|]. intros w' Hsv. by right. }
    apply swp_bind. destruct (negb _).
    { apply swp_ret. eapply Hend; [done|exact Hn1| |done|done]. split; [done|by left]. }
    eapply set_locks_later; [exact H1|exact Hn1|]. intros o2 w2 s2 H2 Hn2. destruct (negb _).
    { apply swp_ret. eapply Hend; [done|exact Hn2| |done|done]. split; [by repeat split|by left]. }
    apply swp_bind. eapply update_stateid_later; [exact H2|exact Hn2|]. intros w3 s3 i H3 Hn3.
    apply swp_ret. eapply Hend; [done|exact Hn3| |done|done]. split; [by repeat split|by right].
Qed.

(** Without the object nothing happens. *)
Lemma locku_lost s1 a :
  ht_state_id w !! other id = Some p -> w_states w !! p = Some s1 -> get_state_obj_ref s1 w = None ->
  swp (nfs4_op_locku a id sq data) (fun _ w' => fewer w w') w.
Proof.
  intros Hi Hp Hobj. unfold nfs4_op_locku. destruct (negb _); [apply swp_ret; reflexivity|].
  apply swp_bind. eapply check_lost_st; [done..|]. intros status found data' w' Hf Hst.
  destruct (lost_error _ _ _ _ _ _ _ Hst eq_refl) as (-> & Hn1 & Hn2). rewrite error_status by done. by apply swp_ret.
Qed.

(** A replay: the saved response, and nothing changes. *)
Lemma locku_again o s0 a resp :
  saved w (other id) p so s0 obj2 sq OP_LOCKU (current_obj data) resp ->
  handle_cmp (current_obj data) obj2 = true -> check_seq s0 o (seqid id) sq true = seq_current ->
  nfs4_type (state_type_of s0) = true -> 0 <= seqid id < 4294967296 -> l_sane a = NFS4_OK ->
  swp (nfs4_op_locku a id sq data)
    (fun r w' => (r.1 = resp \/ r_status r.1 = NFS4ERR_EXPIRED) /\ fewer w w') w.
Proof.
  intros [(s1 & o1 & Hn & Hl & Es & Ea & El & Er)] Hcmp Hcur Hty Hq Hsane. unfold nfs4_op_locku. rewrite Hsane, Hv.
  cbn [negb]. rewrite bool_decide_true by done. cbn [negb].
  pose proof Hl as [Hsh Hseq]. assert (state_type_of s1 = state_type_of s0) as Ety by apply Hsh.
  assert (stateid_status s1 o1 obj2 (Some (current_obj data)) (seqid id) STATEID_SPECIAL_FOR_LOCK sq true = NFS4_OK \/
    stateid_status s1 o1 obj2 (Some (current_obj data)) (seqid id) STATEID_SPECIAL_FOR_LOCK sq true = NFS4ERR_REPLAY) as Hst.
  { unfold stateid_status. rewrite Hcmp. cbn [negb].
    destruct (check_seq_replayed s0 s1 o o1 (seqid id) sq Hcur Hq Hty Ety Hseq Es) as [-> | ->]; [by left|by right]. }
  apply swp_bind. eapply check_known_st; [exact H|exact Hc|exact Hd|exact Hreg|exact Hn|..].
  - intros data' w' _ _ _ _ Hf _. rewrite error_status by done. apply swp_ret. cbn. split; [by right|done].
  - intros data' w' _ Hn1 Hn2. exfalso. by destruct Hst.
  - intros data1 w1 _ _ H1 _ _ Hf Hs _. rewrite (found_status _ Hst).
    destruct (fewer_found _ _ _ _ _ _ Hf (nm_at _ _ _ _ _ _ _ _ H Hn)) as (s2 & Hat2 & _).
    assert (v40 data1 = true /\ current_obj data1 = current_obj data) as [Hv1 Eobj].
    { destruct Hs as (Em & _ & E & _). unfold v40 in *. by rewrite Em. }
    apply swp_bind. eapply owner_of_st; [exact Hat2|]. rewrite Hv1. apply swp_bind. unfold Check_nfs4_seqid.
    apply swp_bind. eapply swp_get_owner; [apply Hat2|]. rewrite El, Es, Ea, Eobj.
    rewrite (proj2 (Z.eqb_neq _ _) (not_next sq)), !Z.eqb_refl. cbn [negb]. apply swp_ret. cbn [negb].
    apply swp_bind. eapply dec_state_t_ref_st; [exact H1|]. intros w3 _ Hf3 _. apply swp_ret. cbn.
    split; [by left|by etrans].
Qed.
End locku.

(** ** CLOSE *)

Section close.
Context (held L : list positive) (w : world) (id : stateid4) (data : op_data) (sq : Z).
Context (fh_status fsal_close : nfsstat4).
Hypothesis H : sinv held w.
Hypothesis Hc : cinv L (pres data) w.
Hypothesis Hd : data_ok L data.
Hypothesis Hreg : regular id.

(** A CLOSE that succeeds took the state and its lock states out of the
    tables. *)
Definition closed (p : positive) (s : state_t) (o : nfs4_owner) (r : resop4 * op_data) (w' : world) : Prop :=
  check_seq s o (seqid id) sq (v40 data) = seq_current /\
  r_stateid r.1 = Some (mk_stateid (next_seqid (state_seqid s)) (stateid_other s)) /\
  without (share_lockstates s ++ [p]) w w' /\
  sinv held w' /\ cinv L (pres r.2) w' /\ data_ok L r.2.

Lemma close_effect p so s o obj2 :
  names w (other id) p so s o obj2 -> state_type_of s = STATE_TYPE_SHARE -> (v40 data = true -> so_seqid o <> sq) ->
  gwp False (nfs4_op_close fh_status fsal_close id sq data) (fun r w' => r_status r.1 = NFS4_OK -> closed p s o r w') w.
Proof.
  intros Hn Hty Hne. unfold nfs4_op_close. destruct (bool_decide (fh_status = NFS4_OK)) eqn:Efh; cbn [negb];
    [|by apply bool_decide_eq_false_1 in Efh].
  apply swp_gwp_bind. eapply check_known_st; [done..| | |].
  - intros data' w' _ _ _ _ _ _. by rewrite error_status by done.
  - intros data' w' _ H1 H2 _ _ _ _ _. by rewrite error_status by done.
  - intros data1 w1 _ Hst H1 Hc1 Hd1 Hf Hs _. rewrite (found_status _ Hst).
    destruct Hst as [Eok|Erep]; [|exfalso].
    2:{ unfold stateid_status in Erep. destruct (negb _); [done|]. destruct (check_seq s o (seqid id) sq (v40 data)) eqn:E; try done.
        - by destruct (_ && _).
        - apply check_seq_replay in E as [Ev E]. by apply (Hne Ev). }
    apply status_ok in Eok as [_ Hcur]. destruct (fewer_found _ _ _ _ _ _ Hf (nm_at _ _ _ _ _ _ _ _ H Hn)) as (s1 & Hat1 & E1).
    apply swp_gwp_bind. eapply owner_of_st; [exact Hat1|].
    apply swp_gwp_bind. eapply check_seqid_bad_st; [apply Hat1|destruct Hs as (Em & _); unfold v40 in *; by rewrite Em|..]; cbn [negb].
    2:{ apply swp_gwp_bind. eapply dec_state_t_ref_st; [exact H1|]. intros w2 _ _ _. done. }
    apply gwp_bind. eapply close_state_st; [exact H1|exact Hc1|exact Hat1|unfold closable; by rewrite E1; cbn; rewrite Hty|done|].
    intros resp data2 o2 w2 H2 Hc2 Ho2 Ed2 _ Hres. apply swp_gwp, swp_bind. eapply copy_req_st; [exact H2|exact Ho2|]. intros w3 H3 Hm3.
    apply swp_bind. eapply dec_state_t_ref_st; [exact H3|]. intros w4 H4 Hf4 E4. apply swp_ret. cbn. intros Est.
    destruct Hres as [->|[-> Hw]]; [done|]. cbn in *. rewrite E1 in *. split_and!; try done.
    + intros i q. by rewrite (fw_id _ _ Hf4), (kp_ids _ _ (cm_keeps _ _ Hm3)), (Hw i q), (fw_id _ _ Hf).
    + rewrite (pres_same _ _ Ed2). eapply cinv_fewer; [by eapply cinv_keep|done|done].
    + by eapply data_ok_same.
Qed.

(** The state is gone: a CLOSE of its stateid succeeds if the client id is
    still there, and changes nothing. *)
Lemma close_again :
  ht_state_id w !! other id = None ->
  swp (nfs4_op_close fh_status fsal_close id sq data)
    (fun r w' => (r_status r.1 = NFS4_OK -> r.1 = mk_resop NFS4_OK (Some (mk_stateid (next_seqid (seqid id)) (other id)))) /\
       fewer w w') w.
Proof.
  intros Hi. unfold nfs4_op_close. destruct (bool_decide (fh_status = NFS4_OK)) eqn:Efh; cbn [negb];
    [|apply swp_ret; by apply bool_decide_eq_false_1 in Efh].
  apply swp_bind. eapply nfs4_Check_Stateid_st; [done..|]. intros status found data1 L1 w1 H1 Hc1 Hd1 HL1 Hs1 Hf1 Hok.
  destruct found as [p|].
  - destruct Hok as (_ & s & so & o & _ & _ & _ & Hi2 & _). unfold resolved in Hi2.
    rewrite bool_decide_false in Hi2 by apply Hreg. congruence.
  - rewrite (bool_decide_false (other id = all_zero)) by apply Hreg.
    destruct (negb _ && _) eqn:Est; apply swp_ret; (split; [cbn|done]); [|done].
    intros ->. by rewrite bool_decide_true in Est by done.
Qed.
End close.
End replies.
