(* ===== verification/StateProps.v ===== *)
(** * States of NFSv4: the properties

    Runs of the server use no freed state and keep the tables of states in
    agreement; a stateid gets the status that its sequence number deserves;
    OPEN gives stateids that name open states; CLOSE removes the state with its
    lock states and nothing else; and a client of v4.0 that repeats a request
    gets the response it had. *)
From S2P Require Import Prelude Status Owners ClientData ClientInv ClientLife ClientFrame Compound ClientRuns ClientProps.
From S2P Require Import StateTable StateOps StateInv StateSafe StateClose StateRuns StateReplies.

Section props.
Context {Cl : Clients} {Ob : Objects} {CLaws : ClientsLaws} {Lose : MayLose}.

Lemma reached_at w l1 data l2 (Oth : Others := reserved (l1 ++ l2)) :
  state_reached w (l1 ++ data :: l2) -> exists held L, sinv held w /\ cinv L (pres data) w /\ data_ok L data.
Proof. intros H. by apply states_ok_at, states_ok_reached. Qed.

(** C5: In every run of interleaved compounds in which objects come and go
    and owners are freed, an operation on states ends with a response: it uses
    no state, owner or client id that was freed, and its loops end.  This needs
    what [well_used] says of the request: a replayed LOCK finds the response
    that was saved, a LOCK that repeats the last request of an owner by the
    state of a lock owner names one, CLOSE names an open state whose lost lock
    states have identifiers of their own, or a lock state without locks, and
    the states of the owners of RELEASE_LOCKOWNER can be deleted. *)
Theorem state_ops_safe w l1 data l2 op :
  state_reached w (l1 ++ data :: l2) -> well_used op data w = true ->
  exists resp data' w', exec_op op data w = Some (resp, data', w').
Proof.
  intros H Hs. destruct (exec_op_ends w l1 data l2 op) as (resp & data' & w' & E & _); [|done|eauto].
  by apply states_ok_reached.
Qed.


(** What a stateid with the sequence number [n] deserves if the lease of its
    client is valid. *)
Section deserves.
Context (s : state_t) (o : nfs4_owner) (obj : Z) (fsal_obj : option Z) (n flags owner_seqid : Z) (check_seqid : bool).

Definition of_file : Prop := forall obj', fsal_obj = Some obj' -> handle_cmp obj' obj = true.
Definition repeated : Prop := n <> 0 /\ repeats s o n owner_seqid check_seqid = true.
Definition current : Prop := n = 0 \/ n = state_seqid s.
Definition freeable : Prop := state_type_of s = STATE_TYPE_LOCK /\ state_locklist s = [].

Inductive deserves : nfsstat4 -> Prop :=
| deserves_other_file : ~ of_file -> deserves NFS4ERR_BAD_STATEID
| deserves_replay : of_file -> repeated -> deserves NFS4ERR_REPLAY
| deserves_old : of_file -> ~ repeated -> n <> 0 -> seq_order n (state_seqid s) = seq_old -> deserves NFS4ERR_OLD_STATEID
| deserves_future : of_file -> ~ repeated -> n <> 0 -> seq_order n (state_seqid s) = seq_future -> deserves NFS4ERR_BAD_STATEID
| deserves_held : of_file -> ~ repeated -> current -> has_flag flags STATEID_SPECIAL_FREE = true -> ~ freeable ->
    deserves NFS4ERR_LOCKS_HELD
| deserves_ok : of_file -> ~ repeated -> current -> (has_flag flags STATEID_SPECIAL_FREE = true -> freeable) -> deserves NFS4_OK.

Lemma may_free_iff : may_free s = true <-> freeable.
Proof. unfold may_free, freeable. destruct (state_type_of s), (state_locklist s); naive_solver. Qed.

Lemma seq_order_current m : seq_order n m = seq_current <-> n = m.
Proof. unfold seq_order. destruct (Z.eqb_spec n m); [done|]. by destruct (_ <=? _). Qed.

Lemma current_deserved : of_file -> ~ repeated -> current ->
  deserves (if has_flag flags STATEID_SPECIAL_FREE && negb (may_free s) then NFS4ERR_LOCKS_HELD else NFS4_OK).
Proof.
  intros Hf Hr Hc. pose proof may_free_iff as Hm. destruct (has_flag flags STATEID_SPECIAL_FREE) eqn:Ef; cbn [andb].
  - destruct (may_free s); cbn [negb]; [apply deserves_ok|apply deserves_held]; naive_solver.
  - apply deserves_ok; [done..|congruence].
Qed.

Lemma status_deserved :
  nfs4_type (state_type_of s) = true -> 0 <= n < 4294967296 -> 0 <= state_seqid s < 4294967296 ->
  deserves (stateid_status s o obj fsal_obj n flags owner_seqid check_seqid).
Proof.
  intros Hty Hn Hs. unfold stateid_status.
  destruct (match fsal_obj with Some obj' => _ | None => _ end) eqn:Ef.
  { apply deserves_other_file. intros Hf. unfold of_file in Hf. destruct fsal_obj as [obj'|]; [|done].
    by rewrite (Hf obj' eq_refl) in Ef. }
  assert (of_file) as Hf. { intros obj' E. rewrite E in Ef. by apply negb_false_iff. }
  destruct (decide (n = 0)) as [E0|Hne].
  - assert (check_seq s o n owner_seqid check_seqid = seq_current) as ->.
    { unfold check_seq. rewrite E0. by destruct (state_type_of s). }
    apply current_deserved; [done|by intros [? _]|by left].
  - rewrite check_seq_order by lia. destruct (repeats s o n owner_seqid check_seqid) eqn:Er; [by apply deserves_replay|].
    assert (~ repeated) as Hr by (intros [_ ?]; congruence). destruct (seq_order n (state_seqid s)) eqn:Eo.
    + apply current_deserved; [done|done|right]. by apply seq_order_current.
    + unfold seq_order in Eo. by repeat case_match.
    + by apply deserves_old.
    + by apply deserves_future.
Qed.
End deserves.

(** The answer that is due to a stateid of the state [s]. *)
Definition answer_due (w : world) (data : op_data) (id : stateid4) (p : positive) (s : state_t) (o : nfs4_owner)
    (fsal_obj : option Z) (flags owner_seqid : Z) (check_seqid : bool)
    (status : nfsstat4) (found : option positive) (data' : op_data) : Prop :=
  match get_state_obj_ref s w with
  | None => lost_status (fst (other id)) flags p data (w_clients w) status found
  | Some obj =>
      if lease_refused (so_clientrec o) data (w_clients w) then status = NFS4ERR_EXPIRED /\ found = None else
      deserves s o obj fsal_obj (seqid id) flags owner_seqid check_seqid status /\
      (found = if bool_decide (status = NFS4_OK) || bool_decide (status = NFS4ERR_REPLAY) then Some p else None) /\
      (status = NFS4_OK -> current_stateid data' = mk_stateid (state_seqid s) (other id))
  end.

(** C15: The check of a stateid that names a state ends and changes no state.
    If the object of the state is found, the answer is EXPIRED exactly if the
    lease of the owner's client is not to be had, else what the file, the
    order of the sequence numbers, a repetition of the owner's last request
    and, for FREE_STATEID, the locks call for; the state is given with OK and
    REPLAY only, and OK makes it the current stateid.  Else the answer is the
    error of the client id, EXPIRED, or STALE, and CLOSE gets the state. *)
Theorem stateid_checked w l1 data l2 id p fsal_obj flags owner_seqid check_seqid :
  state_reached w (l1 ++ data :: l2) -> regular id -> 0 <= seqid id < 4294967296 -> ht_state_id w !! other id = Some p ->
  exists s so o status found data' w', found_at w p so s o /\ stateid_other s = other id /\
    nfs4_Check_Stateid id fsal_obj data flags owner_seqid check_seqid w = Some (status, found, data', w') /\ fewer w w' /\
    answer_due w data id p s o fsal_obj flags owner_seqid check_seqid status found data'.
Proof.
  intros Hr Hreg Hq Hi. destruct (reached_at _ _ _ _ Hr) as (held & L & H & Hc & Hd).
  destruct (linked_owner _ _ _ _ H Hi) as (s & so & o & Hat & Eid). exists s, so, o.
  enough (swp (nfs4_Check_Stateid id fsal_obj data flags owner_seqid check_seqid)
    (fun r w' => fewer w w' /\ answer_due w data id p s o fsal_obj flags owner_seqid check_seqid r.1.1 r.1.2 r.2) w) as Hs.
  { destruct (swp_result _ _ _ Hs) as ([[status found] data'] & w' & E & Hf & HP). by exists status, found, data', w'. }
  unfold answer_due. destruct (get_state_obj_ref s w) as [obj|] eqn:Eobj.
  - assert (names w (other id) p so s o obj) as Hn by (split; [done|apply Hat..|done]).
    pose proof (status_deserved s o obj fsal_obj (seqid id) flags owner_seqid check_seqid
      (si_type _ _ H p s (fa_state _ _ _ _ _ Hat)) Hq (si_seq _ _ H p s (fa_state _ _ _ _ _ Hat))) as Hdes.
    eapply check_known_st; [exact H|exact Hc|exact Hd|exact Hreg|exact Hn|..]; cbn.
    + intros data' w' Er _ _ _ Hf _. split; [done|]. cbn. by rewrite Er.
    + intros data' w' Er H1 H2 _ _ _ Hf _. split; [done|]. cbn. rewrite Er, !bool_decide_false by done. done.
    + intros data' w' Er Hst _ _ _ Hf _ Hcur. split; [done|]. cbn. rewrite Er. split; [done|]. split; [|done].
      by destruct Hst as [E|E]; rewrite E.
  - eapply check_lost_st; [exact H|exact Hc|exact Hd|exact Hreg|exact Hi|apply Hat|exact Eobj|]. intros. by split.
Qed.

(** C30: The sequence number of a stateid is compared with the state's in
    the order of 32-bit serial numbers. *)
Theorem stateid_seq_order s o n owner_seqid :
  0 < n < 4294967296 -> 0 <= state_seqid s < 4294967296 ->
  check_seq s o n owner_seqid false = seq_order n (state_seqid s).
Proof. intros Hn Hs. by rewrite check_seq_order. Qed.

Lemma owner_at_found w i p so s o : ht_state_id w !! i = Some p -> found_at w p so s o -> owner_at w i = Some o.
Proof. intros Hi [Hp Hso Ho _]. unfold owner_at. rewrite Hi. cbn. rewrite Hp. cbn. rewrite Hso. done. Qed.

Lemma found_owner held w i o : sinv held w -> owner_at w i = Some o ->
  exists p so s, ht_state_id w !! i = Some p /\ found_at w p so s o.
Proof.
  intros H Ho. destruct (ht_state_id w !! i) as [p|] eqn:Hi; [|unfold owner_at in Ho; by rewrite Hi in Ho].
  destruct (linked_owner _ _ _ _ H Hi) as (s & so & o' & Hat & _). exists p, so, s.
  rewrite (owner_at_found _ _ _ _ _ _ Hi Hat) in Ho. injection Ho as ->. done.
Qed.

Lemma owner_fewer w w' i p so s o :
  ht_state_id w !! i = Some p -> found_at w p so s o -> fewer w w' -> owner_at w' i = Some o.
Proof.
  intros Hi Hat Hf. destruct (fewer_found _ _ _ _ _ _ Hf Hat) as (s' & Hat' & _).
  eapply owner_at_found; [|exact Hat']. by rewrite (fw_id _ _ Hf).
Qed.

(** C9: A client of v4.0 that repeats a LOCKU which the server took gets the
    response it had, unless its lease has expired, and no state changes. *)
Theorem locku_replayed w l1 data l2 a id sq resp data1 w1 o o1 a2 data2 :
  state_reached w (l1 ++ data :: l2) -> v40 data = true -> regular id -> 0 <= seqid id < 4294967296 ->
  owner_at w (other id) = Some o -> so_seqid o <> sq ->
  nfs4_op_locku a id sq data w = Some (resp, data1, w1) -> owner_at w1 (other id) = Some o1 -> so_seqid o1 = sq ->
  v40 data2 = true -> current_obj data2 = current_obj data -> od_preserved data2 = None -> l_sane a2 = NFS4_OK ->
  exists resp2 data3 w3, nfs4_op_locku a2 id sq data2 w1 = Some (resp2, data3, w3) /\
    (resp2 = resp \/ r_status resp2 = NFS4ERR_EXPIRED) /\ fewer w1 w3.
Proof.
  intros Hr Hv Hreg Hq Ho Hne E Ho1 Es Hv2 Eobj En Hsane.
  assert (state_reached w1 ([] ++ data2 :: l1 ++ data1 :: l2)) as Hr1.
  { apply sr_begin; [|done]. by eapply (sr_op _ _ _ _ (st_locku a id sq)). }
  destruct (reached_at _ _ _ _ Hr) as (held & L & H & Hc & Hd).
  destruct (reached_at _ _ _ _ Hr1) as (held1 & L1 & H1 & Hc1 & Hd1).
  destruct (found_owner _ _ _ _ H Ho) as (p & so & s & Hi & Hat).
  assert (~ fewer w w1) as Hno. { intros Hf. rewrite (owner_fewer _ _ _ _ _ _ _ Hi Hat Hf) in Ho1. congruence. }
  destruct (get_state_obj_ref s w) as [obj|] eqn:Hobj.
  2:{ pose proof (locku_lost held L w id data sq p H Hc Hd Hreg s a Hi (fa_state _ _ _ _ _ Hat) Hobj) as Heff.
      unfold swp in Heff. by rewrite E in Heff. }
  assert (names w (other id) p so s o obj) as Hn by (split; [done|apply Hat..|done]).
  pose proof (locku_effect held L w id data sq p so s obj H Hc Hd Hv Hreg o a Hn Hne) as Heff.
  unfold swp in Heff. rewrite E in Heff. destruct Heff as [Hf|(Hcmp & Hcur & Hsv)]; [done|].
  rewrite <- Eobj in Hcmp, Hsv.
  destruct (swp_result _ _ _ (locku_again held1 L1 w1 id data2 sq p so obj H1 Hc1 Hd1 Hv2 Hreg o s a2 resp Hsv Hcmp Hcur
    (si_type _ _ H p s (fa_state _ _ _ _ _ Hat)) Hq Hsane)) as ([resp2 data3] & w3 & E3 & H3).
  by exists resp2, data3, w3.
Qed.

(** C16: An OPEN that succeeds and is not the replay of the last request of
    its owner gives a stateid that names, in the table, an open state of the
    file under the export, with the state's sequence number. *)
Theorem open_names_state w l1 data l2 a resp data' w' :
  state_reached w (l1 ++ data :: l2) -> nfs4_op_open a data w = Some (resp, data', w') ->
  (v40 data = true -> forall so o, known_owner w true (o_name a) so o -> so_seqid o <> o_seqid a) ->
  o_file a <> inr NFS4_OK -> r_status resp = NFS4_OK ->
  exists so file i, o_file a = inl file /\ resp = mk_resop NFS4_OK (Some i) /\ current_stateid data' = i /\
    current_obj data' = file /\ opens_file file (ctx_export data) so i w'.
Proof.
  intros Hr E Hnew Hfile Est. destruct (reached_at _ _ _ _ Hr) as (held & L & H & Hc & Hd).
  assert (swp (nfs4_op_open a data) (fun r w' => open_fact a data w r w') w) as Hop.
  { eapply nfs4_op_open_st; [exact H|exact Hc|exact Hd|]. intros held' _ r d L' w2 _ _ _ _ Hfact. exact Hfact. }
  unfold swp in Hop. rewrite E in Hop. by apply Hop.
Qed.

(** C17: A CLOSE that succeeds takes the state it names and its lock states
    out of the table of stateids, and no others. *)
Theorem close_removes w l1 data l2 fh_status fsal_close id sq resp data' w' p so s o obj :
  state_reached w (l1 ++ data :: l2) -> regular id -> names w (other id) p so s o obj ->
  state_type_of s = STATE_TYPE_SHARE -> (v40 data = true -> so_seqid o <> sq) ->
  nfs4_op_close fh_status fsal_close id sq data w = Some (resp, data', w') -> r_status resp = NFS4_OK ->
  forall i q, ht_state_id w' !! i = Some q <-> ht_state_id w !! i = Some q /\ q <> p /\ q ∉ share_lockstates s.
Proof.
  intros Hr Hreg Hn Ht Hne E Est. destruct (reached_at _ _ _ _ Hr) as (held & L & H & Hc & Hd).
  pose proof (close_effect held L w id data sq fh_status fsal_close H Hc Hd Hreg p so s o obj Hn Ht Hne) as Heff.
  unfold gwp in Heff. rewrite E in Heff. destruct (Heff Est) as (_ & _ & Hw & _). intros i q.
  rewrite (Hw i q), elem_of_app, list_elem_of_singleton. naive_solver.
Qed.

(** C10: A client that repeats a CLOSE which succeeded gets the response it
    had if the second one succeeds too, and no state changes. *)
Theorem close_replayed w l1 data l2 fh_status fsal_close id sq resp data1 w1 p so s o obj
    fh_status2 fsal_close2 sq2 data2 :
  state_reached w (l1 ++ data :: l2) -> regular id -> 0 < seqid id < 4294967296 -> names w (other id) p so s o obj ->
  state_type_of s = STATE_TYPE_SHARE -> stateid_other s = other id -> (v40 data = true -> so_seqid o <> sq) ->
  nfs4_op_close fh_status fsal_close id sq data w = Some (resp, data1, w1) -> r_status resp = NFS4_OK ->
  od_preserved data2 = None ->
  exists resp2 data3 w3, nfs4_op_close fh_status2 fsal_close2 id sq2 data2 w1 = Some (resp2, data3, w3) /\
    (r_status resp2 = NFS4_OK -> resp2 = resp) /\ fewer w1 w3.
Proof.
  intros Hr Hreg Hq Hn Ht Eid Hne E Est En. destruct (reached_at _ _ _ _ Hr) as (held & L & H & Hc & Hd).
  pose proof (close_effect held L w id data sq fh_status fsal_close H Hc Hd Hreg p so s o obj Hn Ht Hne) as Heff.
  unfold gwp in Heff. rewrite E in Heff. destruct (Heff Est) as (Hcur & Eres & Hw & H1 & Hc1 & Hd1). cbn in Est, Eres.
  assert (ht_state_id w1 !! other id = None) as Hgone.
  { destruct (ht_state_id w1 !! other id) as [q|] eqn:Ei; [|done]. apply Hw in Ei as [Ei Hq']. pose proof (nm_id _ _ _ _ _ _ _ Hn) as Hi.
    exfalso. apply Hq'. apply elem_of_app. right. assert (q = p) as -> by congruence. by left. }
  assert (states_ok w1 ([] ++ data2 :: l1 ++ data1 :: l2)) as Hok1.
  { apply states_ok_begin; [|done]. apply (states_ok_at w1 l1 data1 l2). by exists held, L. }
  apply (states_ok_at w1 [] data2 (l1 ++ data1 :: l2)) in Hok1 as (held2 & L2 & H2 & Hc2 & Hd2).
  destruct (swp_result _ _ _ (close_again held2 L2 w1 id data2 sq2 fh_status2 fsal_close2 H2 Hc2 Hd2 Hreg Hgone))
    as ([resp2 data3] & w3 & E3 & Hok & Hf). exists resp2, data3, w3. split; [done|]. split; [|done].
  intros E2. cbn in Hok. rewrite (Hok E2). destruct resp as [st i]. cbn in *. subst st i. rewrite Eid. do 3 f_equal.
  destruct (check_seq_current _ _ _ _ _ Hcur) as [?|Eq]; [by rewrite Ht|lia|lia|].
  unfold next_seqid. by rewrite Eq, u32_idemp_add.
Qed.
End props.

(** ** A configuration *)

#[local] Existing Instance demo_env.
#[local] Existing Instance demo_laws.
#[local] Existing Instance demo_ops.

(** One export, whose objects are found by their numbers. *)
#[local] Instance demo_objects : Objects := {|
  handle_digest := fun obj => [obj];
  handle_cmp := Z.eqb;
  create_handle := fun export digest => match digest with [obj] => if export =? 1 then Some obj else None | _ => None end;
  export_ready := fun export => export =? 1;
  server_epoch := 7
|}.

(** Objects may go away. *)
#[local] Instance demo_lose : MayLose := True.

(** The client ids after a v4.0 client and a v4.1 client registered. *)
Definition client_events : list event :=
  [send 0 100 [OP_SETCLIENTID [1; 2] 55 []]; send 0 100 [OP_SETCLIENTID_CONFIRM true (demo_id 1) 1];
   send 1 200 [OP_EXCHANGE_ID [3; 4] 66 0 0 true]; send 1 200 [OP_CREATE_SESSION (demo_id 2) 1 0 8 true]].

Definition registered : machine := default (start 0 no_files) (run client_events (start 1000 no_files)).

Lemma registered_run : run client_events (start 1000 no_files) = Some registered.
Proof. vm_compute. reflexivity. Qed.

Lemma registered_holds : ids_hold [] [] (m_world registered).
Proof.
  assert (reached registered) as [Hm _].
  { apply (run_reached 1000 no_files client_events); [apply all_saneb_ok|..|exact registered_run]; vm_compute; reflexivity. }
  assert (m_held registered = [] /\ m_recs registered = [] /\ flights_sessions (m_flights registered) = [] /\
    m_leases registered = []) as (E1 & E2 & E3 & E4) by (vm_compute; done).
  destruct Hm as [Hi Hk Hl _ _]. rewrite E1, E2, E3 in Hi. rewrite E4 in Hl.
  split; [exact Hi|]. split; [exact Hk|]. split; [exact Hl|]. intros p Hp. apply elem_of_nil in Hp. destruct Hp.
Qed.

Definition is_someb {A} (o : option A) : bool := match o with Some _ => true | None => false end.

Lemma default_some {A} (d : A) o : is_someb o = true -> o = Some (default d o).
Proof. by destruct o. Qed.

(** The operations of a compound. *)
Fixpoint run_ops (ops : list state_op) (data : op_data) (w : world) : option (list resop4 * op_data * world) :=
  match ops with
  | [] => Some ([], data, w)
  | op :: ops =>
      if well_used op data w then
        match exec_op op data w with
        | Some (resp, data', w') =>
            match run_ops ops data' w' with
            | Some (resps, data'', w'') => Some (resp :: resps, data'', w'')
            | None => None
            end
        | None => None
        end
      else None
  end.

Lemma run_ops_reached ops : forall data ds w resps data' w',
  state_reached w (data :: ds) -> run_ops ops data w = Some (resps, data', w') -> state_reached w' (data' :: ds).
Proof.
  induction ops as [|op ops IH]; intros data ds w resps data' w' Hr E; cbn in E; [by injection E as <- <- <-|].
  destruct (well_used op data w) eqn:Eu; [|done]. destruct (exec_op op data w) as [[[resp data1] w1]|] eqn:E1; [|done].
  destruct (run_ops ops data1 w1) as [[[resps1 data2] w2]|] eqn:E2; [|done]. injection E as _ <- <-.
  eapply IH; [|exact E2]. exact (sr_op w [] data ds op resp data1 w1 Hr Eu E1).
Qed.

Definition v40_data (obj : Z) : op_data := mk_op_data 0 0 obj 1 (mk_stateid 0 all_zero) false None.
Definition demo_world : world := world_start (m_world registered).

Lemma demo_reached data : od_preserved data = None -> state_reached demo_world [data].
Proof. intros E. apply sr_begin; [|done]. apply sr_start; [exact registered_holds|]. done. Qed.

(** A client of v4.0 opens file 5 of directory 4, confirms its owner and locks
    the file. *)
Definition open_5 (sq : Z) : open_args :=
  mk_open_args NFS4_OK sq (demo_id 1) [1] (Some (inl 5)) NFS4_OK false true false (inl 5) NFS4_OK NFS4_OK.
Definition open_id (n : Z) : stateid4 := mk_stateid n (demo_id 1, 1).
Definition lock_id (n : Z) : stateid4 := mk_stateid n (demo_id 1, 2).
Definition lock_arg (locks : list Z) : lock_args := mk_lock_args NFS4_OK true NFS4_OK STATE_SUCCESS locks locks.

Definition demo_lock_ops : list state_op :=
  [st_open (open_5 1); st_open_confirm NFS4_OK (open_id 1) 2;
   st_lock (lock_arg [9]) (new_lock_owner (open_id 2) 3 1 (demo_id 1) [2])].

Definition demo_locked : list resop4 * op_data * world :=
  default ([], v40_data 4, demo_world) (run_ops demo_lock_ops (v40_data 4) demo_world).

Lemma demo_locked_run : run_ops demo_lock_ops (v40_data 4) demo_world = Some demo_locked.
Proof. apply default_some. vm_compute. reflexivity. Qed.

Lemma demo_locked_replies : demo_locked.1.1 =
  [mk_resop NFS4_OK (Some (open_id 1)); mk_resop NFS4_OK (Some (open_id 2)); mk_resop NFS4_OK (Some (lock_id 1))].
Proof. vm_compute. reflexivity. Qed.

Lemma demo_locked_reached : state_reached demo_locked.2 ([] ++ demo_locked.1.2 :: []).
Proof.
  apply (run_ops_reached demo_lock_ops (v40_data 4) [] demo_world demo_locked.1.1); [by apply demo_reached|].
  rewrite demo_locked_run. by destruct demo_locked as [[? ?] ?].
Qed.

(** Checks of the state that a stateid names, and of its owner. *)
Definition at_id (w : world) (i : stateid_other_t) (f : positive -> state_t -> nfs4_owner -> bool) : bool :=
  match ht_state_id w !! i with
  | Some p =>
      match w_states w !! p with
      | Some s => match state_owner s ≫= fun so => w_owners w !! so with Some o => f p s o | None => false end
      | None => false
      end
  | None => false
  end.

(** The state satisfies [f], and its object is found. *)
Definition at_file (w : world) (i : stateid_other_t) (f : positive -> state_t -> nfs4_owner -> bool) : bool :=
  at_id w i (fun p s o => f p s o && is_someb (get_state_obj_ref s w)).

Lemma at_file_names w l1 data l2 i f : state_reached w (l1 ++ data :: l2) -> at_file w i f = true ->
  exists p so s o obj, names w i p so s o obj /\ f p s o = true /\ stateid_other s = i.
Proof.
  intros Hr Hf. destruct (reached_at _ _ _ _ Hr) as (held & L & H & _ & _). unfold at_file, at_id in Hf.
  destruct (ht_state_id w !! i) as [p|] eqn:Hi; [|done].
  destruct (linked_owner _ _ _ _ H Hi) as (s & so & o & [Hp Hso Ho _] & Es). rewrite Hp, Hso in Hf. cbn in Hf. rewrite Ho in Hf.
  apply andb_true_iff in Hf as [Hf Hobj]. destruct (get_state_obj_ref s w) as [obj|] eqn:Eobj; [|done].
  by exists p, so, s, o, obj.
Qed.

Lemma state_ops_safe_witness :
  exists resp data' w', exec_op (st_locku (lock_arg []) (lock_id 1) 2) demo_locked.1.2 demo_locked.2 = Some (resp, data', w').
Proof.
  apply (state_ops_safe demo_locked.2 [] demo_locked.1.2 []); [exact demo_locked_reached|vm_compute; reflexivity].
Defined.


Lemma regular_demo n c : regular (mk_stateid n (demo_id 1, c)).
Proof. split; [discriminate|]. split; [discriminate|]. reflexivity. Qed.

Lemma stateid_checked_witness :
  exists s so o status found data' w', found_at demo_locked.2 4 so s o /\ stateid_other s = (demo_id 1, 2) /\
    nfs4_Check_Stateid (lock_id 2) (Some 5) demo_locked.1.2 STATEID_SPECIAL_FOR_LOCK 2 true demo_locked.2
      = Some (status, found, data', w') /\ fewer demo_locked.2 w' /\
    answer_due demo_locked.2 demo_locked.1.2 (lock_id 2) 4 s o (Some 5) STATEID_SPECIAL_FOR_LOCK 2 true status found data'.
Proof.
  apply (stateid_checked demo_locked.2 [] demo_locked.1.2 [] (lock_id 2) 4 (Some 5) STATEID_SPECIAL_FOR_LOCK 2 true);
    [exact demo_locked_reached|apply regular_demo|cbn; lia|vm_compute; reflexivity].
Defined.

Lemma stateid_seq_order_witness :
  check_seq (mk_state (demo_id 1, 1) STATE_TYPE_SHARE 1 1 [5] (Some 1) (Some 1%positive) [] None [])
    (mk_nfs4_owner STATE_OPEN_OWNER_NFSV4 1 true 1 18 (Some 4) (mk_resop NFS4_OK None) [] None [])
    4294967295 2 false = seq_order 4294967295 1.
Proof.
  apply (stateid_seq_order (mk_state (demo_id 1, 1) STATE_TYPE_SHARE 1 1 [5] (Some 1) (Some 1%positive) [] None [])
    (mk_nfs4_owner STATE_OPEN_OWNER_NFSV4 1 true 1 18 (Some 4) (mk_resop NFS4_OK None) [] None []) 4294967295 2); cbn; lia.
Defined.

(** The answer of an operation that was run. *)
Definition result (r : option (resop4 * op_data * world)) : resop4 * op_data * world :=
  default (mk_resop NFS4ERR_RESOURCE None, v40_data 0, demo_world) r.
Definition no_owner : nfs4_owner :=
  mk_nfs4_owner STATE_OPEN_OWNER_NFSV4 1 false 0 0 None (mk_resop NFS4_OK None) [] None [].

Lemma result_ok r : is_someb r = true -> r = Some ((result r).1.1, (result r).1.2, (result r).2).
Proof. by destruct r as [[[? ?] ?]|]. Qed.

Definition demo_locku : resop4 * op_data * world :=
  result (nfs4_op_locku (lock_arg []) (lock_id 1) 2 demo_locked.1.2 demo_locked.2).

Lemma locku_replayed_witness :
  exists resp2 data3 w3, nfs4_op_locku (lock_arg [7]) (lock_id 1) 2 (v40_data 5) demo_locku.2 = Some (resp2, data3, w3) /\
    (resp2 = demo_locku.1.1 \/ r_status resp2 = NFS4ERR_EXPIRED) /\ fewer demo_locku.2 w3.
Proof.
  apply (locku_replayed demo_locked.2 [] demo_locked.1.2 [] (lock_arg []) (lock_id 1) 2 demo_locku.1.1 demo_locku.1.2 demo_locku.2
    (default no_owner (owner_at demo_locked.2 (demo_id 1, 2))) (default no_owner (owner_at demo_locku.2 (demo_id 1, 2)))).
  - exact demo_locked_reached.
  - vm_compute. reflexivity.
  - apply regular_demo.
  - cbn. lia.
  - apply default_some. vm_compute. reflexivity.
  - vm_compute. discriminate.
  - apply result_ok. vm_compute. reflexivity.
  - apply default_some. vm_compute. reflexivity.
  - vm_compute. reflexivity.
  - reflexivity.
  - vm_compute. reflexivity.
  - reflexivity.
  - reflexivity.
Defined.

Definition demo_open : resop4 * op_data * world := result (nfs4_op_open (open_5 1) (v40_data 4) demo_world).

Lemma open_names_state_witness :
  exists so file i, inl 5 = inl file :> (Z + nfsstat4) /\ demo_open.1.1 = mk_resop NFS4_OK (Some i) /\
    current_stateid demo_open.1.2 = i /\ current_obj demo_open.1.2 = file /\ opens_file file 1 so i demo_open.2.
Proof.
  apply (open_names_state demo_world [] (v40_data 4) [] (open_5 1)).
  - apply (demo_reached (v40_data 4)). reflexivity.
  - apply result_ok. vm_compute. reflexivity.
  - intros _ so o (n & o0 & Hn & _). cbn in Hn. rewrite lookup_empty in Hn. discriminate Hn.
  - discriminate.
  - vm_compute. reflexivity.
Defined.

Definition demo_close : resop4 * op_data * world :=
  result (nfs4_op_close NFS4_OK NFS4_OK (open_id 2) 4 demo_locku.1.2 demo_locku.2).

Lemma demo_locku_reached : state_reached demo_locku.2 ([] ++ demo_locku.1.2 :: []).
Proof.
  eapply (sr_op demo_locked.2 [] demo_locked.1.2 [] (st_locku (lock_arg []) (lock_id 1) 2) demo_locku.1.1);
    [exact demo_locked_reached|reflexivity|]. apply result_ok. vm_compute. reflexivity.
Qed.

(** An open state that expects another request than [sq]. *)
Definition open_stateb (sq : Z) (p : positive) (s : state_t) (o : nfs4_owner) : bool :=
  bool_decide (state_type_of s = STATE_TYPE_SHARE) && negb (so_seqid o =? sq).

Lemma open_stateb_ok sq p s o : open_stateb sq p s o = true -> state_type_of s = STATE_TYPE_SHARE /\ so_seqid o <> sq.
Proof. intros [H1 H2]%andb_true_iff. by apply bool_decide_eq_true_1 in H1; apply negb_true_iff, Z.eqb_neq in H2. Qed.

Lemma close_removes_witness :
  exists p s, w_states demo_locku.2 !! p = Some s /\
    forall i q, ht_state_id demo_close.2 !! i = Some q <->
      ht_state_id demo_locku.2 !! i = Some q /\ q <> p /\ q ∉ share_lockstates s.
Proof.
  destruct (at_file_names _ [] _ [] (demo_id 1, 1) (open_stateb 4) demo_locku_reached) as (p & so & s & o & obj & Hn & Hf & _).
  { vm_compute. reflexivity. }
  destruct (open_stateb_ok _ _ _ _ Hf) as [Ht Hne]. exists p, s. split; [apply Hn|].
  apply (close_removes demo_locku.2 [] demo_locku.1.2 [] NFS4_OK NFS4_OK (open_id 2) 4 demo_close.1.1 demo_close.1.2 demo_close.2
    p so s o obj); [exact demo_locku_reached|apply regular_demo|exact Hn|exact Ht|intros _; exact Hne| |vm_compute; reflexivity].
  apply result_ok. vm_compute. reflexivity.
Defined.

Lemma close_replayed_witness :
  exists resp2 data3 w3, nfs4_op_close NFS4_OK NFS4_OK (open_id 2) 4 (v40_data 5) demo_close.2 = Some (resp2, data3, w3) /\
    (r_status resp2 = NFS4_OK -> resp2 = demo_close.1.1) /\ fewer demo_close.2 w3.
Proof.
  destruct (at_file_names _ [] _ [] (demo_id 1, 1) (open_stateb 4) demo_locku_reached) as (p & so & s & o & obj & Hn & Hf & Es).
  { vm_compute. reflexivity. }
  destruct (open_stateb_ok _ _ _ _ Hf) as [Ht Hne].
  apply (close_replayed demo_locku.2 [] demo_locku.1.2 [] NFS4_OK NFS4_OK (open_id 2) 4 demo_close.1.1 demo_close.1.2 demo_close.2
    p so s o obj); [exact demo_locku_reached|apply regular_demo|cbn; lia|exact Hn|exact Ht|exact Es|intros _; exact Hne|..].
  - apply result_ok. vm_compute. reflexivity.
  - vm_compute. reflexivity.
  - reflexivity.
Defined.
