(* ===== verification/StateFindings.v ===== *)
(** * States of NFSv4: requests that go wrong

    Requests that reach a NULL pointer, read a list that is none, loop, or
    leave the tables of states in a way the client cannot know. *)
From S2P Require Import Prelude Status Owners ClientData ClientInv ClientLife ClientFrame Compound ClientRuns ClientProps.
From S2P Require Import StateTable StateOps StateInv StateSafe StateClose StateRuns StateReplies StateProps.

(** ** A replay without a saved response *)

Section replay.
Context {Cl : Clients} {Ob : Objects} {CLaws : ClientsLaws} {Lose : MayLose}.

(** C39: A LOCK of v4.0 with a new lock owner, whose open stateid and sequence
    number are those of the last request of an open owner that has no saved
    response, as after an OPEN that was refused for its claim, crashes if
    nothing else is wrong with it: the check takes it for a replay, so that
    the client id is not looked up; [Check_nfs4_seqid] finds nothing to replay
    and lets it go on; and the lock owner is made with the client id NULL. *)
Theorem lock_after_refused_open_crashes w l1 data l2 a id sq lock_seqid clientid name p so s o obj :
  state_reached w (l1 ++ data :: l2) -> v40 data = true -> regular id -> 0 < seqid id < 4294967296 ->
  names w (other id) p so s o obj -> handle_cmp (current_obj data) obj = true ->
  lease_refused (so_clientrec o) data (w_clients w) = false ->
  so_last_entry o = None -> repeats s o (seqid id) sq true = true ->
  l_sane a = NFS4_OK -> l_range a = true -> l_allowed a = NFS4_OK ->
  (exists data' w', nfs4_Check_Stateid id (Some (current_obj data)) data STATEID_SPECIAL_FOR_LOCK sq true w
     = Some (NFS4ERR_REPLAY, Some p, data', w') /\
     Check_nfs4_seqid (Some so) sq OP_LOCK (current_obj data') (mk_resop NFS4_OK None) w'
     = Some (true, mk_resop NFS4_OK None, w')) /\
  nfs4_op_lock a (new_lock_owner id sq lock_seqid clientid name) data w = None.
Proof.
  intros Hr Hv Hreg Hq Hn Hcmp Hlease Hlast Hrep Hsane Hrange Hall.
  destruct (reached_at _ _ _ _ Hr) as (held & L & H & Hc & Hd).
  assert (stateid_status s o obj (Some (current_obj data)) (seqid id) STATEID_SPECIAL_FOR_LOCK sq true = NFS4ERR_REPLAY) as Est.
  { unfold stateid_status. rewrite Hcmp, check_seq_order, Hrep; [done|done|]. apply (si_seq _ _ H p), Hn. }
  assert (swp (nfs4_Check_Stateid id (Some (current_obj data)) data STATEID_SPECIAL_FOR_LOCK sq true)
    (fun r w' => r.1 = (NFS4ERR_REPLAY, Some p) /\ fewer w w' /\ same_request data r.2) w) as Hs.
  { eapply check_known_st; [exact H|exact Hc|exact Hd|exact Hreg|exact Hn|..].
    - intros data' w' Er. congruence.
    - intros data' w' _ _ Hne. by destruct Hne.
    - intros data' w' _ _ _ _ _ Hf Hsr _. by rewrite Est. }
  destruct (swp_result _ _ _ Hs) as ([[st found] data'] & w' & E & Er & Hf & Hsr). injection Er as -> ->.
  destruct (names_fewer _ _ _ _ _ _ _ _ Hn Hf) as (s' & Hn' & _).
  assert (Check_nfs4_seqid (Some so) sq OP_LOCK (current_obj data') (mk_resop NFS4_OK None) w'
    = Some (true, mk_resop NFS4_OK None, w')) as Eck.
  { unfold Check_nfs4_seqid, mbind, SM_bind, get_owner. by rewrite (nm_owner _ _ _ _ _ _ _ Hn'), Hlast. }
  split; [by exists data', w'|]. unfold nfs4_op_lock. rewrite Hsane, bool_decide_true by done. cbn [negb].
  unfold lock_from_open. rewrite Hv. unfold mbind at 1, SM_bind at 1. rewrite E. cbn [fst snd].
  rewrite bool_decide_true by done. unfold owner_of, mbind at 1 2, SM_bind at 1 2, get_state.
  rewrite (nm_state _ _ _ _ _ _ _ Hn'). cbn [mret SM_ret]. rewrite (nm_of _ _ _ _ _ _ _ Hn').
  unfold lock_check_seqid. assert (v40 data' = true) as -> by (destruct Hsr as (Em & _); cbn in Em; unfold v40 in *; by rewrite Em).
  cbn [lv_resp_owner lv_seqid lv_open]. unfold mbind at 1, SM_bind at 1. rewrite Eck. cbn [fst snd negb].
  rewrite Hrange. cbn [negb]. unfold mbind at 1, SM_bind at 1, get_state. rewrite (nm_state _ _ _ _ _ _ _ Hn').
  rewrite Hall, bool_decide_true by done. done.
Qed.
End replay.

#[local] Existing Instance demo_env.
#[local] Existing Instance demo_laws.
#[local] Existing Instance demo_ops.
#[local] Existing Instance demo_objects.
#[local] Existing Instance demo_lose.

Lemma not_some {A} (o : option A) : is_someb o = false -> o = None.
Proof. by destruct o. Qed.

(** An OPEN that [open4_validate_claim] refuses. *)
Definition open_refused (sq : Z) : open_args :=
  mk_open_args NFS4_OK sq (demo_id 1) [1] (Some (inl 5)) NFS4ERR_NO_GRACE false true false (inl 5) NFS4_OK NFS4_OK.

Definition refused_ops : list state_op :=
  [st_open (open_5 1); st_open_confirm NFS4_OK (open_id 1) 2; st_open (open_refused 3)].

Definition demo_refused : list resop4 * op_data * world :=
  default ([], v40_data 4, demo_world) (run_ops refused_ops (v40_data 4) demo_world).

Lemma demo_refused_reached : state_reached demo_refused.2 [demo_refused.1.2].
Proof.
  apply (run_ops_reached refused_ops (v40_data 4) [] demo_world demo_refused.1.1); [by apply demo_reached|].
  assert (run_ops refused_ops (v40_data 4) demo_world = Some demo_refused) as E by (apply default_some; vm_compute; reflexivity).
  rewrite E. by destruct demo_refused as [[? ?] ?].
Qed.

Definition first_lock (sq : Z) : locker4 := new_lock_owner (open_id 2) sq 1 (demo_id 1) [2].

(** The owner has the sequence number [sq] and no saved response, the state
    the sequence number [n]. *)
Definition unsavedb (n sq : Z) (p : positive) (s : state_t) (o : nfs4_owner) : bool :=
  negb (is_someb (so_last_entry o)) && repeats s o n sq true &&
  negb (lease_refused (so_clientrec o) demo_refused.1.2 (w_clients demo_refused.2)).

Lemma lock_after_refused_open_crashes_witness :
  r_status <$> last demo_refused.1.1 = Some NFS4ERR_NO_GRACE /\
  nfs4_op_lock (lock_arg [9]) (first_lock 3) demo_refused.1.2 demo_refused.2 = None.
Proof.
  split; [vm_compute; reflexivity|].
  destruct (at_file_names demo_refused.2 [] demo_refused.1.2 [] (demo_id 1, 1)
    (fun p s o => unsavedb 2 3 p s o && bool_decide (get_state_obj_ref s demo_refused.2 = Some 5)) demo_refused_reached)
    as (p & so & s & o & obj & Hn & [Hu Hobj]%andb_true_iff & _); [vm_compute; reflexivity|].
  apply bool_decide_eq_true_1 in Hobj. assert (obj = 5) as -> by (pose proof (nm_obj _ _ _ _ _ _ _ Hn); congruence).
  apply andb_true_iff in Hu as [[Hl Hrep]%andb_true_iff Hlease].
  apply negb_true_iff in Hl, Hlease. assert (so_last_entry o = None) as Hlast by (destruct (so_last_entry o); [discriminate Hl|reflexivity]).
  destruct (lock_after_refused_open_crashes demo_refused.2 [] demo_refused.1.2 [] (lock_arg [9]) (open_id 2) 3 1 (demo_id 1) [2]
    p so s o 5) as [_ Hx]; [exact demo_refused_reached|vm_compute; reflexivity|apply regular_demo|cbn; lia|exact Hn|vm_compute; reflexivity
    |exact Hlease|exact Hlast|exact Hrep|reflexivity|reflexivity|reflexivity|exact Hx].
Defined.

(** The refused OPEN, repeated, is processed again instead of answered from
    the saved response. *)
Lemma refused_open_processed_again :
  exists w data, state_reached w [data] /\
    r_status <$> (last (demo_refused.1.1)) = Some NFS4ERR_NO_GRACE /\
    r_status (result (nfs4_op_open (open_5 3) data w)).1.1 = NFS4_OK.
Proof.
  exists demo_refused.2, demo_refused.1.2. split; [exact demo_refused_reached|]. split; vm_compute; reflexivity.
Qed.

(** LOCK with the stateid of an open state where one of a lock state is due,
    and the last sequence number of the open owner, counts a reference to the
    open owner of an open owner, which is NULL. *)
Lemma lock_by_open_state_crashes :
  exists w data, state_reached w [data] /\
    nfs4_op_lock (lock_arg [9]) (old_lock_owner (open_id 2) 3) data w = None.
Proof.
  exists demo_locked.2, demo_locked.1.2. split; [exact demo_locked_reached|].
  apply not_some. vm_compute. reflexivity.
Qed.

(** CLOSE with the stateid of a lock state that has locks walks the locks as
    if they were states. *)
Lemma close_of_lock_state_crashes :
  exists w data, state_reached w [data] /\ nfs4_op_close NFS4_OK NFS4_OK (lock_id 1) 2 data w = None.
Proof.
  exists demo_locked.2, demo_locked.1.2. split; [exact demo_locked_reached|].
  apply not_some. vm_compute. reflexivity.
Qed.

(** A refused LOCK of a lock owner that is announced as new deletes the lock
    state it already had, with its locks. *)
Lemma refused_lock_deletes_state :
  exists w data resp data' w', state_reached w [data] /\ is_Some (ht_state_id w !! other (lock_id 1)) /\
    nfs4_op_lock (mk_lock_args NFS4_OK true NFS4_OK STATE_LOCK_CONFLICT [9] [9])
      (new_lock_owner (open_id 2) 4 2 (demo_id 1) [2]) data w = Some (resp, data', w') /\
    r_status resp = NFS4ERR_DENIED /\ ht_state_id w' !! other (lock_id 1) = None.
Proof.
  set (r := nfs4_op_lock (mk_lock_args NFS4_OK true NFS4_OK STATE_LOCK_CONFLICT [9] [9])
    (new_lock_owner (open_id 2) 4 2 (demo_id 1) [2]) demo_locked.1.2 demo_locked.2).
  exists demo_locked.2, demo_locked.1.2, (result r).1.1, (result r).1.2, (result r).2.
  split; [exact demo_locked_reached|]. split; [vm_compute; eauto|]. split; [apply result_ok; vm_compute; reflexivity|].
  split; vm_compute; reflexivity.
Qed.

(** An OPEN whose file the backend does not open leaves its new state in the
    tables, with a reference that nobody gives back. *)
Lemma failed_open_leaves_state :
  exists resp data' w', nfs4_op_open (mk_open_args NFS4_OK 1 (demo_id 1) [1] None NFS4_OK false true false (inl 5)
      NFS4ERR_IO NFS4_OK) (v40_data 4) demo_world = Some (resp, data', w') /\
    r_status resp = NFS4ERR_IO /\ at_id w' (demo_id 1, 1) (fun _ s _ => state_refcount s =? 2) = true.
Proof.
  set (r := nfs4_op_open (mk_open_args NFS4_OK 1 (demo_id 1) [1] None NFS4_OK false true false (inl 5)
      NFS4ERR_IO NFS4_OK) (v40_data 4) demo_world).
  exists (result r).1.1, (result r).1.2, (result r).2.
  split; [apply result_ok; vm_compute; reflexivity|]. split; vm_compute; reflexivity.
Qed.

(** The references to the client id. *)
Definition client_refs (w : world) : option Z := cid_refcount <$> w_ids (w_clients w) !! 2%positive.

(** A repeated CLOSE keeps its reference to the client id. *)
Lemma repeated_close_keeps_client :
  exists w data resp data' w', state_reached w [data] /\
    nfs4_op_close NFS4_OK NFS4_OK (open_id 2) 4 data w = Some (resp, data', w') /\ r_status resp = NFS4_OK /\
    (fun n => n + 1) <$> client_refs w = client_refs w'.
Proof.
  set (r := nfs4_op_close NFS4_OK NFS4_OK (open_id 2) 4 demo_close.1.2 demo_close.2).
  exists demo_close.2, demo_close.1.2, (result r).1.1, (result r).1.2, (result r).2. split.
  - eapply (sr_op demo_locku.2 [] demo_locku.1.2 [] (st_close NFS4_OK NFS4_OK (open_id 2) 4) demo_close.1.1);
      [exact demo_locku_reached|vm_compute; reflexivity|]. apply result_ok. vm_compute. reflexivity.
  - split; [apply result_ok; vm_compute; reflexivity|]. split; vm_compute; reflexivity.
Qed.

(** ** Objects that went away *)

(** CLOSE of an open state and its lock state while their object is not found
    takes them from the tables and leaves them on the lists of their file,
    with their references. *)
Lemma close_of_lost_state_leaks :
  exists w data resp data' w', state_reached w [data] /\
    nfs4_op_close NFS4_OK NFS4_OK (open_id 2) 4 data w = Some (resp, data', w') /\ r_status resp = NFS4_OK /\
    ht_state_id w' !! other (open_id 2) = None /\ ht_state_id w' !! other (lock_id 1) = None /\
    length (list_at [5] (list_of_states w')) = 2%nat.
Proof.
  set (w := set_gone {[(1, [5])]} demo_locku.2).
  set (r := nfs4_op_close NFS4_OK NFS4_OK (open_id 2) 4 demo_locku.1.2 w).
  exists w, demo_locku.1.2, (result r).1.1, (result r).1.2, (result r).2.
  split; [apply sr_objects; [exact demo_locku_reached|done]|]. split; [apply result_ok; vm_compute; reflexivity|].
  split_and!; vm_compute; reflexivity.
Qed.

(** RELEASE_LOCKOWNER deletes the states of the owner until there are none;
    a state whose object cannot be found is not deleted, so that no number of
    turns is enough. *)
Lemma stale_release_loops {Cl : Clients} {Ob : Objects} n so o p rest s (w : world) :
  w_owners w !! so = Some o -> so_states o = p :: rest -> w_states w !! p = Some s ->
  get_state_obj_ref s w = None -> state_type_of s = STATE_TYPE_LOCK -> 0 < state_refcount s ->
  release_lock_states n so w = None.
Proof.
  intros Ho Est Hp Hobj Hty Hr. revert w s Ho Hp Hobj Hty Hr. induction n as [|n IH]; intros w s Ho Hp Hobj Hty Hr; cbn;
    unfold mbind, SM_bind, get_owner; rewrite Ho, Est; [done|].
  unfold inc_state_t_ref, upd_state, mbind, SM_bind, get_state, put_state, change. rewrite Hp. cbn [w_states set_states].
  unfold state_del, mbind, SM_bind, get_state. cbn [w_states set_states]. rewrite lookup_insert_eq.
  unfold view, get_state_obj_ref in *. cbn [state_export state_obj set_state_refcount w_gone set_states]. rewrite Hobj. cbn [mret SM_ret].
  unfold dec_state_t_ref, mbind, SM_bind, get_state. cbn. rewrite lookup_insert_eq. cbn. rewrite Hty.
  unfold dec_nfs4_state_ref, mbind, SM_bind, get_state. cbn. rewrite lookup_insert_eq. cbn.
  destruct (Z.ltb_spec 0 (state_refcount s + 1 - 1)); [|lia]. unfold put_state, change. cbn.
  eapply IH; cbn; [done|by rewrite lookup_insert_eq|done|done|]. cbn. lia.
Qed.
